(* ===== verification/_CoqProject ===== *)
-Q . S2P
Prelude.v
CString.v
Printf.v
Param.v
Iface.v
Sleeplock.v
Spinlock.v
Kalloc.v
Vm.v
VmSpec.v
Ide.v
Bio.v
Log.v
LogSpec.v
LogCrash.v
LogTxn.v
LogBio.v
Fs.v
FsBlock.v
FsPath.v
FsInode.v
FsRead.v
FsDemo.v
Pipe.v
File.v
Syscall.v
Sysfile.v
Proc.v
Mlfq.v
Sched.v
ProcSpec.v
MlfqPick.v
Sysproc.v
Trap.v
Sorts.v
SortsSpec.v
Console.v
ConsoleSpec.v
Kbd.v
Exec.v
Balance.v
BalanceFs.v
BalanceSys.v
ExecSpec.v
User.v
Grep.v
Utils.v
Sh.v
ShSpec.v
ShRun.v
Cabs.v
CabsSpec.v
Biryani.v
BiryaniSpec.v
Reverse.v
ReverseSpec.v
Umalloc.v
UmallocSpec.v
Mkfs.v
MkfsSpec.v
MkfsImage.v
MkfsDisk.v
MkfsKernel.v
Gosh.v
GoshSpec.v
GoshSys.v
GoshExec.v
GoshLaws.v
GoshDemo.v
GoshExecSpec.v
GoshFds.v
GoshJobs.v
Boot.v
BootSpec.v
MpSpec.v
Devices.v
DevicesSpec.v
Programs.v
Startup.v
Panic.v
