(* ===== verification/Prelude.v ===== *)
(** * xv6 with new schedulers, its user programs, and the concurrency assignments

    This library models the C programs of the repository as executable Rocq definitions and
    proves what makes them correct. Most of the code is the xv6 kernel under
    [A5/xv6-public] (extended with four schedulers and the system calls [waitx] and
    [getpinfo]); the rest are its user programs, the host program [mkfs], and the
    programs of the other assignments: a file reversal (1), a shell for Linux (2 and 3), and
    multi-process and multi-threaded programs (4).

    ** How code is modelled

    A C integer is a [Z] kept in the range of its type by [u32], [s32], [u16], [s16] or [u8]
    wherever the code can overflow; a byte buffer is a list of [Z]; a block of the disk is a
    list of 512 bytes; a pointer is an address in a total map of bytes (CString.v), or the
    index of an object in its table ([struct proc *], [struct buf *], [struct inode *]).
    Functions that change state are values of the monad [M S A] of this file: [Ret a s] is a
    return, [Panic] is [panic], a failed [assert] or an access the model does not allow,
    [Asleep c s] is a process that goes to sleep on channel [c] and leaves the rest of the
    call to be resumed, and [NoFuel] is a loop that used up its bound. A lens and [zoom] run an
    operation of a component in the state of a larger one. [wp] is the weakest
    precondition: the operation returns and its result satisfies the postcondition.
    Code that sleeps in the middle (pipes, the console, [sys_sleep]) is cut into the
    segments between two sleeps, each run under the component's lock; the threads of
    assignment 4 and the instructions of a spinlock are step relations, so that their
    interleavings are explicit.

    ** The parts, from the bottom

    - Prelude: machine integers, the monad, lenses, lists. Param: param.h, fs.h, the
      bytes of disk structures, and a disk as the history of its writes. Iface: the
      type classes through which components see each other.
    - CString: string.c and the pure part of ulib.c. Printf: printf.c.
    - Spinlock: spinlock.c, the instructions of several CPUs interleaved; mutual exclusion,
      and the refinement of the lock that the sequential code sees ([Iface.spin_acquire]).
      Sleeplock: sleeplock.c over the process table's interface [ProcIface].
    - Kalloc: kalloc.c. Vm, VmSpec: vm.c; a page directory is a map from pages to entries.
    - Ide: ide.c; the controller executes the command it was given when it raises its
      interrupt. Bio: bio.c over ide.c, implementing [BlockOps]/[BlockLaws]. Log: log.c over
      [BlockOps]; LogSpec, LogCrash: commit and recovery over a disk that may stop after any
      write; LogTxn: the log implements [TxnOps]/[TxnLaws]; LogBio: the three together.
    - Fs: fs.c over [TxnOps]; FsBlock (the free map), FsPath (names), FsInode (inodes
      and their cache), FsRead (file contents and directories) are its theory over [TxnLaws],
      FsDemo a concrete disk below it. Pipe: pipe.c. File: file.c over both.
    - Syscall: syscall.c. Sysfile: sysfile.c. Balance, BalanceFs, BalanceSys: a logic of open
      transactions, applied to log.c, fs.c and every call of sysfile.c.
    - Proc: proc.c, the process table, fork/exit/wait, and the schedulers (round robin,
      first come first served, priorities, multi-level feedback queues); Mlfq and MlfqPick are
      the queues as lists and the choice they make, Sched and ProcSpec the other choices and
      the life of a process. Sysproc: sysproc.c. Trap: trap.c and preemption.
    - Console, ConsoleSpec: console.c; Kbd: kbd.c; Panic: what [panic] and [procdump] print.
      Exec, ExecSpec: exec.c.
    - The hardware's side, over ports and device registers as a parameter ([Boot.Bus]): Boot is
      bootmain.c and mp.c, BootSpec and MpSpec their theory; Devices is lapic.c, ioapic.c,
      picirq.c, uart.c, memide.c and the ports of ide.c, DevicesSpec their theory; Startup is
      the descriptor tables, the first page table and the start of the other processors.
    - User programs, over the system calls as an interface ([UserSys], User.v): Grep, Utils
      (cat, wc, echo, ln, mkdir, rm, kill), Programs (init, ls, time, forktest, stressfs,
      zombie), Sh, ShSpec, ShRun (the shell's parser and [runcmd]), Umalloc and UmallocSpec
      (malloc and free).
    - Mkfs: mkfs.c; MkfsSpec (one append), MkfsImage (the inodes after each step), MkfsDisk
      (the whole image), MkfsKernel (fs.c reading that image).
    - Assignment 1: Reverse, ReverseSpec (Q1.c, Q2.c), over the host's files.
    - Assignments 2 and 3, the Linux shell, over the host's calls as a type class
      ([GoshSys.Host]): Gosh (lines, words, the history) with GoshSpec; GoshSys (directories,
      the prompt, ls, pinfo); GoshExec (commands, redirections, pipelines, jobs, the built-in
      commands, the main loop); GoshLaws (the laws of descriptors and what every operation
      keeps), GoshDemo (a concrete host), GoshExecSpec, GoshFds (descriptors), GoshJobs
      (the job table and the directories).
    - Assignment 4: Sorts, SortsSpec (q1), Biryani, BiryaniSpec (q2), Cabs, CabsSpec (q3).

    ** What the theorems show

    - Persistence: a crash between any two disk writes of [end_op] leaves all or none of the
      transaction after recovery ([LogCrash.end_op_crash_atomic]); every file-system call
      closes the transactions it opens and logs only inside them
      ([BalanceSys.syscalls_balanced]); what mkfs writes is what [dirlookup] and [readi]
      return ([MkfsDisk.mkfs_image], [MkfsKernel.mkfs_then_kernel]); [balloc], [readi],
      [dirlookup], [iget] do what their contracts say over any transaction layer.
    - Mutual exclusion of spinlocks and sleeplocks; the pipe delivers what was written, in
      order, under every interleaving of readers and writers ([Pipe.Traffic.pipe_fifo]).
    - Memory: page tables refine maps, [copyout] writes what the user reads back, system-call
      arguments stay inside the process ([Syscall.argptr_safe]), [exec]
      replaces the process image or leaves it alone, [malloc] hands out disjoint blocks inside
      the process and keeps the rest free.
    - Scheduling: what each policy runs, when it preempts, the promotion by age, and that
      strict priorities starve ([Sched.pbs_starves]).
    - The console's input ring refines a line editor; the shell's parser ends on every line
      and its words are the line's words; a pipeline's commands get the right descriptors;
      grep's matcher is regular-expression matching; [wc] counts however reads are cut.
    - The hardware's side: the boot loader loads exactly the image's segments; [mpinit] finds
      the processors of every well-formed table; the gates lead every trap into the kernel and
      let user code raise the system call only ([Startup.traps_enter_kernel]); interrupts are
      routed where [ioapicenable] says; the date read is the date shown; the port writes of
      [idestart] are the command of the queue's model, and the memory disk does what the IDE
      disk does; [panic] prints and stops, unless the console's lock is held.
    - The Linux shell: a line's words come back, the history survives a restart, a command
      leaves the descriptors as they were but for those the code forgets to close
      ([GoshFds.execCommand_descriptors]), and jobs keep their numbers.
    - Assignment 1: the output is the reversed input, and the check decides that.
    - Assignment 4: the mergesort sorts under every order of its threads, the quicksort's
      threads never share an element, no assertion of the cab simulation fails, and no
      student of the biryani simulation is seated past the end of a table.

    ** Fuel and bounds

    A recursion that is not structural takes a [fuel] argument which its caller computes
    from the data: the bytes left to read or print, the length of the command line, the
    number of blocks or pages in a range, of entries in a directory, of elements of a
    queue or a list. The theorems about such functions state that the result is returned,
    so they show the fuel to be enough; running out is the separate outcome [NoFuel], which
    no theorem treats as a success. Loops that wait for another party (a spinning
    [acquire], [iderw], a status register, another processor, a shell reading commands) take
    the number of rounds as an argument; their theorems say from which number on they end.

    ** Not modelled

    Assembly (the .S files): [swtch] is the end of a segment, and what a started processor
    runs is a parameter. [main] and [mpmain] of main.c, which call the other parts in
    order; [forkret]; the task state segment beyond what [switchuvm] stores. Progress messages
    and random draws of mkfs and of the simulations. In the Linux shell: [getProcName], which
    is never called, signal handlers in the middle of an operation, and the case where
    [setenv] overwrites the next command (the outcome [GStray]). The test programs (usertests.c, the scheduler testers) print what they see. *)
From stdpp Require Export base list gmap strings numbers relations.
From Stdlib Require Export ZArith Lia ZifyBool.
#[global] Open Scope Z_scope.
#[global] Open Scope list_scope.

(** ** Machine integers *)

(** A C [uint]: a [Z] reduced modulo 2^32. *)
Definition u32 (x : Z) : Z := x mod 2 ^ 32.
(** A C [int] read back from its 32-bit pattern. *)
Definition s32 (x : Z) : Z :=
  let u := u32 x in if u <? 2 ^ 31 then u else u - 2 ^ 32.
(** A C [ushort] / [short] / [uchar]. *)
Definition u16 (x : Z) : Z := x mod 2 ^ 16.
Definition s16 (x : Z) : Z :=
  let u := u16 x in if u <? 2 ^ 15 then u else u - 2 ^ 16.
Definition u8 (x : Z) : Z := x mod 2 ^ 8.

Create HintDb kernel.
Create Rewrite HintDb kernel.

Ltac Zify.zify_post_hook ::= Z.to_euclidean_division_equations.

Lemma u32_small x : 0 <= x < 2 ^ 32 -> u32 x = x.
Proof. apply Z.mod_small. Qed.

Lemma u32_range x : 0 <= u32 x < 2 ^ 32.
Proof. apply Z.mod_pos_bound. lia. Qed.

Lemma u32_idem x : u32 (u32 x) = u32 x.
Proof. apply u32_small, u32_range. Qed.

Lemma u32_add_l x y : u32 (u32 x + y) = u32 (x + y).
Proof. unfold u32. apply Z.add_mod_idemp_l. lia. Qed.

Lemma u32_add_r x y : u32 (x + u32 y) = u32 (x + y).
Proof. unfold u32. apply Z.add_mod_idemp_r. lia. Qed.

Lemma u8_small x : 0 <= x < 256 -> u8 x = x.
Proof. apply Z.mod_small. Qed.

Lemma u8_range x : 0 <= u8 x < 256.
Proof. apply (Z.mod_pos_bound x (2 ^ 8)). lia. Qed.

Lemma s32_small x : - 2 ^ 31 <= x < 2 ^ 31 -> s32 x = x.
Proof. unfold s32, u32. case_match; lia. Qed.

#[export] Hint Resolve u32_range u8_range : kernel.
#[export] Hint Rewrite u32_idem u32_add_l u32_add_r : kernel.

(** ** Channels, outcomes and the kernel monad *)

(** What a thread can [sleep] on: the addresses xv6 uses as channels. *)
Inductive chan :=
| ChBuf (i : nat)          (* &bcache.buf[i]: iderw *)
| ChSleepLock (i : nat)    (* a sleeplock *)
| ChLog                    (* &log *)
| ChTicks                  (* &ticks *)
| ChPipeRead (i : nat)     (* &p->nread *)
| ChPipeWrite (i : nat)    (* &p->nwrite *)
| ChProc (i : nat)         (* &ptable.proc[i]: wait *)
| ChInput.                 (* &input.r *)

#[global] Instance chan_eq_dec : EqDecision chan.
Proof. solve_decision. Defined.

(** The outcome of running kernel code from a state: it returns, it calls
    [panic], it goes to sleep on a channel (nobody else runs in a sequential
    run, so the run stops there), or the model's loop bound is exhausted. *)
Inductive res (S A : Type) :=
| Ret (a : A) (s : S)
| Panic (msg : string)
| Asleep (c : chan) (s : S)
| NoFuel.
Arguments Ret {S A}.
Arguments Panic {S A}.
Arguments Asleep {S A}.
Arguments NoFuel {S A}.

(** The kernel monad: state passing with [panic] and [sleep]. *)
Definition M (S A : Type) : Type := S -> res S A.

Definition ret {S A} (a : A) : M S A := fun s => Ret a s.
Definition bind {S A B} (m : M S A) (k : A -> M S B) : M S B := fun s =>
  match m s with
  | Ret a s' => k a s'
  | Panic e => Panic e
  | Asleep c s' => Asleep c s'
  | NoFuel => NoFuel
  end.
Definition panic {S A} (msg : string) : M S A := fun _ => Panic msg.
Definition asleep {S A} (c : chan) : M S A := fun s => Asleep c s.
Definition get {S} : M S S := fun s => Ret s s.
Definition gets {S A} (f : S -> A) : M S A := fun s => Ret (f s) s.
Definition modify {S} (f : S -> S) : M S unit := fun s => Ret tt (f s).
Definition when {S} (b : bool) (m : M S unit) : M S unit :=
  if b then m else ret tt.

Declare Scope kernel_scope.
Delimit Scope kernel_scope with K.
Notation "'let!' x := m 'in' k" := (bind m (fun x => k))
  (at level 10, x pattern, m at level 100, k at level 200,
   format "'[v' 'let!'  x  :=  m  'in' '/' k ']'") : kernel_scope.
Notation "m ;;; k" := (bind m (fun _ => k))
  (at level 199, right associativity, format "'[v' m ;;; '/' k ']'")
  : kernel_scope.
#[global] Open Scope kernel_scope.

(** A view of one part of a larger state. *)
Record lens (S T : Type) := Lens {
  lget : S -> T;
  lset : T -> S -> S
}.
Arguments Lens {S T}.
Arguments lget {S T}.
Arguments lset {S T}.

Class LensLaws {S T} (l : lens S T) := {
  lget_lset t s : lget l (lset l t s) = t;
  lset_lget s : lset l (lget l s) s = s;
  lset_lset t t' s : lset l t (lset l t' s) = lset l t s
}.

(** Running code of a component inside a larger state. *)
Definition zoom {S T A} (l : lens S T) (m : M T A) : M S A := fun s =>
  match m (lget l s) with
  | Ret a t => Ret a (lset l t s)
  | Panic e => Panic e
  | Asleep c t => Asleep c (lset l t s)
  | NoFuel => NoFuel
  end.

(** ** Total-correctness assertions *)

(** [wp m Q s]: from [s] the code returns (no panic, no sleep, no exhausted
    bound) and the result and final state satisfy [Q]. *)
Definition wp {S A} (m : M S A) (Q : A -> S -> Prop) (s : S) : Prop :=
  match m s with Ret a s' => Q a s' | _ => False end.

Section wp_rules.
Context {S : Type}.

Lemma wp_ret {A} (a : A) Q (s : S) : Q a s -> wp (ret a) Q s.
Proof. done. Qed.

Lemma wp_bind {A B} (m : M S A) (k : A -> M S B) Q s :
  wp m (fun a s' => wp (k a) Q s') s -> wp (bind m k) Q s.
Proof. unfold wp, bind. by destruct (m s). Qed.

Lemma wp_get Q (s : S) : Q s s -> wp get Q s.
Proof. done. Qed.

Lemma wp_gets {A} (f : S -> A) Q s : Q (f s) s -> wp (gets f) Q s.
Proof. done. Qed.

Lemma wp_modify (f : S -> S) Q s : Q tt (f s) -> wp (modify f) Q s.
Proof. done. Qed.

Lemma wp_when (b : bool) (m : M S unit) Q s :
  (b = true -> wp m Q s) -> (b = false -> Q tt s) -> wp (when b m) Q s.
Proof. destruct b; simpl; auto using wp_ret. Qed.

Lemma wp_mono {A} (m : M S A) (P Q : A -> S -> Prop) s :
  wp m P s -> (forall a s', P a s' -> Q a s') -> wp m Q s.
Proof. unfold wp. destruct (m s); naive_solver. Qed.

Lemma wp_run {A} (m : M S A) Q s :
  wp m Q s <-> exists a s', m s = Ret a s' /\ Q a s'.
Proof.
  unfold wp. destruct (m s); naive_solver.
Qed.

Lemma wp_zoom {T A} (l : lens S T) (m : M T A) Q s :
  wp m (fun a t => Q a (lset l t s)) (lget l s) -> wp (zoom l m) Q s.
Proof. unfold wp, zoom. by destruct (m (lget l s)). Qed.
End wp_rules.

(** One symbolic-execution step. *)
Ltac wp_step :=
  lazymatch goal with
  | |- wp (bind _ _) _ _ => apply wp_bind
  | |- wp (ret _) _ _ => apply wp_ret
  | |- wp get _ _ => apply wp_get
  | |- wp (gets _) _ _ => apply wp_gets
  | |- wp (modify _) _ _ => apply wp_modify
  | |- wp (when _ _) _ _ => apply wp_when; intros ?
  | |- wp (zoom _ _) _ _ => apply wp_zoom
  end.
Ltac wp_steps := repeat (wp_step; cbn beta).

(** ** Lists indexed by [Z] *)

Definition zlen {A} (l : list A) : Z := Z.of_nat (length l).
(** [l[i]] of a byte or word array; 0 outside it. *)
Definition znth (l : list Z) (i : Z) : Z :=
  if i <? 0 then 0 else nth (Z.to_nat i) l 0.
(** [l[i] = x]; an index outside the array changes nothing. *)
Definition zupd (l : list Z) (i x : Z) : list Z :=
  if i <? 0 then l else <[Z.to_nat i := x]> l.
(** [memmove(l + off, data, |data|)] into an array of fixed size. *)
Definition splice {A} (l : list A) (off : nat) (data : list A) : list A :=
  take off l ++ data ++ drop (off + length data) l.

Lemma length_zupd l i x : length (zupd l i x) = length l.
Proof. unfold zupd. case_match; [done|]. apply length_insert. Qed.

Lemma znth_lookup l i x : 0 <= i -> l !! Z.to_nat i = Some x -> znth l i = x.
Proof.
  intros Hi Hl. unfold znth. destruct (Z.ltb_spec i 0); [lia|].
  by apply nth_lookup_Some.
Qed.

Lemma znth_zupd_eq l i x : 0 <= i < zlen l -> znth (zupd l i x) i = x.
Proof.
  unfold zlen. intros Hi. apply znth_lookup; [lia|].
  unfold zupd. case_match; [lia|].
  apply list_lookup_insert_eq. lia.
Qed.

Lemma znth_zupd_ne l i j x : i <> j -> znth (zupd l i x) j = znth l j.
Proof.
  intros Hij. unfold znth, zupd.
  case_match; [done|]. case_match; [done|].
  rewrite !nth_lookup, list_lookup_insert_ne; [done|lia].
Qed.

Lemma length_splice {A} (l : list A) off data :
  (off + length data <= length l)%nat -> length (splice l off data) = length l.
Proof.
  intros H. unfold splice.
  rewrite !length_app, length_take, length_drop. lia.
Qed.

Lemma lookup_splice_in {A} (l : list A) off data i :
  (off + length data <= length l)%nat -> (i < length data)%nat ->
  splice l off data !! (off + i)%nat = data !! i.
Proof.
  intros H Hi. unfold splice.
  rewrite lookup_app_r by (rewrite length_take; lia).
  rewrite length_take, Nat.min_l by lia.
  replace (off + i - off)%nat with i by lia.
  by rewrite lookup_app_l by lia.
Qed.

Lemma lookup_splice_out {A} (l : list A) off data i :
  (off + length data <= length l)%nat ->
  (i < off \/ off + length data <= i)%nat ->
  splice l off data !! i = l !! i.
Proof.
  intros H Hi. unfold splice. destruct (decide (i < off)%nat).
  - rewrite lookup_app_l by (rewrite length_take; lia).
    by rewrite lookup_take_lt by lia.
  - rewrite lookup_app_r by (rewrite length_take; lia).
    rewrite length_take, Nat.min_l by lia.
    rewrite lookup_app_r by lia.
    rewrite lookup_drop. f_equal. lia.
Qed.

#[export] Hint Rewrite @length_zupd : kernel.

Lemma nth_insert_eq {A} (l : list A) i x d : (i < length l)%nat ->
  nth i (<[i:=x]> l) d = x.
Proof. intros Hi. rewrite nth_lookup, list_lookup_insert_eq by done. done. Qed.

Lemma nth_insert_ne {A} (l : list A) i j x d : i <> j ->
  nth j (<[i:=x]> l) d = nth j l d.
Proof. intros Hij. by rewrite !nth_lookup, list_lookup_insert_ne. Qed.

Lemma insert_nth {A} (l : list A) i d : <[i := nth i l d]> l = l.
Proof.
  destruct (decide (i < length l)%nat).
  - apply list_insert_id. rewrite nth_lookup.
    destruct (lookup_lt_is_Some_2 l i) as [x Hx]; [done|]. by rewrite Hx.
  - apply list_insert_ge. lia.
Qed.

Lemma zoom_eq {S T A} (l : lens S T) (m : M T A) s a t :
  m (lget l s) = Ret a t -> zoom l m s = Ret a (lset l t s).
Proof. unfold zoom. by intros ->. Qed.

Lemma bind_eq {S A B} (m : M S A) (k : A -> M S B) s a s' :
  m s = Ret a s' -> bind m k s = k a s'.
Proof. unfold bind. by intros ->. Qed.

Lemma bind_inv {S A B} (m : M S A) (k : A -> M S B) s r s' : bind m k s = Ret r s' ->
  exists a s1, m s = Ret a s1 /\ k a s1 = Ret r s'.
Proof. unfold bind. destruct (m s); naive_solver. Qed.
Lemma zoom_inv {S T A} (l : lens S T) (m : M T A) s a s' : zoom l m s = Ret a s' ->
  exists t, m (lget l s) = Ret a t /\ s' = lset l t s.
Proof. unfold zoom. destruct (m (lget l s)); naive_solver. Qed.

(** ** Symbolic execution by rewriting *)

Section run_rules.
Context {S : Type}.
Lemma run_bind_ret {A B} (a : A) (k : A -> M S B) s : bind (ret a) k s = k a s.
Proof. done. Qed.
Lemma run_bind_get {B} (k : S -> M S B) s : bind get k s = k s s.
Proof. done. Qed.
Lemma run_bind_gets {A B} (f : S -> A) (k : A -> M S B) s :
  bind (gets f) k s = k (f s) s.
Proof. done. Qed.
Lemma run_bind_modify {B} f (k : unit -> M S B) s :
  bind (modify f) k s = k tt (f s).
Proof. done. Qed.
Lemma run_bind_bind {A B C} (m : M S A) (k : A -> M S B) (k' : B -> M S C) s :
  bind (bind m k) k' s = bind m (fun x => bind (k x) k') s.
Proof. unfold bind. by destruct (m s). Qed.
Lemma run_bind_panic {A B} e (k : A -> M S B) s : bind (panic e) k s = Panic e.
Proof. done. Qed.
Lemma run_bind_asleep {A B} c (k : A -> M S B) s : bind (asleep c) k s = Asleep c s.
Proof. done. Qed.
Lemma run_bind_zoom {T A B} (l : lens S T) (m : M T A) (k : A -> M S B) s a t :
  m (lget l s) = Ret a t -> bind (zoom l m) k s = k a (lset l t s).
Proof. intros E. unfold bind, zoom. by rewrite E. Qed.
Lemma run_bind_when_true {B} m (k : unit -> M S B) s :
  bind (when true m) k s = bind m k s.
Proof. done. Qed.
Lemma run_bind_when_false {B} m (k : unit -> M S B) s :
  bind (when false m) k s = k tt s.
Proof. done. Qed.
Lemma run_when_true m (s : S) : when true m s = m s.
Proof. done. Qed.
Lemma run_when_false m (s : S) : when false m s = Ret tt s.
Proof. done. Qed.
End run_rules.

Create Rewrite HintDb mrun.
#[export] Hint Rewrite @run_bind_ret @run_bind_get @run_bind_gets @run_bind_modify
  @run_bind_bind @run_bind_panic @run_bind_asleep @run_when_true @run_when_false
  @run_bind_when_true @run_bind_when_false : mrun.

#[global] Arguments bind : simpl never.
#[global] Arguments zoom : simpl never.
#[global] Arguments when : simpl never.
#[global] Arguments wp : simpl never.

Ltac mrun := autorewrite with mrun; cbn beta iota.
