(* ===== verification/CString.v ===== *)
(** * Byte strings and memory: string.c (kernel) and ulib.c (user library)

    Memory is a total map from addresses to bytes; a C pointer is its address.
    Each loop of the source is a [Fixpoint] on its counter. *)
From S2P Require Import Prelude.

(** ** Memory *)

Definition mem : Type := Z -> Z.
Definition upd (m : mem) (a v : Z) : mem := fun x => if x =? a then v else m x.
(** The little-endian 32-bit word at [a]. *)
Definition ld32 (m : mem) (a : Z) : Z :=
  m a + 2 ^ 8 * m (a + 1) + 2 ^ 16 * m (a + 2) + 2 ^ 24 * m (a + 3).
Definition st32 (m : mem) (a v : Z) : mem :=
  let v := u32 v in
  upd (upd (upd (upd m a (v mod 256)) (a + 1) (v / 2 ^ 8 mod 256))
    (a + 2) (v / 2 ^ 16 mod 256)) (a + 3) (v / 2 ^ 24 mod 256).

Definition bytes_ok (m : mem) : Prop := forall a, 0 <= m a < 256.

Lemma upd_eq m a v : upd m a v a = v.
Proof. unfold upd. by rewrite Z.eqb_refl. Qed.

Lemma upd_ne m a b v : a <> b -> upd m a v b = m b.
Proof. unfold upd. intros H. destruct (Z.eqb_spec b a); congruence. Qed.

Ltac mem_case :=
  unfold upd;
  repeat match goal with
  | |- context [Z.eqb ?x ?y] => destruct (Z.eqb_spec x y); subst; try lia
  end.

Lemma ld32_st32_eq m a v : ld32 (st32 m a v) a = u32 v.
Proof.
  pose proof (u32_range v) as H.
  unfold ld32, st32. generalize dependent (u32 v). intros w H.
  mem_case; lia.
Qed.

Lemma st32_other m a v x : x < a \/ a + 4 <= x -> st32 m a v x = m x.
Proof. intros H. unfold st32. mem_case; reflexivity. Qed.

Lemma ld32_st32_ne m a b v : a + 4 <= b \/ b + 4 <= a -> ld32 (st32 m a v) b = ld32 m b.
Proof. intros H. unfold ld32. rewrite !st32_other by lia. reflexivity. Qed.

Lemma upd_bytes_ok m a v : bytes_ok m -> 0 <= v < 256 -> bytes_ok (upd m a v).
Proof. intros Hm Hv x. unfold upd. case_match; auto. Qed.

Lemma st32_bytes_ok m a v : bytes_ok m -> bytes_ok (st32 m a v).
Proof. intros. unfold st32. repeat apply upd_bytes_ok; auto; lia. Qed.

Lemma ld32_range m a : bytes_ok m -> 0 <= ld32 m a < 2 ^ 32.
Proof.
  intros H. unfold ld32.
  pose proof (H a); pose proof (H (a + 1)); pose proof (H (a + 2));
  pose proof (H (a + 3)). lia.
Qed.

(** ** string.c: the kernel's block operations *)

(** x86.h [stosb]: store [n] copies of the low byte of [c]. *)
Fixpoint stosb (m : mem) (dst c : Z) (n : nat) : mem :=
  match n with
  | O => m
  | S n' => stosb (upd m dst (u8 c)) (dst + 1) c n'
  end.
(** x86.h [stosl]: store [n] copies of the 32-bit word [c]. *)
Fixpoint stosl (m : mem) (dst c : Z) (n : nat) : mem :=
  match n with
  | O => m
  | S n' => stosl (st32 m dst c) (dst + 4) c n'
  end.

Definition memset (m : mem) (dst c n : Z) : mem :=
  if (dst mod 4 =? 0) && (n mod 4 =? 0) then
    let c := Z.land c 255 in
    stosl m dst
      (Z.lor (Z.lor (Z.lor (Z.shiftl c 24) (Z.shiftl c 16)) (Z.shiftl c 8)) c)
      (Z.to_nat (n / 4))
  else stosb m dst c (Z.to_nat n).

Fixpoint memcmp_loop (m : mem) (s1 s2 : Z) (n : nat) : Z :=
  match n with
  | O => 0
  | S n' => if m s1 =? m s2 then memcmp_loop m (s1 + 1) (s2 + 1) n'
            else m s1 - m s2
  end.
Definition memcmp (m : mem) (v1 v2 n : Z) : Z := memcmp_loop m v1 v2 (Z.to_nat n).

(** [*--d = *--s] *)
Fixpoint memmove_down (m : mem) (d s : Z) (n : nat) : mem :=
  match n with
  | O => m
  | S n' => memmove_down (upd m (d - 1) (m (s - 1))) (d - 1) (s - 1) n'
  end.
(** [*d++ = *s++] *)
Fixpoint memmove_up (m : mem) (d s : Z) (n : nat) : mem :=
  match n with
  | O => m
  | S n' => memmove_up (upd m d (m s)) (d + 1) (s + 1) n'
  end.

Definition memmove (m : mem) (dst src n : Z) : mem :=
  if (src <? dst) && (dst <? src + n)
  then memmove_down m (dst + n) (src + n) (Z.to_nat n)
  else memmove_up m dst src (Z.to_nat n).

Definition memcpy (m : mem) (dst src n : Z) : mem := memmove m dst src n.

(** The comparison loop, over the bytes [p] and [q] point at ([p i] is [p[i]]):
    it is used on memory here and on directory entries in Fs.v. *)
Fixpoint strncmp_loop (p q : Z -> Z) (i : Z) (n : nat) : Z :=
  match n with
  | O => 0
  | S n' => if negb (p i =? 0) && (p i =? q i)
            then strncmp_loop p q (i + 1) n'
            else u8 (p i) - u8 (q i)
  end.
Definition strncmp (m : mem) (p q n : Z) : Z :=
  strncmp_loop (fun i => m (p + i)) (fun i => m (q + i)) 0 (Z.to_nat n).

(** The second loop of [strncpy]: pad with NULs. *)
Fixpoint strncpy_pad (m : mem) (s : Z) (n : nat) : mem :=
  match n with
  | O => m
  | S n' => strncpy_pad (upd m s 0) (s + 1) n'
  end.
Fixpoint strncpy_loop (m : mem) (s t : Z) (n : nat) : mem :=
  match n with
  | O => m
  | S n' =>
      let c := m t in
      let m := upd m s c in
      if c =? 0 then strncpy_pad m (s + 1) n'
      else strncpy_loop m (s + 1) (t + 1) n'
  end.
Definition strncpy (m : mem) (s t n : Z) : mem := strncpy_loop m s t (Z.to_nat n).

(** The copying loop of [safestrcpy] and the final NUL: the counter is the
    number of bytes that still may be copied, [n - 1] at first. *)
Fixpoint safestrcpy_loop (m : mem) (s t : Z) (n : nat) : mem :=
  match n with
  | O => upd m s 0
  | S n' =>
      let c := m t in
      let m := upd m s c in
      if c =? 0 then upd m (s + 1) 0
      else safestrcpy_loop m (s + 1) (t + 1) n'
  end.
Definition safestrcpy (m : mem) (s t n : Z) : mem :=
  if n <=? 0 then m else safestrcpy_loop m s t (Z.to_nat (n - 1)).

(** [for(n = 0; s[n]; n++);] with a bound on the iterations. *)
Fixpoint strlen_loop (fuel : nat) (m : mem) (s n : Z) : option Z :=
  match fuel with
  | O => None
  | S fuel' => if m (s + n) =? 0 then Some n else strlen_loop fuel' m s (n + 1)
  end.
Definition strlen (fuel : nat) (m : mem) (s : Z) : option Z := strlen_loop fuel m s 0.

(** ** ulib.c: the user library *)

Fixpoint strcpy (fuel : nat) (m : mem) (s t : Z) : option mem :=
  match fuel with
  | O => None
  | S fuel' =>
      let c := m t in
      let m := upd m s c in
      if c =? 0 then Some m else strcpy fuel' m (s + 1) (t + 1)
  end.

Fixpoint strcmp (fuel : nat) (m : mem) (p q : Z) : option Z :=
  match fuel with
  | O => None
  | S fuel' => if negb (m p =? 0) && (m p =? m q)
               then strcmp fuel' m (p + 1) (q + 1)
               else Some (u8 (m p) - u8 (m q))
  end.

(** ulib.c [memset] stores bytes only. *)
Definition ulib_memset (m : mem) (dst c n : Z) : mem := stosb m dst c (Z.to_nat n).

(** The pointer found, 0 for none; [None] when the bound is exhausted. *)
Fixpoint strchr (fuel : nat) (m : mem) (s c : Z) : option Z :=
  match fuel with
  | O => None
  | S fuel' => if m s =? 0 then Some 0
               else if m s =? c then Some s else strchr fuel' m (s + 1) c
  end.

Fixpoint atoi_loop (fuel : nat) (m : mem) (s n : Z) : option Z :=
  match fuel with
  | O => None
  | S fuel' => if (48 <=? m s) && (m s <=? 57)
               then atoi_loop fuel' m (s + 1) (n * 10 + m s - 48)
               else Some n
  end.
Definition atoi (fuel : nat) (m : mem) (s : Z) : option Z := atoi_loop fuel m s 0.

(** ulib.c [memmove] always copies upwards. *)
Definition ulib_memmove (m : mem) (vdst vsrc n : Z) : mem :=
  memmove_up m vdst vsrc (Z.to_nat n).

(** ** Properties *)

Definition in_range (a dst n : Z) : bool := (dst <=? a) && (a <? dst + n).

(** The string at [s] has [n] non-NUL bytes and then a NUL. *)
Definition cstr_len (m : mem) (s n : Z) : Prop :=
  0 <= n /\ m (s + n) = 0 /\ forall i, 0 <= i < n -> m (s + i) <> 0.

Lemma stosb_spec n : forall m dst c a,
  stosb m dst c n a = if in_range a dst (Z.of_nat n) then u8 c else m a.
Proof.
  induction n as [|n IH]; intros m dst c a; simpl; unfold in_range in *.
  - destruct (_ && _) eqn:E; [lia|done].
  - rewrite IH. mem_case; repeat case_match; try lia; done.
Qed.

(** A word whose four bytes are all [c] (0x01010101 * c). *)
Lemma st32_rep m a c x : 0 <= c < 256 ->
  st32 m a (c * 16843009) x = if in_range x a 4 then c else m x.
Proof.
  intros Hc. unfold st32, in_range.
  rewrite u32_small by lia.
  replace (c * 16843009 mod 256) with c by lia.
  replace (c * 16843009 / 2 ^ 8 mod 256) with c by lia.
  replace (c * 16843009 / 2 ^ 16 mod 256) with c by lia.
  replace (c * 16843009 / 2 ^ 24 mod 256) with c by lia.
  mem_case; destruct (_ && _) eqn:E; try lia; done.
Qed.

Lemma stosl_spec n : forall m dst c a, 0 <= c < 256 ->
  stosl m dst (c * 16843009) n a
  = if in_range a dst (4 * Z.of_nat n) then c else m a.
Proof.
  induction n as [|n IH]; intros m dst c a Hc; cbn [stosl]; unfold in_range in *.
  - destruct (_ && _) eqn:E; [lia|done].
  - rewrite IH, st32_rep by done. unfold in_range.
    repeat case_match; try lia; done.
Qed.

(** A property of bytes checked on all 256 of them. *)
Lemma byte_cases (P : Z -> bool) :
  forallb P (Z.of_nat <$> seq 0 256) = true -> forall c, 0 <= c < 256 -> P c = true.
Proof.
  intros H c Hc. rewrite forallb_forall in H. apply H.
  apply list_elem_of_In, list_elem_of_fmap. exists (Z.to_nat c).
  split; [lia|]. apply elem_of_seq. lia.
Qed.

Lemma memset_word c : 0 <= c < 256 ->
  Z.lor (Z.lor (Z.lor (Z.shiftl c 24) (Z.shiftl c 16)) (Z.shiftl c 8)) c
  = c * 16843009.
Proof.
  intros Hc. apply Z.eqb_eq.
  apply (byte_cases (fun c => Z.lor (Z.lor (Z.lor (Z.shiftl c 24)
    (Z.shiftl c 16)) (Z.shiftl c 8)) c =? c * 16843009)); [by vm_compute|done].
Qed.

(** The bytes of a string in an array: up to the NUL. *)
Fixpoint until_nul (l : list Z) : list Z :=
  match l with
  | [] => []
  | c :: l => if c =? 0 then [] else c :: until_nul l
  end.
Lemma until_nul_app l r : Forall (fun c => c <> 0) l -> until_nul (l ++ 0 :: r) = l.
Proof.
  induction l as [|c l IH]; intros Hl; [done|]. inversion_clear Hl as [|? ? Hc Hl']. simpl.
  destruct (Z.eqb_spec c 0); [done|]. by rewrite IH.
Qed.
Lemma until_nul_all l : Forall (fun c => c <> 0) l -> until_nul l = l.
Proof.
  induction l as [|c l IH]; intros Hl; [done|]. inversion_clear Hl as [|? ? Hc Hl']. simpl.
  destruct (Z.eqb_spec c 0); [done|]. by rewrite IH.
Qed.

(** [memset] fills exactly [dst, dst+n) with the low byte of [c]. *)
Lemma memset_spec m dst c n a : 0 <= n ->
  memset m dst c n a = if in_range a dst n then u8 c else m a.
Proof.
  intros Hn. unfold memset.
  assert (Hc : Z.land c 255 = u8 c) by (apply (Z.land_ones c 8); lia).
  destruct (_ && _) eqn:E.
  - rewrite Hc, memset_word, stosl_spec by auto with kernel.
    replace (4 * Z.of_nat (Z.to_nat (n / 4))) with n by lia. done.
  - rewrite stosb_spec, Z2Nat.id by done. done.
Qed.

(** The word-at-a-time path of string.c [memset] stores the same bytes as storing
    the low byte of [c] one at a time: exactly [dst, dst+n) is filled. *)
Theorem memset_correct m dst c n a : 0 <= n ->
  memset m dst c n a = stosb m dst c (Z.to_nat n) a /\
  memset m dst c n a = if in_range a dst n then u8 c else m a.
Proof.
  intros Hn. rewrite memset_spec, stosb_spec, Z2Nat.id by done. done.
Qed.

Lemma memmove_up_spec n : forall m d s a, (d <= s \/ s + Z.of_nat n <= d) ->
  memmove_up m d s n a
  = if in_range a d (Z.of_nat n) then m (s + (a - d)) else m a.
Proof.
  induction n as [|n IH]; intros m d s a Hd; cbn [memmove_up]; unfold in_range in *.
  - destruct (_ && _) eqn:E; [lia|done].
  - rewrite IH by lia. mem_case; repeat case_match; try lia; try done; f_equal; lia.
Qed.

Lemma memmove_down_spec n : forall m d s a, s <= d ->
  memmove_down m d s n a
  = if in_range a (d - Z.of_nat n) (Z.of_nat n) then m (s + (a - d)) else m a.
Proof.
  induction n as [|n IH]; intros m d s a Hd; cbn [memmove_down]; unfold in_range in *.
  - destruct (_ && _) eqn:E; [lia|done].
  - rewrite IH by lia. mem_case; repeat case_match; try lia; try done; f_equal; lia.
Qed.

Lemma memmove_spec m dst src n a : 0 <= n ->
  memmove m dst src n a
  = if in_range a dst n then m (src + (a - dst)) else m a.
Proof.
  intros Hn. unfold memmove. destruct (_ && _) eqn:E.
  - rewrite memmove_down_spec, Z2Nat.id by lia.
    replace (dst + n - n) with dst by lia.
    case_match; [f_equal; lia|done].
  - rewrite memmove_up_spec, Z2Nat.id by lia. done.
Qed.

(** The kernel's [memmove] copies correctly also when source and
    destination overlap: the destination gets the bytes the source had. *)
Theorem memmove_correct m dst src n a : 0 <= n ->
  memmove m dst src n a
  = if in_range a dst n then m (src + (a - dst)) else m a.
Proof.
  apply memmove_spec.
Qed.

Lemma memcmp_loop_zero n : forall m s1 s2,
  memcmp_loop m s1 s2 n = 0 <->
  forall i, 0 <= i < Z.of_nat n -> m (s1 + i) = m (s2 + i).
Proof.
  induction n as [|n IH]; intros m s1 s2; cbn [memcmp_loop].
  - split; [lia|done].
  - destruct (Z.eqb_spec (m s1) (m s2)) as [E|E].
    + rewrite IH. split; intros H i Hi.
      * destruct (decide (i = 0)) as [->|]; [by rewrite !Z.add_0_r|].
        specialize (H (i - 1) ltac:(lia)).
        by replace (s1 + i) with (s1 + 1 + (i - 1)) by lia;
           replace (s2 + i) with (s2 + 1 + (i - 1)) by lia.
      * specialize (H (i + 1) ltac:(lia)).
        by replace (s1 + 1 + i) with (s1 + (i + 1)) by lia;
           replace (s2 + 1 + i) with (s2 + (i + 1)) by lia.
    + split; [lia|]. intros H. specialize (H 0 ltac:(lia)).
      rewrite !Z.add_0_r in H. done.
Qed.

Lemma strlen_loop_spec m s n : forall k fuel, cstr_len m s n -> 0 <= k <= n ->
  (Z.to_nat (n - k) < fuel)%nat -> strlen_loop fuel m s k = Some n.
Proof.
  intros k fuel (Hn & H0 & Hnz). revert k.
  induction fuel as [|fuel IH]; intros k Hk Hf; [lia|]. cbn [strlen_loop].
  destruct (Z.eqb_spec (m (s + k)) 0) as [E|E].
  - f_equal. destruct (decide (k = n)); [done|]. exfalso. apply (Hnz k); [lia|done].
  - assert (k <> n) by congruence. apply IH; lia.
Qed.

(** Two byte strings agree up to their first NUL or up to [n] bytes. *)
Definition same_str (p q : Z -> Z) (n : Z) : Prop :=
  exists k, 0 <= k <= n /\ (forall i, 0 <= i < k -> p i = q i /\ p i <> 0) /\
    (k < n -> p k = 0 /\ q k = 0).

Lemma strncmp_loop_zero n : forall p q j,
  (forall i, 0 <= p i < 256) -> (forall i, 0 <= q i < 256) ->
  strncmp_loop p q j n = 0 <->
  same_str (fun i => p (j + i)) (fun i => q (j + i)) (Z.of_nat n).
Proof.
  induction n as [|n IH]; intros p q j Hp Hq; cbn [strncmp_loop].
  { split; [|done]. intros _. exists 0. split; [lia|]. split; lia. }
  pose proof (Hp j); pose proof (Hq j). rewrite !u8_small by done.
  destruct (_ && _) eqn:E.
  - rewrite IH by done. split; intros (k & Hk & Hs & He).
    + exists (k + 1). split; [lia|]. split.
      * intros i Hi. destruct (decide (i = 0)) as [->|].
        { rewrite Z.add_0_r. lia. }
        specialize (Hs (i - 1) ltac:(lia)).
        by replace (j + i) with (j + 1 + (i - 1)) by lia.
      * intros Hlt. replace (j + (k + 1)) with (j + 1 + k) by lia. apply He. lia.
    + assert (k <> 0).
      { intros ->. destruct He as [He _]; [lia|]. rewrite Z.add_0_r in He. lia. }
      exists (k - 1). split; [lia|]. split.
      * intros i Hi. replace (j + 1 + i) with (j + (i + 1)) by lia. apply Hs. lia.
      * intros Hlt. replace (j + 1 + (k - 1)) with (j + k) by lia. apply He. lia.
  - split.
    + intros Heq. exists 0. split; [lia|]. split; [lia|]. rewrite Z.add_0_r. lia.
    + intros (k & Hk & Hs & He). destruct (decide (k = 0)) as [->|].
      * destruct He as [He1 He2]; [lia|]. rewrite Z.add_0_r in He1, He2. lia.
      * destruct (Hs 0 ltac:(lia)) as [Hs1 Hs2]. rewrite Z.add_0_r in Hs1, Hs2. lia.
Qed.

(** ** strncpy and safestrcpy *)

Lemma strncpy_pad_spec n : forall m s a,
  strncpy_pad m s n a = if in_range a s (Z.of_nat n) then 0 else m a.
Proof.
  induction n as [|n IH]; intros m s a; cbn [strncpy_pad]; unfold in_range in *.
  - destruct (_ && _) eqn:E; [lia|done].
  - rewrite IH. mem_case; repeat case_match; try lia; done.
Qed.

(** The byte [strncpy] leaves at offset [i]: the source byte up to its NUL,
    then NULs. *)
Definition cstr_byte (m : mem) (t len i : Z) : Z := if i <? len then m (t + i) else 0.

Lemma strncpy_loop_spec n : forall m s t len a,
  cstr_len m t len -> (s + Z.of_nat n <= t \/ t + len < s) ->
  strncpy_loop m s t n a
  = if in_range a s (Z.of_nat n) then cstr_byte m t len (a - s) else m a.
Proof.
  induction n as [|n IH]; intros m s t len a Hl Hd; cbn [strncpy_loop].
  { unfold in_range. destruct (_ && _) eqn:E; [lia|done]. }
  destruct Hl as (Hl0 & Hz & Hnz).
  destruct (Z.eqb_spec (m t) 0) as [E|E].
  - rewrite strncpy_pad_spec. unfold in_range, cstr_byte.
    assert (len = 0) as ->.
    { destruct (decide (len = 0)); [done|]. exfalso.
      apply (Hnz 0); [lia|]. by rewrite Z.add_0_r. }
    mem_case; repeat case_match; lia.
  - assert (Hlen : 0 < len).
    { destruct (decide (len = 0)) as [->|]; [|lia]. by rewrite Z.add_0_r in Hz. }
    rewrite (IH _ (s + 1) (t + 1) (len - 1)); [|split; [lia|split]|lia].
    + unfold in_range, cstr_byte. mem_case; repeat case_match; try lia; try done;
        f_equal; lia.
    + replace (t + 1 + (len - 1)) with (t + len) by lia. rewrite upd_ne by lia. done.
    + intros i Hi. rewrite upd_ne by lia.
      replace (t + 1 + i) with (t + (i + 1)) by lia. apply Hnz. lia.
Qed.

(** [strncpy] copies the string up to its NUL and pads with NULs up to
    [n] bytes, and writes nothing else. *)
Theorem strncpy_correct m s t n len a : 0 <= n ->
  cstr_len m t len -> (s + n <= t \/ t + len < s) ->
  strncpy m s t n a
  = if in_range a s n then cstr_byte m t len (a - s) else m a.
Proof.
  intros Hn Hl Hd. unfold strncpy.
  rewrite (strncpy_loop_spec _ _ _ _ len) by (rewrite ?Z2Nat.id; done || lia).
  by rewrite Z2Nat.id.
Qed.

(** What [safestrcpy] leaves at [a]: [k] copied bytes, a NUL after them, and
    one more NUL when the source ended before the buffer did. *)
Definition safestrcpy_byte (m : mem) (s t len n a : Z) : Z :=
  if in_range a s (Z.min len (n - 1)) then m (t + (a - s))
  else if a =? s + Z.min len (n - 1) then 0
  else if (len <? n - 1) && (a =? s + len + 1) then 0
  else m a.

Lemma cstr_len_first m t len : cstr_len m t len -> m t = 0 <-> len = 0.
Proof.
  intros (Hl & Hz & Hnz). split.
  - intros E. destruct (decide (len = 0)); [done|]. exfalso.
    apply (Hnz 0); [lia|]. by rewrite Z.add_0_r.
  - intros ->. by rewrite Z.add_0_r in Hz.
Qed.

(** Writing below the source string leaves its tail a string. *)
Lemma cstr_len_tail m t len a v : cstr_len m t len -> 0 < len ->
  (a < t + 1 \/ t + len < a) -> cstr_len (upd m a v) (t + 1) (len - 1).
Proof.
  intros (Hl & Hz & Hnz) Hp Ha. split; [lia|]. split.
  - rewrite upd_ne by lia. by replace (t + 1 + (len - 1)) with (t + len) by lia.
  - intros i Hi. rewrite upd_ne by lia.
    replace (t + 1 + i) with (t + (i + 1)) by lia. apply Hnz. lia.
Qed.

Lemma safestrcpy_loop_spec n : forall m s t len a,
  cstr_len m t len -> (s + Z.of_nat n + 1 <= t \/ t + len < s) ->
  safestrcpy_loop m s t n a = safestrcpy_byte m s t len (Z.of_nat n + 1) a.
Proof.
  induction n as [|n IH]; intros m s t len a Hl Hd; cbn [safestrcpy_loop].
  { pose proof Hl as (? & _ & _). unfold safestrcpy_byte, in_range.
    mem_case; repeat case_match; try lia; done. }
  pose proof (cstr_len_first _ _ _ Hl) as Hf. pose proof Hl as (Hl0 & _ & _).
  destruct (Z.eqb_spec (m t) 0) as [E|E].
  - apply Hf in E as E'. subst len. unfold safestrcpy_byte, in_range.
    mem_case; repeat case_match; lia.
  - assert (Hlen : 0 < len) by (destruct (decide (len = 0)); [tauto|lia]).
    rewrite (IH _ _ _ (len - 1)) by (try apply cstr_len_tail; done || lia).
    unfold safestrcpy_byte, in_range. mem_case; repeat case_match; try lia; try done;
      f_equal; lia.
Qed.

(** [safestrcpy] with a buffer of [n > 0] bytes always leaves a
    NUL-terminated string in it: the first [min(len, n-1)] bytes of the source;
    it writes nothing outside the buffer. *)
Theorem safestrcpy_correct m s t n len : 0 < n ->
  cstr_len m t len -> (s + n <= t \/ t + len < s) ->
  let m' := safestrcpy m s t n in
  cstr_len m' s (Z.min len (n - 1)) /\
  (forall i, 0 <= i < Z.min len (n - 1) -> m' (s + i) = m (t + i)) /\
  (forall a, in_range a s n = false -> m' a = m a).
Proof.
  intros Hn Hl Hd m'. pose proof Hl as (Hl0 & _ & Hnz).
  assert (Hm : forall a, m' a = safestrcpy_byte m s t len n a).
  { intros a. subst m'. unfold safestrcpy. case_match; [lia|].
    rewrite (safestrcpy_loop_spec _ _ _ _ len) by (done || lia).
    f_equal. lia. }
  assert (Hi : forall i, 0 <= i < Z.min len (n - 1) -> m' (s + i) = m (t + i)).
  { intros i Hi. rewrite Hm. unfold safestrcpy_byte, in_range.
    case_match; [f_equal; lia|lia]. }
  split; [|split; [done|]].
  - split; [lia|]. split.
    + rewrite Hm. unfold safestrcpy_byte, in_range. repeat case_match; lia.
    + intros i Hr. rewrite Hi by done. apply Hnz. lia.
  - intros a Ha. rewrite Hm. unfold safestrcpy_byte, in_range in *.
    repeat case_match; try lia; done.
Qed.

(** ** The theorems at concrete inputs *)

(** "hi" at 100, everything else 7. *)
Definition sample_mem : mem := fun a =>
  if a =? 100 then 104 else if a =? 101 then 105 else if a =? 102 then 0 else 7.

Lemma sample_cstr : cstr_len sample_mem 100 2.
Proof.
  split; [lia|]. split; [done|]. intros i Hi.
  assert (i = 0 \/ i = 1) as [-> | ->] by lia; done.
Qed.

Lemma memset_correct_witness :
  memset sample_mem 200 258 8 203 = 2 /\ memset sample_mem 201 258 7 208 = 7.
Proof.
  split.
  - exact (proj2 (memset_correct sample_mem 200 258 8 203 ltac:(lia))).
  - exact (proj2 (memset_correct sample_mem 201 258 7 208 ltac:(lia))).
Defined.

(** An overlapping copy, one byte up. *)
Lemma memmove_correct_witness : memmove sample_mem 101 100 3 102 = 105.
Proof. exact (memmove_correct sample_mem 101 100 3 102 ltac:(lia)). Defined.

Lemma strncpy_correct_witness :
  strncpy sample_mem 200 100 4 201 = 105 /\ strncpy sample_mem 200 100 4 203 = 0.
Proof.
  split.
  - rewrite (strncpy_correct sample_mem 200 100 4 2 201 ltac:(lia) sample_cstr ltac:(lia)).
    reflexivity.
  - rewrite (strncpy_correct sample_mem 200 100 4 2 203 ltac:(lia) sample_cstr ltac:(lia)).
    reflexivity.
Defined.

(** A buffer of two bytes keeps one character and the NUL. *)
Lemma safestrcpy_correct_witness :
  cstr_len (safestrcpy sample_mem 200 100 2) 200 1 /\ safestrcpy sample_mem 200 100 2 202 = 7.
Proof.
  destruct (safestrcpy_correct sample_mem 200 100 2 2 ltac:(lia) sample_cstr ltac:(lia))
    as (H1 & _ & H2).
  split; [exact H1|]. rewrite (H2 202); reflexivity.
Defined.
