(* ===== verification/Printf.v ===== *)
(** * Formatted output: printf.c (user)

    A byte written with [putc(fd, c)] is appended to the output; the result of a
    call is the list of bytes it wrote, in order. *)
From S2P Require Import Prelude CString.

(** Byte codes of a string literal. *)
Definition codes (s : string) : list Z :=
  (fun c => Z.of_nat (Ascii.nat_of_ascii c)) <$> String.list_ascii_of_string s.

(** The NUL-terminated string at [s], with a bound on its length. *)
Fixpoint read_cstr (fuel : nat) (m : mem) (s : Z) : option (list Z) :=
  match fuel with
  | O => None
  | S fuel' => if m s =? 0 then Some []
               else l ← read_cstr fuel' m (s + 1); Some (m s :: l)
  end.

(** The [do ... while ((x /= base) != 0)] loop: the digits stored in [buf],
    least significant first. [fuel] bounds the iterations; 33 are enough for a
    32-bit number in any base (see [digits_loop_value]). *)
Fixpoint digits_loop (fuel : nat) (digit : Z -> Z) (x base : Z) : list Z :=
  match fuel with
  | O => []
  | S fuel' => digit (x mod base) ::
      (if x / base =? 0 then [] else digits_loop fuel' digit (x / base) base)
  end.

Definition digits_upper : list Z := codes "0123456789ABCDEF".

Definition printint (xx base sgn : Z) : list Z :=
  let neg := negb (sgn =? 0) && (s32 xx <? 0) in
  let x := if neg then u32 (- s32 xx) else u32 xx in
  let buf := digits_loop 33 (znth digits_upper) x base in
  let buf := if neg then buf ++ [45] else buf in
  rev buf.

(** [printf(fd, fmt, ap...)]: [state] is 0 or ['%'], [ap] the argument words.
    The result is [None] when a [%s] string is longer than the bound, or when
    the format asks for more arguments than there are. *)
Fixpoint printf_loop (fuel : nat) (m : mem) (state : bool) (fmt ap : list Z) :
    option (list Z) :=
  match fmt with
  | [] => Some []
  | c :: fmt' =>
    if negb state then
      if c =? 37 then printf_loop fuel m true fmt' ap
      else out ← printf_loop fuel m false fmt' ap; Some (c :: out)
    else if c =? 100 then
      match ap with
      | a :: ap => out ← printf_loop fuel m false fmt' ap; Some (printint a 10 1 ++ out)
      | [] => None
      end
    else if (c =? 120) || (c =? 112) then
      match ap with
      | a :: ap => out ← printf_loop fuel m false fmt' ap; Some (printint a 16 0 ++ out)
      | [] => None
      end
    else if c =? 115 then
      match ap with
      | a :: ap =>
          s ← (if a =? 0 then Some (codes "(null)") else read_cstr fuel m a);
          out ← printf_loop fuel m false fmt' ap; Some (s ++ out)
      | [] => None
      end
    else if c =? 99 then
      match ap with
      | a :: ap => out ← printf_loop fuel m false fmt' ap; Some (u8 a :: out)
      | [] => None
      end
    else if c =? 37 then
      out ← printf_loop fuel m false fmt' ap; Some (37 :: out)
    else out ← printf_loop fuel m false fmt' ap; Some (37 :: c :: out)
  end.
Definition printf (fuel : nat) (m : mem) (fmt ap : list Z) : option (list Z) :=
  printf_loop fuel m false fmt ap.

Example printf_ex :
  printf 10 (fun _ => 0) (codes "pid %d %x%%") [u32 (-7); 255] = Some (codes "pid -7 FF%").
Proof. reflexivity. Qed.

(** ** Properties *)

(** The value of a list of digits, least significant first. *)
Fixpoint digits_value (base : Z) (l : list Z) : Z :=
  match l with [] => 0 | d :: l => d + base * digits_value base l end.

Lemma digits_loop_value fuel : forall base x, 2 <= base -> 0 <= x < base ^ Z.of_nat fuel ->
  digits_value base (digits_loop fuel id x base) = x.
Proof.
  induction fuel as [|fuel IH]; intros base x Hb Hx; cbn [digits_loop digits_value].
  - simpl in Hx. lia.
  - unfold id at 1. destruct (Z.eqb_spec (x / base) 0) as [E|E]; cbn [digits_value].
    + pose proof (Z.div_mod x base ltac:(lia)). nia.
    + rewrite IH; [|done|].
      * pose proof (Z.div_mod x base ltac:(lia)). lia.
      * split; [apply Z.div_pos; lia|].
        apply Z.div_lt_upper_bound; [lia|].
        rewrite Nat2Z.inj_succ, Z.pow_succ_r in Hx by lia. lia.
Qed.

Lemma digits_loop_map fuel f : forall base x,
  digits_loop fuel f x base = f <$> digits_loop fuel id x base.
Proof.
  induction fuel as [|fuel IH]; intros base x; [done|].
  cbn [digits_loop fmap list_fmap]. f_equal. case_match; [done|apply IH].
Qed.

Lemma digits_loop_range fuel : forall base x, 2 <= base ->
  Forall (fun d => 0 <= d < base) (digits_loop fuel id x base).
Proof.
  induction fuel as [|fuel IH]; intros base x Hb; [constructor|].
  cbn [digits_loop]. constructor; [apply Z.mod_pos_bound; lia|].
  case_match; [constructor|by apply IH].
Qed.

Lemma digits_loop_length fuel : forall base x k, 2 <= base -> 0 <= x < base ^ Z.of_nat k ->
  (1 <= k)%nat -> (length (digits_loop fuel id x base) <= k)%nat.
Proof.
  induction fuel as [|fuel IH]; intros base x k Hb Hx Hk; cbn [digits_loop length]; [lia|].
  destruct (Z.eqb_spec (x / base) 0) as [E|E]; cbn [length]; [lia|].
  destruct k as [|[|k]]; [lia| |].
  - rewrite Z.pow_1_r in Hx. rewrite Z.div_small in E by lia. done.
  - apply le_n_S. apply IH; [done| |lia].
    split; [apply Z.div_pos; lia|]. apply Z.div_lt_upper_bound; [lia|].
    rewrite (Nat2Z.inj_succ (S k)), Z.pow_succ_r in Hx by lia. lia.
Qed.

(** C40: in bases 10 and above, [printint] never stores more than 11 bytes, so
    [buf[16]] is not overrun, whatever the argument (INT_MIN included). *)
Theorem printint_fits xx base sgn : 10 <= base ->
  (length (printint xx base sgn) <= 11)%nat.
Proof.
  intros Hb. unfold printint. rewrite length_rev.
  set (neg := _ && _). set (x := if neg then u32 _ else _).
  assert (Hx : 0 <= x < base ^ Z.of_nat 10).
  { assert (H : 0 <= x < 2 ^ 32) by (subst x; case_match; apply u32_range).
    split; [lia|]. apply Z.lt_le_trans with (10 ^ Z.of_nat 10); [simpl; lia|].
    apply Z.pow_le_mono_l. lia. }
  assert (Hl : (length (digits_loop 33 (znth digits_upper) x base) <= 10)%nat).
  { rewrite digits_loop_map, length_fmap. apply digits_loop_length; [lia|done|lia]. }
  revert Hl. generalize (digits_loop 33 (znth digits_upper) x base).
  intros l Hl. destruct neg; rewrite ?length_app; cbn [length]; lia.
Qed.

(** The bytes at [s] are those of [l]. *)
Definition holds (m : mem) (s : Z) (l : list Z) : Prop :=
  forall i x, l !! i = Some x -> m (s + Z.of_nat i) = x.

Definition is_digit (c : Z) : Prop := 48 <= c <= 57.

Lemma holds_cons m s c l : holds m s (c :: l) <-> m s = c /\ holds m (s + 1) l.
Proof.
  split.
  - intros H. split; [specialize (H 0%nat c eq_refl); by rewrite Z.add_0_r in H|].
    intros i x Hi. specialize (H (S i) x Hi). rewrite <-H. f_equal. lia.
  - intros [Hc Hl] [|i] x Hi; simpl in Hi.
    + simplify_eq. by rewrite Z.add_0_r.
    + rewrite <-(Hl i x Hi). f_equal. lia.
Qed.

Lemma atoi_loop_digits l : forall fuel m s n, Forall is_digit l -> holds m s l ->
  ~ is_digit (m (s + zlen l)) -> (length l < fuel)%nat ->
  atoi_loop fuel m s n = Some (fold_left (fun n c => n * 10 + c - 48) l n).
Proof.
  induction l as [|c l IH]; intros [|fuel] m s n Hd Hh He Hf; simpl in Hf; try lia;
    cbn [atoi_loop fold_left].
  - unfold zlen in He. simpl in He. rewrite Z.add_0_r in He. unfold is_digit in He.
    case_match; [lia|done].
  - apply holds_cons in Hh as [-> Hh]. inversion_clear Hd as [|? ? Hc Hd'].
    unfold is_digit in Hc. case_match; [|lia]. apply IH; [done|done| |lia].
    unfold zlen in *. simpl in He.
    by replace (s + 1 + Z.of_nat (length l)) with (s + Z.of_nat (S (length l))) by lia.
Qed.

Lemma fold_digits_rev l : forall n, Forall (fun d => 0 <= d < 10) l ->
  fold_left (fun n c => n * 10 + c - 48) (rev (znth digits_upper <$> l)) n
  = n * 10 ^ zlen l + digits_value 10 l.
Proof.
  induction l as [|d l IH]; intros n Hl; [unfold zlen; simpl; lia|].
  inversion_clear Hl as [|? ? Hd Hl']. cbn [fmap list_fmap rev digits_value].
  rewrite fold_left_app, IH by done. cbn [fold_left].
  assert (Hc : znth digits_upper d = 48 + d).
  { apply Z.eqb_eq. assert (d = 0 \/ d = 1 \/ d = 2 \/ d = 3 \/ d = 4 \/ d = 5 \/
      d = 6 \/ d = 7 \/ d = 8 \/ d = 9) as Hcases by lia.
    by destruct_or! Hcases; subst d. }
  rewrite Hc. unfold zlen. cbn [length].
  rewrite Nat2Z.inj_succ, Z.pow_succ_r by lia. lia.
Qed.

(** [printint] and [atoi] round-trip: the decimal digits printed for a
    non-negative int are read back as the same int. *)
Theorem printint_atoi m s n fuel : 0 <= n < 2 ^ 31 ->
  holds m s (printint n 10 1) -> ~ is_digit (m (s + zlen (printint n 10 1))) ->
  (12 <= fuel)%nat -> atoi fuel m s = Some n.
Proof.
  intros Hn. unfold printint. rewrite s32_small by lia.
  destruct (_ && _) eqn:E; [lia|]. rewrite u32_small, digits_loop_map by lia.
  set (l := digits_loop 33 id n 10). intros Hh He Hf.
  assert (Hr : Forall (fun d => 0 <= d < 10) l) by (apply digits_loop_range; lia).
  assert (Hlen : (length l <= 10)%nat) by (apply digits_loop_length; simpl; lia).
  unfold atoi. rewrite (atoi_loop_digits (rev (znth digits_upper <$> l))).
  - rewrite fold_digits_rev by done. f_equal.
    subst l. rewrite digits_loop_value by (simpl; lia). lia.
  - apply Forall_rev, Forall_fmap. apply Forall_forall. intros d Hd.
    rewrite Forall_forall in Hr. specialize (Hr d Hd). unfold is_digit. cbn [compose].
    assert (d = 0 \/ d = 1 \/ d = 2 \/ d = 3 \/ d = 4 \/ d = 5 \/
      d = 6 \/ d = 7 \/ d = 8 \/ d = 9) as Hcases by lia.
    destruct_or! Hcases; subst d; vm_compute; split; discriminate.
  - done.
  - done.
  - rewrite length_rev, length_fmap. lia.
Qed.

Lemma printint_fits_witness : (length (printint (- 2 ^ 31) 10 1) <= 11)%nat /\
  printint (- 2 ^ 31) 10 1 = [45; 50; 49; 52; 55; 52; 56; 51; 54; 52; 56].
Proof. split; [apply printint_fits; lia|reflexivity]. Defined.

(** "407" at 100, followed by a NUL. *)
Lemma printint_atoi_witness :
  let m : mem := fun a => if a =? 100 then 52 else if a =? 101 then 48 else
    if a =? 102 then 55 else 0 in
  atoi 12 m 100 = Some 407.
Proof.
  intros m. apply (printint_atoi m 100 407 12).
  - lia.
  - intros [|[|[|i]]] x Hx; vm_compute in Hx; simplify_eq; reflexivity.
  - vm_compute. intros [H _]. by apply H.
  - lia.
Defined.
