(* ===== verification/Param.v ===== *)
(** * Parameters and on-disk layout: param.h, fs.h

    The constants the kernel and mkfs share, disk blocks as lists of bytes, the
    little-endian fields of the structures stored in them, and the history of the
    writes a disk has executed. *)
From S2P Require Import Prelude.

Definition NPROC : nat := 64.
Definition NOFILE : nat := 16.
Definition NFILE : nat := 100.
Definition NINODE : nat := 50.
Definition NDEV : Z := 10.
Definition ROOTDEV : Z := 1.
Definition MAXARG : Z := 32.
Definition MAXOPBLOCKS : Z := 10.
Definition LOGSIZE : Z := MAXOPBLOCKS * 3.
Definition NBUF : nat := 30.
Definition FSSIZE : Z := 1000.

Definition ROOTINO : Z := 1.
Definition BSIZE : Z := 512.
Definition NDIRECT : Z := 12.
Definition NINDIRECT : Z := BSIZE / 4.
Definition MAXFILE : Z := NDIRECT + NINDIRECT.

(** fcntl.h *)
Definition O_RDONLY : Z := 0.
Definition O_WRONLY : Z := 1.
Definition O_RDWR : Z := 2.
Definition O_CREATE : Z := 512.

(** A disk block: [BSIZE] bytes. *)
Abbreviation block := (list Z).
Definition zero_block : block := replicate (Z.to_nat BSIZE) 0.
Definition block_ok (b : block) : Prop := zlen b = BSIZE.

(** ** Little-endian fields of a block *)

Definition get16 (b : block) (o : Z) : Z := znth b o + 256 * znth b (o + 1).
Definition put16 (b : block) (o v : Z) : block :=
  zupd (zupd b o (u8 v)) (o + 1) (u8 (v / 256)).
Definition get32 (b : block) (o : Z) : Z := get16 b o + 65536 * get16 b (o + 2).
Definition put32 (b : block) (o v : Z) : block :=
  put16 (put16 b o (u16 v)) (o + 2) (u16 (v / 65536)).

Lemma znth_zupd l i j x : 0 <= i < zlen l ->
  znth (zupd l i x) j = if i =? j then x else znth l j.
Proof.
  intros Hi. destruct (Z.eqb_spec i j) as [<-|Hj].
  - by apply znth_zupd_eq.
  - by apply znth_zupd_ne.
Qed.

Lemma zlen_zupd l i x : zlen (zupd l i x) = zlen l.
Proof. unfold zlen. by rewrite length_zupd. Qed.

Lemma zlen_put16 b o v : zlen (put16 b o v) = zlen b.
Proof. unfold put16. by rewrite !zlen_zupd. Qed.

Lemma zlen_put32 b o v : zlen (put32 b o v) = zlen b.
Proof. unfold put32. by rewrite !zlen_put16. Qed.

#[export] Hint Rewrite zlen_zupd zlen_put16 zlen_put32 : kernel.

Lemma get16_put16_eq b o v : 0 <= o -> o + 2 <= zlen b -> get16 (put16 b o v) o = u16 v.
Proof.
  intros H1 H2. unfold get16, put16.
  rewrite !znth_zupd by (rewrite ?zlen_zupd; lia).
  rewrite !Z.eqb_refl. destruct (Z.eqb_spec (o + 1) o); [lia|].
  unfold u8, u16. lia.
Qed.

Lemma get16_put16_ne b o o' v : 0 <= o -> o + 2 <= zlen b -> o' + 2 <= o \/ o + 2 <= o' ->
  get16 (put16 b o v) o' = get16 b o'.
Proof.
  intros H1 H2 H3. unfold get16, put16.
  rewrite !znth_zupd by (rewrite ?zlen_zupd; lia).
  repeat (case_match; [lia|]). done.
Qed.

Lemma get32_put32_eq b o v : 0 <= o -> o + 4 <= zlen b -> get32 (put32 b o v) o = u32 v.
Proof.
  intros H1 H2. unfold get32, put32.
  rewrite (get16_put16_ne _ (o + 2) o), get16_put16_eq by (rewrite ?zlen_put16; lia).
  rewrite get16_put16_eq by (rewrite ?zlen_put16; lia).
  unfold u16, u32. lia.
Qed.

Lemma get32_put32_ne b o o' v : 0 <= o -> o + 4 <= zlen b -> o' + 4 <= o \/ o + 4 <= o' ->
  get32 (put32 b o v) o' = get32 b o'.
Proof.
  intros H1 H2 H3. unfold get32, put32.
  by rewrite !get16_put16_ne by (rewrite ?zlen_put16; lia).
Qed.

(** A [char], [short] or [int] field read back with its sign. *)
Definition gets16 (b : block) (o : Z) : Z := s16 (get16 b o).
Definition gets32 (b : block) (o : Z) : Z := s32 (get32 b o).

(** ** The superblock *)

Record superblock := SuperBlock {
  sb_size : Z;
  sb_nblocks : Z;
  sb_ninodes : Z;
  sb_nlog : Z;
  sb_logstart : Z;
  sb_inodestart : Z;
  sb_bmapstart : Z
}.

(** [memmove(sb, bp->data, sizeof( *sb))] *)
Definition sb_of_block (b : block) : superblock :=
  SuperBlock (get32 b 0) (get32 b 4) (get32 b 8) (get32 b 12) (get32 b 16)
    (get32 b 20) (get32 b 24).

(** ** The history of a disk

    The writes the disk has executed, the latest first; a block never written is
    zero. A crash after fewer writes leaves a suffix of the history. *)
Abbreviation disk_hist K := (list (K * block)).

Fixpoint hist_block {K} `{EqDecision K} (h : disk_hist K) (k : K) : block :=
  match h with
  | [] => zero_block
  | (k', d) :: h => if decide (k' = k) then d else hist_block h k
  end.
