(* ===== verification/Iface.v ===== *)
(** * Interfaces between kernel components

    What the lower components promise to the ones above them: spinlocks as seen
    by the code that holds them (implemented by Spinlock.v), and the process
    table as seen by code that only wakes processes up and asks who is running
    (implemented by Proc.v). *)
From S2P Require Import Prelude Param.

(** ** Spinlocks, seen by one CPU

    The state of a lock is whether this CPU holds it. [acquire] of a held lock
    and [release] of a free one panic; this is the contract that the full model
    of spinlock.c refines ([Spinlock.acquire_refines], [release_refines]). *)
Definition spin_acquire : M bool unit := fun held =>
  if held then Panic "acquire" else Ret tt true.
Definition spin_release : M bool unit := fun held =>
  if held then Ret tt false else Panic "release".

Lemma wp_spin_acquire Q (held : bool) :
  held = false -> Q tt true -> wp spin_acquire Q held.
Proof. by intros ->. Qed.

Lemma wp_spin_release Q (held : bool) :
  held = true -> Q tt false -> wp spin_release Q held.
Proof. by intros ->. Qed.

(** ** The process table, seen by its clients

    [cur_pid] and [cur_killed] are [myproc()->pid] and [myproc()->killed];
    [wakeup c] makes every process sleeping on [c] runnable. *)
Class ProcIface (P : Type) := {
  cur_pid : P -> Z;
  cur_killed : P -> bool;
  wakeup : chan -> P -> P;
  cur_pid_wakeup c p : cur_pid (wakeup c p) = cur_pid p;
  cur_killed_wakeup c p : cur_killed (wakeup c p) = cur_killed p
}.

#[export] Hint Rewrite @cur_pid_wakeup @cur_killed_wakeup : kernel.

(** A process table with one process and nobody to wake: it shows that the
    hypotheses of the client theorems can hold, and evaluates. *)
Definition lone_proc : Type := (Z * bool)%type.
#[global] Instance lone_proc_iface : ProcIface lone_proc := {
  cur_pid := fst;
  cur_killed := snd;
  wakeup := fun _ p => p;
  cur_pid_wakeup := fun _ _ => eq_refl;
  cur_killed_wakeup := fun _ _ => eq_refl
}.

(** ** The buffer cache, seen by the log

    The calls of bio.c with the accesses to a buffer's fields ([b->data],
    [b->blockno], [b->flags |= B_DIRTY]) by the code that holds it. *)
Class BlockOps (B : Type) := {
  blk_read : Z -> Z -> M B nat;
  blk_write : nat -> M B unit;
  blk_release : nat -> M B unit;
  blk_data : B -> nat -> block;
  blk_no : B -> nat -> Z;
  blk_set_data : nat -> block -> M B unit;
  blk_dirty : nat -> M B unit
}.

(** What the cache promises. [h] maps the buffers held to their block numbers;
    [blk_view] is the current content of each block of the root device (the cached
    copy if there is one), [blk_hist] the writes the disk has executed, [blk_pin]
    the blocks kept in the cache by [B_DIRTY]. *)
Class BlockLaws (B : Type) `{!ProcIface B, !BlockOps B} := {
  blk_ok : B -> gmap nat Z -> Prop;
  blk_view : B -> Z -> block;
  blk_hist : B -> disk_hist Z;
  blk_pin : B -> gset Z;
  blk_room s (h : gmap nat Z) bn :=
    bn ∈ blk_pin s \/ (size (blk_pin s ∪ map_img h) < NBUF)%nat;

  blk_view_ok s h k : blk_ok s h -> block_ok (blk_view s k);
  blk_data_view s h i bn : blk_ok s h -> h !! i = Some bn ->
    blk_data s i = blk_view s bn /\ blk_no s i = bn;
  blk_unheld s h k : blk_ok s h -> k ∉ blk_pin s -> (forall i, h !! i <> Some k) ->
    blk_view s k = hist_block (blk_hist s) k;
  blk_read_ok s h bn : blk_ok s h -> 0 <= bn < FSSIZE -> (forall i, h !! i <> Some bn) ->
    blk_room s h bn ->
    exists i s', blk_read ROOTDEV bn s = Ret i s' /\ h !! i = None /\
      blk_ok s' (<[i := bn]> h) /\ (forall k, blk_view s' k = blk_view s k) /\
      blk_hist s' = blk_hist s /\ blk_pin s' = blk_pin s /\ cur_pid s' = cur_pid s;
  blk_set_data_ok s h i bn d : blk_ok s h -> h !! i = Some bn -> block_ok d ->
    exists s', blk_set_data i d s = Ret tt s' /\ blk_ok s' h /\
      (forall k, blk_view s' k = if decide (k = bn) then d else blk_view s k) /\
      blk_hist s' = blk_hist s /\ blk_pin s' = blk_pin s /\ cur_pid s' = cur_pid s;
  blk_dirty_ok s h i bn : blk_ok s h -> h !! i = Some bn ->
    exists s', blk_dirty i s = Ret tt s' /\ blk_ok s' h /\
      (forall k, blk_view s' k = blk_view s k) /\
      blk_hist s' = blk_hist s /\ blk_pin s' = {[bn]} ∪ blk_pin s /\ cur_pid s' = cur_pid s;
  blk_write_ok s h i bn : blk_ok s h -> h !! i = Some bn ->
    exists s', blk_write i s = Ret tt s' /\ blk_ok s' h /\
      (forall k, blk_view s' k = blk_view s k) /\
      blk_hist s' = (bn, blk_view s bn) :: blk_hist s /\
      blk_pin s' = blk_pin s ∖ {[bn]} /\ cur_pid s' = cur_pid s;
  blk_release_ok s h i bn : blk_ok s h -> h !! i = Some bn ->
    (bn ∈ blk_pin s \/ blk_view s bn = hist_block (blk_hist s) bn) ->
    exists s', blk_release i s = Ret tt s' /\ blk_ok s' (delete i h) /\
      (forall k, blk_view s' k = blk_view s k) /\
      blk_hist s' = blk_hist s /\ blk_pin s' = blk_pin s /\ cur_pid s' = cur_pid s;
  blk_wakeup_ok s h c : blk_ok s h ->
    blk_ok (wakeup c s) h /\ (forall k, blk_view (wakeup c s) k = blk_view s k) /\
      blk_hist (wakeup c s) = blk_hist s /\ blk_pin (wakeup c s) = blk_pin s
}.

Lemma blk_idle {B} `{BlockLaws B} s k : blk_ok s ∅ -> k ∉ blk_pin s ->
  blk_view s k = hist_block (blk_hist s) k.
Proof. intros Hok Hk. eapply blk_unheld; [done|done|]. intros i. by rewrite lookup_empty. Qed.

(** ** The log, seen by the file system *)
Class TxnOps (T : Type) := {
  t_read : Z -> Z -> M T nat;             (* bread *)
  t_release : nat -> M T unit;            (* brelse *)
  t_data : T -> nat -> block;             (* b->data *)
  t_set_data : nat -> block -> M T unit;
  t_write : nat -> M T unit;              (* log_write *)
  t_begin : M T unit;                     (* begin_op *)
  t_end : M T unit                        (* end_op *)
}.

(** What a system call may rely on between [begin_op] and [end_op]. [h] maps the
    buffers held to their block and whether the contents are safe to let go
    (unmodified, or logged); [t_quota] is the number of blocks that still fit in
    the transaction; [t_home] the blocks the log protects. *)
Class TxnLaws (T : Type) `{!ProcIface T, !TxnOps T} := {
  t_ok : T -> gmap nat (Z * bool) -> Prop;
  t_view : T -> Z -> block;
  t_quota : T -> nat;
  t_home : T -> Z -> Prop;
  t_same (s s' : T) (q : nat) : Prop :=
    (forall k, t_home s' k <-> t_home s k) /\ cur_pid s' = cur_pid s /\
    (t_quota s <= t_quota s' + q)%nat;

  t_view_ok s h k : t_ok s h -> block_ok (t_view s k);
  t_data_view s h i bn c : t_ok s h -> h !! i = Some (bn, c) -> t_data s i = t_view s bn;
  t_read_ok s h bn : t_ok s h -> 0 <= bn < FSSIZE -> (forall i c, h !! i <> Some (bn, c)) ->
    (size h <= t_quota s)%nat ->
    exists i s', t_read ROOTDEV bn s = Ret i s' /\ h !! i = None /\
      t_ok s' (<[i := (bn, true)]> h) /\ (forall k, t_view s' k = t_view s k) /\ t_same s s' 0;
  t_set_data_ok s h i bn c d : t_ok s h -> h !! i = Some (bn, c) -> block_ok d ->
    exists s', t_set_data i d s = Ret tt s' /\ t_ok s' (<[i := (bn, false)]> h) /\
      (forall k, t_view s' k = if decide (k = bn) then d else t_view s k) /\ t_same s s' 0;
  t_write_ok s h i bn c : t_ok s h -> h !! i = Some (bn, c) -> t_home s bn ->
    (0 < t_quota s)%nat ->
    exists s', t_write i s = Ret tt s' /\ t_ok s' (<[i := (bn, true)]> h) /\
      (forall k, t_view s' k = t_view s k) /\ t_same s s' 1;
  t_release_ok s h i bn : t_ok s h -> h !! i = Some (bn, true) ->
    exists s', t_release i s = Ret tt s' /\ t_ok s' (delete i h) /\
      (forall k, t_view s' k = t_view s k) /\ t_same s s' 0;
  t_wakeup_ok s h c : t_ok s h ->
    t_ok (wakeup c s) h /\ (forall k, t_view (wakeup c s) k = t_view s k) /\
      t_same s (wakeup c s) 0
}.
