(* ===== verification/Sleeplock.v ===== *)
(** * Sleeping locks: sleeplock.c

    A sleeplock is protected by its inner spinlock [sl_lk]; the state of an
    operation is the lock and the process table. A process that finds the lock
    taken sleeps on the lock's address. *)
From S2P Require Import Prelude Param Iface.

Record sleeplock := SleepLock {
  sl_locked : bool;
  sl_lk : bool;
  sl_pid : Z
}.
Definition set_sl_locked (v : bool) (s : sleeplock) : sleeplock :=
  SleepLock v (sl_lk s) (sl_pid s).
Definition set_sl_lk (v : bool) (s : sleeplock) : sleeplock :=
  SleepLock (sl_locked s) v (sl_pid s).
Definition set_sl_pid (v : Z) (s : sleeplock) : sleeplock :=
  SleepLock (sl_locked s) (sl_lk s) v.

Section Sleeplock.
Context {P : Type} `{ProcIface P}.

Definition sl_lk_lens : lens (sleeplock * P) bool :=
  Lens (fun s => sl_lk s.1) (fun b s => (set_sl_lk b s.1, s.2)).

(** [lk->lk] is initialised free; [name] is a debugging label. *)
Definition initsleeplock : sleeplock := SleepLock false false 0.

(** [while (lk->locked) sleep(lk, &lk->lk);]: when the lock is taken the process
    goes to sleep on the lock, with the inner spinlock released; it starts the
    loop again when woken. *)
Definition acquiresleep_wait (id : nat) : M (sleeplock * P) unit :=
  let! s := get in
  if sl_locked s.1 then zoom sl_lk_lens spin_release ;;; asleep (ChSleepLock id)
  else ret tt.

Definition acquiresleep (id : nat) : M (sleeplock * P) unit :=
  zoom sl_lk_lens spin_acquire ;;;
  acquiresleep_wait id ;;;
  modify (fun s => (set_sl_locked true s.1, s.2)) ;;;
  modify (fun s => (set_sl_pid (cur_pid s.2) s.1, s.2)) ;;;
  zoom sl_lk_lens spin_release.

Definition releasesleep (id : nat) : M (sleeplock * P) unit :=
  zoom sl_lk_lens spin_acquire ;;;
  modify (fun s => (set_sl_locked false s.1, s.2)) ;;;
  modify (fun s => (set_sl_pid 0 s.1, s.2)) ;;;
  modify (fun s => (s.1, wakeup (ChSleepLock id) s.2)) ;;;
  zoom sl_lk_lens spin_release.

Definition holdingsleep : M (sleeplock * P) bool :=
  zoom sl_lk_lens spin_acquire ;;;
  let! r := gets (fun s => sl_locked s.1 && (sl_pid s.1 =? cur_pid s.2)) in
  zoom sl_lk_lens spin_release ;;;
  ret r.

(** The lock free, and held by process [pid]. *)
Definition sl_free : sleeplock := SleepLock false false 0.
Definition sl_held (pid : Z) : sleeplock := SleepLock true false pid.

Lemma acquiresleep_free id l (p : P) : sl_locked l = false -> sl_lk l = false ->
  acquiresleep id (l, p) = Ret tt (sl_held (cur_pid p), p).
Proof. destruct l; simpl; intros -> ->. reflexivity. Qed.

Lemma acquiresleep_taken id l (p : P) : sl_locked l = true -> sl_lk l = false ->
  acquiresleep id (l, p) = Asleep (ChSleepLock id) (l, p).
Proof. destruct l; simpl; intros -> ->. reflexivity. Qed.

Lemma releasesleep_eq id l (p : P) : sl_lk l = false ->
  releasesleep id (l, p) = Ret tt (sl_free, wakeup (ChSleepLock id) p).
Proof. destruct l; simpl; intros ->. reflexivity. Qed.

Lemma holdingsleep_eq l (p : P) : sl_lk l = false ->
  holdingsleep (l, p) = Ret (sl_locked l && (sl_pid l =? cur_pid p)) (l, p).
Proof. destruct l; simpl; intros ->. reflexivity. Qed.
End Sleeplock.
#[global] Arguments acquiresleep : simpl never.
#[global] Arguments releasesleep : simpl never.
#[global] Arguments holdingsleep : simpl never.

(** ** Several processes contending for one lock

    A process is identified by its pid; [Asleep]-ing processes wait for a
    [wakeup] on the lock, which makes them all runnable again. A runnable process
    may try to acquire, a holder may release, in any order. *)
Module Contention.
(** The running process and the set of those asleep on the lock. *)
Definition procs : Type := (Z * gset Z)%type.
#[export] Instance procs_iface : ProcIface procs := {
  cur_pid := fst;
  cur_killed := fun _ => false;
  wakeup := fun _ p => (p.1, ∅);
  cur_pid_wakeup := fun _ _ => eq_refl;
  cur_killed_wakeup := fun _ _ => eq_refl
}.

Record config := Config {
  lk : sleeplock;
  sleepers : gset Z;
  holders : gset Z
}.

Inductive step : config -> config -> Prop :=
| step_acquire pid l l' sl sl' h :
    pid ∉ sl -> pid ∉ h ->
    acquiresleep 0 (l, (pid, sl)) = Ret tt (l', (pid, sl')) ->
    step (Config l sl h) (Config l' sl' ({[pid]} ∪ h))
| step_block pid l l' sl sl' h :
    pid ∉ sl -> pid ∉ h ->
    acquiresleep 0 (l, (pid, sl)) = Asleep (ChSleepLock 0) (l', (pid, sl')) ->
    step (Config l sl h) (Config l' ({[pid]} ∪ sl') h)
| step_release pid l l' sl sl' h :
    pid ∈ h ->
    releasesleep 0 (l, (pid, sl)) = Ret tt (l', (pid, sl')) ->
    step (Config l sl h) (Config l' sl' (h ∖ {[pid]})).

Definition initial : config := Config initsleeplock ∅ ∅.

(** Free: nobody holds it and nobody sleeps on it. Taken: exactly the process
    whose pid the lock records holds it. *)
Definition inv (c : config) : Prop :=
  sl_lk (lk c) = false /\
  if sl_locked (lk c) then holders c = {[sl_pid (lk c)]}
  else holders c = ∅ /\ sleepers c = ∅.

Lemma contention_step_inv c c' : inv c -> step c c' -> inv c'.
Proof.
  intros [Hlk Hl] Hs. destruct Hs as [pid l l' sl sl' h Hsl Hh E|pid l l' sl sl' h Hsl Hh E
    |pid l l' sl sl' h Hh E]; destruct l as [b k q]; unfold inv in *; simpl in *; subst k.
  - destruct b; [by rewrite acquiresleep_taken in E|].
    rewrite acquiresleep_free in E by done. simplify_eq. simpl.
    split; [done|]. destruct Hl as [-> _]. apply (right_id_L ∅ (∪)).
  - destruct b; [|by rewrite acquiresleep_free in E].
    rewrite acquiresleep_taken in E by done. by simplify_eq.
  - rewrite releasesleep_eq in E by done. simplify_eq. simpl.
    split; [done|]. split; [|done]. destruct b.
    + rewrite Hl in Hh |- *. apply elem_of_singleton in Hh as ->.
      apply difference_diag_L.
    + destruct Hl as [-> _]. by apply not_elem_of_empty in Hh.
Qed.

(** C37: mutual exclusion and no lost wakeup for sleeplocks. In every reachable
    state at most one process holds the lock; while it is taken the holder is
    the process recorded in it, and once it is free no process is left
    sleeping on it. *)
Theorem sleeplock_mutex c : rtc step initial c ->
  (forall p q, p ∈ holders c -> q ∈ holders c -> p = q) /\
  (sl_locked (lk c) = true -> holders c = {[sl_pid (lk c)]}) /\
  (sl_locked (lk c) = false -> holders c = ∅ /\ sleepers c = ∅).
Proof.
  intros Hr. assert (Hi : inv c).
  { revert Hr. apply (rtc_ind_r (fun c => inv c)); [done|].
    intros ? ? _ Hs Hi. by eapply contention_step_inv. }
  destruct Hi as [_ Hi]. destruct (sl_locked (lk c)); [|set_solver].
  split; [|done]. rewrite Hi. set_solver.
Qed.

(** Process 1 takes the lock, process 2 waits for it. *)
Definition two : config := Config (SleepLock true false 1) {[2]} {[1]}.
Lemma two_reachable : rtc step initial two.
Proof.
  eapply rtc_l.
  { apply (step_acquire 1 _ (SleepLock true false 1) ∅ ∅ ∅); [set_solver|set_solver|reflexivity]. }
  rewrite (right_id_L ∅ (∪)). eapply rtc_l; [|apply rtc_refl].
  replace two with (Config (SleepLock true false 1) ({[2]} ∪ ∅) {[1]}) by
    (unfold two; by rewrite (right_id_L ∅ (∪))).
  apply (step_block 2); [set_solver|set_solver|reflexivity].
Qed.
Lemma sleeplock_mutex_witness :
  (forall p q, p ∈ holders two -> q ∈ holders two -> p = q) /\ holders two = {[1]}.
Proof.
  destruct (sleeplock_mutex two two_reachable) as (H1 & H2 & _).
  split; [exact H1|]. apply H2. reflexivity.
Defined.
End Contention.
