(* ===== verification/Spinlock.v ===== *)
(** * Spinlocks: spinlock.c

    The full model of one lock shared by the CPUs, with the interrupt flag and the
    [pushcli] depth of each CPU, as the steps that other CPUs can interleave with;
    [Iface.spin_acquire] and [spin_release] are what the code that uses a lock sees
    of it. *)
From S2P Require Import Prelude Param Iface CString.

(** struct spinlock; [lk_cpu] is [None] for a null [lk->cpu]. *)
Record spinlock := SpinLock {
  lk_locked : Z;
  lk_cpu : option nat;
  lk_pcs : list Z
}.
Definition set_lk_locked (v : Z) (s : spinlock) : spinlock :=
  SpinLock v (lk_cpu s) (lk_pcs s).
Definition set_lk_cpu (v : option nat) (s : spinlock) : spinlock :=
  SpinLock (lk_locked s) v (lk_pcs s).
Definition set_lk_pcs (v : list Z) (s : spinlock) : spinlock :=
  SpinLock (lk_locked s) (lk_cpu s) v.

(** The part of struct cpu that pushcli uses, with the CPU's interrupt flag. *)
Record cpu := Cpu {
  c_if : bool;
  c_ncli : Z;
  c_intena : bool
}.
Definition set_c_if (v : bool) (s : cpu) : cpu :=
  Cpu v (c_ncli s) (c_intena s).
Definition set_c_ncli (v : Z) (s : cpu) : cpu :=
  Cpu (c_if s) v (c_intena s).
Definition set_c_intena (v : bool) (s : cpu) : cpu :=
  Cpu (c_if s) (c_ncli s) v.

(** The lock and the CPUs. *)
Record smp := Smp {
  sm_lock : spinlock;
  sm_cpus : list cpu
}.
Definition set_sm_lock (v : spinlock) (s : smp) : smp :=
  Smp v (sm_cpus s).
Definition set_sm_cpus (v : list cpu) (s : smp) : smp :=
  Smp (sm_lock s) v.

Definition initlock : spinlock := SpinLock 0 None (replicate 10 0).

(** The frame-pointer walk: [pcs] of at most ten callers, zero-padded. *)
Fixpoint getcallerpcs_loop (m : mem) (n : nat) (ebp : Z) : list Z :=
  match n with
  | O => []
  | S n' =>
    if (ebp =? 0) || (ebp <? 2147483648) || (ebp =? 4294967295)
    then replicate n 0
    else ld32 m (ebp + 4) :: getcallerpcs_loop m n' (ld32 m ebp)
  end.
Definition getcallerpcs (m : mem) (v : Z) : list Z := getcallerpcs_loop m 10 (u32 (v - 8)).

Section Spinlock.
(** [c]: this CPU; [pcs]: the call stack recorded by [acquire]. *)
Variable c : nat.

Definition cpu0 : cpu := Cpu false 0 false.
Definition mycpu (s : smp) : cpu := nth c (sm_cpus s) cpu0.
Definition upd_cpu (f : cpu -> cpu) (s : smp) : smp :=
  set_sm_cpus (<[c := f (mycpu s)]> (sm_cpus s)) s.
Definition upd_lock (f : spinlock -> spinlock) (s : smp) : smp :=
  set_sm_lock (f (sm_lock s)) s.

Definition pushcli : M smp unit :=
  let! s := get in
  let eflags := c_if (mycpu s) in
  modify (upd_cpu (set_c_if false)) ;;;
  when (c_ncli (mycpu s) =? 0) (modify (upd_cpu (set_c_intena eflags))) ;;;
  modify (upd_cpu (fun k => set_c_ncli (c_ncli k + 1) k)).

Definition popcli : M smp unit :=
  let! s := get in
  if c_if (mycpu s) then panic "popcli - interruptible"
  else
  modify (upd_cpu (fun k => set_c_ncli (c_ncli k - 1) k)) ;;;
  let! s := get in
  if c_ncli (mycpu s) <? 0 then panic "popcli"
  else when ((c_ncli (mycpu s) =? 0) && c_intena (mycpu s)) (modify (upd_cpu (set_c_if true))).

(** Check whether this cpu is holding the lock. *)
Definition holding : M smp bool :=
  pushcli ;;;
  let! s := get in
  let r := negb (lk_locked (sm_lock s) =? 0) &&
    bool_decide (lk_cpu (sm_lock s) = Some c) in
  popcli ;;;
  ret r.

(** [acquire] up to the spin loop. *)
Definition acquire_enter : M smp unit :=
  pushcli ;;;
  let! h := holding in
  if h then panic "acquire" else ret tt.
(** One [xchg(&lk->locked, 1)]: the old value. *)
Definition acquire_xchg : M smp Z :=
  let! s := get in
  modify (upd_lock (set_lk_locked 1)) ;;;
  ret (lk_locked (sm_lock s)).
(** [acquire] after the spin loop. *)
Definition acquire_record (pcs : list Z) : M smp unit :=
  modify (upd_lock (set_lk_cpu (Some c))) ;;;
  modify (upd_lock (set_lk_pcs pcs)).
(** [while(xchg(&lk->locked, 1) != 0);] run alone: it ends at once or never. *)
Fixpoint acquire_spin (fuel : nat) : M smp unit :=
  match fuel with
  | O => fun _ => NoFuel
  | S fuel' => let! old := acquire_xchg in if old =? 0 then ret tt else acquire_spin fuel'
  end.
Definition acquire (fuel : nat) (pcs : list Z) : M smp unit :=
  acquire_enter ;;; acquire_spin fuel ;;; acquire_record pcs.

(** [release] up to the store, the store, and the rest. *)
Definition release_enter : M smp unit :=
  let! h := holding in
  if negb h then panic "release"
  else
  modify (upd_lock (fun l => set_lk_pcs (<[0%nat := 0]> (lk_pcs l)) l)) ;;;
  modify (upd_lock (set_lk_cpu None)).
Definition release_store : M smp unit := modify (upd_lock (set_lk_locked 0)).
Definition release : M smp unit := release_enter ;;; release_store ;;; popcli.

(** ** Interrupt nesting *)

(** Interrupts are off while [pushcli]s are pending. *)
Definition cli_ok (k : cpu) : Prop := 0 <= c_ncli k /\ (0 < c_ncli k -> c_if k = false).

Definition pushed (k : cpu) : cpu :=
  Cpu false (c_ncli k + 1) (if c_ncli k =? 0 then c_if k else c_intena k).
Definition popped (k : cpu) : cpu :=
  Cpu ((c_ncli k =? 1) && c_intena k) (c_ncli k - 1) (c_intena k).

Lemma mycpu_upd f s : (c < length (sm_cpus s))%nat -> mycpu (upd_cpu f s) = f (mycpu s).
Proof. intros Hc. unfold mycpu, upd_cpu. simpl. by apply nth_insert_eq. Qed.

Lemma len_upd f s : length (sm_cpus (upd_cpu f s)) = length (sm_cpus s).
Proof. apply length_insert. Qed.

Lemma upd_upd f g s : (c < length (sm_cpus s))%nat ->
  upd_cpu f (upd_cpu g s) = upd_cpu (fun k => f (g k)) s.
Proof.
  intros Hc. unfold upd_cpu at 1. rewrite mycpu_upd by done.
  unfold upd_cpu, set_sm_cpus. simpl. by rewrite list_insert_insert_eq.
Qed.

Lemma upd_cpu_ext f g s : f (mycpu s) = g (mycpu s) -> upd_cpu f s = upd_cpu g s.
Proof. intros E. unfold upd_cpu. by rewrite E. Qed.

Lemma upd_cpu_id f s : f (mycpu s) = mycpu s -> upd_cpu f s = s.
Proof.
  intros E. unfold upd_cpu. rewrite E. destruct s as [l cpus]. unfold mycpu, set_sm_cpus.
  simpl. by rewrite insert_nth.
Qed.

Lemma run_pushcli s : (c < length (sm_cpus s))%nat ->
  pushcli s = Ret tt (upd_cpu pushed s).
Proof.
  intros Hc. unfold pushcli. mrun. destruct (c_ncli (mycpu s) =? 0) eqn:E; mrun;
    unfold modify; rewrite ?upd_upd by (rewrite ?len_upd; done); f_equal;
    apply upd_cpu_ext; unfold pushed; rewrite E; by destruct (mycpu s).
Qed.

Lemma run_popcli s : (c < length (sm_cpus s))%nat -> cli_ok (mycpu s) ->
  0 < c_ncli (mycpu s) -> popcli s = Ret tt (upd_cpu popped s).
Proof.
  intros Hc [H0 Hif] Hn. unfold popcli. mrun. rewrite Hif by done. mrun.
  rewrite mycpu_upd by done. simpl.
  replace (c_ncli (mycpu s) - 1 <? 0) with false by lia.
  replace (c_ncli (mycpu s) - 1 =? 0) with (c_ncli (mycpu s) =? 1) by lia.
  destruct ((c_ncli (mycpu s) =? 1) && c_intena (mycpu s)) eqn:E; mrun;
    unfold modify; rewrite ?upd_upd by done; f_equal; apply upd_cpu_ext;
    unfold popped; rewrite E; destruct (mycpu s) as [i n e] eqn:Ek; simpl in *; [done|].
  unfold set_c_ncli. simpl. by rewrite Hif.
Qed.

Lemma pushed_ok k : cli_ok k -> cli_ok (pushed k) /\ 0 < c_ncli (pushed k).
Proof. intros [H0 Hif]. unfold cli_ok. simpl. split; [split; [lia|done]|lia]. Qed.

Lemma popped_pushed k : cli_ok k -> popped (pushed k) =
  Cpu (c_if k) (c_ncli k) (if c_ncli k =? 0 then c_if k else c_intena k).
Proof.
  intros [H0 Hif]. destruct k as [i n e]. unfold popped, pushed. simpl in *.
  f_equal; [|lia]. destruct (Z.eqb_spec n 0) as [->|Hn]; [done|].
  rewrite Hif by lia. by replace (n + 1 =? 1) with false by lia.
Qed.

(** What [holding] leaves of this CPU: nothing but a saved flag nobody reads. *)
Definition peeked (k : cpu) : cpu :=
  Cpu (c_if k) (c_ncli k) (if c_ncli k =? 0 then c_if k else c_intena k).

Definition held_by (l : spinlock) : bool :=
  negb (lk_locked l =? 0) && bool_decide (lk_cpu l = Some c).

Lemma run_holding s : (c < length (sm_cpus s))%nat -> cli_ok (mycpu s) ->
  holding s = Ret (held_by (sm_lock s)) (upd_cpu peeked s).
Proof.
  intros Hc Hok. unfold holding. erewrite bind_eq by by apply run_pushcli. mrun.
  destruct (pushed_ok _ Hok) as [Hp1 Hp2].
  erewrite bind_eq by (apply run_popcli; rewrite ?len_upd, ?mycpu_upd by done; done).
  unfold ret. f_equal. rewrite upd_upd by done. apply upd_cpu_ext.
  by rewrite popped_pushed.
Qed.

Lemma run_acquire_enter s : (c < length (sm_cpus s))%nat -> cli_ok (mycpu s) ->
  acquire_enter s =
  if held_by (sm_lock s) then Panic "acquire" else Ret tt (upd_cpu pushed s).
Proof.
  intros Hc Hok. unfold acquire_enter. erewrite bind_eq by by apply run_pushcli.
  destruct (pushed_ok _ Hok) as [Hp1 Hp2].
  erewrite bind_eq by (apply run_holding; rewrite ?len_upd, ?mycpu_upd by done; done).
  change (sm_lock (upd_cpu pushed s)) with (sm_lock s).
  destruct (held_by (sm_lock s)); [done|]. unfold ret. f_equal.
  apply upd_cpu_id. rewrite mycpu_upd by done. unfold peeked.
  destruct (mycpu s) as [i n e]. destruct Hok as [H0 _]. simpl in *.
  by replace (n + 1 =? 0) with false by lia.
Qed.

Lemma run_release_enter s : (c < length (sm_cpus s))%nat -> cli_ok (mycpu s) ->
  0 < c_ncli (mycpu s) ->
  release_enter s =
  if held_by (sm_lock s)
  then Ret tt (upd_lock (fun l => SpinLock (lk_locked l) None (<[0%nat := 0]> (lk_pcs l))) s)
  else Panic "release".
Proof.
  intros Hc Hok Hn. unfold release_enter. erewrite bind_eq by by apply run_holding.
  rewrite upd_cpu_id.
  2: { unfold peeked. destruct (mycpu s) as [i n e]. simpl in *.
       by replace (n =? 0) with false by lia. }
  destruct (held_by (sm_lock s)); [|done]. cbn [negb]. mrun. done.
Qed.
End Spinlock.

(** ** The lock as its users see it *)
Section Refinement.
Variable c : nat.

(** [n] times [m]. *)
Fixpoint repeat_op (n : nat) (m : M smp unit) : M smp unit :=
  match n with
  | O => ret tt
  | S n' => m ;;; repeat_op n' m
  end.

Lemma repeat_push n s : (c < length (sm_cpus s))%nat -> cli_ok (mycpu c s) ->
  exists s', repeat_op n (pushcli c) s = Ret tt s' /\
    length (sm_cpus s') = length (sm_cpus s) /\
    mycpu c s' = Nat.iter n pushed (mycpu c s) /\ cli_ok (mycpu c s') /\
    sm_lock s' = sm_lock s.
Proof.
  revert s. induction n as [|n IH]; intros s Hc Hok; [by exists s|]. cbn [repeat_op].
  erewrite bind_eq by by apply run_pushcli.
  destruct (IH (upd_cpu c pushed s)) as (s' & E & El & Em & Ho & Ek).
  - by rewrite len_upd.
  - rewrite mycpu_upd by done. by apply pushed_ok.
  - exists s'. split; [done|]. rewrite El, Em, Ek, len_upd, mycpu_upd by done.
    rewrite Nat.iter_succ_r. split; [done|]. split; [done|]. split; [|done].
    rewrite Em, mycpu_upd in Ho by done. by rewrite <-Nat.iter_succ_r in Ho |- *.
Qed.

Lemma iter_pushed n k : cli_ok k -> c_ncli k = 0 ->
  Nat.iter (S n) pushed k = Cpu false (Z.of_nat n + 1) (c_if k).
Proof.
  intros Hok H0. induction n as [|n IH].
  - simpl. unfold pushed. by rewrite H0.
  - change (Nat.iter (S (S n)) pushed k) with (pushed (Nat.iter (S n) pushed k)).
    rewrite IH. unfold pushed. simpl c_ncli.
    replace (Z.of_nat n + 1 =? 0) with false by lia. simpl c_intena. f_equal. lia.
Qed.

Lemma repeat_pop n s i : (c < length (sm_cpus s))%nat ->
  mycpu c s = Cpu (if Nat.eqb n 0 then i else false) (Z.of_nat n) i ->
  exists s', repeat_op n (popcli c) s = Ret tt s' /\
    mycpu c s' = Cpu i 0 i /\ sm_lock s' = sm_lock s.
Proof.
  revert s. induction n as [|n IH]; intros s Hc Hk; [by exists s|]. cbn [repeat_op].
  erewrite bind_eq by (apply run_popcli; [done|rewrite Hk; split; simpl; [lia|done]|rewrite Hk; simpl; lia]).
  destruct (IH (upd_cpu c popped s)) as (s' & E & Em & Ek).
  - by rewrite len_upd.
  - rewrite mycpu_upd, Hk by done. unfold popped. simpl c_ncli. simpl c_intena.
    f_equal; [|lia]. destruct n as [|n]; [by destruct i|].
    by replace (Z.of_nat (S (S n)) =? 1) with false by lia.
  - exists s'. split; [done|]. split; [done|]. by rewrite Ek.
Qed.

(** [pushcli] and [popcli] nest: after [n + 1] calls of [pushcli] interrupts
    are off, and [n + 1] calls of [popcli] give the CPU its interrupt flag back. *)
Theorem cli_nesting n s : (c < length (sm_cpus s))%nat ->
  cli_ok (mycpu c s) -> c_ncli (mycpu c s) = 0 ->
  exists s1 s2, repeat_op (S n) (pushcli c) s = Ret tt s1 /\
    c_if (mycpu c s1) = false /\ c_ncli (mycpu c s1) = Z.of_nat n + 1 /\
    repeat_op (S n) (popcli c) s1 = Ret tt s2 /\
    c_if (mycpu c s2) = c_if (mycpu c s) /\ c_ncli (mycpu c s2) = 0.
Proof.
  intros Hc Hok H0. destruct (repeat_push (S n) s Hc Hok) as (s1 & E1 & L1 & M1 & _ & _).
  rewrite iter_pushed in M1 by done.
  destruct (repeat_pop (S n) s1 (c_if (mycpu c s))) as (s2 & E2 & M2 & _).
  - by rewrite L1.
  - rewrite M1. cbn [Nat.eqb]. f_equal. lia.
  - exists s1, s2. rewrite M1, M2. split_and!; done || (simpl; lia).
Qed.

(** Seen by one CPU, the lock refines the boolean lock of [Iface]: [acquire]
    of a lock that is free or already held by this CPU, and [release], do what
    [spin_acquire] and [spin_release] do, panics included. *)
Theorem spinlock_refines fuel pcs s : (c < length (sm_cpus s))%nat ->
  cli_ok (mycpu c s) ->
  (lk_locked (sm_lock s) = 0 \/ held_by c (sm_lock s) = true /\ 0 < c_ncli (mycpu c s)) ->
  match spin_acquire (held_by c (sm_lock s)) with
  | Ret _ b => exists s', acquire c (S fuel) pcs s = Ret tt s' /\
      held_by c (sm_lock s') = b /\ 0 < c_ncli (mycpu c s')
  | Panic e => acquire c (S fuel) pcs s = Panic e
  | _ => False
  end /\
  (0 < c_ncli (mycpu c s) -> match spin_release (held_by c (sm_lock s)) with
  | Ret _ b => exists s', release c s = Ret tt s' /\
      held_by c (sm_lock s') = b /\ lk_locked (sm_lock s') = 0
  | Panic e => release c s = Panic e
  | _ => False
  end).
Proof.
  intros Hc Hok Hl. unfold spin_acquire, spin_release, acquire, release. split.
  - destruct (held_by c (sm_lock s)) eqn:Eh.
    + unfold bind. by rewrite run_acquire_enter, Eh.
    + destruct Hl as [Hl|[? _]]; [|done].
      erewrite bind_eq by (rewrite run_acquire_enter, Eh by done; done).
      cbn [acquire_spin]. unfold acquire_xchg. mrun.
      change (sm_lock (upd_cpu c pushed s)) with (sm_lock s). rewrite Hl. mrun.
      eexists. split; [done|]. unfold held_by. simpl. rewrite bool_decide_eq_true_2 by done.
      split; [done|]. change (0 < c_ncli (mycpu c (upd_cpu c pushed s))).
      rewrite mycpu_upd by done. by apply pushed_ok.
  - intros Hn. destruct (held_by c (sm_lock s)) eqn:Eh.
    + erewrite bind_eq by (rewrite run_release_enter, Eh by done; done).
      unfold release_store. mrun. eexists.
      split; [apply run_popcli; done|]. split; [done|]. done.
    + unfold bind. by rewrite run_release_enter, Eh.
Qed.
End Refinement.

Lemma cli_nesting_witness : let s := Smp initlock [Cpu true 0 false] in
  exists s1 s2, repeat_op 2 (pushcli 0) s = Ret tt s1 /\
    repeat_op 2 (popcli 0) s1 = Ret tt s2 /\ c_if (mycpu 0 s2) = true.
Proof.
  destruct (cli_nesting 0 1 (Smp initlock [Cpu true 0 false])) as (s1 & s2 & E1 & _ & _ & E2 & Hf & _).
  - apply (bool_decide_unpack _). vm_compute. exact I.
  - split; vm_compute; [discriminate|discriminate].
  - reflexivity.
  - exists s1, s2. split; [exact E1|]. split; [exact E2|exact Hf].
Defined.

Lemma spinlock_refines_witness : let s := Smp initlock [Cpu true 0 false; Cpu true 0 false] in
  exists s', acquire 1 1 [] s = Ret tt s' /\ held_by 1 (sm_lock s') = true.
Proof.
  destruct (spinlock_refines 1 0 [] (Smp initlock [Cpu true 0 false; Cpu true 0 false])) as [H _].
  - apply (bool_decide_unpack _). vm_compute. exact I.
  - split; vm_compute; discriminate.
  - left. reflexivity.
  - destruct H as (s' & E & Hh & _). exists s'. split; [exact E|exact Hh].
Defined.

(** ** Many CPUs *)
Module Smp.
(** Where a CPU is with the lock: outside; spinning; past the successful [xchg];
    holding it; past [lk->cpu = 0] in [release]. *)
Inductive pc := Out | Spin | Won | Held | Cleared.

Definition state : Type := smp * (nat -> pc).
Definition goto (c : nat) (p : pc) (f : nat -> pc) : nat -> pc :=
  fun c' => if Nat.eqb c' c then p else f c'.

(** One step of CPU [c]; steps of different CPUs interleave in any order. *)
Inductive step : state -> state -> Prop :=
| step_enter c s s' f : f c = Out -> (c < length (sm_cpus s))%nat ->
    acquire_enter c s = Ret tt s' -> step (s, f) (s', goto c Spin f)
| step_spin c s s' old f : f c = Spin -> acquire_xchg s = Ret old s' -> old <> 0 ->
    step (s, f) (s', f)
| step_win c s s' f : f c = Spin -> acquire_xchg s = Ret 0 s' ->
    step (s, f) (s', goto c Won f)
| step_record c s s' pcs f : f c = Won -> acquire_record c pcs s = Ret tt s' ->
    step (s, f) (s', goto c Held f)
| step_leave c s s' f : f c = Held -> release_enter c s = Ret tt s' ->
    step (s, f) (s', goto c Cleared f)
| step_free c s s' f : f c = Cleared -> (release_store ;;; popcli c) s = Ret tt s' ->
    step (s, f) (s', goto c Out f).

Definition inside (p : pc) : Prop := p = Won \/ p = Held \/ p = Cleared.

Record inv (st : state) : Prop := {
  inv_len c : st.2 c <> Out -> (c < length (sm_cpus st.1))%nat;
  inv_cli c : cli_ok (mycpu c st.1) /\ (st.2 c <> Out -> 0 < c_ncli (mycpu c st.1));
  inv_free : lk_locked (sm_lock st.1) = 0 <-> forall c, ~ inside (st.2 c);
  inv_one c c' : inside (st.2 c) -> inside (st.2 c') -> c = c';
  inv_owner c : lk_cpu (sm_lock st.1) = Some c <-> st.2 c = Held
}.

Lemma goto_eq c p f : goto c p f c = p.
Proof. unfold goto. by rewrite Nat.eqb_refl. Qed.
Lemma goto_ne c p f c' : c' <> c -> goto c p f c' = f c'.
Proof. intros H. unfold goto. by destruct (Nat.eqb_spec c' c). Qed.

Lemma mycpu_upd_ne c c' f s : c' <> c -> mycpu c' (upd_cpu c f s) = mycpu c' s.
Proof. intros H. unfold mycpu, upd_cpu. simpl. by apply nth_insert_ne. Qed.

(** A step of [c] that leaves the other CPUs alone. *)
Lemma cli_frame c p g f s l : (c < length (sm_cpus s))%nat ->
  (forall c', cli_ok (mycpu c' s) /\ (f c' <> Out -> 0 < c_ncli (mycpu c' s))) ->
  cli_ok (g (mycpu c s)) -> (p <> Out -> 0 < c_ncli (g (mycpu c s))) ->
  forall c', cli_ok (mycpu c' (set_sm_lock l (upd_cpu c g s))) /\
    (goto c p f c' <> Out -> 0 < c_ncli (mycpu c' (set_sm_lock l (upd_cpu c g s)))).
Proof.
  intros Hc Hcli Hg Hp c'. change (mycpu c' (set_sm_lock l ?s)) with (mycpu c' s).
  destruct (decide (c' = c)) as [->|Hne].
  - rewrite mycpu_upd, goto_eq by done. auto.
  - rewrite mycpu_upd_ne, goto_ne by done. apply Hcli.
Qed.

(** The lock and the positions of the CPUs agree. *)
Record lock_inv (l : spinlock) (f : nat -> pc) : Prop := {
  lo_free : lk_locked l = 0 <-> forall c, ~ inside (f c);
  lo_one c c' : inside (f c) -> inside (f c') -> c = c';
  lo_owner c : lk_cpu l = Some c <-> f c = Held
}.

Ltac at_cpu c c' := destruct (decide (c' = c)) as [->|];
  [rewrite ?goto_eq in *|rewrite ?goto_ne in * by done].

(** Moving between the two positions outside the lock changes nothing. *)
Lemma lock_inv_outside l f c p : lock_inv l f -> ~ inside (f c) -> f c <> Held ->
  ~ inside p -> p <> Held -> lock_inv l (goto c p f).
Proof.
  intros [H1 H2 H3] Hc Hh Hp Hq. split.
  - rewrite H1. split; intros H c'; specialize (H c'); by at_cpu c c'.
  - intros c1 c2. at_cpu c c1; [done|]. at_cpu c c2; [done|]. apply H2.
  - intros c'. rewrite H3. at_cpu c c'; done.
Qed.

(** The one CPU inside moves. *)
Lemma lock_inv_inside l l' f c p : lock_inv l f -> inside (f c) -> inside p ->
  lk_locked l' <> 0 -> (forall c', lk_cpu l' = Some c' <-> c' = c /\ p = Held) ->
  lock_inv l' (goto c p f).
Proof.
  intros [H1 H2 H3] Hc Hp Hl Ho. split.
  - split; [done|]. intros H. specialize (H c). by rewrite goto_eq in H.
  - intros c1 c2. at_cpu c c1; at_cpu c c2; intros; try done; eauto using eq_sym.
  - intros c'. rewrite Ho. at_cpu c c'; [naive_solver|]. split; [naive_solver|].
    intros Hh. assert (c' = c) by (apply H2; [rewrite Hh; right; by left|done]). done.
Qed.

Lemma inv_of s f : lock_inv (sm_lock s) f ->
  (forall c, f c <> Out -> (c < length (sm_cpus s))%nat) ->
  (forall c, cli_ok (mycpu c s) /\ (f c <> Out -> 0 < c_ncli (mycpu c s))) ->
  inv (s, f).
Proof. intros [] ? ?. by split. Qed.

Lemma goto_len c p f n : f c <> Out \/ (c < n)%nat -> (forall c, f c <> Out -> (c < n)%nat) ->
  forall c', goto c p f c' <> Out -> (c' < n)%nat.
Proof. intros Hc Hf c'. at_cpu c c'; [|auto]. destruct Hc; auto. Qed.

Lemma goto_cli c p f s : f c <> Out ->
  (forall c, cli_ok (mycpu c s) /\ (f c <> Out -> 0 < c_ncli (mycpu c s))) ->
  forall c', cli_ok (mycpu c' s) /\ (goto c p f c' <> Out -> 0 < c_ncli (mycpu c' s)).
Proof. intros Hc Hf c'. split; [apply Hf|]. at_cpu c c'; intros; by apply Hf. Qed.

Lemma popped_ok k : cli_ok k -> 0 < c_ncli k -> cli_ok (popped k).
Proof.
  intros [H1 H2] Hn. split; simpl; [lia|]. intros H.
  by replace (c_ncli k =? 1) with false by lia.
Qed.

Lemma smp_step_inv st st' : inv st -> step st st' -> inv st'.
Proof.
  intros Hi Hs. destruct Hs as [c s s' f Hf Hc E|c s s' old f Hf E Hold|c s s' f Hf E
    |c s s' pcs f Hf E|c s s' f Hf E|c s s' f Hf E];
    destruct Hi as [Hlen Hcli H1 H2 H3]; simpl in *;
    assert (Hl : lock_inv (sm_lock s) f) by (by split); clear H1 H2 H3.
  - rewrite run_acquire_enter in E by (done || apply Hcli).
    destruct (held_by c (sm_lock s)); simplify_eq. apply inv_of.
    + apply lock_inv_outside; try done; rewrite ?Hf; unfold inside; naive_solver.
    + simpl. rewrite length_insert. apply goto_len; auto.
    + destruct (pushed_ok (mycpu c s)) as [P1 P2]; [apply Hcli|].
      by apply (cli_frame c Spin pushed f s (sm_lock s)).
  - unfold acquire_xchg in E. rewrite run_bind_get, run_bind_modify in E. injection E as E1 E2. subst.
    apply inv_of; [|done|done]. destruct Hl as [L1 L2 L3]. split; [|done|done].
    simpl. split; [done|]. intros H. by apply L1 in H.
  - unfold acquire_xchg in E. rewrite run_bind_get, run_bind_modify in E. injection E as E1 E2. subst.
    assert (Hno := proj1 (lo_free _ _ Hl) E1). destruct Hl as [L1 L2 L3].
    apply inv_of; [split|apply goto_len; [left; by rewrite Hf|done]|apply goto_cli; [by rewrite Hf|done]].
    + simpl. split; [done|]. intros H. specialize (H c). rewrite goto_eq in H. destruct H. by left.
    + intros c1 c2. at_cpu c c1; at_cpu c c2; intros; try done; exfalso; by eapply Hno.
    + intros c'. simpl. rewrite L3. at_cpu c c'; [|done]. by rewrite Hf.
  - unfold acquire_record in E. rewrite run_bind_modify in E. injection E as <-.
    apply inv_of; [|apply goto_len; [left; by rewrite Hf|done]|apply goto_cli; [by rewrite Hf|done]].
    apply (lock_inv_inside (sm_lock s)); try done; rewrite ?Hf.
    + by left.
    + right. by left.
    + simpl. intros E. apply (lo_free _ _ Hl) with c in E. apply E. rewrite Hf. by left.
    + intros c'. simpl. naive_solver.
  - rewrite run_release_enter in E.
    2: { apply Hlen. by rewrite Hf. } 2: { apply Hcli. } 2: { apply Hcli. by rewrite Hf. }
    destruct (held_by c (sm_lock s)); [|done]. injection E as <-.
    apply inv_of; [|apply goto_len; [left; by rewrite Hf|done]|apply goto_cli; [by rewrite Hf|done]].
    apply (lock_inv_inside (sm_lock s)); try done; rewrite ?Hf.
    + right. by left.
    + right. by right.
    + simpl. intros E. apply (lo_free _ _ Hl) with c in E. apply E. rewrite Hf. right. by left.
    + intros c'. simpl. naive_solver.
  - unfold release_store in E. rewrite run_bind_modify in E.
    destruct (Hcli c) as [K1 K2]. specialize (K2 ltac:(by rewrite Hf)).
    rewrite (run_popcli c) in E; [|by apply Hlen; rewrite Hf|done|done]. injection E as <-.
    apply inv_of.
    + destruct Hl as [L1 L2 L3].
      assert (Hno : forall c', c' <> c -> ~ inside (f c')).
      { intros c' Hne Hin. apply Hne, L2; [done|]. rewrite Hf. right. by right. }
      split; simpl.
      * split; [|done]. intros _ c'. at_cpu c c'; [unfold inside; naive_solver|auto].
      * intros c1 c2. at_cpu c c1; [unfold inside; naive_solver|].
        intros Hin. by destruct (Hno c1).
      * intros c'. rewrite L3. at_cpu c c'; [by rewrite Hf|done].
    + simpl. rewrite length_insert. apply goto_len; [left; by rewrite Hf|done].
    + apply (cli_frame c Out popped f s (set_lk_locked 0 (sm_lock s))); try done.
      * apply Hlen. by rewrite Hf.
      * by apply popped_ok.
Qed.

(** Boot: the lock is free and no CPU is near it. *)
Definition boot (cpus : list cpu) : state := (Smp initlock cpus, fun _ => Out).

Lemma boot_inv cpus : Forall cli_ok cpus -> inv (boot cpus).
Proof.
  intros Hc. apply inv_of.
  - split; simpl; try naive_solver; unfold inside; naive_solver.
  - done.
  - intros c. split; [|done]. unfold mycpu. simpl. rewrite nth_lookup.
    destruct (cpus !! c) as [k|] eqn:E; simpl.
    + rewrite Forall_lookup in Hc. by eapply Hc.
    + split; simpl; [lia|lia].
Qed.

Lemma reach_inv cpus st : Forall cli_ok cpus -> rtc step (boot cpus) st -> inv st.
Proof.
  intros Hc Hr. assert (Hb := boot_inv cpus Hc). revert Hb.
  induction Hr as [|st1 st2 st3 Hs Hr IH]; [done|]. intros Hi. by eapply IH, smp_step_inv.
Qed.

(** C5: at most one CPU is between [acquire] and [release], whatever the
    interleaving; the holder has interrupts off, [holding] tells it apart, and
    neither of the two panics is reachable from correct use. *)
Theorem spin_mutex cpus st : Forall cli_ok cpus -> rtc step (boot cpus) st ->
  (forall c c', st.2 c = Held -> st.2 c' = Held -> c = c') /\
  (forall c, st.2 c = Held -> c_if (mycpu c st.1) = false /\
    exists s', release_enter c st.1 = Ret tt s') /\
  (forall c, st.2 c = Out -> (c < length (sm_cpus st.1))%nat ->
    exists s', acquire_enter c st.1 = Ret tt s').
Proof.
  intros Hc Hr. pose proof (reach_inv _ _ Hc Hr) as [Hlen Hcli H1 H2 H3].
  assert (Hheld : forall c, held_by c (sm_lock st.1) = true <-> st.2 c = Held).
  { intros c. unfold held_by. rewrite andb_true_iff, bool_decide_eq_true, H3.
    split; [tauto|]. intros Hh. split; [|done].
    destruct (Z.eqb_spec (lk_locked (sm_lock st.1)) 0) as [E|]; [|done].
    destruct (proj1 H1 E c). rewrite Hh. right. by left. }
  split; [|split].
  - intros c c' E1 E2. apply H2; rewrite ?E1, ?E2; right; by left.
  - intros c E. destruct (Hcli c) as [K1 K2].
    assert (K3 : 0 < c_ncli (mycpu c st.1)) by (apply K2; by rewrite E).
    split; [by apply K1|]. rewrite run_release_enter by (done || apply Hlen; by rewrite E).
    rewrite (proj2 (Hheld c)) by done. eauto.
  - intros c E Hl. rewrite run_acquire_enter by (done || apply Hcli).
    destruct (held_by c (sm_lock st.1)) eqn:Eh; [|eauto].
    apply Hheld in Eh. by rewrite E in Eh.
Qed.
End Smp.

(** Two CPUs; the first takes the lock. *)
Lemma spin_mutex_witness : let cpus := [Cpu true 0 false; Cpu true 0 false] in
  exists st, rtc Smp.step (Smp.boot cpus) st /\ st.2 0%nat = Smp.Held /\
    forall c, st.2 c = Smp.Held -> c = 0%nat.
Proof.
  eexists. split; [|split].
  - eapply rtc_l; [eapply (Smp.step_enter 0); [reflexivity|apply (bool_decide_unpack _); vm_compute; exact I|reflexivity]|].
    eapply rtc_l; [eapply (Smp.step_win 0); reflexivity|].
    eapply rtc_l; [eapply (Smp.step_record 0 _ _ []); reflexivity|].
    apply rtc_refl.
  - reflexivity.
  - intros c Hc. eapply (Smp.spin_mutex [Cpu true 0 false; Cpu true 0 false]); [| |exact Hc|reflexivity].
    + repeat constructor; vm_compute; discriminate.
    + eapply rtc_l; [eapply (Smp.step_enter 0); [reflexivity|apply (bool_decide_unpack _); vm_compute; exact I|reflexivity]|].
      eapply rtc_l; [eapply (Smp.step_win 0); reflexivity|].
      eapply rtc_l; [eapply (Smp.step_record 0 _ _ []); reflexivity|].
      apply rtc_refl.
Defined.
