(* ===== verification/Kalloc.v ===== *)
(** * The physical page allocator: kalloc.c

    The free list is threaded through the free pages themselves: the first word of
    a free page is the address of the next one. *)
From S2P Require Import Prelude Iface CString.

Definition KERNBASE : Z := 2147483648.
Definition PHYSTOP : Z := 234881024.
Definition PGSIZE : Z := 4096.
(** mmu.h: [PGROUNDUP], [PGROUNDDOWN] on a [uint]. *)
Definition PGROUNDUP (sz : Z) : Z := Z.land (u32 (sz + PGSIZE - 1)) (u32 (Z.lnot (PGSIZE - 1))).
Definition PGROUNDDOWN (a : Z) : Z := Z.land a (u32 (Z.lnot (PGSIZE - 1))).
Definition V2P (a : Z) : Z := u32 (a - KERNBASE).
Definition P2V (a : Z) : Z := u32 (a + KERNBASE).

(** [kmem] with the memory it manages. *)
Record kmem := Kmem {
  km_mem : mem;
  km_lock : bool;
  km_use_lock : bool;
  km_freelist : Z
}.
Definition set_km_mem (v : mem) (s : kmem) : kmem :=
  Kmem v (km_lock s) (km_use_lock s) (km_freelist s).
Definition set_km_lock (v : bool) (s : kmem) : kmem :=
  Kmem (km_mem s) v (km_use_lock s) (km_freelist s).
Definition set_km_use_lock (v : bool) (s : kmem) : kmem :=
  Kmem (km_mem s) (km_lock s) v (km_freelist s).
Definition set_km_freelist (v : Z) (s : kmem) : kmem :=
  Kmem (km_mem s) (km_lock s) (km_use_lock s) v.

Section Kalloc.
(** [end]: the first address after the kernel, from the linker script. *)
Variable kend : Z.

Definition km_lock_lens : lens kmem bool := Lens km_lock set_km_lock.

Definition kfree (v : Z) : M kmem unit :=
  if negb (v mod PGSIZE =? 0) || (v <? kend) || (PHYSTOP <=? V2P v) then panic "kfree"
  else
(* fill with junk to catch dangling references *)
modify (fun s => set_km_mem (memset (km_mem s) v 1 PGSIZE) s) ;;;
let! s := get in
when (km_use_lock s) (zoom km_lock_lens spin_acquire) ;;;
modify (fun s => set_km_mem (st32 (km_mem s) v (km_freelist s)) s) ;;;
modify (set_km_freelist v) ;;;
when (km_use_lock s) (zoom km_lock_lens spin_release).

Definition kalloc : M kmem Z :=
  let! s := get in
  when (km_use_lock s) (zoom km_lock_lens spin_acquire) ;;;
  let! r := gets km_freelist in
  when (negb (r =? 0)) (modify (fun s => set_km_freelist (ld32 (km_mem s) r) s)) ;;;
  when (km_use_lock s) (zoom km_lock_lens spin_release) ;;;
  ret r.

(** [for (; p + PGSIZE <= vend; p += PGSIZE) kfree(p);] *)
Fixpoint freerange_loop (fuel : nat) (p vend : Z) : M kmem unit :=
  match fuel with
  | O => fun _ => NoFuel
  | S fuel' =>
    if p + PGSIZE <=? vend
    then kfree p ;;; freerange_loop fuel' (p + PGSIZE) vend
    else ret tt
  end.
Definition freerange (vstart vend : Z) : M kmem unit :=
  freerange_loop (S (Z.to_nat ((vend - PGROUNDUP vstart) / PGSIZE)))
    (PGROUNDUP vstart) vend.

Definition kinit1 (vstart vend : Z) : M kmem unit :=
  modify (set_km_lock false) ;;;
  modify (set_km_use_lock false) ;;;
  freerange vstart vend.

Definition kinit2 (vstart vend : Z) : M kmem unit :=
  freerange vstart vend ;;;
  modify (set_km_use_lock true).

(** ** The free list *)

(** A page the allocator manages. *)
Definition page_ok (v : Z) : Prop :=
  v mod PGSIZE = 0 /\ kend <= v < KERNBASE + PHYSTOP.

(** The list at [p] is exactly the pages [l]. *)
Fixpoint freelist_at (m : mem) (p : Z) (l : list Z) : Prop :=
  match l with
  | [] => p = 0
  | v :: l => p = v /\ page_ok v /\ freelist_at m (ld32 m v) l
  end.

Record kmem_inv (s : kmem) (l : list Z) : Prop := {
  ki_list : freelist_at (km_mem s) (km_freelist s) l;
  ki_nodup : NoDup l;
  ki_lock : km_lock s = false
}.

Hypothesis kend_ok : KERNBASE < kend.

Lemma page_range v : page_ok v -> KERNBASE < v < 2 ^ 32 /\ V2P v < PHYSTOP.
Proof.
  intros [Hm Hr]. unfold V2P, KERNBASE, PHYSTOP in *.
  rewrite u32_small by lia. lia.
Qed.

(** Distinct pages do not overlap. *)
Lemma pages_disjoint v w : page_ok v -> page_ok w -> v <> w ->
  v + PGSIZE <= w \/ w + PGSIZE <= v.
Proof. intros [Hv _] [Hw _] Hne. unfold PGSIZE in *. lia. Qed.

Lemma freelist_frame m m' p l : (forall v, v ∈ l -> ld32 m' v = ld32 m v) ->
  freelist_at m p l -> freelist_at m' p l.
Proof.
  revert p. induction l as [|v l IH]; intros p Hm; simpl; [done|].
  intros (-> & Hv & Hl). split; [done|]. split; [done|].
  rewrite Hm by (left; done). apply IH; [|done]. intros w Hw. apply Hm. by right.
Qed.

Lemma freelist_pages m p l v : freelist_at m p l -> v ∈ l -> page_ok v.
Proof.
  revert p. induction l as [|w l IH]; intros p; simpl; [by intros _ ?%elem_of_nil|].
  intros (_ & Hw & Hl) [->|Hv]%elem_of_cons; eauto.
Qed.

(** What [kfree v] does to memory: the link, then junk. *)
Definition freed (m : mem) (v next : Z) : mem := st32 (memset m v 1 PGSIZE) v next.

Lemma freed_other m v next a : a < v \/ v + PGSIZE <= a -> freed m v next a = m a.
Proof.
  intros Ha. unfold freed, PGSIZE in *. rewrite st32_other by lia.
  rewrite memset_spec by lia. unfold in_range. by replace (_ && _) with false by lia.
Qed.

Lemma run_kfree v s : km_lock s = false -> page_ok v ->
  kfree v s = Ret tt (Kmem (freed (km_mem s) v (km_freelist s)) false (km_use_lock s) v).
Proof.
  intros Hl Hv. destruct (page_range v Hv) as [Hr Hp]. destruct Hv as [Hm Hk].
  unfold kfree. replace (_ || _ || _) with false by lia. mrun.
  destruct s as [m lk ul fl]. simpl in *. subst lk. destruct ul; mrun.
  - erewrite (run_bind_zoom km_lock_lens) by done. mrun. done.
  - done.
Qed.

Lemma freed_head m v next l : freelist_at m next l -> (forall w, w ∈ l -> page_ok w) ->
  page_ok v -> v ∉ l -> next = u32 next -> freelist_at (freed m v next) v (v :: l).
Proof.
  intros Hl Hp Hv Hn Hu. simpl. split; [done|]. split; [done|].
  replace (ld32 (freed m v next) v) with next by (unfold freed; by rewrite ld32_st32_eq).
  eapply freelist_frame; [|done]. intros w Hw.
  destruct (pages_disjoint v w) as [Hd|Hd]; [done|by apply Hp|by intros ->| |];
    unfold ld32, PGSIZE in *; rewrite !freed_other by (unfold PGSIZE; lia); done.
Qed.

Lemma freelist_head_u32 m p l : freelist_at m p l -> p = u32 p.
Proof.
  destruct l as [|v l]; simpl; [by intros ->|]. intros (-> & Hv & _).
  apply page_range in Hv as [Hv _]. unfold KERNBASE in Hv. by rewrite u32_small by lia.
Qed.

(** Freeing an allocated page puts it at the head of the list, fills it with
    junk and touches no other page. *)
Lemma kfree_run s l v : kmem_inv s l -> page_ok v -> v ∉ l ->
  exists s', kfree v s = Ret tt s' /\ kmem_inv s' (v :: l) /\
    km_use_lock s' = km_use_lock s /\
    (forall a, a < v \/ v + PGSIZE <= a -> km_mem s' a = km_mem s a) /\
    (forall a, v + 4 <= a < v + PGSIZE -> km_mem s' a = 1).
Proof.
  intros [Hl Hn Hk] Hv Hnin. eexists. split; [by apply run_kfree|]. simpl.
  split; [split; simpl; [|by constructor|done]|split; [done|split]].
  - apply freed_head; try done; [|by eapply freelist_head_u32].
    intros w. by apply (freelist_pages _ _ _ _ Hl).
  - intros a Ha. by apply freed_other.
  - intros a Ha. unfold freed. rewrite st32_other by lia.
    rewrite memset_spec by (unfold PGSIZE; lia). unfold in_range.
    by replace (_ && _) with true by lia.
Qed.

(** Allocation takes the head of the list, and fails exactly when it is empty. *)
Lemma kalloc_run s l : kmem_inv s l ->
  exists s', kalloc s = Ret (match l with [] => 0 | v :: _ => v end) s' /\
    kmem_inv s' (tail l) /\ km_mem s' = km_mem s /\ km_use_lock s' = km_use_lock s.
Proof.
  intros [Hl Hn Hk]. destruct s as [m lk ul fl]. simpl in *. subst lk.
  unfold kalloc. destruct l as [|v l]; simpl in Hl.
  - subst fl. exists (Kmem m false ul 0).
    split; [destruct ul; mrun; [erewrite (run_bind_zoom km_lock_lens) by done; mrun|]; done|].
    by split.
  - destruct Hl as (-> & Hv & Hl). exists (Kmem m false ul (ld32 m v)).
    pose proof (page_range v Hv) as [Hr _].
    assert (Hz : (v =? 0) = false) by (unfold KERNBASE in *; lia).
    split.
    + destruct ul; mrun; [erewrite (run_bind_zoom km_lock_lens) by done; mrun|];
        cbn [km_freelist set_km_lock lset km_lock_lens]; rewrite Hz; simpl; mrun; done.
    + apply NoDup_cons in Hn as [_ Hn]. by split.
Qed.

(** The pages [freerange] frees, the last first. *)
Fixpoint pages_of (n : nat) (p : Z) (l : list Z) : list Z :=
  match n with
  | O => l
  | S n' => pages_of n' (p + PGSIZE) (p :: l)
  end.

Lemma freerange_loop_run fuel n p vend s l : kmem_inv s l -> p mod PGSIZE = 0 -> kend <= p ->
  vend <= KERNBASE + PHYSTOP -> n = Z.to_nat ((vend - p) / PGSIZE) -> (n < fuel)%nat ->
  (forall w, w ∈ l -> w < p) ->
  exists s', freerange_loop fuel p vend s = Ret tt s' /\ kmem_inv s' (pages_of n p l) /\
    km_use_lock s' = km_use_lock s.
Proof.
  revert n p s l. induction fuel as [|fuel IH]; intros n p s l Hi Hm Hk Hv Hn Hf Hl; [lia|].
  cbn [freerange_loop]. unfold PGSIZE in *.
  destruct (Z.leb_spec (p + 4096) vend) as [Hle|Hgt].
  - destruct n as [|n]; [exfalso; lia|].
    destruct (kfree_run s l p) as (s1 & E & Hi1 & Hu1 & _); [done| |intros Hp%Hl; lia|].
    { split; [done|]. unfold PGSIZE. lia. }
    destruct (IH n (p + 4096) s1 (p :: l)) as (s2 & E2 & Hi2 & Hu2); try done; try lia.
    { intros w [->|Hw]%elem_of_cons; [lia|]. apply Hl in Hw. lia. }
    exists s2. erewrite bind_eq by done. split; [done|]. split; [done|]. congruence.
  - replace n with O by lia. exists s. done.
Qed.

Lemma pages_of_length n p l : length (pages_of n p l) = (n + length l)%nat.
Proof. revert p l. induction n as [|n IH]; intros p l; simpl; [done|]. rewrite IH. simpl. lia. Qed.

(** After [kfree v] of a page in use, [kalloc] returns [v] again and the
    free list is as it was; [kalloc] never returns a page that is on the list
    afterwards, and returns 0 exactly when no page is free. *)
Theorem kfree_kalloc s l v : kmem_inv s l -> page_ok v -> v ∉ l ->
  exists s1 s2, kfree v s = Ret tt s1 /\ kmem_inv s1 (v :: l) /\
    kalloc s1 = Ret v s2 /\ kmem_inv s2 l /\
    (forall a, a < v \/ v + PGSIZE <= a -> km_mem s2 a = km_mem s a).
Proof.
  intros Hi Hv Hn. destruct (kfree_run s l v Hi Hv Hn) as (s1 & E1 & H1 & _ & Hm & _).
  destruct (kalloc_run s1 (v :: l) H1) as (s2 & E2 & H2 & Hm2 & _).
  exists s1, s2. rewrite Hm2. auto.
Qed.
End Kalloc.

(** One page freed and allocated again, with the kernel ending at 0x80100000. *)
Lemma kfree_kalloc_witness :
  exists s1 s2, kfree 2148532224 2148532224 (Kmem (fun _ => 0) false true 0) = Ret tt s1 /\
    kmem_inv 2148532224 s1 [2148532224] /\ kalloc s1 = Ret 2148532224 s2.
Proof.
  destruct (kfree_kalloc 2148532224 ltac:(unfold KERNBASE; lia)
    (Kmem (fun _ => 0) false true 0) [] 2148532224) as (s1 & s2 & E1 & H1 & E2 & _).
  - split; [done|constructor|done].
  - split; [done|]. unfold KERNBASE, PHYSTOP. lia.
  - apply not_elem_of_nil.
  - exists s1, s2. split; [exact E1|]. split; [exact H1|exact E2].
Defined.
