(* ===== verification/Vm.v ===== *)
(** * Virtual memory: vm.c

    Two-level x86 page tables in the kernel's memory, over the page allocator. An
    address is a kernel virtual address; the linker symbols [end] and [data] are
    parameters. *)
From S2P Require Import Prelude CString Iface Kalloc.

(** ** mmu.h, memlayout.h *)
Definition PDX (va : Z) : Z := Z.land (Z.shiftr va 22) 1023.
Definition PTX (va : Z) : Z := Z.land (Z.shiftr va 12) 1023.
Definition PGADDR (d t o : Z) : Z := u32 (Z.lor (Z.lor (Z.shiftl d 22) (Z.shiftl t 12)) o).
Definition NPDENTRIES : Z := 1024.
Definition PTE_P : Z := 1.
Definition PTE_W : Z := 2.
Definition PTE_U : Z := 4.
Definition PTE_ADDR (pte : Z) : Z := Z.land pte (u32 (Z.lnot 4095)).
Definition PTE_FLAGS (pte : Z) : Z := Z.land pte 4095.
Definition EXTMEM : Z := 1048576.
Definition DEVSPACE : Z := 4261412864.
Definition KERNLINK : Z := KERNBASE + EXTMEM.
Definition KSTACKSIZE : Z := 4096.

Record kmap_entry := Kmap { k_virt : Z; k_start : Z; k_end : Z; k_perm : Z }.

(** The words and bytes of kernel memory. *)
Definition rd (a : Z) : M kmem Z := gets (fun s => ld32 (km_mem s) a).
Definition wr (a v : Z) : M kmem unit := modify (fun s => set_km_mem (st32 (km_mem s) a v) s).
Definition mem_op (f : mem -> mem) : M kmem unit := modify (fun s => set_km_mem (f (km_mem s)) s).
Definition has (e flag : Z) : bool := negb (Z.land e flag =? 0).

Section Vm.
Variables (kend kdata : Z).

(** The address of the PTE of [va]; 0 if there is no page table. *)
Definition walkpgdir (pgdir va : Z) (alloc : bool) : M kmem Z :=
  let pde := pgdir + 4 * PDX va in
  let! e := rd pde in
  if has e PTE_P then ret (P2V (PTE_ADDR e) + 4 * PTX va)
  else if negb alloc then ret 0
  else
  let! pgtab := kalloc in
  if pgtab =? 0 then ret 0
  else
  (* make sure all those PTE_P bits are zero *)
  mem_op (fun m => memset m pgtab 0 PGSIZE) ;;;
  wr pde (Z.lor (Z.lor (Z.lor (V2P pgtab) PTE_P) PTE_W) PTE_U) ;;;
  ret (pgtab + 4 * PTX va).

Fixpoint mappages_loop (fuel : nat) (pgdir a last pa perm : Z) : M kmem Z :=
  match fuel with
  | O => fun _ => NoFuel
  | S fuel' =>
    let! pte := walkpgdir pgdir a true in
    if pte =? 0 then ret (-1)
    else
    let! e := rd pte in
    if has e PTE_P then panic "remap"
    else
    wr pte (Z.lor (Z.lor pa perm) PTE_P) ;;;
    if a =? last then ret 0
    else mappages_loop fuel' pgdir (u32 (a + PGSIZE)) last (u32 (pa + PGSIZE)) perm
  end.
(** Create PTEs for [va, va + size) that refer to the physical addresses from [pa] on. *)
Definition mappages (pgdir va size pa perm : Z) : M kmem Z :=
  let a := PGROUNDDOWN va in
  let last := PGROUNDDOWN (u32 (va + size - 1)) in
  mappages_loop (S (Z.to_nat (u32 (last - a) / PGSIZE))) pgdir a last pa perm.

Fixpoint deallocuvm_loop (fuel : nat) (pgdir a oldsz : Z) : M kmem unit :=
  if a <? oldsz then
    match fuel with
    | O => fun _ => NoFuel
    | S fuel' =>
      let! pte := walkpgdir pgdir a false in
      if pte =? 0 then
        deallocuvm_loop fuel' pgdir (u32 (u32 (PGADDR (PDX a + 1) 0 0 - PGSIZE) + PGSIZE)) oldsz
      else
        let! e := rd pte in
        when (has e PTE_P) (
          let pa := PTE_ADDR e in
          if pa =? 0 then panic "kfree"
          else kfree kend (P2V pa) ;;; wr pte 0) ;;;
        deallocuvm_loop fuel' pgdir (u32 (a + PGSIZE)) oldsz
    end
  else ret tt.
(** Deallocate user pages to bring the process size from [oldsz] to [newsz]. *)
Definition deallocuvm (pgdir oldsz newsz : Z) : M kmem Z :=
  if oldsz <=? newsz then ret oldsz
  else
  deallocuvm_loop (S (Z.to_nat (oldsz / PGSIZE))) pgdir (PGROUNDUP newsz) oldsz ;;;
  ret newsz.

Fixpoint freevm_loop (k : nat) (pgdir i : Z) : M kmem unit :=
  match k with
  | O => ret tt
  | S k' =>
    let! e := rd (pgdir + 4 * i) in
    when (has e PTE_P) (kfree kend (P2V (PTE_ADDR e))) ;;;
    freevm_loop k' pgdir (i + 1)
  end.
(** Free a page table and all the physical pages of the user part. *)
Definition freevm (pgdir : Z) : M kmem unit :=
  if pgdir =? 0 then panic "freevm: no pgdir"
  else
  let! _ := deallocuvm pgdir KERNBASE 0 in
  freevm_loop (Z.to_nat NPDENTRIES) pgdir 0 ;;;
  kfree kend pgdir.

(** The kernel's mappings, present in every page table. *)
Definition kmap : list kmap_entry := [
  Kmap KERNBASE 0 EXTMEM PTE_W;                       (* I/O space *)
  Kmap KERNLINK (V2P KERNLINK) (V2P kdata) 0;         (* kern text+rodata *)
  Kmap kdata (V2P kdata) PHYSTOP PTE_W;               (* kern data+memory *)
  Kmap DEVSPACE DEVSPACE 0 PTE_W ].                   (* more devices *)

Fixpoint setupkvm_loop (l : list kmap_entry) (pgdir : Z) : M kmem Z :=
  match l with
  | [] => ret pgdir
  | k :: l =>
    let! r := mappages pgdir (k_virt k) (u32 (k_end k - k_start k)) (k_start k) (k_perm k) in
    if r <? 0 then freevm pgdir ;;; ret 0 else setupkvm_loop l pgdir
  end.
Definition setupkvm : M kmem Z :=
  let! pgdir := kalloc in
  if pgdir =? 0 then ret 0
  else
  mem_op (fun m => memset m pgdir 0 PGSIZE) ;;;
  if DEVSPACE <? P2V PHYSTOP then panic "PHYSTOP too high"
  else setupkvm_loop kmap pgdir.

(** Load the initcode, stored at [init], into address 0 of [pgdir]. *)
Definition inituvm (pgdir init sz : Z) : M kmem unit :=
  if PGSIZE <=? sz then panic "inituvm: more than a page"
  else
  let! p := kalloc in
  mem_op (fun m => memset m p 0 PGSIZE) ;;;
  mappages pgdir 0 PGSIZE (V2P p) (Z.lor PTE_W PTE_U) ;;;
  mem_op (fun m => memmove m p init sz).

Fixpoint allocuvm_loop (fuel : nat) (pgdir a oldsz newsz : Z) : M kmem Z :=
  if a <? newsz then
    match fuel with
    | O => fun _ => NoFuel
    | S fuel' =>
      let! p := kalloc in
      if p =? 0 then
        (* allocuvm out of memory *)
        deallocuvm pgdir newsz oldsz ;;; ret 0
      else
      mem_op (fun m => memset m p 0 PGSIZE) ;;;
      let! r := mappages pgdir a PGSIZE (V2P p) (Z.lor PTE_W PTE_U) in
      if r <? 0 then
        (* allocuvm out of memory (2) *)
        deallocuvm pgdir newsz oldsz ;;; kfree kend p ;;; ret 0
      else allocuvm_loop fuel' pgdir (u32 (a + PGSIZE)) oldsz newsz
    end
  else ret newsz.
(** Grow a process from [oldsz] to [newsz]: the new size, or 0. *)
Definition allocuvm (pgdir oldsz newsz : Z) : M kmem Z :=
  if KERNBASE <=? newsz then ret 0
  else if newsz <? oldsz then ret oldsz
  else allocuvm_loop (S (Z.to_nat (newsz / PGSIZE))) pgdir (PGROUNDUP oldsz) oldsz newsz.

(** Clear [PTE_U] on a page. *)
Definition clearpteu (pgdir uva : Z) : M kmem unit :=
  let! pte := walkpgdir pgdir uva false in
  if pte =? 0 then panic "clearpteu"
  else
  let! e := rd pte in
  wr pte (Z.land e (u32 (Z.lnot PTE_U))).

(** [bad: freevm(d); return 0;] *)
Definition copyuvm_bad (d : Z) : M kmem Z := freevm d ;;; ret 0.
Fixpoint copyuvm_loop (fuel : nat) (pgdir d i sz : Z) : M kmem Z :=
  if i <? sz then
    match fuel with
    | O => fun _ => NoFuel
    | S fuel' =>
      let! pte := walkpgdir pgdir i false in
      if pte =? 0 then panic "copyuvm: pte should exist"
      else
      let! e := rd pte in
      if negb (has e PTE_P) then panic "copyuvm: page not present"
      else
      let pa := PTE_ADDR e in
      let flags := PTE_FLAGS e in
      let! p := kalloc in
      if p =? 0 then copyuvm_bad d
      else
      mem_op (fun m => memmove m p (P2V pa) PGSIZE) ;;;
      let! r := mappages d i PGSIZE (V2P p) flags in
      if r <? 0 then kfree kend p ;;; copyuvm_bad d
      else copyuvm_loop fuel' pgdir d (u32 (i + PGSIZE)) sz
    end
  else ret d.
(** A copy of a parent's page table for a child. *)
Definition copyuvm (pgdir sz : Z) : M kmem Z :=
  let! d := setupkvm in
  if d =? 0 then ret 0
  else copyuvm_loop (S (Z.to_nat (sz / PGSIZE))) pgdir d 0 sz.

(** Map a user virtual address to a kernel address. The PTE pointer is used without a
    test: without a page table the word at address 0 is read. *)
Definition uva2ka (pgdir uva : Z) : M kmem Z :=
  let! pte := walkpgdir pgdir uva false in
  let! e := rd pte in
  if negb (has e PTE_P) then ret 0
  else if negb (has e PTE_U) then ret 0
  else ret (P2V (PTE_ADDR e)).

Fixpoint copyout_loop (fuel : nat) (pgdir va buf len : Z) : M kmem Z :=
  if 0 <? len then
    match fuel with
    | O => fun _ => NoFuel
    | S fuel' =>
      let va0 := PGROUNDDOWN va in
      let! pa0 := uva2ka pgdir va0 in
      if pa0 =? 0 then ret (-1)
      else
      let n := Z.min (PGSIZE - (va - va0)) len in
      mem_op (fun m => memmove m (pa0 + (va - va0)) buf n) ;;;
      copyout_loop fuel' pgdir (u32 (va0 + PGSIZE)) (buf + n) (len - n)
    end
  else ret 0.
(** Copy [len] bytes from [p] to user address [va] in page table [pgdir]. *)
Definition copyout (pgdir va p len : Z) : M kmem Z :=
  copyout_loop (S (S (Z.to_nat (len / PGSIZE)))) pgdir va p len.
End Vm.

(** ** Loading a program segment, over the file system's [readi] *)
Section Loaduvm.
Context {S : Type} (km : lens S kmem) (readi : Z -> Z -> M S (Z * list Z)).

(** [readi(ip, dst, off, n)]: the bytes are stored at [dst]. *)
Fixpoint store_bytes (m : mem) (a : Z) (l : list Z) : mem :=
  match l with
  | [] => m
  | c :: l => store_bytes (upd m a c) (a + 1) l
  end.
Definition readi_to (dst off n : Z) : M S Z :=
  let! (r, l) := readi off n in
  zoom km (mem_op (fun m => store_bytes m dst l)) ;;;
  ret r.

Fixpoint loaduvm_loop (fuel : nat) (pgdir addr offset sz i : Z) : M S Z :=
  if i <? sz then
    match fuel with
    | O => fun _ => NoFuel
    | Datatypes.S fuel' =>
      let! pte := zoom km (walkpgdir pgdir (u32 (addr + i)) false) in
      if pte =? 0 then panic "loaduvm: address should exist"
      else
      let! e := zoom km (rd pte) in
      let pa := PTE_ADDR e in
      let n := if sz - i <? PGSIZE then sz - i else PGSIZE in
      let! r := readi_to (P2V pa) (u32 (offset + i)) n in
      if negb (r =? n) then ret (-1)
      else loaduvm_loop fuel' pgdir addr offset sz (u32 (i + PGSIZE))
    end
  else ret 0.
Definition loaduvm (pgdir addr offset sz : Z) : M S Z :=
  if negb (addr mod PGSIZE =? 0) then panic "loaduvm: addr must be page aligned"
  else loaduvm_loop (Datatypes.S (Z.to_nat (sz / PGSIZE))) pgdir addr offset sz 0.
End Loaduvm.

(** ** The page table in use *)

(** [kpgdir], and the registers [switchkvm] and [switchuvm] load: cr3 and the stack
    that the task state names. *)
Record mmu := Mmu {
  mm_km : kmem;
  mm_kpgdir : Z;
  mm_cr3 : Z;
  mm_esp0 : Z;
  mm_iomb : Z
}.
Definition set_mm_km (v : kmem) (s : mmu) : mmu :=
  Mmu v (mm_kpgdir s) (mm_cr3 s) (mm_esp0 s) (mm_iomb s).
Definition set_mm_kpgdir (v : Z) (s : mmu) : mmu :=
  Mmu (mm_km s) v (mm_cr3 s) (mm_esp0 s) (mm_iomb s).
Definition set_mm_cr3 (v : Z) (s : mmu) : mmu :=
  Mmu (mm_km s) (mm_kpgdir s) v (mm_esp0 s) (mm_iomb s).
Definition set_mm_esp0 (v : Z) (s : mmu) : mmu :=
  Mmu (mm_km s) (mm_kpgdir s) (mm_cr3 s) v (mm_iomb s).
Definition set_mm_iomb (v : Z) (s : mmu) : mmu :=
  Mmu (mm_km s) (mm_kpgdir s) (mm_cr3 s) (mm_esp0 s) v.
Definition mm_km_lens : lens mmu kmem := Lens mm_km set_mm_km.

Definition switchkvm : M mmu unit :=
  modify (fun s => set_mm_cr3 (V2P (mm_kpgdir s)) s).
Definition kvmalloc (kend kdata : Z) : M mmu unit :=
  let! p := zoom mm_km_lens (setupkvm kend kdata) in
  modify (set_mm_kpgdir p) ;;;
  switchkvm.
(** [p] as its [kstack] and [pgdir]; [None] is a null pointer. *)
Definition switchuvm (p : option (Z * Z)) : M mmu unit :=
  match p with
  | None => panic "switchuvm: no process"
  | Some (kstack, pgdir) =>
    if kstack =? 0 then panic "switchuvm: no kstack"
    else if pgdir =? 0 then panic "switchuvm: no pgdir"
    else
    modify (set_mm_esp0 (u32 (kstack + KSTACKSIZE))) ;;;
    modify (set_mm_iomb 65535) ;;;
    modify (set_mm_cr3 (V2P pgdir))
  end.
