(* ===== verification/VmSpec.v ===== *)
(** * Page tables as maps

    A page directory denotes a map from virtual pages to page table entries.
    [walkpgdir] and [mappages] against that map, and [copyout] against the user's view
    of memory. *)
From S2P Require Import Prelude CString Iface Kalloc Vm.

(** ** Bit fields of addresses and entries *)

Lemma land_high p : 0 <= p < 2 ^ 32 -> Z.land p (u32 (Z.lnot 4095)) = p / 4096 * 4096.
Proof.
  intros Hp. change (u32 (Z.lnot 4095)) with (Z.ldiff (Z.ones 32) (Z.ones 12)).
  assert (E : Z.land p (Z.ldiff (Z.ones 32) (Z.ones 12)) = Z.ldiff p (Z.ones 12)).
  { apply Z.bits_inj'. intros n Hn. rewrite Z.land_spec, !Z.ldiff_spec.
    destruct (decide (n < 32)) as [Hlt|Hge].
    - rewrite (Z.ones_spec_low 32 n) by lia. by destruct (Z.testbit p n).
    - rewrite <-(Z.mod_small p (2 ^ 32)), Z.mod_pow2_bits_high by lia. done. }
  rewrite E, Z.ldiff_ones_r, Z.shiftl_mul_pow2, Z.shiftr_div_pow2 by lia. done.
Qed.

Lemma PTE_ADDR_eq p : 0 <= p < 2 ^ 32 -> PTE_ADDR p = p / 4096 * 4096.
Proof. apply land_high. Qed.
Lemma PGROUNDDOWN_eq a : 0 <= a < 2 ^ 32 -> PGROUNDDOWN a = a / 4096 * 4096.
Proof. apply land_high. Qed.
Lemma PDX_eq va : 0 <= va < 2 ^ 32 -> PDX va = va / 2 ^ 22.
Proof.
  intros Hv. unfold PDX. change 1023 with (Z.ones 10).
  rewrite Z.land_ones, Z.shiftr_div_pow2 by lia. lia.
Qed.
Lemma PTX_eq va : 0 <= va -> PTX va = va / 4096 mod 1024.
Proof.
  intros Hv. unfold PTX. change 1023 with (Z.ones 10).
  rewrite Z.land_ones, Z.shiftr_div_pow2 by lia. done.
Qed.

(** Flags beside the address of a page. *)
Lemma lor_low x f : x mod 4096 = 0 -> 0 <= f < 4096 -> Z.lor x f = x + f.
Proof.
  intros Hx Hf. symmetry. apply Z.add_nocarry_lor. apply Z.bits_inj'. intros n Hn.
  rewrite Z.land_spec, Z.bits_0. destruct (decide (n < 12)) as [Hlt|Hge].
  - replace x with (x / 4096 * 2 ^ 12) by lia. by rewrite Z.mul_pow2_bits_low.
  - rewrite <-(Z.mod_small f (2 ^ 12)), Z.mod_pow2_bits_high by lia. by rewrite andb_false_r.
Qed.

Lemma has_P e : has e PTE_P = Z.odd e.
Proof.
  unfold has, PTE_P. change 1 with (Z.ones 1). rewrite Z.land_ones by lia.
  change (2 ^ 1) with 2. rewrite Zmod_odd. by destruct (Z.odd e).
Qed.

(** ** The map a page directory denotes *)

Section VmSpec.
Variable kend : Z.
Hypothesis kend_ok : KERNBASE < kend.

Definition pde (m : mem) (pgdir i : Z) : Z := ld32 m (pgdir + 4 * i).
(** The page table of the [i]th directory entry. *)
Definition tab (m : mem) (pgdir i : Z) : Z := P2V (PTE_ADDR (pde m pgdir i)).
(** The entry of a virtual address; 0 without a page table. *)
Definition pte_of (m : mem) (pgdir va : Z) : Z :=
  if Z.odd (pde m pgdir (PDX va)) then ld32 m (tab m pgdir (PDX va) + 4 * PTX va) else 0.
(** [a] is not in page [v]. *)
Definition off_page (v a : Z) : Prop := a < v \/ v + PGSIZE <= a.

(** The directory and its tables are distinct pages, none of them free. *)
Record pd_ok (m : mem) (pgdir : Z) (fl : list Z) : Prop := {
  po_bytes : bytes_ok m;
  po_dir : page_ok kend pgdir /\ pgdir ∉ fl;
  po_tab i : 0 <= i < 1024 -> Z.odd (pde m pgdir i) = true ->
    page_ok kend (tab m pgdir i) /\ tab m pgdir i <> pgdir /\ tab m pgdir i ∉ fl;
  po_inj i j : 0 <= i < 1024 -> 0 <= j < 1024 -> Z.odd (pde m pgdir i) = true ->
    Z.odd (pde m pgdir j) = true -> tab m pgdir i = tab m pgdir j -> i = j
}.

(** Addresses outside the page tables and the free pages. *)
Definition off_tables (m : mem) (pgdir : Z) (fl : list Z) (a : Z) : Prop :=
  off_page pgdir a /\ (forall v, v ∈ fl -> off_page v a) /\
  forall i, 0 <= i < 1024 -> Z.odd (pde m pgdir i) = true -> off_page (tab m pgdir i) a.

(** What building page tables may do: take free pages, each for a new table, and write
    only to tables. *)
Record vm_step (pgdir : Z) (s : kmem) (fl : list Z) (s' : kmem) (fl' : list Z) : Prop := {
  vs_inv : kmem_inv kend s' fl';
  vs_pd : pd_ok (km_mem s') pgdir fl';
  vs_free : exists used, fl = used ++ fl' /\
    forall v, v ∈ used -> exists i, 0 <= i < 1024 /\ Z.odd (pde (km_mem s') pgdir i) = true /\ tab (km_mem s') pgdir i = v;
  vs_tab i : 0 <= i < 1024 -> Z.odd (pde (km_mem s) pgdir i) = true ->
    Z.odd (pde (km_mem s') pgdir i) = true /\ tab (km_mem s') pgdir i = tab (km_mem s) pgdir i;
  vs_off a : off_tables (km_mem s) pgdir fl a ->
    km_mem s' a = km_mem s a /\ off_tables (km_mem s') pgdir fl' a
}.

Lemma vm_step_refl pgdir s fl : kmem_inv kend s fl -> pd_ok (km_mem s) pgdir fl ->
  vm_step pgdir s fl s fl.
Proof. intros. split; [done|done|exists []; split; [done|by intros v ?%elem_of_nil]|done|done]. Qed.
Lemma vm_step_trans pgdir s1 l1 s2 l2 s3 l3 : vm_step pgdir s1 l1 s2 l2 ->
  vm_step pgdir s2 l2 s3 l3 -> vm_step pgdir s1 l1 s3 l3.
Proof.
  intros [_ _ (u1 & -> & U1) T1 O1] [I P (u2 & -> & U2) T2 O2]. split; [done|done| | |].
  - exists (u1 ++ u2). split; [by rewrite app_assoc|]. intros v [Hv|Hv]%elem_of_app; [|by apply U2].
    destruct (U1 v Hv) as (i & Hi & Ho & <-). destruct (T2 i Hi Ho) as [Ho' Ht]. by exists i.
  - intros i Hi Ho. destruct (T1 i Hi Ho) as [Ho1 <-]. by apply T2.
  - intros a Ha. destruct (O1 a Ha) as [<- Hb]. by apply O2.
Qed.

Lemma PDX_range va : 0 <= va < 2 ^ 32 -> 0 <= PDX va < 1024.
Proof. intros. rewrite PDX_eq by done. lia. Qed.
Lemma PTX_range va : 0 <= va -> 0 <= PTX va < 1024.
Proof. intros. rewrite PTX_eq by done. lia. Qed.

(** A word of one page does not see writes to another. *)
Lemma ld32_page m m' p q o : page_ok kend p -> page_ok kend q -> p <> q ->
  (forall a, off_page q a -> m' a = m a) -> 0 <= o <= 4092 -> ld32 m' (p + o) = ld32 m (p + o).
Proof.
  intros Hp Hq Hne Hm Ho. destruct (pages_disjoint kend p q Hp Hq Hne) as [H|H]; unfold PGSIZE, off_page in *;
    unfold ld32; rewrite !Hm by (unfold PGSIZE; lia); done.
Qed.

Lemma kmem_inv_mem s m' fl q : kmem_inv kend s fl -> page_ok kend q -> q ∉ fl ->
  (forall a, off_page q a -> m' a = km_mem s a) -> kmem_inv kend (set_km_mem m' s) fl.
Proof.
  intros [Hl Hn Hk] Hq Hqn Hm. split; [|done|done]. cbn [km_mem set_km_mem km_freelist].
  eapply freelist_frame; [|done]. intros v Hv.
  pose proof (freelist_pages _ _ _ _ _ Hl Hv) as Hvp.
  rewrite <-(Z.add_0_r v). apply ld32_page with q; try done. congruence.
Qed.

(** Two addresses with the same indices are in the same page. *)
Lemma same_index va va' : 0 <= va < 2 ^ 32 -> 0 <= va' < 2 ^ 32 ->
  PDX va = PDX va' -> PTX va = PTX va' -> va / 4096 = va' / 4096.
Proof. intros H H'. rewrite !PDX_eq, !PTX_eq by lia. lia. Qed.
Lemma index_same va va' : 0 <= va < 2 ^ 32 -> 0 <= va' < 2 ^ 32 ->
  va / 4096 = va' / 4096 -> PDX va = PDX va' /\ PTX va = PTX va'.
Proof. intros H H'. rewrite !PDX_eq, !PTX_eq by lia. lia. Qed.

(** The directory entry that points to page [v]. *)
Lemma new_pde v : page_ok kend v ->
  let e := Z.lor (Z.lor (Z.lor (V2P v) PTE_P) PTE_W) PTE_U in
  Z.odd (u32 e) = true /\ P2V (PTE_ADDR (u32 e)) = v.
Proof.
  intros Hv. pose proof (page_range kend kend_ok v Hv) as [Hr Hp]. destruct Hv as [Hm _].
  assert (Hp0 : 0 <= V2P v /\ V2P v mod 4096 = 0 /\ v = V2P v + KERNBASE).
  { unfold V2P in *. rewrite u32_small by (unfold KERNBASE in *; lia). unfold PGSIZE, KERNBASE in *. lia. }
  rewrite <-!Z.lor_assoc. change (Z.lor PTE_P (Z.lor PTE_W PTE_U)) with 7. cbv zeta.
  rewrite lor_low by lia. unfold PHYSTOP in Hp. rewrite u32_small by lia. split.
  - rewrite Z.odd_add. change (Z.odd 7) with true. replace (Z.odd (V2P v)) with false; [done|].
    symmetry. rewrite <-Z.negb_even, negb_false_iff. apply Z.even_spec. exists (V2P v / 2). lia.
  - rewrite PTE_ADDR_eq by lia. unfold P2V. rewrite u32_small by (unfold KERNBASE in *; lia). lia.
Qed.

(** Storing an entry in an existing page table. *)
Lemma pte_write s pgdir fl va e : kmem_inv kend s fl -> pd_ok (km_mem s) pgdir fl ->
  0 <= va < 2 ^ 32 -> Z.odd (pde (km_mem s) pgdir (PDX va)) = true ->
  let s' := set_km_mem (st32 (km_mem s) (tab (km_mem s) pgdir (PDX va) + 4 * PTX va) e) s in
  vm_step pgdir s fl s' fl /\
  forall va', 0 <= va' < 2 ^ 32 -> pte_of (km_mem s') pgdir va' =
    if va' / 4096 =? va / 4096 then u32 e else pte_of (km_mem s) pgdir va'.
Proof.
  intros Hi Hp Hva Hodd s'. pose proof (PDX_range va Hva) as Hx. pose proof (PTX_range va ltac:(lia)) as Ht.
  pose proof Hp as [Hb [Hd Hdn] Htab Hinj]. destruct (Htab _ Hx Hodd) as (Ht1 & Ht2 & Ht3).
  set (q := tab (km_mem s) pgdir (PDX va)) in *.
  assert (Hm : forall a, off_page q a -> km_mem s' a = km_mem s a).
  { intros a Ha. cbn [s' km_mem set_km_mem]. apply st32_other. unfold off_page, PGSIZE in Ha. lia. }
  assert (Hpde : forall i, 0 <= i < 1024 -> pde (km_mem s') pgdir i = pde (km_mem s) pgdir i).
  { intros i Hi'. apply ld32_page with q; try done; lia. }
  assert (Htb : forall i, 0 <= i < 1024 -> tab (km_mem s') pgdir i = tab (km_mem s) pgdir i).
  { intros i Hi'. unfold tab. by rewrite Hpde. }
  split; [split|].
  - by apply kmem_inv_mem with q.
  - split; [by apply st32_bytes_ok|done| |].
    + intros i Hi'. rewrite Htb, Hpde by done. by apply Htab.
    + intros i j Hi' Hj'. rewrite !Htb, !Hpde by done. by apply Hinj.
  - exists []. split; [done|by intros v ?%elem_of_nil].
  - intros i Hi' Ho. by rewrite Htb, Hpde.
  - intros a (O1 & O2 & O3). split; [apply Hm; by apply O3|]. split; [done|]. split; [done|].
    intros i Hi'. rewrite Htb, Hpde by done. by apply O3.
  - intros va' Hva'. pose proof (PDX_range va' Hva') as Hx'. pose proof (PTX_range va' ltac:(lia)) as Ht'.
    unfold pte_of. rewrite Hpde, Htb by done.
    destruct (Z.eqb_spec (va' / 4096) (va / 4096)) as [E|Hne].
    + destruct (index_same va va') as [<- <-]; [done|done|done|]. rewrite Hodd. by apply ld32_st32_eq.
    + destruct (Z.odd (pde _ _ (PDX va'))) eqn:Ho; [|done].
      destruct (decide (PDX va' = PDX va)) as [Ed|Hnd].
      * rewrite Ed. apply ld32_st32_ne. fold q.
        assert (PTX va <> PTX va') by (intros Et; apply Hne; by apply same_index). lia.
      * apply ld32_page with q; try done; [by apply Htab| |lia].
        intros E. apply Hnd. by apply Hinj.
Qed.

(** A page cleared and installed as the table of an empty directory entry. *)
Lemma pde_write s pgdir v fl va : kmem_inv kend s fl -> pd_ok (km_mem s) pgdir (v :: fl) ->
  page_ok kend v -> v ∉ fl -> 0 <= va < 2 ^ 32 -> Z.odd (pde (km_mem s) pgdir (PDX va)) = false ->
  let e := Z.lor (Z.lor (Z.lor (V2P v) PTE_P) PTE_W) PTE_U in
  let s' := set_km_mem (st32 (memset (km_mem s) v 0 PGSIZE) (pgdir + 4 * PDX va) e) s in
  vm_step pgdir s (v :: fl) s' fl /\ Z.odd (pde (km_mem s') pgdir (PDX va)) = true /\
  tab (km_mem s') pgdir (PDX va) = v /\
  forall va', 0 <= va' < 2 ^ 32 -> pte_of (km_mem s') pgdir va' = pte_of (km_mem s) pgdir va'.
Proof.
  intros Hi [Hb [Hd Hdn] Htab Hinj] Hv Hvn Hva Hev e s'. apply not_elem_of_cons in Hdn as [Hdv Hdn].
  pose proof (PDX_range va Hva) as Hx. set (x := PDX va) in *.
  assert (Hz : forall a, memset (km_mem s) v 0 PGSIZE a = if in_range a v PGSIZE then 0 else km_mem s a)
    by (intros; by apply memset_spec).
  assert (Hm1 : forall a, off_page v a -> memset (km_mem s) v 0 PGSIZE a = km_mem s a).
  { intros a Ha. rewrite Hz. unfold off_page, in_range in *. by replace (_ && _) with false by lia. }
  assert (Hm2 : forall a, off_page pgdir a -> km_mem s' a = memset (km_mem s) v 0 PGSIZE a).
  { intros a Ha. cbn [s' km_mem set_km_mem]. apply st32_other. unfold off_page, PGSIZE in Ha. lia. }
  destruct (new_pde v Hv) as [He1 He2]. fold e in He1, He2.
  assert (Hpde : forall i, 0 <= i < 1024 -> pde (km_mem s') pgdir i = if i =? x then u32 e else pde (km_mem s) pgdir i).
  { intros i Hi'. unfold pde. cbn [s' km_mem set_km_mem]. destruct (Z.eqb_spec i x) as [->|Hne].
    - by apply ld32_st32_eq.
    - rewrite ld32_st32_ne by lia. apply (ld32_page _ _ _ v); try done. lia. }
  assert (Htb : forall i, 0 <= i < 1024 -> tab (km_mem s') pgdir i = if i =? x then v else tab (km_mem s) pgdir i).
  { intros i Hi'. unfold tab. rewrite Hpde by done. by destruct (i =? x). }
  split; [split|split; [by rewrite Hpde, Z.eqb_refl|split; [by rewrite Htb, Z.eqb_refl|]]].
  - assert (Hi1 : kmem_inv kend (set_km_mem (memset (km_mem s) v 0 PGSIZE) s) fl).
    { by apply kmem_inv_mem with v. }
    change s' with (set_km_mem (km_mem s') (set_km_mem (memset (km_mem s) v 0 PGSIZE) s)).
    by apply kmem_inv_mem with pgdir.
  - split; [|done| |].
    + apply st32_bytes_ok. intros a. rewrite Hz. case_match; [lia|apply Hb].
    + intros i Hi'. rewrite Htb, Hpde by done. destruct (i =? x); [done|]. intros Ho.
      destruct (Htab i Hi' Ho) as (? & ? & Hn). by apply not_elem_of_cons in Hn as [_ Hn].
    + intros i j Hi' Hj'. rewrite !Htb, !Hpde by done.
      destruct (Z.eqb_spec i x) as [->|], (Z.eqb_spec j x) as [->|]; [done| | |by apply Hinj].
      * intros _ Ho E. destruct (Htab j Hj' Ho) as (_ & _ & Hn). apply not_elem_of_cons in Hn as [Hn _]. done.
      * intros Ho _ E. destruct (Htab i Hi' Ho) as (_ & _ & Hn). apply not_elem_of_cons in Hn as [Hn _]. done.
  - exists [v]. split; [done|]. intros w ->%list_elem_of_singleton. exists x. by rewrite Hpde, Htb, Z.eqb_refl.
  - intros i Hi' Ho. rewrite Hpde, Htb by done. destruct (Z.eqb_spec i x) as [->|]; [congruence|done].
  - intros a (O1 & O2 & O3). assert (Ov : off_page v a) by (apply O2; left). split; [by rewrite Hm2, Hm1|].
    split; [done|]. split; [intros w Hw; apply O2; by right|].
    intros i Hi'. rewrite Htb, Hpde by done. destruct (i =? x); [done|by apply O3].
  - intros va' Hva'. pose proof (PDX_range va' Hva') as Hx'. pose proof (PTX_range va' ltac:(lia)) as Ht'.
    unfold pte_of. rewrite Hpde, Htb by done. destruct (Z.eqb_spec (PDX va') x) as [E|Hne].
    + rewrite He1, E, Hev. rewrite (ld32_page (memset (km_mem s) v 0 PGSIZE) (km_mem s') v pgdir (4 * PTX va') Hv Hd (not_eq_sym Hdv) Hm2) by lia.
      unfold ld32. rewrite !Hz. unfold in_range, PGSIZE.
      repeat (replace (_ && _) with true by lia). done.
    + destruct (Z.odd (pde (km_mem s) pgdir (PDX va'))) eqn:Ho; [|done]. destruct (Htab _ Hx' Ho) as (Hp1 & Hp2 & Hp3).
      apply not_elem_of_cons in Hp3 as [Hp3 _].
      transitivity (ld32 (memset (km_mem s) v 0 PGSIZE) (tab (km_mem s) pgdir (PDX va') + 4 * PTX va')).
      * apply (ld32_page _ _ _ pgdir); try done. lia.
      * apply (ld32_page _ _ _ v); try done. lia.
Qed.

Lemma run_rd {B} a (k : Z -> M kmem B) s : bind (rd a) k s = k (ld32 (km_mem s) a) s.
Proof. done. Qed.
Lemma run_wr {B} a v (k : unit -> M kmem B) s :
  bind (wr a v) k s = k tt (set_km_mem (st32 (km_mem s) a v) s).
Proof. done. Qed.
Lemma run_mem_op {B} f (k : unit -> M kmem B) s :
  bind (mem_op f) k s = k tt (set_km_mem (f (km_mem s)) s).
Proof. done. Qed.

(** The pointer to the entry of [va]. *)
Definition slot (m : mem) (pgdir va : Z) : Z := tab m pgdir (PDX va) + 4 * PTX va.

Lemma slot_nonzero m pgdir fl va : pd_ok m pgdir fl -> 0 <= va < 2 ^ 32 ->
  Z.odd (pde m pgdir (PDX va)) = true -> (slot m pgdir va =? 0) = false.
Proof.
  intros Hp Hva Ho. destruct (po_tab _ _ _ Hp _ (PDX_range va Hva) Ho) as ([_ Hr] & _).
  pose proof (PTX_range va ltac:(lia)). unfold slot, KERNBASE in *. lia.
Qed.

(** [walkpgdir] without allocation only looks. *)
Lemma walk_look s pgdir va : walkpgdir pgdir va false s =
  Ret (if Z.odd (pde (km_mem s) pgdir (PDX va)) then slot (km_mem s) pgdir va else 0) s.
Proof.
  unfold walkpgdir. rewrite run_rd, has_P. unfold slot, tab, pde. by destruct (Z.odd _).
Qed.

(** With allocation it finds a slot without changing the map, or no page is free. *)
Lemma walk_alloc s pgdir fl va : kmem_inv kend s fl -> pd_ok (km_mem s) pgdir fl -> 0 <= va < 2 ^ 32 ->
  exists s' fl', vm_step pgdir s fl s' fl' /\
    (forall va', 0 <= va' < 2 ^ 32 -> pte_of (km_mem s') pgdir va' = pte_of (km_mem s) pgdir va') /\
    (walkpgdir pgdir va true s = Ret (slot (km_mem s') pgdir va) s' /\
       Z.odd (pde (km_mem s') pgdir (PDX va)) = true \/
     walkpgdir pgdir va true s = Ret 0 s' /\ fl = [] /\ Z.odd (pde (km_mem s') pgdir (PDX va)) = false).
Proof.
  intros Hi Hp Hva. unfold walkpgdir. rewrite run_rd, has_P. change (ld32 (km_mem s) (pgdir + 4 * PDX va)) with
    (pde (km_mem s) pgdir (PDX va)).
  destruct (Z.odd (pde (km_mem s) pgdir (PDX va))) eqn:Ho.
  { exists s, fl. split; [by apply vm_step_refl|]. split; [done|]. by left. }
  cbn [negb]. destruct (kalloc_run kend kend_ok s fl Hi) as (s1 & E & Hi1 & Hm1 & _).
  erewrite bind_eq by exact E. destruct fl as [|v fl].
  - exists s1, []. rewrite Hm1. split; [|split; [done|by right]].
    split; rewrite ?Hm1; try done. exists []. split; [done|by intros v ?%elem_of_nil].
  - assert (Hv : page_ok kend v) by (eapply freelist_pages; [apply Hi|left]).
    destruct (page_range kend kend_ok v Hv) as [Hr _].
    destruct (Z.eqb_spec v 0); [unfold KERNBASE in Hr; lia|]. rewrite run_mem_op, run_wr.
    destruct Hi as [_ Hn _]. apply NoDup_cons in Hn as [Hvn _]. cbn [tail] in Hi1.
    destruct (pde_write s1 pgdir v fl va) as (Hs & Ho' & Ht & Hpte); rewrite ?Hm1; try done.
    eexists _, fl. split; [|split; [|left; split; [|exact Ho']]].
    + destruct Hs as [I P F Tb O]. split; [exact I|exact P|exact F| |]; [intros i|intros a]; rewrite <-Hm1; [apply Tb|apply O].
    + intros va' Hva'. rewrite <-Hm1. by apply Hpte.
    + unfold slot. rewrite Ht, <-Hm1. cbn [km_mem set_km_mem]. reflexivity.
Qed.

(** ** [mappages] *)

(** The entry [mappages] stores for the page of [va], [n] pages being mapped from [a] on. *)
Definition mapped_pte (a pa perm va : Z) : Z :=
  u32 (Z.lor (Z.lor (pa + (va / 4096 - a / 4096) * 4096) perm) PTE_P).
Definition in_pages (a n va : Z) : bool := (a / 4096 <=? va / 4096) && (va / 4096 <? a / 4096 + n).

(** The map after [k] pages. *)
Definition map_upto (m m' : mem) (pgdir a pa perm k : Z) : Prop :=
  forall va, 0 <= va < 2 ^ 32 -> pte_of m' pgdir va =
    if in_pages a k va then mapped_pte a pa perm va else pte_of m pgdir va.

Definition mappages_result (s : kmem) (fl : list Z) (pgdir a pa perm n : Z) (r : res kmem Z) : Prop :=
  match r with
  | Ret z s' => exists fl' k, vm_step pgdir s fl s' fl' /\ map_upto (km_mem s) (km_mem s') pgdir a pa perm k /\
      (z = 0 /\ k = n \/ z = -1 /\ 0 <= k < n /\ fl' = [])
  | Panic _ => exists va, 0 <= va < 2 ^ 32 /\ in_pages a n va = true /\ Z.odd (pte_of (km_mem s) pgdir va) = true
  | _ => False
  end.

Lemma mapped_pte_odd a pa perm va : Z.odd (mapped_pte a pa perm va) = true.
Proof.
  unfold mapped_pte. rewrite <-Z.bit0_odd. unfold u32. rewrite Z.mod_pow2_bits_low by lia.
  rewrite Z.lor_spec. change (Z.testbit PTE_P 0) with true. apply orb_true_r.
Qed.

Lemma mappages_loop_spec fuel : forall s fl pgdir a pa perm n, kmem_inv kend s fl ->
  pd_ok (km_mem s) pgdir fl -> 0 <= a -> a mod 4096 = 0 -> 0 < n -> a + n * 4096 <= 2 ^ 32 ->
  0 <= pa -> pa + n * 4096 <= 2 ^ 32 -> (Z.to_nat n <= fuel)%nat ->
  mappages_result s fl pgdir a pa perm n (mappages_loop fuel pgdir a (a + (n - 1) * 4096) pa perm s).
Proof.
  induction fuel as [|fuel IH]; intros s fl pgdir a pa perm n Hi Hp Ha Hal Hn Hlim Hpa Hplim Hf; [lia|].
  cbn [mappages_loop]. assert (Hva : 0 <= a < 2 ^ 32) by lia.
  destruct (walk_alloc s pgdir fl a Hi Hp Hva) as (s1 & fl1 & Hst & Hpte & [[E Ho]|(E & Hfl & Ho)]);
    erewrite bind_eq by exact E.
  2: { rewrite Z.eqb_refl. exists fl1, 0. split; [done|]. split; [|right].
       - intros va Hv. rewrite Hpte by done. unfold in_pages. by replace (_ && _) with false by lia.
       - split; [done|]. split; [lia|]. destruct (vs_free _ _ _ _ _ Hst) as (u & Hu & _). rewrite Hfl in Hu.
         by destruct u, fl1. }
  pose proof Hst as [Hi1 Hp1 (used & -> & _) _ _]. rewrite (slot_nonzero _ _ fl1) by done. rewrite run_rd, has_P.
  assert (Es : ld32 (km_mem s1) (slot (km_mem s1) pgdir a) = pte_of (km_mem s) pgdir a).
  { rewrite <-Hpte by done. unfold pte_of. by rewrite Ho. }
  rewrite Es. destruct (Z.odd (pte_of (km_mem s) pgdir a)) eqn:Hmp.
  { exists a. split; [done|]. split; [unfold in_pages; lia|done]. }
  rewrite run_wr. destruct (pte_write s1 pgdir fl1 a (Z.lor (Z.lor pa perm) PTE_P) Hi1 Hp1 Hva Ho) as [Hst2 Hpte2].
  fold (slot (km_mem s1) pgdir a) in Hst2, Hpte2.
  set (s2 := set_km_mem _ s1) in *. pose proof (vm_step_trans _ _ _ _ _ _ _ Hst Hst2) as H12.
  assert (Hone : map_upto (km_mem s) (km_mem s2) pgdir a pa perm 1).
  { intros va Hv. rewrite Hpte2, Hpte by done. unfold in_pages, mapped_pte.
    destruct (Z.eqb_spec (va / 4096) (a / 4096)) as [Eq|Hne].
    - replace (_ && _) with true by lia. by rewrite Eq, Z.sub_diag, Z.mul_0_l, Z.add_0_r.
    - by replace (_ && _) with false by lia. }
  destruct (Z.eqb_spec a (a + (n - 1) * 4096)) as [El|Hne].
  { exists fl1, 1. split; [done|]. split; [done|left]. split; [done|lia]. }
  pose proof Hst2 as [Hi2 Hp2 _ _ _].
  specialize (IH s2 fl1 pgdir (a + 4096) (pa + 4096) perm (n - 1) Hi2 Hp2).
  unfold PGSIZE. rewrite !u32_small by lia. replace (a + 4096 + (n - 1 - 1) * 4096) with (a + (n - 1) * 4096) in IH by lia.
  destruct (mappages_loop fuel _ _ _ _ _ s2) as [z s'|msg|c s'|]; cbn [mappages_result] in *.
  - destruct IH as (fl' & k & Hst3 & Hmap & Hres); try lia. exists fl', (k + 1).
    split; [by eapply vm_step_trans|]. assert (0 <= k) by lia.
    split; [|destruct Hres as [[-> ->]|(-> & ? & ->)]; [left; lia|right; split_and!; (done || lia)]].
    intros va Hv. rewrite Hmap, Hone by done. unfold in_pages, mapped_pte.
    replace ((a + 4096) / 4096) with (a / 4096 + 1) by lia.
    destruct (decide (va / 4096 = a / 4096)) as [Eq|Hnq].
    + rewrite Eq. repeat case_match; try lia; done.
    + replace (pa + 4096 + (va / 4096 - (a / 4096 + 1)) * 4096) with (pa + (va / 4096 - a / 4096) * 4096) by lia.
      repeat case_match; try lia; done.
  - destruct IH as (va & Hv & Hin & Hov); try lia. exists va. split; [done|].
    rewrite Hone in Hov by done. unfold in_pages in *. split; [lia|]. revert Hov. case_match; [lia|done].
  - apply IH; lia.
  - apply IH; lia.
Qed.

(** [mappages] of a range of pages: on success exactly the pages of [va, va + size)
    map to the physical pages from [pa] on, with the permissions, and every other entry is
    as before; it panics only if a page of the range was already mapped; it fails only
    when no page is free, with the first [k] pages mapped. Only page tables are written. *)
Theorem mappages_spec s fl pgdir va size pa perm : kmem_inv kend s fl -> pd_ok (km_mem s) pgdir fl ->
  0 <= va -> 0 < size -> va + size <= 2 ^ 32 ->
  let n := (va + size - 1) / 4096 - va / 4096 + 1 in
  0 <= pa -> pa + n * 4096 <= 2 ^ 32 ->
  mappages_result s fl pgdir va pa perm n (mappages pgdir va size pa perm s).
Proof.
  intros Hi Hp Hva Hsz Hlim n Hpa Hplim. unfold mappages.
  assert (Hn : 0 < n) by (unfold n; lia). rewrite (u32_small (va + size - 1)), !PGROUNDDOWN_eq by lia.
  set (a := va / 4096 * 4096).
  assert (Hl : (va + size - 1) / 4096 * 4096 = a + (n - 1) * 4096) by (unfold a, n; lia).
  rewrite Hl. assert (Hal : va / 4096 = a / 4096) by (unfold a; lia).
  pose proof (mappages_loop_spec (S (Z.to_nat (u32 (a + (n - 1) * 4096 - a) / PGSIZE))) s fl pgdir a pa perm n Hi Hp)
    as H. revert H. unfold mappages_result, map_upto, in_pages, mapped_pte. rewrite Hal. intros H.
  assert (Hn' : a + n * 4096 <= 2 ^ 32) by (unfold a, n; lia).
  assert (Ha : 0 <= a /\ a mod 4096 = 0) by (unfold a; lia).
  assert (Hf : u32 (a + (n - 1) * 4096 - a) = (n - 1) * 4096) by (rewrite u32_small by lia; lia).
  apply H; try done; [lia|lia|]. rewrite Hf. unfold PGSIZE. lia.
Qed.

(** ** The user's memory *)

Definition frame_of (m : mem) (pgdir va : Z) : Z := P2V (PTE_ADDR (pte_of m pgdir va)).
Definition accessible (m : mem) (pgdir va : Z) : bool :=
  has (pte_of m pgdir va) PTE_P && has (pte_of m pgdir va) PTE_U.
(** The byte the process reads at [va]. *)
Definition user_byte (m : mem) (pgdir va : Z) : option Z :=
  if accessible m pgdir va then Some (m (frame_of m pgdir va + va mod 4096)) else None.

(** User pages have frames of their own, which hold no page table. *)
Record user_ok (m : mem) (pgdir : Z) : Prop := {
  uo_pd : pd_ok m pgdir [];
  uo_frame va : 0 <= va < 2 ^ 32 -> accessible m pgdir va = true ->
    page_ok kend (frame_of m pgdir va) /\ frame_of m pgdir va <> pgdir /\
    forall i, 0 <= i < 1024 -> Z.odd (pde m pgdir i) = true -> frame_of m pgdir va <> tab m pgdir i;
  uo_own va va' : 0 <= va < 2 ^ 32 -> 0 <= va' < 2 ^ 32 -> accessible m pgdir va = true ->
    accessible m pgdir va' = true -> frame_of m pgdir va = frame_of m pgdir va' -> va / 4096 = va' / 4096
}.
(** The page tables of a range exist. *)
Definition tables_for (m : mem) (pgdir va len : Z) : Prop :=
  forall x, va <= x < va + len -> Z.odd (pde m pgdir (PDX x)) = true.
(** A range of kernel memory that no user page occupies. *)
Definition private (m : mem) (pgdir p len : Z) : Prop :=
  forall va a, 0 <= va < 2 ^ 32 -> accessible m pgdir va = true -> p <= a < p + len ->
    off_page (frame_of m pgdir va) a.

Lemma pte_of_page m pgdir va va' : 0 <= va < 2 ^ 32 -> 0 <= va' < 2 ^ 32 -> va / 4096 = va' / 4096 ->
  pte_of m pgdir va = pte_of m pgdir va'.
Proof. intros H H' E. unfold pte_of. by destruct (index_same va va' H H' E) as [-> ->]. Qed.

(** Writing to the frame of a user page leaves the page tables alone. *)
Lemma frame_write m m' pgdir va : user_ok m pgdir -> 0 <= va < 2 ^ 32 -> accessible m pgdir va = true ->
  (forall a, off_page (frame_of m pgdir va) a -> m' a = m a) ->
  (forall i, 0 <= i < 1024 -> pde m' pgdir i = pde m pgdir i) /\
  (forall x, 0 <= x < 2 ^ 32 -> pte_of m' pgdir x = pte_of m pgdir x).
Proof.
  intros [Hp Hf Ho] Hva Ha Hm. pose proof (Hf va Hva Ha) as (F1 & F2 & F3).
  pose proof (po_dir _ _ _ Hp) as [Hd _].
  assert (Hpde : forall i, 0 <= i < 1024 -> pde m' pgdir i = pde m pgdir i).
  { intros i Hi. apply (ld32_page _ _ _ (frame_of m pgdir va)); try done; lia. }
  split; [done|]. intros x Hx. pose proof (PDX_range x Hx) as Hd'. pose proof (PTX_range x ltac:(lia)) as Ht'.
  unfold pte_of, tab. rewrite Hpde by done. destruct (Z.odd (pde m pgdir (PDX x))) eqn:E; [|done].
  apply (ld32_page _ _ _ (frame_of m pgdir va)); try done; [by apply (po_tab _ _ _ Hp)| |lia].
  intros Eq. by apply (F3 _ Hd' E).
Qed.

Lemma user_ok_same m m' pgdir : user_ok m pgdir -> bytes_ok m' ->
  (forall i, 0 <= i < 1024 -> pde m' pgdir i = pde m pgdir i) ->
  (forall x, 0 <= x < 2 ^ 32 -> pte_of m' pgdir x = pte_of m pgdir x) -> user_ok m' pgdir.
Proof.
  intros [[B D Tb J] Hf Ho] Hb Hpde Hpte.
  assert (Ht : forall i, 0 <= i < 1024 -> tab m' pgdir i = tab m pgdir i)
    by (intros; unfold tab; by rewrite Hpde).
  assert (Hfr : forall x, 0 <= x < 2 ^ 32 -> frame_of m' pgdir x = frame_of m pgdir x)
    by (intros; unfold frame_of; by rewrite Hpte).
  assert (Hac : forall x, 0 <= x < 2 ^ 32 -> accessible m' pgdir x = accessible m pgdir x)
    by (intros; unfold accessible; by rewrite Hpte).
  split; [split; [done|done| |]| |].
  - intros i Hi. rewrite Ht, Hpde by done. auto.
  - intros i j Hi Hj. rewrite !Ht, !Hpde by done. auto.
  - intros x Hx. rewrite Hac, Hfr by done. intros Ha. destruct (Hf x Hx Ha) as (? & ? & H3).
    split; [done|]. split; [done|]. intros i Hi. rewrite Ht, Hpde by done. auto.
  - intros x y Hx Hy. rewrite !Hac, !Hfr by done. auto.
Qed.

(** ** [copyout] *)

Lemma uva2ka_run s pgdir va : Z.odd (pde (km_mem s) pgdir (PDX va)) = true ->
  uva2ka pgdir va s =
    Ret (if accessible (km_mem s) pgdir va then frame_of (km_mem s) pgdir va else 0) s.
Proof.
  intros Ho. unfold uva2ka. erewrite bind_eq by apply walk_look. rewrite Ho, run_rd.
  assert (E : ld32 (km_mem s) (slot (km_mem s) pgdir va) = pte_of (km_mem s) pgdir va)
    by (unfold pte_of; by rewrite Ho).
  rewrite E. unfold accessible, frame_of. destruct (has _ PTE_P), (has _ PTE_U); done.
Qed.

Lemma accessible_page m pgdir va va' : 0 <= va < 2 ^ 32 -> 0 <= va' < 2 ^ 32 -> va / 4096 = va' / 4096 ->
  accessible m pgdir va = accessible m pgdir va' /\ frame_of m pgdir va = frame_of m pgdir va'.
Proof. intros H H' E. unfold accessible, frame_of. by rewrite (pte_of_page m pgdir va va'). Qed.

(** The state of a copy after [k] bytes: the range up to there holds the source. *)
Record copied (m m' : mem) (pgdir va buf len k : Z) : Prop := {
  cp_ok : user_ok m' pgdir;
  cp_pde i : 0 <= i < 1024 -> pde m' pgdir i = pde m pgdir i;
  cp_pte x : 0 <= x < 2 ^ 32 -> pte_of m' pgdir x = pte_of m pgdir x;
  cp_user x : 0 <= x < 2 ^ 32 -> user_byte m' pgdir x =
    if in_range x va k then Some (m (buf + (x - va))) else user_byte m pgdir x;
  cp_src a : buf <= a < buf + len -> m' a = m a
}.

Lemma accessible_same m m' pgdir x : pte_of m' pgdir x = pte_of m pgdir x ->
  accessible m' pgdir x = accessible m pgdir x /\ frame_of m' pgdir x = frame_of m pgdir x.
Proof. intros E. unfold accessible, frame_of. by rewrite E. Qed.

(** Copying [n] bytes into one page, through the page table. *)
Lemma chunk_user m pgdir x0 src n : user_ok m pgdir -> 0 <= x0 < 2 ^ 32 -> 0 < n ->
  x0 mod 4096 + n <= 4096 -> accessible m pgdir x0 = true ->
  let f := frame_of m pgdir x0 in
  let m' := memmove m (f + x0 mod 4096) src n in
  user_ok m' pgdir /\ (forall i, 0 <= i < 1024 -> pde m' pgdir i = pde m pgdir i) /\
  (forall x, 0 <= x < 2 ^ 32 -> pte_of m' pgdir x = pte_of m pgdir x) /\
  (forall a, off_page f a -> m' a = m a) /\
  forall x, 0 <= x < 2 ^ 32 -> user_byte m' pgdir x =
    if in_range x x0 n then Some (m (src + (x - x0))) else user_byte m pgdir x.
Proof.
  intros Ok Hx0 Hn Hpg Hac f m'.
  assert (Hmm : forall a, m' a = if in_range a (f + x0 mod 4096) n then m (src + (a - (f + x0 mod 4096))) else m a)
    by (intros; apply memmove_spec; lia).
  assert (Hoff : forall a, off_page f a -> m' a = m a).
  { intros a Ha. rewrite Hmm. unfold off_page, PGSIZE, in_range in *. by replace (_ && _) with false by lia. }
  destruct (frame_write m m' pgdir x0 Ok Hx0 Hac Hoff) as [Hpde Hpte].
  split; [|split; [done|split; [done|split; [done|]]]].
  { apply (user_ok_same m); try done. intros a. rewrite Hmm.
    pose proof (po_bytes _ _ _ (uo_pd _ _ Ok)) as Hb. case_match; apply Hb. }
  intros x Hx. unfold user_byte. destruct (accessible_same m m' pgdir x (Hpte x Hx)) as [-> ->].
  rewrite Hmm. destruct (decide (x / 4096 = x0 / 4096)) as [Hp|Hp].
  - destruct (accessible_page m pgdir x x0 Hx Hx0 Hp) as [-> ->]. rewrite Hac. fold f.
    replace (in_range (f + x mod 4096) (f + x0 mod 4096) n) with (in_range x x0 n) by (unfold in_range; lia).
    case_match; [|done]. do 2 f_equal. lia.
  - replace (in_range x x0 n) with false by (unfold in_range; lia).
    destruct (accessible m pgdir x) eqn:Ex; [|done].
    destruct (uo_frame _ _ Ok x Hx Ex) as [P1 _]. destruct (uo_frame _ _ Ok x0 Hx0 Hac) as [P2 _].
    destruct (pages_disjoint kend _ _ P1 P2) as [Hd|Hd];
      [intros E; apply Hp; by apply (uo_own _ _ Ok)| |]; fold f in Hd; unfold in_range, PGSIZE in *;
      by replace (_ && _) with false by lia.
Qed.

(** Copying [n] more bytes into the page of [va + k]. *)
Lemma copied_chunk m m1 pgdir va buf len k n : copied m m1 pgdir va buf len k ->
  private m pgdir buf len -> 0 <= va -> va + len <= KERNBASE -> 0 <= k -> 0 < n -> k + n <= len ->
  (va + k) mod 4096 + n <= 4096 -> accessible m pgdir (va + k) = true ->
  copied m (memmove m1 (frame_of m pgdir (va + k) + (va + k) mod 4096) (buf + k) n) pgdir va buf len (k + n).
Proof.
  intros [Ok Pd Pt Us Sr] Hpr Hva Hlim Hk Hn Hkn Hpg Hac. unfold KERNBASE in Hlim.
  assert (Hx0 : 0 <= va + k < 2 ^ 32) by lia.
  destruct (accessible_same m m1 pgdir (va + k) (Pt _ Hx0)) as [A0 F0]. rewrite Hac in A0.
  destruct (chunk_user m1 pgdir (va + k) (buf + k) n Ok Hx0 Hn Hpg A0) as (Ok2 & Pd2 & Pt2 & Off2 & Us2).
  rewrite F0 in *. split.
  - done.
  - intros i Hi. by rewrite Pd2, Pd.
  - intros x Hx. by rewrite Pt2, Pt.
  - intros x Hx. rewrite Us2, Us by done. unfold in_range.
    destruct ((va + k <=? x) && (x <? va + k + n)) eqn:E1, ((va <=? x) && (x <? va + k)) eqn:E2,
      ((va <=? x) && (x <? va + (k + n))) eqn:E3; try lia; try done.
    rewrite Sr by lia. do 2 f_equal. lia.
  - intros a Ha. rewrite Off2; [by apply Sr|]. by apply Hpr.
Qed.

Definition copyout_result (m : mem) (pgdir va buf len : Z) (r : res kmem Z) : Prop :=
  match r with
  | Ret z s' => exists k, copied m (km_mem s') pgdir va buf len k /\
      (z = 0 /\ k = len \/ z = -1 /\ 0 <= k < len /\ accessible m pgdir (va + k) = false)
  | _ => False
  end.

Lemma copyout_returns m pgdir va buf len r : copyout_result m pgdir va buf len r ->
  exists z s' k, r = Ret z s' /\ copied m (km_mem s') pgdir va buf len k /\
    (z = 0 /\ k = len \/ z = -1 /\ 0 <= k < len /\ accessible m pgdir (va + k) = false).
Proof. destruct r as [z s'|e|c s'|]; try done. intros (k & Hc & Hz). by exists z, s', k. Qed.

Lemma frame_nonzero m pgdir va : user_ok m pgdir -> 0 <= va < 2 ^ 32 -> accessible m pgdir va = true ->
  (frame_of m pgdir va =? 0) = false.
Proof.
  intros Ok Hva Ha. destruct (uo_frame _ _ Ok va Hva Ha) as [[_ Hr] _]. unfold KERNBASE in *. lia.
Qed.

Lemma copyout_loop_spec fuel : forall m s pgdir va buf len k, copied m (km_mem s) pgdir va buf len k ->
  private m pgdir buf len -> tables_for m pgdir (va / 4096 * 4096) (len + va mod 4096) -> 0 <= va ->
  va + len <= KERNBASE -> 0 <= k <= len -> (Z.to_nat ((len - k + (va + k) mod 4096 + 4095) / 4096) <= fuel)%nat ->
  copyout_result m pgdir va buf len (copyout_loop fuel pgdir (va + k) (buf + k) (len - k) s).
Proof.
  induction fuel as [|fuel IH]; intros m s pgdir va buf len k Hc Hpr Htb Hva Hlim Hk Hf; cbn [copyout_loop];
    destruct (Z.ltb_spec 0 (len - k)) as [Hlt|Hge]; try lia.
  1, 3: exists k; split; [done|left; lia].
  change KERNBASE with 2147483648 in Hlim. set (x := va + k) in *.
  assert (Hxe : x = va + k) by reflexivity. rewrite PGROUNDDOWN_eq by lia.
  set (x0 := x / 4096 * 4096). assert (Hxe0 : x0 = x / 4096 * 4096) by reflexivity. assert (Hx : 0 <= x < 2 ^ 32 /\ 0 <= x0 < 2 ^ 32 /\ x0 / 4096 = x / 4096) by lia.
  destruct Hx as (Hx & Hx0 & Hpage). destruct (index_same x0 x Hx0 Hx Hpage) as [Ed _].
  pose proof Hc as [Ok Pd Pt _ _].
  assert (Ho : Z.odd (pde (km_mem s) pgdir (PDX x0)) = true).
  { rewrite Pd by (by apply PDX_range). apply Htb. lia. }
  destruct (accessible_page m pgdir x0 x Hx0 Hx Hpage) as [Ax Fx].
  destruct (accessible_same m (km_mem s) pgdir x0 (Pt x0 Hx0)) as [A0 F0].
  erewrite bind_eq by (by apply uva2ka_run). rewrite A0, F0, Ax, Fx.
  destruct (accessible m pgdir x) eqn:Ea.
  2: { exists k. split; [done|right]. split; [done|]. split; [lia|exact Ea]. }
  rewrite <-Fx, <-F0, frame_nonzero, F0, Fx by (done || congruence). rewrite run_mem_op.
  replace (x - x0) with (x mod 4096) by lia. set (n := Z.min (PGSIZE - x mod 4096) (len - k)).
  assert (Hn : 0 < n <= len - k /\ x mod 4096 + n <= 4096) by (unfold n, PGSIZE; lia).
  pose proof (copied_chunk m (km_mem s) pgdir va buf len k n Hc Hpr Hva Hlim ltac:(lia) ltac:(lia)
    ltac:(lia) ltac:(lia) Ea) as Hc2. fold x in Hc2.
  destruct (decide (n = len - k)) as [En|Hne].
  - replace (len - k - n) with 0 by lia. destruct fuel; cbn [copyout_loop Z.ltb Z.compare]; exists len;
      (split; [by replace len with (k + n) at 2 by lia|by left]).
  - assert (Hfull : x mod 4096 + n = 4096) by (unfold n, PGSIZE in *; lia).
    unfold PGSIZE. rewrite u32_small by lia. replace (x0 + 4096) with (va + (k + n)) by (unfold x in *; lia).
    replace (buf + k + n) with (buf + (k + n)) by lia. replace (len - k - n) with (len - (k + n)) by lia.
    apply IH; try done; [lia|]. unfold x in *. lia.
Qed.

(** C4: [copyout] copies [len] bytes of the kernel's memory to the process's addresses from
    [va] on, whatever physical pages they are in, and changes nothing else the process
    sees; it fails exactly at the first byte that is not in a user page, with the bytes
    before it copied. The page tables of the range must exist ([uva2ka] does not test). *)
Theorem copyout_spec s pgdir va buf len : user_ok (km_mem s) pgdir -> private (km_mem s) pgdir buf len ->
  tables_for (km_mem s) pgdir (va / 4096 * 4096) (len + va mod 4096) -> 0 <= va -> 0 <= len ->
  va + len <= KERNBASE -> copyout_result (km_mem s) pgdir va buf len (copyout pgdir va buf len s).
Proof.
  intros Ok Hpr Htb Hva Hlen Hlim. unfold copyout.
  pose proof (copyout_loop_spec (S (S (Z.to_nat (len / PGSIZE)))) (km_mem s) s pgdir va buf len 0) as H.
  rewrite !Z.add_0_r, Z.sub_0_r in H. apply H; try done; [|unfold PGSIZE; lia].
  split; try done. intros x Hx. unfold in_range. by replace (_ && _) with false by lia.
Qed.
End VmSpec.

(** ** Building an address space *)
Section Build.
Variable kend : Z.
Hypothesis kend_ok : KERNBASE < kend.

(** The pages taken are at most as many as a directory has entries. *)
Lemma step_pages pgdir s fl s' fl' : vm_step kend pgdir s fl s' fl' -> NoDup fl -> (length fl <= 1024 + length fl')%nat.
Proof.
  intros [_ _ (used & -> & Hu) _ _] (Hn & _ & _)%NoDup_app. rewrite length_app.
  assert (Hsub : used ⊆ (tab (km_mem s') pgdir <$> seqZ 0 1024)).
  { intros v Hv. destruct (Hu v Hv) as (i & Hi & _ & <-). apply list_elem_of_fmap. exists i. split; [done|]. apply elem_of_seqZ. lia. }
  pose proof (submseteq_length _ _ (NoDup_submseteq _ _ Hn Hsub)) as Hl. rewrite length_fmap, length_seqZ in Hl. lia.
Qed.

(** Entries outside of [KERNBASE, lo) are empty. *)
Definition kernel_only (m : mem) (pgdir lo : Z) : Prop :=
  forall x, 0 <= x < 2 ^ 32 -> x < KERNBASE \/ lo <= x -> pte_of m pgdir x = 0.
Lemma kmap_step pgdir s0 fl0 s fl lo size pa perm : vm_step kend pgdir s0 fl0 s fl -> NoDup fl0 -> (1024 < length fl0)%nat ->
  kernel_only (km_mem s) pgdir lo -> KERNBASE <= lo -> lo mod 4096 = 0 -> 0 < size -> size mod 4096 = 0 -> lo + size <= 2 ^ 32 ->
  0 <= pa -> pa + size <= 2 ^ 32 ->
  exists s' fl', mappages pgdir lo size pa perm s = Ret 0 s' /\ vm_step kend pgdir s0 fl0 s' fl' /\ kernel_only (km_mem s') pgdir (lo + size).
Proof.
  intros Hst Hn Hlen Hk Hlo Hal Hs0 Hs4 Hlim Hpa Hpl. pose proof Hst as [Hi Hp _ _ _].
  assert (En : (lo + size - 1) / 4096 - lo / 4096 + 1 = size / 4096) by lia. unfold KERNBASE in *.
  pose proof (mappages_spec kend kend_ok s fl pgdir lo size pa perm Hi Hp ltac:(lia) ltac:(lia) ltac:(lia)) as H.
  cbv zeta in H. rewrite En in H. specialize (H ltac:(lia) ltac:(lia)).
  destruct (mappages pgdir lo size pa perm s) as [z s'|e|c s'|]; [|exfalso|by destruct H..].
  - destruct H as (fl' & k & Hst' & Hm & Hres). pose proof (vm_step_trans _ _ _ _ _ _ _ _ Hst Hst') as H0.
    destruct Hres as [[-> ->]|(-> & _ & ->)]; [|exfalso; pose proof (step_pages _ _ _ _ _ H0 Hn) as Hl; cbn in Hl; lia].
    exists s', fl'. split; [done|]. split; [done|]. intros x Hx Hout. rewrite Hm by done. unfold in_pages.
    unfold KERNBASE in Hout. replace (_ && _) with false by lia. apply Hk; [done|]. unfold KERNBASE. lia.
  - destruct H as (va & Hv & Hin & Ho). rewrite Hk in Ho; [done|done|]. right. unfold in_pages in Hin. lia.
Qed.

(** A page directory just cleared. *)
Lemma fresh_dir s v fl : kmem_inv kend s fl -> page_ok kend v -> v ∉ fl -> bytes_ok (km_mem s) ->
  let s' := set_km_mem (memset (km_mem s) v 0 PGSIZE) s in
  kmem_inv kend s' fl /\ pd_ok kend (km_mem s') v fl /\ (forall i, 0 <= i < 1024 -> pde (km_mem s') v i = 0).
Proof.
  intros Hi Hv Hn Hb s'.
  assert (Hz : forall a, km_mem s' a = if in_range a v PGSIZE then 0 else km_mem s a) by (intros; by apply memset_spec).
  assert (Hpde : forall i, 0 <= i < 1024 -> pde (km_mem s') v i = 0).
  { intros i Hi'. unfold pde, ld32. rewrite !Hz. unfold in_range, PGSIZE. by repeat replace (_ && _) with true by lia. }
  split; [|split; [split|done]].
  - apply kmem_inv_mem with v; try done. intros a Ha. rewrite memset_spec by done. unfold off_page, in_range in *. by replace (_ && _) with false by lia.
  - intros a. rewrite Hz. case_match; [lia|apply Hb].
  - done.
  - intros i Hi'. by rewrite Hpde.
  - intros i j Hi' Hj'. by rewrite Hpde.
Qed.

Section Setup.
Variable kdata : Z.
Hypothesis kdata_ok : KERNLINK < kdata < KERNBASE + PHYSTOP.
Hypothesis kdata_page : kdata mod 4096 = 0.
Lemma V2P_kdata : V2P kdata = kdata - KERNBASE.
Proof. unfold V2P, KERNLINK, KERNBASE, PHYSTOP, EXTMEM in *. rewrite u32_small; lia. Qed.
#[local] Ltac kd := rewrite ?V2P_kdata; try change (V2P KERNLINK) with EXTMEM; unfold KERNLINK, EXTMEM, KERNBASE, PHYSTOP, DEVSPACE in *; lia.
(** With more than 1024 free pages [setupkvm] returns the first of them, a directory that
    maps nothing below [KERNBASE]; only free pages are written. *)
Lemma setupkvm_run s v fl : kmem_inv kend s (v :: fl) -> bytes_ok (km_mem s) -> (1024 < length fl)%nat ->
  exists s' fl', setupkvm kend kdata s = Ret v s' /\ kmem_inv kend s' fl' /\ pd_ok kend (km_mem s') v fl' /\
    (length fl <= 1024 + length fl')%nat /\ (forall x, 0 <= x < KERNBASE -> pte_of (km_mem s') v x = 0) /\
    (exists used, fl = used ++ fl') /\
    (forall a, off_page v a -> (forall w, w ∈ fl -> off_page w a) -> km_mem s' a = km_mem s a /\ off_tables (km_mem s') v fl' a).
Proof.
  intros Hi Hb Hlen. unfold setupkvm. destruct (kalloc_run kend kend_ok s _ Hi) as (s1 & E1 & Hi1 & Hm1 & _).
  assert (Hv : page_ok kend v) by (eapply freelist_pages; [apply Hi|left]).
  pose proof (page_range kend kend_ok v Hv) as [Hr _]. destruct Hi as [_ [Hvn Hn]%NoDup_cons _]. cbn [tail] in Hi1.
  erewrite bind_eq by exact E1. rewrite (proj2 (Z.eqb_neq v 0)) by (unfold KERNBASE in Hr; lia). rewrite run_mem_op.
  change (DEVSPACE <? P2V PHYSTOP) with false. cbv iota.
  destruct (fresh_dir s1 v fl Hi1 Hv Hvn) as (Hi2 & Hp2 & Hz2); [by rewrite Hm1|]. set (s2 := set_km_mem _ s1) in *.
  assert (Hoff : forall a, off_page v a -> (forall w, w ∈ fl -> off_page w a) -> km_mem s2 a = km_mem s a /\ off_tables (km_mem s2) v fl a).
  { intros a Hv' Hw. split; [|split; [done|split; [done|]]].
    - subst s2. cbn [km_mem set_km_mem]. rewrite memset_spec, Hm1 by done. unfold off_page, in_range in *. by replace (_ && _) with false by lia.
    - intros i Hi'. by rewrite Hz2. }
  assert (Hk : kernel_only (km_mem s2) v KERNBASE). { intros x Hx _. unfold pte_of. by rewrite Hz2 by by apply PDX_range. }
  clearbody s2. pose proof (vm_step_refl kend v s2 fl Hi2 Hp2) as Hst. cbn [setupkvm_loop kmap k_virt k_start k_end k_perm].
  assert (step : forall s3 l3 lo lo' size pa perm, vm_step kend v s2 fl s3 l3 -> kernel_only (km_mem s3) v lo' ->
    lo' <= lo -> KERNBASE <= lo -> lo mod 4096 = 0 -> 0 < size -> size mod 4096 = 0 -> lo + size <= 2 ^ 32 -> 0 <= pa -> pa + size <= 2 ^ 32 ->
    exists s4 l4, mappages v lo (u32 size) pa perm s3 = Ret 0 s4 /\ vm_step kend v s2 fl s4 l4 /\ kernel_only (km_mem s4) v (lo + size)).
  { intros s3 l3 lo lo' size pa perm H3 K3 Hle Hlo. intros. unfold KERNBASE in Hlo. rewrite u32_small by lia.
    apply (kmap_step v s2 fl s3 l3); try done. intros x Hx Hout. apply K3; [done|lia]. }
  destruct (step s2 fl KERNBASE KERNBASE (EXTMEM - 0) 0 PTE_W Hst Hk) as (s3 & l3 & E3 & H3 & K3); try done.
  erewrite bind_eq by exact E3. change (0 <? 0) with false. cbv iota.
  destruct (step s3 l3 KERNLINK (KERNBASE + (EXTMEM - 0)) (V2P kdata - V2P KERNLINK) (V2P KERNLINK) 0 H3 K3) as (s4 & l4 & E4 & H4 & K4); [kd..|].
  erewrite bind_eq by exact E4. change (0 <? 0) with false. cbv iota.
  destruct (step s4 l4 kdata (KERNLINK + (V2P kdata - V2P KERNLINK)) (PHYSTOP - V2P kdata) (V2P kdata) PTE_W H4 K4) as (s5 & l5 & E5 & H5 & K5); [kd..|].
  erewrite bind_eq by exact E5. change (0 <? 0) with false. cbv iota.
  destruct (step s5 l5 DEVSPACE (kdata + (PHYSTOP - V2P kdata)) (2 ^ 32 - DEVSPACE) DEVSPACE PTE_W H5 K5) as (s6 & l6 & E6 & H6 & K6); [kd..|].
  change (u32 (0 - DEVSPACE)) with (u32 (2 ^ 32 - DEVSPACE)). erewrite bind_eq by exact E6. change (0 <? 0) with false. cbv iota.
  pose proof H6 as [Hi6 Hp6 (used & Hu & _) _ Ho6]. exists s6, l6. split; [done|]. split; [done|]. split; [done|].
  split; [by apply (step_pages _ _ _ _ _ H6)|]. split; [intros x Hx; apply K6; unfold KERNBASE, DEVSPACE in *; lia|]. split; [by exists used|].
  intros a Ha Hw. destruct (Hoff a Ha Hw) as [<- Ht]. by apply Ho6.
Qed.
End Setup.

(** A write to none of the pages that make up the tables and the free list. *)
Definition in_tables (m : mem) (pgdir : Z) (fl : list Z) (q : Z) : Prop :=
  q = pgdir \/ q ∈ fl \/ exists i, 0 <= i < 1024 /\ Z.odd (pde m pgdir i) = true /\ q = tab m pgdir i.
Lemma same_tables s m' pgdir fl : kmem_inv kend s fl -> pd_ok kend (km_mem s) pgdir fl -> bytes_ok m' ->
  (forall q a, in_tables (km_mem s) pgdir fl q -> q <= a < q + PGSIZE -> m' a = km_mem s a) ->
  kmem_inv kend (set_km_mem m' s) fl /\ pd_ok kend m' pgdir fl /\
  (forall i, 0 <= i < 1024 -> pde m' pgdir i = pde (km_mem s) pgdir i) /\
  (forall x, 0 <= x < 2 ^ 32 -> pte_of m' pgdir x = pte_of (km_mem s) pgdir x) /\
  (forall a, off_tables (km_mem s) pgdir fl a -> off_tables m' pgdir fl a).
Proof.
  intros [Hl Hn Hk] [Hb Hd Ht Hj] Hb' Hm.
  assert (Hw : forall q o, in_tables (km_mem s) pgdir fl q -> 0 <= o <= 4092 -> ld32 m' (q + o) = ld32 (km_mem s) (q + o)).
  { intros q o Hq Ho. unfold ld32. rewrite !(Hm q); [done|done| |done| |done| |done|]; unfold PGSIZE; lia. }
  assert (Hp : forall i, 0 <= i < 1024 -> pde m' pgdir i = pde (km_mem s) pgdir i). { intros i Hi. apply Hw; [by left|lia]. }
  assert (Htb : forall i, 0 <= i < 1024 -> tab m' pgdir i = tab (km_mem s) pgdir i). { intros i Hi. unfold tab. by rewrite Hp. }
  split; [split; [|done|done]|split; [split|split; [done|split]]].
  - cbn [km_mem set_km_mem km_freelist]. eapply freelist_frame; [|done]. intros w Hw'. rewrite <-(Z.add_0_r w). apply Hw; [by right; left|lia].
  - done.
  - done.
  - intros i Hi. rewrite Hp, Htb by done. by apply Ht.
  - intros i j Hi Hj'. rewrite !Hp, !Htb by done. by apply Hj.
  - intros x Hx. pose proof (PDX_range x Hx) as Hx'. pose proof (PTX_range x ltac:(lia)). unfold pte_of. rewrite Hp, Htb by done.
    destruct (Z.odd _) eqn:Eo; [|done]. apply Hw; [|lia]. right. right. by exists (PDX x).
  - intros a (O1 & O2 & O3). split; [done|split; [done|]]. intros i Hi. rewrite Hp, Htb by done. by apply O3.
Qed.

(** One turn of [allocuvm]'s loop. *)
Record gave_page (pgdir a p : Z) (s : kmem) (fl : list Z) (s' : kmem) (fl' : list Z) : Prop := {
  gp_inv : kmem_inv kend s' fl';
  gp_pd : pd_ok kend (km_mem s') pgdir fl';
  gp_len : (length fl <= 1025 + length fl')%nat;
  gp_page : page_ok kend p;
  gp_pte x : 0 <= x < 2 ^ 32 -> pte_of (km_mem s') pgdir x = if x / 4096 =? a / 4096 then V2P p + 7 else pte_of (km_mem s) pgdir x;
  gp_own b : p <= b < p + PGSIZE -> off_tables (km_mem s') pgdir fl' b;
  gp_off b : off_tables (km_mem s) pgdir fl b -> km_mem s' b = km_mem s b /\ off_tables (km_mem s') pgdir fl' b
}.
Lemma alloc_page fuel s p fl pgdir a oldsz newsz : kmem_inv kend s (p :: fl) -> pd_ok kend (km_mem s) pgdir (p :: fl) ->
  (1024 < length fl)%nat -> 0 <= a < newsz -> newsz < KERNBASE -> a mod 4096 = 0 -> pte_of (km_mem s) pgdir a = 0 ->
  exists s' fl', allocuvm_loop kend (S fuel) pgdir a oldsz newsz s = allocuvm_loop kend fuel pgdir (a + PGSIZE) oldsz newsz s' /\
    gave_page pgdir a p s (p :: fl) s' fl'.
Proof.
  intros Hi Hp Hlen Ha Hnew Hal Hpte. cbn [allocuvm_loop]. rewrite (proj2 (Z.ltb_lt _ _)) by lia.
  destruct (kalloc_run kend kend_ok s _ Hi) as (s1 & E1 & Hi1 & Hm1 & _). erewrite bind_eq by exact E1.
  assert (Hpg : page_ok kend p) by (eapply freelist_pages; [apply Hi|left]).
  pose proof (page_range kend kend_ok p Hpg) as [Hr HP]. destruct Hi as [_ [Hpn Hn]%NoDup_cons _]. cbn [tail] in Hi1.
  rewrite (proj2 (Z.eqb_neq p 0)) by (unfold KERNBASE in Hr; lia). rewrite run_mem_op.
  pose proof Hp as [Hb [Hd [Hdp Hdn]%not_elem_of_cons] Ht Hj].
  assert (Hp1 : pd_ok kend (km_mem s1) pgdir fl).
  { rewrite Hm1. split; [done|done| |done]. intros i Hi' Ho. by destruct (Ht i Hi' Ho) as (? & ? & [_ ?]%not_elem_of_cons). }
  set (m2 := memset (km_mem s1) p 0 PGSIZE).
  assert (Hz : forall b, m2 b = if in_range b p PGSIZE then 0 else km_mem s b) by (intros; unfold m2; by rewrite memset_spec, Hm1).
  assert (Hne : forall q, in_tables (km_mem s1) pgdir fl q -> page_ok kend q /\ q <> p).
  { rewrite Hm1. intros q [->|[Hq|(i & Hi' & Ho & ->)]]; [done| |].
    - split; [by eapply freelist_pages; [apply Hi1|]|by intros ->].
    - destruct (Ht i Hi' Ho) as (? & ? & [? _]%not_elem_of_cons). done. }
  destruct (same_tables s1 m2 pgdir fl Hi1 Hp1) as (Hi2 & Hp2 & Hpd2 & Hpt2 & Hof2).
  { intros b. rewrite Hz. case_match; [lia|apply Hb]. }
  { intros q b Hq Hqb. destruct (Hne q Hq) as [Hqp Hqn]. rewrite Hz, Hm1. unfold in_range.
    destruct (pages_disjoint kend p q Hpg Hqp) as [?|?]; [congruence| |]; by replace (_ && _) with false by lia. }
  rewrite Hm1 in *. set (s2 := set_km_mem m2 s1) in *.
  pose proof (mappages_spec kend kend_ok s2 fl pgdir a PGSIZE (V2P p) (Z.lor PTE_W PTE_U) Hi2 Hp2 ltac:(lia)) as H. cbv zeta in H.
  assert (HV : 0 <= V2P p) by (unfold V2P, u32; lia). unfold KERNBASE, PHYSTOP, PGSIZE in *.
  replace ((a + 4096 - 1) / 4096 - a / 4096 + 1) with 1 in H by lia. specialize (H ltac:(lia) ltac:(lia) ltac:(lia) ltac:(lia)).
  destruct (mappages pgdir a 4096 (V2P p) (Z.lor PTE_W PTE_U) s2) as [z s3|e|c s3|] eqn:E3; [|exfalso|by destruct H..].
  2: { destruct H as (va & Hv & Hin & Ho). unfold in_pages in Hin. rewrite (pte_of_page _ _ va a), Hpt2, Hpte in Ho; [done|lia..]. }
  destruct H as (fl' & k & Hst & Hm & Hres). pose proof (step_pages _ _ _ _ _ Hst Hn) as Hlen'.
  destruct Hres as [[-> ->]|(-> & _ & ->)]; [|exfalso; cbn in Hlen'; lia].
  exists s3, fl'. erewrite bind_eq by exact E3. change (0 <? 0) with false. cbv iota. rewrite (u32_small (a + 4096)) by lia.
  split; [done|]. destruct Hst as [Hi3 Hp3 _ _ Ho3]. split; try done.
  - cbn [length]. lia.
  - intros x Hx. rewrite Hm by done. unfold in_pages. destruct (Z.eqb_spec (x / 4096) (a / 4096)) as [Ex|Ex].
    + replace (_ && _) with true by lia. unfold mapped_pte. rewrite Ex, Z.sub_diag, Z.mul_0_l, Z.add_0_r, <-Z.lor_assoc.
      change (Z.lor (Z.lor PTE_W PTE_U) PTE_P) with 7. destruct Hpg as [Hpm _]. unfold PGSIZE in Hpm.
      assert (V2P p mod 4096 = 0) by (unfold V2P, KERNBASE; rewrite u32_small; lia). rewrite lor_low by lia. rewrite u32_small; lia.
    + replace (_ && _) with false by lia. by apply Hpt2.
  - intros b Hbp. apply Ho3. change (km_mem s2) with m2. split; [|split].
    + destruct (pages_disjoint kend p pgdir Hpg Hd) as [?|?]; [congruence| |]; unfold off_page, PGSIZE in *; lia.
    + intros w Hw. destruct (Hne w) as [Hwp Hwn]; [by right; left|]. destruct (pages_disjoint kend p w Hpg Hwp) as [?|?]; [congruence| |]; unfold off_page, PGSIZE in *; lia.
    + intros i Hi'. unfold tab. rewrite Hpd2 by done. intros Ho. destruct (Hne (tab (km_mem s) pgdir i)) as [Hwp Hwn]; [right; right; by exists i|].
      fold (tab (km_mem s) pgdir i). destruct (pages_disjoint kend p (tab (km_mem s) pgdir i) Hpg Hwp) as [?|?]; [congruence| |]; unfold off_page, PGSIZE in *; lia.
  - intros b (O1 & O2 & O3).
    assert (Hb2 : m2 b = km_mem s b).
    { rewrite Hz. pose proof (O2 p ltac:(left)) as Hop. unfold off_page, in_range, PGSIZE in *. by replace (_ && _) with false by lia. }
    rewrite <-Hb2. apply Ho3, Hof2. split; [done|]. split; [intros w Hw; apply O2; by right|done].
Qed.

Lemma pte_present m pgdir va : Z.odd (pte_of m pgdir va) = true -> Z.odd (pde m pgdir (PDX va)) = true.
Proof. unfold pte_of. by destruct (Z.odd (pde m pgdir (PDX va))). Qed.
(** A page of the process is hidden from it. *)
Lemma clearpteu_run s pgdir fl va : kmem_inv kend s fl -> pd_ok kend (km_mem s) pgdir fl -> 0 <= va < 2 ^ 32 ->
  Z.odd (pte_of (km_mem s) pgdir va) = true ->
  exists s', clearpteu pgdir va s = Ret tt s' /\ vm_step kend pgdir s fl s' fl /\
    forall x, 0 <= x < 2 ^ 32 -> x / 4096 <> va / 4096 -> pte_of (km_mem s') pgdir x = pte_of (km_mem s) pgdir x.
Proof.
  intros Hi Hp Hva Ho. pose proof (pte_present _ _ _ Ho) as Hd. unfold clearpteu. erewrite bind_eq by apply walk_look.
  rewrite Hd, (slot_nonzero kend kend_ok (km_mem s) pgdir fl va Hp Hva Hd). rewrite run_rd.
  destruct (pte_write kend s pgdir fl va (Z.land (ld32 (km_mem s) (slot (km_mem s) pgdir va)) (u32 (Z.lnot PTE_U))) Hi Hp Hva Hd) as [Hst Hm].
  eexists. split; [reflexivity|]. split; [exact Hst|]. intros x Hx Hne. rewrite Hm by done. by rewrite (proj2 (Z.eqb_neq _ _) Hne).
Qed.
(** [copyout] inside of one page. *)
Lemma copyout_page s pgdir va buf len : 0 <= va < 2 ^ 32 -> accessible (km_mem s) pgdir va = true -> frame_of (km_mem s) pgdir va <> 0 ->
  0 < len -> va mod 4096 + len <= 4096 ->
  copyout pgdir va buf len s = Ret 0 (set_km_mem (memmove (km_mem s) (frame_of (km_mem s) pgdir va + va mod 4096) buf len) s).
Proof.
  intros Hva Ha Hf Hl Hlen. unfold copyout. cbn [copyout_loop]. rewrite (proj2 (Z.ltb_lt _ _) Hl), PGROUNDDOWN_eq by done.
  set (va0 := va / 4096 * 4096). assert (H0 : 0 <= va0 < 2 ^ 32 /\ va / 4096 = va0 / 4096) by (unfold va0; lia). destruct H0 as [H0 Hpg].
  destruct (accessible_page (km_mem s) pgdir va va0) as [Ea Ef]; try done. rewrite Ea in Ha. rewrite Ef in Hf |- *.
  erewrite bind_eq.
  2: { apply uva2ka_run, pte_present. unfold accessible in Ha. apply andb_true_iff in Ha as [Ha _]. by rewrite has_P in Ha. }
  rewrite Ha. cbv beta. rewrite (proj2 (Z.eqb_neq _ _) Hf). cbv zeta. replace (va - va0) with (va mod 4096) by (unfold va0; lia).
  rewrite Z.min_r by (unfold PGSIZE; lia). rewrite run_mem_op, Z.sub_diag. by destruct (Z.to_nat (len / PGSIZE)).
Qed.

(** An empty page directory is freed alone. *)
Lemma PGADDR_dir d : 0 <= d < 1024 -> u32 (u32 (PGADDR d 0 0 - PGSIZE) + PGSIZE) = d * 2 ^ 22.
Proof.
  intros Hd. unfold PGADDR. rewrite Z.shiftl_0_l, !Z.lor_0_r, Z.shiftl_mul_pow2 by lia. unfold u32, PGSIZE. lia.
Qed.
Lemma dealloc_empty pgdir s k : (forall i, 0 <= i < 1024 -> pde (km_mem s) pgdir i = 0) ->
  forall fuel d, 0 <= d -> d + Z.of_nat k = 512 -> (k <= fuel)%nat ->
  deallocuvm_loop kend fuel pgdir (d * 2 ^ 22) KERNBASE s = Ret tt s.
Proof.
  intros Hz. induction k as [|k IH]; intros fuel d Hd Hk Hf.
  - replace d with 512 by lia. destruct fuel; done.
  - destruct fuel as [|fuel]; [lia|]. cbn [deallocuvm_loop]. rewrite (proj2 (Z.ltb_lt _ _)) by (unfold KERNBASE; lia).
    erewrite bind_eq by apply walk_look. assert (Ed : PDX (d * 2 ^ 22) = d) by (rewrite PDX_eq by lia; lia).
    rewrite Ed, Hz by lia. change (Z.odd 0) with false. cbv iota. change (0 =? 0) with true. cbv iota.
    rewrite PGADDR_dir by lia. apply IH; lia.
Qed.
Lemma freevm_empty pgdir s : km_lock s = false -> page_ok kend pgdir -> (forall i, 0 <= i < 1024 -> pde (km_mem s) pgdir i = 0) ->
  exists s', freevm kend pgdir s = Ret tt s'.
Proof.
  intros Hi Hp Hz. pose proof (page_range kend kend_ok pgdir Hp) as [Hr _]. unfold freevm.
  rewrite (proj2 (Z.eqb_neq pgdir 0)) by (unfold KERNBASE in Hr; lia).
  assert (Ed : deallocuvm kend pgdir KERNBASE 0 s = Ret 0 s).
  { unfold deallocuvm. change (KERNBASE <=? 0) with false. cbv iota. erewrite bind_eq; [reflexivity|]. change (PGROUNDUP 0) with (0 * 2 ^ 22).
    apply (dealloc_empty pgdir s 512 Hz); [lia|lia|]. unfold KERNBASE, PGSIZE. lia. }
  erewrite bind_eq by exact Ed. assert (Ef : forall k i, 0 <= i -> i + Z.of_nat k = 1024 -> freevm_loop kend k pgdir i s = Ret tt s).
  { induction k as [|k IH]; intros i H0 Hk; cbn [freevm_loop]; [done|]. rewrite run_rd, has_P.
    fold (pde (km_mem s) pgdir i). rewrite Hz by lia. change (Z.odd 0) with false. apply IH; lia. }
  erewrite bind_eq by (apply (Ef 1024%nat); lia). rewrite (run_kfree kend kend_ok) by done. by eexists.
Qed.

(** The entry of a user page. *)
Lemma user_entry p : page_ok kend p -> has (V2P p + 7) PTE_P = true /\ has (V2P p + 7) PTE_U = true /\ P2V (PTE_ADDR (V2P p + 7)) = p.
Proof.
  intros Hp. destruct (new_pde kend kend_ok p Hp) as [Ho Ha]. pose proof (page_range kend kend_ok p Hp) as [Hr HP]. destruct Hp as [Hm _].
  unfold PGSIZE, PHYSTOP in *. assert (Hv : 0 <= V2P p) by (unfold V2P, u32; lia).
  assert (V2P p mod 4096 = 0) by (unfold V2P, KERNBASE in *; rewrite u32_small; lia).
  rewrite <-!Z.lor_assoc in Ho, Ha. change (Z.lor PTE_P (Z.lor PTE_W PTE_U)) with 7 in *. rewrite lor_low in Ho, Ha by lia.
  rewrite u32_small in Ho, Ha by lia. rewrite has_P. split; [done|]. split; [|done]. rewrite <-lor_low by lia. unfold has, PTE_U.
  rewrite Z.land_lor_distr_l. change (Z.land 7 4) with 4. destruct (Z.eqb_spec (Z.lor (Z.land (V2P p) 4) 4) 0) as [E|]; [|done].
  by apply Z.lor_eq_0_iff in E as [_ E].
Qed.

(** The two pages of the stack, the hidden one below, what is copied to the upper one, and
    the end of an old page directory [old] that maps nothing. *)
Lemma stack_pages k p fl v old ustack n : kmem_inv kend k (p :: fl) -> pd_ok kend (km_mem k) v (p :: fl) -> (4000 < length fl)%nat ->
  (forall x, 0 <= x < KERNBASE -> pte_of (km_mem k) v x = 0) -> page_ok kend old ->
  (forall a, old <= a < old + PGSIZE -> km_mem k a = 0 /\ off_tables (km_mem k) v (p :: fl) a) -> 0 < n <= 4096 ->
  exists k1 k2, allocuvm kend v 0 (2 * PGSIZE) k = Ret (2 * PGSIZE) k1 /\ clearpteu v 0 k1 = Ret tt k2 /\ bytes_ok (km_mem k2) /\
    forall m3, bytes_ok m3 -> (forall a, kend <= a -> m3 a = km_mem k2 a) ->
      exists k4 k5, copyout v (2 * PGSIZE - n) ustack n (set_km_mem m3 k2) = Ret 0 k4 /\ freevm kend old k4 = Ret tt k5.
Proof.
  intros Hi Hp Hlen Hz Hold Ho Hn. unfold allocuvm. change (KERNBASE <=? 2 * PGSIZE) with false. change (2 * PGSIZE <? 0) with false. cbv iota.
  change (S (Z.to_nat (2 * PGSIZE / PGSIZE))) with 3%nat. change (PGROUNDUP 0) with 0. change (2 * PGSIZE) with 8192.
  destruct (alloc_page 2 k p fl v 0 0 8192 Hi Hp ltac:(lia) ltac:(lia) ltac:(done) ltac:(done) (Hz 0 ltac:(done))) as (ka & la & Ea & G1).
  destruct la as [|q la]; [pose proof (gp_len _ _ _ _ _ _ _ G1) as Hl; cbn [length] in Hl; lia|].
  assert (Hl1 : (1024 < length la)%nat) by (pose proof (gp_len _ _ _ _ _ _ _ G1) as Hl; cbn [length] in Hl; lia).
  assert (Hz1 : pte_of (km_mem ka) v 4096 = 0) by (rewrite (gp_pte _ _ _ _ _ _ _ G1) by lia; by apply Hz).
  destruct (alloc_page 1 ka q la v 4096 0 8192 (gp_inv _ _ _ _ _ _ _ G1) (gp_pd _ _ _ _ _ _ _ G1) Hl1 ltac:(lia) ltac:(done) ltac:(done) Hz1)
    as (k1 & lb & Eb & G2).
  assert (P0 : Z.odd (pte_of (km_mem k1) v 0) = true).
  { rewrite (gp_pte _ _ _ _ _ _ _ G2), (gp_pte _ _ _ _ _ _ _ G1) by lia. change (0 / 4096 =? 4096 / 4096) with false. change (0 / 4096 =? 0 / 4096) with true.
    cbv iota. rewrite <-has_P. apply user_entry, G1. }
  destruct (clearpteu_run k1 v lb 0 (gp_inv _ _ _ _ _ _ _ G2) (gp_pd _ _ _ _ _ _ _ G2) ltac:(lia) P0) as (k2 & Ec & Hst & Hpt).
  exists k1, k2. split; [rewrite Ea; change (0 + PGSIZE) with 4096; rewrite Eb; done|]. split; [done|].
  pose proof Hst as [Hi2 Hp2 _ _ Ho2]. pose proof Hp2 as [Hb2 [Hd _] Ht _]. split; [done|]. intros m3 Hb3 Hm3.
  destruct (same_tables k2 m3 v lb Hi2 Hp2 Hb3) as (_ & _ & _ & Hpt3 & _).
  { intros r a Hr Ha. apply Hm3. enough (page_ok kend r) as [_ ?] by lia.
    destruct Hr as [->|[Hr|(i & Hi' & Hoi & ->)]]; [done|by eapply freelist_pages; [apply Hi2|]|by apply Ht]. }
  set (va := 8192 - n). assert (Hva : 0 <= va < 2 ^ 32 /\ va / 4096 = 1 /\ va mod 4096 + n = 4096) by (unfold va; lia). destruct Hva as (Hva & Hv1 & Hvn).
  assert (Ep : pte_of m3 v va = V2P q + 7).
  { rewrite Hpt3, Hpt by (done || rewrite Hv1; done). rewrite (gp_pte _ _ _ _ _ _ _ G2) by done. by rewrite Hv1. }
  pose proof (gp_page _ _ _ _ _ _ _ G2) as Hq. destruct (user_entry q Hq) as (U1 & U2 & U3). pose proof (page_range kend kend_ok q Hq) as [Hqr _].
  assert (Ef : frame_of m3 v va = q) by (unfold frame_of; by rewrite Ep).
  pose proof (copyout_page (set_km_mem m3 k2) v va ustack n Hva) as Hc. cbn [km_mem set_km_mem] in Hc. rewrite Ef in Hc.
  rewrite Hc; [|unfold accessible; by rewrite Ep, U1, U2|unfold KERNBASE in Hqr; lia|lia|lia]. eexists. 
  destruct (freevm_empty old (set_km_mem (memmove m3 (q + va mod 4096) ustack n) (set_km_mem m3 k2))) as [k5 E5].
  - apply Hi2.
  - done.
  - assert (H0 : forall a, old <= a < old + PGSIZE -> memmove m3 (q + va mod 4096) ustack n a = 0).
    { intros a Ha. destruct (Ho a Ha) as [Z0 O0]. destruct (gp_off _ _ _ _ _ _ _ G1 a O0) as [Za Oa].
      destruct (gp_off _ _ _ _ _ _ _ G2 a Oa) as [Zb Ob]. destruct (Ho2 a Ob) as [Zc _].
      rewrite memmove_spec by lia. destruct Oa as (_ & Oq & _). specialize (Oq q ltac:(left)). unfold off_page, in_range, PGSIZE in *.
      replace (_ && _) with false by lia. destruct Hold as [_ Hk]. rewrite Hm3 by lia. congruence. }
    intros i Hi'. unfold pde, ld32. cbn [km_mem set_km_mem]. rewrite !H0 by (unfold PGSIZE; lia). done.
  - exists k5. by split.
Qed.
End Build.

(** ** A page directory at the first page after the kernel *)

Definition demo_end : Z := 2148532224.
Lemma demo_end_ok : KERNBASE < demo_end.
Proof. done. Qed.

(** Two pages mapped in an empty directory, with one free page for the table. *)
Lemma mappages_spec_witness : let s := Kmem (fun _ => 0) false true (demo_end + 4096) in
  exists s', mappages demo_end 5000 4096 3145728 6 s = Ret 0 s' /\
    pte_of (km_mem s') demo_end 8192 = 3145728 + 4096 + 7 /\ pte_of (km_mem s') demo_end 12288 = 0.
Proof.
  intros s. assert (Hp : forall i, 0 <= i <= 1 -> page_ok demo_end (demo_end + i * 4096)).
  { intros i Hi. unfold page_ok, demo_end, PGSIZE, KERNBASE, PHYSTOP. lia. }
  assert (Hi : kmem_inv demo_end s [demo_end + 4096]).
  { split; [|apply NoDup_singleton|reflexivity]. simpl. split; [reflexivity|]. split; [apply (Hp 1); lia|reflexivity]. }
  assert (Hd : pd_ok demo_end (km_mem s) demo_end [demo_end + 4096]).
  { split; [intros a; simpl; lia| |done|done]. split; [apply (Hp 0); lia|].
    rewrite list_elem_of_singleton. unfold demo_end. lia. }
  pose proof (mappages_spec demo_end demo_end_ok s _ demo_end 5000 4096 3145728 6 Hi Hd ltac:(lia) ltac:(lia)
    ltac:(lia) ltac:(lia) ltac:(lia)) as H.
  assert (E : match mappages demo_end 5000 4096 3145728 6 s with Ret z _ => z =? 0 | _ => false end = true)
    by (vm_compute; reflexivity).
  destruct (mappages demo_end 5000 4096 3145728 6 s) as [z s'|e|c s'|]; try discriminate E.
  apply Z.eqb_eq in E. subst z. exists s'. split; [reflexivity|].
  destruct H as (fl' & k & _ & Hm & [[_ ->]|([=] & _)]).
  split; (rewrite Hm by lia); vm_compute; reflexivity.
Defined.

(** A directory with one user page, at virtual page 1. *)
Definition demo_mem : mem :=
  let m := upd (upd (fun _ => 0) (demo_end - 8) 72) (demo_end - 7) 105 in
  st32 (st32 m demo_end (V2P (demo_end + 4096) + 7)) (demo_end + 4096 + 4) (V2P (demo_end + 8192) + 7).

Lemma demo_pde i : 0 <= i < 1024 -> pde demo_mem demo_end i =
  if i =? 0 then V2P (demo_end + 4096) + 7 else 0.
Proof.
  intros Hi. unfold pde, demo_mem. rewrite ld32_st32_ne by lia. destruct (Z.eqb_spec i 0) as [->|Hne].
  - rewrite Z.add_0_r, ld32_st32_eq. reflexivity.
  - rewrite ld32_st32_ne by lia. unfold ld32. rewrite !upd_ne by lia. reflexivity.
Qed.

Lemma demo_pte va : 0 <= va < 2 ^ 32 -> pte_of demo_mem demo_end va =
  if va / 4096 =? 1 then V2P (demo_end + 8192) + 7 else 0.
Proof.
  intros Hv. unfold pte_of, tab. rewrite demo_pde by (by apply PDX_range).
  pose proof (PTX_range va ltac:(lia)) as Ht. destruct (Z.eqb_spec (PDX va) 0) as [E|Hne].
  - change (Z.odd (V2P (demo_end + 4096) + 7)) with true. cbv iota.
    change (P2V (PTE_ADDR (V2P (demo_end + 4096) + 7))) with (demo_end + 4096). unfold demo_mem.
    rewrite PDX_eq in E by done. rewrite PTX_eq in Ht |- * by lia.
    destruct (Z.eqb_spec (va / 4096) 1) as [E1|Hn1].
    + rewrite E1, ld32_st32_eq. reflexivity.
    + rewrite !ld32_st32_ne by lia. unfold ld32. rewrite !upd_ne by lia. reflexivity.
  - rewrite PDX_eq in Hne by done. destruct (Z.eqb_spec (va / 4096) 1); [lia|done].
Qed.

Lemma demo_user : user_ok demo_end demo_mem demo_end.
Proof.
  assert (Hp : forall i, 0 <= i <= 2 -> page_ok demo_end (demo_end + i * 4096)).
  { intros i Hi. unfold page_ok, demo_end, PGSIZE, KERNBASE, PHYSTOP. lia. }
  assert (Ht : forall i, 0 <= i < 1024 -> Z.odd (pde demo_mem demo_end i) = true ->
    i = 0 /\ tab demo_mem demo_end i = demo_end + 4096).
  { intros i Hi. unfold tab. rewrite demo_pde by done. destruct (Z.eqb_spec i 0); [|done]. by split. }
  assert (Hf : forall va, 0 <= va < 2 ^ 32 -> accessible demo_mem demo_end va = true ->
    va / 4096 = 1 /\ frame_of demo_mem demo_end va = demo_end + 8192).
  { intros va Hv. unfold accessible, frame_of. rewrite demo_pte by done.
    destruct (Z.eqb_spec (va / 4096) 1); [|done]. by split. }
  split; [split| |].
  - unfold demo_mem. do 2 apply st32_bytes_ok. apply upd_bytes_ok; [|lia].
    apply upd_bytes_ok; [|lia]. intros a. lia.
  - split; [apply (Hp 0); lia|apply not_elem_of_nil].
  - intros i Hi Ho. destruct (Ht i Hi Ho) as [_ ->]. split; [apply (Hp 1); lia|].
    split; [lia|apply not_elem_of_nil].
  - intros i j Hi Hj Hoi Hoj _. destruct (Ht i Hi Hoi) as [-> _]. by destruct (Ht j Hj Hoj) as [-> _].
  - intros va Hv Ha. destruct (Hf va Hv Ha) as [_ ->]. split; [apply (Hp 2); lia|]. split; [lia|].
    intros i Hi Ho. destruct (Ht i Hi Ho) as [_ ->]. lia.
  - intros va va' Hv Hv' Ha Ha' _. destruct (Hf va Hv Ha) as [-> _]. by destruct (Hf va' Hv' Ha') as [-> _].
Qed.

(** "Hi" is copied to address 4100; a copy across the end of the page fails. *)
Lemma copyout_spec_witness : let s := Kmem demo_mem false true 0 in
  exists s' s'', copyout demo_end 4100 (demo_end - 8) 2 s = Ret 0 s' /\
    user_byte (km_mem s') demo_end 4100 = Some 72 /\ user_byte (km_mem s') demo_end 4101 = Some 105 /\
    copyout demo_end 8190 (demo_end - 8) 8 s = Ret (-1) s''.
Proof.
  intros s. assert (Hpr : forall len, len <= 8 -> private demo_mem demo_end (demo_end - 8) len).
  { intros len Hl va a Hv Ha Hr. destruct (uo_frame _ _ _ demo_user va Hv Ha) as [[_ Hk] _].
    left. unfold KERNBASE in *. lia. }
  assert (Htb : forall va len, 0 <= va -> va + len <= 2 ^ 22 -> tables_for demo_mem demo_end va len).
  { intros va len H0 H1 x Hx. rewrite demo_pde by (apply PDX_range; lia). rewrite PDX_eq by lia.
    replace (x / 2 ^ 22) with 0 by lia. reflexivity. }
  assert (H1 : copyout_result demo_end demo_mem demo_end 4100 (demo_end - 8) 2 (copyout demo_end 4100 (demo_end - 8) 2 s)).
  { apply (copyout_spec demo_end demo_end_ok s); [exact demo_user|apply Hpr; lia|apply Htb; lia|lia|lia|unfold KERNBASE; lia]. }
  assert (H2 : copyout_result demo_end demo_mem demo_end 8190 (demo_end - 8) 8 (copyout demo_end 8190 (demo_end - 8) 8 s)).
  { apply (copyout_spec demo_end demo_end_ok s); [exact demo_user|apply Hpr; lia|apply Htb; lia|lia|lia|unfold KERNBASE; lia]. }
  apply copyout_returns in H1 as (z1 & s1 & k1 & E1 & C1 & H1), H2 as (z2 & s2 & k2 & E2 & C2 & H2).
  exists s1, s2. destruct H1 as [[-> ->]|(_ & Hk & Hf)].
  2: { exfalso. unfold accessible in Hf. rewrite demo_pte in Hf by lia.
       replace ((4100 + k1) / 4096) with 1 in Hf by lia. discriminate Hf. }
  destruct H2 as [[-> ->]|(-> & _)].
  { exfalso. pose proof (cp_user _ _ _ _ _ _ _ _ C2 8192 ltac:(lia)) as U.
    change (in_range 8192 8190 8) with true in U. unfold user_byte in U.
    destruct (accessible_same demo_mem (km_mem s2) demo_end 8192) as [A _];
      [apply (cp_pte _ _ _ _ _ _ _ _ C2); lia|].
    rewrite A in U. unfold accessible in U. rewrite demo_pte in U by lia. discriminate U. }
  split; [exact E1|]. split; [|split; [|exact E2]]; rewrite (cp_user _ _ _ _ _ _ _ _ C1) by lia; reflexivity.
Defined.
