(* ===== verification/Ide.v ===== *)
(** * The disk driver: ide.c

    Buffers, the request queue and the IDE controller. The controller is hardware:
    a command written to its registers is pending until the disk has executed it;
    then it raises an interrupt, handled by [ideintr]. *)
From S2P Require Import Prelude Param Iface Sleeplock.

(** ** Buffers (buf.h) *)

Definition B_VALID : Z := 2.
Definition B_DIRTY : Z := 4.

Record buf := Buf {
  b_flags : Z;
  b_dev : Z;
  b_blockno : Z;
  b_lock : sleeplock;
  b_refcnt : Z;
  b_data : block
}.
Definition set_b_flags (v : Z) (s : buf) : buf :=
  Buf v (b_dev s) (b_blockno s) (b_lock s) (b_refcnt s) (b_data s).
Definition set_b_dev (v : Z) (s : buf) : buf :=
  Buf (b_flags s) v (b_blockno s) (b_lock s) (b_refcnt s) (b_data s).
Definition set_b_blockno (v : Z) (s : buf) : buf :=
  Buf (b_flags s) (b_dev s) v (b_lock s) (b_refcnt s) (b_data s).
Definition set_b_lock (v : sleeplock) (s : buf) : buf :=
  Buf (b_flags s) (b_dev s) (b_blockno s) v (b_refcnt s) (b_data s).
Definition set_b_refcnt (v : Z) (s : buf) : buf :=
  Buf (b_flags s) (b_dev s) (b_blockno s) (b_lock s) v (b_data s).
Definition set_b_data (v : block) (s : buf) : buf :=
  Buf (b_flags s) (b_dev s) (b_blockno s) (b_lock s) (b_refcnt s) v.

Definition has_flag (fl f : Z) : bool := negb (Z.land fl f =? 0).

(** A buffer of the zero-initialised [bcache.buf]. *)
Definition buf0 : buf := Buf 0 0 0 initsleeplock 0 zero_block.
#[global] Instance buf_inhabited : Inhabited buf := populate buf0.

(** ** The controller *)

(** The command in the controller: read or write one sector. *)
Inductive ide_cmd :=
| CmdRead (dev sector : Z)
| CmdWrite (dev sector : Z) (data : block).

(** The state: the process table, [idelock], [idequeue] (buffer indices, the
    active request first), [havedisk1], the buffers, the writes the disk has executed,
    by device and sector, and the controller's pending command. *)
Record ide (P : Type) := Ide {
  i_proc : P;
  i_lock : bool;
  i_queue : list nat;
  i_havedisk1 : bool;
  i_bufs : list buf;
  i_disk : disk_hist (Z * Z);
  i_cmd : option ide_cmd
}.
Arguments Ide {P}.
Arguments i_proc {P}.
Arguments i_lock {P}.
Arguments i_queue {P}.
Arguments i_havedisk1 {P}.
Arguments i_bufs {P}.
Arguments i_disk {P}.
Arguments i_cmd {P}.
Definition set_i_proc {P : Type} (v : P) (s : ide P) : ide P :=
  Ide v (i_lock s) (i_queue s) (i_havedisk1 s) (i_bufs s) (i_disk s) (i_cmd s).
Definition set_i_lock {P : Type} (v : bool) (s : ide P) : ide P :=
  Ide (i_proc s) v (i_queue s) (i_havedisk1 s) (i_bufs s) (i_disk s) (i_cmd s).
Definition set_i_queue {P : Type} (v : list nat) (s : ide P) : ide P :=
  Ide (i_proc s) (i_lock s) v (i_havedisk1 s) (i_bufs s) (i_disk s) (i_cmd s).
Definition set_i_havedisk1 {P : Type} (v : bool) (s : ide P) : ide P :=
  Ide (i_proc s) (i_lock s) (i_queue s) v (i_bufs s) (i_disk s) (i_cmd s).
Definition set_i_bufs {P : Type} (v : list buf) (s : ide P) : ide P :=
  Ide (i_proc s) (i_lock s) (i_queue s) (i_havedisk1 s) v (i_disk s) (i_cmd s).
Definition set_i_disk {P : Type} (v : disk_hist (Z * Z)) (s : ide P) : ide P :=
  Ide (i_proc s) (i_lock s) (i_queue s) (i_havedisk1 s) (i_bufs s) v (i_cmd s).
Definition set_i_cmd {P : Type} (v : option ide_cmd) (s : ide P) : ide P :=
  Ide (i_proc s) (i_lock s) (i_queue s) (i_havedisk1 s) (i_bufs s) (i_disk s) v.

Section Ide.
Context {P : Type} `{ProcIface P}.

Definition i_lock_lens : lens (ide P) bool := Lens i_lock set_i_lock.

(** [&bcache.buf[i]] *)
Definition buf_at (s : ide P) (i : nat) : buf := nth i (i_bufs s) buf0.
Definition upd_buf (i : nat) (f : buf -> buf) (s : ide P) : ide P :=
  set_i_bufs (<[i := f (buf_at s i)]> (i_bufs s)) s.

(** The sleeplock of buffer [i] with the process table. *)
Definition buf_lock_lens (i : nat) : lens (ide P) (sleeplock * P) :=
  Lens (fun s => (b_lock (buf_at s i), i_proc s))
    (fun lp s => set_i_proc lp.2 (upd_buf i (set_b_lock lp.1) s)).

Definition disk_block (d : disk_hist (Z * Z)) (dev sector : Z) : block :=
  hist_block d (dev, sector).

(** Start the request for [b]: the registers select the sector, the command is
    issued, and for a write the data is sent along ([outsl]). One sector holds one
    block, so the single-sector commands are used. *)
Definition idestart (b : option nat) : M (ide P) unit :=
  match b with
  | None => panic "idestart"
  | Some i =>
    let! s := get in
    let b := buf_at s i in
    if FSSIZE <=? b_blockno b then panic "incorrect blockno"
    else
      let sector := b_blockno b in
      let dev := Z.land (b_dev b) 1 in
      modify (set_i_cmd (Some (
        if has_flag (b_flags b) B_DIRTY then CmdWrite dev sector (b_data b)
        else CmdRead dev sector)))
  end.

(** The disk executes the pending command: a write reaches the disk. *)
Definition disk_complete : M (ide P) unit :=
  modify (fun s =>
    match i_cmd s with
    | Some (CmdWrite dev sector data) =>
        set_i_disk ((dev, sector, data) :: i_disk s) s
    | _ => s
    end).

(** [insl]: the data of the sector the controller was asked to read. *)
Definition insl (s : ide P) : block :=
  match i_cmd s with
  | Some (CmdRead dev sector) => disk_block (i_disk s) dev sector
  | _ => zero_block
  end.

(** Interrupt handler. [ok] is the controller's status: [idewait(1) >= 0]. *)
Definition ideintr (ok : bool) : M (ide P) unit :=
  zoom i_lock_lens spin_acquire ;;;
  let! q := gets i_queue in
  match q with
  | [] => zoom i_lock_lens spin_release
  | i :: rest =>
    modify (set_i_queue rest) ;;;
    let! s := get in
    when (negb (has_flag (b_flags (buf_at s i)) B_DIRTY) && ok)
      (modify (upd_buf i (set_b_data (insl s)))) ;;;
    modify (upd_buf i (fun b => set_b_flags (Z.lor (b_flags b) B_VALID) b)) ;;;
    modify (upd_buf i (fun b => set_b_flags (Z.ldiff (b_flags b) B_DIRTY) b)) ;;;
    modify (fun s => set_i_proc (wakeup (ChBuf i) (i_proc s)) s) ;;;
    (match rest with
     | [] => modify (set_i_cmd None)   (* the controller stays idle *)
     | j :: _ => idestart (Some j)
     end) ;;;
    zoom i_lock_lens spin_release
  end.

(** The process sleeps on [b] with [idelock] released; the next thing to happen
    is that the disk finishes the active request and interrupts. *)
Definition sleep_on_disk (ok : bool) : M (ide P) unit :=
  zoom i_lock_lens spin_release ;;;
  disk_complete ;;;
  ideintr ok ;;;
  zoom i_lock_lens spin_acquire.

(** [while((b->flags & (B_VALID|B_DIRTY)) != B_VALID) sleep(b, &idelock);] *)
Fixpoint iderw_wait (fuel : nat) (i : nat) : M (ide P) unit :=
  match fuel with
  | O => fun _ => NoFuel
  | S fuel' =>
    let! s := get in
    if Z.land (b_flags (buf_at s i)) (Z.lor B_VALID B_DIRTY) =? B_VALID then ret tt
    else sleep_on_disk true ;;; iderw_wait fuel' i
  end.

Definition iderw (i : nat) : M (ide P) unit :=
  let! held := zoom (buf_lock_lens i) holdingsleep in
  if negb held then panic "iderw: buf not locked"
  else
  let! s := get in
  if Z.land (b_flags (buf_at s i)) (Z.lor B_VALID B_DIRTY) =? B_VALID
  then panic "iderw: nothing to do"
  else if negb (b_dev (buf_at s i) =? 0) && negb (i_havedisk1 s)
  then panic "iderw: ide disk 1 not present"
  else
  zoom i_lock_lens spin_acquire ;;;
(* append b to idequeue *)
modify (fun s => set_i_queue (i_queue s ++ [i]) s) ;;;
let! q := gets i_queue in
when (match q with j :: _ => Nat.eqb j i | [] => false end) (idestart (Some i)) ;;;
let! n := gets (fun s => length (i_queue s)) in
iderw_wait (S n) i ;;;
zoom i_lock_lens spin_release.

End Ide.

(** ** What a request does when the disk is idle *)
Section IdeSpec.
Context {P : Type} `{ProcIface P}.

(** No request is queued and nobody holds [idelock]. *)
Definition ide_idle (s : ide P) : Prop := i_lock s = false /\ i_queue s = [].

(** [b] as [iderw] leaves it, and the disk after it. *)
Definition synced_buf (d : disk_hist (Z * Z)) (b : buf) : buf :=
  set_b_flags B_VALID
    (if has_flag (b_flags b) B_DIRTY then b
     else set_b_data (disk_block d (Z.land (b_dev b) 1) (b_blockno b)) b).
Definition synced_disk (d : disk_hist (Z * Z)) (b : buf) : disk_hist (Z * Z) :=
  if has_flag (b_flags b) B_DIRTY
  then (Z.land (b_dev b) 1, b_blockno b, b_data b) :: d else d.

Definition iderw_done (i : nat) (s : ide P) : ide P :=
  let b := buf_at s i in
  Ide (wakeup (ChBuf i) (i_proc s)) false [] (i_havedisk1 s)
    (<[i := synced_buf (i_disk s) b]> (i_bufs s)) (synced_disk (i_disk s) b) None.

(** The flag words a buffer can have. *)
Definition flags_ok (b : buf) : Prop :=
  b_flags b = 0 \/ b_flags b = B_VALID \/ b_flags b = B_DIRTY \/
  b_flags b = Z.lor B_VALID B_DIRTY.

Lemma buf_at_insert (p : P) l q h bufs i x d c : (i < length bufs)%nat ->
  buf_at (Ide p l q h (<[i := x]> bufs) d c) i = x.
Proof. intros Hi. unfold buf_at. simpl. by apply nth_insert_eq. Qed.

Lemma buf_lock_same i (s : ide P) :
  lset (buf_lock_lens i) (b_lock (buf_at s i), i_proc s) s = s.
Proof.
  destruct s as [p l q h bufs d c]. simpl. unfold upd_buf, set_i_proc, set_i_bufs, buf_at.
  simpl. f_equal. etrans; [|apply (insert_nth bufs i buf0)].
  by destruct (nth i bufs buf0).
Qed.

(** One sleep of [iderw] when [i] is the only request: the disk serves it. *)
Lemma sleep_on_disk_eq i (p : P) h bufs d b :
  (i < length bufs)%nat -> nth i bufs buf0 = b -> flags_ok b -> b_flags b <> B_VALID ->
  sleep_on_disk true (Ide p true [i] h bufs d (Some (
    if has_flag (b_flags b) B_DIRTY
    then CmdWrite (Z.land (b_dev b) 1) (b_blockno b) (b_data b)
    else CmdRead (Z.land (b_dev b) 1) (b_blockno b))))
  = Ret tt (Ide (wakeup (ChBuf i) p) true [] h (<[i := synced_buf d b]> bufs)
      (synced_disk d b) None).
Proof.
  intros Hi Hb Hf Hnv. destruct b as [fl dev bno lk rc data].
  unfold sleep_on_disk, disk_complete, ideintr.
  erewrite run_bind_zoom; [|reflexivity]. mrun.
  destruct Hf as [Hf|[Hf|[Hf|Hf]]]; simpl in Hf; try done; subst fl; simpl.
  all: erewrite run_bind_zoom; [|reflexivity]; mrun; simpl; mrun.
  all: unfold buf_at; simpl; rewrite Hb; simpl; mrun.
  all: unfold upd_buf, buf_at, set_i_bufs; simpl.
  all: rewrite ?Hb, ?nth_insert_eq by (rewrite ?length_insert; done); simpl; mrun.
  all: erewrite run_bind_zoom; [|reflexivity]; simpl.
  all: unfold set_i_bufs, set_i_proc, set_i_lock, set_i_cmd, zoom; simpl.
  all: rewrite ?nth_insert_eq by (rewrite ?length_insert; done); simpl.
  all: by rewrite !list_insert_insert_eq.
Qed.

Lemma iderw_eq (i : nat) (s : ide P) :
  ide_idle s -> (i < length (i_bufs s))%nat ->
  b_lock (buf_at s i) = sl_held (cur_pid (i_proc s)) ->
  b_flags (buf_at s i) <> B_VALID -> flags_ok (buf_at s i) ->
  (b_dev (buf_at s i) = 0 \/ i_havedisk1 s = true) ->
  b_blockno (buf_at s i) < FSSIZE ->
  iderw i s = Ret tt (iderw_done i s).
Proof.
  intros [Hl Hq] Hi Hlk Hnv Hf Hdev Hbn. unfold iderw.
  erewrite (run_bind_zoom (buf_lock_lens i)); [|apply holdingsleep_eq; by rewrite Hlk].
  rewrite buf_lock_same, Hlk. cbn [sl_held sl_locked sl_pid].
  rewrite Z.eqb_refl. cbn [negb andb]. mrun.
  destruct (Z.eqb_spec (Z.land (b_flags (buf_at s i)) (Z.lor B_VALID B_DIRTY)) B_VALID) as [E|_].
  { destruct Hf as [Hf|[Hf|[Hf|Hf]]]; rewrite Hf in E, Hnv; done. }
  destruct (negb (b_dev (buf_at s i) =? 0) && negb (i_havedisk1 s)) eqn:Hd.
  { destruct Hdev as [E|E]; rewrite E in Hd; simpl in Hd; [done|].
    by rewrite andb_false_r in Hd. }
  destruct s as [p l q h bufs d c]. simpl in Hl, Hq, Hi, Hd, Hlk |- *. subst l q.
  erewrite run_bind_zoom; [|reflexivity]. mrun. simpl. rewrite Nat.eqb_refl.
  unfold idestart. mrun. unfold buf_at in *; simpl in *.
  destruct (Z.leb_spec FSSIZE (b_blockno (nth i bufs buf0))); [lia|].
  mrun. cbn [iderw_wait length]. mrun.
  unfold set_i_cmd, set_i_queue, set_i_lock, buf_at; simpl.
  destruct (Z.eqb_spec (Z.land (b_flags (nth i bufs buf0)) (Z.lor B_VALID B_DIRTY)) B_VALID) as [E|_].
  { destruct Hf as [Hf|[Hf|[Hf|Hf]]]; rewrite Hf in E, Hnv; done. }
  mrun. erewrite bind_eq; [|by apply sleep_on_disk_eq].
  mrun. unfold buf_at; simpl. by rewrite nth_insert_eq.
Qed.
End IdeSpec.
#[global] Arguments iderw : simpl never.
