(* ===== verification/Bio.v ===== *)
(** * The buffer cache: bio.c

    The doubly linked list through [prev]/[next] is kept as the list [bc_lru] of
    buffer indices from [head.next] (most recently used) to [head.prev]; unlinking
    and relinking at the head are list operations. *)
From S2P Require Import Prelude Param Iface Sleeplock Ide.

Record bio (P : Type) := Bio {
  bc_ide : ide P;
  bc_lock : bool;
  bc_lru : list nat
}.
Arguments Bio {P}.
Arguments bc_ide {P}.
Arguments bc_lock {P}.
Arguments bc_lru {P}.
Definition set_bc_ide {P : Type} (v : ide P) (s : bio P) : bio P :=
  Bio v (bc_lock s) (bc_lru s).
Definition set_bc_lock {P : Type} (v : bool) (s : bio P) : bio P :=
  Bio (bc_ide s) v (bc_lru s).
Definition set_bc_lru {P : Type} (v : list nat) (s : bio P) : bio P :=
  Bio (bc_ide s) (bc_lock s) v.

(** The first index of the list for which the test holds. *)
Fixpoint scan (f : nat -> bool) (l : list nat) : option nat :=
  match l with
  | [] => None
  | i :: l => if f i then Some i else scan f l
  end.

Section Bio.
Context {P : Type} `{ProcIface P}.

Definition bc_ide_lens : lens (bio P) (ide P) := Lens bc_ide set_bc_ide.
Definition bc_lock_lens : lens (bio P) bool := Lens bc_lock set_bc_lock.

(** [&bcache.buf[i]] and its update. *)
Definition bbuf (s : bio P) (i : nat) : buf := buf_at (bc_ide s) i.
Definition upd_bbuf (i : nat) (f : buf -> buf) (s : bio P) : bio P :=
  set_bc_ide (upd_buf i f (bc_ide s)) s.
Definition buf_sleep {A} (i : nat) (m : M (sleeplock * P) A) : M (bio P) A :=
  zoom bc_ide_lens (zoom (buf_lock_lens i) m).

(** The loop of [binit]: each buffer is linked in at the head. *)
Fixpoint binit_loop (n : nat) (b : nat) (lru : list nat) : list nat :=
  match n with
  | O => lru
  | S n' => binit_loop n' (S b) (b :: lru)
  end.
Definition binit : M (bio P) unit :=
  modify (set_bc_lock false) ;;;
  modify (fun s => set_bc_ide (set_i_bufs
    (set_b_lock initsleeplock <$> i_bufs (bc_ide s)) (bc_ide s)) s) ;;;
  modify (set_bc_lru (binit_loop NBUF 0 [])).

Definition is_block (s : bio P) (dev blockno : Z) (i : nat) : bool :=
  (b_dev (bbuf s i) =? dev) && (b_blockno (bbuf s i) =? blockno).
Definition is_unused (s : bio P) (i : nat) : bool :=
  (b_refcnt (bbuf s i) =? 0) && negb (has_flag (b_flags (bbuf s i)) B_DIRTY).

(** Look through the cache for the block; otherwise recycle the least recently
    used buffer that is neither referenced nor dirty. Returns a locked buffer. *)
Definition bget (dev blockno : Z) : M (bio P) nat :=
  zoom bc_lock_lens spin_acquire ;;;
  let! s := get in
  match scan (is_block s dev blockno) (bc_lru s) with
  | Some i =>
    modify (upd_bbuf i (fun b => set_b_refcnt (u32 (b_refcnt b + 1)) b)) ;;;
    zoom bc_lock_lens spin_release ;;;
    buf_sleep i (acquiresleep i) ;;;
    ret i
  | None =>
    match scan (is_unused s) (reverse (bc_lru s)) with
    | Some i =>
      modify (upd_bbuf i (set_b_dev dev)) ;;;
      modify (upd_bbuf i (set_b_blockno blockno)) ;;;
      modify (upd_bbuf i (set_b_flags 0)) ;;;
      modify (upd_bbuf i (set_b_refcnt 1)) ;;;
      zoom bc_lock_lens spin_release ;;;
      buf_sleep i (acquiresleep i) ;;;
      ret i
    | None => panic "bget: no buffers"
    end
  end.

Definition bread (dev blockno : Z) : M (bio P) nat :=
  let! i := bget dev blockno in
  let! s := get in
  when (Z.land (b_flags (bbuf s i)) B_VALID =? 0) (zoom bc_ide_lens (iderw i)) ;;;
  ret i.

Definition bwrite (i : nat) : M (bio P) unit :=
  let! held := buf_sleep i holdingsleep in
  if negb held then panic "bwrite"
  else
  modify (upd_bbuf i (fun b => set_b_flags (Z.lor (b_flags b) B_DIRTY) b)) ;;;
  zoom bc_ide_lens (iderw i).

(** Unlink [i] and relink it after the head. *)
Definition move_to_front (i : nat) (lru : list nat) : list nat :=
  i :: filter (fun j => j <> i) lru.

Definition brelse (i : nat) : M (bio P) unit :=
  let! held := buf_sleep i holdingsleep in
  if negb held then panic "brelse"
  else
  buf_sleep i (releasesleep i) ;;;
  zoom bc_lock_lens spin_acquire ;;;
  modify (upd_bbuf i (fun b => set_b_refcnt (u32 (b_refcnt b - 1)) b)) ;;;
  let! s := get in
  when (b_refcnt (bbuf s i) =? 0) (modify (set_bc_lru (move_to_front i (bc_lru s)))) ;;;
  zoom bc_lock_lens spin_release.

(** [b->data] read and replaced by the code holding [b]. *)
Definition bdata (i : nat) : M (bio P) block := gets (fun s => b_data (bbuf s i)).
Definition set_bdata (i : nat) (d : block) : M (bio P) unit :=
  modify (upd_bbuf i (set_b_data d)).
End Bio.

(** ** The sequential contract of the cache

    One process uses the cache; [held] are the buffers it has locked. *)
Section BioSpec.
Context {P : Type} `{ProcIface P}.

Abbreviation bufs s := (i_bufs (bc_ide s)).
Abbreviation disk s := (i_disk (bc_ide s)).
Abbreviation pid s := (cur_pid (i_proc (bc_ide s))).

(** A cached block: clean ones agree with the disk, and only buffers that hold
    a block of the device can be dirty. *)
Definition buf_clean (d : disk_hist (Z * Z)) (b : buf) : Prop :=
  b_flags b = B_VALID -> b_data b = disk_block d ROOTDEV (b_blockno b).

Record buf_inv (p : Z) (d : disk_hist (Z * Z)) (held : bool) (b : buf) : Prop := {
  bi_flags : (b_flags b = 0 /\ b_dev b = 0) \/
    (b_dev b = ROOTDEV /\ 0 <= b_blockno b < FSSIZE /\
      (b_flags b = B_VALID \/ b_flags b = Z.lor B_VALID B_DIRTY));
  bi_clean : held = false -> buf_clean d b;
  bi_len : block_ok (b_data b);
  bi_held : b_lock b = (if held then sl_held p else sl_free) /\
    b_refcnt b = (if held then 1 else 0) /\ (held = true -> b_dev b = ROOTDEV)
}.

Record bio_inv (s : bio P) (held : gset nat) : Prop := {
  inv_idle : ide_idle (bc_ide s);
  inv_lock : bc_lock s = false;
  inv_disk1 : i_havedisk1 (bc_ide s) = true;
  inv_nbuf : length (bufs s) = NBUF;
  inv_hist : Forall (fun e => block_ok e.2) (disk s);
  inv_lru : NoDup (bc_lru s) /\ forall i, i ∈ bc_lru s <-> (i < length (bufs s))%nat;
  inv_buf : forall i b, bufs s !! i = Some b ->
    buf_inv (pid s) (disk s) (bool_decide (i ∈ held)) b;
  inv_uniq : forall i j bi bj, bufs s !! i = Some bi -> bufs s !! j = Some bj ->
    b_dev bi = ROOTDEV -> b_dev bj = ROOTDEV -> b_blockno bi = b_blockno bj -> i = j
}.

(** What a reader of block [bn] sees: the cached copy if there is one. *)
Definition bview (s : bio P) (bn : Z) : block :=
  match scan (is_block s ROOTDEV bn) (bc_lru s) with
  | Some i => b_data (bbuf s i)
  | None => disk_block (disk s) ROOTDEV bn
  end.

(** Blocks pinned in the cache by [log_write]. *)
Definition pinned (s : bio P) (bn : Z) : Prop :=
  exists i b, bufs s !! i = Some b /\ b_dev b = ROOTDEV /\ b_blockno b = bn /\
    b_flags b = Z.lor B_VALID B_DIRTY.

Lemma hist_block_ok (d : disk_hist (Z * Z)) k :
  Forall (fun e => block_ok e.2) d -> block_ok (hist_block d k).
Proof.
  induction d as [|[k' b] d IH]; simpl; [done|].
  intros [Hb Hd]%Forall_cons. case_decide; auto.
Qed.

Lemma scan_Some f l i : scan f l = Some i -> i ∈ l /\ f i = true.
Proof.
  induction l as [|j l IH]; simpl; [done|]. destruct (f j) eqn:E.
  - intros [= ->]. split; [left|done].
  - intros Hs. destruct (IH Hs). split; [by right|done].
Qed.

Lemma scan_None f l i : scan f l = None -> i ∈ l -> f i = false.
Proof.
  induction l as [|j l IH]; simpl; [by intros _ ?%elem_of_nil|].
  destruct (f j) eqn:E; [done|]. intros Hs [->|Hi]%elem_of_cons; auto.
Qed.

Lemma bbuf_lookup (s : bio P) i b : bufs s !! i = Some b -> bbuf s i = b.
Proof. intros Hi. unfold bbuf, buf_at. by apply nth_lookup_Some. Qed.

Lemma bbuf_lookup_lt (s : bio P) i : (i < length (bufs s))%nat ->
  bufs s !! i = Some (bbuf s i).
Proof.
  intros Hi. destruct (lookup_lt_is_Some_2 (bufs s) i Hi) as [b Hb].
  by rewrite (bbuf_lookup _ _ _ Hb).
Qed.

(** The block is in the cache exactly when the scan finds its buffer. *)
Lemma scan_block (s : bio P) held bn i b : bio_inv s held ->
  bufs s !! i = Some b -> b_dev b = ROOTDEV -> b_blockno b = bn ->
  scan (is_block s ROOTDEV bn) (bc_lru s) = Some i.
Proof.
  intros Hi Hb Hd Hbn. pose proof (inv_lru _ _ Hi) as [_ Hlru].
  assert (Hin : i ∈ bc_lru s) by (apply Hlru; eauto using lookup_lt_Some).
  destruct (scan (is_block s ROOTDEV bn) (bc_lru s)) as [j|] eqn:E.
  - apply scan_Some in E as [Hj Hf]. apply Hlru in Hj.
    apply bbuf_lookup_lt in Hj. unfold is_block in Hf.
    f_equal. eapply (inv_uniq _ _ Hi); eauto; lia.
  - apply (scan_None _ _ i) in E; [|done]. unfold is_block in E.
    rewrite (bbuf_lookup _ _ _ Hb), Hd, Hbn, !Z.eqb_refl in E. done.
Qed.

Lemma bview_cached (s : bio P) held bn i b : bio_inv s held ->
  bufs s !! i = Some b -> b_dev b = ROOTDEV -> b_blockno b = bn ->
  bview s bn = b_data b.
Proof.
  intros Hi Hb Hd Hbn. unfold bview. erewrite scan_block by done.
  by rewrite (bbuf_lookup _ _ _ Hb).
Qed.

(** Nothing cached for [bn]. *)
Definition uncached (s : bio P) (bn : Z) : Prop :=
  forall i b, bufs s !! i = Some b -> b_dev b = ROOTDEV -> b_blockno b <> bn.

Lemma bview_uncached (s : bio P) held bn : bio_inv s held ->
  uncached s bn -> scan (is_block s ROOTDEV bn) (bc_lru s) = None /\
  bview s bn = disk_block (disk s) ROOTDEV bn.
Proof.
  intros Hi Hu. unfold bview.
  destruct (scan _ _) as [i|] eqn:E; [|done].
  apply scan_Some in E as [Hj Hf]. apply (inv_lru _ _ Hi) in Hj.
  apply bbuf_lookup_lt in Hj. unfold is_block in Hf.
  exfalso. apply (Hu _ _ Hj); lia.
Qed.

Lemma bview_dec (s : bio P) held bn : bio_inv s held ->
  uncached s bn \/ exists i b, bufs s !! i = Some b /\ b_dev b = ROOTDEV /\ b_blockno b = bn.
Proof.
  intros Hi. destruct (scan (is_block s ROOTDEV bn) (bc_lru s)) as [i|] eqn:E.
  - right. apply scan_Some in E as [Hj Hf]. apply (inv_lru _ _ Hi) in Hj.
    apply bbuf_lookup_lt in Hj. unfold is_block in Hf. exists i, (bbuf s i). split; [done|lia].
  - left. intros i b Hb Hd Hbn. erewrite scan_block in E by done. done.
Qed.

(** The view is determined by the buffers and the disk, not by the LRU order. *)
Lemma bview_eq (s s' : bio P) held held' bn : bio_inv s held -> bio_inv s' held' ->
  (forall d, (exists i b, bufs s !! i = Some b /\ b_dev b = ROOTDEV /\ b_blockno b = bn /\ b_data b = d) ->
    bview s' bn = d) ->
  (uncached s bn -> bview s' bn = disk_block (disk s) ROOTDEV bn) ->
  bview s' bn = bview s bn.
Proof.
  intros Hi Hi' Hc Hu. destruct (bview_dec s held bn Hi) as [Hn|(i & b & Hb & Hd & Hbn)].
  - rewrite Hu by done. symmetry. by eapply bview_uncached.
  - rewrite (bview_cached s held bn i b) by done. apply Hc. eauto 10.
Qed.

(** ** The operations as state updates *)

(** Store [b] in slot [i]; and what a wakeup does to the rest. *)
Definition put_buf (i : nat) (b : buf) (s : bio P) : bio P := upd_bbuf i (fun _ => b) s.
Definition wake (i : chan) (s : bio P) : bio P :=
  set_bc_ide (set_i_proc (wakeup i (i_proc (bc_ide s))) (bc_ide s)) s.

Lemma upd_put i f (s : bio P) : upd_bbuf i f s = put_buf i (f (bbuf s i)) s.
Proof. done. Qed.

Lemma bbuf_put i b (s : bio P) : (i < length (bufs s))%nat -> bbuf (put_buf i b s) i = b.
Proof. intros Hi. unfold bbuf, put_buf, upd_bbuf, upd_buf, buf_at. by apply nth_insert_eq. Qed.

Lemma put_put i b b' (s : bio P) : put_buf i b (put_buf i b' s) = put_buf i b s.
Proof.
  unfold put_buf, upd_bbuf, upd_buf, set_bc_ide, set_i_bufs. simpl.
  by rewrite list_insert_insert_eq.
Qed.

Lemma put_same i (s : bio P) : put_buf i (bbuf s i) s = s.
Proof.
  destruct s as [[] ? ?]. unfold put_buf, upd_bbuf, upd_buf, set_bc_ide, set_i_bufs, bbuf, buf_at.
  simpl. by rewrite insert_nth.
Qed.

Lemma len_put i b (s : bio P) : length (bufs (put_buf i b s)) = length (bufs s).
Proof. apply length_insert. Qed.

Lemma run_acquiresleep i (s : bio P) : b_lock (bbuf s i) = sl_free ->
  buf_sleep i (acquiresleep i) s =
  Ret tt (upd_bbuf i (set_b_lock (sl_held (pid s))) s).
Proof.
  intros Hl. unfold buf_sleep, zoom. simpl. unfold bbuf in Hl. rewrite Hl.
  rewrite acquiresleep_free by done. simpl. by destruct s as [[] ? ?].
Qed.

Lemma run_holdingsleep i (s : bio P) : b_lock (bbuf s i) = sl_held (pid s) ->
  buf_sleep i holdingsleep s = Ret true s.
Proof.
  intros Hl. unfold buf_sleep, bbuf in *. erewrite zoom_eq.
  2: { erewrite zoom_eq; [|apply holdingsleep_eq; simpl; by rewrite Hl].
       rewrite buf_lock_same. cbn [lget bc_ide_lens]. rewrite Hl. simpl.
       by rewrite Z.eqb_refl. }
  by destruct s.
Qed.

Lemma run_releasesleep i (s : bio P) : sl_lk (b_lock (bbuf s i)) = false ->
  buf_sleep i (releasesleep i) s =
  Ret tt (wake (ChSleepLock i) (upd_bbuf i (set_b_lock sl_free) s)).
Proof.
  intros Hl. unfold buf_sleep, zoom. simpl. rewrite releasesleep_eq by done. done.
Qed.

Lemma run_block_lock (s : bio P) {B} (k : unit -> M (bio P) B) : bc_lock s = false ->
  bind (zoom bc_lock_lens spin_acquire) k s = k tt (set_bc_lock true s).
Proof. intros Hl. erewrite run_bind_zoom; [done|]. simpl. by rewrite Hl. Qed.

Lemma run_block_unlock (s : bio P) {B} (k : unit -> M (bio P) B) : bc_lock s = true ->
  bind (zoom bc_lock_lens spin_release) k s = k tt (set_bc_lock false s).
Proof. intros Hl. erewrite run_bind_zoom; [done|]. simpl. by rewrite Hl. Qed.

Lemma put_lock i b l (s : bio P) : put_buf i b (set_bc_lock l s) = set_bc_lock l (put_buf i b s).
Proof. done. Qed.
Lemma bbuf_lock i l (s : bio P) : bbuf (set_bc_lock l s) i = bbuf s i.
Proof. done. Qed.
Lemma lock_lock l l' (s : bio P) : set_bc_lock l (set_bc_lock l' s) = set_bc_lock l s.
Proof. done. Qed.
Lemma lock_same (s : bio P) : bc_lock s = false -> set_bc_lock false s = s.
Proof. destruct s; simpl. by intros ->. Qed.

(** [b] referenced once more and locked by [p]. *)
Definition taken (p : Z) (b : buf) : buf :=
  set_b_lock (sl_held p) (set_b_refcnt (u32 (b_refcnt b + 1)) b).

(** A buffer recycled for block [bn]. *)
Definition recycled (p bn : Z) (b : buf) : buf :=
  set_b_lock (sl_held p) (set_b_refcnt 1 (set_b_flags 0
    (set_b_blockno bn (set_b_dev ROOTDEV b)))).

Lemma bget_hit i bn (s : bio P) held : bio_inv s held ->
  scan (is_block s ROOTDEV bn) (bc_lru s) = Some i -> i ∉ held ->
  bget ROOTDEV bn s = Ret i (put_buf i (taken (pid s) (bbuf s i)) s).
Proof.
  intros Hi Hs Hh. unfold bget. rewrite run_block_lock by apply Hi. mrun.
  change (scan (is_block (set_bc_lock true s) ROOTDEV bn) (bc_lru (set_bc_lock true s)))
    with (scan (is_block s ROOTDEV bn) (bc_lru s)). rewrite Hs. mrun.
  apply scan_Some in Hs as [Hin _]. apply (inv_lru _ _ Hi) in Hin.
  pose proof (bbuf_lookup_lt _ _ Hin) as Hb. apply (inv_buf _ _ Hi) in Hb as Hbi.
  rewrite run_block_unlock by done.
  rewrite upd_put, bbuf_lock, put_lock, lock_lock.
  rewrite (lock_same (put_buf _ _ _)) by apply Hi.
  erewrite bind_eq; [|apply run_acquiresleep].
  2: { rewrite bbuf_put by done. simpl. destruct Hbi as [_ _ _ [-> _]].
       by rewrite bool_decide_eq_false_2. }
  rewrite upd_put, bbuf_put, put_put by done. done.
Qed.

Lemma bget_miss i bn (s : bio P) held : bio_inv s held -> uncached s bn ->
  scan (is_unused s) (reverse (bc_lru s)) = Some i ->
  bget ROOTDEV bn s = Ret i (put_buf i (recycled (pid s) bn (bbuf s i)) s).
Proof.
  intros Hi Hu Hs. unfold bget. rewrite run_block_lock by apply Hi. mrun.
  change (scan (is_block (set_bc_lock true s) ROOTDEV bn) (bc_lru (set_bc_lock true s)))
    with (scan (is_block s ROOTDEV bn) (bc_lru s)).
  change (scan (is_unused (set_bc_lock true s)) (reverse (bc_lru (set_bc_lock true s))))
    with (scan (is_unused s) (reverse (bc_lru s))).
  destruct (bview_uncached s held bn Hi Hu) as [-> _]. rewrite Hs. mrun.
  apply scan_Some in Hs as [Hin Hun]. rewrite elem_of_reverse in Hin.
  apply (inv_lru _ _ Hi) in Hin. pose proof (bbuf_lookup_lt _ _ Hin) as Hb.
  apply (inv_buf _ _ Hi) in Hb as [_ _ _ (Hlk & Hrc & _)].
  unfold is_unused in Hun. rewrite Hrc in Hun.
  destruct (bool_decide (i ∈ held)); [done|].
  rewrite run_block_unlock by done.
  rewrite !upd_put, !bbuf_put, !bbuf_lock by (rewrite ?len_put; done).
  rewrite !put_put, put_lock, lock_lock.
  rewrite (lock_same (put_buf _ _ _)) by apply Hi.
  erewrite bind_eq; [|apply run_acquiresleep; by rewrite bbuf_put].
  by rewrite upd_put, bbuf_put, put_put by done.
Qed.

(** ** The invariant is preserved *)

Lemma lookup_put i j b (s : bio P) : (i < length (bufs s))%nat ->
  bufs (put_buf i b s) !! j = if decide (i = j) then Some b else bufs s !! j.
Proof.
  intros Hi. change (bufs (put_buf i b s)) with (<[i:=b]> (bufs s)).
  destruct (decide (i = j)) as [<-|]; [by apply list_lookup_insert_eq|].
  by apply list_lookup_insert_ne.
Qed.

Lemma put_inv i b (s : bio P) held held' : bio_inv s held -> (i < length (bufs s))%nat ->
  buf_inv (pid s) (disk s) (bool_decide (i ∈ held')) b ->
  (forall j, j <> i -> j ∈ held' <-> j ∈ held) ->
  (forall j bj, j <> i -> bufs s !! j = Some bj -> b_dev b = ROOTDEV ->
    b_dev bj = ROOTDEV -> b_blockno bj <> b_blockno b) ->
  bio_inv (put_buf i b s) held'.
Proof.
  intros Hi Hlen Hb Hh Hu.
  assert (Hl := fun j => lookup_put i j b s Hlen).
  split; try apply Hi.
  - simpl. rewrite length_insert. apply Hi.
  - simpl. rewrite length_insert. apply Hi.
  - intros j bj. rewrite Hl. destruct (decide (i = j)) as [<-|E].
    + by intros [= <-].
    + intros Hj. apply (inv_buf _ _ Hi) in Hj.
      by rewrite (bool_decide_ext _ (j ∈ held)) by (apply Hh; done).
  - intros j k bj bk. rewrite !Hl.
    destruct (decide (i = j)) as [<-|E1], (decide (i = k)) as [<-|E2];
      intros H1 H2 ? ? E; simplify_eq; try done.
    + exfalso. by eapply (Hu k bk); eauto.
    + exfalso. by eapply (Hu j bj); eauto.
    + by eapply (inv_uniq _ _ Hi).
Qed.

(** What [bread] promises about its result. *)
Record bread_post (bn : Z) (s : bio P) (held : gset nat) (i : nat) (s' : bio P) : Prop := {
  br_inv : bio_inv s' ({[i]} ∪ held);
  br_new : i ∉ held;
  br_buf : exists b, bufs s' !! i = Some b /\ b_dev b = ROOTDEV /\ b_blockno b = bn /\
    b_data b = bview s bn;
  br_view : forall k, bview s' k = bview s k;
  br_disk : disk s' = disk s;
  br_pid : pid s' = pid s;
  br_pinned : forall k, pinned s' k <-> pinned s k;
  br_frame : forall j b, j ∈ held -> bufs s !! j = Some b -> bufs s' !! j = Some b
}.

(** Replacing a slot that holds no block the view or the pinned set depends on. *)
Lemma view_put i b (s : bio P) held held' :
  bio_inv s held -> bio_inv (put_buf i b s) held' -> (i < length (bufs s))%nat ->
  b_dev b = ROOTDEV ->
  (b_dev (bbuf s i) = ROOTDEV -> b_blockno (bbuf s i) <> b_blockno b ->
    b_data (bbuf s i) = disk_block (disk s) ROOTDEV (b_blockno (bbuf s i))) ->
  b_data b = bview s (b_blockno b) ->
  forall k, bview (put_buf i b s) k = bview s k.
Proof.
  intros Hi Hi' Hlen Hdev Hold Hnew k.
  destruct (decide (k = b_blockno b)) as [->|Hk].
  { rewrite <-Hnew. eapply (bview_cached _ _ _ i); [done| |done|done].
    rewrite lookup_put by done. by rewrite decide_True. }
  apply (bview_eq s _ held held' k Hi Hi').
  - intros d (j & bj & Hj & Hdj & Hkj & Hd). destruct (decide (i = j)) as [->|Hne].
    + assert (bbuf s j = bj) as Eb by by apply bbuf_lookup.
      subst bj. rewrite <-Hd, Hold, Hkj by congruence.
      refine (proj2 (bview_uncached _ held' _ Hi' _)).
      intros l bl. rewrite lookup_put by done. case_decide; intros Hl Hdl Hkl; simplify_eq.
      by pose proof (inv_uniq _ _ Hi j l _ _ Hj Hl Hdj Hdl ltac:(congruence)).
    + rewrite <-Hd. eapply (bview_cached _ _ _ j); [done| |done|done].
      by rewrite lookup_put, decide_False.
  - intros Hu. refine (proj2 (bview_uncached _ held' _ Hi' _)).
    intros l bl. rewrite lookup_put by done. case_decide; intros Hl Hdl; simplify_eq; [done|].
    by eapply Hu.
Qed.

Lemma lru_range (s : bio P) held i : bio_inv s held ->
  i ∈ bc_lru s -> (i < length (bufs s))%nat.
Proof. intros Hi. apply (inv_lru _ _ Hi). Qed.

Lemma pinned_put i b (s : bio P) k : (i < length (bufs s))%nat ->
  (b_flags (bbuf s i) <> Z.lor B_VALID B_DIRTY \/ b_dev (bbuf s i) <> ROOTDEV) ->
  (b_flags b <> Z.lor B_VALID B_DIRTY) ->
  pinned (put_buf i b s) k <-> pinned s k.
Proof.
  intros Hi Hold Hnew. unfold pinned.
  split; intros (j & bj & Hj & Hd & Hk & Hf).
  - rewrite lookup_put in Hj by done.
    destruct (decide (i = j)); [by simplify_eq|]. eauto 10.
  - exists j, bj. rewrite lookup_put by done.
    destruct (decide (i = j)) as [<-|]; [|done].
    apply bbuf_lookup in Hj. subst bj. naive_solver.
Qed.

Lemma bread_hit_post i bn (s : bio P) held : bio_inv s held ->
  scan (is_block s ROOTDEV bn) (bc_lru s) = Some i -> i ∉ held ->
  bread ROOTDEV bn s = Ret i (put_buf i (taken (pid s) (bbuf s i)) s) /\
  bread_post bn s held i (put_buf i (taken (pid s) (bbuf s i)) s).
Proof.
  intros Hi Hs Hh. pose proof (bget_hit i bn s held Hi Hs Hh) as Hg.
  apply scan_Some in Hs as [Hin Hb]. apply (lru_range _ _ _ Hi) in Hin as Hlen.
  pose proof (bbuf_lookup_lt _ _ Hlen) as Hl. pose proof (inv_buf _ _ Hi _ _ Hl) as [Hf Hc Hln (Hlk & Hrc & _)].
  rewrite bool_decide_eq_false_2 in Hlk, Hrc by done.
  unfold is_block in Hb. assert (Hdev : b_dev (bbuf s i) = ROOTDEV) by lia.
  assert (Hbn : b_blockno (bbuf s i) = bn) by lia.
  destruct Hf as [[_ Hf]|(_ & Hr & Hf)]; [by rewrite Hdev in Hf|].
  set (b := taken (pid s) (bbuf s i)).
  assert (Hinv : bio_inv (put_buf i b s) ({[i]} ∪ held)).
  { apply (put_inv i b s held); [done|done| |set_solver|].
    - rewrite bool_decide_eq_true_2 by set_solver. subst b. unfold taken.
      split; simpl; [right; done|done|done|]. rewrite Hrc. done.
    - intros j bj Hj Hbj _ Hdj Hbnj. apply Hj.
      by apply (inv_uniq _ _ Hi j i bj (bbuf s i)). }
  split.
  - unfold bread. erewrite bind_eq by done. mrun. rewrite bbuf_put by done.
    subst b. simpl. replace (Z.land (b_flags (bbuf s i)) B_VALID =? 0) with false
      by (by destruct Hf as [->| ->]).
    mrun. done.
  - split; try done.
    + exists b. rewrite lookup_put, decide_True by done. split; [done|].
      split; [done|]. split; [done|]. symmetry. by apply (bview_cached s held bn i (bbuf s i)).
    + apply (view_put i b s held ({[i]} ∪ held)); try done; subst b; simpl.
      symmetry. by apply (bview_cached s held _ i (bbuf s i)).
    + intros k. subst b. unfold pinned, taken.
      split; intros (j & bj & Hj & Hd & Hk & Hfj).
      * rewrite lookup_put in Hj by done. destruct (decide (i = j)); [|by eauto 10].
        simplify_eq. simpl in *. eauto 10.
      * destruct (decide (i = j)) as [<-|Hne].
        -- eexists i, _. rewrite lookup_put, decide_True by done. split; [done|].
           apply bbuf_lookup in Hj. by subst bj.
        -- exists j, bj. by rewrite lookup_put, decide_False.
    + intros j bj Hj Hbj. rewrite lookup_put, decide_False by (done || set_solver). done.
Qed.

(** [iderw] inside the cache. *)
Lemma run_iderw i (s : bio P) : ide_idle (bc_ide s) -> (i < length (bufs s))%nat ->
  b_lock (bbuf s i) = sl_held (pid s) -> b_flags (bbuf s i) <> B_VALID ->
  flags_ok (bbuf s i) -> i_havedisk1 (bc_ide s) = true -> b_blockno (bbuf s i) < FSSIZE ->
  zoom bc_ide_lens (iderw i) s = Ret tt (set_bc_ide (iderw_done i (bc_ide s)) s).
Proof.
  intros. rewrite (zoom_eq bc_ide_lens _ s tt (iderw_done i (bc_ide s))); [done|].
  apply iderw_eq; auto.
Qed.

(** Everything but the buffers and the disk: what [iderw]'s wakeup and the
    controller's going idle leave alone. *)
Lemma bio_inv_ide (s s' : bio P) held : bio_inv s held ->
  bufs s' = bufs s -> disk s' = disk s -> pid s' = pid s -> bc_lru s' = bc_lru s ->
  bc_lock s' = false -> i_havedisk1 (bc_ide s') = true -> ide_idle (bc_ide s') ->
  bio_inv s' held.
Proof.
  intros Hi Hb Hd Hp Hl Hk Hh Hid. split; try done; rewrite ?Hb, ?Hd, ?Hp, ?Hl; apply Hi.
Qed.

Lemma bview_ide (s s' : bio P) k : bufs s' = bufs s -> disk s' = disk s ->
  bc_lru s' = bc_lru s -> bview s' k = bview s k.
Proof.
  intros Hb Hd Hl. unfold bview, is_block, bbuf, buf_at. by rewrite Hb, Hd, Hl.
Qed.

Lemma bread_miss_post i bn (s : bio P) held : bio_inv s held -> 0 <= bn < FSSIZE ->
  uncached s bn -> scan (is_unused s) (reverse (bc_lru s)) = Some i ->
  exists s', bread ROOTDEV bn s = Ret i s' /\ bread_post bn s held i s'.
Proof.
  intros Hi Hr Hu Hs. pose proof (bget_miss i bn s held Hi Hu Hs) as Hg.
  apply scan_Some in Hs as [Hin Hun]. rewrite elem_of_reverse in Hin.
  apply (lru_range _ _ _ Hi) in Hin as Hlen.
  pose proof (bbuf_lookup_lt _ _ Hlen) as Hl. pose proof (inv_buf _ _ Hi _ _ Hl) as [Hf Hc Hln (Hlk & Hrc & _)].
  assert (Hh : i ∉ held).
  { intros Hh. rewrite bool_decide_eq_true_2 in Hrc by done.
    unfold is_unused in Hun. by rewrite Hrc in Hun. }
  unfold is_unused in Hun. apply andb_true_iff in Hun as [_ Hnd].
  set (b := recycled (pid s) bn (bbuf s i)) in *.
  set (b' := synced_buf (disk s) b).
  assert (Eb' : b' = synced_buf (disk s) b) by done.
  assert (Hb' : b_flags b' = B_VALID /\ b_data b' = disk_block (disk s) ROOTDEV bn /\
    b_dev b' = ROOTDEV /\ b_blockno b' = bn /\ b_lock b' = sl_held (pid s) /\ b_refcnt b' = 1)
    by (by subst b' b).
  clearbody b'. destruct Hb' as (H1 & H2 & H3 & H4 & H5 & H6).
  assert (Hinv : bio_inv (put_buf i b' s) ({[i]} ∪ held)).
  { apply (put_inv i b' s held); [done|done| |set_solver|].
    - rewrite bool_decide_eq_true_2 by set_solver.
      split; rewrite ?H1, ?H3, ?H4, ?H5, ?H6; try done; [right; auto|].
      rewrite H2. apply hist_block_ok, Hi.
    - intros j bj Hj Hbj _ Hdj. rewrite H4. by eapply Hu. }
  set (s' := set_bc_ide (iderw_done i (bc_ide (put_buf i b s))) s).
  assert (E : bread ROOTDEV bn s = Ret i s').
  { unfold bread. erewrite bind_eq by done. mrun. rewrite bbuf_put by done.
    change (Z.land (b_flags b) B_VALID =? 0) with true. mrun.
    erewrite bind_eq; [|apply run_iderw; rewrite ?bbuf_put, ?len_put by done]; try done.
    - apply Hi.
    - by left.
    - apply Hi.
    - subst b. simpl. lia. }
  assert (Hs' : bufs s' = bufs (put_buf i b' s) /\ disk s' = disk s /\ bc_lru s' = bc_lru s /\
    pid s' = pid s).
  { subst s'. simpl. unfold buf_at. simpl. rewrite nth_insert_eq by done.
    rewrite list_insert_insert_eq, cur_pid_wakeup. by rewrite Eb'. }
  destruct Hs' as (Eb & Ed & El & Ep).
  exists s'. split; [done|]. split.
  - apply (bio_inv_ide (put_buf i b' s)); try done; apply Hi.
  - done.
  - exists b'. rewrite Eb, lookup_put, decide_True by done.
    destruct (bview_uncached s held bn Hi Hu) as [_ ->]. auto.
  - intros k. rewrite (bview_ide (put_buf i b' s) s') by done.
    apply (view_put i b' s held ({[i]} ∪ held)); try done.
    + intros Hd _. destruct Hf as [[_ Hf]|(_ & _ & [Hf|Hf])]; [by rewrite Hd in Hf| |].
      * apply Hc; [by apply bool_decide_eq_false|done].
      * by rewrite Hf in Hnd.
    + rewrite H4, H2. symmetry. by eapply bview_uncached.
  - done.
  - done.
  - intros k. rewrite <-(pinned_put i b' s k); [unfold pinned; by rewrite Eb|done| |by rewrite H1].
    left. intros E'. by rewrite E' in Hnd.
  - intros j bj Hj Hbj. rewrite Eb, lookup_put, decide_False by (done || set_solver). done.
Qed.

(** ** The other operations, on a buffer that is held *)

(** Buffer [i] is held and holds block [bn]. *)
Record holds_block (s : bio P) (i : nat) (bn : Z) (b : buf) : Prop := {
  hb_lookup : bufs s !! i = Some b;
  hb_dev : b_dev b = ROOTDEV;
  hb_no : b_blockno b = bn;
  hb_range : 0 <= bn < FSSIZE;
  hb_flags : b_flags b = B_VALID \/ b_flags b = Z.lor B_VALID B_DIRTY;
  hb_lock : b_lock b = sl_held (pid s);
  hb_ref : b_refcnt b = 1;
  hb_ok : block_ok (b_data b)
}.

Lemma held_buf (s : bio P) held i b : bio_inv s held -> i ∈ held ->
  bufs s !! i = Some b -> holds_block s i (b_blockno b) b.
Proof.
  intros Hi Hh Hb. destruct (inv_buf _ _ Hi _ _ Hb) as [Hf _ Hl Hk].
  rewrite bool_decide_eq_true_2 in Hk by done. destruct Hk as (Hlk & Hrc & Hd).
  destruct Hf as [[_ Hf]|(Hd' & Hr & Hf)]; [by rewrite Hd in Hf|].
  by split.
Qed.

Lemma hb_bbuf s i bn b : holds_block s i bn b -> bbuf s i = b /\ (i < length (bufs s))%nat.
Proof. intros Hb. split; [apply bbuf_lookup, Hb|eapply lookup_lt_Some, Hb]. Qed.

Lemma hb_len s i bn b : holds_block s i bn b -> (i < length (bufs s))%nat.
Proof. apply hb_bbuf. Qed.

(** Replacing a held buffer by one for the same block changes the view of that
    block only. *)
Lemma view_put_same i bn b b' (s : bio P) held held' :
  bio_inv s held -> bio_inv (put_buf i b' s) held' -> holds_block s i bn b ->
  b_dev b' = ROOTDEV -> b_blockno b' = bn ->
  forall k, bview (put_buf i b' s) k = if decide (k = bn) then b_data b' else bview s k.
Proof.
  intros Hi Hi' Hb Hd Hbn k. destruct (hb_bbuf _ _ _ _ Hb) as [Eb Hlen].
  case_decide as Hk.
  { subst k. eapply (bview_cached _ _ _ i); [done| |done|done].
    by rewrite lookup_put, decide_True. }
  apply (bview_eq s _ held held' k Hi Hi').
  - intros d (j & bj & Hj & Hdj & Hkj & <-).
    assert (i <> j). { intros <-. apply bbuf_lookup in Hj. destruct Hb. congruence. }
    eapply (bview_cached _ _ _ j); [done| |done|done].
    by rewrite lookup_put, decide_False.
  - intros Hu. refine (proj2 (bview_uncached _ held' _ Hi' _)).
    intros l bl. rewrite lookup_put by done. case_decide; intros Hl Hdl; simplify_eq; [done|].
    by eapply Hu.
Qed.

(** Replacing a held buffer by one for the same block. *)
Lemma put_held_inv i bn b b' (s : bio P) held : bio_inv s held -> i ∈ held ->
  holds_block s i bn b -> b_dev b' = ROOTDEV -> b_blockno b' = bn ->
  (b_flags b' = B_VALID \/ b_flags b' = Z.lor B_VALID B_DIRTY) ->
  b_lock b' = b_lock b -> b_refcnt b' = b_refcnt b -> block_ok (b_data b') ->
  bio_inv (put_buf i b' s) held.
Proof.
  intros Hi Hh Hb Hd Hbn Hf Hl Hr Hok. destruct (hb_bbuf _ _ _ _ Hb) as [Eb Hlen].
  destruct Hb as [H1 H2 H3 H4 H5 H6 H7 H8].
  apply (put_inv i b' s held held); [done|done| |done|].
  - rewrite bool_decide_eq_true_2 by done. split; [right; split; [done|]|done|done|].
    + by rewrite Hbn.
    + by rewrite Hl, Hr, H6, H7.
  - intros j bj Hj Hbj _ Hdj E. apply Hj. eapply (inv_uniq _ _ Hi); eauto. congruence.
Qed.

Lemma run_bwrite i bn b (s : bio P) held : bio_inv s held -> i ∈ held ->
  holds_block s i bn b ->
  exists s', bwrite i s = Ret tt s' /\
    bufs s' = bufs (put_buf i (set_b_flags B_VALID b) s) /\
    disk s' = (ROOTDEV, bn, b_data b) :: disk s /\
    bc_lru s' = bc_lru s /\ bc_lock s' = false /\ pid s' = pid s /\
    i_havedisk1 (bc_ide s') = true /\ ide_idle (bc_ide s').
Proof.
  intros Hi Hh Hb. destruct (hb_bbuf _ _ _ _ Hb) as [Eb Hlen].
  destruct Hb as [H1 H2 H3 H4 H5 H6 H7 H8]. unfold bwrite.
  erewrite bind_eq by (apply run_holdingsleep; rewrite Eb, H6; done).
  simpl. mrun. rewrite upd_put, Eb.
  set (bd := set_b_flags _ b).
  assert (Hfd : b_flags bd = Z.lor B_VALID B_DIRTY) by (by subst bd; destruct H5 as [E|E]; simpl; rewrite E).
  eexists. split.
  { rewrite run_iderw; rewrite ?len_put, ?bbuf_put by done; try done; try apply Hi.
    - by rewrite Hfd.
    - right. right. by right.
    - subst bd. simpl. lia. }
  simpl. unfold buf_at. simpl. rewrite nth_insert_eq by done.
  unfold synced_buf, synced_disk. rewrite Hfd, list_insert_insert_eq, cur_pid_wakeup.
  subst bd. simpl. rewrite H2, H3. split; [by destruct b|].
  split; [done|]. split; [done|]. split; [apply Hi|]. split; [done|]. split; [apply Hi|done].
Qed.

Lemma disk_block_cons d bn (x : block) k :
  disk_block ((ROOTDEV, bn, x) :: d) ROOTDEV k = if decide (k = bn) then x else disk_block d ROOTDEV k.
Proof.
  unfold disk_block. simpl. destruct (decide (k = bn)) as [->|Hk].
  - by rewrite decide_True.
  - by rewrite decide_False by congruence.
Qed.

Lemma bwrite_spec i bn b (s : bio P) held : bio_inv s held -> i ∈ held ->
  holds_block s i bn b ->
  exists s', bwrite i s = Ret tt s' /\ bio_inv s' held /\
    bufs s' = bufs (put_buf i (set_b_flags B_VALID b) s) /\
    (forall k, bview s' k = bview s k) /\
    disk s' = (ROOTDEV, bn, bview s bn) :: disk s /\ pid s' = pid s.
Proof.
  intros Hi Hh Hb. destruct (run_bwrite i bn b s held Hi Hh Hb) as
    (s' & E & Eb & Ed & El & Ek & Ep & Eh & Eidle).
  assert (Hv : bview s bn = b_data b) by (eapply (bview_cached s held bn i); [done|apply Hb..]).
  assert (Hinv : bio_inv (put_buf i (set_b_flags B_VALID b) s) held).
  { eapply (put_held_inv i bn b); [done..| | | | | | | ]; try apply Hb; try done. by left. }
  exists s'. split; [done|]. assert (Hi' : bio_inv s' held).
  { split; rewrite ?Eb, ?Ed, ?El, ?Ep; try done; try apply Hinv.
    - constructor; [apply Hb|apply Hi].
    - intros j bj Hj. destruct (inv_buf _ _ Hinv _ _ Hj) as [Q1 Q2 Q3 Q4]. split; try done.
      intros Hjh Hf. rewrite Q2, disk_block_cons by done. destruct (decide (b_blockno bj = bn)) as [E'|E']; [|done].
      exfalso. apply bool_decide_eq_false in Hjh. apply Hjh. rewrite <-(inv_uniq _ _ Hinv i j (set_b_flags B_VALID b) bj); try done.
      + rewrite lookup_put, decide_True; [done|done|by eapply hb_len].
      + apply Hb.
      + destruct Q1 as [[F _]|(F & _)]; [by rewrite Hf in F|done].
      + simpl. rewrite E'. apply Hb. }
  split; [done|]. split; [done|]. split; [|by rewrite Hv].
  intros k. destruct (bview_dec s held k Hi) as [Hu|(j & bj & Hj & Hdj & Hk)].
  - assert (Hu' : uncached s' k).
    { intros j bj. rewrite Eb, lookup_put by (by eapply hb_len).
      case_decide; intros Hj Hd; [|by eapply Hu]. simplify_eq. simpl. eapply Hu; apply Hb. }
    destruct (bview_uncached _ _ _ Hi Hu) as [_ ->], (bview_uncached _ _ _ Hi' Hu') as [_ ->].
    rewrite Ed, disk_block_cons, decide_False; [done|]. intros ->.
    eapply Hu; apply Hb.
  - assert (Hlen : (i < length (bufs s))%nat) by (by eapply hb_len).
    assert (Hj' : bufs s' !! j = Some (if decide (i = j) then set_b_flags B_VALID b else bj)).
    { rewrite Eb, lookup_put by done. by case_decide. }
    rewrite (bview_cached s held k j bj) by done.
    destruct (decide (i = j)) as [<-|Hne]; [|by apply (bview_cached s' held k j bj)].
    assert (bj = b) as -> by (apply hb_lookup in Hb; congruence).
    by apply (bview_cached s' held k i (set_b_flags B_VALID b)).
Qed.

(** ** [brelse] *)

Lemma move_to_front_elem i l j : i ∈ l -> j ∈ move_to_front i l <-> j ∈ l.
Proof.
  intros Hi. unfold move_to_front. rewrite elem_of_cons, list_elem_of_filter.
  destruct (decide (j = i)) as [->|]; naive_solver.
Qed.

Lemma move_to_front_nodup i l : NoDup l -> NoDup (move_to_front i l).
Proof.
  intros Hn. unfold move_to_front. constructor; [|by apply NoDup_filter].
  rewrite list_elem_of_filter. by intros [? _].
Qed.

Definition released (b : buf) : buf := set_b_refcnt 0 (set_b_lock sl_free b).

Lemma run_brelse i bn b (s : bio P) held : bio_inv s held -> holds_block s i bn b ->
  exists s', brelse i s = Ret tt s' /\
    bufs s' = bufs (put_buf i (released b) s) /\ disk s' = disk s /\
    bc_lru s' = move_to_front i (bc_lru s) /\ bc_lock s' = false /\ pid s' = pid s /\
    i_havedisk1 (bc_ide s') = true /\ ide_idle (bc_ide s').
Proof.
  intros Hi Hb. destruct (hb_bbuf _ _ _ _ Hb) as [Eb Hlen].
  destruct Hb as [H1 H2 H3 H4 H5 H6 H7 H8]. unfold brelse.
  erewrite bind_eq by (apply run_holdingsleep; rewrite Eb, H6; done).
  simpl. mrun.
  erewrite bind_eq by (apply run_releasesleep; rewrite Eb, H6; done).
  rewrite upd_put, Eb. set (t := wake _ _).
  assert (Ht : bbuf t i = set_b_lock sl_free b) by (by apply bbuf_put).
  assert (Hlt : (i < length (bufs t))%nat) by (by rewrite <-(len_put i (set_b_lock sl_free b) s) in Hlen).
  rewrite run_block_lock by apply Hi. mrun.
  rewrite !upd_put, !bbuf_lock, put_lock, !bbuf_lock, bbuf_put, Ht by done.
  simpl. rewrite H7. simpl. mrun.
  eexists. split; [by erewrite zoom_eq by done|]. simpl.
  rewrite list_insert_insert_eq, cur_pid_wakeup.
  do 5 (split; [done|]). split; apply Hi.
Qed.

Lemma brelse_spec i bn b (s : bio P) held : bio_inv s held -> i ∈ held ->
  holds_block s i bn b ->
  (b_flags b = Z.lor B_VALID B_DIRTY \/ b_data b = disk_block (disk s) ROOTDEV bn) ->
  exists s', brelse i s = Ret tt s' /\ bio_inv s' (held ∖ {[i]}) /\
    bufs s' = bufs (put_buf i (released b) s) /\
    (forall k, bview s' k = bview s k) /\ disk s' = disk s /\ pid s' = pid s.
Proof.
  intros Hi Hh Hb Hc. destruct (run_brelse i bn b s held Hi Hb) as
    (s' & E & Eb & Ed & El & Ek & Ep & Eh & Eidle).
  destruct (hb_bbuf _ _ _ _ Hb) as [Ebb Hlen].
  assert (Hinv : bio_inv (put_buf i (released b) s) (held ∖ {[i]})).
  { destruct Hb as [H1 H2 H3 H4 H5 H6 H7 H8].
    eapply (put_inv i _ s held); [done|done| |set_solver|].
    - rewrite bool_decide_eq_false_2 by set_solver. split; simpl; try done.
      + right. by rewrite H3.
      + intros _ Hf. simpl in *. destruct Hc as [Hc|Hc]; [by rewrite Hf in Hc|by rewrite Hc, H3].
    - intros j bj Hj Hbj _ Hdj E'. apply Hj. eapply (inv_uniq _ _ Hi); eauto. }
  assert (Hlru : forall j, j ∈ bc_lru s' <-> j ∈ bc_lru s).
  { intros j. rewrite El. apply move_to_front_elem, (inv_lru _ _ Hi), Hlen. }
  assert (Hi' : bio_inv s' (held ∖ {[i]})).
  { split; rewrite ?Eb, ?Ed, ?Ep; try done; try apply Hinv. split.
    - rewrite El. apply move_to_front_nodup, Hi.
    - intros j. rewrite Hlru. apply Hinv. }
  exists s'. split; [done|]. split; [done|]. split; [done|]. split; [|done].
  intros k. assert (Hvp : bview (put_buf i (released b) s) k = bview s k).
  { rewrite (view_put_same i bn b (released b) s held (held ∖ {[i]})) by
      (done || by destruct Hb).
    destruct (decide (k = bn)) as [->|]; [|done]. symmetry.
    by apply (bview_cached s held _ i b); destruct Hb. }
  rewrite <-Hvp.
  apply (bview_eq _ s' (held ∖ {[i]}) (held ∖ {[i]})); [done|done| |].
  - intros d (j & bj & Hj & Hdj & Hkj & <-).
    eapply (bview_cached _ _ _ j); [done| |done|done]. by rewrite Eb.
  - intros Hu. rewrite (proj2 (bview_uncached s' _ k Hi' ltac:(intros ??; rewrite Eb; apply Hu))).
    by rewrite Ed.
Qed.
End BioSpec.

(** ** The cache implements the block interface *)
Section BioIface.
Context {P : Type} `{ProcIface P}.

Abbreviation bufs s := (i_bufs (bc_ide s)).
Abbreviation disk s := (i_disk (bc_ide s)).

#[global] Program Instance bio_proc : ProcIface (bio P) := {
  cur_pid s := cur_pid (i_proc (bc_ide s));
  cur_killed s := cur_killed (i_proc (bc_ide s));
  wakeup c s := wake c s
}.
Next Obligation. intros c s. apply cur_pid_wakeup. Qed.
Next Obligation. intros c s. apply cur_killed_wakeup. Qed.

#[global] Instance bio_ops : BlockOps (bio P) := {
  blk_read := bread;
  blk_write := bwrite;
  blk_release := brelse;
  blk_data s i := b_data (bbuf s i);
  blk_no s i := b_blockno (bbuf s i);
  blk_set_data := set_bdata;
  blk_dirty i := modify (upd_bbuf i (fun b => set_b_flags (Z.lor (b_flags b) B_DIRTY) b))
}.

Definition bio_ok (s : bio P) (h : gmap nat Z) : Prop :=
  bio_inv s (dom h) /\
  forall i bn, h !! i = Some bn -> exists b, bufs s !! i = Some b /\ b_blockno b = bn.

Definition is_pinned (b : buf) : Prop :=
  b_dev b = ROOTDEV /\ b_flags b = Z.lor B_VALID B_DIRTY.
#[global] Instance is_pinned_dec b : Decision (is_pinned b) := _.
Definition bio_pin (s : bio P) : gset Z :=
  list_to_set (b_blockno <$> filter is_pinned (bufs s)).

(** The writes to the root device. *)
Definition root_write (e : Z * Z * block) : option (Z * block) :=
  if decide (e.1.1 = ROOTDEV) then Some (e.1.2, e.2) else None.
Definition bio_hist (s : bio P) : disk_hist Z := omap root_write (disk s).

Lemma bio_hist_block s k : hist_block (bio_hist s) k = disk_block (disk s) ROOTDEV k.
Proof.
  unfold bio_hist, disk_block, omap. induction (disk s) as [|[[dev n] d] l IH]; [done|].
  cbn [list_omap]. unfold root_write at 1. simpl.
  destruct (decide (dev = ROOTDEV)) as [->|Hd]; simpl.
  - rewrite IH. destruct (decide (n = k)) as [->|].
    + by rewrite decide_True.
    + by rewrite decide_False by congruence.
  - by rewrite decide_False by congruence.
Qed.

Lemma elem_of_pin s k : k ∈ bio_pin s <-> pinned s k.
Proof.
  unfold bio_pin, pinned. rewrite elem_of_list_to_set, list_elem_of_fmap. split.
  - intros (b & -> & [[Hd Hf] Hb]%list_elem_of_filter).
    apply list_elem_of_lookup in Hb as [i Hb]. eauto 10.
  - intros (i & b & Hb & Hd & Hk & Hf). exists b. split; [done|].
    apply list_elem_of_filter. split; [by split|]. by eapply list_elem_of_lookup_2.
Qed.

Lemma bio_pin_eq s s' : (forall k, pinned s' k <-> pinned s k) -> bio_pin s' = bio_pin s.
Proof. intros Hk. apply set_eq. intros k. by rewrite !elem_of_pin. Qed.

Lemma bio_ok_held s h i bn : bio_ok s h -> h !! i = Some bn ->
  i ∈ dom h /\ exists b, holds_block s i bn b.
Proof.
  intros [Hi Hb] Hh. destruct (Hb _ _ Hh) as (b & Hl & <-).
  assert (i ∈ dom h) by (by eapply elem_of_dom_2). split; [done|].
  exists b. by eapply held_buf.
Qed.

(** Every busy buffer has a block of its own, so while fewer than [NBUF] blocks
    are pinned or held [bget] finds a buffer to recycle. *)
Lemma unused_exists s h : bio_ok s h ->
  (size (bio_pin s ∪ map_img h : gset Z) < NBUF)%nat ->
  exists i, scan (is_unused s) (reverse (bc_lru s)) = Some i.
Proof.
  intros [Hi Hh] Hsz. destruct (scan _ _) as [i|] eqn:E; [eauto|]. exfalso.
  assert (Hbusy : forall i b, bufs s !! i = Some b ->
    b_dev b = ROOTDEV /\ b_blockno b ∈ (bio_pin s ∪ map_img h : gset Z)).
  { intros i b Hb. assert (Hlen := lookup_lt_Some _ _ _ Hb).
    assert (Hin : i ∈ reverse (bc_lru s)) by (apply elem_of_reverse, (inv_lru _ _ Hi), Hlen).
    apply (scan_None _ _ _ E) in Hin. unfold is_unused in Hin.
    rewrite (bbuf_lookup _ _ _ Hb) in Hin.
    destruct (inv_buf _ _ Hi _ _ Hb) as [Hf _ _ (_ & Hrc & Hd)].
    destruct (decide (i ∈ dom h)) as [Hd'|Hd'].
    - rewrite bool_decide_eq_true_2 in Hd by done. split; [by apply Hd|].
      apply elem_of_dom in Hd' as [bn Hbn]. destruct (Hh _ _ Hbn) as (b' & Hb' & <-).
      simplify_eq. apply elem_of_union_r, elem_of_map_img. eauto.
    - rewrite bool_decide_eq_false_2 in Hrc by done. rewrite Hrc in Hin. simpl in Hin.
      destruct Hf as [[Hf _]|(Hdev & _ & [Hf|Hf])]; [by rewrite Hf in Hin..|].
      split; [done|]. apply elem_of_union_l, elem_of_pin. unfold pinned. eauto 10. }
  assert (Hnd : NoDup (b_blockno <$> bufs s)).
  { apply NoDup_alt. intros i j bn. rewrite !list_lookup_fmap_Some.
    intros (bi & -> & H1) (bj & E2 & H2).
    eapply (inv_uniq _ _ Hi); eauto; by eapply Hbusy. }
  assert (Hsub : (list_to_set (b_blockno <$> bufs s) : gset Z) ⊆ bio_pin s ∪ map_img h).
  { intros bn. rewrite elem_of_list_to_set, list_elem_of_fmap.
    intros (b & -> & [i Hb]%list_elem_of_lookup). by eapply Hbusy. }
  apply subseteq_size in Hsub. rewrite size_list_to_set, length_fmap in Hsub by done.
  rewrite (inv_nbuf _ _ Hi) in Hsub. lia.
Qed.

(** [bread] returns the block, locked, whether it was cached or not. *)
Lemma bread_spec bn (s : bio P) h : bio_ok s h -> 0 <= bn < FSSIZE ->
  (forall i, h !! i <> Some bn) ->
  bn ∈ bio_pin s \/ (size (bio_pin s ∪ map_img h : gset Z) < NBUF)%nat ->
  exists i s', bread ROOTDEV bn s = Ret i s' /\ bread_post bn s (dom h) i s'.
Proof.
  intros Hok Hr Hn Hroom. pose proof Hok as [Hi Hh].
  destruct (bview_dec s (dom h) bn Hi) as [Hu|(i & b & Hb & Hd & Hbn)].
  - destruct Hroom as [Hp|Hsz].
    { apply elem_of_pin in Hp as (i & b & Hb & Hd & Hk & _). by destruct (Hu _ _ Hb). }
    destruct (unused_exists s h Hok Hsz) as [i Hs]. exists i.
    by apply (bread_miss_post i bn s (dom h)).
  - eexists i, _. apply bread_hit_post; [done|by eapply scan_block|].
    intros [bn' Hd']%elem_of_dom. destruct (Hh _ _ Hd') as (b' & Hb' & Hbn').
    simplify_eq. by apply (Hn i).
Qed.

Lemma bio_ok_frame s s' h h' : bio_ok s h -> bio_inv s' (dom h') ->
  (forall i bn, h' !! i = Some bn -> exists b, bufs s' !! i = Some b /\ b_blockno b = bn) ->
  bio_ok s' h'.
Proof. by split. Qed.

(** A held buffer replaced by one for the same block. *)
Lemma bio_ok_put i bn b b' s h : bio_ok s h -> h !! i = Some bn -> holds_block s i bn b ->
  bio_inv (put_buf i b' s) (dom h) -> b_blockno b' = bn -> bio_ok (put_buf i b' s) h.
Proof.
  intros [Hi Hh] Hl Hb Hinv Hbn. split; [done|]. intros j bj Hj.
  rewrite lookup_put by (by eapply hb_len).
  destruct (decide (i = j)) as [<-|]; [|by apply Hh]. simplify_eq. eauto.
Qed.

Lemma set_bdata_spec i bn d s h : bio_ok s h -> h !! i = Some bn -> block_ok d ->
  exists s', set_bdata i d s = Ret tt s' /\ bio_ok s' h /\
    (forall k, bview s' k = if decide (k = bn) then d else bview s k) /\
    bio_hist s' = bio_hist s /\ bio_pin s' = bio_pin s /\ cur_pid s' = cur_pid s.
Proof.
  intros Hok Hh Hd. destruct (bio_ok_held _ _ _ _ Hok Hh) as [Hdom [b Hb]].
  pose proof Hok as [Hi _]. pose proof (hb_len _ _ _ _ Hb) as Hlen.
  pose proof Hb as [H1 H2 H3 H4 H5 H6 H7 H8].
  assert (Hinv : bio_inv (put_buf i (set_b_data d b) s) (dom h))
    by (by eapply put_held_inv).
  exists (put_buf i (set_b_data d b) s). split.
  { unfold set_bdata, modify. by rewrite upd_put, (proj1 (hb_bbuf _ _ _ _ Hb)). }
  split; [by eapply bio_ok_put|]. split; [by eapply view_put_same|].
  split; [done|]. split; [|done]. apply bio_pin_eq. intros k. unfold pinned.
  split; intros (j & bj & Hj & Hdj & Hk & Hf).
  - rewrite lookup_put in Hj by done. destruct (decide (i = j)) as [<-|]; [|eauto 10].
    simplify_eq. eauto 10.
  - destruct (decide (i = j)) as [<-|].
    + exists i, (set_b_data d b). rewrite lookup_put, decide_True by done. by simplify_eq.
    + exists j, bj. by rewrite lookup_put, decide_False by done.
Qed.

Lemma dirty_spec i bn s h : bio_ok s h -> h !! i = Some bn ->
  exists s', blk_dirty i s = Ret tt s' /\ bio_ok s' h /\
    (forall k, bview s' k = bview s k) /\
    bio_hist s' = bio_hist s /\ bio_pin s' = {[bn]} ∪ bio_pin s /\ cur_pid s' = cur_pid s.
Proof.
  intros Hok Hh. destruct (bio_ok_held _ _ _ _ Hok Hh) as [Hdom [b Hb]].
  pose proof Hok as [Hi _]. pose proof (hb_len _ _ _ _ Hb) as Hlen.
  pose proof Hb as [H1 H2 H3 H4 H5 H6 H7 H8].
  set (b' := set_b_flags (Z.lor (b_flags b) B_DIRTY) b).
  assert (Hf' : b_flags b' = Z.lor B_VALID B_DIRTY)
    by (subst b'; simpl; by destruct H5 as [->| ->]).
  assert (Hinv : bio_inv (put_buf i b' s) (dom h))
    by (eapply put_held_inv; try done; by right).
  exists (put_buf i b' s). split.
  { simpl. unfold modify. by rewrite upd_put, (proj1 (hb_bbuf _ _ _ _ Hb)). }
  split; [by eapply bio_ok_put|]. split.
  { intros k. rewrite (view_put_same i bn b b' s (dom h) (dom h)) by done.
    destruct (decide (k = bn)) as [->|]; [|done]. symmetry.
    by apply (bview_cached s (dom h) _ i b). }
  split; [done|]. split; [|done]. apply set_eq. intros k.
  rewrite elem_of_union, elem_of_singleton, !elem_of_pin. unfold pinned. split.
  - intros (j & bj & Hj & Hdj & Hk & Hf). rewrite lookup_put in Hj by done.
    destruct (decide (i = j)) as [<-|]; [|eauto 10]. simplify_eq. by left.
  - intros [->|(j & bj & Hj & Hdj & Hk & Hf)].
    + exists i, b'. by rewrite lookup_put, decide_True by done.
    + destruct (decide (i = j)) as [<-|].
      * exists i, b'. rewrite lookup_put, decide_True by done. by simplify_eq.
      * exists j, bj. by rewrite lookup_put, decide_False by done.
Qed.

Lemma bwrite_law i bn s h : bio_ok s h -> h !! i = Some bn ->
  exists s', bwrite i s = Ret tt s' /\ bio_ok s' h /\
    (forall k, bview s' k = bview s k) /\
    bio_hist s' = (bn, bview s bn) :: bio_hist s /\
    bio_pin s' = bio_pin s ∖ {[bn]} /\ cur_pid s' = cur_pid s.
Proof.
  intros Hok Hh. destruct (bio_ok_held _ _ _ _ Hok Hh) as [Hdom [b Hb]].
  pose proof Hok as [Hi Hb'].
  destruct (bwrite_spec i bn b s (dom h) Hi Hdom Hb) as (s' & E & Hinv & Eb & Hv & Ed & Ep).
  pose proof (hb_len _ _ _ _ Hb) as Hlen. pose proof Hb as [H1 H2 H3 H4 H5 H6 H7 H8].
  exists s'. split; [done|]. split.
  { split; [done|]. intros j bj Hj. rewrite Eb, lookup_put by done.
    destruct (decide (i = j)) as [<-|]; [|by apply Hb']. simplify_eq. eauto. }
  split; [done|]. split; [by unfold bio_hist; rewrite Ed|]. split; [|done].
  apply set_eq. intros k. rewrite elem_of_difference, elem_of_singleton, !elem_of_pin.
  unfold pinned. rewrite Eb. split.
  - intros (j & bj & Hj & Hdj & Hk & Hf). rewrite lookup_put in Hj by done.
    destruct (decide (i = j)) as [<-|Hne]; [by simplify_eq|]. split; [eauto 10|].
    intros ->. apply Hne. eapply (inv_uniq _ _ Hi); eauto. congruence.
  - intros [(j & bj & Hj & Hdj & Hk & Hf) Hne]. exists j, bj.
    rewrite lookup_put, decide_False by (done || congruence). done.
Qed.

Lemma brelse_law i bn s h : bio_ok s h -> h !! i = Some bn ->
  (bn ∈ bio_pin s \/ bview s bn = hist_block (bio_hist s) bn) ->
  exists s', brelse i s = Ret tt s' /\ bio_ok s' (delete i h) /\
    (forall k, bview s' k = bview s k) /\
    bio_hist s' = bio_hist s /\ bio_pin s' = bio_pin s /\ cur_pid s' = cur_pid s.
Proof.
  intros Hok Hh Hc. destruct (bio_ok_held _ _ _ _ Hok Hh) as [Hdom [b Hb]].
  pose proof Hok as [Hi Hb']. pose proof (hb_len _ _ _ _ Hb) as Hlen.
  pose proof Hb as [H1 H2 H3 H4 H5 H6 H7 H8].
  assert (Hc' : b_flags b = Z.lor B_VALID B_DIRTY \/ b_data b = disk_block (disk s) ROOTDEV bn).
  { rewrite elem_of_pin, bio_hist_block, (bview_cached s (dom h) bn i b) in Hc by done.
    destruct Hc as [(j & bj & Hj & Hdj & Hk & Hf)|]; [left|by right].
    assert (i = j) as <- by (eapply (inv_uniq _ _ Hi); eauto; congruence). by simplify_eq. }
  destruct (brelse_spec i bn b s (dom h) Hi Hdom Hb Hc') as (s' & E & Hinv & Eb & Hv & Ed & Ep).
  exists s'. split; [done|]. split.
  { split; [by rewrite dom_delete_L|]. intros j bj [Hne Hj]%lookup_delete_Some.
    rewrite Eb, lookup_put, decide_False by done. by apply Hb'. }
  split; [done|]. split; [by unfold bio_hist; rewrite Ed|]. split; [|done].
  apply bio_pin_eq. intros k. unfold pinned. rewrite Eb.
  split; intros (j & bj & Hj & Hdj & Hk & Hf).
  - rewrite lookup_put in Hj by done. destruct (decide (i = j)) as [<-|]; [|eauto 10].
    simplify_eq. eauto 10.
  - destruct (decide (i = j)) as [<-|].
    + exists i, (released b). rewrite lookup_put, decide_True by done. by simplify_eq.
    + exists j, bj. by rewrite lookup_put, decide_False by done.
Qed.

#[global] Program Instance bio_laws : BlockLaws (bio P) := {
  blk_ok := bio_ok;
  blk_view := bview;
  blk_hist := bio_hist;
  blk_pin := bio_pin
}.
Next Obligation.
  intros s h k [Hi Hh]. unfold bview. destruct (scan _ _) as [i|] eqn:E.
  - apply scan_Some in E as [Hin _]. apply (lru_range _ _ _ Hi), bbuf_lookup_lt in Hin.
    by apply (inv_buf _ _ Hi) in Hin as [].
  - apply hist_block_ok, Hi.
Qed.
Next Obligation.
  intros s h i bn Hok Hh. destruct (bio_ok_held _ _ _ _ Hok Hh) as [_ [b Hb]].
  simpl. rewrite (proj1 (hb_bbuf _ _ _ _ Hb)). destruct Hb, Hok. split; [|done].
  symmetry. by eapply bview_cached.
Qed.
Next Obligation.
  intros s h k [Hi Hh] Hk Hn. rewrite bio_hist_block.
  destruct (bview_dec s (dom h) k Hi) as [Hu|(i & b & Hb & Hd & Hbn)].
  - by eapply bview_uncached.
  - rewrite (bview_cached s _ k i b Hi) by done.
    destruct (inv_buf _ _ Hi _ _ Hb) as [Hf Hc _ _].
    rewrite elem_of_pin in Hk. rewrite <-Hbn. apply Hc.
    + apply bool_decide_eq_false. intros [bn Hbn']%elem_of_dom.
      destruct (Hh _ _ Hbn') as (b' & Hb' & <-). simplify_eq. by apply (Hn i).
    + destruct Hf as [[Hf Hd']|(_ & _ & [Hf|Hf])]; [by rewrite Hd in Hd'|done|].
      destruct Hk. unfold pinned. eauto 10.
Qed.
Next Obligation.
  intros s h bn Hok Hr Hn Hroom. destruct (bread_spec bn s h Hok Hr Hn Hroom) as
    (i & s' & E & [Q1 Q2 (b & Hb & Hd & Hbn & Hdat) Q4 Q5 Q6 Q7 Q8]).
  exists i, s'. split; [done|]. split; [by apply not_elem_of_dom|]. split.
  { split; [by rewrite dom_insert_L|]. intros j bj Hj. apply lookup_insert_Some in Hj.
    destruct Hj as [[<- <-]|[Hne Hj]]; [eauto|]. destruct (proj2 Hok _ _ Hj) as (b' & Hb' & <-).
    exists b'. split; [|done]. apply Q8; [|done]. by eapply elem_of_dom_2. }
  split; [done|]. split; [by unfold bio_hist; rewrite Q5|]. split; [by apply bio_pin_eq|done].
Qed.
Next Obligation. intros. by eapply set_bdata_spec. Qed.
Next Obligation. intros. by eapply dirty_spec. Qed.
Next Obligation. intros. by eapply bwrite_law. Qed.
Next Obligation. intros. by eapply brelse_law. Qed.
Next Obligation.
  intros s h c [Hi Hh].
  assert (Hi' : bio_inv (wake c s) (dom h)).
  { apply (bio_inv_ide s); try done; simpl; try apply Hi. apply cur_pid_wakeup. }
  split; [by split|]. done.
Qed.

(** The state before [binit]: zeroed buffers, disk 1 present, its history [d]. *)
Definition bio_boot (p : P) (d : disk_hist (Z * Z)) : bio P :=
  Bio (Ide p false [] true (replicate NBUF buf0) d None) true [].

Lemma binit_ok (p : P) (d : disk_hist (Z * Z)) : Forall (fun e => block_ok e.2) d ->
  exists s, binit (bio_boot p d) = Ret tt s /\ bio_ok s ∅ /\ bio_hist s = omap root_write d /\ bio_pin s = ∅.
Proof.
  intros Hd. eexists. split; [reflexivity|].
  assert (Hb : forall i b, (set_b_lock initsleeplock <$> replicate NBUF buf0) !! i = Some b ->
    b = buf0).
  { intros i b (b' & -> & Hb')%list_lookup_fmap_Some. by apply lookup_replicate in Hb' as [-> _]. }
  split; [|split; [done|]].
  - split; [|intros i bn; by rewrite lookup_empty].
    split; cbn [bc_ide bc_lru set_bc_ide set_bc_lock set_bc_lru set_i_bufs i_bufs i_disk i_proc]; try done.
    + assert (Hperm : binit_loop NBUF 0 [] = reverse (seq 0 NBUF)) by done.
      rewrite Hperm. split; [rewrite reverse_Permutation; apply NoDup_seq|].
      intros i. rewrite length_fmap, elem_of_reverse, elem_of_seq. unfold NBUF; simpl; lia.
    + intros i b ->%Hb. rewrite bool_decide_eq_false_2 by set_solver. split; [by left|done..].
    + intros i j bi bj ->%Hb. done.
  - apply set_eq. intros k. rewrite elem_of_pin. split; [|set_solver].
    intros (i & b & ->%Hb & ? & _). done.
Qed.
End BioIface.
#[global] Arguments bread : simpl never.
#[global] Arguments bwrite : simpl never.
#[global] Arguments brelse : simpl never.
