(* ===== verification/Log.v ===== *)
(** * The log: log.c

    A transaction collects the blocks written by several system calls in the
    cache, pinned by [B_DIRTY]; [commit] copies them to the log, writes the header
    (the commit point), installs them and clears the header. The disk is reached
    only through the buffer cache's interface ([BlockOps]). *)
From S2P Require Import Prelude Param Iface.

Record log (B : Type) := Log {
  lg_b : B;
  lg_lock : bool;
  lg_start : Z;
  lg_size : Z;
  lg_outstanding : Z;
  lg_committing : Z;
  lg_dev : Z;
  lg_n : Z;
  lg_block : list Z
}.
Arguments Log {B}.
Arguments lg_b {B}.
Arguments lg_lock {B}.
Arguments lg_start {B}.
Arguments lg_size {B}.
Arguments lg_outstanding {B}.
Arguments lg_committing {B}.
Arguments lg_dev {B}.
Arguments lg_n {B}.
Arguments lg_block {B}.
Definition set_lg_b {B : Type} (v : B) (s : log B) : log B :=
  Log v (lg_lock s) (lg_start s) (lg_size s) (lg_outstanding s) (lg_committing s) (lg_dev s) (lg_n s) (lg_block s).
Definition set_lg_lock {B : Type} (v : bool) (s : log B) : log B :=
  Log (lg_b s) v (lg_start s) (lg_size s) (lg_outstanding s) (lg_committing s) (lg_dev s) (lg_n s) (lg_block s).
Definition set_lg_start {B : Type} (v : Z) (s : log B) : log B :=
  Log (lg_b s) (lg_lock s) v (lg_size s) (lg_outstanding s) (lg_committing s) (lg_dev s) (lg_n s) (lg_block s).
Definition set_lg_size {B : Type} (v : Z) (s : log B) : log B :=
  Log (lg_b s) (lg_lock s) (lg_start s) v (lg_outstanding s) (lg_committing s) (lg_dev s) (lg_n s) (lg_block s).
Definition set_lg_outstanding {B : Type} (v : Z) (s : log B) : log B :=
  Log (lg_b s) (lg_lock s) (lg_start s) (lg_size s) v (lg_committing s) (lg_dev s) (lg_n s) (lg_block s).
Definition set_lg_committing {B : Type} (v : Z) (s : log B) : log B :=
  Log (lg_b s) (lg_lock s) (lg_start s) (lg_size s) (lg_outstanding s) v (lg_dev s) (lg_n s) (lg_block s).
Definition set_lg_dev {B : Type} (v : Z) (s : log B) : log B :=
  Log (lg_b s) (lg_lock s) (lg_start s) (lg_size s) (lg_outstanding s) (lg_committing s) v (lg_n s) (lg_block s).
Definition set_lg_n {B : Type} (v : Z) (s : log B) : log B :=
  Log (lg_b s) (lg_lock s) (lg_start s) (lg_size s) (lg_outstanding s) (lg_committing s) (lg_dev s) v (lg_block s).
Definition set_lg_block {B : Type} (v : list Z) (s : log B) : log B :=
  Log (lg_b s) (lg_lock s) (lg_start s) (lg_size s) (lg_outstanding s) (lg_committing s) (lg_dev s) (lg_n s) v.

(** ** The on-disk header: [struct logheader] in a block *)

Definition hdr_n (b : block) : Z := gets32 b 0.
Definition hdr_block (b : block) (i : Z) : Z := gets32 b (4 + 4 * i).
Definition set_hdr_n (v : Z) (b : block) : block := put32 b 0 v.
Definition set_hdr_block (i v : Z) (b : block) : block := put32 b (4 + 4 * i) v.

(** [for (i = 0; i < log.lh.n; i++) log.lh.block[i] = lh->block[i];] *)
Fixpoint read_head_loop (k : nat) (i : Z) (lh : block) (dst : list Z) : list Z :=
  match k with
  | O => dst
  | S k' => read_head_loop k' (i + 1) lh (zupd dst i (hdr_block lh i))
  end.
(** [for (i = 0; i < log.lh.n; i++) hb->block[i] = log.lh.block[i];] *)
Fixpoint write_head_loop (k : nat) (i : Z) (src : list Z) (hb : block) : block :=
  match k with
  | O => hb
  | S k' => write_head_loop k' (i + 1) src (set_hdr_block i (znth src i) hb)
  end.
(** The search of [log_write]: the index at which the loop stops. *)
Fixpoint log_find (k : nat) (i : Z) (bl : list Z) (bn : Z) : Z :=
  match k with
  | O => i
  | S k' => if znth bl i =? bn then i else log_find k' (i + 1) bl bn
  end.

(** fs.c: read the super block. *)
Definition readsb {B} `{BlockOps B} (dev : Z) : M B superblock :=
  let! bp := blk_read dev 1 in
  let! sb := gets (fun s => sb_of_block (blk_data s bp)) in
  blk_release bp ;;;
  ret sb.

Section Log.
Context {B : Type} `{ProcIface B} `{BlockOps B}.

Definition lg_b_lens : lens (log B) B := Lens lg_b set_lg_b.
Definition lg_lock_lens : lens (log B) bool := Lens lg_lock set_lg_lock.
Definition log_blk {A} (m : M B A) : M (log B) A := zoom lg_b_lens m.

(** Copy committed blocks from log to their home location. *)
Fixpoint install_trans_loop (k : nat) (tail : Z) : M (log B) unit :=
  match k with
  | O => ret tt
  | S k' =>
    let! l := get in
    let! lbuf := log_blk (blk_read (lg_dev l) (lg_start l + tail + 1)) in
    let! dbuf := log_blk (blk_read (lg_dev l) (znth (lg_block l) tail)) in
    let! l' := get in
    log_blk (blk_set_data dbuf (blk_data (lg_b l') lbuf)) ;;;
    log_blk (blk_write dbuf) ;;;
    log_blk (blk_release lbuf) ;;;
    log_blk (blk_release dbuf) ;;;
    install_trans_loop k' (tail + 1)
  end.
Definition install_trans : M (log B) unit :=
  let! l := get in
  install_trans_loop (Z.to_nat (lg_n l)) 0.

(** Read the log header from disk into the in-memory log header. *)
Definition read_head : M (log B) unit :=
  let! l := get in
  let! bf := log_blk (blk_read (lg_dev l) (lg_start l)) in
  let! l := get in
  let lh := blk_data (lg_b l) bf in
  modify (set_lg_n (hdr_n lh)) ;;;
  modify (set_lg_block (read_head_loop (Z.to_nat (hdr_n lh)) 0 lh (lg_block l))) ;;;
  log_blk (blk_release bf).

(** Write in-memory log header to disk: the true point at which the transaction
    commits. *)
Definition write_head : M (log B) unit :=
  let! l := get in
  let! bf := log_blk (blk_read (lg_dev l) (lg_start l)) in
  let! l := get in
  let hb := set_hdr_n (lg_n l) (blk_data (lg_b l) bf) in
  log_blk (blk_set_data bf (write_head_loop (Z.to_nat (lg_n l)) 0 (lg_block l) hb)) ;;;
  log_blk (blk_write bf) ;;;
  log_blk (blk_release bf).

Definition recover_from_log : M (log B) unit :=
  read_head ;;;
  install_trans ;;;
  modify (set_lg_n 0) ;;;
  write_head.

(** [sizeof(struct logheader) >= BSIZE] is decided at compile time. *)
Definition initlog (dev : Z) : M (log B) unit :=
  if BSIZE <=? 4 + 4 * LOGSIZE then panic "initlog: too big logheader"
  else
  modify (set_lg_lock false) ;;;
  let! sb := log_blk (readsb dev) in
  modify (set_lg_start (sb_logstart sb)) ;;;
  modify (set_lg_size (sb_nlog sb)) ;;;
  modify (set_lg_dev dev) ;;;
  recover_from_log.

Definition log_wakeup : M (log B) unit :=
  modify (fun l => set_lg_b (wakeup ChLog (lg_b l)) l).

(** Called at the start of each FS system call. A caller that must wait sleeps on
    [&log] with the lock released, and starts the loop again when woken. *)
Definition begin_op : M (log B) unit :=
  zoom lg_lock_lens spin_acquire ;;;
  let! l := get in
  if negb (lg_committing l =? 0) then zoom lg_lock_lens spin_release ;;; asleep ChLog
  else if LOGSIZE <? lg_n l + (lg_outstanding l + 1) * MAXOPBLOCKS
  then zoom lg_lock_lens spin_release ;;; asleep ChLog
  else
    modify (set_lg_outstanding (lg_outstanding l + 1)) ;;;
    zoom lg_lock_lens spin_release.

(** Copy modified blocks from cache to log. *)
Fixpoint write_log_loop (k : nat) (tail : Z) : M (log B) unit :=
  match k with
  | O => ret tt
  | S k' =>
    let! l := get in
    let! to := log_blk (blk_read (lg_dev l) (lg_start l + tail + 1)) in
    let! from := log_blk (blk_read (lg_dev l) (znth (lg_block l) tail)) in
    let! l' := get in
    log_blk (blk_set_data to (blk_data (lg_b l') from)) ;;;
    log_blk (blk_write to) ;;;
    log_blk (blk_release from) ;;;
    log_blk (blk_release to) ;;;
    write_log_loop k' (tail + 1)
  end.
Definition write_log : M (log B) unit :=
  let! l := get in
  write_log_loop (Z.to_nat (lg_n l)) 0.

Definition commit : M (log B) unit :=
  let! l := get in
  when (0 <? lg_n l) (
    write_log ;;;
    write_head ;;;
    install_trans ;;;
    modify (set_lg_n 0) ;;;
    write_head).

(** Called at the end of each FS system call; commits if this was the last
    outstanding operation. *)
Definition end_op : M (log B) unit :=
  zoom lg_lock_lens spin_acquire ;;;
  modify (fun l => set_lg_outstanding (lg_outstanding l - 1) l) ;;;
  let! l := get in
  if negb (lg_committing l =? 0) then panic "log.committing"
  else
  let do_commit := lg_outstanding l =? 0 in
  (if do_commit then modify (set_lg_committing 1) else log_wakeup) ;;;
  zoom lg_lock_lens spin_release ;;;
  when do_commit (
    commit ;;;
    zoom lg_lock_lens spin_acquire ;;;
    modify (set_lg_committing 0) ;;;
    log_wakeup ;;;
    zoom lg_lock_lens spin_release).

(** Record the block number of [b] and pin it in the cache with [B_DIRTY];
    [commit] does the disk write. *)
Definition log_write (b : nat) : M (log B) unit :=
  let! l := get in
  if (LOGSIZE <=? lg_n l) || (lg_size l - 1 <=? lg_n l) then panic "too big a transaction"
  else if lg_outstanding l <? 1 then panic "log_write outside of trans"
  else
  zoom lg_lock_lens spin_acquire ;;;
  let! l := get in
  let bn := blk_no (lg_b l) b in
  let i := log_find (Z.to_nat (lg_n l)) 0 (lg_block l) bn in
  modify (set_lg_block (zupd (lg_block l) i bn)) ;;;
  when (i =? lg_n l) (modify (set_lg_n (lg_n l + 1))) ;;;
  log_blk (blk_dirty b) ;;;
  zoom lg_lock_lens spin_release.
End Log.

(** The process table and the block operations, seen through the log. *)
Section LogOps.
Context {B : Type} `{ProcIface B} `{BlockOps B}.

#[global] Program Instance log_proc : ProcIface (log B) := {
  cur_pid l := cur_pid (lg_b l);
  cur_killed l := cur_killed (lg_b l);
  wakeup c l := set_lg_b (wakeup c (lg_b l)) l
}.
Next Obligation. intros c l. apply cur_pid_wakeup. Qed.
Next Obligation. intros c l. apply cur_killed_wakeup. Qed.

#[global] Instance log_ops : TxnOps (log B) := {
  t_read dev bn := log_blk (blk_read dev bn);
  t_release i := log_blk (blk_release i);
  t_data l i := blk_data (lg_b l) i;
  t_set_data i d := log_blk (blk_set_data i d);
  t_write := log_write;
  t_begin := begin_op;
  t_end := end_op
}.
End LogOps.
#[global] Arguments write_log_loop : simpl never.
#[global] Arguments install_trans_loop : simpl never.
