(* ===== verification/LogSpec.v ===== *)
(** * The log over the block interface

    What the copying loops, the header and the recovery of Log.v do, in terms of
    the interface of the buffer cache ([BlockLaws]). *)
From S2P Require Import Prelude Param Iface Log.

(** ** Writes over a disk *)

(** The blocks [v] with the writes [w] on top, the latest first. *)
Fixpoint overlay (w : disk_hist Z) (v : Z -> block) (k : Z) : block :=
  match w with
  | [] => v k
  | (k', d) :: w => if decide (k' = k) then d else overlay w v k
  end.

Lemma hist_block_app w h k : hist_block (w ++ h) k = overlay w (hist_block h) k.
Proof. induction w as [|[k' d] w IH]; simpl; [done|]. by rewrite IH. Qed.

Lemma overlay_app w1 w2 v k : overlay (w1 ++ w2) v k = overlay w1 (overlay w2 v) k.
Proof. induction w1 as [|[k' d] w IH]; simpl; [done|]. by rewrite IH. Qed.

Lemma overlay_ext w v v' k : v k = v' k -> overlay w v k = overlay w v' k.
Proof. intros E. induction w as [|[k' d] w IH]; simpl; [done|]. by rewrite IH. Qed.

Lemma overlay_ne w v k : k ∉ w.*1 -> overlay w v k = v k.
Proof.
  induction w as [|[k' d] w IH]; simpl; [done|].
  rewrite not_elem_of_cons. intros [Hk Hw]. rewrite decide_False by done. auto.
Qed.

(** The write of block [st + 1 + i] of the log for each element of [ds], from index
    [tail] on, the latest first. *)
Definition slot_writes (st tail : Z) (ds : list block) : disk_hist Z :=
  reverse (imap (fun i d => (st + tail + Z.of_nat i + 1, d)) ds).

(** The writes of the blocks [bs] with contents [ds], the latest first. *)
Definition home_writes (bs : list Z) (ds : list block) : disk_hist Z :=
  reverse (zip bs ds).

Lemma slot_writes_cons st tail d ds :
  slot_writes st tail (d :: ds) = slot_writes st (tail + 1) ds ++ [(st + tail + 1, d)].
Proof.
  unfold slot_writes. rewrite imap_cons, reverse_cons. f_equal; [f_equal|].
  - apply imap_ext. intros i x _. simpl. f_equal. lia.
  - simpl. do 2 f_equal. lia.
Qed.

Lemma home_writes_cons b bs d ds :
  home_writes (b :: bs) (d :: ds) = home_writes bs ds ++ [(b, d)].
Proof. unfold home_writes. simpl. by rewrite reverse_cons. Qed.

Lemma slot_writes_dom st tail ds k : k ∈ (slot_writes st tail ds).*1 ->
  st + tail < k <= st + tail + zlen ds.
Proof.
  unfold slot_writes. rewrite fmap_reverse, elem_of_reverse, list_elem_of_fmap.
  intros ([k' d] & -> & Hin). apply list_elem_of_lookup in Hin as [i Hi].
  rewrite list_lookup_imap_Some in Hi. destruct Hi as (d' & Hd & [= -> ->]).
  apply lookup_lt_Some in Hd. unfold zlen. simpl. lia.
Qed.

Lemma overlay_slots st tail ds v i d : ds !! i = Some d ->
  overlay (slot_writes st tail ds) v (st + tail + Z.of_nat i + 1) = d.
Proof.
  revert tail i v. induction ds as [|d' ds IH]; intros tail i v; [done|].
  rewrite slot_writes_cons, overlay_app. destruct i as [|i]; simpl.
  - intros [= ->]. rewrite overlay_ne.
    + simpl. by rewrite decide_True by lia.
    + intros Hin%slot_writes_dom. lia.
  - intros Hd. replace (st + tail + Z.of_nat (S i) + 1) with (st + (tail + 1) + Z.of_nat i + 1) by lia.
    by apply IH.
Qed.

Lemma home_writes_dom bs ds k : k ∈ (home_writes bs ds).*1 -> k ∈ bs.
Proof.
  unfold home_writes. rewrite fmap_reverse, elem_of_reverse, list_elem_of_fmap.
  intros ([k' d] & -> & Hin). by apply elem_of_zip_l in Hin.
Qed.

Lemma overlay_home bs ds v i b d : NoDup bs -> bs !! i = Some b -> ds !! i = Some d ->
  overlay (home_writes bs ds) v b = d.
Proof.
  revert ds i v. induction bs as [|b' bs IH]; intros [|d' ds] i v Hn; [done..|].
  apply NoDup_cons in Hn as [Hb Hn]. rewrite home_writes_cons, overlay_app.
  destruct i as [|i]; simpl.
  - intros [= ->] [= ->]. rewrite overlay_ne.
    + simpl. by rewrite decide_True.
    + by intros ?%home_writes_dom.
  - intros Hb' Hd'. eapply IH; eauto.
Qed.

(** The header as [write_head] leaves it. *)
Definition hdr_ok (hb : block) (bs : list Z) : Prop :=
  hdr_n hb = zlen bs /\ forall i b, bs !! i = Some b -> hdr_block hb (Z.of_nat i) = b.

Lemma write_head_loop_len k i src hb : zlen (write_head_loop k i src hb) = zlen hb.
Proof.
  revert i hb. induction k as [|k IH]; intros i hb; simpl; [done|].
  rewrite IH. unfold set_hdr_block. apply zlen_put32.
Qed.

Lemma write_head_loop_get k i src hb o : 0 <= i -> 4 + 4 * (i + Z.of_nat k) <= zlen hb ->
  0 <= o ->
  get32 (write_head_loop k i src hb) (4 * o) =
  if (i + 1 <=? o) && (o <? i + 1 + Z.of_nat k) then u32 (znth src (o - 1)) else get32 hb (4 * o).
Proof.
  revert i hb. induction k as [|k IH]; intros i hb Hi Hlen Ho; cbn [write_head_loop].
  { by replace ((i + 1 <=? o) && (o <? i + 1 + Z.of_nat 0)) with false by lia. }
  unfold set_hdr_block. rewrite IH by (rewrite ?zlen_put32; lia).
  destruct (decide (o = i + 1)) as [->|Hne].
  - replace ((i + 1 + 1 <=? i + 1) && _) with false by lia.
    replace ((i + 1 <=? i + 1) && _) with true by lia.
    replace (4 * (i + 1)) with (4 + 4 * i) by lia.
    rewrite get32_put32_eq by lia. do 2 f_equal. lia.
  - replace ((i + 1 + 1 <=? o) && (o <? i + 1 + 1 + Z.of_nat k))
      with ((i + 1 <=? o) && (o <? i + 1 + Z.of_nat (S k))) by lia.
    case_match; [done|]. rewrite get32_put32_ne by lia. done.
Qed.

Definition new_header (n : Z) (bl : list Z) (old : block) : block :=
  write_head_loop (Z.to_nat n) 0 bl (set_hdr_n n old).

Lemma new_header_len n bl old : zlen (new_header n bl old) = zlen old.
Proof. unfold new_header. rewrite write_head_loop_len. apply zlen_put32. Qed.

Lemma new_header_ok n bl bs old : block_ok old -> n = zlen bs -> n <= LOGSIZE ->
  (forall i b, bs !! i = Some b -> znth bl (Z.of_nat i) = b /\ 0 <= b < 2 ^ 31) ->
  hdr_ok (new_header n bl old) bs.
Proof.
  intros Hold -> Hn Hbs. unfold block_ok, BSIZE, LOGSIZE, MAXOPBLOCKS in *.
  assert (Hz : Z.of_nat (Z.to_nat (zlen bs)) = zlen bs) by (unfold zlen; lia).
  assert (0 <= zlen bs) by (unfold zlen; lia).
  unfold hdr_ok, hdr_n, hdr_block, gets32, new_header. split.
  - change (get32 ?b 0) with (get32 b (4 * 0)).
    rewrite write_head_loop_get by (unfold set_hdr_n; rewrite ?zlen_put32; lia).
    replace ((0 + 1 <=? 0) && _) with false by lia. unfold set_hdr_n.
    change (4 * 0) with 0. rewrite get32_put32_eq by lia. unfold s32. rewrite u32_idem.
    rewrite u32_small by lia. case_match; lia.
  - intros i b Hi. pose proof (lookup_lt_Some _ _ _ Hi). destruct (Hbs _ _ Hi) as [<- Hr].
    replace (4 + 4 * Z.of_nat i) with (4 * (Z.of_nat i + 1)) by lia.
    rewrite write_head_loop_get by (unfold set_hdr_n; rewrite ?zlen_put32; lia).
    replace ((0 + 1 <=? Z.of_nat i + 1) && _) with true by (unfold zlen in *; lia).
    replace (Z.of_nat i + 1 - 1) with (Z.of_nat i) by lia.
    unfold s32. rewrite u32_idem, u32_small by lia. case_match; lia.
Qed.

Lemma read_head_loop_len k i lh dst : length (read_head_loop k i lh dst) = length dst.
Proof.
  revert i dst. induction k as [|k IH]; intros i dst; simpl; [done|].
  rewrite IH. apply length_zupd.
Qed.

Lemma read_head_loop_get k i lh dst j : 0 <= i -> i + Z.of_nat k <= zlen dst ->
  znth (read_head_loop k i lh dst) j =
  if (i <=? j) && (j <? i + Z.of_nat k) then hdr_block lh j else znth dst j.
Proof.
  revert i dst. induction k as [|k IH]; intros i dst Hi Hlen; cbn [read_head_loop].
  { by replace ((i <=? j) && (j <? i + Z.of_nat 0)) with false by lia. }
  rewrite IH by (rewrite ?zlen_zupd; lia). destruct (decide (j = i)) as [->|Hne].
  - replace ((i + 1 <=? i) && _) with false by lia.
    replace ((i <=? i) && _) with true by lia. apply znth_zupd_eq. lia.
  - replace ((i + 1 <=? j) && (j <? i + 1 + Z.of_nat k))
      with ((i <=? j) && (j <? i + Z.of_nat (S k))) by lia.
    case_match; [done|]. by apply znth_zupd_ne.
Qed.

(** ** The operations over the block interface *)
Section LogSpec.
Context {B : Type} `{HP : ProcIface B} `{HO : BlockOps B} `{HL : !BlockLaws B}.
Implicit Types (s : B) (L : log B).

(** With nothing held, the writes [w] have been done through the cache. *)
Record wrote (w : disk_hist Z) s s' : Prop := {
  wr_ok : blk_ok s' ∅;
  wr_view k : blk_view s' k = overlay w (blk_view s) k;
  wr_hist : blk_hist s' = w ++ blk_hist s;
  wr_pin : blk_pin s' = blk_pin s ∖ list_to_set w.*1;
  wr_pid : cur_pid s' = cur_pid s
}.

Lemma wrote_trans w1 w2 s s' s'' : wrote w1 s s' -> wrote w2 s' s'' ->
  wrote (w2 ++ w1) s s''.
Proof.
  intros [O1 V1 H1 P1 I1] [O2 V2 H2 P2 I2]. split; [done| | | |congruence].
  - intros k. rewrite V2, overlay_app. by apply overlay_ext.
  - by rewrite H2, H1, app_assoc.
  - rewrite P2, P1, fmap_app. set_solver.
Qed.

Lemma wrote_nil s : blk_ok s ∅ -> wrote [] s s.
Proof. intros. split; try done. set_solver. Qed.

Lemma run_blk {A C} (m : M B A) (k : A -> M (log B) C) L a b :
  m (lg_b L) = Ret a b -> bind (log_blk m) k L = k a (set_lg_b b L).
Proof. intros E. by apply (run_bind_zoom lg_b_lens). Qed.

Lemma size_map_img (h : gmap nat Z) : (size (map_img h : gset Z) <= size h)%nat.
Proof.
  induction h as [|i x h Hi IH] using map_ind.
  - by rewrite map_img_empty_L, size_empty.
  - rewrite map_img_insert_notin_L, map_size_insert_None by done.
    pose proof (size_union_alt (C:=gset Z) {[x]} (map_img h)) as E.
    rewrite size_singleton in E.
    assert (size ((map_img h : gset Z) ∖ {[x]}) <= size (map_img h : gset Z))%nat
      by (apply subseteq_size; set_solver). lia.
Qed.

Lemma room_size s (h : gmap nat Z) bn : (size (blk_pin s) + size h < NBUF)%nat ->
  blk_room s h bn.
Proof.
  intros Hn. right. pose proof (size_union_alt (C:=gset Z) (blk_pin s) (map_img h)) as E.
  assert (size ((map_img h : gset Z) ∖ blk_pin s) <= size (map_img h : gset Z))%nat
    by (apply subseteq_size; set_solver).
  pose proof (size_map_img h). lia.
Qed.

(** The common tail of the two copying loops: the destination [i] takes the data
    of the source [j], is written, and both are released. *)
Lemma copy_tail {C} (k : M (log B) C) L i j dst src :
  blk_ok (lg_b L) (<[i := dst]> {[j := src]}) -> i <> j -> dst <> src ->
  (src ∈ blk_pin (lg_b L) \/ blk_view (lg_b L) src = hist_block (blk_hist (lg_b L)) src) ->
  exists b, wrote [(dst, blk_view (lg_b L) src)] (lg_b L) b /\
    (log_blk (blk_set_data i (blk_data (lg_b L) j)) ;;;
     log_blk (blk_write i) ;;; log_blk (blk_release j) ;;; log_blk (blk_release i) ;;; k) L
    = k (set_lg_b b L).
Proof.
  intros Hok Hij Hds Hsrc.
  assert (Hi : (<[i := dst]> {[j := src]} : gmap nat Z) !! i = Some dst)
    by apply lookup_insert_eq.
  assert (Hj : (<[i := dst]> {[j := src]} : gmap nat Z) !! j = Some src)
    by (rewrite lookup_insert_ne by done; apply lookup_singleton_eq).
  destruct (blk_data_view _ _ _ _ Hok Hj) as [Ed _]. rewrite Ed.
  destruct (blk_set_data_ok _ _ _ _ (blk_view (lg_b L) src) Hok Hi (blk_view_ok _ _ _ Hok))
    as (s3 & E3 & O3 & V3 & H3 & P3 & I3).
  destruct (blk_write_ok _ _ _ _ O3 Hi) as (s4 & E4 & O4 & V4 & H4 & P4 & I4).
  rewrite V3, decide_True in H4 by done.
  destruct (blk_release_ok _ _ _ _ O4 Hj) as (s5 & E5 & O5 & V5 & H5 & P5 & I5).
  { rewrite P4, P3, V4, V3, H4, H3, decide_False by done. simpl.
    rewrite decide_False by done. set_solver. }
  rewrite delete_insert_ne, delete_singleton_eq in O5 by done.
  destruct (blk_release_ok _ _ i dst O5) as (s6 & E6 & O6 & V6 & H6 & P6 & I6).
  { by rewrite lookup_insert_eq. }
  { right. rewrite V5, V4, V3, H5, H4, decide_True by done. simpl. by rewrite decide_True. }
  exists s6. split.
  - split.
    + by rewrite delete_insert_eq in O6.
    + intros k'. rewrite V6, V5, V4, V3. simpl. destruct (decide (k' = dst)) as [->|Hne].
      * by rewrite decide_True.
      * by rewrite decide_False by done.
    + by rewrite H6, H5, H4, H3.
    + rewrite P6, P5, P4, P3. set_solver.
    + congruence.
  - erewrite run_blk by done. erewrite run_blk by done.
    erewrite run_blk by done. by erewrite run_blk by done.
Qed.

Record copyable s (dst src : Z) : Prop := {
  cp_ok : blk_ok s ∅;
  cp_ne : dst <> src;
  cp_dst : 0 <= dst < FSSIZE;
  cp_src : 0 <= src < FSSIZE
}.

Lemma write_log_step L k tail dst src : lg_dev L = ROOTDEV ->
  lg_start L + tail + 1 = dst -> znth (lg_block L) tail = src ->
  copyable (lg_b L) dst src -> (size (blk_pin (lg_b L)) < NBUF)%nat ->
  src ∈ blk_pin (lg_b L) ->
  exists b, wrote [(dst, blk_view (lg_b L) src)] (lg_b L) b /\
    write_log_loop (S k) tail L = write_log_loop k (tail + 1) (set_lg_b b L).
Proof.
  intros Hd Hdst Hsrc [Hok Hne Hr1 Hr2] Hsz Hp. unfold write_log_loop at 1. fold (@write_log_loop B _ k).
  mrun. rewrite Hd, Hdst, Hsrc.
  destruct (blk_read_ok (lg_b L) ∅ dst Hok Hr1) as (i & s1 & E1 & N1 & O1 & V1 & H1 & P1 & I1).
  { intros j. by rewrite lookup_empty. }
  { apply room_size. rewrite map_size_empty. lia. }
  erewrite run_blk by done.
  destruct (blk_read_ok s1 _ src O1 Hr2) as (j & s2 & E2 & N2 & O2 & V2 & H2 & P2 & I2).
  { intros j. rewrite insert_empty, lookup_singleton_Some. intros [_ ?]. done. }
  { left. by rewrite P1. }
  erewrite run_blk by done. mrun.
  assert (Hij : i <> j). { intros <-. by rewrite lookup_insert_eq in N2. }
  rewrite insert_insert_ne in O2 by done.
  rewrite insert_empty in O2.
  destruct (copy_tail (write_log_loop k (tail + 1)) (set_lg_b s2 (set_lg_b s1 L)) i j dst src)
    as (b & [W1 W2 W3 W4 W5] & ->); [done|done|done|left; simpl; by rewrite P2, P1|].
  simpl in *. exists b. split; [|done]. split; [done| | | |congruence].
  - intros k'. rewrite W2. simpl. by rewrite !V2, !V1.
  - by rewrite W3, V2, V1, H2, H1.
  - by rewrite W4, P2, P1.
Qed.

Lemma install_trans_step L k tail dst src : lg_dev L = ROOTDEV ->
  lg_start L + tail + 1 = src -> znth (lg_block L) tail = dst ->
  copyable (lg_b L) dst src -> (size (blk_pin (lg_b L)) < NBUF)%nat ->
  src ∉ blk_pin (lg_b L) -> (dst ∈ blk_pin (lg_b L) \/ blk_pin (lg_b L) = ∅) ->
  exists b, wrote [(dst, blk_view (lg_b L) src)] (lg_b L) b /\
    install_trans_loop (S k) tail L = install_trans_loop k (tail + 1) (set_lg_b b L).
Proof.
  intros Hd Hsrc Hdst [Hok Hne Hr1 Hr2] Hsz Hp Hroom.
  unfold install_trans_loop at 1. fold (@install_trans_loop B _ k).
  mrun. rewrite Hd, Hdst, Hsrc.
  destruct (blk_read_ok (lg_b L) ∅ src Hok Hr2) as (j & s1 & E1 & N1 & O1 & V1 & H1 & P1 & I1).
  { intros j. by rewrite lookup_empty. }
  { apply room_size. rewrite map_size_empty. lia. }
  erewrite run_blk by done.
  destruct (blk_read_ok s1 _ dst O1 Hr1) as (i & s2 & E2 & N2 & O2 & V2 & H2 & P2 & I2).
  { intros i. rewrite insert_empty, lookup_singleton_Some. intros [_ ?]. done. }
  { destruct Hroom as [Hin|Hemp]; [left; by rewrite P1|]. apply room_size.
    rewrite P1, Hemp, insert_empty, map_size_singleton, size_empty. unfold NBUF. lia. }
  erewrite run_blk by done. mrun.
  assert (Hij : i <> j). { intros <-. by rewrite lookup_insert_eq in N2. }
  rewrite insert_empty in O2.
  destruct (copy_tail (install_trans_loop k (tail + 1)) (set_lg_b s2 (set_lg_b s1 L)) i j dst src)
    as (b & [W1 W2 W3 W4 W5] & ->); [done|done|done| |].
  { right. simpl. rewrite V2, V1, H2, H1. by apply blk_idle. }
  simpl in *. exists b. split; [|done]. split; [done| | | |congruence].
  - intros k'. rewrite W2. simpl. by rewrite !V2, !V1.
  - by rewrite W3, V2, V1, H2, H1.
  - by rewrite W4, P2, P1.
Qed.

(** A block that is neither the super block nor in the log of [st]. *)
Definition home (st b : Z) : Prop :=
  0 <= b < FSSIZE /\ b <> 1 /\ ~ (st <= b < st + LOGSIZE).
Definition log_region (st : Z) : Prop := 2 <= st /\ st + LOGSIZE <= FSSIZE.

Lemma write_log_loop_ok bs tail L :
  lg_dev L = ROOTDEV -> log_region (lg_start L) -> blk_ok (lg_b L) ∅ ->
  (size (blk_pin (lg_b L)) < NBUF)%nat ->
  (forall k, k ∈ blk_pin (lg_b L) -> home (lg_start L) k) ->
  0 <= tail -> tail + zlen bs < LOGSIZE ->
  (forall i b, bs !! i = Some b ->
    znth (lg_block L) (tail + Z.of_nat i) = b /\ b ∈ blk_pin (lg_b L)) ->
  exists b, wrote (slot_writes (lg_start L) tail (blk_view (lg_b L) <$> bs)) (lg_b L) b /\
    write_log_loop (length bs) tail L = Ret tt (set_lg_b b L).
Proof.
  revert tail L. induction bs as [|b bs IH]; intros tail L Hd Hreg Hok Hsz Hp Ht Hn Hbs.
  { exists (lg_b L). split; [by apply wrote_nil|]. by destruct L. }
  destruct (Hbs 0%nat b eq_refl) as [Hb Hbp]. rewrite Z.add_0_r in Hb.
  assert (Hhome := Hp _ Hbp). unfold home, log_region, zlen in *. simpl length in Hn.
  destruct (write_log_step L (length bs) tail (lg_start L + tail + 1) b) as (s1 & W1 & E1);
    [done|done|done| |done|done|].
  { split; [done|lia..]. }
  cbn [length]. rewrite E1.
  assert (Hpin : blk_pin s1 = blk_pin (lg_b L)).
  { rewrite (wr_pin _ _ _ W1). simpl. apply set_eq. intros k.
    rewrite elem_of_difference, elem_of_union, elem_of_singleton. split; [tauto|].
    intros Hk. split; [done|]. intros [->|He]; [|set_solver]. apply Hp in Hk. lia. }
  assert (Hview : blk_view s1 <$> bs = blk_view (lg_b L) <$> bs).
  { apply list_fmap_ext. intros i x Hx. rewrite (wr_view _ _ _ W1). simpl.
    destruct (Hbs (S i) x Hx) as [_ Hxp]. apply Hp in Hxp.
    rewrite decide_False by lia. done. }
  destruct (IH (tail + 1) (set_lg_b s1 L)) as (s2 & W2 & E2); cbn [set_lg_b lg_b lg_dev lg_start lg_block] in *; try done.
  - apply W1.
  - by rewrite Hpin.
  - by rewrite Hpin.
  - lia.
  - lia.
  - intros i x Hx. destruct (Hbs (S i) x Hx) as [Hz Hxp].
    replace (tail + 1 + Z.of_nat i) with (tail + Z.of_nat (S i)) by lia. by rewrite Hpin.
  - exists s2. rewrite E2. split; [|done].
    change (blk_view (lg_b L) <$> b :: bs) with (blk_view (lg_b L) b :: (blk_view (lg_b L) <$> bs)). rewrite slot_writes_cons. rewrite <-Hview.
    apply (wrote_trans _ _ _ s1); [done|exact W2].
Qed.

Lemma install_trans_loop_ok bs ds tail L :
  lg_dev L = ROOTDEV -> log_region (lg_start L) -> blk_ok (lg_b L) ∅ ->
  (size (blk_pin (lg_b L)) < NBUF)%nat ->
  (forall k, k ∈ blk_pin (lg_b L) -> home (lg_start L) k) ->
  0 <= tail -> tail + zlen bs < LOGSIZE -> length ds = length bs ->
  (blk_pin (lg_b L) = ∅ \/ NoDup bs /\ forall b, b ∈ bs -> b ∈ blk_pin (lg_b L)) ->
  (forall i b d, bs !! i = Some b -> ds !! i = Some d ->
    znth (lg_block L) (tail + Z.of_nat i) = b /\ home (lg_start L) b /\
    blk_view (lg_b L) (lg_start L + tail + Z.of_nat i + 1) = d) ->
  exists b, wrote (home_writes bs ds) (lg_b L) b /\
    install_trans_loop (length bs) tail L = Ret tt (set_lg_b b L).
Proof.
  revert ds tail L. induction bs as [|b bs IH]; intros [|d ds] tail L
    Hd Hreg Hok Hsz Hp Ht Hn Hlen Hpin Hbs; try done.
  { exists (lg_b L). split; [by apply wrote_nil|]. by destruct L. }
  destruct (Hbs 0%nat b d eq_refl eq_refl) as (Hb & Hhome & Hv).
  rewrite Z.add_0_r in Hb, Hv. unfold home, log_region, zlen in *. simpl length in Hn.
  destruct (install_trans_step L (length bs) tail b (lg_start L + tail + 1)) as (s1 & W1 & E1);
    [done|done|done| |done| | |].
  { split; [done|lia..]. }
  { intros Hk%Hp. lia. }
  { destruct Hpin as [?|[_ Hin]]; [by right|left]. apply Hin. by left. }
  cbn [length]. rewrite E1.
  assert (Hpin1 : blk_pin s1 = blk_pin (lg_b L) ∖ {[b]}).
  { rewrite (wr_pin _ _ _ W1). simpl. set_solver. }
  destruct (IH ds (tail + 1) (set_lg_b s1 L)) as (s2 & W2 & E2); cbn [set_lg_b lg_b lg_dev lg_start lg_block] in *; try done.
  - apply W1.
  - rewrite Hpin1. eapply Nat.le_lt_trans; [apply subseteq_size|exact Hsz]. set_solver.
  - rewrite Hpin1. intros k Hk. apply Hp. set_solver.
  - lia.
  - lia.
  - simpl in Hlen. lia.
  - rewrite Hpin1. destruct Hpin as [->|[Hnd Hin]]; [left; set_solver|right].
    apply NoDup_cons in Hnd as [Hb' Hnd]. split; [done|]. set_solver.
  - intros i x y Hx Hy. destruct (Hbs (S i) x y Hx Hy) as (Hz & Hxh & Hy').
    replace (tail + 1 + Z.of_nat i) with (tail + Z.of_nat (S i)) by lia.
    split; [done|]. split; [done|]. rewrite (wr_view _ _ _ W1). simpl.
    apply lookup_lt_Some in Hx. rewrite decide_False by lia. rewrite <-Hy'. f_equal. lia.
  - exists s2. rewrite E2. split; [|done].
    rewrite Hv in W1. rewrite home_writes_cons.
    apply (wrote_trans _ _ _ s1); [done|exact W2].
Qed.

Lemma write_head_run L : lg_dev L = ROOTDEV -> 0 <= lg_start L < FSSIZE ->
  blk_ok (lg_b L) ∅ -> (size (blk_pin (lg_b L)) < NBUF)%nat ->
  exists b, wrote [(lg_start L, new_header (lg_n L) (lg_block L)
      (blk_view (lg_b L) (lg_start L)))] (lg_b L) b /\
    write_head L = Ret tt (set_lg_b b L).
Proof.
  intros Hd Hst Hok Hsz. unfold write_head. mrun. rewrite Hd.
  destruct (blk_read_ok (lg_b L) ∅ (lg_start L) Hok Hst) as (i & s1 & E1 & N1 & O1 & V1 & H1 & P1 & I1).
  { intros j. by rewrite lookup_empty. }
  { apply room_size. rewrite map_size_empty. lia. }
  erewrite run_blk by done. mrun. simpl.
  assert (Hi : (<[i := lg_start L]> ∅ : gmap nat Z) !! i = Some (lg_start L)) by apply lookup_insert_eq.
  destruct (blk_data_view _ _ _ _ O1 Hi) as [Ed _]. rewrite Ed, V1.
  fold (new_header (lg_n L) (lg_block L) (blk_view (lg_b L) (lg_start L))).
  set (d := new_header _ _ _).
  assert (Hdok : block_ok d).
  { unfold block_ok, d. rewrite new_header_len. by apply (blk_view_ok _ ∅). }
  destruct (blk_set_data_ok _ _ _ _ d O1 Hi Hdok) as (s2 & E2 & O2 & V2 & H2 & P2 & I2).
  destruct (blk_write_ok _ _ _ _ O2 Hi) as (s3 & E3 & O3 & V3 & H3 & P3 & I3).
  rewrite V2, decide_True in H3 by done.
  destruct (blk_release_ok _ _ _ _ O3 Hi) as (s4 & E4 & O4 & V4 & H4 & P4 & I4).
  { right. rewrite V3, V2, H3. simpl. by rewrite !decide_True. }
  exists s4. split.
  - split.
    + by rewrite delete_insert_eq, delete_empty in O4.
    + intros k. rewrite V4, V3, V2, V1. simpl. destruct (decide (k = lg_start L)) as [->|].
      * by rewrite decide_True.
      * by rewrite decide_False.
    + by rewrite H4, H3, H2, H1.
    + rewrite P4, P3, P2, P1. simpl. set_solver.
    + congruence.
  - erewrite run_blk by done. erewrite run_blk by done.
    unfold log_blk. erewrite zoom_eq by done. done.
Qed.

(** Reading a block and releasing it unchanged. *)
Lemma peek_ok s bn : blk_ok s ∅ -> 0 <= bn < FSSIZE -> blk_pin s = ∅ ->
  exists i s1 s2, blk_read ROOTDEV bn s = Ret i s1 /\ blk_data s1 i = blk_view s bn /\
    blk_release i s1 = Ret tt s2 /\ wrote [] s s2.
Proof.
  intros Hok Hbn Hp.
  destruct (blk_read_ok s ∅ bn Hok Hbn) as (i & s1 & E1 & N1 & O1 & V1 & H1 & P1 & I1).
  { intros j. by rewrite lookup_empty. }
  { apply room_size. rewrite Hp, map_size_empty, size_empty. unfold NBUF. lia. }
  assert (Hi : (<[i := bn]> ∅ : gmap nat Z) !! i = Some bn) by apply lookup_insert_eq.
  destruct (blk_data_view _ _ _ _ O1 Hi) as [Ed _].
  destruct (blk_release_ok _ _ _ _ O1 Hi) as (s2 & E2 & O2 & V2 & H2 & P2 & I2).
  { right. rewrite V1, H1. apply blk_idle; [done|]. by rewrite Hp. }
  exists i, s1, s2. split; [done|]. split; [by rewrite Ed, V1|]. split; [done|]. split.
  - by rewrite delete_insert_eq, delete_empty in O2.
  - intros k. simpl. by rewrite V2, V1.
  - by rewrite H2, H1.
  - rewrite P2, P1. set_solver.
  - congruence.
Qed.
End LogSpec.
