(* ===== verification/LogCrash.v ===== *)
(** * Commit and crash recovery

    [commit] as a sequence of disk writes, recovery as a function of the disk, and
    the atomicity of a transaction under crashes at any write. *)
From S2P Require Import Prelude Param Iface Log LogSpec.

Section LogCrash.
Context {B : Type} `{HP : ProcIface B} `{HO : BlockOps B} `{HL : !BlockLaws B}.
Implicit Types (s : B) (L : log B).

(** ** Commit *)

(** The transaction of [L] updates the blocks [bs], which are pinned; nothing else
    is, and no system call holds a buffer. *)
Record txn L (bs : list Z) : Prop := {
  tx_ok : blk_ok (lg_b L) ∅;
  tx_dev : lg_dev L = ROOTDEV;
  tx_reg : log_region (lg_start L);
  tx_n : lg_n L = zlen bs;
  tx_small : zlen bs < LOGSIZE;
  tx_nodup : NoDup bs;
  tx_bl : forall i b, bs !! i = Some b -> znth (lg_block L) (Z.of_nat i) = b;
  tx_home : forall b, b ∈ bs -> home (lg_start L) b;
  tx_pin : blk_pin (lg_b L) = list_to_set bs
}.

Lemma txn_size L bs : txn L bs -> (size (blk_pin (lg_b L)) < NBUF)%nat.
Proof.
  intros [_ _ _ _ Hn Hnd _ _ ->]. rewrite size_list_to_set by done.
  unfold zlen, LOGSIZE, MAXOPBLOCKS, NBUF in *. lia.
Qed.

(** The header written for [L]'s block list over the old header block. *)
Definition head_of L old : block := new_header (lg_n L) (lg_block L) old.
Definition head_clear L old : block := new_header 0 (lg_block L) old.

Lemma head_of_ok L bs old : txn L bs -> block_ok old -> hdr_ok (head_of L old) bs.
Proof.
  intros [? ? ? Hn Hs ? Hbl Hh ?] Hold. apply new_header_ok; [done|done|lia|].
  intros i b Hi. split; [by apply Hbl|].
  destruct (Hh b) as [Hr _]; [by eapply list_elem_of_lookup_2|]. unfold FSSIZE in Hr. lia.
Qed.

Lemma head_clear_ok L old : block_ok old -> hdr_ok (head_clear L old) [].
Proof. intros Hold. by apply new_header_ok. Qed.

(** The disk writes of [commit], the latest first. *)
Definition commit_writes L (bs : list Z) : disk_hist Z :=
  let v := blk_view (lg_b L) in
  let ds := v <$> bs in
  let h1 := head_of L (v (lg_start L)) in
  (lg_start L, head_clear L h1) :: home_writes bs ds ++
    (lg_start L, h1) :: slot_writes (lg_start L) 0 ds.

Lemma commit_run L bs : txn L bs -> bs <> [] ->
  exists b, commit L = Ret tt (set_lg_b b (set_lg_n 0 L)) /\
    wrote (commit_writes L bs) (lg_b L) b.
Proof.
  intros Ht Hne. pose proof (txn_size _ _ Ht) as Hsz.
  destruct Ht as [Hok Hd Hreg Hn Hsm Hnd Hbl Hh Hp].
  assert (Hst : 0 <= lg_start L < FSSIZE).
  { unfold log_region in Hreg. unfold LOGSIZE, MAXOPBLOCKS in *. lia. }
  assert (Hhome : forall k, k ∈ blk_pin (lg_b L) -> home (lg_start L) k).
  { intros k. rewrite Hp, elem_of_list_to_set. apply Hh. }
  assert (Hst_nin : forall bs' : disk_hist Z, (forall k, k ∈ bs'.*1 -> ~ home (lg_start L) k) ->
    blk_pin (lg_b L) ∖ list_to_set bs'.*1 = blk_pin (lg_b L)).
  { intros bs' Hb'. apply set_eq. intros k.
    rewrite elem_of_difference, elem_of_list_to_set. split; [tauto|]. intros Hk.
    split; [done|]. intros Hk'. by apply (Hb' k Hk'), Hhome. }
  destruct (write_log_loop_ok bs 0 L) as (s1 & W1 & E1); try done.
  { intros i b Hi. split; [by apply Hbl|]. rewrite Hp, elem_of_list_to_set.
    by eapply list_elem_of_lookup_2. }
  assert (P1 : blk_pin s1 = blk_pin (lg_b L)).
  { rewrite (wr_pin _ _ _ W1). apply Hst_nin. intros k Hk%slot_writes_dom [_ [_ Hk']].
    apply Hk'. unfold zlen in *. rewrite length_fmap in Hk. lia. }
  destruct (write_head_run (set_lg_b s1 L)) as (s2 & W2 & E2);
    [done|done|apply W1|simpl; by rewrite P1|]. cbn [set_lg_b lg_b lg_n lg_block lg_start] in *.
  assert (V1 : blk_view s1 (lg_start L) = blk_view (lg_b L) (lg_start L)).
  { rewrite (wr_view _ _ _ W1), overlay_ne; [done|]. intros Hk%slot_writes_dom. lia. }
  rewrite V1 in W2. fold (head_of L (blk_view (lg_b L) (lg_start L))) in W2.
  assert (P2 : blk_pin s2 = blk_pin (lg_b L)).
  { rewrite (wr_pin _ _ _ W2), P1. apply Hst_nin. intros k Hk [_ [_ Hk']]. apply Hk'.
    apply list_elem_of_singleton in Hk as ->. simpl. unfold LOGSIZE, MAXOPBLOCKS. lia. }
  destruct (install_trans_loop_ok bs (blk_view (lg_b L) <$> bs) 0 (set_lg_b s2 L))
    as (s3 & W3 & E3); cbn [set_lg_b lg_b lg_dev lg_start lg_block] in *; try done.
  { apply W2. }
  { by rewrite P2. }
  { by rewrite P2. }
  { by rewrite length_fmap. }
  { right. split; [done|]. intros b Hb. by rewrite P2, Hp, elem_of_list_to_set. }
  { intros i b d Hb Hdd. split; [by apply Hbl|]. split; [apply Hh; by eapply list_elem_of_lookup_2|].
    rewrite (wr_view _ _ _ W2). simpl. rewrite decide_False by lia.
    rewrite (wr_view _ _ _ W1). by apply overlay_slots. }
  assert (P3 : blk_pin s3 = ∅).
  { rewrite (wr_pin _ _ _ W3), P2, Hp. apply set_eq. intros k.
    rewrite elem_of_difference, !elem_of_list_to_set. split; [|set_solver].
    intros [Hk Hk']. destruct Hk'. unfold home_writes. rewrite fmap_reverse, elem_of_reverse.
    by rewrite fst_zip by (rewrite length_fmap; lia). }
  destruct (write_head_run (set_lg_n 0 (set_lg_b s3 L))) as (s4 & W4 & E4);
    [done|done|apply W3|simpl; rewrite P3, size_empty; unfold NBUF; lia|].
  cbn [set_lg_b set_lg_n lg_b lg_n lg_block lg_start] in *.
  assert (V3 : blk_view s3 (lg_start L) = head_of L (blk_view (lg_b L) (lg_start L))).
  { rewrite (wr_view _ _ _ W3), overlay_ne.
    - rewrite (wr_view _ _ _ W2). simpl. by rewrite decide_True.
    - intros Hk%home_writes_dom%Hh. destruct Hk as (_ & _ & Hk). apply Hk.
      unfold LOGSIZE, MAXOPBLOCKS. lia. }
  rewrite V3 in W4. exists s4. split.
  - unfold commit. mrun. destruct (Z.ltb_spec 0 (lg_n L)) as [_|Hz].
    2: { destruct bs; [done|]. unfold zlen in *. simpl in *. lia. }
    assert (Hk : Z.to_nat (lg_n L) = length bs) by (unfold zlen in *; lia).
    rewrite run_when_true. unfold write_log, install_trans. mrun. rewrite Hk.
    erewrite bind_eq by done. erewrite bind_eq by done. mrun. simpl lg_n. rewrite Hk.
    erewrite bind_eq by done. mrun. exact E4.
  - unfold commit_writes.
    change ((lg_start L, head_clear L ?h) :: ?w1 ++ ?e :: ?w2)
      with ([(lg_start L, head_clear L h)] ++ w1 ++ [e] ++ w2).
    eapply wrote_trans; [|exact W4]. eapply wrote_trans; [|exact W3].
    by eapply wrote_trans.
Qed.

(** ** Recovery *)

Lemma read_head_run L bs : lg_dev L = ROOTDEV -> 0 <= lg_start L < FSSIZE ->
  blk_ok (lg_b L) ∅ -> blk_pin (lg_b L) = ∅ -> zlen (lg_block L) = LOGSIZE ->
  hdr_ok (blk_view (lg_b L) (lg_start L)) bs -> zlen bs < LOGSIZE ->
  exists b bl, wrote [] (lg_b L) b /\
    (forall i x, bs !! i = Some x -> znth bl (Z.of_nat i) = x) /\
    read_head L = Ret tt (set_lg_b b (set_lg_block bl (set_lg_n (zlen bs) L))).
Proof.
  intros Hd Hst Hok Hp Hlen [Hn Hb] Hsm.
  destruct (peek_ok (lg_b L) (lg_start L) Hok Hst Hp) as (i & s1 & s2 & E1 & D1 & E2 & W).
  unfold read_head. exists s2. eexists. split; [done|]. split; cycle 1.
  - mrun. rewrite Hd. erewrite run_blk by done. mrun. cbn [set_lg_b lg_b lg_block]. rewrite D1, Hn.
    unfold log_blk. by erewrite zoom_eq by done.
  - intros j x Hj. pose proof (lookup_lt_Some _ _ _ Hj). unfold zlen in Hsm, Hlen |- *.
    rewrite read_head_loop_get by (unfold zlen; lia).
    replace ((0 <=? Z.of_nat j) && _) with true by lia. by apply Hb.
Qed.

(** The home blocks that recovery restores from the log. *)
Definition recovered (st : Z) (bs : list Z) (v : Z -> block) (k : Z) : block :=
  overlay (home_writes bs (imap (fun i _ => v (st + Z.of_nat i + 1)) bs)) v k.

Lemma recover_run L bs : lg_dev L = ROOTDEV -> log_region (lg_start L) ->
  blk_ok (lg_b L) ∅ -> blk_pin (lg_b L) = ∅ -> zlen (lg_block L) = LOGSIZE ->
  hdr_ok (blk_view (lg_b L) (lg_start L)) bs -> zlen bs < LOGSIZE ->
  (forall b, b ∈ bs -> home (lg_start L) b) ->
  exists L', recover_from_log L = Ret tt L' /\ blk_ok (lg_b L') ∅ /\ lg_n L' = 0 /\
    hdr_ok (blk_view (lg_b L') (lg_start L)) [] /\
    forall k, home (lg_start L) k ->
      blk_view (lg_b L') k = recovered (lg_start L) bs (blk_view (lg_b L)) k.
Proof.
  intros Hd Hreg Hok Hp Hlen Hhdr Hsm Hh.
  assert (Hst : 0 <= lg_start L < FSSIZE).
  { unfold log_region in Hreg. unfold LOGSIZE, MAXOPBLOCKS in *. lia. }
  destruct (read_head_run L bs) as (s1 & bl & W1 & Hbl & E1); try done.
  assert (P1 : blk_pin s1 = ∅) by (rewrite (wr_pin _ _ _ W1), Hp; set_solver).
  set (L1 := set_lg_b s1 (set_lg_block bl (set_lg_n (zlen bs) L))) in *.
  destruct (install_trans_loop_ok bs (imap (fun i _ => blk_view (lg_b L) (lg_start L + Z.of_nat i + 1)) bs) 0 L1)
    as (s2 & W2 & E2); try done; simpl.
  { apply W1. }
  { rewrite P1, size_empty. unfold NBUF. lia. }
  { by rewrite P1. }
  { by rewrite length_imap. }
  { by left. }
  { intros i b d Hb Hdd. split; [by apply Hbl|]. split; [apply Hh; by eapply list_elem_of_lookup_2|].
    rewrite list_lookup_imap_Some in Hdd. destruct Hdd as (b' & _ & ->).
    rewrite (wr_view _ _ _ W1). simpl. f_equal. lia. }
  cbn [L1 set_lg_b set_lg_block set_lg_n lg_b lg_start] in W2.
  assert (P2 : blk_pin s2 = ∅) by (rewrite (wr_pin _ _ _ W2), P1; set_solver).
  destruct (write_head_run (set_lg_n 0 (set_lg_b s2 L1))) as (s3 & W3 & E3); simpl; try done.
  { apply W2. }
  { rewrite P2, size_empty. unfold NBUF. lia. }
  exists (set_lg_b s3 (set_lg_n 0 (set_lg_b s2 L1))). simpl in W3 |- *.
  split; [|split; [apply W3|split; [done|split]]].
  - unfold recover_from_log. erewrite bind_eq by done. fold L1.
    assert (Ei : install_trans L1 = Ret tt (set_lg_b s2 L1)).
    { unfold install_trans. mrun. simpl. unfold zlen. by rewrite Nat2Z.id. }
    erewrite bind_eq by done. mrun. exact E3.
  - rewrite (wr_view _ _ _ W3). simpl. rewrite decide_True by done.
    apply new_header_ok; try done. apply (blk_view_ok _ ∅), W2.
  - intros k Hk. rewrite (wr_view _ _ _ W3). simpl. rewrite decide_False.
    2: { intros <-. apply Hk. unfold LOGSIZE, MAXOPBLOCKS. lia. }
    rewrite (wr_view _ _ _ W2). unfold recovered. apply overlay_ext.
    by rewrite (wr_view _ _ _ W1).
Qed.

(** ** Crashes during commit *)

Lemma suffix_of_cons {X} (w : list X) x l : w `suffix_of` x :: l ->
  w = x :: l \/ w `suffix_of` l.
Proof.
  intros [p Hp]. destruct p as [|y p]; simplify_eq/=; [by left|right]. by exists p.
Qed.

Lemma suffix_of_app {X} (w l1 l2 : list X) : w `suffix_of` l1 ++ l2 ->
  w `suffix_of` l2 \/ exists p, p `suffix_of` l1 /\ w = p ++ l2.
Proof.
  induction l1 as [|x l1 IH]; simpl; [by left|].
  intros [->|Hs]%suffix_of_cons.
  - right. by exists (x :: l1).
  - destruct (IH Hs) as [|(p & Hp & ->)]; [by left|right]. exists p. split; [|done].
    by apply suffix_cons_r.
Qed.

Lemma suffix_dom (w l : disk_hist Z) k : w `suffix_of` l -> k ∈ w.*1 -> k ∈ l.*1.
Proof. intros [p ->]. rewrite fmap_app. set_solver. Qed.

Lemma recovered_nil st v k : recovered st [] v k = v k.
Proof. done. Qed.

(** The disk at a crash point: its log header is valid, and recovery restores
    either the blocks before the transaction or those after it. *)
Lemma crash_cases L bs w : txn L bs ->
  hdr_ok (hist_block (blk_hist (lg_b L)) (lg_start L)) [] ->
  w `suffix_of` commit_writes L bs ->
  let d := hist_block (w ++ blk_hist (lg_b L)) in
  exists bs', hdr_ok (d (lg_start L)) bs' /\ zlen bs' < LOGSIZE /\
    (forall b, b ∈ bs' -> home (lg_start L) b) /\
    ((forall k, home (lg_start L) k ->
        recovered (lg_start L) bs' d k = hist_block (blk_hist (lg_b L)) k) \/
     (forall k, home (lg_start L) k ->
        recovered (lg_start L) bs' d k = blk_view (lg_b L) k)).
Proof.
  intros Ht Hclean Hw d. set (v0 := hist_block (blk_hist (lg_b L))) in *.
  set (v := blk_view (lg_b L)). set (st := lg_start L) in *.
  set (h1 := head_of L (v st)).
  assert (Ed : forall k, d k = overlay w v0 k) by (intros k; apply hist_block_app).
  assert (Hh1 : hdr_ok h1 bs) by (eapply head_of_ok, blk_view_ok; [done|apply Ht]).
  assert (Hst : ~ home st st).
  { intros (_ & _ & Hk). apply Hk. unfold LOGSIZE, MAXOPBLOCKS. lia. }
  assert (Hbs_st : forall ds, st ∉ (home_writes bs ds).*1).
  { intros ds Hk%home_writes_dom. by apply (tx_home _ _ Ht) in Hk. }
  assert (Hslot : forall k, k ∈ (slot_writes st 0 (v <$> bs)).*1 -> st < k /\ ~ home st k).
  { intros k Hk%slot_writes_dom. unfold zlen in Hk. rewrite length_fmap in Hk.
    pose proof (tx_small _ _ Ht) as Hs. unfold zlen in Hs. split; [lia|].
    intros (_ & _ & Hk'). apply Hk'. lia. }
  assert (Hout : forall k, k ∉ bs -> v k = v0 k).
  { intros k Hk. apply blk_idle; [apply Ht|].
    by rewrite (tx_pin _ _ Ht), elem_of_list_to_set. }
  unfold commit_writes in Hw. fold st v h1 in Hw. apply suffix_of_cons in Hw as [->|Hw].
  { (* all the writes were done: the header is clear *)
    exists []. rewrite Ed. simpl. rewrite decide_True by done.
    split; [apply head_clear_ok; unfold block_ok, h1, head_of; rewrite new_header_len;
      eapply blk_view_ok, Ht|].
    split; [unfold zlen, LOGSIZE, MAXOPBLOCKS; simpl; lia|]. split; [set_solver|]. right.
    intros k Hk. rewrite recovered_nil, Ed. simpl. rewrite decide_False by (intros <-; done).
    rewrite overlay_app. destruct (decide (k ∈ bs)) as [Hin|Hin].
    - apply list_elem_of_lookup in Hin as [i Hi]. eapply overlay_home; [apply Ht|done|].
      rewrite list_lookup_fmap, Hi. done.
    - rewrite overlay_ne by (intros ?%home_writes_dom; done). simpl.
      rewrite decide_False by (intros <-; done). rewrite overlay_ne by naive_solver.
      symmetry. auto. }
  apply suffix_of_app in Hw as [Hw|(p & Hp & ->)].
  - apply suffix_of_cons in Hw as [->|Hw].
    + (* the header was just written *)
      exists bs. rewrite Ed. simpl. rewrite decide_True by done. split; [done|].
      split; [apply Ht|]. split; [apply Ht|]. right. intros k Hk.
      unfold recovered. destruct (decide (k ∈ bs)) as [Hin|Hin].
      * apply list_elem_of_lookup in Hin as [i Hi]. eapply overlay_home; [apply Ht|done|].
        rewrite list_lookup_imap, Hi. simpl. rewrite Ed. simpl. rewrite decide_False by lia.
        replace (st + Z.of_nat i + 1) with (st + 0 + Z.of_nat i + 1) by lia.
        f_equal. apply overlay_slots. by rewrite list_lookup_fmap, Hi.
      * rewrite overlay_ne by (intros ?%home_writes_dom; done). rewrite Ed. simpl.
        rewrite decide_False by (intros <-; done). rewrite overlay_ne by naive_solver.
        symmetry. auto.
    + (* still copying to the log *)
      exists []. assert (Hdw : forall k, k ∈ w.*1 -> st < k /\ ~ home st k)
        by (intros k Hk; by eapply Hslot, suffix_dom).
      rewrite Ed, overlay_ne by (intros Hk%Hdw; lia). split; [done|].
      split; [unfold zlen, LOGSIZE, MAXOPBLOCKS; simpl; lia|]. split; [set_solver|]. left.
      intros k Hk. rewrite recovered_nil, Ed. apply overlay_ne. naive_solver.
  - (* installing: the committed header is in place *)
    assert (Hp' : forall k, k ∈ p.*1 -> k ∈ bs)
      by (intros k Hk; by eapply home_writes_dom, suffix_dom).
    assert (Hpst : forall k, ~ home st k -> k ∉ p.*1)
      by (intros k Hk Hk'%Hp'; by apply (tx_home _ _ Ht) in Hk').
    exists bs. rewrite Ed, overlay_app, overlay_ne by auto. simpl.
    rewrite decide_True by done. split; [done|].
    split; [apply Ht|]. split; [apply Ht|]. right. intros k Hk.
    unfold recovered. destruct (decide (k ∈ bs)) as [Hin|Hin].
    + apply list_elem_of_lookup in Hin as [i Hi]. eapply overlay_home; [apply Ht|done|].
      rewrite list_lookup_imap, Hi. simpl. rewrite Ed, overlay_app, overlay_ne.
      2: { apply Hpst. intros (_ & _ & Hk'). apply Hk'.
        apply lookup_lt_Some in Hi. pose proof (tx_small _ _ Ht). unfold zlen in *. lia. }
      simpl. rewrite decide_False by lia.
      replace (st + Z.of_nat i + 1) with (st + 0 + Z.of_nat i + 1) by lia.
      f_equal. apply overlay_slots. by rewrite list_lookup_fmap, Hi.
    + rewrite overlay_ne by (intros ?%home_writes_dom; done).
      rewrite Ed, overlay_app, overlay_ne by auto. simpl.
      rewrite decide_False by (intros <-; done). rewrite overlay_ne by naive_solver.
      symmetry. auto.
Qed.

(** A fresh boot of the log over the cache [c]. *)
Definition log_boot (c : B) : log B :=
  Log c false 0 0 0 0 0 0 (replicate (Z.to_nat LOGSIZE) 0).

Lemma initlog_run c st bs : blk_ok c ∅ -> blk_pin c = ∅ -> log_region st ->
  sb_logstart (sb_of_block (blk_view c 1)) = st ->
  hdr_ok (blk_view c st) bs -> zlen bs < LOGSIZE -> (forall b, b ∈ bs -> home st b) ->
  exists L', initlog ROOTDEV (log_boot c) = Ret tt L' /\ blk_ok (lg_b L') ∅ /\ lg_n L' = 0 /\
    hdr_ok (blk_view (lg_b L') st) [] /\
    forall k, home st k -> blk_view (lg_b L') k = recovered st bs (blk_view c) k.
Proof.
  intros Hok Hp Hreg Hsb Hhdr Hsm Hh.
  destruct (peek_ok c 1 Hok) as (i & s1 & s2 & E1 & D1 & E2 & W); [unfold FSSIZE; lia|done|].
  assert (Er : readsb ROOTDEV c = Ret (sb_of_block (blk_view c 1)) s2).
  { unfold readsb. erewrite bind_eq by done. mrun. rewrite D1. by erewrite bind_eq by done. }
  set (sb := sb_of_block (blk_view c 1)) in *.
  set (L1 := Log s2 false st (sb_nlog sb) 0 0 ROOTDEV 0 (replicate (Z.to_nat LOGSIZE) 0)).
  assert (V : forall k, blk_view s2 k = blk_view c k) by (intros k; apply (wr_view _ _ _ W)).
  destruct (recover_run L1 bs) as (L' & E & O & N & Hd & Hv); simpl; try done.
  - apply W.
  - rewrite (wr_pin _ _ _ W), Hp. set_solver.
  - by rewrite V.
  - exists L'. split; [|split; [done|split; [done|split; [done|]]]].
    + unfold initlog. change (BSIZE <=? 4 + 4 * LOGSIZE) with false. cbn beta iota. mrun.
      erewrite run_blk by exact Er. mrun.
      unfold log_boot, set_lg_lock, set_lg_b, set_lg_start, set_lg_size, set_lg_dev.
      cbn [lg_b lg_lock lg_start lg_size lg_outstanding lg_committing lg_dev lg_n lg_block].
      rewrite Hsb. exact E.
    + intros k Hk. rewrite Hv by done. unfold recovered.
      rewrite (overlay_ext _ _ (blk_view c)) by apply V. f_equal.
      unfold home_writes. do 2 f_equal. apply imap_ext. intros. apply V.
Qed.

(** ** The invariant of the log between operations *)

(** [h]: the buffers held; [bs]: the blocks logged so far. *)
Record log_inv L (h : gmap nat Z) (bs : list Z) : Prop := {
  li_ok : blk_ok (lg_b L) h;
  li_lock : lg_lock L = false;
  li_dev : lg_dev L = ROOTDEV;
  li_reg : log_region (lg_start L);
  li_size : lg_size L = LOGSIZE;
  li_comm : lg_committing L = 0;
  li_n : lg_n L = zlen bs;
  li_small : zlen bs < LOGSIZE;
  li_nodup : NoDup bs;
  li_len : zlen (lg_block L) = LOGSIZE;
  li_bl : forall i b, bs !! i = Some b -> znth (lg_block L) (Z.of_nat i) = b;
  li_home : forall b, b ∈ bs -> home (lg_start L) b;
  li_pin : blk_pin (lg_b L) = list_to_set bs;
  li_clean : hdr_ok (hist_block (blk_hist (lg_b L)) (lg_start L)) []
}.

Lemma log_inv_txn L bs : log_inv L ∅ bs -> txn L bs.
Proof. intros []. by split. Qed.

Lemma log_find_spec k i bl bn : let r := log_find k i bl bn in
  i <= r <= i + Z.of_nat k /\ (r < i + Z.of_nat k -> znth bl r = bn) /\
  forall j, i <= j < r -> znth bl j <> bn.
Proof.
  revert i. induction k as [|k IH]; intros i; cbv zeta; cbn [log_find].
  { split; [lia|]. split; lia. }
  destruct (Z.eqb_spec (znth bl i) bn) as [E|E].
  { split; [lia|]. split; [done|lia]. }
  destruct (IH (i + 1)) as (H1 & H2 & H3). split; [lia|]. split; [intros; apply H2; lia|].
  intros j Hj. destruct (decide (j = i)) as [->|]; [done|]. apply H3. lia.
Qed.

(** Where [log_write] stores the block number. *)
Lemma log_find_bs L h bs bn : log_inv L h bs ->
  let r := log_find (Z.to_nat (lg_n L)) 0 (lg_block L) bn in
  ((bn ∈ bs /\ 0 <= r < zlen bs /\ znth (lg_block L) r = bn) \/ (bn ∉ bs /\ r = zlen bs)).
Proof.
  intros Hi r. pose proof (log_find_spec (Z.to_nat (lg_n L)) 0 (lg_block L) bn) as (H1 & H2 & H3).
  fold r in H1, H2, H3. rewrite (li_n _ _ _ Hi) in H1, H2.
  rewrite Z2Nat.id in H1, H2 by (unfold zlen; lia).
  destruct (decide (bn ∈ bs)) as [Hin|Hin]; [left|right].
  - split; [done|]. apply list_elem_of_lookup in Hin as [j Hj].
    pose proof (lookup_lt_Some _ _ _ Hj). apply (li_bl _ _ _ Hi) in Hj.
    assert (Hr : r < 0 + zlen bs).
    { destruct (decide (r <= Z.of_nat j)); [unfold zlen; lia|].
      exfalso. apply (H3 (Z.of_nat j)); [lia|done]. }
    split; [lia|]. apply H2. lia.
  - split; [done|]. destruct (decide (r = zlen bs)) as [|Hne]; [done|].
    exfalso. apply Hin. assert (Hr : (Z.to_nat r < length bs)%nat) by (unfold zlen in *; lia).
    apply lookup_lt_is_Some_2 in Hr as [x Hx]. pose proof (li_bl _ _ _ Hi _ _ Hx) as E.
    rewrite Z2Nat.id, H2 in E by lia. subst x. by eapply list_elem_of_lookup_2.
Qed.

(** [log_write] pins the block and records it once, whether or not it was already
    in the transaction (absorption); it changes no contents and writes nothing. *)
Lemma log_write_run L h bs i bn : log_inv L h bs -> 1 <= lg_outstanding L ->
  zlen bs < LOGSIZE - 1 -> h !! i = Some bn -> home (lg_start L) bn ->
  exists L', log_write i L = Ret tt L' /\
    log_inv L' h (if decide (bn ∈ bs) then bs else bs ++ [bn]) /\
    (forall k, blk_view (lg_b L') k = blk_view (lg_b L) k) /\
    blk_hist (lg_b L') = blk_hist (lg_b L) /\ lg_start L' = lg_start L /\
    lg_outstanding L' = lg_outstanding L /\ cur_pid (lg_b L') = cur_pid (lg_b L).
Proof.
  intros Hi Hout Hsm Hh Hhome. pose proof (log_find_bs L h bs bn Hi) as Hf.
  destruct Hi as [Hok Hlock Hdev Hreg Hsize Hcomm Hn Hsm' Hnd Hlen Hbl Hhm Hpin Hclean].
  destruct (blk_data_view _ _ _ _ Hok Hh) as [_ Ebn].
  destruct (blk_dirty_ok _ _ _ _ Hok Hh) as (s1 & E1 & O1 & V1 & H1 & P1 & I1).
  unfold log_write. mrun. rewrite Hsize, Hn.
  replace ((LOGSIZE <=? zlen bs) || (LOGSIZE - 1 <=? zlen bs)) with false by lia.
  replace (lg_outstanding L <? 1) with false by lia. cbn beta iota.
  erewrite (run_bind_zoom lg_lock_lens) by (simpl; by rewrite Hlock). mrun.
  cbn [lset lg_lock_lens set_lg_lock set_lg_block set_lg_n set_lg_b lg_b lg_n lg_block].
  rewrite Ebn. set (r := log_find _ _ _ _) in *.
  assert (Hr : forall bs', bs' = (if decide (bn ∈ bs) then bs else bs ++ [bn]) ->
    (forall j x, bs' !! j = Some x -> znth (zupd (lg_block L) r bn) (Z.of_nat j) = x) /\
    (if r =? lg_n L then zlen bs + 1 else zlen bs) = zlen bs').
  { intros bs' ->. rewrite Hn. destruct Hf as [(Hin & Hr & E)|(Hin & ->)].
    - rewrite decide_True by done. replace (r =? zlen bs) with false by lia.
      split; [|done]. intros j x Hj. rewrite znth_zupd by (unfold zlen in *; lia).
      destruct (Z.eqb_spec r (Z.of_nat j)) as [->|]; [|by apply Hbl].
      apply Hbl in Hj. congruence.
    - rewrite decide_False, Z.eqb_refl by done. split; [|unfold zlen; rewrite length_app; simpl; lia].
      intros j x. rewrite znth_zupd by (rewrite Hlen; unfold zlen in *; lia).
      intros [Hj|[Hj Hx]]%lookup_app_Some.
      + pose proof (lookup_lt_Some _ _ _ Hj). replace (zlen bs =? Z.of_nat j) with false
          by (unfold zlen; lia). by apply Hbl.
      + apply list_lookup_singleton_Some in Hx as [Hx <-].
        by replace (zlen bs =? Z.of_nat j) with true by (unfold zlen; lia). }
  specialize (Hr _ eq_refl) as [Hr1 Hr2].
  set (bs' := if decide (bn ∈ bs) then bs else bs ++ [bn]) in *.
  exists (Log s1 false (lg_start L) (lg_size L) (lg_outstanding L) (lg_committing L) (lg_dev L)
    (zlen bs') (zupd (lg_block L) r bn)).
  split; [|split; [split; simpl; try done|simpl; auto]].
  - destruct L as [b lk st sz out comm dev n bl]. simpl in *. rewrite <-Hr2.
    destruct (r =? n); unfold set_lg_n; cbn; mrun; erewrite run_blk by (simpl; done);
      unfold zoom; simpl; by rewrite ?Hn.
  - rewrite <-Hr2. destruct (r =? lg_n L); lia.
  - subst bs'. case_decide; [done|]. apply NoDup_app. split; [done|].
    split; [|apply NoDup_singleton]. intros x Hx ->%list_elem_of_singleton. done.
  - rewrite zlen_zupd. done.
  - subst bs'. intros b. case_decide; [apply Hhm|]. rewrite elem_of_app, list_elem_of_singleton.
    intros [Hb| ->]; auto.
  - rewrite P1, Hpin. subst bs'. case_decide; set_solver.
  - by rewrite H1.
Qed.

Lemma begin_op_run L h bs : log_inv L h bs ->
  zlen bs + (lg_outstanding L + 1) * MAXOPBLOCKS <= LOGSIZE ->
  begin_op L = Ret tt (set_lg_outstanding (lg_outstanding L + 1) L).
Proof.
  intros [Hok Hlock Hdev Hreg Hsize Hcomm Hn] Hsp. unfold begin_op.
  erewrite (run_bind_zoom lg_lock_lens) by (simpl; by rewrite Hlock). mrun.
  destruct L as [b lk st sz out comm dev n bl]. simpl in *. subst n lk comm.
  replace (LOGSIZE <? _) with false by lia. simpl. mrun. done.
Qed.

(** What the writes of a commit leave in the home blocks. *)
Lemma commit_writes_home L bs v0 k : txn L bs -> home (lg_start L) k ->
  overlay (commit_writes L bs) v0 k = if decide (k ∈ bs) then blk_view (lg_b L) k else v0 k.
Proof.
  intros Ht Hk. unfold commit_writes. simpl.
  assert (Hst : lg_start L <> k).
  { intros <-. apply Hk. unfold LOGSIZE, MAXOPBLOCKS. lia. }
  rewrite decide_False, overlay_app by done.
  destruct (decide (k ∈ bs)) as [Hin|Hin].
  - apply list_elem_of_lookup in Hin as [i Hi]. eapply overlay_home; [apply Ht|done|].
    by rewrite list_lookup_fmap, Hi.
  - rewrite overlay_ne by (intros ?%home_writes_dom; done). simpl.
    rewrite decide_False by done. apply overlay_ne. intros Hs%slot_writes_dom.
    apply Hk. pose proof (tx_small _ _ Ht). unfold zlen in *. rewrite length_fmap in Hs. lia.
Qed.

Lemma commit_writes_dom L bs k : txn L bs -> k ∈ bs -> k ∈ (commit_writes L bs).*1.
Proof.
  intros Ht Hk. unfold commit_writes. rewrite fmap_cons, fmap_app.
  apply elem_of_cons. right. apply elem_of_app. left. unfold home_writes.
  rewrite fmap_reverse, elem_of_reverse. by rewrite fst_zip by (rewrite length_fmap; lia).
Qed.

(** The last [end_op] commits the transaction. *)
Lemma end_op_run L bs : log_inv L ∅ bs -> lg_outstanding L = 1 ->
  exists L' W, end_op L = Ret tt L' /\ log_inv L' ∅ [] /\ lg_outstanding L' = 0 /\
    lg_start L' = lg_start L /\
    blk_hist (lg_b L') = W ++ blk_hist (lg_b L) /\
    (bs = [] /\ W = [] \/ bs <> [] /\ W = commit_writes L bs) /\
    (forall k, home (lg_start L) k -> blk_view (lg_b L') k = blk_view (lg_b L) k).
Proof.
  intros Hi Hout. pose proof Hi as Hi'.
  destruct Hi as [Hok Hlock Hdev Hreg Hsize Hcomm Hn Hsm Hnd Hlen Hbl Hhm Hpin Hclean].
  set (Lc := Log (lg_b L) false (lg_start L) (lg_size L) 0 1 (lg_dev L) (lg_n L) (lg_block L)).
  set (fin := fun b => Log (wakeup ChLog b) false (lg_start L) (lg_size L) 0 0 (lg_dev L) 0 (lg_block L)).
  assert (Ht : txn Lc bs) by by split.
  assert (Hend : forall b, commit Lc = Ret tt (set_lg_b b (set_lg_n 0 Lc)) ->
    end_op L = Ret tt (fin b)).
  { intros b E. unfold end_op.
    erewrite (run_bind_zoom lg_lock_lens) by (simpl; by rewrite Hlock). mrun.
    destruct L as [b0 lk st sz out comm dev n bl]. simpl in *. subst out comm lk.
    simpl. mrun. erewrite (run_bind_zoom lg_lock_lens) by done. mrun.
    erewrite bind_eq by exact E.
    erewrite (run_bind_zoom lg_lock_lens) by done. unfold log_wakeup. mrun. done. }
  assert (Hfin : forall b, blk_ok b ∅ -> blk_pin b = ∅ ->
    hdr_ok (hist_block (blk_hist b) (lg_start L)) [] -> log_inv (fin b) ∅ []).
  { intros b Ob Pb Hb. destruct (blk_wakeup_ok b ∅ ChLog Ob) as (W1 & W2 & W3 & W4).
    split; simpl; try done; try by apply NoDup_nil.
    all: try by intros ? ?%elem_of_nil.
    - by rewrite W4, Pb.
    - by rewrite W3. }
  destruct (decide (bs = [])) as [->|Hne].
  - assert (E : commit Lc = Ret tt (set_lg_b (lg_b L) (set_lg_n 0 Lc))).
    { unfold commit. mrun. replace (lg_n Lc) with 0 by (simpl; by rewrite Hn).
      simpl. unfold Lc. by rewrite Hn. }
    destruct (blk_wakeup_ok (lg_b L) ∅ ChLog Hok) as (W1 & W2 & W3 & W4).
    exists (fin (lg_b L)), []. rewrite (Hend _ E).
    do 3 (split; [by auto|]). split; [done|]. split; [done|]. split; [by left|]. done.
  - destruct (commit_run Lc bs Ht Hne) as (b & E & W).
    destruct (blk_wakeup_ok b ∅ ChLog (wr_ok _ _ _ W)) as (W1 & W2 & W3 & W4).
    assert (Hp : blk_pin b = ∅).
    { rewrite (wr_pin _ _ _ W). cbn [lg_b Lc]. rewrite Hpin. apply set_eq. intros k.
      rewrite elem_of_difference, !elem_of_list_to_set.
      split; [|set_solver]. intros [Hk1 Hk2]. destruct Hk2. by apply (commit_writes_dom Lc). }
    exists (fin b), (commit_writes L bs). rewrite (Hend _ E).
    split; [done|]. split.
    { apply Hfin; [apply W|done|]. rewrite (wr_hist _ _ _ W), hist_block_app.
      unfold commit_writes. simpl. rewrite decide_True by done.
      apply head_clear_ok. unfold block_ok, head_of. rewrite new_header_len.
      eapply blk_view_ok, Hok. }
    split; [done|]. split; [done|]. split; [simpl; rewrite W3; apply W|].
    split; [by right|]. intros k Hk. simpl. rewrite W2, (wr_view _ _ _ W).
    rewrite commit_writes_home by done. by case_decide.
Qed.

(** After [end_op] nothing is pinned: the disk holds every home block. *)
Lemma log_inv_disk L k : log_inv L ∅ [] ->
  hist_block (blk_hist (lg_b L)) k = blk_view (lg_b L) k.
Proof. intros []. symmetry. apply blk_idle; [done|]. rewrite li_pin0. set_solver. Qed.

Lemma commit_writes_sb L bs w v : txn L bs -> w `suffix_of` commit_writes L bs ->
  overlay w v 1 = v 1.
Proof.
  intros Ht Hw. apply overlay_ne. intros Hk. eapply suffix_dom in Hk; [|done].
  pose proof (tx_reg _ _ Ht) as Hreg. unfold log_region in Hreg.
  unfold commit_writes in Hk. rewrite fmap_cons, fmap_app, fmap_cons in Hk.
  apply elem_of_cons in Hk as [Hk|Hk]; [simpl in Hk; lia|].
  apply elem_of_app in Hk as [Hk|Hk].
  - apply home_writes_dom, (tx_home _ _ Ht) in Hk as (_ & Hk & _). done.
  - apply elem_of_cons in Hk as [Hk|Hk]; [simpl in Hk; lia|].
    apply slot_writes_dom in Hk. lia.
Qed.

(** C1: a transaction is atomic under crashes. The last [end_op] appends a sequence
    of disk writes; if the machine stops after any number of them, booting the log
    on that disk ([initlog], with an empty cache) returns, and every home block is
    as before the transaction, or every home block is as the transaction left it. *)
Theorem end_op_crash_atomic L bs :
  log_inv L ∅ bs -> lg_outstanding L = 1 ->
  sb_logstart (sb_of_block (hist_block (blk_hist (lg_b L)) 1)) = lg_start L ->
  exists L' W, end_op L = Ret tt L' /\
    blk_hist (lg_b L') = W ++ blk_hist (lg_b L) /\
    forall w c, w `suffix_of` W -> blk_ok c ∅ -> blk_pin c = ∅ ->
      blk_hist c = w ++ blk_hist (lg_b L) ->
      exists R, initlog ROOTDEV (log_boot c) = Ret tt R /\
        ((forall k, home (lg_start L) k ->
            blk_view (lg_b R) k = hist_block (blk_hist (lg_b L)) k) \/
         (forall k, home (lg_start L) k -> blk_view (lg_b R) k = blk_view (lg_b L) k)).
Proof.
  intros Hi Hout Hsb. destruct (end_op_run L bs Hi Hout) as (L' & W & E & _ & _ & _ & Hh & HW & _).
  exists L', W. split; [done|]. split; [done|]. intros w c Hw Hok Hp Hc.
  assert (V : forall k, blk_view c k = hist_block (w ++ blk_hist (lg_b L)) k).
  { intros k. rewrite blk_idle by (done || by rewrite Hp). by rewrite Hc. }
  pose proof (log_inv_txn _ _ Hi) as Ht.
  assert (Hw' : w = [] \/ w `suffix_of` commit_writes L bs).
  { destruct HW as [[_ ->]|[_ ->]]; [left; by apply suffix_nil_inv|by right]. }
  assert (Hsuf : w `suffix_of` commit_writes L bs) by
    (destruct Hw' as [->|]; [apply suffix_nil|done]).
  destruct (crash_cases L bs w Ht (li_clean _ _ _ Hi) Hsuf) as (bs' & H1 & H2 & H3 & H4).
  destruct (initlog_run c (lg_start L) bs') as (R & ER & _ & _ & _ & HR); try done.
  - apply Ht.
  - by rewrite V, hist_block_app, (commit_writes_sb L bs w).
  - by rewrite V.
  - exists R. split; [done|].
    assert (Hrec : forall k, recovered (lg_start L) bs' (blk_view c) k =
      recovered (lg_start L) bs' (hist_block (w ++ blk_hist (lg_b L))) k).
    { intros k. unfold recovered. rewrite (overlay_ext _ _ _ _ (V k)). f_equal.
      unfold home_writes. do 2 f_equal. apply imap_ext. intros. apply V. }
    destruct H4 as [H4|H4]; [left|right]; intros k Hk; by rewrite HR, Hrec, H4.
Qed.
End LogCrash.
