(* ===== verification/LogTxn.v ===== *)
(** * The log implements the transaction interface

    Between [begin_op] and [end_op] the log gives the file system blocks to read,
    modify and log; this file discharges [TxnLaws] from the log's invariant. *)
From S2P Require Import Prelude Param Iface Log LogSpec LogCrash.

Section LogTxn.
Context {B : Type} `{HP : ProcIface B} `{HO : BlockOps B} `{HL : !BlockLaws B}.
Implicit Types (L : log B) (h : gmap nat (Z * bool)).

Definition txn_ok L h : Prop :=
  exists bs, log_inv L (fst <$> h) bs /\ 1 <= lg_outstanding L /\
    (forall i bn, h !! i = Some (bn, true) ->
      bn ∈ bs \/ blk_view (lg_b L) bn = hist_block (blk_hist (lg_b L)) bn) /\
    (forall i j bn c c', h !! i = Some (bn, c) -> h !! j = Some (bn, c') -> i = j).

Definition txn_quota L : nat := Z.to_nat (LOGSIZE - 1 - lg_n L).

Lemma set_lg_b_inv b L (h h' : gmap nat Z) bs : log_inv L h bs -> blk_ok b h' ->
  blk_pin b = blk_pin (lg_b L) -> blk_hist b = blk_hist (lg_b L) ->
  log_inv (set_lg_b b L) h' bs.
Proof. intros [] Hb Hp Hh. split; simpl; try done; congruence. Qed.

Lemma held_fst h i bn c : h !! i = Some (bn, c) -> (fst <$> h) !! i = Some bn.
Proof. intros Hi. by rewrite lookup_fmap, Hi. Qed.

Lemma run_log_blk {A} (m : M B A) L a b : m (lg_b L) = Ret a b ->
  log_blk m L = Ret a (set_lg_b b L).
Proof. intros E. exact (zoom_eq lg_b_lens m L a b E). Qed.

Lemma log_read_law L h bn : txn_ok L h -> 0 <= bn < FSSIZE ->
  (forall i c, h !! i <> Some (bn, c)) -> (size h <= txn_quota L)%nat ->
  exists i L', t_read ROOTDEV bn L = Ret i L' /\ h !! i = None /\
    txn_ok L' (<[i := (bn, true)]> h) /\
    (forall k, blk_view (lg_b L') k = blk_view (lg_b L) k) /\
    lg_start L' = lg_start L /\ cur_pid L' = cur_pid L /\ txn_quota L' = txn_quota L.
Proof.
  intros (bs & Hi & Hout & Hclean & Hinj) Hbn Hn Hq.
  destruct (blk_read_ok (lg_b L) (fst <$> h) bn) as (i & b & E & N & O & V & Hh & P & I);
    [apply Hi|done| | |].
  { intros i Hl. rewrite lookup_fmap in Hl. destruct (h !! i) as [[bn' c]|] eqn:El; simplify_eq/=.
    by apply (Hn i c). }
  { apply room_size. rewrite map_size_fmap, (li_pin _ _ _ Hi), size_list_to_set by apply Hi.
    unfold txn_quota in Hq. rewrite (li_n _ _ _ Hi) in Hq. pose proof (li_small _ _ _ Hi).
    unfold zlen, LOGSIZE, MAXOPBLOCKS, NBUF in *. lia. }
  exists i, (set_lg_b b L). rewrite lookup_fmap in N.
  assert (N' : h !! i = None) by (destruct (h !! i); done).
  split; [by apply run_log_blk|]. split; [done|]. split; [|done]. exists bs.
  rewrite fmap_insert. simpl. split; [by eapply set_lg_b_inv|]. split; [done|].
  assert (Hdisk : bn ∈ bs \/ blk_view b bn = hist_block (blk_hist b) bn).
  { destruct (decide (bn ∈ bs)) as [|Hb]; [by left|right].
    rewrite V, Hh. eapply blk_unheld; [apply Hi| |].
    - by rewrite (li_pin _ _ _ Hi), elem_of_list_to_set.
    - intros j Hj. rewrite lookup_fmap in Hj. destruct (h !! j) as [[bn' c]|] eqn:El; simplify_eq/=.
      by apply (Hn j c). }
  simpl. split.
  - intros j bn' [[<- ?]|[Hne Hj]]%lookup_insert_Some; [by simplify_eq|].
    rewrite V, Hh. eauto.
  - intros j1 j2 bn' c c' [[<- ?]|[Hne Hj]]%lookup_insert_Some
      [[<- ?]|[Hne' Hj']]%lookup_insert_Some; simplify_eq; eauto.
    + by destruct (Hn j2 c').
    + by destruct (Hn j1 c).
Qed.

Lemma log_set_data_law L h i bn c d : txn_ok L h -> h !! i = Some (bn, c) -> block_ok d ->
  exists L', t_set_data i d L = Ret tt L' /\ txn_ok L' (<[i := (bn, false)]> h) /\
    (forall k, blk_view (lg_b L') k = if decide (k = bn) then d else blk_view (lg_b L) k) /\
    lg_start L' = lg_start L /\ cur_pid L' = cur_pid L /\ txn_quota L' = txn_quota L.
Proof.
  intros (bs & Hi & Hout & Hclean & Hinj) Hl Hd.
  destruct (blk_set_data_ok (lg_b L) _ i bn d (li_ok _ _ _ Hi) (held_fst _ _ _ _ Hl) Hd)
    as (b & E & O & V & Hh & P & I).
  exists (set_lg_b b L). split; [by apply run_log_blk|]. split; [|done].
  exists bs. assert (Ef : fst <$> <[i := (bn, false)]> h = fst <$> h).
  { rewrite fmap_insert. apply insert_id. by apply (held_fst _ _ _ c). }
  rewrite Ef. split; [by eapply set_lg_b_inv|]. split; [done|]. simpl. split.
  - intros j bn' [[<- ?]|[Hne Hj]]%lookup_insert_Some; [done|].
    rewrite V, Hh, decide_False; [eauto|]. intros ->. by apply Hne, (Hinj i j bn c true).
  - intros j1 j2 bn' c1 c2 [[<- ?]|[Hne Hj]]%lookup_insert_Some
      [[<- ?]|[Hne' Hj']]%lookup_insert_Some; simplify_eq; eauto.
Qed.

Lemma log_write_law L h i bn c : txn_ok L h -> h !! i = Some (bn, c) ->
  home (lg_start L) bn -> (0 < txn_quota L)%nat ->
  exists L', t_write i L = Ret tt L' /\ txn_ok L' (<[i := (bn, true)]> h) /\
    (forall k, blk_view (lg_b L') k = blk_view (lg_b L) k) /\
    lg_start L' = lg_start L /\ cur_pid L' = cur_pid L /\
    (txn_quota L <= txn_quota L' + 1)%nat.
Proof.
  intros (bs & Hi & Hout & Hclean & Hinj) Hl Hhome Hq.
  assert (Hsm : zlen bs < LOGSIZE - 1).
  { unfold txn_quota in Hq. rewrite (li_n _ _ _ Hi) in Hq. lia. }
  destruct (log_write_run L (fst <$> h) bs i bn Hi Hout Hsm (held_fst _ _ _ _ Hl) Hhome)
    as (L' & E & Hi' & V & Hh & Hs & Ho & I).
  exists L'. split; [done|]. split; [|split; [done|split; [done|split; [done|]]]].
  - exists (if decide (bn ∈ bs) then bs else bs ++ [bn]).
    assert (Ef : fst <$> <[i := (bn, true)]> h = fst <$> h).
    { rewrite fmap_insert. apply insert_id. by apply (held_fst _ _ _ c). }
    rewrite Ef. split; [done|]. split; [by rewrite Ho|]. split.
    + intros j bn' [[<- ?]|[Hne Hj]]%lookup_insert_Some.
      * simplify_eq. left. case_decide; [done|]. apply elem_of_app. right. by left.
      * rewrite V, Hh. destruct (Hclean j bn' Hj) as [Hb|]; [left|by right].
        case_decide; [done|]. apply elem_of_app. by left.
    + intros j1 j2 bn' c1 c2 [[<- ?]|[Hne Hj]]%lookup_insert_Some
        [[<- ?]|[Hne' Hj']]%lookup_insert_Some; simplify_eq; eauto.
  - unfold txn_quota. rewrite (li_n _ _ _ Hi), (li_n _ _ _ Hi').
    case_decide; unfold zlen; rewrite ?length_app; simpl; lia.
Qed.

Lemma log_release_law L h i bn : txn_ok L h -> h !! i = Some (bn, true) ->
  exists L', t_release i L = Ret tt L' /\ txn_ok L' (delete i h) /\
    (forall k, blk_view (lg_b L') k = blk_view (lg_b L) k) /\
    lg_start L' = lg_start L /\ cur_pid L' = cur_pid L /\ txn_quota L' = txn_quota L.
Proof.
  intros (bs & Hi & Hout & Hclean & Hinj) Hl.
  destruct (blk_release_ok (lg_b L) _ i bn (li_ok _ _ _ Hi) (held_fst _ _ _ _ Hl))
    as (b & E & O & V & Hh & P & I).
  { rewrite (li_pin _ _ _ Hi), elem_of_list_to_set. by apply (Hclean i). }
  exists (set_lg_b b L). split; [by apply run_log_blk|]. split; [|done].
  exists bs. rewrite fmap_delete. split; [by eapply set_lg_b_inv|]. split; [done|]. simpl. split.
  - intros j bn' [Hne Hj]%lookup_delete_Some. rewrite V, Hh. eauto.
  - intros j1 j2 bn' c1 c2 [_ Hj1]%lookup_delete_Some [_ Hj2]%lookup_delete_Some. eauto.
Qed.

#[global] Program Instance log_laws : TxnLaws (log B) := {
  t_ok := txn_ok;
  t_view L := blk_view (lg_b L);
  t_quota := txn_quota;
  t_home L := home (lg_start L)
}.
Next Obligation. intros L h k (bs & Hi & _). eapply blk_view_ok, Hi. Qed.
Next Obligation.
  intros L h i bn c (bs & Hi & _) Hl. by eapply blk_data_view; [apply Hi|eapply held_fst].
Qed.
Next Obligation.
  intros L h bn Hok Hbn Hn Hq.
  destruct (log_read_law L h bn Hok Hbn Hn Hq) as (i & L' & E & N & O & V & Hs & I & Q).
  exists i, L'. rewrite Hs, Q. split_and!; try done. lia.
Qed.
Next Obligation.
  intros L h i bn c d Hok Hl Hd.
  destruct (log_set_data_law L h i bn c d Hok Hl Hd) as (L' & E & O & V & Hs & I & Q).
  exists L'. rewrite Hs, Q. split_and!; try done. lia.
Qed.
Next Obligation.
  intros L h i bn c Hok Hl Hh Hq.
  destruct (log_write_law L h i bn c Hok Hl Hh Hq) as (L' & E & O & V & Hs & I & Q).
  exists L'. rewrite Hs. by split_and!.
Qed.
Next Obligation.
  intros L h i bn Hok Hl.
  destruct (log_release_law L h i bn Hok Hl) as (L' & E & O & V & Hs & I & Q).
  exists L'. rewrite Hs, Q. split_and!; try done. lia.
Qed.
Next Obligation.
  intros L h c (bs & Hi & Hout & Hclean & Hinj).
  destruct (blk_wakeup_ok (lg_b L) _ c (li_ok _ _ _ Hi)) as (W1 & W2 & W3 & W4).
  split_and!; try done.
  - exists bs. split; [by eapply set_lg_b_inv|]. split; [done|]. split; [|done].
    intros j bn Hj. simpl. rewrite W2, W3. eauto.
  - apply cur_pid_wakeup.
  - unfold txn_quota. simpl. lia.
Qed.
End LogTxn.
