(* ===== verification/LogBio.v ===== *)
(** * The log over the buffer cache

    The stack log.c / bio.c / ide.c put together: the cache is a disk with a
    superblock, one transaction writes a block, and the crash theorem applies to it. *)
From S2P Require Import Prelude Param Iface Sleeplock Ide Bio Log LogSpec LogCrash LogTxn.

(** A file system image: the log starts at block 2 and has 30 blocks. *)
Definition image_sb : block :=
  put32 (put32 (put32 zero_block 0 1000) 12 30) 16 2.
Definition image : disk_hist (Z * Z) := [((ROOTDEV, 1), image_sb)].

(** The log on that disk with one system call between [begin_op] and [end_op]. *)
Definition fresh_log {B} (c : B) : log B :=
  Log c false 2 LOGSIZE 1 0 ROOTDEV 0 (replicate (Z.to_nat LOGSIZE) 0).

Lemma fresh_inv {B} `{BlockLaws B} (c : B) : blk_ok c ∅ -> blk_pin c = ∅ ->
  hist_block (blk_hist c) 2 = zero_block -> log_inv (fresh_log c) ∅ [].
Proof.
  intros Hok Hp Hz. split; simpl; try done.
  - constructor.
  - by intros b ?%elem_of_nil.
  - by rewrite Hz.
Qed.

(** The transaction has read block 100, replaced its contents and logged it. *)
Lemma one_write {B} `{BlockLaws B} (c : B) d : blk_ok c ∅ -> blk_pin c = ∅ ->
  hist_block (blk_hist c) 2 = zero_block -> block_ok d ->
  exists L, log_inv L ∅ [100] /\ lg_outstanding L = 1 /\ lg_start L = 2 /\
    blk_hist (lg_b L) = blk_hist c /\ blk_view (lg_b L) 100 = d.
Proof.
  intros Hok Hp Hz Hd. pose proof (fresh_inv c Hok Hp Hz) as Hi.
  destruct (blk_read_ok c ∅ 100) as (i & s1 & E1 & _ & O1 & V1 & H1 & P1 & _);
    [done|unfold FSSIZE; lia|done|apply room_size; rewrite Hp, size_empty, map_size_empty; unfold NBUF; lia|].
  assert (Hl : (<[i := 100]> ∅ : gmap nat Z) !! i = Some 100) by apply lookup_insert_eq.
  destruct (blk_set_data_ok s1 _ i 100 d O1 Hl Hd) as (s2 & E2 & O2 & V2 & H2 & P2 & _).
  assert (Hi2 : log_inv (fresh_log s2) (<[i := 100]> ∅) []).
  { destruct Hi. split; simpl in *; try done; congruence. }
  assert (Hh : home 2 100) by (unfold home, FSSIZE, LOGSIZE, MAXOPBLOCKS; lia).
  destruct (log_write_run (fresh_log s2) _ [] i 100 Hi2) as (L & E & Hi3 & V3 & H3 & S3 & U3 & _);
    [done|done|done|done|].
  rewrite decide_False in Hi3 by set_solver. simpl in *.
  destruct (blk_release_ok (lg_b L) _ i 100 (li_ok _ _ _ Hi3) Hl) as (s4 & E4 & O4 & V4 & H4 & P4 & _).
  { left. rewrite (li_pin _ _ _ Hi3). set_solver. }
  rewrite delete_insert_eq, delete_empty in O4.
  exists (set_lg_b s4 L). split; [|split; [done|split; [done|split]]].
  - destruct Hi3. split; simpl in *; try done; congruence.
  - simpl. congruence.
  - simpl. by rewrite V4, V3, V2, decide_True.
Qed.

(** The superblock of the image names the log's start; block 100 is zero on disk and
    filled with 7 by the transaction: after a crash it is one or the other. *)
Lemma end_op_crash_atomic_witness : exists (L L' : log (bio lone_proc)) W,
  blk_view (lg_b L) 100 = replicate (Z.to_nat BSIZE) 7 /\
  end_op L = Ret tt L' /\ blk_hist (lg_b L') = W ++ blk_hist (lg_b L) /\
  forall w (c : bio lone_proc), w `suffix_of` W -> blk_ok c ∅ -> blk_pin c = ∅ ->
    blk_hist c = w ++ blk_hist (lg_b L) ->
    exists R, initlog ROOTDEV (log_boot c) = Ret tt R /\
      ((forall k, home 2 k -> blk_view (lg_b R) k = hist_block (blk_hist (lg_b L)) k) \/
       (forall k, home 2 k -> blk_view (lg_b R) k = blk_view (lg_b L) k)).
Proof.
  destruct (binit_ok (P := lone_proc) (7, false) image) as (c & _ & Hok & Hh & Hp).
  { apply Forall_singleton. by vm_compute. }
  destruct (one_write c (replicate (Z.to_nat BSIZE) 7)) as (L & Hi & Ho & Hs & Hb & Hv);
    [exact Hok|exact Hp|by change (blk_hist c) with (bio_hist c); rewrite Hh|by vm_compute|].
  assert (Hsb : sb_logstart (sb_of_block (hist_block (blk_hist (lg_b L)) 1)) = lg_start L).
  { rewrite Hb, Hs. change (blk_hist c) with (bio_hist c). rewrite Hh. by vm_compute. }
  destruct (end_op_crash_atomic L [100] Hi Ho Hsb) as (L' & W & E & HW & Hc).
  rewrite Hs in Hc. exists L, L', W. split; [done|]. split; [done|]. split; [done|]. exact Hc.
Defined.
