(* ===== verification/Fs.v ===== *)
(** * The file system: fs.c

    Blocks (the free bitmap), inodes and the inode cache, file contents, directories
    and paths, over the transaction interface of the log ([TxnOps]). *)
From S2P Require Import Prelude Param Iface Sleeplock CString.

Definition T_DIR : Z := 1.
Definition T_FILE : Z := 2.
Definition T_DEV : Z := 3.
Definition IPB : Z := BSIZE / 64.
Definition BPB : Z := BSIZE * 8.
Definition DIRSIZ : Z := 14.
Definition DIRENT : Z := 16.     (* sizeof(struct dirent) *)

(** ** The on-disk inode (fs.h) *)
Record dinode := Dinode {
  d_type : Z;
  d_major : Z;
  d_minor : Z;
  d_nlink : Z;
  d_size : Z;
  d_addrs : list Z
}.
Definition set_d_type (v : Z) (s : dinode) : dinode :=
  Dinode v (d_major s) (d_minor s) (d_nlink s) (d_size s) (d_addrs s).
Definition set_d_major (v : Z) (s : dinode) : dinode :=
  Dinode (d_type s) v (d_minor s) (d_nlink s) (d_size s) (d_addrs s).
Definition set_d_minor (v : Z) (s : dinode) : dinode :=
  Dinode (d_type s) (d_major s) v (d_nlink s) (d_size s) (d_addrs s).
Definition set_d_nlink (v : Z) (s : dinode) : dinode :=
  Dinode (d_type s) (d_major s) (d_minor s) v (d_size s) (d_addrs s).
Definition set_d_size (v : Z) (s : dinode) : dinode :=
  Dinode (d_type s) (d_major s) (d_minor s) (d_nlink s) v (d_addrs s).
Definition set_d_addrs (v : list Z) (s : dinode) : dinode :=
  Dinode (d_type s) (d_major s) (d_minor s) (d_nlink s) (d_size s) v.

(** [ip->addrs] read from, and written to, the [NDIRECT + 1] words at [o]. *)
Fixpoint get_addrs (n : nat) (b : block) (o : Z) : list Z :=
  match n with
  | O => []
  | S n' => get32 b o :: get_addrs n' b (o + 4)
  end.
Fixpoint put_addrs (b : block) (o : Z) (l : list Z) : block :=
  match l with
  | [] => b
  | a :: l => put_addrs (put32 b o a) (o + 4) l
  end.

Definition dinode_get (b : block) (o : Z) : dinode :=
  Dinode (gets16 b o) (gets16 b (o + 2)) (gets16 b (o + 4)) (gets16 b (o + 6))
    (get32 b (o + 8)) (get_addrs 13 b (o + 12)).
Definition dinode_put (d : dinode) (b : block) (o : Z) : block :=
  put_addrs (put32 (put16 (put16 (put16 (put16 b o (d_type d)) (o + 2) (d_major d))
    (o + 4) (d_minor d)) (o + 6) (d_nlink d)) (o + 8) (d_size d)) (o + 12) (d_addrs d).

(** ** The in-memory inode (file.h) *)
Record inode := Inode {
  in_dev : Z;
  in_inum : Z;
  in_ref : Z;
  in_lock : sleeplock;
  in_valid : bool;
  in_d : dinode
}.
Definition set_in_dev (v : Z) (s : inode) : inode :=
  Inode v (in_inum s) (in_ref s) (in_lock s) (in_valid s) (in_d s).
Definition set_in_inum (v : Z) (s : inode) : inode :=
  Inode (in_dev s) v (in_ref s) (in_lock s) (in_valid s) (in_d s).
Definition set_in_ref (v : Z) (s : inode) : inode :=
  Inode (in_dev s) (in_inum s) v (in_lock s) (in_valid s) (in_d s).
Definition set_in_lock (v : sleeplock) (s : inode) : inode :=
  Inode (in_dev s) (in_inum s) (in_ref s) v (in_valid s) (in_d s).
Definition set_in_valid (v : bool) (s : inode) : inode :=
  Inode (in_dev s) (in_inum s) (in_ref s) (in_lock s) v (in_d s).
Definition set_in_d (v : dinode) (s : inode) : inode :=
  Inode (in_dev s) (in_inum s) (in_ref s) (in_lock s) (in_valid s) v.

(** A directory entry (fs.h). *)
Record dirent := Dirent { de_inum : Z; de_name : list Z }.
Record stat := Stat { st_type : Z; st_dev : Z; st_ino : Z; st_nlink : Z; st_size : Z }.

(** The file system's state over the transaction layer: [icache], [sb], and
    [myproc()->cwd] (the index of an inode). *)
Record fs (T : Type) := Fs {
  f_txn : T;
  f_lock : bool;
  f_inodes : list inode;
  f_sb : superblock;
  f_cwd : nat
}.
Arguments Fs {T}.
Arguments f_txn {T}.
Arguments f_lock {T}.
Arguments f_inodes {T}.
Arguments f_sb {T}.
Arguments f_cwd {T}.
Definition set_f_txn {T : Type} (v : T) (s : fs T) : fs T :=
  Fs v (f_lock s) (f_inodes s) (f_sb s) (f_cwd s).
Definition set_f_lock {T : Type} (v : bool) (s : fs T) : fs T :=
  Fs (f_txn s) v (f_inodes s) (f_sb s) (f_cwd s).
Definition set_f_inodes {T : Type} (v : list inode) (s : fs T) : fs T :=
  Fs (f_txn s) (f_lock s) v (f_sb s) (f_cwd s).
Definition set_f_sb {T : Type} (v : superblock) (s : fs T) : fs T :=
  Fs (f_txn s) (f_lock s) (f_inodes s) v (f_cwd s).
Definition set_f_cwd {T : Type} (v : nat) (s : fs T) : fs T :=
  Fs (f_txn s) (f_lock s) (f_inodes s) (f_sb s) v.

Definition dinode0 : dinode := Dinode 0 0 0 0 0 (replicate 13 0).
Definition inode0 : inode := Inode 0 0 0 initsleeplock false dinode0.

(** Device drivers behind [devsw]: a major number without a driver is [None]. *)
Class DevSw (T : Type) := {
  dev_read : Z -> option (nat -> Z -> M T (Z * list Z));
  dev_write : Z -> option (nat -> list Z -> Z -> M T Z)
}.

(** ** Bits of the free map *)

(** The loop of [balloc] over one bitmap block: the first free block at [bi] or
    later of the [size] blocks mapped from [b] on. *)
Fixpoint balloc_scan (k : nat) (data : block) (b bi size : Z) : option Z :=
  match k with
  | O => None
  | S k' =>
    if b + bi <? size then
      if Z.land (znth data (bi / 8)) (Z.shiftl 1 (bi mod 8)) =? 0 then Some bi
      else balloc_scan k' data b (bi + 1) size
    else None
  end.
Definition set_bit (data : block) (bi : Z) : block :=
  zupd data (bi / 8) (Z.lor (znth data (bi / 8)) (Z.shiftl 1 (bi mod 8))).
Definition clear_bit (data : block) (bi : Z) : block :=
  zupd data (bi / 8) (Z.ldiff (znth data (bi / 8)) (Z.shiftl 1 (bi mod 8))).

Definition IBLOCK (i : Z) (sb : superblock) : Z := i / IPB + sb_inodestart sb.
Definition BBLOCK (b : Z) (sb : superblock) : Z := b / BPB + sb_bmapstart sb.
Definition ioff (inum : Z) : Z := inum mod IPB * 64.

(** ** Path elements *)

Definition slash : Z := 47.

(** [while( *path == '/') path++;] A path is the list of its bytes without the
    terminating NUL. *)
Fixpoint skip_slashes (path : list Z) : list Z :=
  match path with
  | c :: rest => if c =? slash then skip_slashes rest else path
  | [] => []
  end.
(** The element up to the next slash or the end, and what follows. *)
Fixpoint take_elem (path : list Z) : list Z * list Z :=
  match path with
  | c :: rest => if c =? slash then ([], path)
                 else let (e, r) := take_elem rest in (c :: e, r)
  | [] => ([], [])
  end.
Definition skipelem (path name : list Z) : option (list Z * list Z) :=
  match skip_slashes path with
  | [] => None
  | path =>
    let (e, rest) := take_elem path in
    let name' := if DIRSIZ <=? zlen e then splice name 0 (take (Z.to_nat DIRSIZ) e)
                 else splice name 0 (e ++ [0]) in
    Some (skip_slashes rest, name')
  end.

Definition namecmp (s t : list Z) : Z :=
  strncmp_loop (znth s) (znth t) 0 (Z.to_nat DIRSIZ).

(** [strncpy(de.name, name, DIRSIZ)]: up to the NUL, then NULs. *)
Fixpoint strncpy_name (n : nat) (name : list Z) : list Z :=
  match n with
  | O => []
  | S n' => match name with
            | c :: rest => if c =? 0 then replicate n 0 else c :: strncpy_name n' rest
            | [] => replicate n 0
            end
  end.

(** A directory entry in and from its 16 bytes. *)
Definition dirent_of (b : list Z) : dirent :=
  Dirent (get16 b 0) (take (Z.to_nat DIRSIZ) (drop 2 b)).
Definition dirent_bytes (de : dirent) : list Z :=
  put16 [0; 0] 0 (de_inum de) ++ de_name de.

Section Fs.
Context {T : Type} `{ProcIface T} `{TxnOps T} `{DevSw T}.

Definition f_lock_lens : lens (fs T) bool := Lens f_lock set_f_lock.
Definition f_txn_lens : lens (fs T) T := Lens f_txn set_f_txn.
Definition txn {A} (m : M T A) : M (fs T) A := zoom f_txn_lens m.

(** [&icache.inode[i]]. *)
Definition inode_at (s : fs T) (i : nat) : inode := nth i (f_inodes s) inode0.
Definition upd_inode (i : nat) (f : inode -> inode) (s : fs T) : fs T :=
  set_f_inodes (<[i := f (inode_at s i)]> (f_inodes s)) s.
Definition upd_d (i : nat) (f : dinode -> dinode) (s : fs T) : fs T :=
  upd_inode i (fun ip => set_in_d (f (in_d ip)) ip) s.
Definition inode_lock_lens (i : nat) : lens (fs T) (sleeplock * T) :=
  Lens (fun s => (in_lock (inode_at s i), f_txn s))
    (fun lp s => set_f_txn lp.2 (upd_inode i (set_in_lock lp.1) s)).

(** ** Blocks *)

Definition bzero (dev bno : Z) : M (fs T) unit :=
  let! bp := txn (t_read dev bno) in
  txn (t_set_data bp zero_block) ;;;
  txn (t_write bp) ;;;
  txn (t_release bp).

Fixpoint balloc_loop (fuel : nat) (dev b : Z) : M (fs T) Z :=
  match fuel with
  | O => fun _ => NoFuel
  | S fuel' =>
    let! s := get in
    if b <? sb_size (f_sb s) then
      let! bp := txn (t_read dev (BBLOCK b (f_sb s))) in
      let! s := get in
      let data := t_data (f_txn s) bp in
      match balloc_scan (Z.to_nat BPB) data b 0 (sb_size (f_sb s)) with
      | Some bi =>
        txn (t_set_data bp (set_bit data bi)) ;;;
        txn (t_write bp) ;;;
        txn (t_release bp) ;;;
        bzero dev (b + bi) ;;;
        ret (b + bi)
      | None => txn (t_release bp) ;;; balloc_loop fuel' dev (b + BPB)
      end
    else panic "balloc: out of blocks"
  end.
(** Allocate a zeroed disk block. *)
Definition balloc (dev : Z) : M (fs T) Z :=
  let! s := get in
  balloc_loop (S (Z.to_nat ((sb_size (f_sb s) + BPB - 1) / BPB))) dev 0.

Definition bfree (dev b : Z) : M (fs T) unit :=
  let! s := get in
  let! bp := txn (t_read dev (BBLOCK b (f_sb s))) in
  let bi := b mod BPB in
  let! s := get in
  let data := t_data (f_txn s) bp in
  if Z.land (znth data (bi / 8)) (Z.shiftl 1 (bi mod 8)) =? 0 then panic "freeing free block"
  else
  txn (t_set_data bp (clear_bit data bi)) ;;;
  txn (t_write bp) ;;;
  txn (t_release bp).

(** ** Inodes *)

Definition iinit (dev : Z) : M (fs T) unit :=
  modify (set_f_lock false) ;;;
  modify (fun s => set_f_inodes (set_in_lock initsleeplock <$> f_inodes s) s) ;;;
  let! bp := txn (t_read dev 1) in
  let! s := get in
  modify (set_f_sb (sb_of_block (t_data (f_txn s) bp))) ;;;
  txn (t_release bp).

(** The loop of [iget]: the entry already cached, or the first empty one. *)
Fixpoint iget_scan (l : list inode) (i : nat) (empty : option nat) (dev inum : Z)
    : nat + option nat :=
  match l with
  | [] => inr empty
  | ip :: l =>
    if (0 <? in_ref ip) && (in_dev ip =? dev) && (in_inum ip =? inum) then inl i
    else iget_scan l (S i)
      (match empty with
       | None => if in_ref ip =? 0 then Some i else None
       | _ => empty
       end) dev inum
  end.
Definition iget (dev inum : Z) : M (fs T) nat :=
  zoom f_lock_lens spin_acquire ;;;
  let! s := get in
  match iget_scan (f_inodes s) 0 None dev inum with
  | inl i =>
    modify (upd_inode i (fun ip => set_in_ref (in_ref ip + 1) ip)) ;;;
    zoom f_lock_lens spin_release ;;;
    ret i
  | inr None => panic "iget: no inodes"
  | inr (Some i) =>
    modify (upd_inode i (set_in_dev dev)) ;;;
    modify (upd_inode i (set_in_inum inum)) ;;;
    modify (upd_inode i (set_in_ref 1)) ;;;
    modify (upd_inode i (set_in_valid false)) ;;;
    zoom f_lock_lens spin_release ;;;
    ret i
  end.

Fixpoint ialloc_loop (k : nat) (dev inum type : Z) : M (fs T) nat :=
  match k with
  | O => panic "ialloc: no inodes"
  | S k' =>
    let! s := get in
    let! bp := txn (t_read dev (IBLOCK inum (f_sb s))) in
    let! s := get in
    let data := t_data (f_txn s) bp in
    if d_type (dinode_get data (ioff inum)) =? 0 then
      txn (t_set_data bp (dinode_put (set_d_type type dinode0) data (ioff inum))) ;;;
      txn (t_write bp) ;;;
      txn (t_release bp) ;;;
      iget dev inum
    else txn (t_release bp) ;;; ialloc_loop k' dev (inum + 1) type
  end.
(** Allocate an inode of type [type] on [dev]. *)
Definition ialloc (dev type : Z) : M (fs T) nat :=
  let! s := get in
  ialloc_loop (Z.to_nat (sb_ninodes (f_sb s) - 1)) dev 1 type.

(** Copy a modified in-memory inode to disk. *)
Definition iupdate (i : nat) : M (fs T) unit :=
  let! s := get in
  let ip := inode_at s i in
  let! bp := txn (t_read (in_dev ip) (IBLOCK (in_inum ip) (f_sb s))) in
  let! s := get in
  txn (t_set_data bp (dinode_put (in_d ip) (t_data (f_txn s) bp) (ioff (in_inum ip)))) ;;;
  txn (t_write bp) ;;;
  txn (t_release bp).

Definition idup (i : nat) : M (fs T) nat :=
  zoom f_lock_lens spin_acquire ;;;
  modify (upd_inode i (fun ip => set_in_ref (in_ref ip + 1) ip)) ;;;
  zoom f_lock_lens spin_release ;;;
  ret i.

(** Lock the inode; read it from disk if necessary. Sleeplocks of inodes are the
    channels above those of the buffers. *)
Definition inode_chan (i : nat) : nat := (NBUF + i)%nat.
Definition ilock (i : nat) : M (fs T) unit :=
  let! s := get in
  if in_ref (inode_at s i) <? 1 then panic "ilock"
  else
  zoom (inode_lock_lens i) (acquiresleep (inode_chan i)) ;;;
  let! s := get in
  let ip := inode_at s i in
  when (negb (in_valid ip)) (
    let! bp := txn (t_read (in_dev ip) (IBLOCK (in_inum ip) (f_sb s))) in
    let! s := get in
    let d := dinode_get (t_data (f_txn s) bp) (ioff (in_inum ip)) in
    modify (upd_inode i (set_in_d d)) ;;;
    txn (t_release bp) ;;;
    modify (upd_inode i (set_in_valid true)) ;;;
    if d_type d =? 0 then panic "ilock: no type" else ret tt).

Definition iunlock (i : nat) : M (fs T) unit :=
  let! held := zoom (inode_lock_lens i) holdingsleep in
  let! s := get in
  if negb held || (in_ref (inode_at s i) <? 1) then panic "iunlock"
  else zoom (inode_lock_lens i) (releasesleep (inode_chan i)).

(** ** Inode content *)

(** The disk block of the [bn]th block of the inode, allocated if there is none. *)
Definition bmap (i : nat) (bn : Z) : M (fs T) Z :=
  let! s := get in
  let ip := inode_at s i in
  if bn <? NDIRECT then
    let addr := znth (d_addrs (in_d ip)) bn in
    if addr =? 0 then
      let! addr := balloc (in_dev ip) in
      modify (upd_d i (fun d => set_d_addrs (zupd (d_addrs d) bn addr) d)) ;;;
      ret addr
    else ret addr
  else
  let bn := bn - NDIRECT in
  if bn <? NINDIRECT then
    let addr := znth (d_addrs (in_d ip)) NDIRECT in
    let! addr :=
      (if addr =? 0 then
         let! addr := balloc (in_dev ip) in
         modify (upd_d i (fun d => set_d_addrs (zupd (d_addrs d) NDIRECT addr) d)) ;;;
         ret addr
       else ret addr) in
    let! bp := txn (t_read (in_dev ip) addr) in
    let! s := get in
    let a := get32 (t_data (f_txn s) bp) (4 * bn) in
    let! a :=
      (if a =? 0 then
         let! a := balloc (in_dev ip) in
         let! s := get in
         txn (t_set_data bp (put32 (t_data (f_txn s) bp) (4 * bn) a)) ;;;
         txn (t_write bp) ;;;
         ret a
       else ret a) in
    txn (t_release bp) ;;;
    ret a
  else panic "bmap: out of range".

Fixpoint itrunc_direct (k : nat) (i : nat) (n : Z) : M (fs T) unit :=
  match k with
  | O => ret tt
  | S k' =>
    let! s := get in
    let ip := inode_at s i in
    let addr := znth (d_addrs (in_d ip)) n in
    when (negb (addr =? 0)) (
      bfree (in_dev ip) addr ;;;
      modify (upd_d i (fun d => set_d_addrs (zupd (d_addrs d) n 0) d))) ;;;
    itrunc_direct k' i (n + 1)
  end.
Fixpoint itrunc_indirect (k : nat) (dev : Z) (a : block) (j : Z) : M (fs T) unit :=
  match k with
  | O => ret tt
  | S k' =>
    when (negb (get32 a (4 * j) =? 0)) (bfree dev (get32 a (4 * j))) ;;;
    itrunc_indirect k' dev a (j + 1)
  end.
(** Truncate inode (discard contents). *)
Definition itrunc (i : nat) : M (fs T) unit :=
  itrunc_direct (Z.to_nat NDIRECT) i 0 ;;;
  let! s := get in
  let ip := inode_at s i in
  let ind := znth (d_addrs (in_d ip)) NDIRECT in
  when (negb (ind =? 0)) (
    let! bp := txn (t_read (in_dev ip) ind) in
    let! s := get in
    itrunc_indirect (Z.to_nat NINDIRECT) (in_dev ip) (t_data (f_txn s) bp) 0 ;;;
    txn (t_release bp) ;;;
    bfree (in_dev ip) ind ;;;
    modify (upd_d i (fun d => set_d_addrs (zupd (d_addrs d) NDIRECT 0) d))) ;;;
  modify (upd_d i (set_d_size 0)) ;;;
  iupdate i.

(** Drop a reference; free the inode if it was the last and there are no links. *)
Definition iput (i : nat) : M (fs T) unit :=
  zoom (inode_lock_lens i) (acquiresleep (inode_chan i)) ;;;
  let! s := get in
  let ip := inode_at s i in
  when (in_valid ip && (d_nlink (in_d ip) =? 0)) (
    zoom f_lock_lens spin_acquire ;;;
    let! r := gets (fun s => in_ref (inode_at s i)) in
    zoom f_lock_lens spin_release ;;;
    when (r =? 1) (
      itrunc i ;;;
      modify (upd_d i (set_d_type 0)) ;;;
      iupdate i ;;;
      modify (upd_inode i (set_in_valid false)))) ;;;
  zoom (inode_lock_lens i) (releasesleep (inode_chan i)) ;;;
  zoom f_lock_lens spin_acquire ;;;
  modify (upd_inode i (fun ip => set_in_ref (in_ref ip - 1) ip)) ;;;
  zoom f_lock_lens spin_release.

Definition iunlockput (i : nat) : M (fs T) unit := iunlock i ;;; iput i.

Definition stati (i : nat) : M (fs T) stat :=
  gets (fun s => let ip := inode_at s i in
    Stat (d_type (in_d ip)) (in_dev ip) (in_inum ip) (d_nlink (in_d ip)) (d_size (in_d ip))).

Fixpoint readi_loop (fuel : nat) (i : nat) (tot n off : Z) (acc : list Z) : M (fs T) (list Z) :=
  if tot <? n then
    match fuel with
    | O => fun _ => NoFuel
    | S fuel' =>
      let! s := get in
      let! addr := bmap i (off / BSIZE) in
      let! bp := txn (t_read (in_dev (inode_at s i)) addr) in
      let m := Z.min (n - tot) (BSIZE - off mod BSIZE) in
      let! s := get in
      let d := take (Z.to_nat m) (drop (Z.to_nat (off mod BSIZE)) (t_data (f_txn s) bp)) in
      txn (t_release bp) ;;;
      readi_loop fuel' i (tot + m) n (off + m) (acc ++ d)
    end
  else ret acc.
(** Read data from inode: the count ([-1] on error) and the bytes stored at [dst].
    [off] and [n] are [uint]s. *)
Definition readi (i : nat) (off n : Z) : M (fs T) (Z * list Z) :=
  let! s := get in
  let d := in_d (inode_at s i) in
  if d_type d =? T_DEV then
    if (d_major d <? 0) || (NDEV <=? d_major d) then ret (-1, [])
    else match dev_read (d_major d) with
         | None => ret (-1, [])
         | Some f => txn (f i n)
         end
  else
  if (d_size d <? off) || (u32 (off + n) <? off) then ret (-1, [])
  else
  let n := if d_size d <? off + n then d_size d - off else n in
  let! data := readi_loop (Z.to_nat n) i 0 n off [] in
  ret (n, data).

Fixpoint writei_loop (fuel : nat) (i : nat) (src : list Z) (tot n off : Z) : M (fs T) Z :=
  if tot <? n then
    match fuel with
    | O => fun _ => NoFuel
    | S fuel' =>
      let! s := get in
      let! addr := bmap i (off / BSIZE) in
      let! bp := txn (t_read (in_dev (inode_at s i)) addr) in
      let m := Z.min (n - tot) (BSIZE - off mod BSIZE) in
      let! s := get in
      txn (t_set_data bp (splice (t_data (f_txn s) bp) (Z.to_nat (off mod BSIZE))
        (take (Z.to_nat m) (drop (Z.to_nat tot) src)))) ;;;
      txn (t_write bp) ;;;
      txn (t_release bp) ;;;
      writei_loop fuel' i src (tot + m) n (off + m)
    end
  else ret off.
(** Write data to inode: the count, or [-1]. *)
Definition writei (i : nat) (src : list Z) (off n : Z) : M (fs T) Z :=
  let! s := get in
  let d := in_d (inode_at s i) in
  if d_type d =? T_DEV then
    if (d_major d <? 0) || (NDEV <=? d_major d) then ret (-1)
    else match dev_write (d_major d) with
         | None => ret (-1)
         | Some f => txn (f i src n)
         end
  else
  if (d_size d <? off) || (u32 (off + n) <? off) then ret (-1)
  else if MAXFILE * BSIZE <? off + n then ret (-1)
  else
  let! off := writei_loop (Z.to_nat n) i src 0 n off in
  let! s := get in
  when ((0 <? n) && (d_size (in_d (inode_at s i)) <? off)) (
    modify (upd_d i (set_d_size off)) ;;;
    iupdate i) ;;;
  ret n.

(** ** Directories *)

(** [readi(dp, (char* )&de, off, sizeof(de))]. *)
Definition read_dirent (dp : nat) (off : Z) (msg : string) : M (fs T) dirent :=
  let! (n, b) := readi dp off DIRENT in
  if negb (n =? DIRENT) then panic msg else ret (dirent_of b).

Fixpoint dirlookup_loop (fuel : nat) (dp : nat) (name : list Z) (off : Z)
    : M (fs T) (option (nat * Z)) :=
  let! s := get in
  if off <? d_size (in_d (inode_at s dp)) then
    match fuel with
    | O => fun _ => NoFuel
    | S fuel' =>
      let! de := read_dirent dp off "dirlookup read" in
      if de_inum de =? 0 then dirlookup_loop fuel' dp name (off + DIRENT)
      else if namecmp name (de_name de) =? 0 then
        let! s := get in
        let! ip := iget (in_dev (inode_at s dp)) (de_inum de) in
        ret (Some (ip, off))
      else dirlookup_loop fuel' dp name (off + DIRENT)
    end
  else ret None.
(** The entry's inode and its offset ([*poff]). *)
Definition dirlookup (dp : nat) (name : list Z) : M (fs T) (option (nat * Z)) :=
  let! s := get in
  let d := in_d (inode_at s dp) in
  if negb (d_type d =? T_DIR) then panic "dirlookup not DIR"
  else dirlookup_loop (Z.to_nat (d_size d / DIRENT + 1)) dp name 0.

(** The first offset with an empty entry, or the end of the directory. *)
Fixpoint dirlink_loop (fuel : nat) (dp : nat) (off : Z) : M (fs T) Z :=
  let! s := get in
  if off <? d_size (in_d (inode_at s dp)) then
    match fuel with
    | O => fun _ => NoFuel
    | S fuel' =>
      let! de := read_dirent dp off "dirlink read" in
      if de_inum de =? 0 then ret off else dirlink_loop fuel' dp (off + DIRENT)
    end
  else ret off.
Definition dirlink (dp : nat) (name : list Z) (inum : Z) : M (fs T) Z :=
  let! r := dirlookup dp name in
  match r with
  | Some (ip, _) => iput ip ;;; ret (-1)
  | None =>
    let! s := get in
    let! off := dirlink_loop (Z.to_nat (d_size (in_d (inode_at s dp)) / DIRENT + 1)) dp 0 in
    let de := Dirent inum (strncpy_name (Z.to_nat DIRSIZ) name) in
    let! n := writei dp (dirent_bytes de) off DIRENT in
    if negb (n =? DIRENT) then panic "dirlink" else ret 0
  end.

(** ** Paths *)

Fixpoint namex_loop (fuel : nat) (ip : nat) (path : list Z) (nameiparent : bool)
    (name : list Z) : M (fs T) (option nat * list Z) :=
  match skipelem path name with
  | None =>
    if nameiparent then iput ip ;;; ret (None, name) else ret (Some ip, name)
  | Some (path, name) =>
    match fuel with
    | O => fun _ => NoFuel
    | S fuel' =>
      ilock ip ;;;
      let! s := get in
      if negb (d_type (in_d (inode_at s ip)) =? T_DIR) then
        iunlockput ip ;;; ret (None, name)
      else if nameiparent && (match path with [] => true | _ => false end) then
        (* stop one level early *)
        iunlock ip ;;; ret (Some ip, name)
      else
        let! next := dirlookup ip name in
        match next with
        | None => iunlockput ip ;;; ret (None, name)
        | Some (next, _) => iunlockput ip ;;; namex_loop fuel' next path nameiparent name
        end
    end
  end.
(** Look up a path: the inode (or its parent) and the last element copied into
    [name]. *)
Definition namex (path : list Z) (nameiparent : bool) (name : list Z)
    : M (fs T) (option nat * list Z) :=
  let! s := get in
  let! ip := (if match path with c :: _ => c =? slash | [] => false end
              then iget ROOTDEV ROOTINO else idup (f_cwd s)) in
  namex_loop (length path) ip path nameiparent name.

Definition namei (path : list Z) : M (fs T) (option nat) :=
  let! (ip, _) := namex path false (replicate (Z.to_nat DIRSIZ) 0) in
  ret ip.
Definition nameiparent (path name : list Z) : M (fs T) (option nat * list Z) :=
  namex path true name.
End Fs.
