(* ===== verification/FsBlock.v ===== *)
(** * The free map

    [balloc] and [bfree] against the bitmap they keep in the log's blocks, over the
    laws of the transaction interface ([TxnLaws]). *)
From S2P Require Import Prelude Param Iface Sleeplock CString Fs.

(** ** Bits of a bitmap block *)

Definition get_bit (data : block) (bi : Z) : bool := Z.testbit (znth data (bi / 8)) (bi mod 8).

Lemma land_bit x k : 0 <= k -> (Z.land x (Z.shiftl 1 k) =? 0) = negb (Z.testbit x k).
Proof.
  intros Hk. rewrite Z.shiftl_1_l. destruct (Z.testbit x k) eqn:E; simpl.
  - apply Z.eqb_neq. intros H0.
    assert (Hb : Z.testbit (Z.land x (2 ^ k)) k = false) by (rewrite H0; apply Z.bits_0).
    rewrite Z.land_spec, E, Z.pow2_bits_true in Hb by done. done.
  - apply Z.eqb_eq. apply Z.bits_inj'. intros n Hn. rewrite Z.land_spec, Z.bits_0.
    destruct (decide (n = k)) as [->|Hne]; [by rewrite E|].
    rewrite Z.pow2_bits_false by lia. apply andb_false_r.
Qed.

Lemma bit_addr bi bj : bi <> bj -> bi / 8 = bj / 8 -> bi mod 8 <> bj mod 8.
Proof. lia. Qed.

Lemma get_set_bit data bi bj : 0 <= bi < 8 * zlen data ->
  get_bit (set_bit data bi) bj = (bi =? bj) || get_bit data bj.
Proof.
  intros Hb. unfold get_bit, set_bit. rewrite znth_zupd by lia.
  destruct (Z.eqb_spec (bi / 8) (bj / 8)) as [E|E].
  2: { destruct (Z.eqb_spec bi bj); [congruence|done]. }
  rewrite Z.lor_spec, Z.shiftl_1_l, E. destruct (Z.eqb_spec bi bj) as [->|Hne]; simpl.
  - rewrite Z.pow2_bits_true by lia. apply orb_true_r.
  - rewrite Z.pow2_bits_false by (by apply bit_addr). apply orb_false_r.
Qed.

Lemma get_clear_bit data bi bj : 0 <= bi < 8 * zlen data ->
  get_bit (clear_bit data bi) bj = negb (bi =? bj) && get_bit data bj.
Proof.
  intros Hb. unfold get_bit, clear_bit. rewrite znth_zupd by lia.
  destruct (Z.eqb_spec (bi / 8) (bj / 8)) as [E|E].
  2: { destruct (Z.eqb_spec bi bj); [congruence|done]. }
  rewrite Z.ldiff_spec, Z.shiftl_1_l, E. destruct (Z.eqb_spec bi bj) as [->|Hne]; simpl.
  - rewrite Z.pow2_bits_true by lia. apply andb_false_r.
  - rewrite Z.pow2_bits_false by (by apply bit_addr). by rewrite andb_true_r.
Qed.

Lemma block_ok_set data bi : block_ok data -> block_ok (set_bit data bi).
Proof. unfold block_ok, set_bit. by rewrite zlen_zupd. Qed.
Lemma block_ok_clear data bi : block_ok data -> block_ok (clear_bit data bi).
Proof. unfold block_ok, clear_bit. by rewrite zlen_zupd. Qed.

(** The scan stops at the first clear bit. *)
Lemma balloc_scan_spec k data b bi size : 0 <= bi ->
  match balloc_scan k data b bi size with
  | Some n => bi <= n < bi + Z.of_nat k /\ b + n < size /\ get_bit data n = false /\
      forall m, bi <= m < n -> get_bit data m = true
  | None => forall m, bi <= m < bi + Z.of_nat k -> b + m < size -> get_bit data m = true
  end.
Proof.
  revert bi. induction k as [|k IH]; intros bi Hbi; cbn [balloc_scan]; [lia|].
  destruct (Z.ltb_spec (b + bi) size) as [Hlt|Hge]; [|lia].
  rewrite land_bit by lia. fold (get_bit data bi). destruct (get_bit data bi) eqn:E; simpl.
  - specialize (IH (bi + 1) ltac:(lia)). destruct (balloc_scan k data b (bi + 1) size) as [n|].
    + destruct IH as (H1 & H2 & H3 & H4). split; [lia|]. split; [done|]. split; [done|].
      intros m Hm. destruct (decide (m = bi)) as [->|]; [done|]. apply H4. lia.
    + intros m Hm Hs. destruct (decide (m = bi)) as [->|]; [done|]. apply IH; lia.
  - split; [lia|]. split; [done|]. split; [done|]. lia.
Qed.

(** ** Reading and changing a block in a transaction *)

Section Blocks.
Context {T : Type} `{HP : ProcIface T} `{HO : TxnOps T} `{HL : !TxnLaws T} `{HD : DevSw T}.
Implicit Types (s : fs T) (t : T).

Definition fview s : Z -> block := t_view (f_txn s).

Lemma run_txn {A B} (m : M T A) (k : A -> M (fs T) B) s a t : m (f_txn s) = Ret a t ->
  bind (txn m) k s = k a (set_f_txn t s).
Proof. intros E. by apply (run_bind_zoom f_txn_lens). Qed.
Lemma last_txn {A} (m : M T A) s a t : m (f_txn s) = Ret a t -> txn m s = Ret a (set_f_txn t s).
Proof. intros E. by apply (zoom_eq f_txn_lens). Qed.
Lemma set_txn_twice t t' s : set_f_txn t (set_f_txn t' s) = set_f_txn t s.
Proof. done. Qed.

(** What a piece of file-system code leaves of the transaction: the same protected
    blocks, and at most [q] blocks of the quota used. *)
Definition txn_step (q : nat) (t t' : T) (v : Z -> block) : Prop :=
  t_ok t' ∅ /\ (forall k, t_view t' k = v k) /\ t_same t t' q.

Lemma t_same_trans t t1 t2 q q' : t_same t t1 q -> t_same t1 t2 q' -> t_same t t2 (q + q').
Proof.
  intros (A1 & A2 & A3) (B1 & B2 & B3). split; [intros k; by rewrite B1, A1|].
  split; [congruence|lia].
Qed.
Lemma t_same_weaken t t' q q' : (q <= q')%nat -> t_same t t' q -> t_same t t' q'.
Proof. intros Hq (A1 & A2 & A3). split; [done|]. split; [done|]. lia. Qed.

(** [bp = bread(dev, bn); ... brelse(bp);] without a change. *)
Lemma peek_block t h bn : t_ok t h -> 0 <= bn < FSSIZE -> (forall i c, h !! i <> Some (bn, c)) ->
  (size h <= t_quota t)%nat ->
  exists i t1 t2, t_read ROOTDEV bn t = Ret i t1 /\ t_data t1 i = t_view t bn /\
    t_release i t1 = Ret tt t2 /\ t_ok t2 h /\ (forall k, t_view t2 k = t_view t k) /\ t_same t t2 0.
Proof.
  intros Hok Hbn Hn Hq. destruct (t_read_ok t h bn Hok Hbn Hn Hq) as (i & t1 & E & Hi & O & V & S1).
  destruct (t_release_ok t1 _ i bn O) as (t2 & E2 & O2 & V2 & S2); [apply lookup_insert_eq|].
  rewrite delete_insert_id in O2 by done.
  exists i, t1, t2. split; [done|]. split.
  { rewrite (t_data_view _ _ i bn true O), V by apply lookup_insert_eq. done. }
  split; [done|]. split; [done|]. split; [intros k; by rewrite V2|]. by apply (t_same_trans t t1 t2 0 0).
Qed.

(** [bp = bread(dev, bn); bp->data = d; log_write(bp); brelse(bp);] *)
Lemma change_block t h bn : t_ok t h -> 0 <= bn < FSSIZE -> (forall i c, h !! i <> Some (bn, c)) ->
  (size h < t_quota t)%nat -> t_home t bn ->
  exists i t1, t_read ROOTDEV bn t = Ret i t1 /\ t_data t1 i = t_view t bn /\
    forall d, block_ok d -> exists t2 t3 t4, t_set_data i d t1 = Ret tt t2 /\
      t_write i t2 = Ret tt t3 /\ t_release i t3 = Ret tt t4 /\ t_ok t4 h /\
      (forall k, t_view t4 k = if decide (k = bn) then d else t_view t k) /\ t_same t t4 1.
Proof.
  intros Hok Hbn Hn Hq Hh. destruct (t_read_ok t h bn Hok Hbn Hn ltac:(lia)) as (i & t1 & E & Hi & O & V & S1).
  exists i, t1. split; [done|]. split.
  { rewrite (t_data_view _ _ i bn true O), V by apply lookup_insert_eq. done. }
  intros d Hd. destruct (t_set_data_ok t1 _ i bn true d O) as (t2 & E2 & O2 & V2 & S2);
    [apply lookup_insert_eq|done|].
  rewrite insert_insert_eq in O2. pose proof (t_same_trans _ _ _ _ _ S1 S2) as S12. simpl in S12.
  destruct (t_write_ok t2 _ i bn false O2) as (t3 & E3 & O3 & V3 & S3); [apply lookup_insert_eq| | |].
  { by apply (proj1 S12). }
  { destruct S12 as (_ & _ & Hle). lia. }
  rewrite insert_insert_eq in O3. pose proof (t_same_trans _ _ _ _ _ S12 S3) as S13. simpl in S13.
  destruct (t_release_ok t3 _ i bn O3) as (t4 & E4 & O4 & V4 & S4); [apply lookup_insert_eq|].
  rewrite delete_insert_id in O4 by done.
  exists t2, t3, t4. split; [done|]. split; [done|]. split; [done|]. split; [done|]. split.
  - intros k. by rewrite V4, V3, V2, V.
  - exact (t_same_trans _ _ _ 1 0 S13 S4).
Qed.

(** ** Allocation *)

Definition used (v : Z -> block) (sb : superblock) (b : Z) : bool :=
  get_bit (v (BBLOCK b sb)) (b mod BPB).

(** The layout mkfs writes: the free map lies in protected blocks that are marked used
    in it, and every block of the file system that is free is protected. *)
Record layout (t : T) (sb : superblock) : Prop := {
  ly_size : sb_size sb <= FSSIZE;
  ly_map b : 0 <= b < sb_size sb -> 0 <= BBLOCK b sb < FSSIZE /\ t_home t (BBLOCK b sb);
  ly_used b : 0 <= b < sb_size sb -> used (t_view t) sb (BBLOCK b sb) = true;
  ly_free b : 0 <= b < sb_size sb -> used (t_view t) sb b = false -> t_home t b
}.
(** The buffers held are neither in the free map nor free. *)
Definition apart (t : T) (sb : superblock) (h : gmap nat (Z * bool)) : Prop :=
  forall i bn c b, h !! i = Some (bn, c) -> 0 <= b < sb_size sb ->
    bn <> BBLOCK b sb /\ (bn = b -> used (t_view t) sb b = true).

Definition first_free (v : Z -> block) (sb : superblock) (n : Z) : Prop :=
  0 <= n < sb_size sb /\ used v sb n = false /\ forall m, 0 <= m < n -> used v sb m = true.

(** The contents after block [n] is allocated. *)
Definition allocated (v : Z -> block) (sb : superblock) (n k : Z) : block :=
  if decide (k = n) then zero_block
  else if decide (k = BBLOCK n sb) then set_bit (v k) (n mod BPB) else v k.

Lemma bzero_run s t h bn : t_ok t h -> 0 <= bn < FSSIZE -> (forall i c, h !! i <> Some (bn, c)) ->
  (size h < t_quota t)%nat -> t_home t bn ->
  exists t', bzero ROOTDEV bn (set_f_txn t s) = Ret tt (set_f_txn t' s) /\ t_ok t' h /\
    (forall k, t_view t' k = if decide (k = bn) then zero_block else t_view t k) /\ t_same t t' 1.
Proof.
  intros Hok Hbn Hn Hq Hh. destruct (change_block t h bn Hok Hbn Hn Hq Hh) as (i & t1 & E1 & _ & Hc).
  destruct (Hc zero_block) as (t2 & t3 & t4 & E2 & E3 & E4 & O & V & S); [done|].
  exists t4. split; [|done]. unfold bzero.
  erewrite run_txn by exact E1. rewrite set_txn_twice. erewrite run_txn by exact E2.
  rewrite set_txn_twice. erewrite run_txn by exact E3. rewrite set_txn_twice.
  erewrite last_txn by exact E4. done.
Qed.

(** A piece of file-system code that leaves the contents [v] and spends [q] blocks. *)
Record left_at (t t' : T) (h : gmap nat (Z * bool)) (v : Z -> block) (q : nat) : Prop := {
  la_ok : t_ok t' h;
  la_view k : t_view t' k = v k;
  la_same : t_same t t' q
}.

Lemma BBLOCK_add j m sb : 0 <= m < BPB -> BBLOCK (BPB * j + m) sb = BBLOCK (BPB * j) sb.
Proof. unfold BBLOCK, BPB, BSIZE. intros. f_equal. lia. Qed.

Lemma balloc_hit s t h j n : t_ok t h -> layout t (f_sb s) -> apart t (f_sb s) h ->
  (size h + 2 <= t_quota t)%nat -> 0 <= j -> 0 <= n < BPB ->
  0 <= BPB * j + n < sb_size (f_sb s) -> used (t_view t) (f_sb s) (BPB * j + n) = false ->
  exists i t1, t_read ROOTDEV (BBLOCK (BPB * j) (f_sb s)) t = Ret i t1 /\
    t_data t1 i = t_view t (BBLOCK (BPB * j) (f_sb s)) /\
    exists t', (txn (t_set_data i (set_bit (t_view t (BBLOCK (BPB * j) (f_sb s))) n)) ;;;
        txn (t_write i) ;;; txn (t_release i) ;;; bzero ROOTDEV (BPB * j + n) ;;;
        ret (BPB * j + n)) (set_f_txn t1 s) = Ret (BPB * j + n) (set_f_txn t' s) /\
      left_at t t' h (allocated (t_view t) (f_sb s) (BPB * j + n)) 2.
Proof.
  set (sb := f_sb s). set (b := BPB * j + n). intros Hok Hly Hap Hq Hj Hn Hb Hfree.
  assert (Hbb : BBLOCK b sb = BBLOCK (BPB * j) sb) by (by apply BBLOCK_add).
  destruct (ly_map _ _ Hly b Hb) as [Hr Hh]. rewrite <-Hbb.
  destruct (change_block t h (BBLOCK b sb) Hok Hr) as (i & t1 & E1 & D1 & Hc); [|lia|done|].
  { intros i c Hi. by destruct (Hap _ _ _ b Hi Hb) as [[] _]. }
  exists i, t1. split; [done|]. split; [done|].
  destruct (Hc (set_bit (t_view t (BBLOCK b sb)) n)) as (t2 & t3 & t4 & E2 & E3 & E4 & O & V & S).
  { apply block_ok_set. by eapply t_view_ok. }
  destruct (bzero_run s t4 h b O) as (t5 & E5 & O5 & V5 & S5).
  - pose proof (ly_size _ _ Hly). fold sb in H. lia.
  - intros i' c Hi. destruct (Hap _ _ _ b Hi Hb) as [_ Hu]. rewrite Hu in Hfree; done.
  - destruct S as (_ & _ & Hle). lia.
  - apply (proj1 S). by apply (ly_free _ _ Hly).
  - exists t5. split.
    + erewrite run_txn by exact E2. rewrite set_txn_twice. erewrite run_txn by exact E3.
      rewrite set_txn_twice. erewrite run_txn by exact E4. rewrite set_txn_twice.
      erewrite bind_eq by exact E5. done.
    + split; [done| |exact (t_same_trans _ _ _ 1 1 S S5)].
      intros k. rewrite V5, V. unfold allocated. destruct (decide (k = b)); [done|].
      destruct (decide (k = BBLOCK b sb)) as [->|]; [|done].
      replace (b mod BPB) with n; [done|]. unfold b, BPB, BSIZE in *. lia.
Qed.

Lemma used_bit v sb j m : 0 <= m < BPB ->
  used v sb (BPB * j + m) = get_bit (v (BBLOCK (BPB * j) sb)) m.
Proof.
  intros Hm. unfold used. rewrite BBLOCK_add by done. f_equal. unfold BPB, BSIZE in *. lia.
Qed.

Lemma layout_same t t' sb : layout t sb -> (forall k, t_view t' k = t_view t k) ->
  t_same t t' 0 -> layout t' sb.
Proof.
  intros [L1 L2 L3 L4] V (S1 & _).
  assert (U : forall b, used (t_view t') sb b = used (t_view t) sb b) by (intros b; unfold used; by rewrite V).
  split; [done| | |].
  - intros b Hb. rewrite S1. auto.
  - intros b Hb. rewrite U. auto.
  - intros b Hb. rewrite U, S1. auto.
Qed.

Lemma apart_same t t' sb h : apart t sb h -> (forall k, t_view t' k = t_view t k) -> apart t' sb h.
Proof.
  intros Ha V i bn c b Hi Hb. destruct (Ha i bn c b Hi Hb) as [A1 A2].
  split; [done|]. unfold used. by rewrite V.
Qed.

Lemma left_at_same t t1 t' h sb n q : (forall k, t_view t1 k = t_view t k) -> t_same t t1 0 ->
  left_at t1 t' h (allocated (t_view t1) sb n) q -> left_at t t' h (allocated (t_view t) sb n) q.
Proof.
  intros V S [O V' S']. split; [done| |exact (t_same_trans _ _ _ 0 q S S')].
  intros k. rewrite V'. unfold allocated. by rewrite !V.
Qed.

Lemma balloc_loop_spec f s t h j : t_ok t h -> layout t (f_sb s) -> apart t (f_sb s) h ->
  (size h + 2 <= t_quota t)%nat -> 0 <= j -> sb_size (f_sb s) <= BPB * (j + Z.of_nat f) ->
  (forall m, 0 <= m < BPB * j -> m < sb_size (f_sb s) -> used (t_view t) (f_sb s) m = true) ->
  (exists n t', balloc_loop (S f) ROOTDEV (BPB * j) (set_f_txn t s) = Ret n (set_f_txn t' s) /\
     first_free (t_view t) (f_sb s) n /\ left_at t t' h (allocated (t_view t) (f_sb s) n) 2) \/
  ((forall m, 0 <= m < sb_size (f_sb s) -> used (t_view t) (f_sb s) m = true) /\
     balloc_loop (S f) ROOTDEV (BPB * j) (set_f_txn t s) = Panic "balloc: out of blocks").
Proof.
  revert t j. induction f as [|f IH]; intros t j Hok Hly Hap Hq Hj Hf Hlow;
    unfold balloc_loop; fold balloc_loop; mrun;
    change (f_sb (set_f_txn t s)) with (f_sb s);
    (destruct (Z.ltb_spec (BPB * j) (sb_size (f_sb s))) as [Hlt|Hge];
      [|right; split; [intros m Hm; apply Hlow; lia|done]]); [lia|].
  set (sb := f_sb s) in *.
  assert (Hb0 : 0 <= BPB * j < sb_size sb) by (unfold BPB, BSIZE in *; lia).
  destruct (ly_map _ _ Hly _ Hb0) as [Hr Hh].
  destruct (balloc_scan (Z.to_nat BPB) (t_view t (BBLOCK (BPB * j) sb)) (BPB * j) 0 (sb_size sb)) as [n|] eqn:Es;
    pose proof (balloc_scan_spec (Z.to_nat BPB) (t_view t (BBLOCK (BPB * j) sb)) (BPB * j) 0 (sb_size sb) ltac:(lia)) as Hs;
    rewrite Es in Hs.
  - destruct Hs as (Hn & Hns & Hbit & Hbelow).
    assert (Hnb : 0 <= n < BPB) by (unfold BPB, BSIZE in *; lia).
    destruct (balloc_hit s t h j n) as (i & t1 & E1 & D1 & t' & E2 & L); try done;
      [fold sb; unfold BPB, BSIZE in *; lia|by rewrite used_bit|].
    left. exists (BPB * j + n), t'. split; [|split; [|done]].
    + erewrite run_txn by exact E1. mrun. rewrite set_txn_twice.
      change (f_txn (set_f_txn t1 s)) with t1. fold sb in D1 |- *. rewrite D1.
      change (f_sb (set_f_txn t1 s)) with sb. rewrite Es. exact E2.
    + split; [lia|]. split; [by rewrite used_bit|]. intros m Hm.
      destruct (decide (m < BPB * j)) as [Hlo|Hhi]; [apply Hlow; lia|].
      replace m with (BPB * j + (m - BPB * j)) by lia. rewrite used_bit by lia. apply Hbelow. lia.
  - assert (Hrow : forall m, BPB * j <= m < BPB * (j + 1) -> m < sb_size sb -> used (t_view t) sb m = true).
    { intros m Hm Hms. replace m with (BPB * j + (m - BPB * j)) by lia.
      rewrite used_bit by lia. apply Hs; unfold BPB, BSIZE in *; lia. }
    destruct (peek_block t h (BBLOCK (BPB * j) sb) Hok Hr) as (i & t1 & t2 & E1 & D1 & E2 & O & V & S);
      [intros i c Hi; by destruct (Hap _ _ _ _ Hi Hb0) as [[] _]|lia|].
    assert (U : forall m, used (t_view t2) sb m = used (t_view t) sb m) by (intros m; unfold used; by rewrite V).
    erewrite run_txn by exact E1. mrun. rewrite set_txn_twice.
    change (f_txn (set_f_txn t1 s)) with t1. rewrite D1.
    change (f_sb (set_f_txn t1 s)) with sb. rewrite Es. erewrite run_txn by exact E2.
    rewrite set_txn_twice. replace (BPB * j + BPB) with (BPB * (j + 1)) by lia.
    destruct (IH t2 (j + 1)) as [(n & t' & E & Hff & L)|[Hall E]]; try done.
    + by apply (layout_same t).
    + by apply (apart_same t).
    + destruct S as (_ & _ & Hle). lia.
    + lia.
    + lia.
    + intros m Hm Hms. rewrite U. destruct (decide (m < BPB * j)); [apply Hlow; lia|apply Hrow; lia].
    + left. exists n, t'. split; [exact E|]. split; [|by apply (left_at_same t t2)].
      destruct Hff as (F1 & F2 & F3). split; [done|]. rewrite U in F2. split; [done|].
      intros m Hm. rewrite <-U. auto.
    + right. split; [|exact E]. intros m Hm. rewrite <-U. auto.
Qed.

(** No bitmap block is free, so a new block is not one of them. *)
Lemma free_not_map t sb n b : layout t sb -> 0 <= b < sb_size sb ->
  used (t_view t) sb n = false -> n <> BBLOCK b sb.
Proof. intros Hly Hb Hn ->. by rewrite (ly_used _ _ Hly b Hb) in Hn. Qed.

Lemma same_map_bit sb m n : BBLOCK m sb = BBLOCK n sb -> m mod BPB = n mod BPB -> m = n.
Proof. unfold BBLOCK, BPB, BSIZE. lia. Qed.

Lemma used_set v sb n m d : zlen (v (BBLOCK n sb)) = BSIZE ->
  d (BBLOCK m sb) = (if decide (BBLOCK m sb = BBLOCK n sb) then set_bit (v (BBLOCK m sb)) (n mod BPB)
                     else v (BBLOCK m sb)) ->
  used d sb m = (m =? n) || used v sb m.
Proof.
  intros Hz Hd. unfold used at 1. rewrite Hd. destruct (decide _) as [E|E].
  - rewrite E, get_set_bit by (rewrite Hz; unfold BPB, BSIZE; lia). unfold used. rewrite E.
    destruct (Z.eqb_spec (n mod BPB) (m mod BPB)), (Z.eqb_spec m n); subst; try done.
    exfalso. by apply n0, (same_map_bit sb).
  - destruct (Z.eqb_spec m n); [by subst|done].
Qed.

Lemma used_clear v sb n m d : zlen (v (BBLOCK n sb)) = BSIZE ->
  d (BBLOCK m sb) = (if decide (BBLOCK m sb = BBLOCK n sb) then clear_bit (v (BBLOCK m sb)) (n mod BPB)
                     else v (BBLOCK m sb)) ->
  used d sb m = negb (m =? n) && used v sb m.
Proof.
  intros Hz Hd. unfold used at 1. rewrite Hd. destruct (decide _) as [E|E].
  - rewrite E, get_clear_bit by (rewrite Hz; unfold BPB, BSIZE; lia). unfold used. rewrite E.
    destruct (Z.eqb_spec (n mod BPB) (m mod BPB)), (Z.eqb_spec m n); subst; try done.
    exfalso. by apply n0, (same_map_bit sb).
  - destruct (Z.eqb_spec m n); [by subst|done].
Qed.

(** The free map after an operation, and the blocks outside the map. *)
Definition map_changed (sb : superblock) (v v' : Z -> block) (f : Z -> bool) : Prop :=
  forall m, 0 <= m < sb_size sb -> used v' sb m = f m.
Definition off_map (sb : superblock) (k : Z) : Prop :=
  forall b, 0 <= b < sb_size sb -> k <> BBLOCK b sb.

Lemma balloc_run s h : t_ok (f_txn s) h -> layout (f_txn s) (f_sb s) -> apart (f_txn s) (f_sb s) h ->
  (size h + 2 <= t_quota (f_txn s))%nat ->
  (exists n t', balloc ROOTDEV s = Ret n (set_f_txn t' s) /\
     first_free (fview s) (f_sb s) n /\ left_at (f_txn s) t' h (allocated (fview s) (f_sb s) n) 2) \/
  ((forall m, 0 <= m < sb_size (f_sb s) -> used (fview s) (f_sb s) m = true) /\
     balloc ROOTDEV s = Panic "balloc: out of blocks").
Proof.
  intros Hok Hly Hap Hq. unfold balloc. mrun.
  destruct (balloc_loop_spec (Z.to_nat ((sb_size (f_sb s) + BPB - 1) / BPB)) s (f_txn s) h 0)
    as [(n & t' & E & H)|[Hall E]]; try done.
  - unfold BPB, BSIZE. lia.
  - intros m Hm. lia.
  - left. exists n, t'. split; [|done]. destruct s. exact E.
  - right. split; [done|]. destruct s. exact E.
Qed.

(** [balloc] returns the first block that the free map says is free, marks it and only
    it used, and zeroes it; no other block outside the map changes. It panics exactly
    when every block is used. *)
Theorem balloc_spec s h : t_ok (f_txn s) h -> layout (f_txn s) (f_sb s) -> apart (f_txn s) (f_sb s) h ->
  (size h + 2 <= t_quota (f_txn s))%nat ->
  match balloc ROOTDEV s with
  | Ret n s' => first_free (fview s) (f_sb s) n /\ t_ok (f_txn s') h /\
      map_changed (f_sb s) (fview s) (fview s') (fun m => (m =? n) || used (fview s) (f_sb s) m) /\
      fview s' n = zero_block /\
      forall k, off_map (f_sb s) k -> k <> n -> fview s' k = fview s k
  | Panic _ => forall m, 0 <= m < sb_size (f_sb s) -> used (fview s) (f_sb s) m = true
  | _ => False
  end.
Proof.
  intros Hok Hly Hap Hq. destruct (balloc_run s h Hok Hly Hap Hq) as [(n & t' & -> & Hff & [O V S])|[Hall ->]];
    [|done].
  pose proof Hff as (Hn & Hu & _). split; [done|]. split; [done|].
  change (fview (set_f_txn t' s)) with (t_view t'). split; [|split].
  - intros m Hm. apply used_set; [by eapply t_view_ok|]. rewrite V. unfold allocated.
    rewrite decide_False; [done|]. intros E. by eapply (free_not_map (f_txn s) (f_sb s) n m).
  - rewrite V. unfold allocated. by rewrite decide_True.
  - intros k Hk Hne. rewrite V. unfold allocated. rewrite !decide_False; [done|by apply Hk|done].
Qed.

(** [bfree] clears the bit of a used block and changes nothing else; freeing a free
    block panics. *)
Theorem bfree_spec s h b : t_ok (f_txn s) h -> layout (f_txn s) (f_sb s) -> apart (f_txn s) (f_sb s) h ->
  (size h < t_quota (f_txn s))%nat -> 0 <= b < sb_size (f_sb s) ->
  match bfree ROOTDEV b s with
  | Ret _ s' => used (fview s) (f_sb s) b = true /\ t_ok (f_txn s') h /\
      map_changed (f_sb s) (fview s) (fview s') (fun m => negb (m =? b) && used (fview s) (f_sb s) m) /\
      forall k, off_map (f_sb s) k -> fview s' k = fview s k
  | Panic _ => used (fview s) (f_sb s) b = false
  | _ => False
  end.
Proof.
  set (sb := f_sb s). intros Hok Hly Hap Hq Hb. destruct (ly_map _ _ Hly b Hb) as [Hr Hh].
  destruct (change_block (f_txn s) h (BBLOCK b sb) Hok Hr) as (i & t1 & E1 & D1 & Hc);
    [intros i c Hi; by destruct (Hap _ _ _ b Hi Hb) as [[] _]|done|done|].
  unfold bfree. mrun. fold sb. erewrite run_txn by exact E1. mrun.
  change (f_txn (set_f_txn t1 s)) with t1. rewrite D1, land_bit by lia.
  change (Z.testbit _ _) with (used (fview s) sb b). destruct (used (fview s) sb b) eqn:Eu; simpl; [|done].
  destruct (Hc (clear_bit (t_view (f_txn s) (BBLOCK b sb)) (b mod BPB))) as
    (t2 & t3 & t4 & E2 & E3 & E4 & O & V & S); [apply block_ok_clear; by eapply t_view_ok|].
  erewrite run_txn by exact E2. rewrite set_txn_twice. erewrite run_txn by exact E3.
  rewrite set_txn_twice. erewrite last_txn by exact E4. rewrite set_txn_twice.
  split; [done|]. split; [done|]. change (fview (set_f_txn t4 s)) with (t_view t4). split.
  - intros m Hm. apply used_clear; [by eapply t_view_ok|]. rewrite V.
    destruct (decide _) as [->|]; done.
  - intros k Hk. rewrite V, decide_False; [done|]. by apply Hk.
Qed.
End Blocks.
