(* ===== verification/FsPath.v ===== *)
(** * Path names

    [skipelem] against the list of the elements of a path. *)
From S2P Require Import Prelude Param Iface Sleeplock CString Fs.

(** ** The elements of a path

    The maximal runs of bytes other than a slash; [cur] is the run read so far. *)
Fixpoint elems_from (cur path : list Z) : list (list Z) :=
  let done := match cur with [] => [] | _ => [cur] end in
  match path with
  | [] => done
  | c :: rest => if c =? slash then done ++ elems_from [] rest else elems_from (cur ++ [c]) rest
  end.
Definition elems (path : list Z) : list (list Z) := elems_from [] path.

(** A name as a string: up to the NUL, at most [DIRSIZ] bytes. *)
Definition name_str (name : list Z) : list Z := until_nul (take (Z.to_nat DIRSIZ) name).

Lemma elems_skip path : elems (skip_slashes path) = elems path.
Proof.
  induction path as [|c path IH]; [done|]. cbn [skip_slashes].
  destruct (c =? slash) eqn:E; [|done]. rewrite IH. unfold elems. simpl. by rewrite E.
Qed.

Lemma skip_slashes_len path : (length (skip_slashes path) <= length path)%nat.
Proof.
  induction path as [|c path IH]; [done|]. cbn [skip_slashes].
  destruct (c =? slash); simpl; lia.
Qed.

Lemma skip_slashes_head path c r : skip_slashes path = c :: r -> c <> slash.
Proof.
  induction path as [|d path IH]; [done|]. cbn [skip_slashes].
  destruct (Z.eqb_spec d slash); [done|]. congruence.
Qed.

Lemma skip_slashes_in path c : c ∈ skip_slashes path -> c ∈ path.
Proof.
  induction path as [|d path IH]; [done|]. cbn [skip_slashes].
  destruct (d =? slash); [|done]. intros H. right. auto.
Qed.

Lemma take_elem_spec path e r : take_elem path = (e, r) ->
  path = e ++ r /\ Forall (fun c => c <> slash) e /\ (r = [] \/ exists r', r = slash :: r').
Proof.
  revert e r. induction path as [|c path IH]; intros e r; cbn [take_elem].
  - intros [= <- <-]. split; [done|]. split; [constructor|by left].
  - destruct (Z.eqb_spec c slash) as [->|Hc].
    + intros [= <- <-]. split; [done|]. split; [constructor|]. right. eauto.
    + destruct (take_elem path) as [e' r'] eqn:E. intros [= <- <-].
      destruct (IH e' r' eq_refl) as (-> & H1 & H2). split; [done|]. split; [by constructor|done].
Qed.

Lemma elems_from_run cur e r : Forall (fun c => c <> slash) e ->
  elems_from cur (e ++ r) = elems_from (cur ++ e) r.
Proof.
  revert cur. induction e as [|c e IH]; intros cur He; simpl; [by rewrite app_nil_r|].
  inversion_clear He as [|? ? Hc He']. destruct (Z.eqb_spec c slash); [done|].
  rewrite IH by done. by rewrite <-app_assoc.
Qed.

Lemma elems_cons c e r : Forall (fun c => c <> slash) (c :: e) ->
  (r = [] \/ exists r', r = slash :: r') -> elems ((c :: e) ++ r) = (c :: e) :: elems r.
Proof.
  intros He Hr. unfold elems. rewrite elems_from_run by done. simpl ([] ++ _).
  destruct Hr as [->|[r' ->]]; [done|]. cbn [elems_from]. change (slash =? slash) with true. done.
Qed.

(** A path without leading slash has no element only if it is empty. *)
Lemma elems_nil path : (forall c r, path = c :: r -> c <> slash) -> elems path = [] <-> path = [].
Proof.
  intros Hp. split; [|by intros ->]. destruct path as [|c path]; [done|].
  destruct (take_elem (c :: path)) as [e r] eqn:E.
  pose proof (take_elem_spec _ _ _ E) as (Ep & He & Hr).
  destruct e as [|d e]; [|by rewrite Ep, elems_cons].
  simpl in Ep. subst r. destruct Hr as [|[r' [= -> _]]]; [done|]. by destruct (Hp slash path).
Qed.

(** The copy of an element into the name buffer. *)
Lemma name_copy_spec e name : zlen name = DIRSIZ -> Forall (fun c => c <> 0) e ->
  let name' := if DIRSIZ <=? zlen e then splice name 0 (take (Z.to_nat DIRSIZ) e)
               else splice name 0 (e ++ [0]) in
  zlen name' = DIRSIZ /\ name_str name' = take (Z.to_nat DIRSIZ) e.
Proof.
  unfold zlen, DIRSIZ, name_str. intros Hn He. change (Z.to_nat 14) with 14%nat.
  destruct (Z.leb_spec 14 (Z.of_nat (length e))) as [Hl|Hl]; cbv zeta.
  - rewrite length_splice by (rewrite length_take; lia). split; [done|].
    unfold splice. rewrite take_0, app_nil_l, length_take, Nat.min_l, drop_ge, app_nil_r by lia.
    rewrite take_take, Nat.min_id. apply until_nul_all, Forall_take, He.
  - rewrite length_splice by (rewrite length_app; simpl; lia). split; [done|].
    unfold splice. rewrite take_0, app_nil_l, (take_ge e) by lia.
    change (Z.to_nat DIRSIZ) with 14%nat. rewrite <-app_assoc, take_app_ge by lia.
    replace (14 - length e)%nat with (S (13 - length e)) by lia. simpl. by apply until_nul_app.
Qed.

(** [skipelem] takes exactly the first element of the path (its first 14 bytes) into
    [name], and what it returns has the other elements; it returns null exactly when
    there is no element. The rest is shorter, so the loop of [namex] ends, and it is
    empty exactly when the element was the last one. *)
Theorem skipelem_spec path name : zlen name = DIRSIZ -> Forall (fun c => c <> 0) path ->
  match elems path with
  | [] => skipelem path name = None
  | e :: es => exists rest name', skipelem path name = Some (rest, name') /\
      name_str name' = take (Z.to_nat DIRSIZ) e /\ zlen name' = DIRSIZ /\
      elems rest = es /\ (length rest < length path)%nat /\ (rest = [] <-> es = [])
  end.
Proof.
  intros Hn Hp. unfold skipelem. rewrite <-elems_skip.
  pose proof (skip_slashes_len path) as Hlen. pose proof (skip_slashes_head path) as Hhd.
  assert (Hp' : Forall (fun c => c <> 0) (skip_slashes path)).
  { apply Forall_forall. intros c Hc%skip_slashes_in. by eapply Forall_forall in Hp. }
  destruct (skip_slashes path) as [|c p]; [done|].
  destruct (take_elem (c :: p)) as [e r] eqn:E.
  destruct (take_elem_spec _ _ _ E) as (Ep & He & Hr). rewrite Ep.
  destruct e as [|d e].
  { simpl in Ep. subst r. destruct Hr as [|[r' [= -> _]]]; [done|]. by destruct (Hhd slash p). }
  rewrite elems_cons by done. rewrite Ep in Hp'. apply Forall_app in Hp' as [Hpe _].
  destruct (name_copy_spec (d :: e) name Hn Hpe) as [L1 L2].
  assert (Hl : length (c :: p) = length ((d :: e) ++ r)) by (by rewrite Ep).
  eexists _, _. split; [done|]. split; [done|]. split; [done|]. split; [apply elems_skip|].
  pose proof (skip_slashes_len r). rewrite length_app in Hl. simpl in Hl, Hlen. split; [lia|].
  rewrite <-(elems_skip r). symmetry. apply elems_nil. intros. by eapply skip_slashes_head.
Qed.

(** ["///a//bb"] *)
Lemma skipelem_spec_witness : let path := [47; 47; 47; 97; 47; 47; 98; 98] in
  let name := replicate 14 0 in
  elems path = [[97]; [98; 98]] /\ exists rest name', skipelem path name = Some (rest, name') /\
    name_str name' = [97] /\ elems rest = [[98; 98]].
Proof.
  split; [reflexivity|].
  destruct (skipelem_spec [47; 47; 47; 97; 47; 47; 98; 98] (replicate 14 0) eq_refl) as
    (rest & name' & E & Hs & _ & Hr & _); [apply (bool_decide_unpack _); vm_compute; exact I|].
  exists rest, name'. split; [exact E|]. split; [exact Hs|exact Hr].
Defined.
