(* ===== verification/FsInode.v ===== *)
(** * Inodes

    The on-disk inode as bytes, the inode cache ([iget]), and the write-through of the
    cache ([iupdate], [ilock]). *)
From S2P Require Import Prelude Param Iface Sleeplock CString Fs FsBlock.

(** ** Fields of a block leave the other bytes alone *)

Lemma put16_frame b o v j : 0 <= o -> o + 2 <= zlen b -> j < o \/ o + 2 <= j ->
  znth (put16 b o v) j = znth b j.
Proof.
  intros H1 H2 Hj. unfold put16. rewrite !znth_zupd by (rewrite ?zlen_zupd; lia).
  repeat (case_match; [lia|]). done.
Qed.
Lemma put32_frame b o v j : 0 <= o -> o + 4 <= zlen b -> j < o \/ o + 4 <= j ->
  znth (put32 b o v) j = znth b j.
Proof. intros. unfold put32. by rewrite !put16_frame by (rewrite ?zlen_put16; lia). Qed.

Lemma get16_frame b b' o : (forall j, o <= j < o + 2 -> znth b' j = znth b j) -> get16 b' o = get16 b o.
Proof. intros H. unfold get16. by rewrite !H by lia. Qed.
Lemma get32_frame b b' o : (forall j, o <= j < o + 4 -> znth b' j = znth b j) -> get32 b' o = get32 b o.
Proof. intros H. unfold get32. rewrite !(get16_frame b b'); [done| |]; intros; apply H; lia. Qed.

Lemma put_addrs_zlen l b o : zlen (put_addrs b o l) = zlen b.
Proof. revert b o. induction l as [|a l IH]; intros b o; [done|]. simpl. by rewrite IH, zlen_put32. Qed.

Lemma put_addrs_frame l b o j : 0 <= o -> o + 4 * Z.of_nat (length l) <= zlen b ->
  j < o \/ o + 4 * Z.of_nat (length l) <= j ->
  znth (put_addrs b o l) j = znth b j.
Proof.
  revert b o. induction l as [|a l IH]; intros b o Ho Hl Hj; [done|].
  cbn [put_addrs length] in *.
  rewrite IH, put32_frame by (rewrite ?zlen_put32; lia). done.
Qed.

Lemma get_addrs_frame n b b' o : (forall j, o <= j < o + 4 * Z.of_nat n -> znth b' j = znth b j) ->
  get_addrs n b' o = get_addrs n b o.
Proof.
  revert o. induction n as [|n IH]; intros o H; [done|]. cbn [get_addrs]. f_equal.
  - apply get32_frame. intros. apply H. lia.
  - apply IH. intros. apply H. lia.
Qed.

Lemma get_put_addrs l b o : 0 <= o -> o + 4 * Z.of_nat (length l) <= zlen b -> Forall (fun a => 0 <= a < 2 ^ 32) l ->
  get_addrs (length l) (put_addrs b o l) o = l.
Proof.
  revert b o. induction l as [|a l IH]; intros b o Ho Hl Hf; [done|].
  inversion_clear Hf as [|? ? Ha Hf']. cbn [put_addrs get_addrs length] in *. f_equal.
  - rewrite (get32_frame (put32 b o a)).
    + rewrite get32_put32_eq by lia. by apply u32_small.
    + intros j Hj. apply put_addrs_frame; rewrite ?zlen_put32; lia.
  - apply IH; [lia|rewrite zlen_put32; lia|done].
Qed.

Lemma s16_u16 v : - 2 ^ 15 <= v < 2 ^ 15 -> s16 (u16 v) = v.
Proof. unfold s16, u16. intros. case_match; lia. Qed.

(** ** The on-disk inode *)

(** A field holds what its C type can: [short]s, a [uint] and 13 block numbers. *)
Record dinode_ok (d : dinode) : Prop := {
  do_type : - 2 ^ 15 <= d_type d < 2 ^ 15;
  do_major : - 2 ^ 15 <= d_major d < 2 ^ 15;
  do_minor : - 2 ^ 15 <= d_minor d < 2 ^ 15;
  do_nlink : - 2 ^ 15 <= d_nlink d < 2 ^ 15;
  do_size : 0 <= d_size d < 2 ^ 32;
  do_len : length (d_addrs d) = 13%nat;
  do_addrs : Forall (fun a => 0 <= a < 2 ^ 32) (d_addrs d)
}.

Lemma dinode_put_zlen d b o : zlen (dinode_put d b o) = zlen b.
Proof. unfold dinode_put. by rewrite put_addrs_zlen, zlen_put32, !zlen_put16. Qed.

Lemma dinode_put_frame d b o j : length (d_addrs d) = 13%nat -> 0 <= o -> o + 64 <= zlen b ->
  j < o \/ o + 64 <= j -> znth (dinode_put d b o) j = znth b j.
Proof.
  intros Hl Ho Hb Hj. unfold dinode_put.
  rewrite put_addrs_frame by (rewrite ?zlen_put32, ?zlen_put16; lia).
  rewrite put32_frame by (rewrite ?zlen_put16; lia).
  by rewrite !put16_frame by (rewrite ?zlen_put16; lia).
Qed.

Lemma dinode_get_frame b b' o : (forall j, o <= j < o + 64 -> znth b' j = znth b j) ->
  dinode_get b' o = dinode_get b o.
Proof.
  intros H. unfold dinode_get, gets16.
  rewrite !(get16_frame b b') by (intros; apply H; lia).
  rewrite (get32_frame b b') by (intros; apply H; lia).
  by rewrite (get_addrs_frame 13 b b') by (intros; apply H; lia).
Qed.

Lemma get16_put_same b o v b' : 0 <= o -> o + 2 <= zlen b ->
  (forall j, o <= j < o + 2 -> znth b' j = znth (put16 b o v) j) -> - 2 ^ 15 <= v < 2 ^ 15 ->
  gets16 b' o = v.
Proof.
  intros Ho Hb H Hv. unfold gets16. rewrite (get16_frame (put16 b o v)) by done.
  rewrite get16_put16_eq by lia. by apply s16_u16.
Qed.

Lemma dinode_get_put d b o : dinode_ok d -> 0 <= o -> o + 64 <= zlen b ->
  dinode_get (dinode_put d b o) o = d.
Proof.
  intros [H1 H2 H3 H4 H5 H6 H7] Ho Hb. destruct d as [ty mj mn nl sz ad]. simpl in *.
  unfold dinode_put. simpl. set (b1 := put16 b o ty). set (b2 := put16 b1 (o + 2) mj).
  set (b3 := put16 b2 (o + 4) mn). set (b4 := put16 b3 (o + 6) nl). set (b5 := put32 b4 (o + 8) sz).
  assert (Z1 : zlen b1 = zlen b) by apply zlen_put16.
  assert (Z2 : zlen b2 = zlen b) by (unfold b2; by rewrite zlen_put16).
  assert (Z3 : zlen b3 = zlen b) by (unfold b3; by rewrite zlen_put16).
  assert (Z4 : zlen b4 = zlen b) by (unfold b4; by rewrite zlen_put16).
  assert (Z5 : zlen b5 = zlen b) by (unfold b5; by rewrite zlen_put32).
  assert (F6 : forall j, j < o + 12 -> znth (put_addrs b5 (o + 12) ad) j = znth b5 j)
    by (intros; apply put_addrs_frame; lia).
  assert (F5 : forall j, j < o + 8 -> znth b5 j = znth b4 j) by (intros; apply put32_frame; lia).
  assert (F4 : forall j, j < o + 6 -> znth b4 j = znth b3 j) by (intros; apply put16_frame; lia).
  assert (F3 : forall j, j < o + 4 -> znth b3 j = znth b2 j) by (intros; apply put16_frame; lia).
  assert (F2 : forall j, j < o + 2 -> znth b2 j = znth b1 j) by (intros; apply put16_frame; lia).
  unfold dinode_get. f_equal.
  - apply (get16_put_same b o ty); [lia|lia| |lia]. intros. by rewrite F6, F5, F4, F3, F2 by lia.
  - apply (get16_put_same b1 (o + 2) mj); [lia|lia| |lia]. intros. by rewrite F6, F5, F4, F3 by lia.
  - apply (get16_put_same b2 (o + 4) mn); [lia|lia| |lia]. intros. by rewrite F6, F5, F4 by lia.
  - apply (get16_put_same b3 (o + 6) nl); [lia|lia| |lia]. intros. by rewrite F6, F5 by lia.
  - rewrite (get32_frame b5) by (intros; apply F6; lia). unfold b5.
    rewrite get32_put32_eq by lia. by apply u32_small.
  - rewrite <-H6. apply get_put_addrs; [lia|lia|done].
Qed.

(** The on-disk inode. What is stored in a slot of an inode block is read back, and
    the other slots of the block keep their inodes. *)
Theorem dinode_roundtrip d b i j : dinode_ok d -> block_ok b -> 0 <= i < IPB -> 0 <= j < IPB ->
  dinode_get (dinode_put d b (64 * i)) (64 * j) = if i =? j then d else dinode_get b (64 * j).
Proof.
  unfold block_ok, IPB, BSIZE. intros Hd Hb Hi Hj. destruct (Z.eqb_spec i j) as [->|Hne].
  - apply dinode_get_put; [done|lia|lia].
  - apply dinode_get_frame. intros k Hk. apply dinode_put_frame; [apply Hd|lia|lia|lia].
Qed.

(** A directory of 32 bytes in slot 1 of an inode block; slot 2 is still free. *)
Lemma dinode_roundtrip_witness :
  let d := Dinode 1 0 0 (-1) 32 (59 :: replicate 12 0) in
  dinode_get (dinode_put d zero_block 64) 64 = d /\
  dinode_get (dinode_put d zero_block 64) 128 = dinode0.
Proof.
  intros d. assert (Hd : dinode_ok d).
  { split; try (simpl; lia). apply (bool_decide_unpack _). vm_compute. exact I. }
  assert (Hz : block_ok zero_block) by reflexivity. split.
  - exact (dinode_roundtrip d zero_block 1 1 Hd Hz ltac:(unfold IPB, BSIZE; lia) ltac:(unfold IPB, BSIZE; lia)).
  - exact (dinode_roundtrip d zero_block 1 2 Hd Hz ltac:(unfold IPB, BSIZE; lia) ltac:(unfold IPB, BSIZE; lia)).
Defined.

(** ** The inode cache *)

Section Icache.
Context {T : Type} `{HP : ProcIface T} `{HO : TxnOps T} `{HD : DevSw T}.
Implicit Types (s : fs T).

Lemma inode_upd_eq i f s : (i < length (f_inodes s))%nat -> inode_at (upd_inode i f s) i = f (inode_at s i).
Proof. intros. unfold inode_at, upd_inode. simpl. by apply nth_insert_eq. Qed.
Lemma inode_upd_ne i j f s : i <> j -> inode_at (upd_inode i f s) j = inode_at s j.
Proof. intros. unfold inode_at, upd_inode. simpl. by apply nth_insert_ne. Qed.
Lemma upd_inode_twice i f g s : (i < length (f_inodes s))%nat ->
  upd_inode i f (upd_inode i g s) = upd_inode i (fun ip => f (g ip)) s.
Proof.
  intros Hi. unfold upd_inode at 1. rewrite inode_upd_eq by done. unfold upd_inode, set_f_inodes.
  simpl. by rewrite list_insert_insert_eq.
Qed.

(** Entry [i] of the cache is in use for inode [inum] of [dev]. *)
Definition caches (s : fs T) (i : nat) (dev inum : Z) : Prop :=
  0 < in_ref (inode_at s i) /\ in_dev (inode_at s i) = dev /\ in_inum (inode_at s i) = inum.
(** No reference count is negative, and an inode is cached at most once: all users of
    an inode share its entry and its lock. *)
Record icache_ok (s : fs T) : Prop := {
  ic_ref i : 0 <= in_ref (inode_at s i);
  ic_once i j dev inum : caches s i dev inum -> caches s j dev inum -> i = j
}.

Lemma iget_scan_spec l k e dev inum :
  match iget_scan l k e dev inum with
  | inl i => exists n, i = (k + n)%nat /\ (n < length l)%nat /\
      let ip := nth n l inode0 in 0 < in_ref ip /\ in_dev ip = dev /\ in_inum ip = inum
  | inr e' => (forall n, (n < length l)%nat ->
      let ip := nth n l inode0 in ~ (0 < in_ref ip /\ in_dev ip = dev /\ in_inum ip = inum)) /\
      match e' with
      | Some i => e = Some i \/ e = None /\ exists n, i = (k + n)%nat /\ (n < length l)%nat /\
          in_ref (nth n l inode0) = 0
      | None => e = None /\ forall n, (n < length l)%nat -> in_ref (nth n l inode0) <> 0
      end
  end.
Proof.
  revert k e. induction l as [|ip l IH]; intros k e; cbn [iget_scan length].
  { split; [lia|]. destruct e; [by left|]. split; [done|lia]. }
  destruct (_ && _) eqn:E.
  { exists 0%nat. split; [lia|]. split; [lia|]. simpl. lia. }
  set (e1 := match e with None => _ | _ => e end).
  specialize (IH (S k) e1). destruct (iget_scan l (S k) e1 dev inum) as [i|e'].
  - destruct IH as (n & -> & Hn & H). exists (S n). split; [lia|]. split; [lia|]. exact H.
  - destruct IH as [H1 H2]. split.
    { intros [|n] Hn; simpl; [lia|]. apply H1. lia. }
    destruct e' as [i|].
    + destruct H2 as [H2|(H2 & n & -> & Hn & Hr)].
      * subst e1. destruct e as [j|]; [by left|]. right. split; [done|].
        destruct (Z.eqb_spec (in_ref ip) 0); [|done]. simplify_eq. exists 0%nat. simpl. split; [lia|]. split; [lia|done].
      * subst e1. destruct e as [j|]; [done|]. right. split; [done|]. exists (S n). simpl.
        split; [lia|]. split; [lia|done].
    + destruct H2 as [H2 H3]. subst e1. destruct e as [j|]; [done|]. split; [done|].
      destruct (Z.eqb_spec (in_ref ip) 0); [done|]. intros [|n'] Hn; simpl; [done|]. apply H3. lia.
Qed.

Lemma run_ilock {B} s (k : unit -> M (fs T) B) : f_lock s = false ->
  bind (zoom f_lock_lens spin_acquire) k s = k tt (set_f_lock true s).
Proof. intros Hl. apply (run_bind_zoom f_lock_lens _ _ _ tt true). simpl. by rewrite Hl. Qed.
Lemma run_iunlock {B} s (k : unit -> M (fs T) B) : f_lock s = true ->
  bind (zoom f_lock_lens spin_release) k s = k tt (set_f_lock false s).
Proof. intros Hl. apply (run_bind_zoom f_lock_lens _ _ _ tt false). simpl. by rewrite Hl. Qed.

(** The entry [iget] takes for a new inode. *)
Definition fresh_inode (dev inum : Z) (ip : inode) : inode :=
  set_in_valid false (set_in_ref 1 (set_in_inum inum (set_in_dev dev ip))).

Lemma iget_run s dev inum : f_lock s = false ->
  (exists i, (i < length (f_inodes s))%nat /\ caches s i dev inum /\
     iget dev inum s = Ret i (upd_inode i (fun ip => set_in_ref (in_ref ip + 1) ip) s)) \/
  ((forall i, (i < length (f_inodes s))%nat -> ~ caches s i dev inum) /\
   ((exists i, (i < length (f_inodes s))%nat /\ in_ref (inode_at s i) = 0 /\
       iget dev inum s = Ret i (upd_inode i (fresh_inode dev inum) s)) \/
    ((forall i, (i < length (f_inodes s))%nat -> in_ref (inode_at s i) <> 0) /\
       iget dev inum s = Panic "iget: no inodes"))).
Proof.
  intros Hl. unfold iget. rewrite run_ilock by done. mrun.
  change (f_inodes (set_f_lock true s)) with (f_inodes s).
  pose proof (iget_scan_spec (f_inodes s) 0 None dev inum) as Hs.
  assert (Hrel : forall i f, set_f_lock false (upd_inode i f (set_f_lock true s)) = upd_inode i f s).
  { intros i f. unfold upd_inode, set_f_lock, set_f_inodes. simpl. by rewrite <-Hl. }
  destruct (iget_scan _ _ _ _ _) as [i|[i|]].
  - destruct Hs as (n & -> & Hn & H). left. exists n. split; [done|]. split; [exact H|]. mrun.
    rewrite run_iunlock by done. unfold ret. by rewrite Hrel.
  - destruct Hs as [H1 [[=]|(_ & n & -> & Hn & Hr)]]. right. split; [exact H1|]. left.
    exists n. split; [done|]. split; [done|]. mrun. rewrite run_iunlock by done.
    rewrite !upd_inode_twice by (simpl; rewrite ?length_insert; done). unfold ret. by rewrite Hrel.
  - destruct Hs as [H1 [_ H2]]. right. split; [exact H1|]. right. split; [exact H2|done].
Qed.

(** [iget] returns the one cache entry of an inode, with one reference more, or a
    fresh invalid entry if the inode was not cached; no other entry changes, an inode is
    never cached twice, and the call panics only when every entry is in use. *)
Theorem iget_spec s dev inum : f_lock s = false -> icache_ok s ->
  match iget dev inum s with
  | Ret i s' => caches s' i dev inum /\ icache_ok s' /\ f_txn s' = f_txn s /\
      (forall j, j <> i -> inode_at s' j = inode_at s j) /\
      (caches s i dev inum /\ in_ref (inode_at s' i) = in_ref (inode_at s i) + 1 /\
         in_valid (inode_at s' i) = in_valid (inode_at s i) \/
       (forall j, ~ caches s j dev inum) /\ in_ref (inode_at s i) = 0 /\
         in_ref (inode_at s' i) = 1 /\ in_valid (inode_at s' i) = false)
  | Panic _ => forall i, (i < length (f_inodes s))%nat -> in_ref (inode_at s i) <> 0
  | _ => False
  end.
Proof.
  intros Hl [H1 H2]. assert (Hout : forall j, (length (f_inodes s) <= j)%nat -> ~ caches s j dev inum).
  { intros j Hj [Hr _]. unfold inode_at in Hr. rewrite nth_overflow in Hr by done. simpl in Hr. lia. }
  destruct (iget_run s dev inum Hl) as [(i & Hi & Hc & ->)|[Hn [(i & Hi & Hr & ->)|[Hall ->]]]]; [| |done].
  - set (f := fun ip => set_in_ref (in_ref ip + 1) ip).
    assert (E : inode_at (upd_inode i f s) i = f (inode_at s i)) by (by apply inode_upd_eq).
    assert (Ne : forall j, j <> i -> inode_at (upd_inode i f s) j = inode_at s j)
      by (intros; by apply inode_upd_ne).
    assert (Hsame : forall j d n, caches (upd_inode i f s) j d n -> caches s j d n).
    { intros j d n Hj. unfold caches in *. destruct (decide (j = i)) as [->|Hne]; [|by rewrite Ne in Hj].
      rewrite E in Hj. unfold f in Hj. simpl in Hj. destruct Hc. naive_solver. }
    split; [|split; [split|split; [done|split; [done|left]]]].
    + unfold caches. rewrite E. unfold f. simpl. destruct Hc. naive_solver lia.
    + intros j. destruct (decide (j = i)) as [->|Hne]; [|by rewrite Ne].
      rewrite E. unfold f. simpl. specialize (H1 i). lia.
    + intros j k d n Hj Hk. eapply H2; by apply Hsame.
    + by rewrite E.
  - set (f := fresh_inode dev inum).
    assert (E : inode_at (upd_inode i f s) i = f (inode_at s i)) by (by apply inode_upd_eq).
    assert (Ne : forall j, j <> i -> inode_at (upd_inode i f s) j = inode_at s j)
      by (intros; by apply inode_upd_ne).
    assert (Hnone : forall j, ~ caches s j dev inum).
    { intros j. destruct (decide (j < length (f_inodes s))%nat); [by apply Hn|apply Hout; lia]. }
    assert (Hsame : forall j d n, caches (upd_inode i f s) j d n -> j = i /\ d = dev /\ n = inum \/ j <> i /\ caches s j d n).
    { intros j d n Hj. unfold caches in *. destruct (decide (j = i)) as [->|Hne]; [left|right; by rewrite Ne in Hj].
      rewrite E in Hj. simpl in Hj. naive_solver. }
    split; [|split; [split|split; [done|split; [done|right]]]].
    + unfold caches. by rewrite E.
    + intros j. destruct (decide (j = i)) as [->|Hne]; [|by rewrite Ne]. rewrite E. simpl. lia.
    + intros j k d n Hj Hk. apply Hsame in Hj as [(-> & -> & ->)|[Hj Cj]], Hk as [(-> & E1 & E2)|[Hk Ck]].
      * done.
      * exfalso. by apply (Hnone k).
      * subst. exfalso. by apply (Hnone j).
      * by eapply H2.
    + by rewrite E.
Qed.
End Icache.

(** Two entries in use, one of them for inode 5; inode 6 gets the free entry. *)
Lemma iget_spec_witness :
  let ip n := Inode 1 n 1 initsleeplock true dinode0 in
  let s := Fs 0 false [ip 5; ip 9; inode0] (SuperBlock 0 0 0 0 0 0 0) 0%nat in
  exists s5 s6, iget 1 5 s = Ret 0%nat s5 /\ in_ref (inode_at s5 0) = 2 /\
    iget 1 6 s = Ret 2%nat s6 /\ icache_ok s6.
Proof.
  intros ip s. assert (Hok : icache_ok s).
  { assert (Hd : forall j, inode_at s j = ip 5 /\ j = 0%nat \/ inode_at s j = ip 9 /\ j = 1%nat \/ inode_at s j = inode0).
    { intros [|[|[|j]]]; auto. right. right. unfold inode_at. by rewrite nth_overflow by (simpl; lia). }
    split.
    - intros i. destruct (Hd i) as [[-> _]|[[-> _]| ->]]; simpl; lia.
    - intros i j d n Hi Hj. unfold caches in *.
      destruct (Hd i) as [[Ei ->]|[[Ei ->]|Ei]], (Hd j) as [[Ej ->]|[[Ej ->]|Ej]];
        rewrite Ei in Hi; rewrite Ej in Hj; simpl in Hi, Hj; try done; lia. }
  pose proof (iget_spec s 1 5 eq_refl Hok) as H5. pose proof (iget_spec s 1 6 eq_refl Hok) as H6.
  eexists _, _. split; [reflexivity|]. split; [reflexivity|]. split; [reflexivity|].
  destruct H6 as (_ & H6 & _). exact H6.
Defined.
