(* ===== verification/FsRead.v ===== *)
(** * Reading files and directories

    [bmap] and [readi] against the bytes of a file, and [dirlookup] against the entries
    of a directory, over the laws of the transaction interface. *)
From S2P Require Import Prelude Param Iface Sleeplock CString Fs FsBlock FsPath FsInode.

(** ** The bytes of a file *)

(** The disk block of the [bn]th block of a file with on-disk inode [d]. *)
Definition addr_of (v : Z -> block) (d : dinode) (bn : Z) : Z :=
  if bn <? NDIRECT then znth (d_addrs d) bn
  else get32 (v (znth (d_addrs d) NDIRECT)) (4 * (bn - NDIRECT)).
Definition file_byte (v : Z -> block) (d : dinode) (k : Z) : Z :=
  znth (v (addr_of v d (k / BSIZE))) (k mod BSIZE).
Fixpoint file_bytes (n : nat) (v : Z -> block) (d : dinode) (off : Z) : list Z :=
  match n with
  | O => []
  | S n' => file_byte v d off :: file_bytes n' v d (off + 1)
  end.

Definition disk_addr (a : Z) : Prop := 0 < a < FSSIZE.
(** The blocks of the first [lim] bytes are allocated. *)
Definition mapped_to (lim : Z) (v : Z -> block) (d : dinode) : Prop :=
  d_size d <= MAXFILE * BSIZE /\
  forall bn, 0 <= bn -> bn * BSIZE < lim -> disk_addr (addr_of v d bn) /\
    (NDIRECT <= bn -> disk_addr (znth (d_addrs d) NDIRECT)).
(** Every block below the size of the file is allocated. *)
Definition mapped (v : Z -> block) (d : dinode) : Prop := mapped_to (d_size d) v d.

Lemma file_bytes_app n m v d off :
  file_bytes (n + m) v d off = file_bytes n v d off ++ file_bytes m v d (off + Z.of_nat n).
Proof.
  revert off. induction n as [|n IH]; intros off; simpl; [by rewrite Z.add_0_r|].
  rewrite IH. do 3 f_equal. lia.
Qed.

Lemma length_file_bytes n v d off : length (file_bytes n v d off) = n.
Proof. revert off. induction n as [|n IH]; intros off; simpl; [done|by rewrite IH]. Qed.

Lemma file_bytes_view n v v' d off : (forall k, v' k = v k) -> file_bytes n v' d off = file_bytes n v d off.
Proof.
  intros V. revert off. induction n as [|n IH]; intros off; [done|]. simpl. rewrite IH. f_equal.
  unfold file_byte, addr_of. by rewrite !V.
Qed.

Lemma mapped_to_view lim v v' d : (forall k, v' k = v k) -> mapped_to lim v d -> mapped_to lim v' d.
Proof.
  intros V [H1 H2]. split; [done|]. intros bn H0 Hb. unfold addr_of in *. rewrite !V. auto.
Qed.
Lemma mapped_view v v' d : (forall k, v' k = v k) -> mapped v d -> mapped v' d.
Proof. apply mapped_to_view. Qed.

(** A run of bytes inside one block. *)
Lemma take_drop_znth (l : list Z) (o : Z) (m : nat) : 0 <= o -> o + Z.of_nat m <= zlen l ->
  take m (drop (Z.to_nat o) l) = (fun i => znth l (o + Z.of_nat i)) <$> seq 0 m.
Proof.
  unfold zlen. intros Ho Hl. apply list_eq. intros i.
  destruct (decide (i < m)%nat) as [Hi|Hi].
  - rewrite lookup_take_lt, lookup_drop, list_lookup_fmap, lookup_seq_lt by done. simpl.
    unfold znth. destruct (Z.ltb_spec (o + Z.of_nat i) 0); [lia|].
    replace (Z.to_nat (o + Z.of_nat i)) with (Z.to_nat o + i)%nat by lia.
    rewrite nth_lookup. destruct (lookup_lt_is_Some_2 l (Z.to_nat o + i)) as [x Hx]; [lia|]. by rewrite Hx.
  - rewrite !lookup_ge_None_2; [done|rewrite length_fmap, length_seq; lia|].
    rewrite length_take. lia.
Qed.

Lemma file_bytes_block m v d off : 0 <= off -> off mod BSIZE + Z.of_nat m <= BSIZE ->
  file_bytes m v d off =
  (fun i => znth (v (addr_of v d (off / BSIZE))) (off mod BSIZE + Z.of_nat i)) <$> seq 0 m.
Proof.
  unfold BSIZE. revert off. induction m as [|m IH]; intros off Ho Hm; [done|].
  cbn [file_bytes seq fmap list_fmap]. f_equal.
  - unfold file_byte, BSIZE. by rewrite Z.add_0_r.
  - destruct m as [|m']; [done|]. rewrite IH by lia. rewrite <-fmap_S_seq, <-list_fmap_compose.
    apply list_fmap_ext. intros i x _. cbn [compose].
    replace ((off + 1) / 512) with (off / 512) by lia. f_equal. lia.
Qed.

Lemma znth_range l i : Forall (fun c => 0 <= c < 256) l -> 0 <= znth l i < 256.
Proof.
  intros Hl. unfold znth. case_match; [lia|]. rewrite nth_lookup.
  destruct (l !! Z.to_nat i) as [x|] eqn:E; simpl; [|lia]. exact (Forall_lookup_1 _ _ _ _ Hl E).
Qed.

(** [namecmp] compares the names as strings of at most [DIRSIZ] bytes. *)
Lemma strncmp_names n s t (j : nat) : Forall (fun c => 0 <= c < 256) s -> Forall (fun c => 0 <= c < 256) t ->
  strncmp_loop (znth s) (znth t) (Z.of_nat j) n = 0 <->
  until_nul (take n (drop j s)) = until_nul (take n (drop j t)).
Proof.
  intros Hs Ht. revert j. induction n as [|n IH]; intros j; cbn [strncmp_loop]; [done|].
  pose proof (znth_range s (Z.of_nat j) Hs). pose proof (znth_range t (Z.of_nat j) Ht).
  assert (Hcons : forall l, until_nul (take (S n) (drop j l)) =
    if znth l (Z.of_nat j) =? 0 then [] else znth l (Z.of_nat j) :: until_nul (take n (drop (S j) l))).
  { intros l. unfold znth. destruct (Z.ltb_spec (Z.of_nat j) 0); [lia|]. rewrite Nat2Z.id, nth_lookup.
    destruct (l !! j) as [x|] eqn:E; simpl.
    - erewrite drop_S by exact E. done.
    - by rewrite drop_ge by (by apply lookup_ge_None). }
  rewrite !Hcons, !u8_small by done. specialize (IH (S j)). rewrite Nat2Z.inj_succ in IH.
  unfold Z.succ in IH. clear Hcons.
  destruct (Z.eqb_spec (znth s (Z.of_nat j)) 0), (Z.eqb_spec (znth t (Z.of_nat j)) 0),
    (Z.eqb_spec (znth s (Z.of_nat j)) (znth t (Z.of_nat j))); simpl; try lia;
    try (split; [intros; try done; lia|intros; simplify_eq; lia]).
  rewrite IH. split; [congruence|]. by intros [= _ ->].
Qed.

Lemma namecmp_zero s t : Forall (fun c => 0 <= c < 256) s -> Forall (fun c => 0 <= c < 256) t ->
  namecmp s t = 0 <-> name_str s = name_str t.
Proof. intros Hs Ht. exact (strncmp_names (Z.to_nat DIRSIZ) s t 0 Hs Ht). Qed.

Section Read.
Context {T : Type} `{HP : ProcIface T} `{HO : TxnOps T} `{HL : !TxnLaws T} `{HD : DevSw T}.
Implicit Types (s : fs T) (t : T).

(** The file system after steps that only touched the transaction, to no visible effect. *)
Definition quiet (t t' : T) (h : gmap nat (Z * bool)) : Prop :=
  t_ok t' h /\ (forall k, t_view t' k = t_view t k) /\ t_same t t' 0.
Lemma quiet_refl t h : t_ok t h -> quiet t t h.
Proof. intros. split; [done|]. split; [done|]. split; [done|]. split; [done|lia]. Qed.
Lemma quiet_trans t t1 t2 h h' : quiet t t1 h -> quiet t1 t2 h' -> quiet t t2 h'.
Proof.
  intros (O & V & S1) (O' & V' & S2). split; [done|]. split; [intros; by rewrite V', V|].
  exact (t_same_trans _ _ _ 0 0 S1 S2).
Qed.

(** [bmap] of an allocated block. *)
Lemma bmap_mapped s t i bn : t_ok t ∅ -> (0 < t_quota t)%nat ->
  in_dev (inode_at s i) = ROOTDEV -> 0 <= bn < MAXFILE ->
  let d := in_d (inode_at s i) in
  disk_addr (addr_of (t_view t) d bn) -> (NDIRECT <= bn -> disk_addr (znth (d_addrs d) NDIRECT)) ->
  exists t', bmap i bn (set_f_txn t s) = Ret (addr_of (t_view t) d bn) (set_f_txn t' s) /\ quiet t t' ∅.
Proof.
  intros Hok Hq Hdev Hbn d Ha Hi. unfold bmap. mrun.
  change (inode_at (set_f_txn t s) i) with (inode_at s i). fold d. unfold addr_of in Ha |- *.
  destruct (Z.ltb_spec bn NDIRECT) as [Hlt|Hge].
  { destruct (Z.eqb_spec (znth (d_addrs d) bn) 0) as [E|_]; [unfold disk_addr in Ha; lia|].
    exists t. split; [done|]. by apply quiet_refl. }
  specialize (Hi Hge). unfold MAXFILE in Hbn.
  destruct (Z.ltb_spec (bn - NDIRECT) NINDIRECT) as [_|]; [|lia].
  destruct (Z.eqb_spec (znth (d_addrs d) NDIRECT) 0) as [E|_]; [unfold disk_addr in Hi; lia|].
  mrun. rewrite Hdev.
  destruct (peek_block t ∅ (znth (d_addrs d) NDIRECT) Hok) as (bp & t1 & t2 & E1 & D1 & E2 & O & V & S).
  { unfold disk_addr in Hi. lia. }
  { intros. by rewrite lookup_empty. }
  { rewrite map_size_empty. lia. }
  erewrite run_txn by exact E1. mrun. rewrite set_txn_twice.
  change (f_txn (set_f_txn t1 s)) with t1. rewrite D1.
  destruct (Z.eqb_spec (get32 (t_view t (znth (d_addrs d) NDIRECT)) (4 * (bn - NDIRECT))) 0) as [E|_];
    [unfold disk_addr in Ha; lia|].
  mrun. erewrite run_txn by exact E2. exists t2. split; [done|]. by split.
Qed.

Lemma readi_loop_spec fuel s t i tot n off acc lim : t_ok t ∅ -> (0 < t_quota t)%nat ->
  in_dev (inode_at s i) = ROOTDEV -> mapped_to lim (t_view t) (in_d (inode_at s i)) ->
  0 <= tot <= n -> 0 <= off -> off + (n - tot) <= d_size (in_d (inode_at s i)) -> off + (n - tot) <= lim ->
  (Z.to_nat (n - tot) <= fuel)%nat ->
  exists t', readi_loop fuel i tot n off acc (set_f_txn t s) =
      Ret (acc ++ file_bytes (Z.to_nat (n - tot)) (t_view t) (in_d (inode_at s i)) off) (set_f_txn t' s) /\
    quiet t t' ∅.
Proof.
  set (d := in_d (inode_at s i)). revert t tot off acc.
  induction fuel as [|fuel IH]; intros t tot off acc Hok Hq Hdev Hm Htot Hoff Hsz Hlim Hf; cbn [readi_loop].
  { destruct (Z.ltb_spec tot n); [lia|]. replace (Z.to_nat (n - tot)) with O by lia.
    exists t. split; [by rewrite app_nil_r|]. by apply quiet_refl. }
  destruct (Z.ltb_spec tot n) as [Hlt|Hge].
  2: { replace (Z.to_nat (n - tot)) with O by lia. exists t.
       split; [by rewrite app_nil_r|]. by apply quiet_refl. }
  destruct Hm as [Hmax Hm]. destruct (Hm (off / BSIZE)) as [Ha Hi]; [unfold BSIZE; lia|unfold BSIZE; fold d; lia|].
  destruct (bmap_mapped s t i (off / BSIZE)) as (t1 & E1 & Q1); try done.
  { revert Hmax. unfold MAXFILE, NDIRECT, NINDIRECT, BSIZE. fold d in Hsz. lia. }
  fold d in E1, Ha. mrun. erewrite bind_eq by exact E1.
  pose proof Q1 as (O1 & V1 & S1).
  destruct (peek_block t1 ∅ (addr_of (t_view t) d (off / BSIZE)) O1) as (bp & t2 & t3 & E2 & D2 & E3 & O3 & V3 & S3).
  { unfold disk_addr in Ha. lia. }
  { intros. by rewrite lookup_empty. }
  { rewrite map_size_empty. lia. }
  mrun. change (inode_at (set_f_txn t s) i) with (inode_at s i).
  change (inode_at (set_f_txn t1 s) i) with (inode_at s i). rewrite Hdev.
  erewrite run_txn by exact E2. mrun. rewrite set_txn_twice.
  change (f_txn (set_f_txn t2 s)) with t2. rewrite D2, V1.
  erewrite run_txn by exact E3. rewrite set_txn_twice.
  assert (Q3 : quiet t t3 ∅) by (eapply quiet_trans; [exact Q1|by split]).
  set (m := Z.min (n - tot) (BSIZE - off mod BSIZE)).
  assert (Hmr : 0 < m <= n - tot /\ off mod BSIZE + m <= BSIZE) by (unfold m, BSIZE; lia).
  destruct Q3 as (O4 & V4 & S4).
  destruct (IH t3 (tot + m) (off + m) (acc ++ take (Z.to_nat m) (drop (Z.to_nat (off mod BSIZE))
    (t_view t (addr_of (t_view t) d (off / BSIZE)))))) as (t' & E & Q'); try done.
  - destruct S4 as (_ & _ & Hle). lia.
  - by apply (mapped_to_view lim (t_view t)).
  - lia.
  - lia.
  - lia.
  - lia.
  - lia.
  - exists t'. split; [|eapply quiet_trans; [|exact Q']; by split].
    rewrite E, <-app_assoc. do 2 f_equal.
    rewrite take_drop_znth.
    + rewrite <-file_bytes_block by (unfold BSIZE in *; lia).
      rewrite (file_bytes_view _ (t_view t) (t_view t3)) by done.
      replace (off + m) with (off + Z.of_nat (Z.to_nat m)) by lia.
      rewrite <-file_bytes_app. do 2 f_equal. lia.
    + unfold BSIZE. lia.
    + pose proof (t_view_ok t ∅ (addr_of (t_view t) d (off / BSIZE)) Hok) as Hb. unfold block_ok in Hb. lia.
Qed.

(** What [readi] returns for a file: an error, or the bytes up to the end of the file. *)
Definition read_result (v : Z -> block) (d : dinode) (off n : Z) : Z * list Z :=
  if (d_size d <? off) || (2 ^ 32 <=? off + n) then (-1, [])
  else let n := Z.min n (d_size d - off) in (n, file_bytes (Z.to_nat n) v d off).

Lemma readi_run_to lim s i off n : t_ok (f_txn s) ∅ -> (0 < t_quota (f_txn s))%nat ->
  in_dev (inode_at s i) = ROOTDEV -> d_type (in_d (inode_at s i)) <> T_DEV ->
  mapped_to lim (fview s) (in_d (inode_at s i)) -> Z.min (off + n) (d_size (in_d (inode_at s i))) <= lim ->
  0 <= off < 2 ^ 32 -> 0 <= n < 2 ^ 32 ->
  exists t', readi i off n s = Ret (read_result (fview s) (in_d (inode_at s i)) off n) (set_f_txn t' s) /\
    quiet (f_txn s) t' ∅.
Proof.
  set (d := in_d (inode_at s i)). intros Hok Hq Hdev Hty Hm Hlim Ho Hn. unfold readi. mrun. fold d.
  destruct (Z.eqb_spec (d_type d) T_DEV); [done|]. unfold read_result.
  assert (Hu : (u32 (off + n) <? off) = (2 ^ 32 <=? off + n)).
  { unfold u32. destruct (Z.leb_spec (2 ^ 32) (off + n)); lia. }
  rewrite Hu. destruct (_ || _) eqn:E.
  { exists (f_txn s). split; [by destruct s|]. by apply quiet_refl. }
  set (n' := if d_size d <? off + n then d_size d - off else n).
  assert (Hn' : n' = Z.min n (d_size d - off)) by (unfold n'; case_match; lia).
  destruct (readi_loop_spec (Z.to_nat n') s (f_txn s) i 0 n' off [] lim) as (t' & E' & Q'); try done.
  - lia.
  - lia.
  - fold d. lia.
  - lia.
  - lia.
  - exists t'. split; [|done]. assert (Es : set_f_txn (f_txn s) s = s) by (by destruct s).
    rewrite Es in E'. erewrite bind_eq by exact E'. rewrite Z.sub_0_r. cbv zeta. by rewrite <-Hn'.
Qed.
Lemma readi_run s i off n : t_ok (f_txn s) ∅ -> (0 < t_quota (f_txn s))%nat ->
  in_dev (inode_at s i) = ROOTDEV -> d_type (in_d (inode_at s i)) <> T_DEV ->
  mapped (fview s) (in_d (inode_at s i)) -> 0 <= off < 2 ^ 32 -> 0 <= n < 2 ^ 32 ->
  exists t', readi i off n s = Ret (read_result (fview s) (in_d (inode_at s i)) off n) (set_f_txn t' s) /\
    quiet (f_txn s) t' ∅.
Proof. intros Hok Hq Hdev Hty Hm. apply (readi_run_to _ s i off n Hok Hq Hdev Hty Hm). lia. Qed.

Lemma readi_wp s i off n : t_ok (f_txn s) ∅ -> (0 < t_quota (f_txn s))%nat ->
  in_dev (inode_at s i) = ROOTDEV -> d_type (in_d (inode_at s i)) <> T_DEV ->
  mapped (fview s) (in_d (inode_at s i)) -> 0 <= off < 2 ^ 32 -> 0 <= n < 2 ^ 32 ->
  wp (readi i off n) (fun r s' => r = read_result (fview s) (in_d (inode_at s i)) off n /\
    t_ok (f_txn s') ∅ /\ f_inodes s' = f_inodes s /\ forall k, fview s' k = fview s k) s.
Proof.
  intros Hok Hq Hdev Hty Hm Ho Hn.
  destruct (readi_run s i off n Hok Hq Hdev Hty Hm Ho Hn) as (t' & E & O & V & S).
  apply wp_run. eexists _, _. split; [exact E|]. split; [done|]. split; [done|]. by split.
Qed.
(** C9: [readi] of a file returns [-1] when the offset is past the end or [off + n] wraps
    around 2^32, and otherwise the bytes of the file from [off] on, cut at its end; the
    loop ends, no block changes and no buffer stays held. *)
Theorem readi_spec s i off n : t_ok (f_txn s) ∅ -> (0 < t_quota (f_txn s))%nat ->
  in_dev (inode_at s i) = ROOTDEV -> d_type (in_d (inode_at s i)) <> T_DEV ->
  mapped (fview s) (in_d (inode_at s i)) -> 0 <= off < 2 ^ 32 -> 0 <= n < 2 ^ 32 ->
  wp (readi i off n) (fun r s' => r = read_result (fview s) (in_d (inode_at s i)) off n /\
    t_ok (f_txn s') ∅ /\ f_inodes s' = f_inodes s /\ forall k, fview s' k = fview s k) s.
Proof. apply readi_wp. Qed.

(** ** Directories *)

(** The entry at byte [off] of a directory, and whether it is the one looked for. *)
Definition dir_at (v : Z -> block) (d : dinode) (off : Z) : dirent :=
  dirent_of (file_bytes (Z.to_nat DIRENT) v d off).
Definition dir_match (v : Z -> block) (d : dinode) (name : list Z) (off : Z) : Prop :=
  de_inum (dir_at v d off) <> 0 /\ name_str (de_name (dir_at v d off)) = name_str name.
(** [off] is the offset of an entry from [lo] on. *)
Definition dir_off (d : dinode) (lo off : Z) : Prop :=
  lo <= off /\ off + DIRENT <= d_size d /\ off mod DIRENT = 0.

Lemma file_byte_range v d k : (forall b, Forall (fun c => 0 <= c < 256) (v b)) ->
  0 <= file_byte v d k < 256.
Proof. intros Hv. unfold file_byte. by apply znth_range. Qed.

Lemma file_bytes_range n v d off : (forall b, Forall (fun c => 0 <= c < 256) (v b)) ->
  Forall (fun c => 0 <= c < 256) (file_bytes n v d off).
Proof.
  intros Hv. revert off. induction n as [|n IH]; intros off; constructor; [|apply IH].
  by apply file_byte_range.
Qed.

Lemma read_dirent_run lim s dp off msg : t_ok (f_txn s) ∅ -> (0 < t_quota (f_txn s))%nat ->
  in_dev (inode_at s dp) = ROOTDEV -> d_type (in_d (inode_at s dp)) <> T_DEV ->
  mapped_to lim (fview s) (in_d (inode_at s dp)) -> 0 <= off -> off + DIRENT <= d_size (in_d (inode_at s dp)) ->
  off + DIRENT <= lim ->
  exists t', read_dirent dp off msg s = Ret (dir_at (fview s) (in_d (inode_at s dp)) off) (set_f_txn t' s) /\
    quiet (f_txn s) t' ∅.
Proof.
  intros Hok Hq Hdev Hty Hm Ho Hs Hlim. unfold read_dirent.
  assert (Hsz : d_size (in_d (inode_at s dp)) <= 71680) by (destruct Hm as [Hm _]; exact Hm).
  unfold DIRENT in *.
  destruct (readi_run_to lim s dp off 16 Hok Hq Hdev Hty Hm) as (t' & E & Q); [lia|lia|lia|].
  exists t'. split; [|done]. erewrite bind_eq by exact E. unfold read_result, dir_at, DIRENT.
  destruct (_ || _) eqn:Eb; [lia|]. cbv zeta. rewrite Z.min_l by lia. done.
Qed.

(** A directory of the root device whose first [lim] bytes are in allocated blocks. *)
Definition root_dir_to (lim : Z) s dp : Prop :=
  in_dev (inode_at s dp) = ROOTDEV /\ d_type (in_d (inode_at s dp)) = T_DIR /\
  mapped_to lim (fview s) (in_d (inode_at s dp)) /\ 0 <= d_size (in_d (inode_at s dp)) /\
  d_size (in_d (inode_at s dp)) mod DIRENT = 0.
Definition root_dir s dp : Prop := root_dir_to (d_size (in_d (inode_at s dp))) s dp.
(** What a search from [lo] on reads lies below [lim]: all of the directory, or a match. *)
Definition search_within (lim : Z) (v : Z -> block) (d : dinode) (name : list Z) (lo : Z) : Prop :=
  d_size d <= lim \/ exists j, dir_off d lo j /\ dir_match v d name j /\ j + DIRENT <= lim.

Lemma dir_at_view v v' d off : (forall k, v' k = v k) -> dir_at v' d off = dir_at v d off.
Proof. intros V. unfold dir_at. by rewrite (file_bytes_view _ v v'). Qed.

(** How a search that has reached offset [lo] ends: at the first entry that matches, with
    [iget] of its inode, or without a match. *)
Definition dir_outcome s t dp name lo (r : res (fs T) (option (nat * Z))) : Prop :=
  let d := in_d (inode_at s dp) in
  exists t', quiet t t' ∅ /\
    ((exists k, dir_off d lo k /\ dir_match (t_view t) d name k /\
        (forall j, dir_off d lo j -> j < k -> ~ dir_match (t_view t) d name j) /\
        r = bind (iget ROOTDEV (de_inum (dir_at (t_view t) d k))) (fun ip => ret (Some (ip, k))) (set_f_txn t' s)) \/
     ((forall j, dir_off d lo j -> ~ dir_match (t_view t) d name j) /\ r = Ret None (set_f_txn t' s))).

(** Passing over an entry that does not match. *)
Lemma dir_outcome_skip s t t1 dp name off r : quiet t t1 ∅ -> off mod DIRENT = 0 ->
  ~ dir_match (t_view t) (in_d (inode_at s dp)) name off ->
  dir_outcome s t1 dp name (off + DIRENT) r -> dir_outcome s t dp name off r.
Proof.
  set (d := in_d (inode_at s dp)). intros Q1 Hal Hno (t' & Q' & Hr). pose proof Q1 as (_ & V1 & _).
  assert (Hdm : forall j, dir_match (t_view t1) d name j <-> dir_match (t_view t) d name j).
  { intros j. unfold dir_match. by rewrite (dir_at_view (t_view t) (t_view t1)). }
  assert (Hst : forall j, dir_off d off j -> j = off \/ dir_off d (off + DIRENT) j).
  { intros j (H1 & H2 & H3). destruct (decide (j = off)); [by left|right].
    split; [|done]. unfold DIRENT in *. lia. }
  exists t'. split; [by eapply quiet_trans|]. destruct Hr as [(k & Hk & Hmk & Hlk & E)|[Hall E]].
  - left. exists k. split; [destruct Hk as (? & ?); split; [unfold DIRENT in *; lia|done]|].
    split; [by apply Hdm|]. split.
    + intros j Hj Hjk. destruct (Hst j Hj) as [->|Hj']; [done|]. intros Hx%Hdm. by eapply Hlk.
    + rewrite E. by rewrite (dir_at_view (t_view t) (t_view t1)).
  - right. split; [|done]. intros j Hj. destruct (Hst j Hj) as [->|Hj']; [done|].
    intros Hx%Hdm. by eapply Hall.
Qed.

Lemma dir_outcome_end s t dp name off : t_ok t ∅ -> d_size (in_d (inode_at s dp)) <= off ->
  dir_outcome s t dp name off (Ret None (set_f_txn t s)).
Proof.
  intros Hok Hge. exists t. split; [by apply quiet_refl|]. right. split; [|done].
  intros j (H1 & H2 & _) _. unfold DIRENT in *. lia.
Qed.

Lemma dirlookup_loop_run lim fuel s t dp name off : t_ok t ∅ -> (0 < t_quota t)%nat ->
  root_dir_to lim (set_f_txn t s) dp -> search_within lim (t_view t) (in_d (inode_at s dp)) name off -> (forall b, Forall (fun c => 0 <= c < 256) (t_view t b)) ->
  Forall (fun c => 0 <= c < 256) name -> 0 <= off -> off mod DIRENT = 0 ->
  d_size (in_d (inode_at s dp)) - off < DIRENT * Z.of_nat fuel ->
  dir_outcome s t dp name off (dirlookup_loop fuel dp name off (set_f_txn t s)).
Proof.
  set (d := in_d (inode_at s dp)). revert t off.
  induction fuel as [|fuel IH]; intros t off Hok Hq Hd Hw Hb Hn Ho Hal Hf;
    pose proof Hd as (Hdev & Hty & Hm & Hs0 & Hsz);
    cbn [dirlookup_loop]; mrun; change (in_d (inode_at (set_f_txn t s) dp)) with d in *.
  - destruct (Z.ltb_spec off (d_size d)); [unfold DIRENT in *; lia|]. by apply dir_outcome_end.
  - destruct (Z.ltb_spec off (d_size d)) as [Hlt|Hge]; [|by apply dir_outcome_end].
    assert (Hnd : d_type d <> T_DEV) by (by rewrite Hty).
    assert (Hfit : off + DIRENT <= d_size d) by (unfold DIRENT in *; lia).
    assert (Hlim : off + DIRENT <= lim) by (destruct Hw as [|(j & (? & _) & _ & ?)]; lia).
    destruct (read_dirent_run lim (set_f_txn t s) dp off "dirlookup read" Hok Hq Hdev Hnd Hm Ho Hfit Hlim)
      as (t1 & E1 & Q1). change (in_d (inode_at (set_f_txn t s) dp)) with d in E1.
    change (fview (set_f_txn t s)) with (t_view t) in E1. change (f_txn (set_f_txn t s)) with t in Q1.
    rewrite set_txn_twice in E1. erewrite bind_eq by exact E1.
    set (de := dir_at (t_view t) d off).
    assert (Hrest : ~ dir_match (t_view t) d name off -> dir_outcome s t1 dp name (off + DIRENT)
        (dirlookup_loop fuel dp name (off + DIRENT) (set_f_txn t1 s))).
    { intros Hno. pose proof Q1 as (O1 & V1 & _ & _ & Hle). apply IH; try done; try (unfold DIRENT in *; lia).
      - split; [done|]. split; [done|]. split; [|done]. by apply (mapped_to_view lim (t_view t)).
      - destruct Hw as [Hw|(j & (J1 & J2) & Hj & Jl)]; [by left|]. right. exists j.
        destruct (decide (j = off)) as [->|]; [done|].
        split; [split; [unfold DIRENT in *; lia|done]|]. split; [|done].
        unfold dir_match. by rewrite (dir_at_view (t_view t) (t_view t1)).
      - intros b. rewrite V1. apply Hb. }
    destruct (Z.eqb_spec (de_inum de) 0) as [Ez|Hnz].
    { assert (Hno : ~ dir_match (t_view t) d name off) by (by intros [H _]).
      eapply dir_outcome_skip; [done|done|done|by apply Hrest]. }
    assert (Hcmp : namecmp name (de_name de) = 0 <-> name_str name = name_str (de_name de)).
    { apply namecmp_zero; [done|]. apply Forall_take, Forall_drop, file_bytes_range, Hb. }
    destruct (Z.eqb_spec (namecmp name (de_name de)) 0) as [E0|Hne].
    2: { assert (Hno : ~ dir_match (t_view t) d name off) by (intros [_ H]; apply Hne, Hcmp; by symmetry).
         eapply dir_outcome_skip; [done|done|done|by apply Hrest]. }
    exists t1. split; [done|]. left. exists off. split; [split; [lia|done]|].
    split; [split; [done|symmetry; by apply Hcmp]|]. split; [intros j (Hj & _); lia|].
    mrun. change (inode_at (set_f_txn t1 s) dp) with (inode_at (set_f_txn t s) dp). by rewrite Hdev.
Qed.

(** What [dirlookup] does, by its result. *)
Definition dirlookup_post s dp name : Prop :=
  let d := in_d (inode_at s dp) in
  match dirlookup dp name s with
  | Ret (Some (ip, off)) s' => dir_off d 0 off /\ dir_match (fview s) d name off /\
      (forall j, dir_off d 0 j -> j < off -> ~ dir_match (fview s) d name j) /\
      caches s' ip ROOTDEV (de_inum (dir_at (fview s) d off))
  | Ret None s' => f_inodes s' = f_inodes s /\ forall j, dir_off d 0 j -> ~ dir_match (fview s) d name j
  | Panic _ => forall i, (i < length (f_inodes s))%nat -> in_ref (inode_at s i) <> 0
  | _ => False
  end.
Lemma dirlookup_run_to lim s dp name : t_ok (f_txn s) ∅ -> (0 < t_quota (f_txn s))%nat ->
  f_lock s = false -> root_dir_to lim s dp -> search_within lim (fview s) (in_d (inode_at s dp)) name 0 -> (forall b, Forall (fun c => 0 <= c < 256) (fview s b)) ->
  Forall (fun c => 0 <= c < 256) name ->
  dirlookup_post s dp name.
Proof.
  intros Hok Hq Hl Hd Hw Hb Hn. unfold dirlookup_post. set (d := in_d (inode_at s dp)). cbv zeta. unfold dirlookup. mrun. pose proof Hd as (_ & Hty & _ & Hs0 & _).
  rewrite Hty. cbn [Z.eqb T_DIR negb Pos.eqb]. assert (Es : set_f_txn (f_txn s) s = s) by (by destruct s).
  destruct (dirlookup_loop_run lim (Z.to_nat (d_size d / DIRENT + 1)) s (f_txn s) dp name 0) as (t' & Q & Hr);
    rewrite ?Es; try done.
  { unfold DIRENT. fold d. lia. }
  rewrite Es in Hr. fold d in Hr |- *.
  destruct Hr as [(k & Hk & Hm & Hlt & ->)|[Hno ->]]; [|done].
  destruct (iget_run (set_f_txn t' s) ROOTDEV (de_inum (dir_at (t_view (f_txn s)) d k)) Hl)
    as [(i & Hi & Hc & E)|[_ [(i & Hi & _ & E)|[Hall E]]]].
  - erewrite bind_eq by exact E. split; [done|]. split; [done|]. split; [done|].
    unfold caches. rewrite inode_upd_eq by done. destruct Hc as (? & ? & ?). simpl. split; [lia|done].
  - erewrite bind_eq by exact E. split; [done|]. split; [done|]. split; [done|].
    unfold caches. rewrite inode_upd_eq by done. done.
  - unfold bind. rewrite E. exact Hall.
Qed.
Lemma dirlookup_run s dp name : t_ok (f_txn s) ∅ -> (0 < t_quota (f_txn s))%nat ->
  f_lock s = false -> root_dir s dp -> (forall b, Forall (fun c => 0 <= c < 256) (fview s b)) ->
  Forall (fun c => 0 <= c < 256) name ->
  dirlookup_post s dp name.
Proof. intros Hok Hq Hl Hd. apply (dirlookup_run_to _ s dp name Hok Hq Hl Hd). by left. Qed.

(** C36: [dirlookup] returns the first entry in use whose name is the one looked for (as
    strings of at most 14 bytes), with its offset and the cache entry of its inode, and
    null only when no entry matches; it panics only when the inode cache is full. *)
Theorem dirlookup_spec s dp name : t_ok (f_txn s) ∅ -> (0 < t_quota (f_txn s))%nat ->
  f_lock s = false -> root_dir s dp -> (forall b, Forall (fun c => 0 <= c < 256) (fview s b)) ->
  Forall (fun c => 0 <= c < 256) name ->
  let d := in_d (inode_at s dp) in
  match dirlookup dp name s with
  | Ret (Some (ip, off)) s' => dir_off d 0 off /\ dir_match (fview s) d name off /\
      (forall j, dir_off d 0 j -> j < off -> ~ dir_match (fview s) d name j) /\
      caches s' ip ROOTDEV (de_inum (dir_at (fview s) d off))
  | Ret None s' => f_inodes s' = f_inodes s /\ forall j, dir_off d 0 j -> ~ dir_match (fview s) d name j
  | Panic _ => forall i, (i < length (f_inodes s))%nat -> in_ref (inode_at s i) <> 0
  | _ => False
  end.
Proof. exact (dirlookup_run s dp name). Qed.
End Read.
