(* ===== verification/FsDemo.v ===== *)
(** * A file system over the log, the buffer cache and the disk

    A small disk image: the log at block 2, the inodes from block 32, the free map in
    block 58 with blocks 0 to 58 in use. *)
From S2P Require Import Prelude Param Iface Sleeplock Ide Bio Log LogSpec LogCrash LogTxn LogBio.
From S2P Require Import CString Fs FsBlock FsPath FsInode FsRead.

Definition demo_sb : superblock := SuperBlock 1000 941 200 30 2 32 58.
Definition demo_map : block :=
  replicate 7 255 ++ [7] ++ replicate 504 0.
(** The disk, with further blocks [l] written to it. *)
Definition demo_image (l : disk_hist Z) : disk_hist (Z * Z) :=
  ((fun e => ((ROOTDEV, e.1), e.2)) <$> l) ++ [((ROOTDEV, 58), demo_map)].
Definition demo_hist (l : disk_hist Z) : disk_hist Z := l ++ [(58, demo_map)].

Lemma demo_hist_eq l : omap root_write (demo_image l) = demo_hist l.
Proof.
  unfold demo_image, demo_hist. rewrite omap_app. f_equal.
  induction l as [|[k d] l IH]; [done|]. cbn. by rewrite IH.
Qed.

(** One system call is between [begin_op] and [end_op] on that disk. *)
Definition demo_at (l : disk_hist Z) (inodes : list inode) (s : fs (log (bio lone_proc))) : Prop :=
  t_ok (f_txn s) ∅ /\ f_sb s = demo_sb /\ f_lock s = false /\ f_inodes s = inodes /\
  (forall k, fview s k = hist_block (demo_hist l) k) /\
  (forall k, t_home (f_txn s) k <-> home 2 k) /\ t_quota (f_txn s) = 29%nat.

Lemma demo_exists l inodes : Forall (fun e => block_ok e.2) l ->
  hist_block (demo_hist l) 2 = zero_block ->
  exists s, demo_at l inodes s.
Proof.
  intros Hl H2. destruct (binit_ok (P := lone_proc) (7, false) (demo_image l)) as (c & _ & Hok & Hh & Hp).
  { unfold demo_image. rewrite Forall_app, Forall_fmap. split; [exact Hl|].
    apply Forall_singleton. by vm_compute. }
  rewrite demo_hist_eq in Hh. change (bio_hist c) with (blk_hist c) in Hh.
  change (bio_ok c ∅) with (blk_ok c ∅) in Hok. change (bio_pin c) with (blk_pin c) in Hp.
  exists (Fs (fresh_log c) false inodes demo_sb 0%nat). split_and!; try done.
  - exists []. rewrite fmap_empty. split; [|split; [done|]].
    + apply fresh_inv; [done|done|by rewrite Hh].
    + split; intros; by rewrite ?lookup_empty in *.
  - intros k. unfold fview. simpl. rewrite <-Hh. apply (blk_idle c k Hok). rewrite Hp. set_solver.
Qed.

Lemma demo_bits b : 0 <= b < 59 -> get_bit demo_map b = true.
Proof.
  intros Hb. assert (Hall : Forall (fun i => get_bit demo_map (Z.of_nat i) = true) (seq 0 59)).
  { apply (bool_decide_unpack _). vm_compute. exact I. }
  rewrite Forall_forall in Hall. specialize (Hall (Z.to_nat b)). rewrite Z2Nat.id in Hall by lia.
  apply Hall, elem_of_seq. lia.
Qed.

Lemma demo_BBLOCK b : 0 <= b < 1000 -> BBLOCK b demo_sb = 58 /\ b mod BPB = b.
Proof. unfold BBLOCK, BPB, BSIZE. simpl. lia. Qed.

Lemma demo_layout l inodes s : demo_at l inodes s -> hist_block (demo_hist l) 58 = demo_map ->
  layout (f_txn s) (f_sb s).
Proof.
  intros (Hok & Hsb & _ & _ & V & Hh & _) H58. rewrite Hsb.
  assert (U : forall b, 0 <= b < 1000 -> used (t_view (f_txn s)) demo_sb b = get_bit demo_map b).
  { intros b Hb. unfold used. destruct (demo_BBLOCK b Hb) as [-> ->].
    change (t_view (f_txn s)) with (fview s). by rewrite (V 58), H58. }
  split; cbn [sb_size demo_sb].
  - done.
  - intros b Hb. destruct (demo_BBLOCK b Hb) as [-> _]. rewrite Hh.
    unfold home, FSSIZE, LOGSIZE, MAXOPBLOCKS. lia.
  - intros b Hb. destruct (demo_BBLOCK b Hb) as [-> _]. rewrite U by lia. apply demo_bits. lia.
  - intros b Hb. rewrite U by done. intros Hf. rewrite Hh.
    destruct (decide (b < 59)); [by rewrite demo_bits in Hf by lia|].
    unfold home, FSSIZE, LOGSIZE, MAXOPBLOCKS. lia.
Qed.

Lemma apart_empty (t : log (bio lone_proc)) sb : apart t sb ∅.
Proof. intros i bn c b Hi. by rewrite lookup_empty in Hi. Qed.

(** The first free block is 59. *)
Lemma balloc_spec_witness : exists s n s', demo_at [] [] s /\ balloc ROOTDEV s = Ret n s' /\
  n = 59 /\ fview s' 59 = zero_block.
Proof.
  destruct (demo_exists [] []) as (s & Hs); [constructor|reflexivity|].
  pose proof (demo_layout [] [] s Hs eq_refl) as Hly.
  pose proof Hs as (Hok & Hsb & _ & _ & V & _ & Hq).
  pose proof (balloc_spec s ∅ Hok Hly (apart_empty _ _) ltac:(rewrite Hq, map_size_empty; lia)) as H.
  assert (Hu : used (fview s) (f_sb s) 59 = false).
  { rewrite Hsb. unfold used. rewrite V. reflexivity. }
  destruct (balloc ROOTDEV s) as [n s'|e|c s'|] eqn:E; try contradiction.
  - destruct H as (Hff & _ & _ & Hz & _). exists s, n, s'.
    assert (n = 59) as ->.
    { destruct Hff as (Hn & Hf & Hlt). rewrite Hsb in Hn, Hf, Hlt. cbn [sb_size demo_sb] in Hn.
      destruct (decide (59 < n)) as [Hgt|Hle].
      - rewrite Hsb, Hlt in Hu by lia. discriminate Hu.
      - destruct (decide (n = 59)) as [|Hne]; [assumption|]. exfalso.
        unfold used in Hf. destruct (demo_BBLOCK n Hn) as [E1 E2]. rewrite E1, E2, V in Hf.
        change (hist_block (demo_hist []) 58) with demo_map in Hf.
        rewrite demo_bits in Hf by lia. discriminate Hf. }
    split; [exact Hs|]. split; [exact E|]. split; [reflexivity|exact Hz].
  - rewrite H in Hu; [discriminate Hu|]. rewrite Hsb. cbn [sb_size demo_sb]. lia.
Defined.

(** Block 40 is used and can be freed; block 100 is free and cannot. *)
Lemma bfree_spec_witness : exists s s' e, demo_at [] [] s /\ bfree ROOTDEV 40 s = Ret tt s' /\
  used (fview s') demo_sb 40 = false /\ bfree ROOTDEV 100 s = Panic e.
Proof.
  destruct (demo_exists [] []) as (s & Hs); [constructor|reflexivity|].
  pose proof (demo_layout [] [] s Hs eq_refl) as Hly.
  pose proof Hs as (Hok & Hsb & _ & _ & V & _ & Hq).
  assert (Hqq : (size (∅ : gmap nat (Z * bool)) < t_quota (f_txn s))%nat) by (rewrite Hq, map_size_empty; lia).
  pose proof (bfree_spec s ∅ 40 Hok Hly (apart_empty _ _) Hqq ltac:(rewrite Hsb; simpl; lia)) as H1.
  pose proof (bfree_spec s ∅ 100 Hok Hly (apart_empty _ _) Hqq ltac:(rewrite Hsb; simpl; lia)) as H2.
  assert (U40 : used (fview s) (f_sb s) 40 = true) by (rewrite Hsb; unfold used; rewrite V; reflexivity).
  assert (U100 : used (fview s) (f_sb s) 100 = false) by (rewrite Hsb; unfold used; rewrite V; reflexivity).
  destruct (bfree ROOTDEV 40 s) as [[] s'|e|c s'|] eqn:E1; try contradiction; [|congruence].
  destruct (bfree ROOTDEV 100 s) as [[] s2|e|c s2|] eqn:E2; try contradiction;
    [destruct H2 as [H2 _]; congruence|].
  exists s, s', e. split; [exact Hs|]. split; [exact E1|]. split; [|exact E2].
  destruct H1 as (_ & _ & Hm & _). rewrite <-Hsb, (Hm 40); [reflexivity|].
  rewrite Hsb. cbn [sb_size demo_sb]. lia.
Defined.

(** No device has a driver. *)
#[local] Instance no_devices : DevSw (log (bio lone_proc)) := {|
  dev_read := fun _ => None; dev_write := fun _ => None |}.

(** ** A directory: inode 1, with the entries "." and "a" (inode 5) in block 60. *)
Definition demo_dir : dinode := Dinode T_DIR 0 0 1 32 (60 :: replicate 12 0).
Definition demo_entries : block :=
  dirent_bytes (Dirent 1 (46 :: replicate 13 0)) ++ dirent_bytes (Dirent 5 (97 :: replicate 13 0)) ++
  replicate 480 0.
Definition demo_root : inode := Inode ROOTDEV 1 1 initsleeplock true demo_dir.
Definition demo_icache : list inode := [demo_root; inode0].

Lemma demo_dir_exists : exists s, demo_at [(60, demo_entries)] demo_icache s.
Proof.
  apply demo_exists; [|by vm_compute].
  apply Forall_singleton. by vm_compute.
Qed.

Lemma demo_bytes s inodes b : demo_at [(60, demo_entries)] inodes s ->
  Forall (fun c => 0 <= c < 256) (fview s b).
Proof.
  intros (_ & _ & _ & _ & V & _). rewrite V. unfold demo_hist. cbn [app hist_block].
  destruct (decide (60 = b)), (decide (58 = b)); apply (bool_decide_unpack _); vm_compute; exact I.
Qed.

Lemma demo_mapped s inodes : demo_at [(60, demo_entries)] inodes s -> mapped (fview s) demo_dir.
Proof.
  intros _. split; [by vm_compute|]. cbn [d_size demo_dir]. intros bn H0 Hb.
  assert (bn = 0) as -> by (unfold BSIZE in Hb; lia). split; [|done]. by vm_compute.
Qed.

(** Reading 100 bytes from offset 18 gives the 14 bytes left; offset 33 is an error. *)
Lemma readi_spec_witness : exists s r s', demo_at [(60, demo_entries)] demo_icache s /\
  readi 0 18 100 s = Ret r s' /\ r = (14, 97 :: replicate 13 0).
Proof.
  destruct demo_dir_exists as (s & Hs). pose proof Hs as (Hok & _ & _ & Hi & V & _ & Hq).
  assert (E0 : inode_at s 0 = demo_root) by (unfold inode_at; rewrite Hi; reflexivity).
  pose proof (readi_spec s 0 18 100 Hok ltac:(rewrite Hq; lia) ltac:(rewrite E0; reflexivity)
    ltac:(rewrite E0; discriminate) ltac:(rewrite E0; by eapply demo_mapped) ltac:(lia) ltac:(lia)) as H.
  rewrite E0 in H. apply wp_run in H as (r & s' & E & -> & _). exists s, (read_result (fview s) demo_dir 18 100), s'.
  split; [exact Hs|]. split; [exact E|]. unfold read_result. cbn [d_size demo_dir].
  change ((32 <? 18) || (2 ^ 32 <=? 18 + 100)) with false. cbv zeta iota. f_equal.
  rewrite (file_bytes_view _ (hist_block (demo_hist [(60, demo_entries)]))) by exact V. by vm_compute.
Defined.

(** "a" is found at offset 16, and "b" is not found. *)
Lemma dirlookup_spec_witness : exists s ip off s' s'', demo_at [(60, demo_entries)] demo_icache s /\
  dirlookup 0 (97 :: replicate 13 0) s = Ret (Some (ip, off)) s' /\ off = 16 /\ caches s' ip ROOTDEV 5 /\
  dirlookup 0 (98 :: replicate 13 0) s = Ret None s''.
Proof.
  destruct demo_dir_exists as (s & Hs). pose proof Hs as (Hok & _ & Hl & Hi & V & _ & Hq).
  assert (E0 : inode_at s 0 = demo_root) by (unfold inode_at; rewrite Hi; reflexivity).
  assert (Hd : root_dir s 0).
  { unfold root_dir, root_dir_to. rewrite E0. split; [reflexivity|]. split; [reflexivity|].
    split; [by eapply demo_mapped|]. split; [simpl; lia|reflexivity]. }
  assert (Hqq : (0 < t_quota (f_txn s))%nat) by (rewrite Hq; lia).
  pose proof (dirlookup_spec s 0 (97 :: replicate 13 0) Hok Hqq Hl Hd (fun b => demo_bytes s _ b Hs)
    ltac:(apply (bool_decide_unpack _); vm_compute; exact I)) as Ha.
  pose proof (dirlookup_spec s 0 (98 :: replicate 13 0) Hok Hqq Hl Hd (fun b => demo_bytes s _ b Hs)
    ltac:(apply (bool_decide_unpack _); vm_compute; exact I)) as Hb.
  rewrite E0 in Ha, Hb. change (in_d demo_root) with demo_dir in Ha, Hb. cbv zeta in Ha, Hb.
  assert (W : forall off, dir_at (fview s) demo_dir off =
      dir_at (hist_block (demo_hist [(60, demo_entries)])) demo_dir off) by (intros; by apply dir_at_view).
  assert (Hoff : forall off, dir_off demo_dir 0 off -> off = 0 \/ off = 16).
  { intros off (H1 & H2 & H3). change (d_size demo_dir) with 32 in H2. unfold DIRENT in H2, H3. lia. }
  assert (M16 : dir_match (fview s) demo_dir (97 :: replicate 13 0) 16).
  { unfold dir_match. rewrite W. split; vm_compute; congruence. }
  assert (Hfree : exists i, (i < length (f_inodes s))%nat /\ in_ref (inode_at s i) = 0).
  { exists 1%nat. unfold inode_at. rewrite Hi. split; [simpl; lia|reflexivity]. }
  destruct (dirlookup 0 (97 :: replicate 13 0) s) as [[[ip off]|] s'|e|c s'|] eqn:Ea; try contradiction.
  2: { destruct Ha as [_ Ha]. exfalso. apply (Ha 16); [|exact M16]. unfold dir_off, DIRENT. simpl. lia. }
  2: { destruct Hfree as (i & Hlt & Hr). exfalso. by apply (Ha i). }
  destruct (dirlookup 0 (98 :: replicate 13 0) s) as [[[ip2 off2]|] s2|e|c s2|] eqn:Eb; try contradiction.
  - exfalso. destruct Hb as (H1 & [_ H2] & _). rewrite W in H2.
    destruct (Hoff _ H1) as [-> | ->]; vm_compute in H2; discriminate H2.
  - exists s, ip, off, s', s2. split; [exact Hs|]. split; [exact Ea|].
    destruct Ha as (H1 & [_ H2] & _ & H4).
    assert (off = 16) as ->.
    { rewrite W in H2. destruct (Hoff _ H1) as [-> | ->]; [vm_compute in H2; discriminate H2|reflexivity]. }
    split; [reflexivity|]. split; [|exact Eb]. rewrite W in H4. exact H4.
  - destruct Hfree as (i & Hlt & Hr). exfalso. by apply (Hb i).
Defined.
