(* ===== verification/Pipe.v ===== *)
(** * Pipes: pipe.c

    The bounded buffer and its two blocking operations. A call holds the pipe's
    lock from [acquire] or from waking up until it returns or sleeps, so a call is
    a sequence of atomic segments; [pipewrite] and [piperead] run one segment and
    say whether they finished or went to sleep. *)
From S2P Require Import Prelude Param Iface.

Definition PIPESIZE : Z := 512.

Record pipe := Pipe {
  p_lock : bool;
  p_data : list Z;
  p_nread : Z;
  p_nwrite : Z;
  p_readopen : bool;
  p_writeopen : bool
}.
Definition set_p_lock (v : bool) (s : pipe) : pipe :=
  Pipe v (p_data s) (p_nread s) (p_nwrite s) (p_readopen s) (p_writeopen s).
Definition set_p_data (v : list Z) (s : pipe) : pipe :=
  Pipe (p_lock s) v (p_nread s) (p_nwrite s) (p_readopen s) (p_writeopen s).
Definition set_p_nread (v : Z) (s : pipe) : pipe :=
  Pipe (p_lock s) (p_data s) v (p_nwrite s) (p_readopen s) (p_writeopen s).
Definition set_p_nwrite (v : Z) (s : pipe) : pipe :=
  Pipe (p_lock s) (p_data s) (p_nread s) v (p_readopen s) (p_writeopen s).
Definition set_p_readopen (v : bool) (s : pipe) : pipe :=
  Pipe (p_lock s) (p_data s) (p_nread s) (p_nwrite s) v (p_writeopen s).
Definition set_p_writeopen (v : bool) (s : pipe) : pipe :=
  Pipe (p_lock s) (p_data s) (p_nread s) (p_nwrite s) (p_readopen s) v.

(** How a segment ends: the call returns, or sleeps; a writer that sleeps has
    written the bytes before index [i]. *)
Inductive pipe_res (A : Type) :=
| PDone (a : A)
| PSleep (i : Z).
Arguments PDone {A}.
Arguments PSleep {A}.

Section Pipe.
Context {P : Type} `{ProcIface P}.
(** The pipe's address, for the channels [&p->nread] and [&p->nwrite]. *)
Variable id : nat.

Definition p_lock_lens : lens (pipe * P) bool :=
  Lens (fun s => p_lock s.1) (fun b s => (set_p_lock b s.1, s.2)).
Definition on_pipe (f : pipe -> pipe) : M (pipe * P) unit := modify (fun s => (f s.1, s.2)).
Definition pipe_wakeup (c : chan) : M (pipe * P) unit := modify (fun s => (s.1, wakeup c s.2)).

(** The initialisation in [pipealloc]. *)
Definition pipe_init (data : list Z) : pipe := Pipe false data 0 0 true true.

(** [pipeclose]: whether the pipe's page is to be freed. *)
Definition pipeclose (writable : bool) : M (pipe * P) bool :=
  zoom p_lock_lens spin_acquire ;;;
  (if writable then
     on_pipe (set_p_writeopen false) ;;;
     pipe_wakeup (ChPipeRead id)
   else
     on_pipe (set_p_readopen false) ;;;
     pipe_wakeup (ChPipeWrite id)) ;;;
  let! s := get in
  zoom p_lock_lens spin_release ;;;
  ret (negb (p_readopen s.1) && negb (p_writeopen s.1)).

Definition pipe_full (p : pipe) : bool := p_nwrite p =? u32 (p_nread p + PIPESIZE).
Definition pipe_empty (p : pipe) : bool := p_nread p =? p_nwrite p.
(** [p->data[p->nwrite++ % PIPESIZE] = c] *)
Definition put_byte (c : Z) (p : pipe) : pipe :=
  set_p_nwrite (u32 (p_nwrite p + 1))
    (set_p_data (zupd (p_data p) (p_nwrite p mod PIPESIZE) c) p).
Definition next_byte (p : pipe) : Z := znth (p_data p) (p_nread p mod PIPESIZE).

(** The loop of [pipewrite] from index [i], with the lock held. *)
Fixpoint pipewrite_loop (k : nat) (addr : list Z) (i : Z) : M (pipe * P) (pipe_res Z) :=
  match k with
  | O =>
    pipe_wakeup (ChPipeRead id) ;;;
    zoom p_lock_lens spin_release ;;;
    ret (PDone (zlen addr))
  | S k' =>
    let! s := get in
    if pipe_full s.1 then
      if negb (p_readopen s.1) || cur_killed s.2 then
        zoom p_lock_lens spin_release ;;;
        ret (PDone (-1))
      else
        pipe_wakeup (ChPipeRead id) ;;;
        zoom p_lock_lens spin_release ;;;   (* sleep(&p->nwrite, &p->lock) *)
        ret (PSleep i)
    else
      on_pipe (put_byte (znth addr i)) ;;;
      pipewrite_loop k' addr (i + 1)
  end.
(** The segment of [pipewrite(p, addr, n)] that starts at index [i]: at 0 when it
    is called, later when it wakes up. *)
Definition pipewrite (addr : list Z) (i : Z) : M (pipe * P) (pipe_res Z) :=
  zoom p_lock_lens spin_acquire ;;;
  pipewrite_loop (Z.to_nat (zlen addr - i)) addr i.

(** The copy loop of [piperead]. *)
Fixpoint piperead_copy (k : nat) (acc : list Z) : M (pipe * P) (list Z) :=
  match k with
  | O => ret acc
  | S k' =>
    let! s := get in
    if pipe_empty s.1 then ret acc
    else
      on_pipe (set_p_nread (u32 (p_nread s.1 + 1))) ;;;
      piperead_copy k' (acc ++ [next_byte s.1])
  end.
(** A segment of [piperead(p, addr, n)]: the count and the bytes stored. *)
Definition piperead (n : Z) : M (pipe * P) (pipe_res (Z * list Z)) :=
  zoom p_lock_lens spin_acquire ;;;
  let! s := get in
  if pipe_empty s.1 && p_writeopen s.1 then
    if cur_killed s.2 then
      zoom p_lock_lens spin_release ;;;
      ret (PDone (-1, []))
    else
      zoom p_lock_lens spin_release ;;;   (* sleep(&p->nread, &p->lock) *)
      ret (PSleep 0)
  else
    let! data := piperead_copy (Z.to_nat n) [] in
    pipe_wakeup (ChPipeWrite id) ;;;
    zoom p_lock_lens spin_release ;;;
    ret (PDone (zlen data, data)).
End Pipe.

(** ** The buffer as a queue *)
Section PipeSpec.
Context {P : Type} `{ProcIface P}.
Variable id : nat.

Definition pipe_len (p : pipe) : nat := Z.to_nat (u32 (p_nwrite p - p_nread p)).
(** The bytes written and not yet read, the oldest first. *)
Definition contents (p : pipe) : list Z :=
  (fun k => znth (p_data p) ((p_nread p + Z.of_nat k) mod PIPESIZE)) <$> seq 0 (pipe_len p).

Record pipe_inv (p : pipe) : Prop := {
  pi_len : zlen (p_data p) = PIPESIZE;
  pi_nread : 0 <= p_nread p < 2 ^ 32;
  pi_nwrite : 0 <= p_nwrite p < 2 ^ 32;
  pi_count : u32 (p_nwrite p - p_nread p) <= PIPESIZE
}.

Lemma pipe_full_len p : pipe_inv p -> pipe_full p = true <-> pipe_len p = 512%nat.
Proof.
  intros [Hl Hr Hw Hc]. unfold pipe_full, pipe_len, PIPESIZE, u32 in *.
  rewrite Z.eqb_eq. lia.
Qed.

Lemma pipe_empty_len p : pipe_inv p -> pipe_empty p = true <-> pipe_len p = 0%nat.
Proof.
  intros [Hl Hr Hw Hc]. unfold pipe_empty, pipe_len, PIPESIZE, u32 in *.
  rewrite Z.eqb_eq. lia.
Qed.

Lemma length_contents p : length (contents p) = pipe_len p.
Proof. unfold contents. by rewrite length_fmap, length_seq. Qed.

Lemma put_byte_inv c p : pipe_inv p -> pipe_full p = false ->
  pipe_inv (put_byte c p) /\ contents (put_byte c p) = contents p ++ [c].
Proof.
  intros Hi Hf. assert (Hn : (pipe_len p < 512)%nat).
  { destruct (decide (pipe_len p = 512%nat)) as [E|E].
    - apply pipe_full_len in E; [congruence|done].
    - destruct Hi as [_ _ _ Hc]. unfold pipe_len, PIPESIZE in *. lia. }
  pose proof Hi as [Hl Hr Hw Hc].
  assert (Hlen : pipe_len (put_byte c p) = S (pipe_len p)).
  { unfold pipe_len in *. simpl. unfold u32 in *. lia. }
  split.
  - split; simpl; try done.
    + by rewrite zlen_zupd.
    + apply u32_range.
    + unfold pipe_len in Hlen, Hn. simpl in Hlen. unfold PIPESIZE. lia.
  - unfold contents. rewrite Hlen, seq_S, fmap_app. simpl. f_equal.
    + apply list_fmap_ext. intros i k Hk'. apply lookup_seq in Hk' as [-> Hk'].
      apply znth_zupd_ne. unfold pipe_len, PIPESIZE, u32 in *. lia.
    + f_equal. rewrite znth_zupd by (rewrite Hl; unfold PIPESIZE; lia).
      replace (_ =? _) with true; [done|]. symmetry. apply Z.eqb_eq.
      unfold pipe_len, PIPESIZE, u32 in *. lia.
Qed.

Lemma take_byte_inv p : pipe_inv p -> pipe_empty p = false ->
  pipe_inv (set_p_nread (u32 (p_nread p + 1)) p) /\
  contents p = next_byte p :: contents (set_p_nread (u32 (p_nread p + 1)) p).
Proof.
  intros Hi He. assert (Hn : (0 < pipe_len p)%nat).
  { destruct (decide (pipe_len p = 0%nat)) as [E|E]; [|lia].
    apply pipe_empty_len in E; [congruence|done]. }
  pose proof Hi as [Hl Hr Hw Hc].
  assert (Hlen : pipe_len p = S (pipe_len (set_p_nread (u32 (p_nread p + 1)) p))).
  { unfold pipe_len in *. simpl. unfold u32 in *. lia. }
  split.
  - split; simpl; try done; [apply u32_range|].
    unfold pipe_len in Hlen, Hn. simpl in Hlen. unfold PIPESIZE in *. lia.
  - unfold contents. rewrite Hlen. simpl seq. rewrite fmap_cons. f_equal.
    + unfold next_byte. f_equal. f_equal. lia.
    + rewrite <-fmap_S_seq, <-list_fmap_compose. apply list_fmap_ext.
      intros i k _. simpl. f_equal. unfold PIPESIZE, u32. lia.
Qed.

Definition set_lock (b : bool) (s : pipe * P) : pipe * P := (set_p_lock b s.1, s.2).

Lemma inv_lock b p : pipe_inv p -> pipe_inv (set_p_lock b p) /\ contents (set_p_lock b p) = contents p.
Proof. intros []. by split. Qed.

Lemma run_lock {C} (k : unit -> M (pipe * P) C) s : p_lock s.1 = false ->
  bind (zoom p_lock_lens spin_acquire) k s = k tt (set_lock true s).
Proof. intros Hl. erewrite run_bind_zoom; [done|]. simpl. by rewrite Hl. Qed.

Lemma run_unlock {C} (k : unit -> M (pipe * P) C) s : p_lock s.1 = true ->
  bind (zoom p_lock_lens spin_release) k s = k tt (set_lock false s).
Proof. intros Hl. erewrite run_bind_zoom; [done|]. simpl. by rewrite Hl. Qed.

(** What a write segment may do: append the bytes from [i] on, up to where it
    stops, and say why it stopped. *)
Definition write_post (addr : list Z) (i : Z) (s s' : pipe * P) (r : pipe_res Z) : Prop :=
  pipe_inv s'.1 /\ p_lock s'.1 = false /\
  p_readopen s'.1 = p_readopen s.1 /\ p_writeopen s'.1 = p_writeopen s.1 /\
  cur_killed s'.2 = cur_killed s.2 /\
  exists j, i <= j <= zlen addr /\
    contents s'.1 = contents s.1 ++ take (Z.to_nat (j - i)) (drop (Z.to_nat i) addr) /\
    match r with
    | PDone r => r = zlen addr /\ j = zlen addr \/
        r = -1 /\ j < zlen addr /\ length (contents s'.1) = 512%nat /\
          (p_readopen s'.1 = false \/ cur_killed s'.2 = true)
    | PSleep i' => i' = j /\ j < zlen addr /\ length (contents s'.1) = 512%nat /\
        p_readopen s'.1 = true /\ cur_killed s'.2 = false
    end.

Lemma take_one (l : list Z) i : 0 <= i < zlen l ->
  take 1 (drop (Z.to_nat i) l) = [znth l i].
Proof.
  intros Hi. unfold zlen in Hi. destruct (lookup_lt_is_Some_2 l (Z.to_nat i)) as [x Hx]; [lia|].
  rewrite (drop_S _ _ _ Hx). simpl. rewrite take_0. f_equal.
  symmetry. apply znth_lookup; [lia|done].
Qed.

Lemma take_step (l : list Z) i j : 0 <= i -> i < j <= zlen l ->
  znth l i :: take (Z.to_nat (j - (i + 1))) (drop (Z.to_nat (i + 1)) l) =
  take (Z.to_nat (j - i)) (drop (Z.to_nat i) l).
Proof.
  intros Hi Hj. replace (Z.to_nat (j - i)) with (1 + Z.to_nat (j - (i + 1)))%nat by lia.
  rewrite <-take_take_drop, take_one, drop_drop by lia.
  simpl. do 3 f_equal. lia.
Qed.

Lemma pipewrite_loop_spec k addr i (s : pipe * P) : pipe_inv s.1 -> p_lock s.1 = true ->
  0 <= i <= zlen addr -> k = Z.to_nat (zlen addr - i) ->
  exists r s', pipewrite_loop id k addr i s = Ret r s' /\ write_post addr i s s' r.
Proof.
  revert i s. induction k as [|k IH]; intros i s Hi Hl Hr Hk; cbn [pipewrite_loop].
  - unfold pipe_wakeup. mrun. rewrite run_unlock by done.
    eexists _, _. split; [done|]. destruct (inv_lock false s.1 Hi) as [I1 I2].
    split; [done|]. do 3 (split; [done|]). split; [apply cur_killed_wakeup|].
    exists i. split; [lia|]. split; [|left; lia]. simpl.
    replace (Z.to_nat (i - i)) with 0%nat by lia. by rewrite take_0, app_nil_r.
  - mrun. destruct (pipe_full s.1) eqn:Ef.
    + assert (H512 : length (contents s.1) = 512%nat)
        by (rewrite length_contents; by apply pipe_full_len).
      assert (Hj : contents s.1 = contents s.1 ++ take (Z.to_nat (i - i)) (drop (Z.to_nat i) addr)).
      { replace (Z.to_nat (i - i)) with 0%nat by lia. by rewrite take_0, app_nil_r. }
      destruct (inv_lock false s.1 Hi) as [I1 I2].
      destruct (negb (p_readopen s.1) || cur_killed s.2) eqn:Ek.
      * rewrite run_unlock by done. eexists _, _. split; [done|].
        split; [done|]. do 4 (split; [done|]). exists i. split; [lia|].
        split; [done|]. right. split; [done|]. split; [lia|]. split; [done|].
        simpl. destruct (p_readopen s.1), (cur_killed s.2); auto.
      * unfold pipe_wakeup. mrun. rewrite run_unlock by done.
        eexists _, _. split; [done|]. split; [done|]. do 3 (split; [done|]).
        split; [apply cur_killed_wakeup|]. exists i. split; [lia|]. split; [done|].
        split; [done|]. split; [lia|]. split; [done|]. simpl. rewrite cur_killed_wakeup.
        destruct (p_readopen s.1), (cur_killed s.2); auto.
    + destruct (put_byte_inv (znth addr i) s.1 Hi Ef) as [I1 I2].
      unfold on_pipe. mrun.
      destruct (IH (i + 1) (put_byte (znth addr i) s.1, s.2)) as (r & s' & E & Hp); try done; try lia.
      exists r, s'. split; [done|].
      destruct Hp as (J1 & J2 & J3 & J4 & J5 & j & J6 & J7 & J8).
      split; [done|]. do 4 (split; [done|]). exists j. split; [lia|]. split; [|done].
      rewrite J7. simpl. rewrite I2, <-app_assoc. f_equal. by apply take_step; lia.
Qed.

Lemma pipewrite_spec addr i (s : pipe * P) : pipe_inv s.1 -> p_lock s.1 = false -> 0 <= i <= zlen addr ->
  exists r s', pipewrite id addr i s = Ret r s' /\ write_post addr i s s' r.
Proof.
  intros Hi Hl Hr. unfold pipewrite. rewrite run_lock by done.
  destruct (inv_lock true s.1 Hi) as [I1 I2].
  by destruct (pipewrite_loop_spec (Z.to_nat (zlen addr - i)) addr i (set_lock true s))
    as (r & s' & E & Hp); eauto.
Qed.

(** What a read segment may do: remove a prefix of the contents and return it. *)
Definition read_post (n : Z) (s s' : pipe * P) (r : pipe_res (Z * list Z)) : Prop :=
  pipe_inv s'.1 /\ p_lock s'.1 = false /\
  p_readopen s'.1 = p_readopen s.1 /\ p_writeopen s'.1 = p_writeopen s.1 /\
  cur_killed s'.2 = cur_killed s.2 /\
  match r with
  | PDone (cnt, data) => contents s.1 = data ++ contents s'.1 /\
      (cnt = -1 /\ data = [] /\ cur_killed s.2 = true \/
       cnt = zlen data /\ zlen data = Z.min n (zlen (contents s.1)))
  | PSleep _ => contents s'.1 = contents s.1 /\ contents s.1 = [] /\
      p_writeopen s.1 = true /\ cur_killed s.2 = false
  end.

Lemma piperead_copy_spec k acc (s : pipe * P) : pipe_inv s.1 ->
  exists data s', piperead_copy k acc s = Ret (acc ++ data) s' /\
    pipe_inv s'.1 /\ p_lock s'.1 = p_lock s.1 /\
    p_readopen s'.1 = p_readopen s.1 /\ p_writeopen s'.1 = p_writeopen s.1 /\ s'.2 = s.2 /\
    contents s.1 = data ++ contents s'.1 /\ length data = (k `min` length (contents s.1))%nat.
Proof.
  revert acc s. induction k as [|k IH]; intros acc s Hi; cbn [piperead_copy].
  - exists [], s. rewrite app_nil_r. by split_and!.
  - mrun. destruct (pipe_empty s.1) eqn:Ee.
    + exists [], s. rewrite app_nil_r. split_and!; try done.
      apply pipe_empty_len in Ee; [|done]. rewrite length_contents, Ee. simpl. lia.
    + destruct (take_byte_inv s.1 Hi Ee) as [I1 I2]. unfold on_pipe. mrun.
      destruct (IH (acc ++ [next_byte s.1]) (set_p_nread (u32 (p_nread s.1 + 1)) s.1, s.2))
        as (data & s' & E & J1 & J2 & J3 & J4 & J5 & J6 & J7); [done|].
      exists (next_byte s.1 :: data), s'. rewrite E, <-app_assoc.
      split_and!; try done; simpl in *.
      * by rewrite I2, J6.
      * rewrite I2. simpl. lia.
Qed.

Lemma piperead_spec n (s : pipe * P) : pipe_inv s.1 -> p_lock s.1 = false -> 0 <= n ->
  exists r s', piperead id n s = Ret r s' /\ read_post n s s' r.
Proof.
  intros Hi Hl Hn. unfold piperead. rewrite run_lock by done. mrun.
  destruct (inv_lock true s.1 Hi) as [I1 I2].
  change (pipe_empty (set_lock true s).1) with (pipe_empty s.1).
  change (p_writeopen (set_lock true s).1) with (p_writeopen s.1).
  change (cur_killed (set_lock true s).2) with (cur_killed s.2).
  destruct (pipe_empty s.1 && p_writeopen s.1) eqn:Ee.
  - assert (Hemp : contents s.1 = []).
    { apply nil_length_inv. rewrite length_contents. apply pipe_empty_len; [done|].
      by destruct (pipe_empty s.1). }
    destruct (inv_lock false (set_lock true s).1 I1) as [I3 I4].
    destruct (cur_killed s.2) eqn:Ek; rewrite run_unlock by done; eexists _, _; (split; [done|]).
    + split; [done|]. do 3 (split; [done|]). split; [done|]. split; [|by left].
      by rewrite Hemp.
    + split; [done|]. do 3 (split; [done|]). split; [done|]. simpl. split; [done|].
      split; [done|]. split; [by destruct (p_writeopen s.1), (pipe_empty s.1)|done].
  - destruct (piperead_copy_spec (Z.to_nat n) [] (set_lock true s) I1)
      as (data & s' & E & J1 & J2 & J3 & J4 & J5 & J6 & J7).
    erewrite bind_eq by done. unfold pipe_wakeup. mrun. rewrite run_unlock by done.
    eexists _, _. split; [done|]. destruct (inv_lock false s'.1 J1) as [I3 I4].
    split; [done|]. split; [done|]. split; [done|]. split; [done|]. split.
    { simpl. by rewrite cur_killed_wakeup, J5. }
    simpl in *. rewrite I2 in J6, J7. split; [done|]. right. split; [done|].
    unfold zlen. lia.
Qed.
End PipeSpec.

(** ** Readers and writers together *)
Module Traffic.
Section Traffic.
Context {P : Type} `{ProcIface P}.
Variable id : nat.

(** The pipe, all the bytes written so far, and all the bytes read so far. *)
Record state := State { st_pipe : pipe * P; st_sent : list Z; st_rcvd : list Z }.

(** The segments of any number of writers and readers, in any order; other code
    may change who is running and who is killed ([step_other]). *)
Inductive step : state -> state -> Prop :=
| step_write addr i r s s' sent rcvd : 0 <= i <= zlen addr ->
    pipewrite id addr i s = Ret r s' ->
    step (State s sent rcvd)
      (State s' (sent ++ take (length (contents s'.1) - length (contents s.1))
        (drop (Z.to_nat i) addr)) rcvd)
| step_read n cnt data s s' sent rcvd : 0 <= n ->
    piperead id n s = Ret (PDone (cnt, data)) s' ->
    step (State s sent rcvd) (State s' sent (rcvd ++ data))
| step_read_sleep n i s s' sent rcvd : 0 <= n ->
    piperead id n s = Ret (PSleep i) s' ->
    step (State s sent rcvd) (State s' sent rcvd)
| step_close w b s s' sent rcvd : pipeclose id w s = Ret b s' ->
    step (State s sent rcvd) (State s' sent rcvd)
| step_other p ps ps' sent rcvd :
    step (State (p, ps) sent rcvd) (State (p, ps') sent rcvd).

Definition inv (st : state) : Prop :=
  pipe_inv (st_pipe st).1 /\ p_lock (st_pipe st).1 = false /\
  st_sent st = st_rcvd st ++ contents (st_pipe st).1.

Lemma pipeclose_spec w (s : pipe * P) : pipe_inv s.1 -> p_lock s.1 = false ->
  exists s', pipeclose id w s = Ret (if w then negb (p_readopen s.1) else negb (p_writeopen s.1)) s' /\
    pipe_inv s'.1 /\ p_lock s'.1 = false /\ contents s'.1 = contents s.1 /\
    p_readopen s'.1 = w && p_readopen s.1 /\ p_writeopen s'.1 = negb w && p_writeopen s.1.
Proof.
  intros [H1 H2 H3 H4] Hl. unfold pipeclose. rewrite run_lock by done.
  destruct w; unfold on_pipe, pipe_wakeup; mrun; rewrite run_unlock by done;
    eexists; (split; [unfold ret; f_equal; simpl; by rewrite ?andb_true_r, ?andb_true_l|]);
    split_and!; done.
Qed.

Lemma traffic_step_inv st st' : inv st -> step st st' -> inv st'.
Proof.
  intros (Hi & Hl & Hc) Hs. destruct Hs as [addr i r s s' sent rcvd Hr E
    |n cnt data s s' sent rcvd Hn E|n i s s' sent rcvd Hn E|w b s s' sent rcvd E|]; simpl in *.
  - destruct (pipewrite_spec id addr i s Hi Hl Hr) as (r' & s1 & E' & W).
    rewrite E in E'. injection E' as <- <-.
    destruct W as (J1 & J2 & _ & _ & _ & j & J3 & J4 & _).
    split; [done|]. split; [done|]. simpl. rewrite J4, app_assoc, <-Hc, length_app. f_equal.
    rewrite length_take, length_drop. unfold zlen in *. f_equal. lia.
  - destruct (piperead_spec id n s Hi Hl Hn) as (r' & s1 & E' & R).
    rewrite E in E'. injection E' as <- <-.
    destruct R as (J1 & J2 & _ & _ & _ & J3 & _). split; [done|]. split; [done|].
    simpl. by rewrite <-app_assoc, <-J3.
  - destruct (piperead_spec id n s Hi Hl Hn) as (r' & s1 & E' & R).
    rewrite E in E'. injection E' as <- <-.
    destruct R as (J1 & J2 & _ & _ & _ & J3 & _). split; [done|]. split; [done|].
    simpl. by rewrite J3.
  - destruct (pipeclose_spec w s Hi Hl) as (s1 & E' & J1 & J2 & J3 & _).
    rewrite E in E'. injection E' as _ <-. split; [done|]. split; [done|].
    simpl. by rewrite J3.
  - done.
Qed.

(** C3: a pipe is a bounded FIFO: whatever the readers and writers, and however
    their calls sleep and interleave, the bytes read are a prefix of the bytes
    written, the rest is in the buffer, and the buffer never holds more than
    [PIPESIZE] bytes, also after the counters wrap around. *)
Theorem pipe_fifo data ps st : zlen data = PIPESIZE ->
  rtc step (State (pipe_init data, ps) [] []) st ->
  st_sent st = st_rcvd st ++ contents (st_pipe st).1 /\
  zlen (contents (st_pipe st).1) <= PIPESIZE.
Proof.
  intros Hd Hr.
  assert (Hi : inv (State (pipe_init data, ps) [] [])).
  { split; [|by split]. split; simpl; try done; lia. }
  assert (Hst : inv st).
  { clear Hd. induction Hr as [|st1 st2 st3 Hs Hr IH]; [done|]. by eapply IH, traffic_step_inv. }
  destruct Hst as (Hp & _ & Hc). split; [done|]. unfold zlen. rewrite length_contents.
  destruct Hp as [_ _ _ H4]. unfold pipe_len, PIPESIZE, u32 in *. lia.
Qed.
End Traffic.
End Traffic.

(** A writer sends three bytes and a reader takes two of them. *)
Lemma pipe_fifo_witness : exists st : Traffic.state (P := lone_proc),
  Traffic.st_rcvd st = [1; 2] /\ Traffic.st_sent st = [1; 2] ++ contents (Traffic.st_pipe st).1.
Proof.
  eexists (Traffic.State _ [1; 2; 3] [1; 2]). split; [reflexivity|].
  eapply (Traffic.pipe_fifo 0 (replicate 512 0) (1, false) (Traffic.State _ [1; 2; 3] [1; 2])).
  - reflexivity.
  - eapply rtc_l.
    { eapply (Traffic.step_write 0 [1; 2; 3] 0 _ _ _ [] []); [split; vm_compute; discriminate|].
      vm_compute. reflexivity. }
    eapply rtc_l.
    { eapply (Traffic.step_read 0 2 2 [1; 2] _ _ _ []); [discriminate|]. vm_compute. reflexivity. }
    apply rtc_refl.
Defined.
