(* ===== verification/File.v ===== *)
(** * Open files: file.c

    The table of open files over the file system and the pipes. A pipe lives in a
    page of its own and is known by the page's address. *)
From S2P Require Import Prelude Param Iface Sleeplock Fs Pipe.

(** [enum { FD_NONE, FD_PIPE, FD_INODE } type] *)
Inductive ftype := FD_NONE | FD_PIPE | FD_INODE.
#[global] Instance ftype_eq_dec : EqDecision ftype.
Proof. solve_decision. Defined.

Record file := File {
  fl_type : ftype;
  fl_ref : Z;
  fl_readable : bool;
  fl_writable : bool;
  fl_pipe : Z;
  fl_ip : nat;
  fl_off : Z
}.
Definition set_fl_type (v : ftype) (s : file) : file :=
  File v (fl_ref s) (fl_readable s) (fl_writable s) (fl_pipe s) (fl_ip s) (fl_off s).
Definition set_fl_ref (v : Z) (s : file) : file :=
  File (fl_type s) v (fl_readable s) (fl_writable s) (fl_pipe s) (fl_ip s) (fl_off s).
Definition set_fl_readable (v : bool) (s : file) : file :=
  File (fl_type s) (fl_ref s) v (fl_writable s) (fl_pipe s) (fl_ip s) (fl_off s).
Definition set_fl_writable (v : bool) (s : file) : file :=
  File (fl_type s) (fl_ref s) (fl_readable s) v (fl_pipe s) (fl_ip s) (fl_off s).
Definition set_fl_pipe (v : Z) (s : file) : file :=
  File (fl_type s) (fl_ref s) (fl_readable s) (fl_writable s) v (fl_ip s) (fl_off s).
Definition set_fl_ip (v : nat) (s : file) : file :=
  File (fl_type s) (fl_ref s) (fl_readable s) (fl_writable s) (fl_pipe s) v (fl_off s).
Definition set_fl_off (v : Z) (s : file) : file :=
  File (fl_type s) (fl_ref s) (fl_readable s) (fl_writable s) (fl_pipe s) (fl_ip s) v.
Definition file0 : file := File FD_NONE 0 false false 0 0 0.

Record ft (T : Type) := Ft {
  ft_fs : fs T;
  ft_lock : bool;
  ft_file : list file;
  ft_pipes : gmap Z pipe
}.
Arguments Ft {T}.
Arguments ft_fs {T}.
Arguments ft_lock {T}.
Arguments ft_file {T}.
Arguments ft_pipes {T}.
Definition set_ft_fs {T : Type} (v : fs T) (s : ft T) : ft T :=
  Ft v (ft_lock s) (ft_file s) (ft_pipes s).
Definition set_ft_lock {T : Type} (v : bool) (s : ft T) : ft T :=
  Ft (ft_fs s) v (ft_file s) (ft_pipes s).
Definition set_ft_file {T : Type} (v : list file) (s : ft T) : ft T :=
  Ft (ft_fs s) (ft_lock s) v (ft_pipes s).
Definition set_ft_pipes {T : Type} (v : gmap Z pipe) (s : ft T) : ft T :=
  Ft (ft_fs s) (ft_lock s) (ft_file s) v.

(** [kalloc] and [kfree], as their clients see them. *)
Class PageOps (T : Type) := {
  pg_kalloc : M T Z;
  pg_kfree : Z -> M T unit
}.

Section File.
Context {T : Type} `{ProcIface T} `{TxnOps T} `{DevSw T} `{PageOps T}.

#[global] Program Instance fs_proc : ProcIface (fs T) := {
  cur_pid s := cur_pid (f_txn s);
  cur_killed s := cur_killed (f_txn s);
  wakeup c s := set_f_txn (wakeup c (f_txn s)) s
}.
Next Obligation. intros c s. apply cur_pid_wakeup. Qed.
Next Obligation. intros c s. apply cur_killed_wakeup. Qed.

Definition ft_fs_lens : lens (ft T) (fs T) := Lens ft_fs set_ft_fs.
Definition ft_lock_lens : lens (ft T) bool := Lens ft_lock set_ft_lock.
Definition on_fs {A} (m : M (fs T) A) : M (ft T) A := zoom ft_fs_lens m.
Definition on_txn {A} (m : M T A) : M (ft T) A := on_fs (txn m).

Definition file_at (s : ft T) (f : nat) : file := nth f (ft_file s) file0.
Definition upd_file (f : nat) (g : file -> file) (s : ft T) : ft T :=
  set_ft_file (<[f := g (file_at s f)]> (ft_file s)) s.

(** The pipe at an address; its page's content before [pipealloc] is arbitrary. *)
Definition pipe0 : pipe := pipe_init (replicate (Z.to_nat PIPESIZE) 0).
Definition pipe_lens (p : Z) : lens (ft T) (pipe * fs T) :=
  Lens (fun s => (default pipe0 (ft_pipes s !! p), ft_fs s))
    (fun ps s => set_ft_fs ps.2 (set_ft_pipes (<[p := ps.1]> (ft_pipes s)) s)).
(** A call that may sleep: a sequential run stops there. *)
Definition pipe_call {A} (p : Z) (c : chan) (m : M (pipe * fs T) (pipe_res A)) : M (ft T) A :=
  let! r := zoom (pipe_lens p) m in
  match r with PDone a => ret a | PSleep _ => asleep c end.

Definition fileinit : M (ft T) unit := modify (set_ft_lock false).

(** The first file of the table with no references. *)
Fixpoint filealloc_scan (l : list file) (f : nat) : option nat :=
  match l with
  | [] => None
  | x :: l => if fl_ref x =? 0 then Some f else filealloc_scan l (S f)
  end.
Definition filealloc : M (ft T) (option nat) :=
  zoom ft_lock_lens spin_acquire ;;;
  let! s := get in
  match filealloc_scan (ft_file s) 0 with
  | Some f =>
    modify (upd_file f (set_fl_ref 1)) ;;;
    zoom ft_lock_lens spin_release ;;;
    ret (Some f)
  | None => zoom ft_lock_lens spin_release ;;; ret None
  end.

Definition filedup (f : nat) : M (ft T) nat :=
  zoom ft_lock_lens spin_acquire ;;;
  let! s := get in
  if fl_ref (file_at s f) <? 1 then panic "filedup"
  else
  modify (upd_file f (fun x => set_fl_ref (fl_ref x + 1) x)) ;;;
  zoom ft_lock_lens spin_release ;;;
  ret f.

(** pipe.c [pipeclose]: the page is freed when both ends are closed. *)
Definition pipe_close (p : Z) (writable : bool) : M (ft T) unit :=
  let! free := zoom (pipe_lens p) (pipeclose (Z.to_nat p) writable) in
  when free (
    on_txn (pg_kfree p) ;;;
    modify (fun s => set_ft_pipes (delete p (ft_pipes s)) s)).

(** Drop a reference; close the file when it was the last. *)
Definition fileclose (f : nat) : M (ft T) unit :=
  zoom ft_lock_lens spin_acquire ;;;
  let! s := get in
  if fl_ref (file_at s f) <? 1 then panic "fileclose"
  else
  modify (upd_file f (fun x => set_fl_ref (fl_ref x - 1) x)) ;;;
  let! s := get in
  if 0 <? fl_ref (file_at s f) then zoom ft_lock_lens spin_release
  else
  let ff := file_at s f in
  modify (upd_file f (set_fl_ref 0)) ;;;
  modify (upd_file f (set_fl_type FD_NONE)) ;;;
  zoom ft_lock_lens spin_release ;;;
  match fl_type ff with
  | FD_PIPE => pipe_close (fl_pipe ff) (fl_writable ff)
  | FD_INODE => on_txn t_begin ;;; on_fs (iput (fl_ip ff)) ;;; on_txn t_end
  | FD_NONE => ret tt
  end.

Definition filestat (f : nat) : M (ft T) (option stat) :=
  let! s := get in
  let x := file_at s f in
  match fl_type x with
  | FD_INODE =>
    on_fs (ilock (fl_ip x)) ;;;
    let! st := on_fs (stati (fl_ip x)) in
    on_fs (iunlock (fl_ip x)) ;;;
    ret (Some st)
  | _ => ret None
  end.

(** Read from file [f]: the result and the bytes stored at [addr]. *)
Definition fileread (f : nat) (n : Z) : M (ft T) (Z * list Z) :=
  let! s := get in
  let x := file_at s f in
  if negb (fl_readable x) then ret (-1, [])
  else
  match fl_type x with
  | FD_PIPE => pipe_call (fl_pipe x) (ChPipeRead (Z.to_nat (fl_pipe x)))
      (piperead (Z.to_nat (fl_pipe x)) n)
  | FD_INODE =>
    on_fs (ilock (fl_ip x)) ;;;
    let! (r, data) := on_fs (readi (fl_ip x) (fl_off x) n) in
    when (0 <? r) (modify (upd_file f (fun x => set_fl_off (fl_off x + r) x))) ;;;
    on_fs (iunlock (fl_ip x)) ;;;
    ret (r, data)
  | FD_NONE => panic "fileread"
  end.

(** The number of bytes one transaction may write. *)
Definition write_max : Z := (MAXOPBLOCKS - 1 - 1 - 2) / 2 * 512.

(** [while(i < n)]: a few blocks at a time; returns [i] when it stops. *)
Fixpoint filewrite_loop (fuel : nat) (f : nat) (addr : list Z) (i n : Z) : M (ft T) Z :=
  if i <? n then
    match fuel with
    | O => fun _ => NoFuel
    | S fuel' =>
      let n1 := Z.min (n - i) write_max in
      let! s := get in
      let ip := fl_ip (file_at s f) in
      on_txn t_begin ;;;
      on_fs (ilock ip) ;;;
      let! s := get in
      let! r := on_fs (writei ip (drop (Z.to_nat i) addr) (fl_off (file_at s f)) n1) in
      when (0 <? r) (modify (upd_file f (fun x => set_fl_off (fl_off x + r) x))) ;;;
      on_fs (iunlock ip) ;;;
      on_txn t_end ;;;
      if r <? 0 then ret i
      else if negb (r =? n1) then panic "short filewrite"
      else filewrite_loop fuel' f addr (i + r) n
    end
  else ret i.
Definition filewrite (f : nat) (addr : list Z) (n : Z) : M (ft T) Z :=
  let! s := get in
  let x := file_at s f in
  if negb (fl_writable x) then ret (-1)
  else
  match fl_type x with
  | FD_PIPE => pipe_call (fl_pipe x) (ChPipeWrite (Z.to_nat (fl_pipe x)))
      (pipewrite (Z.to_nat (fl_pipe x)) (take (Z.to_nat n) addr) 0)
  | FD_INODE =>
    let! i := filewrite_loop (Z.to_nat n) f addr 0 n in
    ret (if i =? n then n else -1)
  | FD_NONE => panic "filewrite"
  end.

(** pipe.c [pipealloc]: two files for the ends of a new pipe. *)
Definition pipealloc : M (ft T) (option (nat * nat)) :=
  let! f0 := filealloc in
  match f0 with
  | None => ret None
  | Some f0 =>
    let! f1 := filealloc in
    match f1 with
    | None => fileclose f0 ;;; ret None
    | Some f1 =>
      let! p := on_txn pg_kalloc in
      if p =? 0 then fileclose f0 ;;; fileclose f1 ;;; ret None
      else
      modify (fun s => set_ft_pipes (<[p := pipe0]> (ft_pipes s)) s) ;;;
      modify (upd_file f0 (fun x => set_fl_pipe p (set_fl_writable false
        (set_fl_readable true (set_fl_type FD_PIPE x))))) ;;;
      modify (upd_file f1 (fun x => set_fl_pipe p (set_fl_writable true
        (set_fl_readable false (set_fl_type FD_PIPE x))))) ;;;
      ret (Some (f0, f1))
    end
  end.
End File.
