(* ===== verification/Syscall.v ===== *)
(** * System call arguments: syscall.c

    A system call's arguments are fetched from the user stack of the calling
    process; a pointer argument must lie inside its memory. *)
From S2P Require Import Prelude CString.

(** The caller: its size, its memory, the saved [%esp] and [%eax]. *)
Record uproc := Uproc {
  u_sz : Z;
  u_mem : mem;
  u_esp : Z;
  u_eax : Z
}.
Definition set_u_sz (v : Z) (s : uproc) : uproc :=
  Uproc v (u_mem s) (u_esp s) (u_eax s).
Definition set_u_mem (v : mem) (s : uproc) : uproc :=
  Uproc (u_sz s) v (u_esp s) (u_eax s).
Definition set_u_esp (v : Z) (s : uproc) : uproc :=
  Uproc (u_sz s) (u_mem s) v (u_eax s).
Definition set_u_eax (v : Z) (s : uproc) : uproc :=
  Uproc (u_sz s) (u_mem s) (u_esp s) v.

Definition fetchint (u : uproc) (addr : Z) : option Z :=
  if (u_sz u <=? addr) || (u_sz u <? u32 (addr + 4)) then None
  else Some (s32 (ld32 (u_mem u) addr)).

(** [for(s = *pp; s < ep; s++) if( *s == 0) return s - *pp;] *)
Fixpoint fetchstr_loop (k : nat) (m : mem) (s start : Z) : option Z :=
  match k with
  | O => None
  | S k' => if m s =? 0 then Some (s - start) else fetchstr_loop k' m (s + 1) start
  end.
(** The string's address and length. *)
Definition fetchstr (u : uproc) (addr : Z) : option (Z * Z) :=
  if u_sz u <=? addr then None
  else match fetchstr_loop (Z.to_nat (u_sz u - addr)) (u_mem u) addr addr with
       | Some n => Some (addr, n)
       | None => None
       end.

Definition argint (u : uproc) (n : Z) : option Z := fetchint u (u32 (u_esp u + 4 + 4 * n)).

Definition argptr (u : uproc) (n size : Z) : option Z :=
  match argint u n with
  | None => None
  | Some i =>
    if (size <? 0) || (u_sz u <=? u32 i) || (u_sz u <? u32 (u32 i + size)) then None
    else Some (u32 i)
  end.

Definition argstr (u : uproc) (n : Z) : option (Z * Z) :=
  match argint u n with
  | None => None
  | Some addr => fetchstr u (u32 addr)
  end.

(** The bytes a pointer argument designates, and storing bytes there. *)
Fixpoint mem_bytes (m : mem) (a : Z) (n : nat) : list Z :=
  match n with O => [] | S n' => m a :: mem_bytes m (a + 1) n' end.
Fixpoint mem_store (m : mem) (a : Z) (l : list Z) : mem :=
  match l with [] => m | x :: l => mem_store (upd m a x) (a + 1) l end.

(** ** The dispatcher

    The system calls' numbers (syscall.h) in the order of the table. *)
Inductive sysno :=
| SYS_fork | SYS_exit | SYS_wait | SYS_pipe | SYS_read | SYS_kill | SYS_exec | SYS_fstat
| SYS_chdir | SYS_dup | SYS_getpid | SYS_sbrk | SYS_sleep | SYS_uptime | SYS_open
| SYS_write | SYS_mknod | SYS_unlink | SYS_link | SYS_mkdir | SYS_close | SYS_waitx
| SYS_getpinfo | SYS_set_priority.
Definition syscalls : list sysno :=
  [SYS_fork; SYS_exit; SYS_wait; SYS_pipe; SYS_read; SYS_kill; SYS_exec; SYS_fstat;
   SYS_chdir; SYS_dup; SYS_getpid; SYS_sbrk; SYS_sleep; SYS_uptime; SYS_open;
   SYS_write; SYS_mknod; SYS_unlink; SYS_link; SYS_mkdir; SYS_close; SYS_waitx;
   SYS_getpinfo; SYS_set_priority].

(** [syscall]: [%eax] selects the call and receives its result, or -1. [call] runs
    a system call; [lens] finds the caller's registers in the kernel's state. *)
Definition syscall {S} (l : lens S uproc) (call : sysno -> M S Z) : M S unit :=
  let! u := gets (lget l) in
  let num := u_eax u in
  match (if 0 <? num then syscalls !! Z.to_nat (num - 1) else None) with
  | Some c =>
    let! r := call c in
    modify (fun s => lset l (set_u_eax r (lget l s)) s)
  | None => modify (fun s => lset l (set_u_eax (-1) (lget l s)) s)
  end.

(** ** Arguments are safe *)

(** A user process's size: at most [KERNBASE]. *)
Definition sz_ok (u : uproc) : Prop := 0 <= u_sz u <= 2147483648.

(** An argument [argptr] accepts designates [size] bytes inside the process:
    no wrap-around of the address makes it point at kernel memory. *)
Theorem argptr_safe u n size p : sz_ok u -> size < 2 ^ 31 -> argptr u n size = Some p ->
  0 <= p /\ 0 <= size /\ p < u_sz u /\ p + size <= u_sz u.
Proof.
  intros [H0 H1] Hs. unfold argptr. destruct (argint u n) as [i|]; [|done].
  destruct ((size <? 0) || (u_sz u <=? u32 i) || (u_sz u <? u32 (u32 i + size))) eqn:E; [done|].
  intros [= <-]. pose proof (u32_range i) as Hi.
  assert (u32 (u32 i + size) = u32 i + size) by (apply u32_small; lia). lia.
Qed.

Lemma argptr_safe_witness :
  let u := Uproc 8192 (st32 (fun _ => 0) 4100 100) 4096 0 in
  argptr u 0 50 = Some 100 /\ 100 + 50 <= 8192.
Proof.
  split; [vm_compute; reflexivity|].
  apply (argptr_safe (Uproc 8192 (st32 (fun _ => 0) 4100 100) 4096 0) 0 50 100).
  - split; vm_compute; discriminate.
  - reflexivity.
  - vm_compute. reflexivity.
Defined.

Lemma fetchstr_loop_spec k m s start n : fetchstr_loop k m s start = Some n ->
  s <= start + n < s + Z.of_nat k /\ m (start + n) = 0 /\
  forall a, s <= a < start + n -> m a <> 0.
Proof.
  revert s. induction k as [|k IH]; intros s; simpl; [done|].
  destruct (Z.eqb_spec (m s) 0) as [E|E].
  - intros [= <-]. replace (start + (s - start)) with s by lia. split; [lia|]. split; [done|lia].
  - intros Hk. destruct (IH (s + 1) Hk) as (H1 & H2 & H3). split; [lia|]. split; [done|].
    intros a Ha. destruct (decide (a = s)) as [->|]; [done|]. apply H3. lia.
Qed.

(** [argstr] accepts exactly NUL-terminated strings that end inside the process,
    and returns their length. *)
Theorem argstr_safe u n p len : argstr u n = Some (p, len) ->
  0 <= len /\ 0 <= p /\ p + len < u_sz u /\ u_mem u (p + len) = 0 /\
  forall i, 0 <= i < len -> u_mem u (p + i) <> 0.
Proof.
  unfold argstr. destruct (argint u n) as [a|]; [|done]. unfold fetchstr.
  destruct (Z.leb_spec (u_sz u) (u32 a)) as [|Hlt]; [done|].
  destruct (fetchstr_loop _ _ _ _) as [k|] eqn:E; [|done]. intros [= <- <-].
  apply fetchstr_loop_spec in E as (H1 & H2 & H3). pose proof (u32_range a).
  split; [lia|]. split; [lia|]. split; [lia|]. split; [done|].
  intros i Hi. apply H3. lia.
Qed.

Lemma argstr_safe_witness :
  let u := Uproc 8192 (upd (upd (st32 (fun _ => 0) 4100 100) 100 104) 101 105) 4096 0 in
  argstr u 0 = Some (100, 2) /\ 100 + 2 < 8192.
Proof.
  split; [vm_compute; reflexivity|].
  apply (argstr_safe (Uproc 8192 (upd (upd (st32 (fun _ => 0) 4100 100) 100 104) 101 105) 4096 0)
    0 100 2).
  vm_compute. reflexivity.
Defined.
