(* ===== verification/Sysfile.v ===== *)
(** * File-system system calls: sysfile.c

    Argument checking and the transactions of the calls, over the open files of
    File.v, the calling process's memory (Syscall.v) and its descriptor table. *)
From S2P Require Import Prelude Param Iface Sleeplock CString Syscall Fs Pipe File.


Record sf (T : Type) := Sf {
  sf_ft : ft T;
  sf_ofile : list (option nat);
  sf_user : uproc
}.
Arguments Sf {T}.
Arguments sf_ft {T}.
Arguments sf_ofile {T}.
Arguments sf_user {T}.
Definition set_sf_ft {T : Type} (v : ft T) (s : sf T) : sf T :=
  Sf v (sf_ofile s) (sf_user s).
Definition set_sf_ofile {T : Type} (v : list (option nat)) (s : sf T) : sf T :=
  Sf (sf_ft s) v (sf_user s).
Definition set_sf_user {T : Type} (v : uproc) (s : sf T) : sf T :=
  Sf (sf_ft s) (sf_ofile s) v.

(** The loop of [fdalloc]. *)
Fixpoint fdalloc_scan (l : list (option nat)) (fd : nat) : option nat :=
  match l with
  | [] => None
  | None :: _ => Some fd
  | Some _ :: l => fdalloc_scan l (S fd)
  end.

Section Sysfile.
Context {T : Type} `{ProcIface T} `{TxnOps T} `{DevSw T} `{PageOps T}.

Definition sf_ft_lens : lens (sf T) (ft T) := Lens sf_ft set_sf_ft.
Definition on_ft {A} (m : M (ft T) A) : M (sf T) A := zoom sf_ft_lens m.
Definition on_fs' {A} (m : M (fs T) A) : M (sf T) A := on_ft (on_fs m).
Definition begin_op : M (sf T) unit := on_ft (on_txn t_begin).
Definition end_op : M (sf T) unit := on_ft (on_txn t_end).
Definition ino (s : sf T) (i : nat) : inode := inode_at (ft_fs (sf_ft s)) i.
Definition upd_ino (i : nat) (f : dinode -> dinode) : M (sf T) unit :=
  on_fs' (modify (upd_d i f)).
Definition dtype (s : sf T) (i : nat) : Z := d_type (in_d (ino s i)).

(** Arguments; [str] is the string's bytes without the NUL. *)
Definition arg_int (n : Z) : M (sf T) (option Z) := gets (fun s => argint (sf_user s) n).
Definition arg_ptr (n size : Z) : M (sf T) (option Z) := gets (fun s => argptr (sf_user s) n size).
Definition arg_str (n : Z) : M (sf T) (option (list Z)) :=
  gets (fun s => match argstr (sf_user s) n with
                 | Some (p, len) => Some (mem_bytes (u_mem (sf_user s)) p (Z.to_nat len))
                 | None => None
                 end).
Definition user_store (p : Z) (l : list Z) : M (sf T) unit :=
  modify (fun s => set_sf_user (set_u_mem (mem_store (u_mem (sf_user s)) p l) (sf_user s)) s).

Definition argfd (n : Z) : M (sf T) (option (nat * nat)) :=
  let! fd := arg_int n in
  match fd with
  | None => ret None
  | Some fd =>
    let! s := get in
    if (fd <? 0) || (Z.of_nat NOFILE <=? fd) then ret None
    else match sf_ofile s !! Z.to_nat fd with
         | Some (Some f) => ret (Some (Z.to_nat fd, f))
         | _ => ret None
         end
  end.

(** Allocate the lowest free descriptor for file [f]. *)
Definition fdalloc (f : nat) : M (sf T) (option nat) :=
  let! s := get in
  match fdalloc_scan (sf_ofile s) 0 with
  | Some fd => modify (set_sf_ofile (<[fd := Some f]> (sf_ofile s))) ;;; ret (Some fd)
  | None => ret None
  end.

Definition sys_dup : M (sf T) Z :=
  let! a := argfd 0 in
  match a with
  | None => ret (-1)
  | Some (_, f) =>
    let! fd := fdalloc f in
    match fd with
    | None => ret (-1)
    | Some fd => on_ft (filedup f) ;;; ret (Z.of_nat fd)
    end
  end.

Definition sys_read : M (sf T) Z :=
  let! a := argfd 0 in
  let! n := arg_int 2 in
  match a, n with
  | Some (_, f), Some n =>
    let! p := arg_ptr 1 n in
    match p with
    | None => ret (-1)
    | Some p =>
      let! (r, data) := on_ft (fileread f n) in
      user_store p data ;;;
      ret r
    end
  | _, _ => ret (-1)
  end.

Definition sys_write : M (sf T) Z :=
  let! a := argfd 0 in
  let! n := arg_int 2 in
  match a, n with
  | Some (_, f), Some n =>
    let! p := arg_ptr 1 n in
    match p with
    | None => ret (-1)
    | Some p =>
      let! s := get in
      on_ft (filewrite f (mem_bytes (u_mem (sf_user s)) p (Z.to_nat n)) n)
    end
  | _, _ => ret (-1)
  end.

Definition sys_close : M (sf T) Z :=
  let! a := argfd 0 in
  match a with
  | None => ret (-1)
  | Some (fd, f) =>
    modify (fun s => set_sf_ofile (<[fd := None]> (sf_ofile s)) s) ;;;
    on_ft (fileclose f) ;;;
    ret 0
  end.

(** [struct stat] (stat.h): 20 bytes with its padding, as stored. *)
Definition stat_bytes (st : stat) : list Z :=
  put32 (put16 (put32 (put32 (put16 (replicate 20 0) 0 (st_type st)) 4 (st_dev st))
    8 (st_ino st)) 12 (st_nlink st)) 16 (st_size st).
Definition sys_fstat : M (sf T) Z :=
  let! a := argfd 0 in
  let! p := arg_ptr 1 20 in
  match a, p with
  | Some (_, f), Some p =>
    let! st := on_ft (filestat f) in
    match st with
    | Some st => user_store p (stat_bytes st) ;;; ret 0
    | None => ret (-1)
    end
  | _, _ => ret (-1)
  end.

(** The failure exit of [sys_link]: the link count is undone. *)
Definition link_bad (ip : nat) : M (sf T) Z :=
  on_fs' (ilock ip) ;;;
  upd_ino ip (fun d => set_d_nlink (s16 (d_nlink d - 1)) d) ;;;
  on_fs' (iupdate ip) ;;;
  on_fs' (iunlockput ip) ;;;
  end_op ;;;
  ret (-1).
Definition sys_link : M (sf T) Z :=
  let! old := arg_str 0 in
  let! new := arg_str 1 in
  match old, new with
  | Some old, Some new =>
    begin_op ;;;
    let! ip := on_fs' (namei old) in
    match ip with
    | None => end_op ;;; ret (-1)
    | Some ip =>
      on_fs' (ilock ip) ;;;
      let! s := get in
      if dtype s ip =? T_DIR then on_fs' (iunlockput ip) ;;; end_op ;;; ret (-1)
      else
      upd_ino ip (fun d => set_d_nlink (s16 (d_nlink d + 1)) d) ;;;
      on_fs' (iupdate ip) ;;;
      on_fs' (iunlock ip) ;;;
      let! (dp, name) := on_fs' (nameiparent new (replicate (Z.to_nat DIRSIZ) 0)) in
      match dp with
      | None => link_bad ip
      | Some dp =>
        on_fs' (ilock dp) ;;;
        let! s := get in
        let! bad := (if negb (in_dev (ino s dp) =? in_dev (ino s ip)) then ret true
                     else let! r := on_fs' (dirlink dp name (in_inum (ino s ip))) in
                          ret (r <? 0)) in
        if bad then on_fs' (iunlockput dp) ;;; link_bad ip
        else
        on_fs' (iunlockput dp) ;;;
        on_fs' (iput ip) ;;;
        end_op ;;;
        ret 0
      end
    end
  | _, _ => ret (-1)
  end.

(** Is the directory empty except for "." and ".."? *)
Fixpoint isdirempty_loop (fuel : nat) (dp : nat) (off : Z) : M (fs T) bool :=
  let! s := get in
  if off <? d_size (in_d (inode_at s dp)) then
    match fuel with
    | O => fun _ => NoFuel
    | S fuel' =>
      let! de := read_dirent dp off "isdirempty: readi" in
      if negb (de_inum de =? 0) then ret false else isdirempty_loop fuel' dp (off + DIRENT)
    end
  else ret true.
Definition isdirempty (dp : nat) : M (fs T) bool :=
  let! s := get in
  isdirempty_loop (Z.to_nat (d_size (in_d (inode_at s dp)) / DIRENT)) dp (2 * DIRENT).

Definition dot : list Z := [46; 0].
Definition dotdot : list Z := [46; 46; 0].

Definition unlink_bad (dp : nat) : M (sf T) Z :=
  on_fs' (iunlockput dp) ;;; end_op ;;; ret (-1).
Definition sys_unlink : M (sf T) Z :=
  let! path := arg_str 0 in
  match path with
  | None => ret (-1)
  | Some path =>
    begin_op ;;;
    let! (dp, name) := on_fs' (nameiparent path (replicate (Z.to_nat DIRSIZ) 0)) in
    match dp with
    | None => end_op ;;; ret (-1)
    | Some dp =>
      on_fs' (ilock dp) ;;;
      if (namecmp name dot =? 0) || (namecmp name dotdot =? 0) then unlink_bad dp
      else
      let! r := on_fs' (dirlookup dp name) in
      match r with
      | None => unlink_bad dp
      | Some (ip, off) =>
        on_fs' (ilock ip) ;;;
        let! s := get in
        if d_nlink (in_d (ino s ip)) <? 1 then panic "unlink: nlink < 1"
        else
        let! full := (if dtype s ip =? T_DIR
                      then let! e := on_fs' (isdirempty ip) in ret (negb e)
                      else ret false) in
        if full then on_fs' (iunlockput ip) ;;; unlink_bad dp
        else
        let! n := on_fs' (writei dp (replicate 16 0) off DIRENT) in
        if negb (n =? DIRENT) then panic "unlink: writei"
        else
        let! s := get in
        when (dtype s ip =? T_DIR) (
          upd_ino dp (fun d => set_d_nlink (s16 (d_nlink d - 1)) d) ;;;
          on_fs' (iupdate dp)) ;;;
        on_fs' (iunlockput dp) ;;;
        upd_ino ip (fun d => set_d_nlink (s16 (d_nlink d - 1)) d) ;;;
        on_fs' (iupdate ip) ;;;
        on_fs' (iunlockput ip) ;;;
        end_op ;;;
        ret 0
      end
    end
  end.

(** Create the inode a path names, or find an existing file: locked, or [None]. *)
Definition create (path : list Z) (type major minor : Z) : M (sf T) (option nat) :=
  let! (dp, name) := on_fs' (nameiparent path (replicate (Z.to_nat DIRSIZ) 0)) in
  match dp with
  | None => ret None
  | Some dp =>
    on_fs' (ilock dp) ;;;
    let! r := on_fs' (dirlookup dp name) in
    match r with
    | Some (ip, _) =>
      on_fs' (iunlockput dp) ;;;
      on_fs' (ilock ip) ;;;
      let! s := get in
      if (type =? T_FILE) && (dtype s ip =? T_FILE) then ret (Some ip)
      else on_fs' (iunlockput ip) ;;; ret None
    | None =>
      let! s := get in
      let! ip := on_fs' (ialloc (in_dev (ino s dp)) type) in
      on_fs' (ilock ip) ;;;
      upd_ino ip (set_d_major (s16 major)) ;;;
      upd_ino ip (set_d_minor (s16 minor)) ;;;
      upd_ino ip (set_d_nlink 1) ;;;
      on_fs' (iupdate ip) ;;;
      when (type =? T_DIR) (
        upd_ino dp (fun d => set_d_nlink (s16 (d_nlink d + 1)) d) ;;;
        on_fs' (iupdate dp) ;;;
        let! s := get in
        let! r1 := on_fs' (dirlink ip dot (in_inum (ino s ip))) in
        if r1 <? 0 then panic "create dots"
        else
        let! r2 := on_fs' (dirlink ip dotdot (in_inum (ino s dp))) in
        if r2 <? 0 then panic "create dots" else ret tt) ;;;
      let! s := get in
      let! r := on_fs' (dirlink dp name (in_inum (ino s ip))) in
      if r <? 0 then panic "create: dirlink"
      else
      on_fs' (iunlockput dp) ;;;
      ret (Some ip)
    end
  end.

(** The second half of [sys_open]: a file and a descriptor for the locked [ip]. *)
Definition open_file (ip : nat) (omode : Z) : M (sf T) Z :=
  let! f := on_ft filealloc in
  match f with
  | None => on_fs' (iunlockput ip) ;;; end_op ;;; ret (-1)
  | Some f =>
    let! fd := fdalloc f in
    match fd with
    | None => on_ft (fileclose f) ;;; on_fs' (iunlockput ip) ;;; end_op ;;; ret (-1)
    | Some fd =>
      on_fs' (iunlock ip) ;;;
      end_op ;;;
      on_ft (modify (upd_file f (fun x => File FD_INODE (fl_ref x)
        (Z.land omode O_WRONLY =? 0)
        (negb (Z.land omode O_WRONLY =? 0) || negb (Z.land omode O_RDWR =? 0))
        (fl_pipe x) ip 0))) ;;;
      ret (Z.of_nat fd)
    end
  end.
Definition sys_open : M (sf T) Z :=
  let! path := arg_str 0 in
  let! omode := arg_int 1 in
  match path, omode with
  | Some path, Some omode =>
    begin_op ;;;
    if negb (Z.land omode O_CREATE =? 0) then
      let! ip := create path T_FILE 0 0 in
      match ip with
      | None => end_op ;;; ret (-1)
      | Some ip => open_file ip omode
      end
    else
      let! ip := on_fs' (namei path) in
      match ip with
      | None => end_op ;;; ret (-1)
      | Some ip =>
        on_fs' (ilock ip) ;;;
        let! s := get in
        if (dtype s ip =? T_DIR) && negb (omode =? O_RDONLY)
        then on_fs' (iunlockput ip) ;;; end_op ;;; ret (-1)
        else open_file ip omode
      end
  | _, _ => ret (-1)
  end.

Definition sys_mkdir : M (sf T) Z :=
  begin_op ;;;
  let! path := arg_str 0 in
  let! ip := (match path with Some path => create path T_DIR 0 0 | None => ret None end) in
  match ip with
  | None => end_op ;;; ret (-1)
  | Some ip => on_fs' (iunlockput ip) ;;; end_op ;;; ret 0
  end.

Definition sys_mknod : M (sf T) Z :=
  begin_op ;;;
  let! path := arg_str 0 in
  let! major := arg_int 1 in
  let! minor := arg_int 2 in
  let! ip := (match path, major, minor with
              | Some path, Some major, Some minor => create path T_DEV major minor
              | _, _, _ => ret None
              end) in
  match ip with
  | None => end_op ;;; ret (-1)
  | Some ip => on_fs' (iunlockput ip) ;;; end_op ;;; ret 0
  end.

Definition sys_chdir : M (sf T) Z :=
  begin_op ;;;
  let! path := arg_str 0 in
  let! ip := (match path with Some path => on_fs' (namei path) | None => ret None end) in
  match ip with
  | None => end_op ;;; ret (-1)
  | Some ip =>
    on_fs' (ilock ip) ;;;
    let! s := get in
    if negb (dtype s ip =? T_DIR) then on_fs' (iunlockput ip) ;;; end_op ;;; ret (-1)
    else
    on_fs' (iunlock ip) ;;;
    on_fs' (iput (f_cwd (ft_fs (sf_ft s)))) ;;;
    end_op ;;;
    on_fs' (modify (set_f_cwd ip)) ;;;
    ret 0
  end.

(** The argument loop of [sys_exec]: the strings, or [None] on a bad argument. *)
Fixpoint exec_args (k : nat) (u : uproc) (uargv i : Z) : option (list (list Z)) :=
  match k with
  | O => None                                  (* i >= NELEM(argv) *)
  | S k' =>
    match fetchint u (u32 (uargv + 4 * i)) with
    | None => None
    | Some uarg =>
      if uarg =? 0 then Some []
      else match fetchstr u (u32 uarg) with
           | None => None
           | Some (p, len) =>
             match exec_args k' u uargv (i + 1) with
             | Some l => Some (mem_bytes (u_mem u) p (Z.to_nat len) :: l)
             | None => None
             end
           end
    end
  end.
Definition sys_exec (exec : list Z -> list (list Z) -> M (sf T) Z) : M (sf T) Z :=
  let! path := arg_str 0 in
  let! uargv := arg_int 1 in
  match path, uargv with
  | Some path, Some uargv =>
    let! s := get in
    match exec_args (Z.to_nat MAXARG) (sf_user s) (u32 uargv) 0 with
    | Some argv => exec path argv
    | None => ret (-1)
    end
  | _, _ => ret (-1)
  end.

Definition sys_pipe : M (sf T) Z :=
  let! fd := arg_ptr 0 8 in
  match fd with
  | None => ret (-1)
  | Some fd =>
    let! r := on_ft pipealloc in
    match r with
    | None => ret (-1)
    | Some (rf, wf) =>
      let! fd0 := fdalloc rf in
      match fd0 with
      | None => on_ft (fileclose rf) ;;; on_ft (fileclose wf) ;;; ret (-1)
      | Some fd0 =>
        let! fd1 := fdalloc wf in
        match fd1 with
        | None =>
          modify (fun s => set_sf_ofile (<[fd0 := None]> (sf_ofile s)) s) ;;;
          on_ft (fileclose rf) ;;; on_ft (fileclose wf) ;;; ret (-1)
        | Some fd1 =>
          modify (fun s => set_sf_user (set_u_mem
            (st32 (st32 (u_mem (sf_user s)) fd (Z.of_nat fd0)) (fd + 4) (Z.of_nat fd1))
            (sf_user s)) s) ;;;
          ret 0
        end
      end
    end
  end.
End Sysfile.
