(* ===== verification/Proc.v ===== *)
(** * Processes and scheduling: proc.c

    The process table, the life of a process, [sleep] and [wakeup], and the four
    schedulers selected at compile time: the table as data, the operations on it as
    functions, and the calls that use the rest of the kernel over its interface. *)
From S2P Require Import Prelude Param Iface CString.

(** The scheduler chosen by [-D]. *)
Inductive policy := DEFAULT | FCFS | PBS | MLFQ.
#[global] Instance policy_eq_dec : EqDecision policy.
Proof. solve_decision. Defined.

Inductive procstate := UNUSED | EMBRYO | SLEEPING | RUNNABLE | RUNNING | ZOMBIE.
#[global] Instance procstate_eq_dec : EqDecision procstate.
Proof. solve_decision. Defined.

Definition PQ_COUNT : nat := 5.
Definition MAX_PROC_COUNT : Z := 10000.
Definition NO_Q_ALLOT : Z := -1.
Definition HIGHEST_PRIO_Q : Z := 0.
Definition DEFAULT_PRIORITY : Z := 60.
Definition WAIT_LIMIT : list Z := [84; 83; 82; 81; 80].
Definition KSTACKSIZE : Z := 4096.

(** procstat.h: the statistics the schedulers keep in a process. *)
Record pstat := Pstat {
  ps_num_run : Z;
  ps_q : Z;
  ps_qpos : Z;
  ps_actualTicks : list Z
}.
Definition set_ps_num_run (v : Z) (s : pstat) : pstat :=
  Pstat v (ps_q s) (ps_qpos s) (ps_actualTicks s).
Definition set_ps_q (v : Z) (s : pstat) : pstat :=
  Pstat (ps_num_run s) v (ps_qpos s) (ps_actualTicks s).
Definition set_ps_qpos (v : Z) (s : pstat) : pstat :=
  Pstat (ps_num_run s) (ps_q s) v (ps_actualTicks s).
Definition set_ps_actualTicks (v : list Z) (s : pstat) : pstat :=
  Pstat (ps_num_run s) (ps_q s) (ps_qpos s) v.

(** The registers of the trap frame that the kernel reads or writes. *)
Record trapframe := Tf {
  tf_eax : Z;
  tf_esp : Z;
  tf_eip : Z;
  tf_cs : Z;
  tf_ds : Z;
  tf_eflags : Z
}.
Definition set_tf_eax (v : Z) (s : trapframe) : trapframe :=
  Tf v (tf_esp s) (tf_eip s) (tf_cs s) (tf_ds s) (tf_eflags s).
Definition set_tf_esp (v : Z) (s : trapframe) : trapframe :=
  Tf (tf_eax s) v (tf_eip s) (tf_cs s) (tf_ds s) (tf_eflags s).
Definition set_tf_eip (v : Z) (s : trapframe) : trapframe :=
  Tf (tf_eax s) (tf_esp s) v (tf_cs s) (tf_ds s) (tf_eflags s).
Definition set_tf_cs (v : Z) (s : trapframe) : trapframe :=
  Tf (tf_eax s) (tf_esp s) (tf_eip s) v (tf_ds s) (tf_eflags s).
Definition set_tf_ds (v : Z) (s : trapframe) : trapframe :=
  Tf (tf_eax s) (tf_esp s) (tf_eip s) (tf_cs s) v (tf_eflags s).
Definition set_tf_eflags (v : Z) (s : trapframe) : trapframe :=
  Tf (tf_eax s) (tf_esp s) (tf_eip s) (tf_cs s) (tf_ds s) v.

(** struct proc. *)
Record proc := Proc {
  pr_sz : Z;
  pr_pgdir : Z;
  pr_kstack : Z;
  pr_state : procstate;
  pr_pid : Z;
  pr_parent : option nat;
  pr_tf : trapframe;
  pr_chan : option chan;
  pr_killed : bool;
  pr_ofile : list (option nat);
  pr_cwd : option nat;
  pr_name : list Z;
  pr_ctime : Z;
  pr_etime : Z;
  pr_rtime : Z;
  pr_priority : Z;
  pr_stat : pstat;
  pr_latestQTime : Z
}.
Definition set_pr_sz (v : Z) (s : proc) : proc :=
  Proc v (pr_pgdir s) (pr_kstack s) (pr_state s) (pr_pid s) (pr_parent s) (pr_tf s) (pr_chan s) (pr_killed s) (pr_ofile s) (pr_cwd s) (pr_name s) (pr_ctime s) (pr_etime s) (pr_rtime s) (pr_priority s) (pr_stat s) (pr_latestQTime s).
Definition set_pr_pgdir (v : Z) (s : proc) : proc :=
  Proc (pr_sz s) v (pr_kstack s) (pr_state s) (pr_pid s) (pr_parent s) (pr_tf s) (pr_chan s) (pr_killed s) (pr_ofile s) (pr_cwd s) (pr_name s) (pr_ctime s) (pr_etime s) (pr_rtime s) (pr_priority s) (pr_stat s) (pr_latestQTime s).
Definition set_pr_kstack (v : Z) (s : proc) : proc :=
  Proc (pr_sz s) (pr_pgdir s) v (pr_state s) (pr_pid s) (pr_parent s) (pr_tf s) (pr_chan s) (pr_killed s) (pr_ofile s) (pr_cwd s) (pr_name s) (pr_ctime s) (pr_etime s) (pr_rtime s) (pr_priority s) (pr_stat s) (pr_latestQTime s).
Definition set_pr_state (v : procstate) (s : proc) : proc :=
  Proc (pr_sz s) (pr_pgdir s) (pr_kstack s) v (pr_pid s) (pr_parent s) (pr_tf s) (pr_chan s) (pr_killed s) (pr_ofile s) (pr_cwd s) (pr_name s) (pr_ctime s) (pr_etime s) (pr_rtime s) (pr_priority s) (pr_stat s) (pr_latestQTime s).
Definition set_pr_pid (v : Z) (s : proc) : proc :=
  Proc (pr_sz s) (pr_pgdir s) (pr_kstack s) (pr_state s) v (pr_parent s) (pr_tf s) (pr_chan s) (pr_killed s) (pr_ofile s) (pr_cwd s) (pr_name s) (pr_ctime s) (pr_etime s) (pr_rtime s) (pr_priority s) (pr_stat s) (pr_latestQTime s).
Definition set_pr_parent (v : option nat) (s : proc) : proc :=
  Proc (pr_sz s) (pr_pgdir s) (pr_kstack s) (pr_state s) (pr_pid s) v (pr_tf s) (pr_chan s) (pr_killed s) (pr_ofile s) (pr_cwd s) (pr_name s) (pr_ctime s) (pr_etime s) (pr_rtime s) (pr_priority s) (pr_stat s) (pr_latestQTime s).
Definition set_pr_tf (v : trapframe) (s : proc) : proc :=
  Proc (pr_sz s) (pr_pgdir s) (pr_kstack s) (pr_state s) (pr_pid s) (pr_parent s) v (pr_chan s) (pr_killed s) (pr_ofile s) (pr_cwd s) (pr_name s) (pr_ctime s) (pr_etime s) (pr_rtime s) (pr_priority s) (pr_stat s) (pr_latestQTime s).
Definition set_pr_chan (v : option chan) (s : proc) : proc :=
  Proc (pr_sz s) (pr_pgdir s) (pr_kstack s) (pr_state s) (pr_pid s) (pr_parent s) (pr_tf s) v (pr_killed s) (pr_ofile s) (pr_cwd s) (pr_name s) (pr_ctime s) (pr_etime s) (pr_rtime s) (pr_priority s) (pr_stat s) (pr_latestQTime s).
Definition set_pr_killed (v : bool) (s : proc) : proc :=
  Proc (pr_sz s) (pr_pgdir s) (pr_kstack s) (pr_state s) (pr_pid s) (pr_parent s) (pr_tf s) (pr_chan s) v (pr_ofile s) (pr_cwd s) (pr_name s) (pr_ctime s) (pr_etime s) (pr_rtime s) (pr_priority s) (pr_stat s) (pr_latestQTime s).
Definition set_pr_ofile (v : list (option nat)) (s : proc) : proc :=
  Proc (pr_sz s) (pr_pgdir s) (pr_kstack s) (pr_state s) (pr_pid s) (pr_parent s) (pr_tf s) (pr_chan s) (pr_killed s) v (pr_cwd s) (pr_name s) (pr_ctime s) (pr_etime s) (pr_rtime s) (pr_priority s) (pr_stat s) (pr_latestQTime s).
Definition set_pr_cwd (v : option nat) (s : proc) : proc :=
  Proc (pr_sz s) (pr_pgdir s) (pr_kstack s) (pr_state s) (pr_pid s) (pr_parent s) (pr_tf s) (pr_chan s) (pr_killed s) (pr_ofile s) v (pr_name s) (pr_ctime s) (pr_etime s) (pr_rtime s) (pr_priority s) (pr_stat s) (pr_latestQTime s).
Definition set_pr_name (v : list Z) (s : proc) : proc :=
  Proc (pr_sz s) (pr_pgdir s) (pr_kstack s) (pr_state s) (pr_pid s) (pr_parent s) (pr_tf s) (pr_chan s) (pr_killed s) (pr_ofile s) (pr_cwd s) v (pr_ctime s) (pr_etime s) (pr_rtime s) (pr_priority s) (pr_stat s) (pr_latestQTime s).
Definition set_pr_ctime (v : Z) (s : proc) : proc :=
  Proc (pr_sz s) (pr_pgdir s) (pr_kstack s) (pr_state s) (pr_pid s) (pr_parent s) (pr_tf s) (pr_chan s) (pr_killed s) (pr_ofile s) (pr_cwd s) (pr_name s) v (pr_etime s) (pr_rtime s) (pr_priority s) (pr_stat s) (pr_latestQTime s).
Definition set_pr_etime (v : Z) (s : proc) : proc :=
  Proc (pr_sz s) (pr_pgdir s) (pr_kstack s) (pr_state s) (pr_pid s) (pr_parent s) (pr_tf s) (pr_chan s) (pr_killed s) (pr_ofile s) (pr_cwd s) (pr_name s) (pr_ctime s) v (pr_rtime s) (pr_priority s) (pr_stat s) (pr_latestQTime s).
Definition set_pr_rtime (v : Z) (s : proc) : proc :=
  Proc (pr_sz s) (pr_pgdir s) (pr_kstack s) (pr_state s) (pr_pid s) (pr_parent s) (pr_tf s) (pr_chan s) (pr_killed s) (pr_ofile s) (pr_cwd s) (pr_name s) (pr_ctime s) (pr_etime s) v (pr_priority s) (pr_stat s) (pr_latestQTime s).
Definition set_pr_priority (v : Z) (s : proc) : proc :=
  Proc (pr_sz s) (pr_pgdir s) (pr_kstack s) (pr_state s) (pr_pid s) (pr_parent s) (pr_tf s) (pr_chan s) (pr_killed s) (pr_ofile s) (pr_cwd s) (pr_name s) (pr_ctime s) (pr_etime s) (pr_rtime s) v (pr_stat s) (pr_latestQTime s).
Definition set_pr_stat (v : pstat) (s : proc) : proc :=
  Proc (pr_sz s) (pr_pgdir s) (pr_kstack s) (pr_state s) (pr_pid s) (pr_parent s) (pr_tf s) (pr_chan s) (pr_killed s) (pr_ofile s) (pr_cwd s) (pr_name s) (pr_ctime s) (pr_etime s) (pr_rtime s) (pr_priority s) v (pr_latestQTime s).
Definition set_pr_latestQTime (v : Z) (s : proc) : proc :=
  Proc (pr_sz s) (pr_pgdir s) (pr_kstack s) (pr_state s) (pr_pid s) (pr_parent s) (pr_tf s) (pr_chan s) (pr_killed s) (pr_ofile s) (pr_cwd s) (pr_name s) (pr_ctime s) (pr_etime s) (pr_rtime s) (pr_priority s) (pr_stat s) v.

Definition tf0 : trapframe := Tf 0 0 0 0 0 0.
Definition pstat0 : pstat := Pstat 0 0 0 (replicate PQ_COUNT 0).
Definition proc0 : proc :=
  Proc 0 0 0 UNUSED 0 None tf0 None false (replicate NOFILE None) None (replicate 16 0)
    0 0 0 0 pstat0 0.

(** One queue: [prioQ[q]] (a missing entry is null), [prioQStart[q]], [prioQSize[q]]. *)
Record ring := Ring {
  rg_arr : gmap Z nat;
  rg_start : Z;
  rg_size : Z
}.
Definition set_rg_arr (v : gmap Z nat) (s : ring) : ring :=
  Ring v (rg_start s) (rg_size s).
Definition set_rg_start (v : Z) (s : ring) : ring :=
  Ring (rg_arr s) v (rg_size s).
Definition set_rg_size (v : Z) (s : ring) : ring :=
  Ring (rg_arr s) (rg_start s) v.
Definition ring0 : ring := Ring ∅ 0 0.

(** [ptable], [nextpid], [initproc], this CPU's [c->proc], [ticks], the queues, and
    the state of [random]. *)
Record ptab := Ptab {
  pt_lock : bool;
  pt_proc : list proc;
  pt_nextpid : Z;
  pt_initproc : option nat;
  pt_cur : option nat;
  pt_ticks : Z;
  pt_queues : list ring;
  pt_X : Z
}.
Definition set_pt_lock (v : bool) (s : ptab) : ptab :=
  Ptab v (pt_proc s) (pt_nextpid s) (pt_initproc s) (pt_cur s) (pt_ticks s) (pt_queues s) (pt_X s).
Definition set_pt_proc (v : list proc) (s : ptab) : ptab :=
  Ptab (pt_lock s) v (pt_nextpid s) (pt_initproc s) (pt_cur s) (pt_ticks s) (pt_queues s) (pt_X s).
Definition set_pt_nextpid (v : Z) (s : ptab) : ptab :=
  Ptab (pt_lock s) (pt_proc s) v (pt_initproc s) (pt_cur s) (pt_ticks s) (pt_queues s) (pt_X s).
Definition set_pt_initproc (v : option nat) (s : ptab) : ptab :=
  Ptab (pt_lock s) (pt_proc s) (pt_nextpid s) v (pt_cur s) (pt_ticks s) (pt_queues s) (pt_X s).
Definition set_pt_cur (v : option nat) (s : ptab) : ptab :=
  Ptab (pt_lock s) (pt_proc s) (pt_nextpid s) (pt_initproc s) v (pt_ticks s) (pt_queues s) (pt_X s).
Definition set_pt_ticks (v : Z) (s : ptab) : ptab :=
  Ptab (pt_lock s) (pt_proc s) (pt_nextpid s) (pt_initproc s) (pt_cur s) v (pt_queues s) (pt_X s).
Definition set_pt_queues (v : list ring) (s : ptab) : ptab :=
  Ptab (pt_lock s) (pt_proc s) (pt_nextpid s) (pt_initproc s) (pt_cur s) (pt_ticks s) v (pt_X s).
Definition set_pt_X (v : Z) (s : ptab) : ptab :=
  Ptab (pt_lock s) (pt_proc s) (pt_nextpid s) (pt_initproc s) (pt_cur s) (pt_ticks s) (pt_queues s) v.

Definition pt_lock_lens : lens ptab bool := Lens pt_lock set_pt_lock.
Definition proc_at (s : ptab) (i : nat) : proc := nth i (pt_proc s) proc0.
Definition upd_proc (i : nat) (f : proc -> proc) (s : ptab) : ptab :=
  set_pt_proc (<[i := f (proc_at s i)]> (pt_proc s)) s.
Definition ring_at (s : ptab) (q : Z) : ring := nth (Z.to_nat q) (pt_queues s) ring0.
Definition upd_ring (q : Z) (f : ring -> ring) (s : ptab) : ptab :=
  set_pt_queues (<[Z.to_nat q := f (ring_at s q)]> (pt_queues s)) s.
Definition state_of (s : ptab) (i : nat) : procstate := pr_state (proc_at s i).
Definition is_state (st : procstate) (s : ptab) (i : nat) : bool := bool_decide (state_of s i = st).
(** The indices of the table in order. *)
Definition all_procs (s : ptab) : list nat := seq 0 (length (pt_proc s)).

(** [p->stat.allotedQ] and [p->latestQTime]. *)
Definition getQIdx (s : ptab) (i : nat) : Z := ps_q (pr_stat (proc_at s i)).
Definition getQPos (s : ptab) (i : nat) : Z := ps_qpos (pr_stat (proc_at s i)).
Definition getTicks (s : ptab) (i : nat) : Z := s32 (pt_ticks s - pr_latestQTime (proc_at s i)).
Definition upd_stat (i : nat) (f : pstat -> pstat) (s : ptab) : ptab :=
  upd_proc i (fun p => set_pr_stat (f (pr_stat p)) p) s.

(** ** The queues of the multi-level feedback scheduler *)

Definition next_idx (i : Z) : Z := (i + 1) mod MAX_PROC_COUNT.
Definition backIndex (s : ptab) (q : Z) : Z :=
  (rg_start (ring_at s q) + rg_size (ring_at s q)) mod MAX_PROC_COUNT.

Definition getFront (q : Z) : M ptab (option nat) :=
  let! s := get in
  if rg_size (ring_at s q) =? 0 then panic "Getting front of empty queue"
  else ret (rg_arr (ring_at s q) !! rg_start (ring_at s q)).

Definition popFront (q : Z) : M ptab (option nat) :=
  let! s := get in
  if rg_size (ring_at s q) =? 0 then panic "Empty stack, cannot pop"
  else
  let! p := getFront q in
  modify (upd_ring q (fun r => set_rg_start (rg_start r + 1) r)) ;;;
  let! s := get in
  when (rg_start (ring_at s q) =? MAX_PROC_COUNT) (modify (upd_ring q (set_rg_start 0))) ;;;
  modify (upd_ring q (fun r => set_rg_size (rg_size r - 1) r)) ;;;
  ret p.

(** [for (i = start; i != back; i++, i %= MAX) if (entry i has p's pid) return;]:
    whether the loop returns. *)
Fixpoint pid_queued (fuel : nat) (s : ptab) (r : ring) (i back pid : Z) : bool :=
  match fuel with
  | O => false
  | S fuel' =>
    if i =? back then false
    else if match rg_arr r !! i with Some j => pr_pid (proc_at s j) =? pid | None => false end
    then true
    else pid_queued fuel' s r (next_idx i) back pid
  end.
Definition pushBack (q : Z) (p : nat) (s : ptab) : ptab :=
  let r := ring_at s q in
  if pid_queued (Z.to_nat MAX_PROC_COUNT) s r (rg_start r) (backIndex s q) (pr_pid (proc_at s p))
  then s
  else
  let s := upd_stat p (set_ps_q q) s in
  let s := upd_stat p (set_ps_qpos (backIndex s q)) s in
  let s := upd_ring q (fun r => set_rg_arr (<[getQPos s p := p]> (rg_arr r)) r) s in
  upd_ring q (fun r => set_rg_size (rg_size r + 1) r) s.

(** The shifting loop of [deleteIdx]. A null entry is dereferenced: panic. *)
Fixpoint deleteIdx_loop (fuel : nat) (q i bi : Z) : M ptab unit :=
  match fuel with
  | O => fun _ => NoFuel
  | S fuel' =>
    if i =? bi then ret tt
    else
    let! s := get in
    match rg_arr (ring_at s q) !! next_idx i with
    | None => panic "null dereference"
    | Some p =>
      modify (upd_ring q (fun r => set_rg_arr (<[i := p]> (rg_arr r)) r)) ;;;
      modify (upd_stat p (set_ps_qpos i)) ;;;
      deleteIdx_loop fuel' q (next_idx i) bi
    end
  end.
Definition deleteIdx (q idx : Z) : M ptab unit :=
  let! s := get in
  match rg_arr (ring_at s q) !! idx with
  | None => panic "Already deleted index"
  | Some _ =>
    modify (upd_ring q (fun r => set_rg_arr (delete idx (rg_arr r)) r)) ;;;
    modify (upd_ring q (fun r => set_rg_size (rg_size r - 1) r)) ;;;
    let! s := get in
    deleteIdx_loop (Z.to_nat MAX_PROC_COUNT) q idx (backIndex s q)
  end.

Definition incPrio (p : nat) : M ptab unit :=
  let! s := get in
  let queueIdx := getQIdx s p in
  let qPos := getQPos s p in
  if (queueIdx <? 0) || (qPos <? 0) then panic "Invalid qi"
  else
  deleteIdx queueIdx qPos ;;;
  if queueIdx =? HIGHEST_PRIO_Q then modify (pushBack queueIdx p)
  else modify (pushBack (queueIdx - 1) p).

Definition decPrio (p : nat) (retain : bool) : M ptab unit :=
  let! s := get in
  let queueIdx := getQIdx s p in
  if queueIdx <? 0 then panic "Invalid q"
  else
  modify (upd_proc p (set_pr_latestQTime (pt_ticks s))) ;;;
  if (queueIdx =? Z.of_nat PQ_COUNT - 1) || retain then modify (pushBack queueIdx p)
  else modify (pushBack (queueIdx + 1) p).

(** The tick of CPU 0: count it, and age the processes that waited too long. *)
Fixpoint aging_loop (l : list nat) : M ptab unit :=
  match l with
  | [] => ret tt
  | i :: l =>
    let! s := get in
    let p := proc_at s i in
    when (negb (pr_killed p || (pr_pid p =? 0))) (
      when (is_state RUNNABLE s i || is_state RUNNING s i) (
        let qIdx := getQIdx s i in
        let tcks := getTicks s i + 1 in
        when (is_state RUNNING s i) (
          modify (upd_stat i (fun st =>
            set_ps_actualTicks (zupd (ps_actualTicks st) qIdx
              (znth (ps_actualTicks st) qIdx + 1)) st))) ;;;
        when (is_state RUNNABLE s i && (znth WAIT_LIMIT qIdx <=? tcks)) (incPrio i))) ;;;
    aging_loop l
  end.
Definition updateStatsAndAging (cpuid : Z) : M ptab unit :=
  if negb (cpuid =? 0) then panic "Must be called from cpu0 only"
  else
  modify (fun s => set_pt_ticks (u32 (pt_ticks s + 1)) s) ;;;
  zoom pt_lock_lens spin_acquire ;;;
  let! s := get in
  aging_loop (all_procs s) ;;;
  zoom pt_lock_lens spin_release.

Section Sched.
(** The scheduler the kernel is built with. *)
Variable pol : policy.
Definition is_pol (q : policy) : bool := bool_decide (pol = q).

Definition pinit : M ptab unit := modify (set_pt_lock false).

(** A linear congruential generator; [unsigned long] is 32 bits wide. *)
Definition random (m : Z) : M ptab Z :=
  modify (fun s => set_pt_X (u32 (1103515245 * pt_X s + 12345)) s) ;;;
  gets (fun s => s32 (u32 ((pt_X s / 65536) mod 32768) mod m + 1)).

Definition ifMeraProc (p : proc) : bool := 2 <? pr_pid p.

Definition initProcMyStyle (i : nat) : M ptab unit :=
  let! s := get in
  when (negb (pr_pid (proc_at s i) =? 0)) (
    when (is_pol MLFQ) (
      modify (pushBack HIGHEST_PRIO_Q i) ;;;
      modify (upd_proc i (set_pr_latestQTime (pt_ticks s)))) ;;;
    modify (upd_proc i (set_pr_ctime (pt_ticks s))) ;;;
    modify (upd_proc i (set_pr_rtime 0)) ;;;
    modify (upd_proc i (set_pr_etime (-1)))).

(** The first index of the table at which [f] holds. *)
Fixpoint find_proc (f : nat -> bool) (l : list nat) : option nat :=
  match l with
  | [] => None
  | i :: l => if f i then Some i else find_proc f l
  end.

(** Look in the process table for an UNUSED proc and claim it; [kalloc] comes
    between this and [allocproc_init]. *)
Definition allocproc_claim : M ptab (option nat) :=
  zoom pt_lock_lens spin_acquire ;;;
  let! s := get in
  match find_proc (is_state UNUSED s) (all_procs s) with
  | None => zoom pt_lock_lens spin_release ;;; ret None
  | Some i =>
    modify (upd_proc i (set_pr_state EMBRYO)) ;;;
    modify (upd_proc i (set_pr_pid (pt_nextpid s))) ;;;
    modify (set_pt_nextpid (s32 (pt_nextpid s + 1))) ;;;
    zoom pt_lock_lens spin_release ;;;
    ret (Some i)
  end.
(** The kernel stack, the trap frame at its top, and the scheduler's fields. *)
Definition allocproc_init (i : nat) (kstack : Z) : M ptab unit :=
  modify (upd_proc i (set_pr_kstack kstack)) ;;;
  when (is_pol PBS) (modify (upd_proc i (set_pr_priority DEFAULT_PRIORITY))) ;;;
  initProcMyStyle i.

(** The first runnable process that should preempt one at [prio]: its pid (1 for
    the priority scheduler), or 0. *)
Definition preempts (s : ptab) (prio : Z) (checkSamePrio : bool) (i : nat) : bool :=
  is_state RUNNABLE s i &&
  (let x := if is_pol MLFQ then getQIdx s i else pr_priority (proc_at s i) in
   (negb (is_pol MLFQ && (x =? NO_Q_ALLOT))) &&
   ((x <? prio) || (x =? prio) && checkSamePrio)).
Definition timeToPreempt (prio : Z) (checkSamePrio : bool) : M ptab Z :=
  zoom pt_lock_lens spin_acquire ;;;
  let! s := get in
  let r := match find_proc (preempts s prio checkSamePrio) (all_procs s) with
           | Some i => if is_pol MLFQ then pr_pid (proc_at s i) else 1
           | None => 0
           end in
  zoom pt_lock_lens spin_release ;;;
  ret r.

(** ** Sleep and wakeup *)

Definition wakes (s : ptab) (c : chan) (i : nat) : bool :=
  is_state SLEEPING s i && bool_decide (pr_chan (proc_at s i) = Some c).
Fixpoint wakeup1_loop (l : list nat) (c : chan) (s : ptab) : ptab :=
  match l with
  | [] => s
  | i :: l =>
    wakeup1_loop l c
      (if wakes s c i
       then upd_proc i (set_pr_state RUNNABLE)
              (if is_pol MLFQ then pushBack (getQIdx s i) i s else s)
       else s)
  end.
Definition wakeup1 (c : chan) (s : ptab) : ptab := wakeup1_loop (all_procs s) c s.
Definition wakeup : chan -> M ptab unit := fun c =>
  zoom pt_lock_lens spin_acquire ;;;
  modify (wakeup1 c) ;;;
  zoom pt_lock_lens spin_release.

(** [sleep] up to [sched]: the caller is marked sleeping under [ptable.lock]. *)
Definition sleep_mark (c : chan) : M ptab unit :=
  let! s := get in
  match pt_cur s with
  | None => panic "sleep"
  | Some i =>
    modify (upd_proc i (set_pr_chan (Some c))) ;;;
    modify (upd_proc i (set_pr_state SLEEPING))
  end.
(** [sleep] after [sched]: tidy up. *)
Definition sleep_return : M ptab unit :=
  let! s := get in
  match pt_cur s with
  | None => panic "sleep"
  | Some i => modify (upd_proc i (set_pr_chan None))
  end.
(** [yield] up to [sched]. *)
Definition yield_mark : M ptab unit :=
  zoom pt_lock_lens spin_acquire ;;;
  let! s := get in
  match pt_cur s with
  | None => panic "null dereference"
  | Some i => modify (upd_proc i (set_pr_state RUNNABLE))
  end.
(** The checks of [sched] on the table; the lock depth and the interrupt flag are
    those of the CPU (Spinlock.v). *)
Definition sched (ncli : Z) (intr : bool) : M ptab unit :=
  let! s := get in
  if negb (pt_lock s) then panic "sched ptable.lock"
  else if negb (ncli =? 1) then panic "sched locks"
  else
  match pt_cur s with
  | None => panic "null dereference"
  | Some i =>
    if is_state RUNNING s i then panic "sched running"
    else if intr then panic "sched interruptible" else ret tt
  end.

Definition kill (pid : Z) : M ptab Z :=
  zoom pt_lock_lens spin_acquire ;;;
  let! s := get in
  match find_proc (fun i => pr_pid (proc_at s i) =? pid) (all_procs s) with
  | Some i =>
    modify (upd_proc i (set_pr_killed true)) ;;;
    when (is_state SLEEPING s i) (modify (upd_proc i (set_pr_state RUNNABLE))) ;;;
    zoom pt_lock_lens spin_release ;;;
    ret 0
  | None => zoom pt_lock_lens spin_release ;;; ret (-1)
  end.

Definition set_prio (newPriority : Z) : M ptab Z :=
  if (newPriority <? -1) || (100 <? newPriority) then ret (-1)
  else
  zoom pt_lock_lens spin_acquire ;;;
  let! s := get in
  match pt_cur s with
  | None => panic "null dereference"
  | Some i =>
    let prio := pr_priority (proc_at s i) in
    modify (upd_proc i (set_pr_priority newPriority)) ;;;
    zoom pt_lock_lens spin_release ;;;
    ret prio
  end.

(** What [getpinfo] stores in the caller's [struct proc_stat]; [ps] tells whether
    the pointer is null. *)
Record pinfo := Pinfo {
  pi_pid : Z;
  pi_runtime : Z;
  pi_allotedQ : Z * Z;
  pi_num_run : Z;
  pi_ticks : list Z
}.
Definition getpinfo (ps : bool) (pid : Z) : M ptab (option pinfo) :=
  if negb ps then panic "Pointer is empty :/"
  else if pid =? 0 then panic "Pid is not set"
  else
  zoom pt_lock_lens spin_acquire ;;;
  let! s := get in
  let r := find_proc (fun i => pr_pid (proc_at s i) =? pid) (all_procs s) in
  zoom pt_lock_lens spin_release ;;;
  ret (match r with
       | Some i => let p := proc_at s i in
           Some (Pinfo pid (pr_rtime p) (ps_q (pr_stat p), ps_qpos (pr_stat p))
             (ps_num_run (pr_stat p)) (ps_actualTicks (pr_stat p)))
       | None => None
       end).

(** ** The scheduler

    Each iteration of the scheduler's loop chooses a process and switches to it; the
    process comes back with its state changed. The choice and the bookkeeping around
    [swtch] are separate steps. *)

(** DEFAULT: the table is scanned round robin; the first runnable process at [i] or
    later. *)
Definition default_pick (s : ptab) (i : nat) : option nat :=
  find_proc (is_state RUNNABLE s) (drop i (all_procs s)).

(** FCFS: the runnable process created first. *)
Fixpoint fcfs_loop (s : ptab) (l : list nat) (best : option nat) : option nat :=
  match l with
  | [] => best
  | i :: l =>
    fcfs_loop s l
      (if is_state RUNNABLE s i then
         match best with
         | Some b => if pr_ctime (proc_at s i) <? pr_ctime (proc_at s b) then Some i else best
         | None => Some i
         end
       else best)
  end.
Definition fcfs_pick (s : ptab) : option nat := fcfs_loop s (all_procs s) None.

(** PBS: the lowest priority value among the runnable, below 101; the runnable
    processes with exactly that value are run in table order. *)
Definition min_prio (s : ptab) : Z :=
  fold_left (fun m i => if is_state RUNNABLE s i && (pr_priority (proc_at s i) <? m)
                        then pr_priority (proc_at s i) else m) (all_procs s) 101.
Definition pbs_pick (s : ptab) (minPrio : Z) (i : nat) : option nat :=
  find_proc (fun j => is_state RUNNABLE s j && (pr_priority (proc_at s j) =? minPrio))
    (drop i (all_procs s)).
(** After a process returns: whether the scan is abandoned for a better one. *)
Definition pbs_break (s : ptab) (minPrio : Z) : bool := min_prio s <? minPrio.

(** MLFQ: a runnable process whose queue is empty is queued again ... *)
Fixpoint mlfq_refill (l : list nat) : M ptab unit :=
  match l with
  | [] => ret tt
  | i :: l =>
    let! s := get in
    (if is_state RUNNABLE s i then
       if getQIdx s i =? NO_Q_ALLOT
       then panic "Should have been alloted in allocproc/wakeup1"
       else when (rg_size (ring_at s (getQIdx s i)) =? 0) (modify (pushBack (getQIdx s i) i))
     else ret tt) ;;;
    mlfq_refill l
  end.
Definition procIsDead (s : ptab) (p : option nat) : bool :=
  match p with
  | None => true
  | Some i => let x := proc_at s i in
      pr_killed x || (pr_pid x =? 0) || negb (is_state RUNNABLE s i)
  end.
(** ... and the front-most live process of the first queue that has one is chosen;
    dead entries in front of it are dropped. *)
Fixpoint mlfq_scan (fuel : nat) (q : Z) : M ptab (option nat) :=
  match fuel with
  | O => fun _ => NoFuel
  | S fuel' =>
    let! s := get in
    if rg_size (ring_at s q) =? 0 then ret None
    else
    let! p := getFront q in
    if procIsDead s p then popFront q ;;; mlfq_scan fuel' q else ret p
  end.
Fixpoint mlfq_queues (k : nat) (q : Z) : M ptab (option nat) :=
  match k with
  | O => ret None
  | S k' =>
    let! p := mlfq_scan (S (Z.to_nat MAX_PROC_COUNT)) q in
    match p with
    | Some _ => ret p
    | None => mlfq_queues k' (q + 1)
    end
  end.
Definition mlfq_pick : M ptab (option nat) :=
  let! s := get in
  mlfq_refill (all_procs s) ;;;
  mlfq_queues PQ_COUNT 0.

(** Switch to the chosen process: the bookkeeping before [swtch]. *)
Definition run_proc (i : nat) : M ptab unit :=
  modify (set_pt_cur (Some i)) ;;;
  let! s := get in
  if negb (is_state RUNNABLE s i) then panic "Non runnable process selected for execution"
  else
  when (is_pol MLFQ) (
    let! _ := popFront (getQIdx s i) in
    modify (upd_stat i (fun st => set_ps_num_run (ps_num_run st + 1) st)) ;;;
    modify (upd_proc i (set_pr_latestQTime (pt_ticks s)))) ;;;
  modify (upd_proc i (set_pr_state RUNNING)).
(** ... and after it: a process that slept or kept part of its slice stays in its
    queue; one that used the whole slice moves down. *)
Definition run_return (i : nat) : M ptab unit :=
  let! s := get in
  when (is_pol MLFQ) (
    let queueIdx := getQIdx s i in
    let procTcks := getTicks s i in
    if is_state SLEEPING s i ||
       (is_state RUNNABLE s i && (0 <? procTcks) && (procTcks <? Z.shiftl 1 queueIdx))
    then decPrio i true
    else when (is_state RUNNABLE s i && (procTcks =? Z.shiftl 1 queueIdx)) (decPrio i false)) ;;;
  modify (set_pt_cur None).
End Sched.

(** ** Calls that use the rest of the kernel *)

(** What fork, exit and wait call outside proc.c (vm.c, kalloc.c, file.c, fs.c,
    log.c); page directories and stacks are addresses, 0 on failure. *)
Class KernOps (S : Type) := {
  k_kalloc : M S Z;
  k_kfree : Z -> M S unit;
  k_setupkvm : M S Z;
  k_copyuvm : Z -> Z -> M S Z;
  k_freevm : Z -> M S unit;
  k_allocuvm : Z -> Z -> Z -> M S Z;
  k_deallocuvm : Z -> Z -> Z -> M S Z;
  k_filedup : nat -> M S nat;
  k_fileclose : nat -> M S unit;
  k_idup : nat -> M S nat;
  k_iput : nat -> M S unit;
  k_begin_op : M S unit;
  k_end_op : M S unit
}.

Section Calls.
Context {S : Type} `{KernOps S}.
Variable pol : policy.
Variable pt : lens S ptab.
Definition on_pt {A} (m : M ptab A) : M S A := zoom pt m.
Definition getpt : M S ptab := gets (lget pt).
Definition updp (i : nat) (f : proc -> proc) : M S unit := on_pt (modify (upd_proc i f)).
(** [myproc()]; the calls dereference it. *)
Definition myproc : M S nat :=
  let! s := getpt in
  match pt_cur s with Some i => ret i | None => panic "null dereference" end.

Definition allocproc : M S (option nat) :=
  let! p := on_pt allocproc_claim in
  match p with
  | None => ret None
  | Some i =>
    let! kstack := k_kalloc in
    if kstack =? 0 then updp i (set_pr_state UNUSED) ;;; ret None
    else on_pt (allocproc_init pol i kstack) ;;; ret (Some i)
  end.

Definition growproc (n : Z) : M S Z :=
  let! i := myproc in
  let! s := getpt in
  let p := proc_at s i in
  let! sz := (if 0 <? n then k_allocuvm (pr_pgdir p) (pr_sz p) (u32 (pr_sz p + n))
              else if n <? 0 then k_deallocuvm (pr_pgdir p) (pr_sz p) (u32 (pr_sz p + n))
              else ret (pr_sz p)) in
  if negb (n =? 0) && (sz =? 0) then ret (-1)
  else updp i (set_pr_sz sz) ;;; ret 0.

(** The copy of the open files in [fork]. *)
Fixpoint fork_files (l : list (option nat)) : M S (list (option nat)) :=
  match l with
  | [] => ret []
  | None :: l => let! r := fork_files l in ret (None :: r)
  | Some f :: l => let! f' := k_filedup f in let! r := fork_files l in ret (Some f' :: r)
  end.
(** [if (curproc->ofile[i]) np->ofile[i] = ...]: a null entry leaves [np]'s own. *)
Definition merge_files (old new : list (option nat)) : list (option nat) :=
  zip_with (fun o n => match n with Some _ => n | None => o end) old new.
(** [safestrcpy] into the 16 bytes of a name. *)
Definition name_copy (l : list Z) : list Z := take 15 l ++ [0].

Definition fork : M S Z :=
  let! cur := myproc in
  let! np := allocproc in
  match np with
  | None => ret (-1)
  | Some np =>
    let! s := getpt in
    let curproc := proc_at s cur in
    let! pgdir := k_copyuvm (pr_pgdir curproc) (pr_sz curproc) in
    updp np (set_pr_pgdir pgdir) ;;;
    if pgdir =? 0 then
      k_kfree (pr_kstack (proc_at s np)) ;;;
      updp np (set_pr_kstack 0) ;;;
      updp np (set_pr_state UNUSED) ;;;
      ret (-1)
    else
    updp np (set_pr_sz (pr_sz curproc)) ;;;
    updp np (set_pr_parent (Some cur)) ;;;
    updp np (set_pr_tf (set_tf_eax 0 (pr_tf curproc))) ;;;
    when (is_pol pol PBS) (
      let p := proc_at s np in
      updp np (set_pr_priority (if ifMeraProc p then pr_pid p / 2 else DEFAULT_PRIORITY))) ;;;
    let! files := fork_files (pr_ofile curproc) in
    updp np (fun p => set_pr_ofile (merge_files (pr_ofile p) files) p) ;;;
    let! cwd := (match pr_cwd curproc with
                 | Some c => let! c := k_idup c in ret (Some c)
                 | None => panic "null dereference"
                 end) in
    updp np (set_pr_cwd cwd) ;;;
    updp np (set_pr_name (name_copy (pr_name curproc))) ;;;
    on_pt (zoom pt_lock_lens spin_acquire) ;;;
    updp np (set_pr_state RUNNABLE) ;;;
    on_pt (zoom pt_lock_lens spin_release) ;;;
    ret (pr_pid (proc_at s np))
  end.

Fixpoint exit_files (k : nat) (cur fd : nat) : M S unit :=
  match k with
  | O => ret tt
  | Datatypes.S k' =>
    let! s := getpt in
    (match pr_ofile (proc_at s cur) !! fd with
     | Some (Some f) =>
       k_fileclose f ;;;
       updp cur (fun p => set_pr_ofile (<[fd := None]> (pr_ofile p)) p)
     | _ => ret tt
     end) ;;;
    exit_files k' cur (fd + 1)
  end.
(** Pass abandoned children to init. *)
Fixpoint exit_children (l : list nat) (cur init : nat) (s : ptab) : ptab :=
  match l with
  | [] => s
  | i :: l =>
    exit_children l cur init
      (if bool_decide (pr_parent (proc_at s i) = Some cur) then
         let s := upd_proc i (set_pr_parent (Some init)) s in
         if is_state ZOMBIE s i then wakeup1 pol (ChProc init) s else s
       else s)
  end.
(** [exit] up to [sched]: the caller is a zombie, with [ptable.lock] held. *)
Definition exit : M S unit :=
  let! cur := myproc in
  let! s := getpt in
  if bool_decide (pt_initproc s = Some cur) then panic "init exiting"
  else
  exit_files NOFILE cur 0 ;;;
  k_begin_op ;;;
  (match pr_cwd (proc_at s cur) with
   | Some c => k_iput c
   | None => panic "null dereference"
   end) ;;;
  k_end_op ;;;
  updp cur (set_pr_cwd None) ;;;
  let! s := getpt in
  updp cur (set_pr_etime (pt_ticks s)) ;;;
  on_pt (zoom pt_lock_lens spin_acquire) ;;;
  let! s := getpt in
  (match pr_parent (proc_at s cur) with
   | Some p => on_pt (modify (wakeup1 pol (ChProc p)))
   | None => ret tt
   end) ;;;
  (match pt_initproc s with
   | Some init => on_pt (modify (exit_children (all_procs s) cur init))
   | None => ret tt
   end) ;;;
  updp cur (set_pr_state ZOMBIE).

(** The slot of a reaped child. *)
Definition reap (p : proc) : proc :=
  set_pr_state UNUSED (set_pr_killed false
    (set_pr_name (<[0%nat := 0]> (pr_name p)) (set_pr_parent None (set_pr_pid 0
      (set_pr_kstack 0 p))))).
Definition is_child (s : ptab) (cur i : nat) : bool :=
  bool_decide (pr_parent (proc_at s i) = Some cur).
(** Scan through the table: an exited child, or whether there are children. *)
Definition wait_scan (s : ptab) (cur : nat) : nat + bool :=
  match find_proc (fun i => is_child s cur i && is_state ZOMBIE s i) (all_procs s) with
  | Some i => inl i
  | None => inr (existsb (is_child s cur) (all_procs s))
  end.

(** One pass of [wait]; a caller with live children sleeps on itself, with
    [ptable.lock] given up in [sched], and passes again when woken. *)
Definition wait : M S Z :=
  let! cur := myproc in
  on_pt (zoom pt_lock_lens spin_acquire) ;;;
  let! s := getpt in
  match wait_scan s cur with
  | inl i =>
    let p := proc_at s i in
    k_kfree (pr_kstack p) ;;;
    updp i (set_pr_kstack 0) ;;;
    k_freevm (pr_pgdir p) ;;;
    updp i reap ;;;
    let! s := getpt in
    updp i (set_pr_etime (pt_ticks s)) ;;;
    on_pt (zoom pt_lock_lens spin_release) ;;;
    ret (pr_pid p)
  | inr havekids =>
    if negb havekids || pr_killed (proc_at s cur) then
      on_pt (zoom pt_lock_lens spin_release) ;;; ret (-1)
    else
      on_pt (sleep_mark (ChProc cur)) ;;;
      asleep (ChProc cur)
  end.

(** [wait] with the child's waiting and running time. *)
Definition waitx : M S (Z * option (Z * Z)) :=
  let! cur := myproc in
  on_pt (zoom pt_lock_lens spin_acquire) ;;;
  let! s := getpt in
  match wait_scan s cur with
  | inl i =>
    let p := proc_at s i in
    k_kfree (pr_kstack p) ;;;
    let! s := getpt in
    updp i (set_pr_etime (pt_ticks s)) ;;;
    let rtime := pr_rtime p in
    let wtime := s32 (pt_ticks s - pr_ctime p - pr_rtime p) in
    updp i (set_pr_kstack 0) ;;;
    k_freevm (pr_pgdir p) ;;;
    updp i reap ;;;
    on_pt (zoom pt_lock_lens spin_release) ;;;
    ret (pr_pid p, Some (wtime, rtime))
  | inr havekids =>
    if negb havekids || pr_killed (proc_at s cur) then
      on_pt (zoom pt_lock_lens spin_release) ;;; ret (-1, None)
    else
      on_pt (sleep_mark (ChProc cur)) ;;;
      asleep (ChProc cur)
  end.

(** Set up the first user process; [namei] and [inituvm] come from fs.c and vm.c. *)
Definition userinit (inituvm : Z -> M S unit) (namei_root : M S (option nat)) : M S unit :=
  let! p := allocproc in
  match p with
  | None => panic "null dereference"
  | Some i =>
    on_pt (modify (set_pt_initproc (Some i))) ;;;
    let! pgdir := k_setupkvm in
    updp i (set_pr_pgdir pgdir) ;;;
    if pgdir =? 0 then panic "userinit: out of memory?"
    else
    inituvm pgdir ;;;
    updp i (set_pr_sz 4096) ;;;
    updp i (set_pr_tf (Tf 0 4096 0 27 35 512)) ;;;
    updp i (set_pr_name (name_copy [105; 110; 105; 116; 99; 111; 100; 101; 0; 0; 0; 0; 0; 0; 0; 0])) ;;;
    let! cwd := namei_root in
    updp i (set_pr_cwd cwd) ;;;
    on_pt (zoom pt_lock_lens spin_acquire) ;;;
    updp i (set_pr_state RUNNABLE) ;;;
    on_pt (zoom pt_lock_lens spin_release)
  end.
End Calls.
