(* ===== verification/Mlfq.v ===== *)
(** * The queues of the multi-level feedback scheduler

    The ring buffers of proc.c refine lists: [pushBack], [popFront], [deleteIdx] and
    [incPrio] on the lists of queued processes, with the recorded positions. *)
From S2P Require Import Prelude Param Iface Proc.

(** ** A ring as a list *)

Abbreviation MAX := MAX_PROC_COUNT.

(** Position [k] of the ring, and the ring's content. *)
Definition pos (r : ring) (k : nat) : Z := (rg_start r + Z.of_nat k) mod MAX.
Record ring_is (r : ring) (l : list nat) : Prop := {
  ri_start : 0 <= rg_start r < MAX;
  ri_size : rg_size r = zlen l;
  ri_small : zlen l < MAX;
  ri_get : forall k j, l !! k = Some j -> rg_arr r !! pos r k = Some j
}.

Lemma pos_inj r k k' : Z.of_nat k < MAX -> Z.of_nat k' < MAX -> pos r k = pos r k' -> k = k'.
Proof. unfold pos, MAX_PROC_COUNT. intros. lia. Qed.

Lemma pos_next r k : next_idx (pos r k) = pos r (S k).
Proof. unfold next_idx, pos, MAX_PROC_COUNT. lia. Qed.

Lemma pos_0 r : 0 <= rg_start r < MAX -> pos r 0 = rg_start r.
Proof. unfold pos, MAX_PROC_COUNT. lia. Qed.

Lemma ring_back s q l : ring_is (ring_at s q) l -> backIndex s q = pos (ring_at s q) (length l).
Proof. intros [_ E _ _]. unfold backIndex, pos. by rewrite E. Qed.

(** The search of [pushBack] is a search of the list. *)
Lemma pid_queued_spec s r l pid : ring_is r l -> forall fuel k, (k <= length l)%nat ->
  (length l - k <= fuel)%nat ->
  pid_queued fuel s r (pos r k) (pos r (length l)) pid =
  existsb (fun j => pr_pid (proc_at s j) =? pid) (drop k l).
Proof.
  intros Hr. induction fuel as [|fuel IH]; intros k Hk Hf; cbn [pid_queued].
  - replace k with (length l) by lia. by rewrite drop_ge.
  - destruct Hr as [H1 H2 H3 H4]. unfold zlen in H3.
    destruct (decide (k = length l)) as [->|Hne].
    { by rewrite Z.eqb_refl, drop_ge. }
    destruct (Z.eqb_spec (pos r k) (pos r (length l))) as [E|_].
    { apply pos_inj in E; [done|lia|lia]. }
    destruct (lookup_lt_is_Some_2 l k) as [j Hj]; [lia|].
    rewrite (H4 _ _ Hj), (drop_S _ _ _ Hj). simpl.
    destruct (pr_pid (proc_at s j) =? pid); [done|]. rewrite pos_next. apply IH; lia.
Qed.

(** ** The five queues *)

Definition valid_q (s : ptab) (q : Z) : Prop := 0 <= q < Z.of_nat (length (pt_queues s)).

Lemma ring_upd_eq q f s : valid_q s q -> ring_at (upd_ring q f s) q = f (ring_at s q).
Proof. intros Hq. unfold valid_q in Hq. unfold ring_at, upd_ring. simpl. apply nth_insert_eq. lia. Qed.
Lemma ring_upd_ne q q' f s : 0 <= q -> 0 <= q' -> q <> q' ->
  ring_at (upd_ring q f s) q' = ring_at s q'.
Proof. intros. unfold ring_at, upd_ring. simpl. apply nth_insert_ne. lia. Qed.
Lemma valid_upd q f s q' : valid_q (upd_ring q f s) q' <-> valid_q s q'.
Proof. unfold valid_q, upd_ring. simpl. by rewrite length_insert. Qed.
Lemma proc_upd_ring q f s i : proc_at (upd_ring q f s) i = proc_at s i.
Proof. done. Qed.
Lemma ring_upd_proc i f s q : ring_at (upd_proc i f s) q = ring_at s q.
Proof. done. Qed.
Lemma proc_upd_eq i f s : (i < length (pt_proc s))%nat -> proc_at (upd_proc i f s) i = f (proc_at s i).
Proof. intros. unfold proc_at, upd_proc. simpl. by apply nth_insert_eq. Qed.
Lemma proc_upd_ne i j f s : i <> j -> proc_at (upd_proc i f s) j = proc_at s j.
Proof. intros. unfold proc_at, upd_proc. simpl. by apply nth_insert_ne. Qed.
Lemma len_upd_proc i f s : length (pt_proc (upd_proc i f s)) = length (pt_proc s).
Proof. apply length_insert. Qed.
Lemma upd_ring_upd_ring q f g s : valid_q s q ->
  upd_ring q f (upd_ring q g s) = upd_ring q (fun r => f (g r)) s.
Proof.
  intros Hq. unfold upd_ring at 1. rewrite ring_upd_eq by done.
  unfold upd_ring, set_pt_queues. simpl. by rewrite list_insert_insert_eq.
Qed.

Lemma upd_ring_ext q f g s : f (ring_at s q) = g (ring_at s q) -> upd_ring q f s = upd_ring q g s.
Proof. intros E. unfold upd_ring. by rewrite E. Qed.

(** The process [j] is recorded at position [k] of queue [q]. *)
Definition recorded (s : ptab) (q : Z) (k : nat) (j : nat) : Prop :=
  (j < length (pt_proc s))%nat /\ getQIdx s j = q /\ getQPos s j = pos (ring_at s q) k.

(** The queues hold the lists [f], every entry is recorded where it is, and no two
    entries of a queue have the same pid. *)
Record mlfq (s : ptab) (f : Z -> list nat) : Prop := {
  mq_len : length (pt_queues s) = PQ_COUNT;
  mq_ring q : valid_q s q -> ring_is (ring_at s q) (f q);
  mq_pos q k j : valid_q s q -> f q !! k = Some j -> recorded s q k j;
  mq_pids q : valid_q s q -> NoDup ((fun j => pr_pid (proc_at s j)) <$> f q)
}.

Definition with_queue (f : Z -> list nat) (q : Z) (l : list nat) : Z -> list nat :=
  fun q' => if q' =? q then l else f q'.

Lemma with_eq f q l : with_queue f q l q = l.
Proof. unfold with_queue. by rewrite Z.eqb_refl. Qed.
Lemma with_ne f q l q' : q' <> q -> with_queue f q l q' = f q'.
Proof. intros. unfold with_queue. by destruct (Z.eqb_spec q' q). Qed.

(** A ring without its first element. *)
Definition rotate (r : ring) : ring :=
  Ring (rg_arr r) (if rg_start r + 1 =? MAX then 0 else rg_start r + 1) (rg_size r - 1).

Lemma run_popFront s q x l : valid_q s q -> ring_is (ring_at s q) (x :: l) ->
  popFront q s = Ret (Some x) (upd_ring q rotate s).
Proof.
  intros Hq [H1 H2 H3 H4]. unfold popFront, getFront. mrun.
  assert (Hz : (rg_size (ring_at s q) =? 0) = false) by (unfold zlen in H2; simpl in H2; lia).
  rewrite Hz. mrun. rewrite Hz. mrun.
  specialize (H4 0%nat x eq_refl). rewrite pos_0 in H4 by done. rewrite H4.
  rewrite ring_upd_eq by done. simpl.
  destruct (rg_start (ring_at s q) + 1 =? MAX) eqn:E; mrun;
    unfold modify, ret, bind; rewrite !upd_ring_upd_ring by (rewrite ?valid_upd; done);
    f_equal; apply upd_ring_ext; unfold rotate; rewrite E; by destruct (ring_at s q).
Qed.

Lemma rotate_is r x l : ring_is r (x :: l) -> ring_is (rotate r) l /\
  forall k, (k < length l)%nat -> pos (rotate r) k = pos r (S k).
Proof.
  intros [H1 H2 H3 H4]. unfold zlen in *. simpl in H2, H3.
  assert (Hpos : forall k, (k < length l)%nat -> pos (rotate r) k = pos r (S k)).
  { intros k Hk. unfold pos, rotate, MAX_PROC_COUNT in *. simpl.
    destruct (Z.eqb_spec (rg_start r + 1) 10000); lia. }
  split; [|done]. split; simpl.
  - unfold MAX_PROC_COUNT in *. destruct (Z.eqb_spec (rg_start r + 1) 10000); lia.
  - unfold zlen. lia.
  - unfold zlen. lia.
  - intros k j Hk. pose proof (lookup_lt_Some _ _ _ Hk). rewrite Hpos by done.
    by apply (H4 (S k)).
Qed.

(** [popFront] takes the first process off queue [q]. *)
Lemma popFront_spec s f q x l : mlfq s f -> valid_q s q -> f q = x :: l ->
  exists s', popFront q s = Ret (Some x) s' /\ mlfq s' (with_queue f q l) /\
    pt_proc s' = pt_proc s /\ pt_ticks s' = pt_ticks s.
Proof.
  intros Hm Hq Hf. pose proof (mq_ring _ _ Hm q Hq) as Hr. rewrite Hf in Hr.
  exists (upd_ring q rotate s). split; [by eapply run_popFront|]. split; [|done].
  destruct (rotate_is _ _ _ Hr) as [Hr' Hp]. split.
  - unfold upd_ring. simpl. rewrite length_insert. apply Hm.
  - intros q' Hq'. rewrite valid_upd in Hq'. destruct (decide (q' = q)) as [->|Hne].
    + by rewrite with_eq, ring_upd_eq.
    + rewrite with_ne, ring_upd_ne by (unfold valid_q in *; done || lia). by apply Hm.
  - intros q' k j Hq' Hj. rewrite valid_upd in Hq'. destruct (decide (q' = q)) as [->|Hne].
    + rewrite with_eq in Hj. destruct (mq_pos _ _ Hm q (S k) j Hq) as (R1 & R2 & R3).
      { by rewrite Hf. }
      split; [done|]. split; [done|]. rewrite ring_upd_eq by done.
      rewrite Hp by (by eapply lookup_lt_Some). done.
    + rewrite with_ne in Hj by done. destruct (mq_pos _ _ Hm q' k j Hq' Hj) as (R1 & R2 & R3).
      split; [done|]. split; [done|]. by rewrite ring_upd_ne by (unfold valid_q in *; lia).
  - intros q' Hq'. rewrite valid_upd in Hq'. destruct (decide (q' = q)) as [->|Hne].
    + rewrite with_eq. pose proof (mq_pids _ _ Hm q Hq) as Hnd. rewrite Hf in Hnd.
      by apply NoDup_cons in Hnd as [_ Hnd].
    + rewrite with_ne by done. by apply Hm.
Qed.

(** The state after [pushBack] of a process that is not queued. *)
Definition pushed (q : Z) (p : nat) (s : ptab) : ptab :=
  upd_ring q (fun r => Ring (<[backIndex s q := p]> (rg_arr r)) (rg_start r) (rg_size r + 1))
    (upd_stat p (fun st => set_ps_qpos (backIndex s q) (set_ps_q q st)) s).

Lemma pushBack_eq q p s l : ring_is (ring_at s q) l -> (p < length (pt_proc s))%nat -> valid_q s q ->
  pushBack q p s =
  if existsb (fun j => pr_pid (proc_at s j) =? pr_pid (proc_at s p)) l then s else pushed q p s.
Proof.
  intros Hr Hp Hq. unfold pushBack. pose proof Hr as [H1 H2 H3 H4].
  rewrite (ring_back s q l Hr), <-(pos_0 (ring_at s q)) by done.
  rewrite (pid_queued_spec _ _ l) by (done || unfold zlen, MAX_PROC_COUNT in *; lia).
  rewrite drop_0. destruct (existsb _ _); [done|].
  unfold pushed, upd_stat. rewrite (ring_back s q l Hr).
  change (backIndex (upd_proc ?i ?g s) q) with (backIndex s q).
  rewrite (ring_back s q l Hr).
  assert (E : upd_proc p (fun x => set_pr_stat (set_ps_qpos (pos (ring_at s q) (length l)) (pr_stat x)) x)
      (upd_proc p (fun x => set_pr_stat (set_ps_q q (pr_stat x)) x) s) =
    upd_proc p (fun x => set_pr_stat (set_ps_qpos (pos (ring_at s q) (length l))
      (set_ps_q q (pr_stat x))) x) s).
  { unfold upd_proc at 1. rewrite proc_upd_eq by done. unfold upd_proc, set_pt_proc. simpl.
    by rewrite list_insert_insert_eq. }
  rewrite E. set (s1 := upd_proc p _ s).
  assert (Epos : getQPos s1 p = pos (ring_at s q) (length l)).
  { unfold getQPos, s1. by rewrite proc_upd_eq. }
  rewrite Epos, upd_ring_upd_ring by done. unfold upd_ring. do 2 f_equal.
Qed.

(** [pushBack] appends the process, unless its pid is in the queue already. *)
Lemma pushBack_spec s f q p : mlfq s f -> valid_q s q -> (p < length (pt_proc s))%nat ->
  zlen (f q) < MAX - 1 ->
  (forall q', valid_q s q' -> p ∉ f q') ->
  (forall j, j ∈ f q -> pr_pid (proc_at s j) <> pr_pid (proc_at s p)) ->
  mlfq (pushBack q p s) (with_queue f q (f q ++ [p])) /\
  pushBack q p s = pushed q p s.
Proof.
  intros Hm Hq Hp Hsz Hnin Hpid. pose proof (mq_ring _ _ Hm q Hq) as Hr.
  assert (E : pushBack q p s = pushed q p s).
  { rewrite (pushBack_eq q p s (f q)) by done.
    destruct (existsb _ _) eqn:Ex; [|done]. apply existsb_exists in Ex as (j & Hj & Ej).
    apply list_elem_of_In in Hj. exfalso. apply (Hpid j Hj). lia. }
  rewrite E. split; [|done]. pose proof Hr as [H1 H2 H3 H4].
  assert (Hpd : forall j, pr_pid (proc_at (pushed q p s) j) = pr_pid (proc_at s j)).
  { intros j. unfold pushed. rewrite proc_upd_ring. unfold upd_stat.
    destruct (decide (p = j)) as [<-|]; [by rewrite proc_upd_eq|by rewrite proc_upd_ne]. }
  assert (Hst : forall j, j <> p -> proc_at (pushed q p s) j = proc_at s j).
  { intros j Hj. unfold pushed. rewrite proc_upd_ring. unfold upd_stat. by rewrite proc_upd_ne. }
  assert (Hrq : ring_at (pushed q p s) q =
    Ring (<[pos (ring_at s q) (length (f q)) := p]> (rg_arr (ring_at s q))) (rg_start (ring_at s q))
      (rg_size (ring_at s q) + 1)).
  { unfold pushed. rewrite ring_upd_eq by done. by rewrite (ring_back _ _ _ Hr). }
  assert (Hrne : forall q', valid_q s q' -> q' <> q -> ring_at (pushed q p s) q' = ring_at s q').
  { intros q' Hq' Hne. unfold pushed. by rewrite ring_upd_ne by (unfold valid_q in *; lia). }
  assert (Hval : forall q', valid_q (pushed q p s) q' <-> valid_q s q').
  { intros q'. unfold pushed. by rewrite valid_upd. }
  assert (Hpos : forall k, pos (ring_at (pushed q p s) q) k = pos (ring_at s q) k)
    by (intros k; by rewrite Hrq).
  split.
  - unfold pushed, upd_ring. simpl. rewrite length_insert. apply Hm.
  - intros q' Hq'. rewrite Hval in Hq'. destruct (decide (q' = q)) as [->|Hne].
    2: { rewrite with_ne, Hrne by done. by apply Hm. }
    rewrite with_eq. split.
    + by rewrite Hrq.
    + rewrite Hrq. simpl. rewrite H2. unfold zlen. rewrite length_app. simpl. lia.
    + unfold zlen in *. rewrite length_app. simpl. lia.
    + intros k j Hk. rewrite Hpos, Hrq. simpl. unfold zlen in *.
      apply lookup_app_Some in Hk as [Hk|[Hk Hj]].
      * pose proof (lookup_lt_Some _ _ _ Hk). rewrite lookup_insert_ne; [by apply H4|].
        intros Ep. apply pos_inj in Ep; lia.
      * apply list_lookup_singleton_Some in Hj as [Hj <-].
        replace k with (length (f q)) by lia. apply lookup_insert_eq.
  - intros q' k j Hq' Hj. rewrite Hval in Hq'. unfold recorded.
    replace (length (pt_proc (pushed q p s))) with (length (pt_proc s))
      by (unfold pushed, upd_stat; simpl; by rewrite length_insert).
    destruct (decide (q' = q)) as [->|Hne].
    + rewrite with_eq in Hj. rewrite Hpos. apply lookup_app_Some in Hj as [Hj|[Hk Hj]].
      * assert (j <> p). { intros ->. eapply (Hnin q Hq). by eapply list_elem_of_lookup_2. }
        unfold getQIdx, getQPos. rewrite Hst by done. by apply (mq_pos _ _ Hm).
      * apply list_lookup_singleton_Some in Hj as [Hj <-].
        unfold getQIdx, getQPos, pushed, upd_stat. rewrite proc_upd_ring, proc_upd_eq by done.
        simpl. rewrite (ring_back _ _ _ Hr). split; [done|]. split; [done|]. f_equal. lia.
    + rewrite with_ne in Hj by done. rewrite Hrne by done.
      assert (j <> p). { intros ->. eapply (Hnin q' Hq'). by eapply list_elem_of_lookup_2. }
      unfold getQIdx, getQPos. rewrite Hst by done. by apply (mq_pos _ _ Hm).
  - intros q' Hq'. rewrite Hval in Hq'.
    assert (Ef : forall l, (fun j => pr_pid (proc_at (pushed q p s) j)) <$> l =
      (fun j => pr_pid (proc_at s j)) <$> l) by (intros l; apply list_fmap_ext; intros; apply Hpd).
    rewrite Ef. destruct (decide (q' = q)) as [->|Hne].
    + rewrite with_eq, fmap_app. apply NoDup_app. split; [by apply Hm|]. split.
      * intros x (j & -> & Hj)%list_elem_of_fmap Hx. simpl in Hx.
        apply list_elem_of_singleton in Hx. by apply (Hpid j Hj).
      * apply NoDup_singleton.
    + rewrite with_ne by done. by apply Hm.
Qed.

(** ** Deletion from the middle *)

(** The processes agree except for the recorded positions of those in [l]. *)
Record repositioned (s s' : ptab) (l : list nat) : Prop := {
  rp_len : length (pt_proc s') = length (pt_proc s);
  rp_out j : j ∉ l -> proc_at s' j = proc_at s j;
  rp_in j : set_pr_stat (set_ps_qpos 0 (pr_stat (proc_at s' j))) (proc_at s' j) =
            set_pr_stat (set_ps_qpos 0 (pr_stat (proc_at s j))) (proc_at s j);
  rp_ticks : pt_ticks s' = pt_ticks s
}.

Lemma rp_pid s s' l j : repositioned s s' l -> pr_pid (proc_at s' j) = pr_pid (proc_at s j).
Proof.
  intros Hr. pose proof (rp_in _ _ _ Hr j) as E.
  by apply (f_equal pr_pid) in E.
Qed.
Lemma rp_q s s' l j : repositioned s s' l -> getQIdx s' j = getQIdx s j.
Proof.
  intros Hr. pose proof (rp_in _ _ _ Hr j) as E.
  by apply (f_equal (fun p => ps_q (pr_stat p))) in E.
Qed.

Lemma rp_trans s s1 s2 l l' : repositioned s s1 l -> repositioned s1 s2 l' ->
  repositioned s s2 (l ++ l').
Proof.
  intros [A1 A2 A3 A4] [B1 B2 B3 B4]. split; [congruence| | |congruence].
  - intros j Hj. rewrite elem_of_app in Hj. rewrite B2, A2 by tauto. done.
  - intros j. by rewrite B3, A3.
Qed.

Lemma rp_one p x f q s : (p < length (pt_proc s))%nat ->
  repositioned s (upd_stat p (set_ps_qpos x) (upd_ring q f s)) [p].
Proof.
  intros Hp. split.
  - unfold upd_stat. by rewrite len_upd_proc.
  - intros j Hj. unfold upd_stat. rewrite proc_upd_ne; [done|]. intros ->. apply Hj. by left.
  - intros j. unfold upd_stat. destruct (decide (p = j)) as [<-|].
    + rewrite proc_upd_eq by done. rewrite proc_upd_ring. by destruct (proc_at s p) as [? ? ? ? ? ? ? ? ? ? ? ? ? ? ? ? [] ?].
    + by rewrite proc_upd_ne.
  - done.
Qed.

Lemma deleteIdx_loop_spec q fuel s n l r0 : valid_q s q -> (length l < fuel)%nat ->
  rg_start (ring_at s q) = rg_start r0 ->
  Z.of_nat (n + length l) < MAX ->
  (forall j, j ∈ l -> (j < length (pt_proc s))%nat) -> NoDup l ->
  (forall k j, l !! k = Some j -> rg_arr (ring_at s q) !! pos r0 (S n + k) = Some j) ->
  exists s', deleteIdx_loop fuel q (pos r0 n) (pos r0 (n + length l)) s = Ret tt s' /\
    repositioned s s' l /\
    (forall k j, l !! k = Some j -> rg_arr (ring_at s' q) !! pos r0 (n + k) = Some j /\
       getQPos s' j = pos r0 (n + k)) /\
    (forall m, (m < n)%nat -> rg_arr (ring_at s' q) !! pos r0 m = rg_arr (ring_at s q) !! pos r0 m) /\
    rg_start (ring_at s' q) = rg_start (ring_at s q) /\
    rg_size (ring_at s' q) = rg_size (ring_at s q) /\
    length (pt_queues s') = length (pt_queues s) /\
    (forall q', 0 <= q' -> q' <> q -> ring_at s' q' = ring_at s q').
Proof.
  revert s n l. induction fuel as [|fuel IH]; intros s n l Hq Hf Hst Hmax Hlen Hnd Hget; [lia|].
  cbn [deleteIdx_loop]. destruct l as [|j l].
  { rewrite Nat.add_0_r, Z.eqb_refl. exists s. split; [done|]. by split_and!. }
  destruct (Z.eqb_spec (pos r0 n) (pos r0 (n + length (j :: l)))) as [E|_].
  { apply pos_inj in E; simpl in *; lia. }
  mrun. pose proof (Hget 0%nat j eq_refl) as Hj. rewrite Nat.add_0_r, <-pos_next in Hj.
  rewrite Hj. mrun.
  assert (Hjl : (j < length (pt_proc s))%nat) by (apply Hlen; by left).
  set (s1 := upd_stat j (set_ps_qpos (pos r0 n)) _).
  assert (Hr1 : ring_at s1 q = set_rg_arr (<[pos r0 n := j]> (rg_arr (ring_at s q))) (ring_at s q)).
  { unfold s1, upd_stat. by rewrite ring_upd_proc, ring_upd_eq. }
  assert (Hrp : repositioned s s1 [j]) by (by apply rp_one).
  assert (Hpj : getQPos s1 j = pos r0 n).
  { unfold s1, getQPos, upd_stat. by rewrite proc_upd_eq. }
  apply NoDup_cons in Hnd as [Hnin Hnd].
  rewrite pos_next. replace (n + length (j :: l))%nat with (S n + length l)%nat by (simpl; lia).
  destruct (IH s1 (S n) l) as (s' & E & R & G & O & Q1 & Q2 & Q3 & Q4).
  - unfold valid_q, s1, upd_stat, upd_ring in *. simpl. by rewrite length_insert.
  - simpl in Hf. lia.
  - by rewrite Hr1.
  - simpl in Hmax. lia.
  - intros k Hk. rewrite (rp_len _ _ _ Hrp). apply Hlen. by right.
  - done.
  - intros k x Hx. rewrite Hr1. cbn [set_rg_arr rg_arr]. pose proof (lookup_lt_Some _ _ _ Hx).
    rewrite lookup_insert_ne.
    + replace (S (S n) + k)%nat with (S n + S k)%nat by lia. by apply (Hget (S k)).
    + intros Ep. apply pos_inj in Ep; simpl in *; lia.
  - exists s'. split; [done|]. split; [by apply (rp_trans s s1 s' [j] l)|].
    split.
    { intros [|k] x Hx; simpl in Hx.
      - injection Hx as <-. rewrite Nat.add_0_r, O, Hr1 by lia. simpl.
        split; [apply lookup_insert_eq|]. rewrite <-Hpj. unfold getQPos.
        by rewrite (rp_out _ _ _ R).
      - replace (n + S k)%nat with (S n + k)%nat by lia. by apply G. }
    split.
    { intros m Hm. rewrite O, Hr1 by lia. simpl. apply lookup_insert_ne.
      intros Ep. apply pos_inj in Ep; simpl in *; lia. }
    rewrite Q1, Q2, Q3, Hr1. split; [done|]. split; [done|]. split.
    { unfold s1, upd_stat, upd_ring. simpl. by rewrite length_insert. }
    intros q' H0 Hq'. rewrite Q4 by done. unfold s1, upd_stat. rewrite ring_upd_proc.
    apply ring_upd_ne; unfold valid_q in Hq; lia.
Qed.

(** [deleteIdx] of the recorded position of a process takes it out of its queue and
    closes the gap. *)
Lemma deleteIdx_spec s f q l1 x l2 : mlfq s f -> valid_q s q -> f q = l1 ++ x :: l2 ->
  exists s', deleteIdx q (pos (ring_at s q) (length l1)) s = Ret tt s' /\
    mlfq s' (with_queue f q (l1 ++ l2)) /\ repositioned s s' l2.
Proof.
  intros Hm Hq Hf. pose proof (mq_ring _ _ Hm q Hq) as Hr. pose proof Hr as [H1 H2 H3 H4].
  set (r := ring_at s q) in *. rewrite Hf in H2, H3, H4.
  assert (Hsz : Z.of_nat (length l1 + length l2) + 1 < MAX).
  { unfold zlen in H3. rewrite length_app in H3. simpl in H3. lia. }
  assert (Hdist : NoDup (l1 ++ x :: l2)).
  { pose proof (mq_pids _ _ Hm q Hq) as Hp. rewrite Hf in Hp. by apply NoDup_fmap_1 in Hp. }
  assert (Hx : rg_arr r !! pos r (length l1) = Some x).
  { apply H4. by apply list_lookup_middle. }
  unfold deleteIdx. mrun. fold r. rewrite Hx. mrun.
  rewrite upd_ring_upd_ring by done. set (s1 := upd_ring q _ s).
  assert (Hr1 : ring_at s1 q = Ring (delete (pos r (length l1)) (rg_arr r)) (rg_start r) (rg_size r - 1)).
  { unfold s1. by rewrite ring_upd_eq. }
  assert (Hb : backIndex s1 q = pos r (length l1 + length l2)).
  { unfold backIndex, pos. rewrite Hr1. simpl. rewrite H2. unfold zlen.
    rewrite length_app. simpl. f_equal. lia. }
  rewrite Hb.
  assert (Hget : forall k j, l2 !! k = Some j -> rg_arr r !! pos r (S (length l1) + k) = Some j).
  { intros k j Hk. apply H4. rewrite lookup_app_r by lia.
    by replace (S (length l1) + k - length l1)%nat with (S k) by lia. }
  destruct (deleteIdx_loop_spec q (Z.to_nat MAX) s1 (length l1) l2 r)
    as (s' & E & R & G & O & Q1 & Q2 & Q3 & Q4).
  - unfold s1. by rewrite valid_upd.
  - unfold MAX_PROC_COUNT in *. lia.
  - by rewrite Hr1.
  - lia.
  - intros j [k Hk]%list_elem_of_lookup. eapply (mq_pos _ _ Hm q (S (length l1) + k)); [done|].
    rewrite Hf, lookup_app_r by lia.
    by replace (S (length l1) + k - length l1)%nat with (S k) by lia.
  - apply NoDup_app in Hdist as (_ & _ & Hd). by apply NoDup_cons in Hd as [_ Hd].
  - intros k j Hk. rewrite Hr1. simpl. pose proof (lookup_lt_Some _ _ _ Hk).
    rewrite lookup_delete_ne; [by apply Hget|].
    intros Ep. apply pos_inj in Ep; lia.
  - assert (R' : repositioned s s' l2).
    { destruct R as [A1 A2 A3 A4]. split; try done. }
    exists s'. split; [done|]. split; [|done].
    assert (Hval : forall q', valid_q s' q' <-> valid_q s q').
    { intros q'. unfold valid_q. rewrite Q3. unfold s1, upd_ring. simpl. by rewrite length_insert. }
    assert (Hrne : forall q', valid_q s q' -> q' <> q -> ring_at s' q' = ring_at s q').
    { intros q' Hq' Hne. unfold valid_q in *. rewrite Q4 by (done || lia).
      unfold s1. apply ring_upd_ne; lia. }
    rewrite Hr1 in Q1, Q2. simpl in Q1, Q2.
    assert (Hpos : forall k, pos (ring_at s' q) k = pos r k) by (intros k; unfold pos; by rewrite Q1).
    assert (Hl : forall k j, (l1 ++ l2) !! k = Some j ->
      rg_arr (ring_at s' q) !! pos r k = Some j /\ getQPos s' j = pos r k).
    { intros k j [Hk|[Hk Hj]]%lookup_app_Some.
      - pose proof (lookup_lt_Some _ _ _ Hk). split.
        + rewrite O, Hr1 by done. simpl. rewrite lookup_delete_ne.
          * apply H4. by rewrite lookup_app_l.
          * intros Ep. apply pos_inj in Ep; lia.
        + unfold getQPos. rewrite (rp_out _ _ _ R').
          * apply (mq_pos _ _ Hm q k j Hq). by rewrite Hf, lookup_app_l.
          * apply NoDup_app in Hdist as (_ & Hd & _). intros Hin.
            eapply Hd; [by eapply list_elem_of_lookup_2|]. by right.
      - destruct (G _ _ Hj) as [G1 G2].
        replace (length l1 + (k - length l1))%nat with k in G1, G2 by lia. done. }
    assert (Hother : forall q' j, valid_q s q' -> q' <> q -> j ∈ f q' -> j ∉ l2).
    { intros q' j Hq' Hne [k Hk]%list_elem_of_lookup [k2 Hk2]%list_elem_of_lookup.
      destruct (mq_pos _ _ Hm q' k j Hq' Hk) as (_ & E1 & _).
      destruct (mq_pos _ _ Hm q (S (length l1) + k2) j Hq) as (_ & E2 & _); [|congruence].
      rewrite Hf, lookup_app_r by lia.
      by replace (S (length l1) + k2 - length l1)%nat with (S k2) by lia. }
    split.
    + rewrite Q3. unfold s1, upd_ring. simpl. rewrite length_insert. apply Hm.
    + intros q' Hq'. rewrite Hval in Hq'. destruct (decide (q' = q)) as [->|Hne].
      2: { rewrite with_ne, Hrne by done. by apply Hm. }
      rewrite with_eq. split.
      * by rewrite Q1.
      * rewrite Q2, H2. unfold zlen. rewrite !length_app. simpl. lia.
      * unfold zlen. rewrite length_app. lia.
      * intros k j Hk. rewrite Hpos. by apply Hl.
    + intros q' k j Hq' Hj. rewrite Hval in Hq'. unfold recorded.
      rewrite (rp_len _ _ _ R'), (rp_q _ _ _ _ R').
      destruct (decide (q' = q)) as [->|Hne].
      * rewrite with_eq in Hj. rewrite Hpos.
        assert (Hin : j ∈ f q).
        { rewrite Hf. apply list_elem_of_lookup_2 in Hj. rewrite elem_of_app in *.
          destruct Hj; [by left|right; by right]. }
        apply list_elem_of_lookup in Hin as [k' Hk'].
        destruct (mq_pos _ _ Hm q k' j Hq Hk') as (P1 & P2 & _).
        split; [done|]. split; [done|]. by apply Hl.
      * rewrite with_ne in Hj by done. destruct (mq_pos _ _ Hm q' k j Hq' Hj) as (P1 & P2 & P3).
        split; [done|]. split; [done|]. rewrite Hrne by done. unfold getQPos.
        rewrite (rp_out _ _ _ R'); [done|]. eapply Hother; [done|done|].
        by eapply list_elem_of_lookup_2.
    + intros q' Hq'. rewrite Hval in Hq'.
      assert (Ef : forall l : list nat, (fun j => pr_pid (proc_at s' j)) <$> l =
        (fun j => pr_pid (proc_at s j)) <$> l).
      { intros l. apply list_fmap_ext. intros. by eapply rp_pid. }
      rewrite Ef. destruct (decide (q' = q)) as [->|Hne].
      * rewrite with_eq. pose proof (mq_pids _ _ Hm q Hq) as Hp. rewrite Hf in Hp.
        rewrite fmap_app in *. simpl in Hp.
        apply NoDup_app in Hp as (P1 & P2 & P3). apply NoDup_cons in P3 as [_ P3].
        apply NoDup_app. split; [done|]. split; [|done].
        intros y Hy Hy'. eapply P2; [done|]. by right.
      * rewrite with_ne by done. by apply Hm.
Qed.

(** ** Moving between queues *)

Lemma queue_len s f q : mlfq s f -> valid_q s q -> (length (f q) <= length (pt_proc s))%nat.
Proof.
  intros Hm Hq. pose proof (mq_pids _ _ Hm q Hq) as Hnd. apply NoDup_fmap_1 in Hnd.
  rewrite <-(length_seq (length (pt_proc s)) 0). apply submseteq_length, NoDup_submseteq; [done|].
  intros j [k Hk]%list_elem_of_lookup. apply elem_of_seq.
  destruct (mq_pos _ _ Hm q k j Hq Hk) as [Hj _]. lia.
Qed.

(** The table has [NPROC] entries and [p]'s pid is its own. *)
Record own_pid (s : ptab) (p : nat) : Prop := {
  op_in : (p < length (pt_proc s))%nat;
  op_len : length (pt_proc s) = NPROC;
  op_pid j : (j < length (pt_proc s))%nat -> pr_pid (proc_at s j) = pr_pid (proc_at s p) -> j = p
}.

Lemma own_pid_rp s s' l p : repositioned s s' l -> own_pid s p -> own_pid s' p.
Proof.
  intros Hr [H1 H2 H3]. split; rewrite ?(rp_len _ _ _ Hr); try done.
  intros j Hj. rewrite !(rp_pid _ _ _ _ Hr). auto.
Qed.

(** [pushBack] of a process that is in no queue. *)
Lemma push_unqueued s f q p : mlfq s f -> valid_q s q -> own_pid s p ->
  (forall q', valid_q s q' -> p ∉ f q') ->
  mlfq (pushBack q p s) (with_queue f q (f q ++ [p])) /\ pushBack q p s = pushed q p s.
Proof.
  intros Hm Hq [H1 H2 H3] Hnin. apply pushBack_spec; try done.
  - pose proof (queue_len _ _ _ Hm Hq). unfold zlen, NPROC, MAX_PROC_COUNT in *. lia.
  - intros j Hj E. pose proof Hj as [k Hk]%list_elem_of_lookup.
    destruct (mq_pos _ _ Hm q k j Hq Hk) as [Hl _].
    rewrite (H3 j) in Hj by done. by apply (Hnin q).
Qed.

Lemma pushed_q q p s : (p < length (pt_proc s))%nat ->
  getQIdx (pushed q p s) p = q /\
  forall j, j <> p -> proc_at (pushed q p s) j = proc_at s j.
Proof.
  intros Hp. unfold pushed, getQIdx, upd_stat. split.
  - by rewrite proc_upd_ring, proc_upd_eq.
  - intros j Hj. by rewrite proc_upd_ring, proc_upd_ne.
Qed.

Lemma with_with f q l l' q' : with_queue (with_queue f q l) q l' q' = with_queue f q l' q'.
Proof. unfold with_queue. by destruct (q' =? q). Qed.

Lemma mlfq_ext s f g : (forall q, f q = g q) -> mlfq s f -> mlfq s g.
Proof.
  intros E [H1 H2 H3 H4]. split; [done| | |].
  - intros q. rewrite <-E. auto.
  - intros q k j. rewrite <-E. auto.
  - intros q. rewrite <-E. auto.
Qed.

(** A queued process is in one place only. *)
Lemma queued_once s f q l1 p l2 : mlfq s f -> valid_q s q -> f q = l1 ++ p :: l2 ->
  forall q', valid_q s q' -> p ∉ with_queue f q (l1 ++ l2) q'.
Proof.
  intros Hm Hq Hf q' Hq' Hin. destruct (decide (q' = q)) as [->|Hne].
  - rewrite with_eq in Hin. pose proof (mq_pids _ _ Hm q Hq) as Hnd. rewrite Hf in Hnd.
    apply NoDup_fmap_1, NoDup_app in Hnd as (_ & H2 & H3). apply NoDup_cons in H3 as [H3 _].
    apply elem_of_app in Hin as [Hin|Hin]; [|done]. eapply H2; [done|]. by left.
  - rewrite with_ne in Hin by done. apply list_elem_of_lookup in Hin as [k Hk].
    destruct (mq_pos _ _ Hm q' k p Hq' Hk) as (_ & E1 & _).
    destruct (mq_pos _ _ Hm q (length l1) p Hq) as (_ & E2 & _); [|congruence].
    rewrite Hf. by apply list_lookup_middle.
Qed.

(** Aging. A process queued at its recorded position in queue [q] is taken out,
    the gap is closed, and it is appended to the next better queue (or to the back of
    queue 0); every other queue and the order of the others are unchanged, and every
    recorded position is right again. *)
Theorem incPrio_spec s f q l1 p l2 : mlfq s f -> valid_q s q -> own_pid s p ->
  f q = l1 ++ p :: l2 ->
  let q' := if q =? HIGHEST_PRIO_Q then q else q - 1 in
  let g := with_queue f q (l1 ++ l2) in
  exists s', incPrio p s = Ret tt s' /\ mlfq s' (with_queue g q' (g q' ++ [p])) /\
    getQIdx s' p = q'.
Proof.
  intros Hm Hq Hp Hf q' g.
  destruct (mq_pos _ _ Hm q (length l1) p Hq) as (_ & Eq & Epos);
    [rewrite Hf; by apply list_lookup_middle|].
  destruct (deleteIdx_spec s f q l1 p l2 Hm Hq Hf) as (s1 & E & Hm1 & R).
  assert (Hv : valid_q s1 q').
  { unfold valid_q. rewrite (mq_len _ _ Hm1). unfold valid_q in Hq.
    rewrite (mq_len _ _ Hm) in Hq. subst q'. unfold HIGHEST_PRIO_Q. case_match; lia. }
  assert (Hp1 := own_pid_rp _ _ _ _ R Hp).
  destruct (push_unqueued s1 g q' p Hm1 Hv Hp1) as [Hm2 E2].
  { intros q0 Hq0. eapply queued_once; [exact Hm|done|done|].
    unfold valid_q in *. rewrite (mq_len _ _ Hm1) in Hq0. by rewrite (mq_len _ _ Hm). }
  exists (pushBack q' p s1). split; [|split; [done|]].
  - unfold incPrio. mrun. rewrite Eq, Epos. unfold valid_q in Hq.
    replace (_ || _) with false by (unfold pos, MAX_PROC_COUNT; lia).
    erewrite bind_eq by done. subst q'. by destruct (q =? HIGHEST_PRIO_Q).
  - rewrite E2. by apply pushed_q, Hp1.
Qed.

(** After its turn a process that is in no queue is appended to its own queue
    (it slept or kept part of its slice) or to the next worse one (it used the whole
    slice), the last queue keeping its own; its slice starts again. *)
Lemma decPrio_spec s f p retain : mlfq s f -> valid_q s (getQIdx s p) -> own_pid s p ->
  (forall q', valid_q s q' -> p ∉ f q') ->
  let q := getQIdx s p in
  let q' := if (q =? Z.of_nat PQ_COUNT - 1) || retain then q else q + 1 in
  exists s', decPrio p retain s = Ret tt s' /\ mlfq s' (with_queue f q' (f q' ++ [p])) /\
    getQIdx s' p = q' /\ getTicks s' p = 0.
Proof.
  intros Hm Hq Hp Hnin q q'.
  set (s1 := upd_proc p (set_pr_latestQTime (pt_ticks s)) s).
  pose proof Hp as [P1 P2 P3].
  assert (Hsame : forall j, pr_stat (proc_at s1 j) = pr_stat (proc_at s j) /\
    pr_pid (proc_at s1 j) = pr_pid (proc_at s j)).
  { intros j. unfold s1. destruct (decide (p = j)) as [<-|].
    - by rewrite proc_upd_eq.
    - by rewrite proc_upd_ne. }
  assert (Hm1 : mlfq s1 f).
  { destruct Hm as [M1 M2 M3 M4]. split; try done.
    - intros q0 k j Hq0 Hj. destruct (M3 q0 k j Hq0 Hj) as (R1 & R2 & R3).
      unfold recorded, getQIdx, getQPos. destruct (Hsame j) as [-> _].
      unfold s1. by rewrite len_upd_proc.
    - intros q0 Hq0. rewrite (list_fmap_ext _ (fun j => pr_pid (proc_at s j)));
        [by apply M4|]. intros i j _. apply Hsame. }
  assert (Hv : valid_q s1 q').
  { unfold valid_q in *. rewrite (mq_len _ _ Hm1). rewrite (mq_len _ _ Hm) in Hq.
    fold q in Hq. subst q'. unfold PQ_COUNT in *. case_match; lia. }
  assert (Hp1 : own_pid s1 p).
  { split; unfold s1; rewrite ?len_upd_proc; try done. intros j Hj E.
    fold s1 in E. apply P3; [done|]. by rewrite <-!(proj2 (Hsame _)). }
  destruct (push_unqueued s1 f q' p Hm1 Hv Hp1) as [Hm2 E2]; [done|].
  exists (pushBack q' p s1). split; [|split; [done|]].
  - unfold decPrio. mrun. fold q. unfold valid_q in Hq. fold q in Hq.
    replace (q <? 0) with false by lia. mrun. fold s1. subst q'. by case_match.
  - rewrite E2. split; [by apply pushed_q, Hp1|].
    unfold getTicks, pushed, upd_stat. rewrite proc_upd_ring, proc_upd_eq by apply Hp1.
    assert (Hlat : pr_latestQTime (proc_at s1 p) = pt_ticks s)
      by (unfold s1; by rewrite proc_upd_eq).
    cbn [pr_latestQTime set_pr_stat]. rewrite Hlat. cbn [upd_ring upd_proc set_pt_queues set_pt_proc pt_ticks s1].
    by rewrite Z.sub_diag.
Qed.

(** ** A table with three processes waiting in queue 1 *)

Definition demo_procs : list proc :=
  [set_pr_state RUNNABLE (set_pr_pid 1 proc0); set_pr_state RUNNABLE (set_pr_pid 2 proc0);
   set_pr_state RUNNABLE (set_pr_pid 3 proc0)] ++ replicate 61 proc0.
Definition demo_empty : ptab :=
  Ptab false demo_procs 4 (Some 0%nat) None 100 (replicate PQ_COUNT ring0) 0.
Definition demo : ptab := pushBack 1 2 (pushBack 1 1 (pushBack 1 0 demo_empty)).
Definition demo_queues : Z -> list nat := with_queue (fun _ => []) 1 [0; 1; 2]%nat.

Lemma mlfq_empty s : pt_queues s = replicate PQ_COUNT ring0 -> mlfq s (fun _ => []).
Proof.
  intros Hs. assert (Hr : forall q, ring_at s q = ring0).
  { intros q. unfold ring_at. rewrite Hs, nth_lookup.
    destruct (_ !! _) as [r|] eqn:E; [|done]. by apply lookup_replicate in E as [-> _]. }
  split; [by rewrite Hs| |done|constructor].
  intros q _. rewrite Hr. split; [split; simpl; unfold MAX_PROC_COUNT; lia|done|done|done].
Qed.

Lemma demo_own (s : ptab) p : pt_proc s = demo_procs -> (p < 3)%nat -> own_pid s p.
Proof.
  intros Hs Hp. split; rewrite ?Hs; [apply (Nat.lt_le_trans _ 3); [done|]; apply (bool_decide_unpack _); vm_compute; exact I|done|].
  intros j Hj. unfold proc_at. rewrite Hs.
  assert (Hall : Forall (fun i => Forall (fun j => (pr_pid (nth j demo_procs proc0) =
    pr_pid (nth i demo_procs proc0)) -> j = i) (seq 0 64)) (seq 0 3)).
  { apply (bool_decide_unpack _). vm_compute. exact I. }
  rewrite Forall_forall in Hall. specialize (Hall p). rewrite Forall_forall in Hall.
  apply Hall; apply elem_of_seq; simpl in *; lia.
Qed.

Lemma own_pid_pushed q j s p : own_pid s p -> own_pid (pushed q j s) p.
Proof.
  intros [H1 H2 H3].
  assert (Hl : length (pt_proc (pushed q j s)) = length (pt_proc s)).
  { unfold pushed, upd_stat. simpl. by rewrite length_insert. }
  assert (Hpid : forall i, pr_pid (proc_at (pushed q j s) i) = pr_pid (proc_at s i)).
  { intros i. unfold pushed, upd_stat. rewrite proc_upd_ring.
    destruct (decide (j < length (pt_proc s))%nat).
    - destruct (decide (j = i)) as [<-|]; [by rewrite proc_upd_eq|by rewrite proc_upd_ne].
    - unfold proc_at, upd_proc. simpl. by rewrite list_insert_ge by lia. }
  split; rewrite ?Hl; try done. intros i Hi. rewrite !Hpid. auto.
Qed.

Lemma own_pid_same s s' p : pt_proc s' = pt_proc s -> own_pid s p -> own_pid s' p.
Proof. intros E [H1 H2 H3]. split; unfold proc_at in *; by rewrite E. Qed.

Lemma getQIdx_same s s' p : pt_proc s' = pt_proc s -> getQIdx s' p = getQIdx s p.
Proof. intros E. unfold getQIdx, proc_at. by rewrite E. Qed.

Lemma demo_mlfq : mlfq demo demo_queues /\ forall p, (p < 3)%nat -> own_pid demo p.
Proof.
  assert (H0 : mlfq demo_empty (fun _ => [])) by (by apply mlfq_empty).
  assert (V : valid_q demo_empty 1) by (split; vm_compute; [discriminate|reflexivity]).
  assert (P0 : forall p, (p < 3)%nat -> own_pid demo_empty p) by (intros p; by apply demo_own).
  destruct (push_unqueued demo_empty _ 1 0%nat H0 V (P0 0%nat ltac:(lia))) as [H1 E1].
  { intros q _. apply not_elem_of_nil. }
  destruct (push_unqueued (pushBack 1 0 demo_empty) _ 1 1%nat H1) as [H2 E2].
  { rewrite E1. unfold pushed. by rewrite valid_upd. }
  { rewrite E1. apply own_pid_pushed, P0. lia. }
  { intros q _. unfold with_queue. case_match; set_solver. }
  destruct (push_unqueued (pushBack 1 1 (pushBack 1 0 demo_empty)) _ 1 2%nat H2) as [H3 E3].
  { rewrite E2, E1. unfold pushed. by rewrite !valid_upd. }
  { rewrite E2, E1. apply own_pid_pushed, own_pid_pushed, P0. lia. }
  { intros q _. unfold with_queue. case_match; set_solver. }
  split.
  - eapply mlfq_ext; [|exact H3]. intros q. unfold with_queue, demo_queues, with_queue.
    by destruct (q =? 1).
  - intros p Hp. unfold demo. rewrite E3, E2, E1. by apply own_pid_pushed, own_pid_pushed, own_pid_pushed, P0.
Qed.

Lemma demo_valid : valid_q demo 1.
Proof. split; vm_compute; [discriminate|reflexivity]. Qed.

Lemma incPrio_spec_witness : exists s', incPrio 1 demo = Ret tt s' /\
  mlfq s' (with_queue (with_queue demo_queues 1 [0; 2]%nat) 0 [1%nat]) /\ getQIdx s' 1 = 0.
Proof.
  exact (incPrio_spec demo demo_queues 1 [0%nat] 1 [2%nat] (proj1 demo_mlfq)
    demo_valid (proj2 demo_mlfq 1%nat ltac:(lia)) eq_refl).
Defined.

Lemma demo_unqueued q' : 0%nat ∉ with_queue demo_queues 1 [1; 2]%nat q'.
Proof.
  unfold demo_queues, with_queue. destruct (q' =? 1); [|apply not_elem_of_nil].
  by apply (bool_decide_unpack _).
Qed.

(** The first of them is taken off queue 1 for its turn. *)
Lemma demo_turn : exists s, popFront 1 demo = Ret (Some 0%nat) s /\
  mlfq s (with_queue demo_queues 1 [1; 2]%nat) /\ getQIdx s 0 = 1 /\ own_pid s 0 /\
  valid_q s (getQIdx s 0) /\
  forall q', valid_q s q' -> 0%nat ∉ with_queue demo_queues 1 [1; 2]%nat q'.
Proof.
  destruct (popFront_spec demo demo_queues 1 0%nat [1; 2]%nat (proj1 demo_mlfq)
    demo_valid eq_refl) as (s & E & Hm & Hp & Ht).
  assert (Eq : getQIdx s 0 = 1).
  { destruct (mq_pos demo demo_queues (proj1 demo_mlfq) 1 0%nat 0%nat demo_valid eq_refl)
      as (_ & Eq & _). rewrite <-Eq. by apply getQIdx_same. }
  exists s. split; [done|]. split; [done|]. split; [done|]. split; [|split].
  - apply (own_pid_same demo); [done|]. apply (proj2 demo_mlfq). lia.
  - rewrite Eq. unfold valid_q. by rewrite (mq_len _ _ Hm).
  - intros q' _. apply demo_unqueued.
Qed.
