(* ===== verification/Sched.v ===== *)
(** * What the schedulers choose, and the life of a process

    The choices of the four schedulers, [wakeup], the states a process goes through,
    and the process table as the interface of the lower components ([ProcIface]). *)
From S2P Require Import Prelude Param Iface Proc Mlfq.

(** ** Searching the table *)

Lemma find_proc_Some f l i : find_proc f l = Some i ->
  exists l1 l2, l = l1 ++ i :: l2 /\ f i = true /\ Forall (fun j => f j = false) l1.
Proof.
  induction l as [|j l IH]; simpl; [done|]. destruct (f j) eqn:E.
  - intros [= ->]. by exists [], l.
  - intros Hi. destruct (IH Hi) as (l1 & l2 & -> & Hf & Hl). exists (j :: l1), l2. auto.
Qed.

Lemma find_proc_None f l : find_proc f l = None <-> Forall (fun j => f j = false) l.
Proof.
  induction l as [|j l IH]; simpl; [split; [constructor|done]|].
  rewrite Forall_cons. destruct (f j) eqn:E; naive_solver.
Qed.

(** [i] is the first index of the table satisfying [f]. *)
Definition first_with (s : ptab) (f : nat -> bool) (i : nat) : Prop :=
  (i < length (pt_proc s))%nat /\ f i = true /\ forall j, (j < i)%nat -> f j = false.

Lemma find_all s f i : find_proc f (all_procs s) = Some i <-> first_with s f i.
Proof.
  split.
  - intros Hi. apply find_proc_Some in Hi as (l1 & l2 & Hl & Hf & Hn).
    assert (Hlen : length l1 = i /\ (i < length (pt_proc s))%nat).
    { assert (Hi : all_procs s !! length l1 = Some i) by (rewrite Hl; by apply list_lookup_middle).
      apply lookup_seq in Hi. simpl in Hi. lia. }
    destruct Hlen as [Hlen Hlt]. split; [done|]. split; [done|]. intros j Hj.
    rewrite Forall_forall in Hn. apply Hn.
    assert (Hj' : all_procs s !! j = Some j) by (apply lookup_seq; lia).
    rewrite Hl, lookup_app_l in Hj' by lia. by eapply list_elem_of_lookup_2.
  - intros (Hi & Hf & Hn). destruct (find_proc f (all_procs s)) as [k|] eqn:E.
    + apply find_proc_Some in E as (l1 & l2 & Hl & Hf' & Hn').
      assert (Hk : all_procs s !! length l1 = Some k) by (rewrite Hl; by apply list_lookup_middle).
      apply lookup_seq in Hk. simpl in Hk.
      destruct (decide (k = i)) as [->|]; [done|]. destruct (decide (k < i)%nat).
      * rewrite Hn in Hf' by done. done.
      * assert (Hi' : all_procs s !! i = Some i) by (apply lookup_seq; lia).
        rewrite Hl, lookup_app_l in Hi' by lia. apply list_elem_of_lookup_2 in Hi'.
        rewrite Forall_forall in Hn'. by rewrite Hn' in Hf.
    + apply find_proc_None in E. rewrite Forall_forall in E.
      rewrite E in Hf; [done|]. apply elem_of_seq. lia.
Qed.

Lemma is_state_spec st s i : is_state st s i = true <-> state_of s i = st.
Proof. unfold is_state. by rewrite bool_decide_eq_true. Qed.

(** ** FCFS *)

Lemma fcfs_loop_spec s l best b : fcfs_loop s l best = Some b ->
  (best = Some b \/ b ∈ l /\ is_state RUNNABLE s b = true) /\
  (forall c, best = Some c -> pr_ctime (proc_at s b) <= pr_ctime (proc_at s c)) /\
  (forall c, c ∈ l -> is_state RUNNABLE s c = true -> pr_ctime (proc_at s b) <= pr_ctime (proc_at s c)).
Proof.
  revert best. induction l as [|i l IH]; intros best Hb; simpl in Hb.
  - subst best. split; [by left|]. split; [by intros c [= ->]|by intros c ?%elem_of_nil].
  - apply IH in Hb as (H1 & H2 & H3). destruct (is_state RUNNABLE s i) eqn:Ei.
    + destruct best as [c|].
      * destruct (Z.ltb_spec (pr_ctime (proc_at s i)) (pr_ctime (proc_at s c))).
        -- specialize (H2 i eq_refl). split; [|split].
           ++ right. rewrite elem_of_cons. destruct H1 as [[= ->]|[H1 H1']]; auto.
           ++ intros c' [= <-]. lia.
           ++ intros c' [->|Hc]%elem_of_cons Hr; auto.
        -- specialize (H2 c eq_refl). split; [|split].
           ++ rewrite elem_of_cons. destruct H1 as [[= ->]|[H1 H1']]; auto.
           ++ intros c' [= <-]. done.
           ++ intros c' [->|Hc]%elem_of_cons Hr; [lia|auto].
      * specialize (H2 i eq_refl). split; [|split].
        -- right. rewrite elem_of_cons. destruct H1 as [[= ->]|[H1 H1']]; auto.
        -- done.
        -- intros c' [->|Hc]%elem_of_cons Hr; auto.
    + split; [|split].
      * rewrite elem_of_cons. destruct H1 as [H1|[H1 H1']]; auto.
      * done.
      * intros c' [->|Hc]%elem_of_cons Hr; [congruence|auto].
Qed.

Lemma fcfs_loop_None s l best : fcfs_loop s l best = None <->
  best = None /\ Forall (fun i => is_state RUNNABLE s i = false) l.
Proof.
  revert best. induction l as [|i l IH]; intros best; simpl.
  - split; [intros ->; auto|tauto].
  - rewrite IH, Forall_cons. destruct (is_state RUNNABLE s i), best as [c|]; try case_match; naive_solver.
Qed.

(** First come first served: the chosen process is runnable and no runnable
    process was created earlier; nothing is chosen only when nothing is runnable. *)
Theorem fcfs_pick_spec s : match fcfs_pick s with
  | Some b => (b < length (pt_proc s))%nat /\ state_of s b = RUNNABLE /\
      forall c, (c < length (pt_proc s))%nat -> state_of s c = RUNNABLE ->
        pr_ctime (proc_at s b) <= pr_ctime (proc_at s c)
  | None => forall c, (c < length (pt_proc s))%nat -> state_of s c <> RUNNABLE
  end.
Proof.
  unfold fcfs_pick. destruct (fcfs_loop s (all_procs s) None) as [b|] eqn:E.
  - apply fcfs_loop_spec in E as ([?|[H1 H2]] & _ & H3); [done|].
    apply elem_of_seq in H1. split; [lia|]. split; [by apply is_state_spec|].
    intros c Hc Hs. apply H3; [apply elem_of_seq; lia|by apply is_state_spec].
  - apply fcfs_loop_None in E as [_ Hn]. rewrite Forall_forall in Hn. intros c Hc Hs.
    apply is_state_spec in Hs. rewrite Hn in Hs; [done|]. apply elem_of_seq. lia.
Qed.

(** ** PBS *)

Definition runnable_prio (s : ptab) (i : nat) (v : Z) : Prop :=
  (i < length (pt_proc s))%nat /\ state_of s i = RUNNABLE /\ pr_priority (proc_at s i) = v.

Definition min_step (s : ptab) (m : Z) (i : nat) : Z :=
  if is_state RUNNABLE s i && (pr_priority (proc_at s i) <? m) then pr_priority (proc_at s i) else m.
Lemma min_fold s l m : let step := min_step s in
  let r := fold_left step l m in
  r <= m /\ (r = m \/ exists i, i ∈ l /\ is_state RUNNABLE s i = true /\ pr_priority (proc_at s i) = r) /\
  forall i, i ∈ l -> is_state RUNNABLE s i = true -> r <= pr_priority (proc_at s i).
Proof.
  cbv zeta. revert m. induction l as [|j l IH]; intros m; simpl.
  - split; [lia|]. split; [by left|]. by intros i ?%elem_of_nil.
  - set (m' := min_step s m j). destruct (IH m') as (H1 & H2 & H3).
    assert (Hm' : m' <= m /\ (m' = m \/ is_state RUNNABLE s j = true /\ pr_priority (proc_at s j) = m') /\
      (is_state RUNNABLE s j = true -> m' <= pr_priority (proc_at s j))).
    { subst m'. unfold min_step. destruct (is_state RUNNABLE s j); simpl; [|split; [lia|]; split; [by left|done]].
      destruct (Z.ltb_spec (pr_priority (proc_at s j)) m); (split; [lia|]; split; [auto|lia]). }
    destruct Hm' as (K1 & K2 & K3). split; [lia|]. split.
    + destruct H2 as [H2|(i & Hi & Hr & Hp)].
      * rewrite H2. destruct K2 as [K2|[K2 K2']]; [by left|right]. exists j. split; [by left|done].
      * right. exists i. split; [by right|done].
    + intros i [->|Hi]%elem_of_cons Hr; [|by apply H3]. specialize (K3 Hr). lia.
Qed.

(** Priority scheduling: a chosen process is runnable, and no runnable process
    has a better (smaller) priority. *)
Theorem pbs_pick_spec s i j : (i <= length (pt_proc s))%nat ->
  pbs_pick s (min_prio s) i = Some j ->
  runnable_prio s j (min_prio s) /\ (i <= j)%nat /\
  forall k v, runnable_prio s k v -> min_prio s <= v.
Proof.
  intros Hi Hp. unfold pbs_pick in Hp. apply find_proc_Some in Hp as (l1 & l2 & Hl & Hf & _).
  assert (Hj : (i <= j < length (pt_proc s))%nat).
  { assert (Hin : j ∈ drop i (all_procs s)) by (rewrite Hl; set_solver).
    apply list_elem_of_lookup in Hin as [k Hk]. rewrite lookup_drop in Hk.
    apply lookup_seq in Hk. lia. }
  apply andb_true_iff in Hf as [Hr Hv]. apply is_state_spec in Hr.
  split; [split; [lia|split; [done|lia]]|]. split; [lia|].
  intros k v (Hk & Hs & <-). apply (min_fold s (all_procs s) 101); [apply elem_of_seq; lia|].
  by apply is_state_spec.
Qed.

(** C39: a process whose priority value is above 101 is never chosen by the priority
    scheduler, whatever else is runnable: the search for the minimum starts at 101.
    [fork] gives a process half its pid as priority, so every process from pid 204 on
    starves unless it sets its own priority. *)
Theorem pbs_starves s i j : (j <= length (pt_proc s))%nat ->
  101 < pr_priority (proc_at s i) -> pbs_pick s (min_prio s) j <> Some i.
Proof.
  intros Hj Hp Hpick. unfold pbs_pick in Hpick.
  apply find_proc_Some in Hpick as (l1 & l2 & _ & Hf & _).
  apply andb_true_iff in Hf as [_ Hf].
  pose proof (min_fold s (all_procs s) 101) as (Hm & _). change (min_prio s <= 101) in Hm. lia.
Qed.

(** A table with the processes of the given states, priorities and creation times. *)
Definition table (l : list (procstate * Z * Z)) : ptab :=
  Ptab false (imap (fun i e => set_pr_ctime e.2 (set_pr_priority e.1.2 (set_pr_state e.1.1
    (set_pr_pid (Z.of_nat i + 1) proc0)))) l) 1 None None 0 (replicate PQ_COUNT ring0) 0.

Lemma pbs_pick_spec_witness :
  let s := table [(SLEEPING, 3, 0); (RUNNABLE, 60, 0); (RUNNABLE, 40, 0)] in
  pbs_pick s (min_prio s) 0 = Some 2%nat /\ runnable_prio s 2 40.
Proof.
  split; [reflexivity|].
  apply (pbs_pick_spec (table [(SLEEPING, 3, 0); (RUNNABLE, 60, 0); (RUNNABLE, 40, 0)]) 0 2).
  - apply Nat.le_0_l.
  - reflexivity.
Defined.

(** The 204th process is the only runnable one and is not chosen. *)
Lemma pbs_starves_witness :
  let s := table [(SLEEPING, 60, 0); (RUNNABLE, 204 / 2, 0)] in
  pbs_pick s (min_prio s) 0 <> Some 1%nat /\ fcfs_pick s = Some 1%nat.
Proof.
  split; [|reflexivity].
  apply (pbs_starves (table [(SLEEPING, 60, 0); (RUNNABLE, 204 / 2, 0)]) 1 0).
  - apply Nat.le_0_l.
  - reflexivity.
Defined.
