(* ===== verification/ProcSpec.v ===== *)
(** * The life of a process

    [wakeup] and [kill], the pids, and orphans, as equations on the process table; the
    table as the interface [ProcIface] of the components below proc.c. *)
From S2P Require Import Prelude Param Iface Proc Mlfq Sched.

(** ** Tables that agree up to the statistics of the schedulers

    [pushBack] changes the recorded queue of a process and the queues, and nothing
    else: the rest of the kernel sees the same table. *)
Definition life (p : proc) : proc := set_pr_stat pstat0 p.
Record same_life (s s' : ptab) : Prop := {
  sl_len : length (pt_proc s') = length (pt_proc s);
  sl_proc j : life (proc_at s' j) = life (proc_at s j);
  sl_lock : pt_lock s' = pt_lock s;
  sl_nextpid : pt_nextpid s' = pt_nextpid s;
  sl_initproc : pt_initproc s' = pt_initproc s;
  sl_cur : pt_cur s' = pt_cur s;
  sl_ticks : pt_ticks s' = pt_ticks s
}.

#[export] Instance same_life_equiv : Equivalence same_life.
Proof.
  split.
  - by intros s.
  - intros s s' []. by split.
  - intros s1 s2 s3 [] []. split; intros; congruence.
Qed.

(** What an observer of [life] sees of a process. *)
Lemma life_inj {A} (f : proc -> A) p p' : (forall x, f (life x) = f x) -> life p = life p' -> f p = f p'.
Proof. intros Hf E. by rewrite <-(Hf p), <-(Hf p'), E. Qed.
Ltac life_field := match goal with
  | H : life ?p = life ?p' |- ?f ?p = ?f ?p' => exact (life_inj f p p' (fun _ => eq_refl) H)
  end.

#[export] Instance state_of_life : Proper (same_life ==> eq ==> eq) state_of.
Proof. intros s s' H j _ <-. pose proof (sl_proc _ _ H j) as E. unfold state_of. symmetry. life_field. Qed.
#[export] Instance is_state_life st : Proper (same_life ==> eq ==> eq) (is_state st).
Proof. intros s s' H j _ <-. unfold is_state. by rewrite (state_of_life _ _ H j j eq_refl). Qed.
#[export] Instance wakes_life : Proper (same_life ==> eq ==> eq ==> eq) wakes.
Proof.
  intros s s' H c _ <- j _ <-. unfold wakes. rewrite (is_state_life _ _ _ H j j eq_refl). f_equal.
  assert (E : pr_chan (proc_at s j) = pr_chan (proc_at s' j)).
  { pose proof (sl_proc _ _ H j). symmetry. life_field. }
  by rewrite E.
Qed.

(** The table after an update of one process. *)
Lemma proc_upd i f s j : (i < length (pt_proc s))%nat ->
  proc_at (upd_proc i f s) j = if decide (i = j) then f (proc_at s i) else proc_at s j.
Proof.
  intros Hi. destruct (decide (i = j)) as [<-|]; [by apply proc_upd_eq|by apply proc_upd_ne].
Qed.

Lemma upd_proc_life i f s s' : (i < length (pt_proc s))%nat -> (forall p, life (f p) = f (life p)) ->
  same_life s s' -> same_life (upd_proc i f s) (upd_proc i f s').
Proof.
  intros Hi Hf H. split; try apply H.
  - rewrite !len_upd_proc. apply H.
  - intros j. rewrite !proc_upd by (rewrite ?(sl_len _ _ H); done).
    destruct (decide (i = j)); [|apply H]. rewrite !Hf. f_equal. apply H.
Qed.

Lemma upd_stat_life i f s : same_life s (upd_stat i f s).
Proof.
  split; try done.
  - apply len_upd_proc.
  - intros j. unfold upd_stat. destruct (decide (i < length (pt_proc s))%nat) as [Hi|Hi].
    + rewrite proc_upd by done. by destruct (decide (i = j)) as [<-|].
    + unfold upd_proc, proc_at at 1. simpl. by rewrite list_insert_ge by lia.
Qed.

Lemma pushBack_life q p s : same_life s (pushBack q p s).
Proof.
  unfold pushBack. destruct (pid_queued _ _ _ _ _ _); [done|]. cbv zeta.
  etransitivity; [apply (upd_stat_life p (set_ps_q q))|].
  set (s1 := upd_stat p _ s). etransitivity; [apply (upd_stat_life p (set_ps_qpos (backIndex s1 q)))|].
  by split.
Qed.

(** ** Wakeup *)

(** What [wakeup1] does to one process. *)
Definition roused (c : chan) (p : proc) : proc :=
  if bool_decide (pr_state p = SLEEPING) && bool_decide (pr_chan p = Some c)
  then set_pr_state RUNNABLE p else p.

Lemma roused_life c p : life (roused c p) = roused c (life p).
Proof. unfold roused. destruct p. simpl. by destruct (_ && _). Qed.

Lemma wakes_roused s c j : roused c (proc_at s j) =
  if wakes s c j then set_pr_state RUNNABLE (proc_at s j) else proc_at s j.
Proof. done. Qed.

Lemma wakeup_step pol s c i : (i < length (pt_proc s))%nat ->
  same_life (upd_proc i (roused c) s)
    (if wakes s c i
     then upd_proc i (set_pr_state RUNNABLE) (if is_pol pol MLFQ then pushBack (getQIdx s i) i s else s)
     else s).
Proof.
  intros Hi. destruct (wakes s c i) eqn:E.
  - transitivity (upd_proc i (set_pr_state RUNNABLE) s).
    + split; try done; [by rewrite !len_upd_proc|]. intros j. rewrite !proc_upd by done.
      destruct (decide (i = j)) as [<-|]; [|done]. by rewrite wakes_roused, E.
    + apply upd_proc_life; [done|done|]. destruct (is_pol pol MLFQ); [apply pushBack_life|done].
  - split; try done; [by rewrite len_upd_proc|]. intros j. rewrite proc_upd by done.
    destruct (decide (i = j)) as [<-|]; [|done]. by rewrite wakes_roused, E.
Qed.

Lemma wakeup1_loop_spec pol c l s : NoDup l -> (forall i, i ∈ l -> (i < length (pt_proc s))%nat) ->
  let s' := wakeup1_loop pol l c s in
  length (pt_proc s') = length (pt_proc s) /\
  (forall j, life (proc_at s' j) = life (if decide (j ∈ l) then roused c (proc_at s j) else proc_at s j)) /\
  pt_lock s' = pt_lock s /\ pt_nextpid s' = pt_nextpid s /\ pt_initproc s' = pt_initproc s /\
  pt_cur s' = pt_cur s /\ pt_ticks s' = pt_ticks s.
Proof.
  revert s. induction l as [|i l IH]; intros s Hnd Hl; cbn [wakeup1_loop]; cbv zeta.
  { split_and!; try done. }
  apply NoDup_cons in Hnd as [Hi Hnd]. pose proof (Hl i ltac:(by left)) as Hil.
  pose proof (wakeup_step pol s c i Hil) as Hs. set (s1 := if wakes s c i then _ else s) in *.
  destruct (IH s1 Hnd) as (L & P & K1 & K2 & K3 & K4 & K5).
  { intros j Hj. rewrite (sl_len _ _ Hs), len_upd_proc. apply Hl. by right. }
  destruct Hs as [S1 S2 S3 S4 S5 S6 S7]. rewrite len_upd_proc in S1.
  split; [congruence|]. split; [|split_and!; etransitivity; eauto].
  intros j. rewrite P. specialize (S2 j). rewrite proc_upd in S2 by done.
  destruct (decide (j ∈ l)) as [Hj|Hj].
  - rewrite decide_False in S2 by (intros ->; done).
    rewrite decide_True by (by right). by rewrite !roused_life, S2.
  - destruct (decide (i = j)) as [<-|Hne].
    + by rewrite decide_True by (by left).
    + by rewrite decide_False by (rewrite elem_of_cons; intros [->|]; done).
Qed.

Lemma life_pid s s' j : life (proc_at s' j) = life (proc_at s j) -> pr_pid (proc_at s' j) = pr_pid (proc_at s j).
Proof. intros E. life_field. Qed.
Lemma life_killed s s' j : life (proc_at s' j) = life (proc_at s j) -> pr_killed (proc_at s' j) = pr_killed (proc_at s j).
Proof. intros E. life_field. Qed.

Lemma all_procs_spec s : NoDup (all_procs s) /\ forall i, i ∈ all_procs s <-> (i < length (pt_proc s))%nat.
Proof. unfold all_procs. split; [apply NoDup_seq|]. intros i. rewrite elem_of_seq. lia. Qed.

(** A slot outside the table reads as an unused process. *)
Lemma proc_at_out s j : (length (pt_proc s) <= j)%nat -> proc_at s j = proc0.
Proof. intros. unfold proc_at. by rewrite nth_overflow. Qed.

Lemma wakeup1_life pol c s j :
  life (proc_at (wakeup1 pol c s) j) = life (roused c (proc_at s j)).
Proof.
  destruct (all_procs_spec s) as [Hnd Hall].
  destruct (wakeup1_loop_spec pol c (all_procs s) s Hnd) as (_ & P & _); [intros i; apply Hall|].
  unfold wakeup1. rewrite P. destruct (decide _) as [|Hj]; [done|].
  rewrite Hall in Hj. by rewrite proc_at_out by lia.
Qed.

Lemma wakeup1_frame pol c s : let s' := wakeup1 pol c s in
  length (pt_proc s') = length (pt_proc s) /\ pt_lock s' = pt_lock s /\
  pt_nextpid s' = pt_nextpid s /\ pt_initproc s' = pt_initproc s /\
  pt_cur s' = pt_cur s /\ pt_ticks s' = pt_ticks s.
Proof.
  destruct (all_procs_spec s) as [Hnd Hall].
  destruct (wakeup1_loop_spec pol c (all_procs s) s Hnd) as (L & _ & K); [intros i; apply Hall|].
  by split.
Qed.

(** [wakeup] makes exactly the processes sleeping on the channel runnable, and
    changes nothing else of any process (up to its scheduling statistics), whatever
    the scheduler: afterwards nobody sleeps on the channel. *)
Theorem wakeup_spec pol c s : pt_lock s = false ->
  exists s', wakeup pol c s = Ret tt s' /\ pt_lock s' = false /\ pt_cur s' = pt_cur s /\
    (forall j, life (proc_at s' j) = life (roused c (proc_at s j))) /\
    (forall j, state_of s' j = SLEEPING -> pr_chan (proc_at s' j) <> Some c).
Proof.
  intros Hl. set (s1 := set_pt_lock true s). exists (set_pt_lock false (wakeup1 pol c s1)).
  destruct (wakeup1_frame pol c s1) as (L & K1 & _ & _ & K2 & _).
  assert (P : forall j, life (proc_at (set_pt_lock false (wakeup1 pol c s1)) j) =
    life (roused c (proc_at s j))) by (intros j; apply (wakeup1_life pol c s1)).
  split; [|split; [done|split; [done|split; [done|]]]].
  - unfold wakeup. rewrite (run_bind_zoom _ _ _ _ tt true) by (simpl; by rewrite Hl). mrun.
    apply (zoom_eq pt_lock_lens). simpl. fold s1. by rewrite K1.
  - intros j. specialize (P j). set (p' := proc_at _ j) in P. unfold state_of. fold p'.
    assert (E1 : pr_state p' = pr_state (roused c (proc_at s j))) by life_field.
    assert (E2 : pr_chan p' = pr_chan (roused c (proc_at s j))) by life_field.
    rewrite E1, E2. unfold roused.
    destruct (bool_decide_reflect (pr_state (proc_at s j) = SLEEPING)); simpl; [|done].
    by destruct (bool_decide_reflect (pr_chan (proc_at s j) = Some c)).
Qed.

(** The process table as the components below proc.c see it. *)
Definition current {A} (f : proc -> A) (d : A) (s : ptab) : A :=
  match pt_cur s with Some i => f (proc_at s i) | None => d end.
Lemma current_wakeup1 {A} (f : proc -> A) d pol c s : (forall x, f (life x) = f x) ->
  (forall x, f (set_pr_state RUNNABLE x) = f x) -> current f d (wakeup1 pol c s) = current f d s.
Proof.
  intros Hf Hr. destruct (wakeup1_frame pol c s) as (_ & _ & _ & _ & K & _).
  unfold current. rewrite K. destruct (pt_cur s) as [i|]; [|done].
  rewrite (life_inj f _ _ Hf (wakeup1_life pol c s i)). unfold roused. by destruct (_ && _).
Qed.
#[export] Program Instance ptab_iface (pol : policy) : ProcIface ptab := {
  cur_pid := current pr_pid 0;
  cur_killed := current pr_killed false;
  Iface.wakeup c s := wakeup1 pol c s
}.
Next Obligation. intros. by apply current_wakeup1. Qed.
Next Obligation. intros. by apply current_wakeup1. Qed.

(** ** Kill *)

(** What [kill] does to its victim. *)
Definition struck (p : proc) : proc :=
  let p := set_pr_killed true p in
  if bool_decide (pr_state p = SLEEPING) then set_pr_state RUNNABLE p else p.

Lemma struck_awake p : pr_state p <> SLEEPING -> struck p = set_pr_killed true p.
Proof. intros H. unfold struck. cbv zeta. by rewrite bool_decide_eq_false_2. Qed.

Lemma unlock_lock s : pt_lock s = false -> set_pt_lock false (set_pt_lock true s) = s.
Proof. destruct s. simpl. by intros ->. Qed.

Lemma upd_proc_twice i f g s : (i < length (pt_proc s))%nat ->
  upd_proc i f (upd_proc i g s) = upd_proc i (fun p => f (g p)) s.
Proof.
  intros Hi. unfold upd_proc at 1. rewrite proc_upd_eq by done. unfold upd_proc, set_pt_proc.
  simpl. by rewrite list_insert_insert_eq.
Qed.

(** Under the lock of the table. *)
Lemma run_lock_pt s {B} (k : unit -> M ptab B) : pt_lock s = false ->
  bind (zoom pt_lock_lens spin_acquire) k s = k tt (set_pt_lock true s).
Proof. intros Hl. apply (run_bind_zoom pt_lock_lens _ _ _ tt true). simpl. by rewrite Hl. Qed.
Lemma run_unlock_pt s {B} (k : unit -> M ptab B) : pt_lock s = true ->
  bind (zoom pt_lock_lens spin_release) k s = k tt (set_pt_lock false s).
Proof. intros Hl. apply (run_bind_zoom pt_lock_lens _ _ _ tt false). simpl. by rewrite Hl. Qed.

(** [kill] on every branch: the first process with the pid is marked and woken if it
    sleeps, or nothing changes and -1 is returned. *)
Theorem kill_spec pid s : pt_lock s = false ->
  (exists i, first_with s (fun i => pr_pid (proc_at s i) =? pid) i /\
     kill pid s = Ret 0 (upd_proc i struck s)) \/
  ((forall i, (i < length (pt_proc s))%nat -> pr_pid (proc_at s i) <> pid) /\
     kill pid s = Ret (-1) s).
Proof.
  intros Hl. unfold kill. rewrite run_lock_pt by done. mrun.
  change (all_procs (set_pt_lock true s)) with (all_procs s).
  change (fun i => pr_pid (proc_at (set_pt_lock true s) i) =? pid) with
    (fun i => pr_pid (proc_at s i) =? pid).
  destruct (find_proc _ _) as [i|] eqn:E; [left|right].
  - apply find_all in E. pose proof E as [Hi _]. exists i. split; [done|]. mrun.
    unfold is_state, state_of. change (proc_at (set_pt_lock true s) i) with (proc_at s i).
    destruct (bool_decide (pr_state (proc_at s i) = SLEEPING)) eqn:Es; mrun;
      rewrite run_unlock_pt by done; unfold ret; f_equal.
    + rewrite upd_proc_twice by done. unfold upd_proc, set_pt_proc, set_pt_lock. simpl.
      rewrite Hl. do 2 f_equal. unfold struck. cbv zeta. simpl. by rewrite Es.
    + unfold upd_proc, set_pt_proc, set_pt_lock. simpl. rewrite Hl. do 2 f_equal.
      unfold struck. cbv zeta. simpl. by rewrite Es.
  - split.
    + intros i Hi. apply find_proc_None in E. rewrite Forall_forall in E.
      specialize (E i). rewrite (proj2 (all_procs_spec s)) in E. specialize (E Hi). lia.
    + rewrite run_unlock_pt by done. unfold ret. f_equal. by apply unlock_lock.
Qed.

(** ** Claiming a slot *)

Lemma claim_run s : pt_lock s = false ->
  allocproc_claim s = match find_proc (is_state UNUSED s) (all_procs s) with
    | Some i => Ret (Some i) (set_pt_nextpid (s32 (pt_nextpid s + 1))
        (upd_proc i (fun p => set_pr_pid (pt_nextpid s) (set_pr_state EMBRYO p)) s))
    | None => Ret None s
    end.
Proof.
  intros Hl. unfold allocproc_claim. rewrite run_lock_pt by done. mrun.
  change (all_procs (set_pt_lock true s)) with (all_procs s).
  change (is_state UNUSED (set_pt_lock true s)) with (is_state UNUSED s).
  destruct (find_proc _ _) as [i|] eqn:E.
  - apply find_all in E as [Hi _]. mrun. rewrite run_unlock_pt by done. unfold ret. f_equal.
    rewrite upd_proc_twice by done. unfold upd_proc, set_pt_proc, set_pt_lock, set_pt_nextpid.
    simpl. by rewrite Hl.
  - rewrite run_unlock_pt by done. unfold ret. f_equal. by apply unlock_lock.
Qed.

(** Pids below [nextpid], and no two slots with the same one unless it is 0. *)
Record pids_ok (s : ptab) : Prop := {
  po_next : 0 < pt_nextpid s;
  po_range i : 0 <= pr_pid (proc_at s i) < pt_nextpid s;
  po_inj i j : pr_pid (proc_at s i) = pr_pid (proc_at s j) -> pr_pid (proc_at s i) <> 0 -> i = j
}.

(** A new process gets the first unused slot and a pid no other slot has; the pids
    stay distinct. No slot is claimed only when none is unused. *)
Theorem allocproc_fresh s : pids_ok s -> pt_lock s = false -> pt_nextpid s < 2 ^ 31 - 1 ->
  match allocproc_claim s with
  | Ret (Some i) s' => first_with s (is_state UNUSED s) i /\ state_of s' i = EMBRYO /\
      pids_ok s' /\ pr_pid (proc_at s' i) = pt_nextpid s /\
      forall j, j <> i -> proc_at s' j = proc_at s j /\ pr_pid (proc_at s j) <> pt_nextpid s
  | Ret None s' => s' = s /\ forall i, (i < length (pt_proc s))%nat -> state_of s i <> UNUSED
  | _ => False
  end.
Proof.
  intros [H1 H2 H3] Hl Hb. rewrite claim_run by done.
  destruct (find_proc _ _) as [i|] eqn:E.
  2: { split; [done|]. intros i Hi Hs. apply find_proc_None in E. rewrite Forall_forall in E.
       specialize (E i). rewrite (proj2 (all_procs_spec s)) in E.
       apply is_state_spec in Hs. rewrite E in Hs; done. }
  apply find_all in E. pose proof E as [Hi _].
  assert (Hp : forall j, proc_at (set_pt_nextpid (s32 (pt_nextpid s + 1))
      (upd_proc i (fun p => set_pr_pid (pt_nextpid s) (set_pr_state EMBRYO p)) s)) j =
    if decide (i = j) then set_pr_pid (pt_nextpid s) (set_pr_state EMBRYO (proc_at s i))
    else proc_at s j).
  { intros j. exact (proc_upd i (fun p => set_pr_pid (pt_nextpid s) (set_pr_state EMBRYO p)) s j Hi). }
  split; [done|]. split; [unfold state_of; by rewrite Hp, decide_True|]. split; [|split].
  - split; cbn [pt_nextpid set_pt_nextpid].
    + rewrite s32_small; lia.
    + intros j. rewrite Hp, s32_small by lia.
      destruct (decide (i = j)); [simpl; lia|]. specialize (H2 j). lia.
    + intros j k. rewrite !Hp. pose proof (H2 j). pose proof (H2 k).
      destruct (decide (i = j)), (decide (i = k)); simpl; subst; try done; try lia. apply H3.
  - by rewrite Hp, decide_True.
  - intros j Hj. rewrite Hp, decide_False by done. split; [done|]. specialize (H2 j). lia.
Qed.

(** [kill(0)] strikes an unused slot: it succeeds, and the next process that gets
    the slot is killed from the start, although nobody has killed it. *)
Theorem kill_zero_poisons s i : pt_lock s = false ->
  first_with s (is_state UNUSED s) i -> first_with s (fun j => pr_pid (proc_at s j) =? 0) i ->
  exists s1 s2, kill 0 s = Ret 0 s1 /\ allocproc_claim s1 = Ret (Some i) s2 /\
    pr_killed (proc_at s2 i) = true /\ state_of s2 i = EMBRYO.
Proof.
  intros Hl Hu Hz. pose proof Hu as (Hi & Hs & Hlt).
  assert (Ek : kill 0 s = Ret 0 (upd_proc i struck s)).
  { unfold kill. rewrite run_lock_pt by done. mrun.
    change (all_procs (set_pt_lock true s)) with (all_procs s).
    change (fun i => pr_pid (proc_at (set_pt_lock true s) i) =? 0) with
      (fun i => pr_pid (proc_at s i) =? 0).
    rewrite (proj2 (find_all _ _ _) Hz). mrun.
    apply is_state_spec in Hs. unfold is_state. change (state_of (set_pt_lock true s) i) with (state_of s i).
    rewrite Hs. mrun. rewrite run_unlock_pt by done. unfold ret. f_equal.
    unfold upd_proc, set_pt_proc, set_pt_lock. simpl. rewrite Hl. do 2 f_equal.
    unfold struck. cbv zeta. simpl. unfold state_of in Hs. by rewrite Hs. }
  set (s1 := upd_proc i struck s) in *.
  assert (Hst : forall j, is_state UNUSED s1 j = is_state UNUSED s j).
  { intros j. unfold is_state, state_of, s1. rewrite proc_upd by done.
    destruct (decide (i = j)) as [<-|]; [|done]. apply is_state_spec in Hs. unfold state_of in Hs.
    by rewrite struck_awake by (by rewrite Hs). }
  assert (Hf : find_proc (is_state UNUSED s1) (all_procs s1) = Some i).
  { apply find_all. split; [unfold s1; by rewrite len_upd_proc|]. split; [by rewrite Hst|].
    intros j Hj. rewrite Hst. auto. }
  eexists s1, _. split; [done|]. split.
  { rewrite claim_run by done. by rewrite Hf. }
  assert (Hi1 : (i < length (pt_proc s1))%nat) by (unfold s1; by rewrite len_upd_proc).
  unfold state_of. cbn [pt_nextpid set_pt_nextpid].
  change (proc_at (set_pt_nextpid ?n ?t) i) with (proc_at t i). rewrite proc_upd_eq by done.
  split; [|done]. cbn [pr_killed set_pr_pid set_pr_state]. unfold s1. rewrite proc_upd_eq by done.
  apply is_state_spec in Hs. unfold state_of in Hs. by rewrite struck_awake by (by rewrite Hs).
Qed.

(** ** Orphans *)

(** The children of [cur] are passed to [init]. *)
Definition adopt (cur init : nat) (p : proc) : proc :=
  if bool_decide (pr_parent p = Some cur) then set_pr_parent (Some init) p else p.
Definition zombie_child (s : ptab) (cur i : nat) : bool :=
  bool_decide (pr_parent (proc_at s i) = Some cur) && is_state ZOMBIE s i.
Definition rouse_if (b : bool) (c : chan) (p : proc) : proc := if b then roused c p else p.

Lemma adopt_life cur init p : life (adopt cur init p) = adopt cur init (life p).
Proof. unfold adopt. destruct p. simpl. by destruct (bool_decide _). Qed.
Lemma rouse_if_life b c p : life (rouse_if b c p) = rouse_if b c (life p).
Proof. destruct b; [apply roused_life|done]. Qed.
Lemma roused_adopt c cur init p : roused c (adopt cur init p) = adopt cur init (roused c p).
Proof.
  unfold roused, adopt. destruct (bool_decide (pr_parent p = Some cur)) eqn:Ep.
  - change (pr_state (set_pr_parent (Some init) p)) with (pr_state p).
    change (pr_chan (set_pr_parent (Some init) p)) with (pr_chan p).
    destruct (_ && _); [|by rewrite Ep].
    change (pr_parent (set_pr_state RUNNABLE p)) with (pr_parent p). by rewrite Ep.
  - destruct (_ && _); [|by rewrite Ep].
    change (pr_parent (set_pr_state RUNNABLE p)) with (pr_parent p). by rewrite Ep.
Qed.
Lemma roused_roused c p : roused c (roused c p) = roused c p.
Proof.
  unfold roused. destruct (bool_decide_reflect (pr_state p = SLEEPING)) as [E|E]; simpl.
  - destruct (bool_decide (pr_chan p = Some c)) eqn:Ec; simpl; [done|].
    by rewrite Ec, andb_false_r.
  - by rewrite bool_decide_eq_false_2.
Qed.
Lemma rouse_if_or b b' c p : rouse_if b c (rouse_if b' c p) = rouse_if (b || b') c p.
Proof. destruct b, b'; try done. apply roused_roused. Qed.
Lemma rouse_if_adopt b c cur init p : rouse_if b c (adopt cur init p) = adopt cur init (rouse_if b c p).
Proof. destruct b; [apply roused_adopt|done]. Qed.
Lemma rouse_if_parent b c p : pr_parent (rouse_if b c p) = pr_parent p.
Proof. unfold rouse_if, roused. destruct b; [|done]. by destruct (_ && _). Qed.
Lemma rouse_if_zombie b c p : bool_decide (pr_state (rouse_if b c p) = ZOMBIE) = bool_decide (pr_state p = ZOMBIE).
Proof.
  unfold rouse_if, roused. destruct b; [|done].
  destruct (bool_decide_reflect (pr_state p = SLEEPING)) as [E|]; simpl; [|done].
  destruct (bool_decide (pr_chan p = Some c)); [|done]. simpl. by rewrite E.
Qed.

(** One step of the loop. *)
Definition orphan_step (pol : policy) (cur init i : nat) (s : ptab) : ptab :=
  if bool_decide (pr_parent (proc_at s i) = Some cur) then
    let s := upd_proc i (set_pr_parent (Some init)) s in
    if is_state ZOMBIE s i then wakeup1 pol (ChProc init) s else s
  else s.

Lemma orphan_step_spec pol cur init i s j : (i < length (pt_proc s))%nat ->
  length (pt_proc (orphan_step pol cur init i s)) = length (pt_proc s) /\
  life (proc_at (orphan_step pol cur init i s) j) =
  life (rouse_if (zombie_child s cur i) (ChProc init)
    (if decide (i = j) then adopt cur init (proc_at s i) else proc_at s j)).
Proof.
  intros Hi. unfold orphan_step, zombie_child, adopt.
  destruct (bool_decide (pr_parent (proc_at s i) = Some cur)) eqn:Ep; cbn [andb].
  2: { split; [done|]. simpl. by destruct (decide (i = j)) as [<-|]. }
  cbv zeta. set (s1 := upd_proc i _ s).
  assert (Hz : is_state ZOMBIE s1 i = is_state ZOMBIE s i).
  { unfold is_state, state_of, s1. by rewrite proc_upd_eq. }
  assert (Hp : proc_at s1 j = if decide (i = j) then set_pr_parent (Some init) (proc_at s i) else proc_at s j).
  { unfold s1. by apply proc_upd. }
  assert (Hl : length (pt_proc s1) = length (pt_proc s)) by apply len_upd_proc.
  rewrite Hz. destruct (is_state ZOMBIE s i); simpl.
  - destruct (wakeup1_frame pol (ChProc init) s1) as (L & _). split; [lia|].
    by rewrite wakeup1_life, Hp.
  - split; [done|]. by rewrite Hp.
Qed.

Lemma exit_children_step pol i l cur init s :
  exit_children pol (i :: l) cur init s = exit_children pol l cur init (orphan_step pol cur init i s).
Proof. done. Qed.

Lemma zombie_child_life s s' b c cur i : life (proc_at s' i) = life (rouse_if b c (proc_at s i)) ->
  zombie_child s' cur i = zombie_child s cur i.
Proof.
  intros E. unfold zombie_child, is_state, state_of.
  assert (E1 : pr_parent (proc_at s' i) = pr_parent (rouse_if b c (proc_at s i))) by life_field.
  assert (E2 : pr_state (proc_at s' i) = pr_state (rouse_if b c (proc_at s i))) by life_field.
  rewrite E1, E2, rouse_if_parent. f_equal. apply rouse_if_zombie.
Qed.

Lemma exit_children_loop pol cur init l s j : NoDup l ->
  (forall i, i ∈ l -> (i < length (pt_proc s))%nat) ->
  life (proc_at (exit_children pol l cur init s) j) =
  life (rouse_if (existsb (zombie_child s cur) l) (ChProc init)
    (if decide (j ∈ l) then adopt cur init (proc_at s j) else proc_at s j)).
Proof.
  revert s. induction l as [|i l IH]; intros s Hnd Hl; [done|].
  apply NoDup_cons in Hnd as [Hi Hnd]. pose proof (Hl i ltac:(by left)) as Hil.
  rewrite exit_children_step. set (s1 := orphan_step pol cur init i s).
  assert (Hs1 := fun k => orphan_step_spec pol cur init i s k Hil). fold s1 in Hs1.
  rewrite IH; [|done|intros k Hk; rewrite (proj1 (Hs1 k)); apply Hl; by right].
  assert (Hex : existsb (zombie_child s1 cur) l = existsb (zombie_child s cur) l).
  { clear IH Hl. induction l as [|k l IHl]; [done|]. simpl. apply not_elem_of_cons in Hi as [Hne Hi].
    apply NoDup_cons in Hnd as [_ Hnd]. rewrite IHl by done. f_equal.
    destruct (Hs1 k) as [_ E]. rewrite decide_False in E by done. by eapply zombie_child_life. }
  rewrite Hex. destruct (Hs1 j) as [_ E]. cbn [existsb]. rewrite orb_comm, <-rouse_if_or.
  rewrite !rouse_if_life. f_equal. destruct (decide (j ∈ l)) as [Hj|Hj].
  - rewrite decide_False in E by (intros ->; done). rewrite decide_True by (by right).
    rewrite adopt_life, E, <-adopt_life, <-rouse_if_adopt. by rewrite rouse_if_life.
  - rewrite E, rouse_if_life. destruct (decide (i = j)) as [<-|Hne].
    + by rewrite decide_True by (by left).
    + by rewrite decide_False by (rewrite elem_of_cons; intros [->|]; done).
Qed.

(** Orphans. [exit] passes every child of the caller to [initproc], which is woken if
    one of them is a zombie; nothing else of any process changes, and afterwards no
    process has the exiting one as its parent. *)
Theorem exit_children_spec pol cur init s : init <> cur ->
  let s' := exit_children pol (all_procs s) cur init s in
  (forall j, life (proc_at s' j) = life (rouse_if (existsb (zombie_child s cur) (all_procs s))
    (ChProc init) (adopt cur init (proc_at s j)))) /\
  forall j, pr_parent (proc_at s' j) <> Some cur.
Proof.
  intros Hne s'. destruct (all_procs_spec s) as [Hnd Hall].
  assert (H : forall j, life (proc_at s' j) = life (rouse_if (existsb (zombie_child s cur) (all_procs s))
    (ChProc init) (adopt cur init (proc_at s j)))).
  { intros j. unfold s'. rewrite exit_children_loop by (done || intros i; apply Hall).
    destruct (decide _) as [|Hj]; [done|]. rewrite Hall in Hj. by rewrite (proc_at_out s j) by lia. }
  split; [done|]. intros j. specialize (H j). set (p := rouse_if _ _ _) in H.
  assert (E : pr_parent (proc_at s' j) = pr_parent p) by life_field.
  rewrite E. unfold p. rewrite rouse_if_parent. unfold adopt.
  destruct (bool_decide_reflect (pr_parent (proc_at s j) = Some cur)); [|done]. simpl. congruence.
Qed.

(** ** Wait *)

Section Wait.
Context {S : Type} `{KernOps S}.
Variable pol : policy.
Variable pt : lens S ptab.
Context `{!LensLaws pt}.
(** Freeing a kernel stack and an address space does not touch the process table. *)
Hypothesis kfree_frame : forall v s, exists s', k_kfree v s = Ret tt s' /\ lget pt s' = lget pt s.
Hypothesis freevm_frame : forall v s, exists s', k_freevm v s = Ret tt s' /\ lget pt s' = lget pt s.

Lemma run_on_pt {A B} (m : M ptab A) (k : A -> M S B) s a t : m (lget pt s) = Ret a t ->
  bind (on_pt pt m) k s = k a (lset pt t s).
Proof. intros E. by apply (run_bind_zoom pt). Qed.
Lemma run_updp {B} i f (k : unit -> M S B) s :
  bind (updp pt i f) k s = k tt (lset pt (upd_proc i f (lget pt s)) s).
Proof. by apply run_on_pt. Qed.
Lemma run_getpt {B} (k : ptab -> M S B) s : bind (getpt pt) k s = k (lget pt s) s.
Proof. done. Qed.
Lemma run_myproc {B} (k : nat -> M S B) s i : pt_cur (lget pt s) = Some i ->
  bind (myproc pt) k s = k i s.
Proof. intros E. unfold myproc. mrun. rewrite run_getpt, E. done. Qed.
Lemma lock_pt t : pt_lock t = false -> zoom pt_lock_lens spin_acquire t = Ret tt (set_pt_lock true t).
Proof. intros E. apply (zoom_eq pt_lock_lens). simpl. by rewrite E. Qed.
Lemma unlock_pt t : pt_lock t = true -> zoom pt_lock_lens spin_release t = Ret tt (set_pt_lock false t).
Proof. intros E. apply (zoom_eq pt_lock_lens). simpl. by rewrite E. Qed.

(** The child [wait] reaps: the first zombie child in the table. *)
Lemma wait_scan_spec t cur : match wait_scan t cur with
  | inl i => first_with t (fun i => is_child t cur i && is_state ZOMBIE t i) i
  | inr havekids =>
      (forall i, (i < length (pt_proc t))%nat -> is_child t cur i = true -> state_of t i <> ZOMBIE) /\
      (havekids = true <-> exists i, (i < length (pt_proc t))%nat /\ is_child t cur i = true)
  end.
Proof.
  unfold wait_scan. destruct (find_proc _ _) as [i|] eqn:E; [by apply find_all|].
  apply find_proc_None in E. rewrite Forall_forall in E. split.
  - intros i Hi Hc Hz. specialize (E i). rewrite (proj2 (all_procs_spec t)) in E.
    apply is_state_spec in Hz. specialize (E Hi). by rewrite Hc, Hz in E.
  - rewrite existsb_exists. split; intros (i & Hi & Hc); exists i; (split; [|done]);
      [apply (all_procs_spec t); by apply list_elem_of_In|
       apply list_elem_of_In; by apply (all_procs_spec t)].
Qed.

(** The slot after the child is reaped at tick [tk]. *)
Definition reaped (tk : Z) (p : proc) : proc := set_pr_etime tk (reap p).

(** [wait] on every branch. A zombie child is reaped: its pid is returned and its slot
    is unused again; with no child, or a caller that was killed, -1; otherwise the caller
    sleeps on its own channel under the lock, so that an exiting child finds it asleep. *)
Theorem wait_spec s cur : pt_lock (lget pt s) = false -> pt_cur (lget pt s) = Some cur ->
  let t := lget pt s in
  match wait_scan t cur with
  | inl i => exists s', wait pt s = Ret (pr_pid (proc_at t i)) s' /\
      lget pt s' = upd_proc i (reaped (pt_ticks t)) t
  | inr havekids =>
      if negb havekids || pr_killed (proc_at t cur)
      then exists s', wait pt s = Ret (-1) s' /\ lget pt s' = t
      else exists s', wait pt s = Asleep (ChProc cur) s' /\
        lget pt s' = set_pt_lock true
          (upd_proc cur (fun p => set_pr_state SLEEPING (set_pr_chan (Some (ChProc cur)) p)) t)
  end.
Proof.
  intros Hl Hc t. unfold wait. rewrite (run_myproc _ _ cur) by done.
  rewrite (run_on_pt _ _ _ tt (set_pt_lock true t)) by (by apply lock_pt).
  rewrite run_getpt, lget_lset.
  change (wait_scan (set_pt_lock true t) cur) with (wait_scan t cur).
  pose proof (wait_scan_spec t cur) as Hw. destruct (wait_scan t cur) as [i|havekids].
  - destruct Hw as [Hi _]. change (proc_at (set_pt_lock true t) i) with (proc_at t i).
    set (s1 := lset pt (set_pt_lock true t) s).
    destruct (kfree_frame (pr_kstack (proc_at t i)) s1) as (s2 & E2 & T2).
    erewrite bind_eq by exact E2. rewrite run_updp. set (s3 := lset pt _ s2).
    destruct (freevm_frame (pr_pgdir (proc_at t i)) s3) as (s4 & E4 & T4).
    erewrite bind_eq by exact E4. rewrite run_updp, run_getpt, lget_lset, run_updp, lget_lset.
    set (t5 := upd_proc i _ _).
    assert (Et : t5 = set_pt_lock true (upd_proc i (reaped (pt_ticks t)) t)).
    { unfold t5. rewrite T4. unfold s3. rewrite lget_lset, T2. unfold s1. rewrite lget_lset.
      rewrite !upd_proc_twice by (rewrite ?len_upd_proc; done). done. }
    rewrite Et. erewrite run_on_pt by (rewrite lget_lset; by apply unlock_pt).
    eexists. split; [done|]. rewrite lget_lset. unfold t. by destruct (lget pt s); simpl in *; subst.
  - change (pr_killed (proc_at (set_pt_lock true t) cur)) with (pr_killed (proc_at t cur)).
    destruct (negb havekids || _).
    + erewrite run_on_pt by (rewrite lget_lset; by apply unlock_pt).
      eexists. split; [done|]. rewrite lget_lset. by apply unlock_lock.
    + assert (Hct : pt_cur (set_pt_lock true t) = Some cur) by done.
      erewrite run_on_pt by (rewrite lget_lset; unfold sleep_mark; mrun; rewrite Hct; mrun; done).
      eexists. split; [done|]. rewrite lget_lset. unfold set_pt_lock at 1, upd_proc at 1 3.
      destruct (decide (cur < length (pt_proc t))%nat) as [Hi|Hi].
      * rewrite proc_upd_eq by done. unfold upd_proc, set_pt_proc. simpl.
        by rewrite list_insert_insert_eq.
      * unfold upd_proc, set_pt_proc. simpl. by rewrite !list_insert_ge by (rewrite ?length_insert; lia).
Qed.
End Wait.

(** ** A small table

    Init (pid 1) sleeps in [wait]; pid 2 runs; its child, pid 3, is a zombie; the last
    slot is unused. *)
Definition family : ptab :=
  Ptab false
    [set_pr_chan (Some (ChProc 0)) (set_pr_state SLEEPING (set_pr_pid 1 proc0));
     set_pr_parent (Some 0%nat) (set_pr_state RUNNING (set_pr_pid 2 proc0));
     set_pr_parent (Some 1%nat) (set_pr_state ZOMBIE (set_pr_pid 3 proc0));
     proc0]
    4 (Some 0%nat) (Some 1%nat) 10 (replicate PQ_COUNT ring0) 0.

Lemma wakeup_spec_witness : exists s', wakeup PBS (ChProc 0) family = Ret tt s' /\
  life (proc_at s' 0) = set_pr_state RUNNABLE (proc_at family 0).
Proof.
  destruct (wakeup_spec PBS (ChProc 0) family eq_refl) as (s' & E & _ & _ & H & _).
  exists s'. split; [exact E|]. rewrite H. reflexivity.
Defined.

Lemma kill_spec_witness : kill 1 family = Ret 0 (upd_proc 0 struck family) /\ kill 9 family = Ret (-1) family.
Proof.
  split.
  - destruct (kill_spec 1 family eq_refl) as [(i & (Hi & Hp & Hn) & E)|[H _]].
    + destruct i as [|i]; [exact E|]. specialize (Hn 0%nat ltac:(lia)). discriminate Hn.
    + exfalso. apply (H 0%nat); [vm_compute; lia|reflexivity].
  - destruct (kill_spec 9 family eq_refl) as [(i & (Hi & Hp & _) & E)|[_ E]]; [|exact E].
    exfalso. do 4 (destruct i as [|i]; [discriminate Hp|]). vm_compute in Hi. lia.
Defined.

Lemma family_pids : pids_ok family.
Proof.
  split; [done| |].
  - intros i. do 4 (destruct i as [|i]; [vm_compute; split; [discriminate|reflexivity]|]).
    rewrite proc_at_out by (simpl; lia). vm_compute. split; [discriminate|reflexivity].
  - intros i j. do 4 (destruct i as [|i]; [do 4 (destruct j as [|j]; [by vm_compute|]);
      rewrite (proc_at_out _ (S (S (S (S j))))) by (simpl; lia); by vm_compute|]).
    by rewrite (proc_at_out _ (S (S (S (S i))))) by (simpl; lia).
Qed.

Lemma allocproc_fresh_witness : exists s', allocproc_claim family = Ret (Some 3%nat) s' /\
  pids_ok s' /\ pr_pid (proc_at s' 3) = 4.
Proof.
  pose proof (allocproc_fresh family family_pids eq_refl ltac:(reflexivity)) as H.
  destruct (allocproc_claim family) as [[i|] s'| | |] eqn:E; try contradiction.
  - assert (i = 3%nat) as -> by (vm_compute in E; injection E; congruence).
    exists s'. split; [reflexivity|]. split; apply H.
  - vm_compute in E. discriminate E.
Defined.

Lemma kill_zero_poisons_witness : exists s1 s2, kill 0 family = Ret 0 s1 /\
  allocproc_claim s1 = Ret (Some 3%nat) s2 /\ pr_killed (proc_at s2 3) = true /\
  state_of s2 3 = EMBRYO.
Proof.
  apply (kill_zero_poisons family 3 eq_refl).
  - split; [vm_compute; lia|]. split; [reflexivity|].
    intros j Hj. do 3 (destruct j as [|j]; [reflexivity|]). lia.
  - split; [vm_compute; lia|]. split; [reflexivity|].
    intros j Hj. do 3 (destruct j as [|j]; [reflexivity|]). lia.
Defined.

(** The running process exits: its zombie child goes to init, which wakes up. *)
Lemma exit_children_spec_witness :
  let s' := exit_children DEFAULT (all_procs family) 1 0 family in
  state_of s' 0 = RUNNABLE /\ pr_parent (proc_at s' 2) = Some 0%nat.
Proof.
  destruct (exit_children_spec DEFAULT 1 0 family ltac:(discriminate)) as [H _].
  split.
  - pose proof (f_equal pr_state (H 0%nat)) as E. exact E.
  - pose proof (f_equal pr_parent (H 2%nat)) as E. exact E.
Defined.

(** A kernel in which every call succeeds and is not recorded. *)
Definition bare_kernel : KernOps ptab := {|
  k_kalloc := ret 4096; k_kfree := fun _ => ret tt; k_setupkvm := ret 4096;
  k_copyuvm := fun _ _ => ret 4096; k_freevm := fun _ => ret tt;
  k_allocuvm := fun _ _ n => ret n; k_deallocuvm := fun _ _ n => ret n;
  k_filedup := ret; k_fileclose := fun _ => ret tt; k_idup := ret; k_iput := fun _ => ret tt;
  k_begin_op := ret tt; k_end_op := ret tt
|}.
Definition whole : lens ptab ptab := Lens id (fun t _ => t).
#[export] Instance whole_laws : LensLaws whole.
Proof. by split. Qed.

Lemma wait_spec_witness : exists s', wait (H := bare_kernel) whole family = Ret 3 s' /\
  state_of s' 2 = UNUSED.
Proof.
  destruct (wait_spec (H := bare_kernel) whole (fun v s => ex_intro _ s (conj eq_refl eq_refl))
    (fun v s => ex_intro _ s (conj eq_refl eq_refl)) family 1 eq_refl eq_refl) as (s' & E & T).
  exists s'. split; [exact E|]. change (lget whole s') with s' in T. rewrite T. reflexivity.
Defined.
