(* ===== verification/MlfqPick.v ===== *)
(** * What the multi-level feedback scheduler runs

    One pass of the scheduler's loop over the five queues: refilling empty queues,
    dropping dead entries, the choice, and the bookkeeping when the process returns. *)
From S2P Require Import Prelude Param Iface Proc Mlfq Sched ProcSpec.

(** ** Refilling the empty queues *)

Lemma own_pid_life s s' p : same_life s s' -> own_pid s p -> own_pid s' p.
Proof.
  intros H [H1 H2 H3]. split; rewrite ?(sl_len _ _ H); try done.
  intros j Hj. rewrite !(life_pid _ _ _ (sl_proc _ _ H _)). auto.
Qed.

Lemma getQIdx_push s i j : (i < length (pt_proc s))%nat ->
  getQIdx (pushBack (getQIdx s i) i s) j = getQIdx s j.
Proof.
  intros Hi. unfold pushBack. destruct (pid_queued _ _ _ _ _ _); [done|]. cbv zeta.
  set (s1 := upd_stat i (set_ps_q _) s). unfold getQIdx. rewrite !proc_upd_ring. unfold upd_stat.
  assert (Hl : length (pt_proc s1) = length (pt_proc s)) by (apply len_upd_proc).
  rewrite proc_upd by lia. unfold s1, upd_stat. rewrite !proc_upd by done.
  destruct (decide (i = i)); [|done]. by destruct (decide (i = j)) as [<-|].
Qed.

Lemma queue_empty s f q : mlfq s f -> valid_q s q -> (rg_size (ring_at s q) =? 0) = bool_decide (f q = []).
Proof.
  intros Hm Hq. rewrite (ri_size _ _ (mq_ring _ _ Hm q Hq)). unfold zlen.
  destruct (f q); [done|]. rewrite bool_decide_eq_false_2 by done. simpl. lia.
Qed.

Lemma valid_same s s' f f' q : mlfq s f -> mlfq s' f' -> valid_q s q <-> valid_q s' q.
Proof. intros H H'. unfold valid_q. by rewrite (mq_len _ _ H), (mq_len _ _ H'). Qed.

Record refilled (l : list nat) (s s' : ptab) (f f' : Z -> list nat) : Prop := {
  rf_mlfq : mlfq s' f';
  rf_life : same_life s s';
  rf_q j : getQIdx s' j = getQIdx s j;
  rf_keep q : valid_q s q -> f q <> [] -> f' q = f q;
  rf_new q : valid_q s q -> f q = [] -> f' q = [] \/
    exists i, i ∈ l /\ is_state RUNNABLE s i = true /\ f' q = [i];
  rf_all i : i ∈ l -> is_state RUNNABLE s i = true -> f' (getQIdx s i) <> []
}.

(** The hypothesis of the refilling: a runnable process has a queue and its pid. *)
Definition runnable_ok (s : ptab) (i : nat) : Prop :=
  is_state RUNNABLE s i = true -> valid_q s (getQIdx s i) /\ own_pid s i.

Lemma refill_one s f i : mlfq s f -> is_state RUNNABLE s i = true -> runnable_ok s i ->
  f (getQIdx s i) = [] ->
  let q := getQIdx s i in
  mlfq (pushBack q i s) (with_queue f q [i]) /\ same_life s (pushBack q i s) /\
  forall j, getQIdx (pushBack q i s) j = getQIdx s j.
Proof.
  intros Hm Hr Hok Hf q. fold q in Hf. destruct (Hok Hr) as [Hv Ho]. split; [|split].
  - destruct (push_unqueued s f q i Hm Hv Ho) as [H _]; [|by rewrite Hf in H].
    intros q' Hq' [k Hk]%list_elem_of_lookup.
    destruct (mq_pos _ _ Hm q' k i Hq' Hk) as (_ & E & _). rewrite <-E in Hk.
    fold q in Hk. by rewrite Hf in Hk.
  - apply pushBack_life.
  - intros j. apply getQIdx_push, Ho.
Qed.

Lemma refill_spec l s f : mlfq s f -> (forall i, i ∈ l -> runnable_ok s i) ->
  exists s' f', mlfq_refill l s = Ret tt s' /\ refilled l s s' f f'.
Proof.
  revert s f. induction l as [|i l IH]; intros s f Hm Hok; cbn [mlfq_refill].
  { exists s, f. split; [done|]. split; try done; [|by intros ? ?%elem_of_nil]. by left. }
  mrun. destruct (is_state RUNNABLE s i) eqn:Er; mrun.
  2: { destruct (IH s f Hm) as (s' & f' & E & [F1 F2 F3 F4 F5 F6]); [intros; apply Hok; by right|].
       exists s', f'. split; [done|]. split; try done.
       - intros q Hq H0. destruct (F5 q Hq H0) as [|(k & Hk & ?)]; [by left|right].
         exists k. split; [by right|done].
       - intros k [->|Hk]%elem_of_cons Hrk; [congruence|]. by apply F6. }
  pose proof (Hok i ltac:(by left)) as Hoki. destruct (Hoki Er) as [Hv Ho].
  set (q := getQIdx s i) in *.
  replace (q =? NO_Q_ALLOT) with false by (unfold valid_q, NO_Q_ALLOT in *; lia).
  rewrite (queue_empty s f) by done. destruct (bool_decide_reflect (f q = [])) as [Hf|Hf].
  - mrun. destruct (refill_one s f i Hm Er Hoki Hf) as (Hm1 & Hl1 & Hq1). fold q in Hm1, Hl1, Hq1.
    set (s1 := pushBack q i s) in *.
    destruct (IH s1 (with_queue f q [i]) Hm1) as (s' & f' & E & [F1 F2 F3 F4 F5 F6]).
    { intros j Hj Hrj. rewrite <-(is_state_life RUNNABLE _ _ Hl1 j j eq_refl) in Hrj.
      destruct (Hok j ltac:(by right) Hrj) as [A B]. rewrite Hq1. split.
      - by apply (valid_same s s1 f (with_queue f q [i])).
      - by apply (own_pid_life s). }
    assert (Hrs : forall j, is_state RUNNABLE s1 j = is_state RUNNABLE s j).
    { intros j. symmetry. by apply is_state_life. }
    assert (Hfq : f' q = [i]).
    { rewrite F4; rewrite ?with_eq; [done|by apply (valid_same s s1 f (with_queue f q [i]))|done]. }
    exists s', f'. split; [done|]. split; try done.
    + by transitivity s1.
    + intros j. by rewrite F3, Hq1.
    + intros q' Hq' H0. assert (q' <> q) by congruence.
      rewrite F4; rewrite ?with_ne by done; [done| |done].
      by apply (valid_same s s1 f (with_queue f q [i])).
    + intros q' Hq' H0. destruct (decide (q' = q)) as [->|Hne].
      { right. exists i. split; [by left|done]. }
      destruct (F5 q') as [|(k & Hk & Hrk & ?)]; [by apply (valid_same s s1 f (with_queue f q [i]))|
        by rewrite with_ne|by left|right].
      exists k. split; [by right|]. by rewrite <-Hrs.
    + intros j [->|Hj]%elem_of_cons Hrj; [fold q; by rewrite Hfq|].
      rewrite <-Hq1. apply F6; [done|by rewrite Hrs].
  - mrun. destruct (IH s f Hm) as (s' & f' & E & [F1 F2 F3 F4 F5 F6]); [intros; apply Hok; by right|].
    exists s', f'. split; [done|]. split; try done.
    + intros q' Hq' H0. destruct (F5 q' Hq' H0) as [|(k & Hk & ?)]; [by left|right].
      exists k. split; [by right|done].
    + intros k [->|Hk]%elem_of_cons Hrk; [|by apply F6]. fold q. by rewrite F4.
Qed.

(** ** The scan of the queues *)

(** The queue without the dead processes at its front. *)
Fixpoint drop_dead (s : ptab) (l : list nat) : list nat :=
  match l with
  | [] => []
  | i :: l' => if procIsDead s (Some i) then drop_dead s l' else l
  end.

Lemma drop_dead_split s l : exists d, l = d ++ drop_dead s l /\
  Forall (fun i => procIsDead s (Some i) = true) d.
Proof.
  induction l as [|i l (d & E & Hd)]; [by exists []|]. cbn [drop_dead].
  destruct (procIsDead s (Some i)) eqn:Ei; [|by exists []].
  exists (i :: d). split; [simpl; by f_equal|by constructor].
Qed.

Lemma procIsDead_same s s' p : pt_proc s' = pt_proc s -> procIsDead s' p = procIsDead s p.
Proof. intros E. unfold procIsDead, is_state, state_of, proc_at. by rewrite E. Qed.

Lemma drop_dead_same s s' l : pt_proc s' = pt_proc s -> drop_dead s' l = drop_dead s l.
Proof.
  intros E. induction l as [|i l IH]; [done|]. cbn [drop_dead].
  by rewrite (procIsDead_same s s' _ E), IH.
Qed.

(** Only the queues differ. *)
Definition queues_only (s s' : ptab) : Prop := s' = set_pt_queues (pt_queues s') s.
Lemma qo_proc s s' : queues_only s s' -> pt_proc s' = pt_proc s.
Proof. by intros ->. Qed.
Lemma qo_life s s' : queues_only s s' -> same_life s s'.
Proof. intros ->. by split. Qed.
Lemma qo_trans s s1 s2 : queues_only s s1 -> queues_only s1 s2 -> queues_only s s2.
Proof. unfold queues_only. intros E1 E2. by rewrite E2, E1 at 1. Qed.

Lemma mlfq_scan_spec q fuel s f : mlfq s f -> valid_q s q -> (length (f q) < fuel)%nat ->
  exists s', mlfq_scan fuel q s = Ret (head (drop_dead s (f q))) s' /\
    mlfq s' (with_queue f q (drop_dead s (f q))) /\ queues_only s s'.
Proof.
  revert s f. induction fuel as [|fuel IH]; intros s f Hm Hq Hf; [lia|].
  cbn [mlfq_scan]. mrun. rewrite (queue_empty s f) by done.
  destruct (bool_decide_reflect (f q = [])) as [H0|H0].
  { rewrite H0. exists s. split; [done|]. split; [|by destruct s]. eapply mlfq_ext; [|done].
    intros q'. unfold with_queue. destruct (Z.eqb_spec q' q) as [->|]; [by rewrite H0|done]. }
  destruct (f q) as [|i l] eqn:El; [done|].
  pose proof (mq_ring _ _ Hm q Hq) as Hr. rewrite El in Hr.
  assert (Hg : getFront q s = Ret (Some i) s).
  { unfold getFront. mrun. rewrite (queue_empty s f) by done.
    rewrite El, bool_decide_eq_false_2 by done. destruct Hr as [R1 R2 R3 R4].
    rewrite <-(pos_0 _ R1), (R4 0%nat i eq_refl). done. }
  erewrite bind_eq by exact Hg. cbn [drop_dead].
  destruct (procIsDead s (Some i)) eqn:Ed.
  - destruct (popFront_spec s f q i l Hm Hq El) as (s1 & E & Hm1 & Hp & _).
    assert (Hq1 : queues_only s s1) by (rewrite (run_popFront s q i l Hq Hr) in E; by simplify_eq).
    erewrite bind_eq by exact E. destruct (IH s1 (with_queue f q l) Hm1) as (s' & E' & Hm' & Hq').
    + by apply (valid_same s s1 f (with_queue f q l)).
    + rewrite with_eq. simpl in Hf. lia.
    + rewrite with_eq, (drop_dead_same s s1) in E', Hm' by done.
      exists s'. split; [done|]. split; [|by eapply qo_trans]. eapply mlfq_ext; [|exact Hm'].
      intros q'. apply with_with.
  - exists s. split; [done|]. split; [|by destruct s]. eapply mlfq_ext; [|done].
    intros q'. unfold with_queue. destruct (Z.eqb_spec q' q) as [->|]; [by rewrite El|done].
Qed.

(** Only dead processes left the front of the queues. *)
Definition dropped (s : ptab) (f f' : Z -> list nat) : Prop :=
  forall q, valid_q s q -> exists d, f q = d ++ f' q /\
    Forall (fun i => procIsDead s (Some i) = true) d.

Lemma drop_dead_head s l i : head (drop_dead s l) = Some i ->
  procIsDead s (Some i) = false /\ exists l', drop_dead s l = i :: l'.
Proof.
  induction l as [|j l IH]; [done|]. cbn [drop_dead].
  destruct (procIsDead s (Some j)) eqn:E; [done|]. intros [= <-]. eauto.
Qed.

Lemma mlfq_queues_spec k q s f : mlfq s f -> 0 <= q -> q + Z.of_nat k = Z.of_nat PQ_COUNT ->
  exists r s' f', mlfq_queues k q s = Ret r s' /\ mlfq s' f' /\ queues_only s s' /\
    dropped s f f' /\ (forall q', q' < q -> f' q' = f q') /\
    match r with
    | Some p => procIsDead s (Some p) = false /\
        exists q0 l, q <= q0 < Z.of_nat PQ_COUNT /\ f' q0 = p :: l /\
          forall q', q <= q' < q0 -> f' q' = []
    | None => forall q', q <= q' < Z.of_nat PQ_COUNT -> f' q' = []
    end.
Proof.
  revert q s f. induction k as [|k IH]; intros q s f Hm H0 Hk; cbn [mlfq_queues].
  { exists None, s, f. split; [done|]. split; [done|]. split; [by destruct s|]. split; [|split; [done|]].
    - intros q' _. by exists [].
    - intros q' ?. lia. }
  assert (Hv : valid_q s q) by (unfold valid_q; rewrite (mq_len _ _ Hm); lia).
  destruct (mlfq_scan_spec q (S (Z.to_nat MAX_PROC_COUNT)) s f Hm Hv) as (s1 & E & Hm1 & Hq1).
  { pose proof (ri_small _ _ (mq_ring _ _ Hm q Hv)). unfold zlen, MAX_PROC_COUNT in *. lia. }
  set (f1 := with_queue f q (drop_dead s (f q))) in *.
  assert (Hd1 : dropped s f f1).
  { intros q' _. unfold f1, with_queue. destruct (Z.eqb_spec q' q) as [->|]; [|by exists []].
    apply drop_dead_split. }
  pose proof (qo_proc _ _ Hq1) as Hp1.
  erewrite bind_eq by exact E. destruct (head (drop_dead s (f q))) as [p|] eqn:Eh.
  - destruct (drop_dead_head _ _ _ Eh) as [Hl (l & El)].
    exists (Some p), s1, f1. split; [done|]. split; [done|]. split; [done|]. split; [done|].
    split; [intros q' ?; apply with_ne; lia|]. split; [done|]. exists q, l.
    split; [lia|]. split; [by unfold f1; rewrite with_eq|]. intros q' ?. lia.
  - apply head_None in Eh.
    destruct (IH (q + 1) s1 f1) as (r & s' & f' & E' & Hm' & Hp' & Hd' & Hlt & Hr); [done|lia|lia|].
    assert (Hq : f' q = []) by (rewrite Hlt by lia; unfold f1; by rewrite with_eq).
    exists r, s', f'. split; [done|]. split; [done|]. split; [by eapply qo_trans|]. split; [|split].
    + intros q' Hq'. destruct (Hd1 q' Hq') as (d1 & E1 & D1).
      destruct (Hd' q') as (d2 & E2 & D2); [by apply (valid_same s s1 f f1)|].
      exists (d1 ++ d2). split; [by rewrite E1, E2, app_assoc|]. apply Forall_app. split; [done|].
      eapply Forall_impl; [exact D2|]. intros i. cbn beta. by rewrite (procIsDead_same s s1).
    + intros q' ?. rewrite Hlt by lia. apply with_ne. lia.
    + destruct r as [p|].
      * destruct Hr as [Hl (q0 & l & Hq0 & El & He)]. split.
        { by rewrite <-(procIsDead_same s s1 (Some p) Hp1). }
        exists q0, l. split; [lia|]. split; [done|]. intros q' ?.
        destruct (decide (q' = q)) as [->|]; [done|]. apply He. lia.
      * intros q' ?. destruct (decide (q' = q)) as [->|]; [done|]. apply Hr. lia.
Qed.

Lemma dead_life s s' i : same_life s s' -> procIsDead s' (Some i) = procIsDead s (Some i).
Proof.
  intros H. unfold procIsDead. cbv zeta. rewrite (is_state_life RUNNABLE _ _ H i i eq_refl).
  by rewrite (life_pid _ _ _ (sl_proc _ _ H i)), (life_killed _ _ _ (sl_proc _ _ H i)).
Qed.

(** The two halves of a pass. *)
Record passed (s s' : ptab) (f f1 f' : Z -> list nat) (r : option nat) : Prop := {
  ps_refill : exists s1, refilled (all_procs s) s s1 f f1;
  ps_mlfq : mlfq s' f';
  ps_life : same_life s s';
  ps_dropped : dropped s f1 f';
  ps_choice : match r with
    | Some p => procIsDead s (Some p) = false /\
        exists q l, 0 <= q < Z.of_nat PQ_COUNT /\ f' q = p :: l /\
          forall q', 0 <= q' < q -> f' q' = []
    | None => forall q, 0 <= q < Z.of_nat PQ_COUNT -> f' q = []
    end
}.

Lemma mlfq_pass s f : mlfq s f -> (forall i, i ∈ all_procs s -> runnable_ok s i) ->
  exists r s' f1 f', mlfq_pick s = Ret r s' /\ passed s s' f f1 f' r.
Proof.
  intros Hm Hok. destruct (refill_spec (all_procs s) s f Hm Hok) as (s1 & f1 & E1 & HF).
  pose proof HF as [F1 F2 F3 F4 F5 F6].
  destruct (mlfq_queues_spec PQ_COUNT 0 s1 f1 F1) as (r & s' & f' & E & Hm' & Hp & Hd & _ & Hr);
    [lia|lia|].
  exists r, s', f1, f'. split.
  { unfold mlfq_pick. mrun. by erewrite bind_eq by exact E1. }
  split; [eauto|done| | |].
  - transitivity s1; [done|]. by apply qo_life.
  - intros q Hq. destruct (Hd q) as (d & Ed & D); [by apply (valid_same s s1 f f1)|].
    exists d. split; [done|]. eapply Forall_impl; [exact D|]. intros i. cbn beta. by rewrite (dead_life s s1).
  - destruct r as [p|]; [|done]. by rewrite (dead_life s s1) in Hr.
Qed.

(** C6: the multi-level feedback scheduler chooses a live process (runnable, not
    killed) at the front of a queue when every better queue is empty; only dead
    processes are dropped on the way, a process is queued only into a queue that was
    empty, and nothing is chosen only when no queue holds a live process. *)
Theorem mlfq_pick_spec s f : mlfq s f -> (forall i, i ∈ all_procs s -> runnable_ok s i) ->
  exists r s' f1 f', mlfq_pick s = Ret r s' /\ mlfq s' f' /\ same_life s s' /\
    (forall q, valid_q s q -> f q <> [] -> f1 q = f q) /\ dropped s f1 f' /\
    (forall i, i ∈ all_procs s -> is_state RUNNABLE s i = true -> f1 (getQIdx s i) <> []) /\
    match r with
    | Some p => procIsDead s (Some p) = false /\
        exists q l, 0 <= q < Z.of_nat PQ_COUNT /\ f' q = p :: l /\
          forall q', 0 <= q' < q -> f' q' = []
    | None => forall q i, 0 <= q < Z.of_nat PQ_COUNT -> i ∈ f1 q -> procIsDead s (Some i) = true
    end.
Proof.
  intros Hm Hok. destruct (mlfq_pass s f Hm Hok) as (r & s' & f1 & f' & E & [[s1 HF] P1 P2 P3 P4]).
  exists r, s', f1, f'. split; [done|]. split; [done|]. split; [done|].
  split; [apply HF|]. split; [done|]. split; [apply HF|]. destruct r as [p|]; [done|].
  intros q i Hq Hi. destruct (P3 q) as (d & Ed & D).
  { unfold valid_q. by rewrite (mq_len _ _ Hm). }
  rewrite Ed, P4, app_nil_r in Hi by done. by eapply Forall_forall in D.
Qed.

Lemma demo_life : same_life demo_empty demo.
Proof.
  unfold demo. etransitivity; [|apply pushBack_life]. etransitivity; [|apply pushBack_life].
  apply pushBack_life.
Qed.

Lemma demo_runnable i : is_state RUNNABLE demo i = true -> (i < 3)%nat.
Proof.
  rewrite <-(is_state_life RUNNABLE _ _ demo_life i i eq_refl).
  do 3 (destruct i as [|i]; [lia|]). intros H. exfalso. revert H.
  unfold is_state, state_of, proc_at. rewrite nth_lookup.
  change (pt_proc demo_empty) with demo_procs. unfold demo_procs.
  rewrite lookup_app_r by (cbn [length]; lia).
  destruct (_ !! _) as [p|] eqn:E; [|done]. by apply lookup_replicate in E as [-> _].
Qed.

Lemma demo_runnable_ok i : runnable_ok demo i.
Proof.
  intros Hr%demo_runnable. split; [|by apply demo_mlfq].
  destruct (lookup_lt_is_Some_2 (demo_queues 1) i) as [j Hj]; [done|].
  destruct (mq_pos _ _ (proj1 demo_mlfq) 1 i j demo_valid Hj) as (_ & E & _).
  assert (j = i) as ->.
  { destruct i as [|[|[|i]]]; vm_compute in Hj; congruence. }
  rewrite E. apply demo_valid.
Qed.

Lemma mlfq_pick_spec_witness : exists r s', mlfq_pick demo = Ret r s' /\ same_life demo s' /\
  match r with Some p => procIsDead demo (Some p) = false | None => True end.
Proof.
  destruct (mlfq_pick_spec demo demo_queues (proj1 demo_mlfq) (fun i _ => demo_runnable_ok i))
    as (r & s' & f1 & f' & E & _ & L & _ & _ & _ & H).
  exists r, s'. split; [exact E|]. split; [exact L|]. destruct r; [apply H|exact I].
Defined.

(** ** When the process comes back *)

(** The queues after the turn of [p]: it keeps its queue if it slept or gave up the
    CPU inside its slice, moves down if it used exactly the slice, and is queued
    nowhere otherwise. *)
Definition after_turn (s : ptab) (p : nat) (f : Z -> list nat) : Z -> list nat :=
  let q := getQIdx s p in
  let t := getTicks s p in
  if is_state SLEEPING s p || (is_state RUNNABLE s p && (0 <? t) && (t <? 2 ^ q))
  then with_queue f q (f q ++ [p])
  else if is_state RUNNABLE s p && (t =? 2 ^ q)
  then let q' := if q =? Z.of_nat PQ_COUNT - 1 then q else q + 1 in with_queue f q' (f q' ++ [p])
  else f.

Lemma set_cur_mlfq s f c : mlfq s f -> mlfq (set_pt_cur c s) f.
Proof. intros []. by split. Qed.

(** The decision of [run_return], with [decPrio] by its specification. *)
(** Every way a process comes back from its turn, and the queue it is put into. *)
Theorem run_return_spec s f p : mlfq s f -> valid_q s (getQIdx s p) -> own_pid s p ->
  (forall q', valid_q s q' -> p ∉ f q') ->
  exists s', run_return MLFQ p s = Ret tt s' /\ pt_cur s' = None /\ mlfq s' (after_turn s p f).
Proof.
  intros Hm Hv Ho Hn. unfold run_return, is_pol. mrun.
  assert (Hs : Z.shiftl 1 (getQIdx s p) = 2 ^ getQIdx s p).
  { rewrite Z.shiftl_1_l. done. }
  rewrite Hs. unfold after_turn. cbv zeta. destruct (_ || _).
  - destruct (decPrio_spec s f p true Hm Hv Ho Hn) as (s1 & E & H1 & _).
    erewrite bind_eq by exact E. eexists. split; [done|]. split; [done|]. apply set_cur_mlfq.
    by rewrite orb_true_r in H1.
  - destruct (_ && _).
    + mrun. destruct (decPrio_spec s f p false Hm Hv Ho Hn) as (s1 & E & H1 & _).
      erewrite bind_eq by exact E. eexists. split; [done|]. split; [done|]. apply set_cur_mlfq.
      by rewrite orb_false_r in H1.
    + mrun. eexists. split; [done|]. split; [done|]. by apply set_cur_mlfq.
Qed.

Lemma run_return_spec_witness : exists s s', popFront 1 demo = Ret (Some 0%nat) s /\
  run_return MLFQ 0 s = Ret tt s' /\ pt_cur s' = None /\
  mlfq s' (after_turn s 0 (with_queue demo_queues 1 [1; 2]%nat)).
Proof.
  destruct demo_turn as (s & E & Hm & Eq & Ho & Hv & Hn).
  destruct (run_return_spec s _ 0%nat Hm Hv Ho Hn) as (s' & E' & H).
  exists s, s'. split; [exact E|]. split; [exact E'|]. exact H.
Defined.

(** A runnable process that is in no queue (one that came back with no tick, or more
    than its slice, on its account) is not chosen as long as its queue is not empty:
    the scheduler queues it again only when the others have left. *)
Theorem unqueued_waits s f p : mlfq s f -> (forall i, i ∈ all_procs s -> runnable_ok s i) ->
  (forall q, valid_q s q -> p ∉ f q) -> f (getQIdx s p) <> [] ->
  exists r s', mlfq_pick s = Ret r s' /\ r <> Some p.
Proof.
  intros Hm Hok Hn Hne. destruct (mlfq_pass s f Hm Hok) as (r & s' & f1 & f' & E & [[s1 HF] P1 P2 P3 P4]).
  exists r, s'. split; [done|]. intros ->. destruct P4 as (_ & q & l & Hq & El & _).
  assert (Hv : valid_q s q) by (unfold valid_q; by rewrite (mq_len _ _ Hm)).
  destruct (P3 q Hv) as (d & Ed & _).
  assert (Hin : p ∈ f1 q) by (rewrite Ed, El; set_solver).
  destruct (decide (f q = [])) as [H0|H0].
  - pose proof Hin as [k Hk]%list_elem_of_lookup.
    destruct (mq_pos _ _ (rf_mlfq _ _ _ _ _ HF) q k p) as (_ & Eq & _);
      [by apply (valid_same s s1 f f1); [|apply HF|]|done|].
    rewrite (rf_q _ _ _ _ _ HF) in Eq. by rewrite Eq in Hne.
  - rewrite (rf_keep _ _ _ _ _ HF q Hv H0) in Hin. by apply (Hn q).
Qed.

Lemma runnable_ok_same s s' f f' i : pt_proc s' = pt_proc s -> mlfq s f -> mlfq s' f' ->
  runnable_ok s i -> runnable_ok s' i.
Proof.
  intros Hp Hm Hm' H Hr. destruct H as [A B].
  - unfold is_state, state_of, proc_at in *. by rewrite <-Hp.
  - rewrite (getQIdx_same _ _ _ Hp). split; [by apply (valid_same s s' f f')|].
    by apply (own_pid_same s).
Qed.

(** Process 0 of the demonstration, taken off queue 1 and runnable again with no tick on
    its account, is in no queue; the pass chooses another. *)
Lemma unqueued_waits_witness : exists s1 r s', popFront 1 demo = Ret (Some 0%nat) s1 /\
  mlfq_pick s1 = Ret r s' /\ r <> Some 0%nat.
Proof.
  destruct demo_turn as (s & E & Hm & Eq & Ho & Hv & Hn).
  assert (Hp : pt_proc s = pt_proc demo).
  { rewrite (run_popFront demo 1 0%nat [1; 2]%nat demo_valid) in E; [by simplify_eq|].
    apply (mq_ring _ _ (proj1 demo_mlfq) 1 demo_valid). }
  destruct (unqueued_waits s _ 0%nat Hm) as (r & s' & E' & H).
  - intros i _. apply (runnable_ok_same demo s demo_queues (with_queue demo_queues 1 [1; 2]%nat));
      [exact Hp|apply demo_mlfq|exact Hm|apply demo_runnable_ok].
  - exact Hn.
  - rewrite Eq. discriminate.
  - exists s, r, s'. split; [exact E|]. split; [exact E'|exact H].
Defined.
