(* ===== verification/Sysproc.v ===== *)
(** * Process system calls: sysproc.c

    The calls on the process table, with their arguments from the caller's stack and
    their results stored in its memory; [sys_sleep] runs in segments between wake-ups. *)
From S2P Require Import Prelude Param Iface CString Syscall Proc.

(** How a segment of [sys_sleep] ends: it returns, or sleeps on [&ticks]. *)
Inductive sleep_res :=
| SDone (r : Z)
| SSleep (ticks0 n : Z).

Section Sysproc.
Context {S : Type} `{KernOps S}.
Variable pol : policy.
Variable pt : lens S ptab.
(** The caller's size, memory and registers, and [tickslock]. *)
Variable usr : lens S uproc.
Variable tickslock : lens S bool.

Definition sarg_int (n : Z) : M S (option Z) := gets (fun s => argint (lget usr s) n).
Definition sarg_ptr (n size : Z) : M S (option Z) := gets (fun s => argptr (lget usr s) n size).
Definition ustore (a v : Z) : M S unit :=
  zoom usr (modify (fun u => set_u_mem (st32 (u_mem u) a v) u)).

Definition sys_fork : M S Z := fork pol pt.
(** What follows [sched] in [exit] is not reached. *)
Definition sys_exit : M S Z :=
  let! s := getpt pt in
  match pt_cur s with
  | None => panic "Exitinng dead process"
  | Some _ => exit pol pt ;;; ret 0
  end.
Definition sys_wait : M S Z := wait pt.

Definition sys_waitx : M S Z :=
  let! w := sarg_ptr 0 4 in
  match w with
  | None => ret (-1)
  | Some w =>
    let! r := sarg_ptr 1 4 in
    match r with
    | None => ret (-1)
    | Some r =>
      let! (pid, o) := waitx pt in
      match o with
      | Some (wtime, rtime) => ustore r rtime ;;; ustore w wtime
      | None => ret tt
      end ;;;
      ret pid
    end
  end.

Definition sys_kill : M S Z :=
  let! pid := sarg_int 0 in
  match pid with
  | None => ret (-1)
  | Some pid => on_pt pt (kill pid)
  end.

Definition sys_getpid : M S Z :=
  let! i := myproc pt in
  let! s := getpt pt in
  ret (pr_pid (proc_at s i)).

(** Words stored from address [a] on. *)
Fixpoint ustore_words (a : Z) (l : list Z) : M S unit :=
  match l with
  | [] => ret tt
  | v :: l => ustore a v ;;; ustore_words (a + 4) l
  end.
(** procstat.h: pid, runtime, num_run, allotedQ and ticks are at 0, 4, 8, 12 and 20. The
    argument check is for the 4 bytes of a pointer, not for the structure. *)
Definition sys_getpinfo : M S Z :=
  let! ps := sarg_ptr 0 4 in
  match ps with
  | None => ret (-1)
  | Some ps =>
    let! pid := sarg_int 1 in
    match pid with
    | None => ret (-1)
    | Some pid =>
      let! r := on_pt pt (getpinfo (negb (ps =? 0)) pid) in
      match r with
      | None => ret (-1)
      | Some p =>
        ustore_words ps ([pi_pid p; pi_runtime p; pi_num_run p; (pi_allotedQ p).1; (pi_allotedQ p).2]
          ++ pi_ticks p) ;;;
        ret 0
      end
    end
  end.

Definition sys_sbrk : M S Z :=
  let! n := sarg_int 0 in
  match n with
  | None => ret (-1)
  | Some n =>
    let! i := myproc pt in
    let! s := getpt pt in
    let addr := pr_sz (proc_at s i) in
    let! r := growproc pt n in
    if r <? 0 then ret (-1) else ret (s32 addr)
  end.

(** The loop of [sys_sleep], with [tickslock] held. [ticks - ticks0 < n] compares a
    [uint] with an [int]: as unsigned numbers. *)
Definition sys_sleep_loop (ticks0 n : Z) : M S sleep_res :=
  let! s := getpt pt in
  if u32 (pt_ticks s - ticks0) <? u32 n then
    let! i := myproc pt in
    if pr_killed (proc_at s i) then
      zoom tickslock spin_release ;;;
      ret (SDone (-1))
    else
      (* sleep(&ticks, &tickslock) *)
      on_pt pt (zoom pt_lock_lens spin_acquire) ;;;
      zoom tickslock spin_release ;;;
      on_pt pt (sleep_mark ChTicks) ;;;
      ret (SSleep ticks0 n)
  else
  zoom tickslock spin_release ;;;
  ret (SDone 0).
(** After a wake-up: [sleep] returns with [tickslock] held again. *)
Definition sys_sleep_wake (ticks0 n : Z) : M S sleep_res :=
  on_pt pt sleep_return ;;;
  on_pt pt (zoom pt_lock_lens spin_release) ;;;
  zoom tickslock spin_acquire ;;;
  sys_sleep_loop ticks0 n.
Definition sys_sleep : M S sleep_res :=
  let! n := sarg_int 0 in
  match n with
  | None => ret (SDone (-1))
  | Some n =>
    zoom tickslock spin_acquire ;;;
    let! s := getpt pt in
    sys_sleep_loop (pt_ticks s) n
  end.

Definition sys_uptime : M S Z :=
  zoom tickslock spin_acquire ;;;
  let! s := getpt pt in
  zoom tickslock spin_release ;;;
  ret (s32 (pt_ticks s)).

Definition sys_set_priority : M S Z :=
  let! n := sarg_int 0 in
  match n with
  | None => ret (-1)
  | Some n => on_pt pt (set_prio n)
  end.
End Sysproc.

(** ** A negative count *)
Section Sleep.
Context {S : Type} (pt : lens S ptab) (tickslock : lens S bool) `{!LensLaws pt, !LensLaws tickslock}.
Hypothesis lock_pt : forall p s, lget tickslock (lset pt p s) = lget tickslock s.
Hypothesis pt_lock' : forall b s, lget pt (lset tickslock b s) = lget pt s.

(** Woken after [k] ticks the process sleeps again while [k] is below the count, taken as
    an unsigned number: with [n = -1] it waits for 2^32 - 1 ticks. *)
Lemma sleep_again ticks0 n k i s : let t := lget pt s in
  pt_cur t = Some i -> pr_killed (proc_at t i) = false -> pt_lock t = false -> lget tickslock s = true ->
  pt_ticks t = u32 (ticks0 + k) -> 0 <= k < u32 n ->
  exists s', sys_sleep_loop pt tickslock ticks0 n s = Ret (SSleep ticks0 n) s' /\
    state_of (lget pt s') i = (if decide (i < length (pt_proc t))%nat then SLEEPING else UNUSED).
Proof.
  intros t Hc Hk Hl Ht Hticks Hn. unfold sys_sleep_loop, getpt, myproc, getpt. mrun. fold t. rewrite Hticks.
  pose proof (u32_range n) as Hr.
  assert (E : u32 (u32 (ticks0 + k) - ticks0) = k).
  { replace (u32 (ticks0 + k) - ticks0) with (u32 (ticks0 + k) + - ticks0) by lia.
    rewrite u32_add_l. replace (ticks0 + k + - ticks0) with k by lia. apply u32_small. lia. }
  rewrite E. destruct (Z.ltb_spec k (u32 n)); [|lia]. mrun. fold t. rewrite Hc. mrun. rewrite Hk.
  unfold on_pt. erewrite run_bind_zoom.
  2: { eapply zoom_eq. cbn. fold t. rewrite Hl. reflexivity. }
  erewrite run_bind_zoom. 2: { rewrite lock_pt, Ht. reflexivity. }
  erewrite run_bind_zoom.
  2: { rewrite pt_lock', lget_lset. unfold sleep_mark. mrun. cbn [pt_cur pt_lock_lens lset set_pt_lock]. fold t. rewrite Hc.
       rewrite run_bind_modify. reflexivity. }
  eexists. split; [reflexivity|]. rewrite lget_lset. unfold state_of, proc_at, upd_proc. cbn [pt_proc set_pt_proc set_pt_lock].
  destruct (decide (i < length (pt_proc t))%nat) as [Hi|Hi].
  - rewrite nth_insert_eq; [done|]. by rewrite length_insert.
  - rewrite nth_overflow; [done|]. rewrite !length_insert. lia.
Qed.
End Sleep.
