(* ===== verification/Trap.v ===== *)
(** * Traps and the clock: trap.c

    [trap] from its entry until it returns to the interrupted code, ends the process or
    yields the CPU; what follows a yield is [trap_resume]. The handlers of the disk, the
    keyboard and the serial port and [syscall] are arguments. *)
From S2P Require Import Prelude Param Iface CString Proc Mlfq Sched ProcSpec.

Definition T_SYSCALL : Z := 64.
Definition T_IRQ0 : Z := 32.
Definition IRQ_TIMER : Z := 0.
Definition IRQ_KBD : Z := 1.
Definition IRQ_COM1 : Z := 4.
Definition IRQ_IDE : Z := 14.
Definition IRQ_SPURIOUS : Z := 31.
Definition DPL_USER : Z := 3.

Inductive trap_end := TReturn | TExit | TYield.

Section Trap.
Context {S : Type} `{KernOps S}.
Variable pol : policy.
Variable pt : lens S ptab.
(** [tickslock]. *)
Variable tickslock : lens S bool.
Variables (ideintr kbdintr uartintr syscall : M S unit).

Definition cur : M S (option nat) := let! s := getpt pt in ret (pt_cur s).

(** [exit()] ends in [sched] and does not return. *)
Definition trap_exit : M S trap_end := exit pol pt ;;; ret TExit.
(** [if(myproc() && myproc()->killed && (tf->cs & 3) == DPL_USER) exit();] *)
Definition killed_in_user (cs : Z) : M S bool :=
  let! s := getpt pt in
  ret (match pt_cur s with
       | Some i => pr_killed (proc_at s i) && (Z.land cs 3 =? DPL_USER)
       | None => false
       end).

(** [case T_IRQ0 + IRQ_TIMER:] *)
Definition timer_tick (cpuid : Z) : M S unit :=
  zoom tickslock spin_acquire ;;;
  when (cpuid =? 0) (
    (if is_pol pol MLFQ then on_pt pt (updateStatsAndAging cpuid)
     else on_pt pt (modify (fun s => set_pt_ticks (u32 (pt_ticks s + 1)) s))) ;;;
    on_pt pt (wakeup pol ChTicks)) ;;;
  let! s := getpt pt in
  (match pt_cur s with
   | Some i => when (is_state RUNNING s i) (updp pt i (fun p => set_pr_rtime (pr_rtime p + 1) p))
   | None => ret tt
   end) ;;;
  zoom tickslock spin_release.

(** The [switch] on other traps than system calls. *)
Definition trap_switch (trapno cs cpuid : Z) : M S unit :=
  if trapno =? T_IRQ0 + IRQ_TIMER then timer_tick cpuid
  else if trapno =? T_IRQ0 + IRQ_IDE then ideintr
  else if trapno =? T_IRQ0 + IRQ_IDE + 1 then ret tt
  else if trapno =? T_IRQ0 + IRQ_KBD then kbdintr
  else if trapno =? T_IRQ0 + IRQ_COM1 then uartintr
  else if (trapno =? T_IRQ0 + 7) || (trapno =? T_IRQ0 + IRQ_SPURIOUS) then ret tt
  else
  let! s := getpt pt in
  match pt_cur s with
  | None => panic "trap"
  | Some i =>
    if Z.land cs 3 =? 0 then panic "trap"
    else updp pt i (set_pr_killed true)
  end.

(** Whether the process gives up the CPU, by policy. *)
Definition preempt (trapno : Z) : M S bool :=
  let! s := getpt pt in
  match pol with
  | FCFS => ret false
  | MLFQ =>
    match pt_cur s with
    | Some i =>
      if trapno =? T_IRQ0 + IRQ_TIMER then
        let queueIdx := getQIdx s i in
        if queueIdx <? 0 then panic "Invalid queue allotment"
        else
        let tcks := getTicks s i in
        if is_state RUNNING s i then
          if negb (tcks =? 0) && (Z.shiftl 1 queueIdx <=? tcks) then ret true
          else let! x := on_pt pt (timeToPreempt pol queueIdx false) in ret (negb (x =? 0))
        else ret false
      else ret false
    | None => ret false
    end
  | PBS =>
    match pt_cur s with
    | Some i =>
      if is_state RUNNING s i && (trapno =? T_IRQ0 + IRQ_TIMER) then
        let! x := on_pt pt (timeToPreempt pol (pr_priority (proc_at s i)) true) in ret (negb (x =? 0))
      else ret false
    | None => ret false
    end
  | DEFAULT =>
    match pt_cur s with
    | Some i => ret (is_state RUNNING s i && (trapno =? T_IRQ0 + IRQ_TIMER))
    | None => ret false
    end
  end.

(** After the switch, or after the process got the CPU back. *)
Definition trap_resume (cs : Z) : M S trap_end :=
  let! k := killed_in_user cs in
  if k then trap_exit else ret TReturn.

Definition trap (trapno cs cpuid : Z) (tf : trapframe) : M S trap_end :=
  if trapno =? T_SYSCALL then
    let! s := getpt pt in
    match pt_cur s with
    | None => trap_exit
    | Some i =>
      if pr_killed (proc_at s i) then trap_exit
      else
      updp pt i (set_pr_tf tf) ;;;
      syscall ;;;
      let! s := getpt pt in
      match pt_cur s with
      | None => panic "null dereference"
      | Some i => if pr_killed (proc_at s i) then trap_exit else ret TReturn
      end
    end
  else
  trap_switch trapno cs cpuid ;;;
  let! k := killed_in_user cs in
  if k then trap_exit
  else
  let! y := preempt trapno in
  if y then on_pt pt yield_mark ;;; ret TYield else trap_resume cs.
End Trap.

(** ** Preemption

    When the timer interrupt takes the CPU from the running process, under each of the
    four schedulers. *)

(** What each scheduler wants on a clock tick, with process [i] running. *)
Definition should_yield (pol : policy) (s : ptab) (i : nat) : Prop :=
  match pol with
  | FCFS => False
  | DEFAULT => True
  | PBS => exists j, (j < length (pt_proc s))%nat /\ state_of s j = RUNNABLE /\
      pr_priority (proc_at s j) <= pr_priority (proc_at s i)
  | MLFQ => getTicks s i <> 0 /\ 2 ^ getQIdx s i <= getTicks s i \/
      exists j, (j < length (pt_proc s))%nat /\ state_of s j = RUNNABLE /\
        getQIdx s j <> NO_Q_ALLOT /\ getQIdx s j < getQIdx s i
  end.

(** [timeToPreempt] finds the first process in the table that should preempt. *)
Lemma timeToPreempt_run pol prio same s : pt_lock s = false ->
  timeToPreempt pol prio same s =
    Ret (match find_proc (preempts pol s prio same) (all_procs s) with
         | Some i => if is_pol pol MLFQ then pr_pid (proc_at s i) else 1
         | None => 0
         end) s.
Proof.
  intros Hl. unfold timeToPreempt. rewrite run_lock_pt by done. mrun.
  rewrite run_unlock_pt by done. unfold ret. f_equal. by apply unlock_lock.
Qed.

Lemma find_any f s : find_proc f (all_procs s) <> None <-> exists j, (j < length (pt_proc s))%nat /\ f j = true.
Proof.
  split.
  - intros Hn. destruct (find_proc f (all_procs s)) as [i|] eqn:E; [|done].
    apply find_all in E as (Hi & Hf & _). eauto.
  - intros (j & Hj & Hf) E. apply find_proc_None in E. rewrite Forall_forall in E.
    rewrite E in Hf; [done|]. apply elem_of_seq. lia.
Qed.

Lemma preempts_mlfq s q j : preempts MLFQ s q false j = true <->
  state_of s j = RUNNABLE /\ getQIdx s j <> NO_Q_ALLOT /\ getQIdx s j < q.
Proof.
  unfold preempts. change (is_pol MLFQ MLFQ) with true. cbn [andb]. cbv zeta.
  rewrite andb_true_iff, is_state_spec, andb_false_r, orb_false_r.
  split; [intros [H1 H2]|intros (H1 & H2 & H3)]; (split; [done|]); unfold NO_Q_ALLOT in *; lia.
Qed.
Lemma preempts_pbs s prio j : preempts PBS s prio true j = true <->
  state_of s j = RUNNABLE /\ pr_priority (proc_at s j) <= prio.
Proof.
  unfold preempts. change (is_pol PBS MLFQ) with false. cbn [andb negb]. cbv zeta.
  rewrite andb_true_iff, is_state_spec, andb_true_r. split; intros [H1 H2]; (split; [done|]); lia.
Qed.

Section Preempt.
Context {S : Type} (pt : lens S ptab) `{!LensLaws pt}.

Lemma preempt_scan {B} pol prio same (s : S) (k : Z -> M S B) : pt_lock (lget pt s) = false ->
  bind (on_pt pt (timeToPreempt pol prio same)) k s =
  k (match find_proc (preempts pol (lget pt s) prio same) (all_procs (lget pt s)) with
     | Some i => if is_pol pol MLFQ then pr_pid (proc_at (lget pt s) i) else 1
     | None => 0
     end) s.
Proof.
  intros Hl. unfold on_pt. erewrite run_bind_zoom by (by apply timeToPreempt_run). by rewrite lset_lget.
Qed.

(** On a clock tick the running process keeps the CPU or gives it up exactly as its
    scheduler wants: never under FCFS, always in round robin, under PBS when some runnable
    process has the same or a better priority, and under MLFQ when its slice of 2^q ticks
    is used up or a runnable process waits in a better queue. Other traps never preempt. *)
Theorem preempt_spec pol (s : S) i trapno : let t := lget pt s in
  pt_lock t = false -> pt_cur t = Some i -> state_of t i = RUNNING -> 0 <= getQIdx t i ->
  (forall j, state_of t j = RUNNABLE -> 0 < pr_pid (proc_at t j)) ->
  exists b, preempt pol pt trapno s = Ret b s /\
    (b = true <-> trapno = T_IRQ0 + IRQ_TIMER /\ should_yield pol t i).
Proof.
  intros t Hl Hc Hst Hq Hpid. unfold preempt, getpt. mrun. fold t. rewrite Hc.
  assert (Hr : is_state RUNNING t i = true) by (by apply is_state_spec). rewrite Hr. cbn [andb].
  destruct (Z.eqb_spec trapno (T_IRQ0 + IRQ_TIMER)) as [->|Hne].
  2: { exists false. split; [by destruct pol|]. split; [done|]. by intros [? _]. }
  destruct pol; cbn [should_yield].
  - exists true. split; [done|]. split; auto.
  - exists false. split; [done|]. split; [done|]. by intros [_ []].
  - rewrite preempt_scan by done. fold t. eexists. split; [done|].
    change (is_pol PBS MLFQ) with false. cbn [andb].
    pose proof (find_any (preempts PBS t (pr_priority (proc_at t i)) true) t) as Hf.
    transitivity (find_proc (preempts PBS t (pr_priority (proc_at t i)) true) (all_procs t) <> None).
    { destruct (find_proc _ _); split; done. }
    rewrite Hf. setoid_rewrite preempts_pbs. naive_solver.
  - destruct (Z.ltb_spec (getQIdx t i) 0); [lia|]. rewrite Z.shiftl_1_l.
    destruct (negb (getTicks t i =? 0) && (2 ^ getQIdx t i <=? getTicks t i)) eqn:E.
    { exists true. split; [done|]. split; [|done]. intros _. split; [done|left; lia]. }
    rewrite preempt_scan by done. fold t. eexists. split; [done|].
    change (is_pol MLFQ MLFQ) with true. cbn [andb].
    pose proof (find_any (preempts MLFQ t (getQIdx t i) false) t) as Hf.
    transitivity (find_proc (preempts MLFQ t (getQIdx t i) false) (all_procs t) <> None).
    { destruct (find_proc _ _) as [j|] eqn:Ef; [|split; done]. split; [done|]. intros _.
      apply find_all in Ef as (_ & Hj & _). apply preempts_mlfq in Hj as [Hj _]. specialize (Hpid j Hj). lia. }
    rewrite Hf. setoid_rewrite preempts_mlfq. split; [naive_solver|]. intros [_ [Hx|Hx]]; [lia|done].
Qed.
End Preempt.

(** Pid 1 is runnable in queue 0 while pid 2 runs in queue 2: the tick preempts it. *)
Definition contended : ptab :=
  let in_q q p := set_pr_stat (set_ps_q q (pr_stat p)) p in
  Ptab false
    [in_q 0 (set_pr_state RUNNABLE (set_pr_pid 1 proc0));
     in_q 2 (set_pr_state RUNNING (set_pr_pid 2 proc0))]
    3 (Some 0%nat) (Some 1%nat) 0 (replicate PQ_COUNT ring0) 0.

Lemma preempt_spec_witness :
  preempt MLFQ whole (T_IRQ0 + IRQ_TIMER) contended = Ret true contended.
Proof.
  destruct (preempt_spec whole MLFQ contended 1%nat (T_IRQ0 + IRQ_TIMER)) as (b & E & Hb).
  - reflexivity.
  - reflexivity.
  - reflexivity.
  - vm_compute. discriminate.
  - intros [|[|[|j]]] Hj; try reflexivity; vm_compute in Hj; discriminate Hj.
  - rewrite E. destruct b; [reflexivity|]. exfalso.
    assert (Hf : false = true); [|discriminate Hf]. apply Hb. split; [reflexivity|].
    right. exists 0%nat. repeat split; vm_compute; first [lia|reflexivity|discriminate].
Defined.
