(* ===== verification/Sorts.v ===== *)
(** * Concurrent sorting: A4/q1/q1.c and codes_assignment4_tutorial/concurrent_mergesort.c

    The array is the list of its elements; indices are [int]s far below 2^31, since the
    arrays live on the stack. [rand()] is a stream of numbers, and the processes and
    threads of the concurrent variants are trees of calls whose leaves run in any order. *)
From S2P Require Import Prelude.

Definition swap (arr : list Z) (i j : Z) : list Z :=
  let t := znth arr i in
  let arr := zupd arr i (znth arr j) in
  zupd arr j t.

(** [for (; j <= r; j++) if (arr[j] < arr[i] && j <= r) swap(arr, i, j);] with [k] rounds
    to go. *)
Fixpoint insert_inner (k : nat) (arr : list Z) (i j : Z) : list Z :=
  match k with
  | O => arr
  | S k' => insert_inner k' (if znth arr j <? znth arr i then swap arr i j else arr) i (j + 1)
  end.
(** [for (int i = l; i < r; i++)] *)
Fixpoint insert_outer (k : nat) (arr : list Z) (i r : Z) : list Z :=
  match k with
  | O => arr
  | S k' => insert_outer k' (insert_inner (Z.to_nat (r - i)) arr i (i + 1)) (i + 1) r
  end.
Definition insertionSort (arr : list Z) (l r : Z) : list Z := insert_outer (Z.to_nat (r - l)) arr l r.

(** ** Quicksort *)

(** [do { i++; } while (i <= r && arr[i] < pivot);] *)
Fixpoint scan_up (k : nat) (arr : list Z) (i r pivot : Z) : option Z :=
  let i := i + 1 in
  if (i <=? r) && (znth arr i <? pivot) then
    match k with O => None | S k' => scan_up k' arr i r pivot end
  else Some i.
(** [do { j--; } while (j >= l && arr[j] > pivot);] *)
Fixpoint scan_down (k : nat) (arr : list Z) (j l pivot : Z) : option Z :=
  let j := j - 1 in
  if (l <=? j) && (pivot <? znth arr j) then
    match k with O => None | S k' => scan_down k' arr j l pivot end
  else Some j.
Fixpoint partition_loop (fuel : nat) (arr : list Z) (i j l r pivot : Z) : option (list Z * Z) :=
  match fuel with
  | O => None
  | S fuel' =>
    i ← scan_up (Z.to_nat (r - i)) arr i r pivot;
    j ← scan_down (Z.to_nat (j - l)) arr j l pivot;
    if j <=? i then Some (arr, j) else partition_loop fuel' (swap arr i j) i j l r pivot
  end.
(** [rnd] is the value of [rand()]. *)
Definition partition (arr : list Z) (l r rnd : Z) : option (list Z * Z) :=
  let len := r - l + 1 in
  let idx := rnd mod len in
  let pivot := znth arr (l + idx) in
  partition_loop (Z.to_nat (len + 1)) arr (l - 1) (r + 1) l r pivot.

(** The array and how many random numbers have been drawn. *)
Fixpoint normal_quicksort (fuel : nat) (rand : nat -> Z) (s : list Z * nat) (l r : Z)
    : option (list Z * nat) :=
  match fuel with
  | O => None
  | S fuel' =>
    let (arr, c) := s in
    if r <=? l then Some s
    else if r - l + 1 <=? 5 then Some (insertionSort arr l r, c)
    else
    '(arr, pivotIdx) ← partition arr l r (rand c);
    s ← normal_quicksort fuel' rand (arr, S c) l (pivotIdx - 1);
    normal_quicksort fuel' rand s (pivotIdx + 1) r
  end.

(** [threaded_quicksort], and [quicksort] in processes that share the array: a call before
    its partition, one waiting for the two calls it started, one that returned. *)
Inductive qcall :=
| QSort (l r : Z)
| QWait (t1 t2 : qcall)
| QDone.
(** A thread partitions or sorts its own range in one step: [qranges] below shows that no
    other thread touches that range meanwhile. *)
Inductive qstep : list Z * qcall -> list Z * qcall -> Prop :=
| q_empty arr l r : r <= l -> qstep (arr, QSort l r) (arr, QDone)
| q_small arr l r : l < r -> r - l + 1 <= 5 -> qstep (arr, QSort l r) (insertionSort arr l r, QDone)
| q_split arr l r rnd arr' p : 5 < r - l + 1 -> partition arr l r rnd = Some (arr', p) ->
    qstep (arr, QSort l r) (arr', QWait (QSort l (p - 1)) (QSort (p + 1) r))
| q_left arr arr' t1 t1' t2 : qstep (arr, t1) (arr', t1') -> qstep (arr, QWait t1 t2) (arr', QWait t1' t2)
| q_right arr arr' t1 t2 t2' : qstep (arr, t2) (arr', t2') -> qstep (arr, QWait t1 t2) (arr', QWait t1 t2')
| q_join arr : qstep (arr, QWait QDone QDone) (arr, QDone).
(** The ranges of the calls that have not returned. *)
Fixpoint qranges (t : qcall) : list (Z * Z) :=
  match t with
  | QSort l r => [(l, r)]
  | QWait t1 t2 => qranges t1 ++ qranges t2
  | QDone => []
  end.

(** ** Mergesort *)

(** The loops of [merge] that fill [sorted]: [for (; j <= r && arr[j] <= arr[i]; j++)], the
    rest of the left half, then the rest of the right half. *)
Fixpoint merge_right (k : nat) (arr : list Z) (j r x : Z) : list Z * Z :=
  match k with
  | O => ([], j)
  | S k' => if (j <=? r) && (znth arr j <=? x)
            then let (o, j') := merge_right k' arr (j + 1) r x in (znth arr j :: o, j') else ([], j)
  end.
Fixpoint merge_left (k : nat) (arr : list Z) (i j r : Z) : list Z * Z :=
  match k with
  | O => ([], j)
  | S k' =>
    let (o, j) := merge_right (Z.to_nat (r + 1 - j)) arr j r (znth arr i) in
    let (o', j) := merge_left k' arr (i + 1) j r in
    (o ++ znth arr i :: o', j)
  end.
Fixpoint copy_rest (k : nat) (arr : list Z) (j : Z) : list Z :=
  match k with O => [] | S k' => znth arr j :: copy_rest k' arr (j + 1) end.
Definition merge (arr : list Z) (l r : Z) : list Z :=
  let mid := Z.quot (l + r) 2 in
  let (o, j) := merge_left (Z.to_nat (mid + 1 - l)) arr l (mid + 1) r in
  let sorted := o ++ copy_rest (Z.to_nat (r + 1 - j)) arr j in
  splice arr (Z.to_nat l) sorted.

Fixpoint normal_mergesort (fuel : nat) (arr : list Z) (l r : Z) : option (list Z) :=
  match fuel with
  | O => None
  | S fuel' =>
    if r <? l then Some arr
    else if r - l + 1 <=? 5 then Some (insertionSort arr l r)
    else
    arr ← normal_mergesort fuel' arr l (Z.quot (l + r) 2);
    arr ← normal_mergesort fuel' arr (Z.quot (l + r) 2 + 1) r;
    Some (merge arr l r)
  end.

(** [threaded_mergesort] and [mergesort]: a call before it starts its two halves, one that
    waits for them and merges, one that returned. *)
Inductive mcall :=
| MSort (l r : Z)
| MWait (l r : Z) (t1 t2 : mcall)
| MDone (l r : Z).
Inductive mstep : list Z * mcall -> list Z * mcall -> Prop :=
| m_empty arr l r : r < l -> mstep (arr, MSort l r) (arr, MDone l r)
| m_small arr l r : l <= r -> r - l + 1 <= 5 -> mstep (arr, MSort l r) (insertionSort arr l r, MDone l r)
| m_split arr l r : 5 < r - l + 1 ->
    mstep (arr, MSort l r) (arr, MWait l r (MSort l (Z.quot (l + r) 2)) (MSort (Z.quot (l + r) 2 + 1) r))
| m_left arr arr' l r t1 t1' t2 : mstep (arr, t1) (arr', t1') ->
    mstep (arr, MWait l r t1 t2) (arr', MWait l r t1' t2)
| m_right arr arr' l r t1 t2 t2' : mstep (arr, t2) (arr', t2') ->
    mstep (arr, MWait l r t1 t2) (arr', MWait l r t1 t2')
| m_join arr l r l1 r1 l2 r2 :
    mstep (arr, MWait l r (MDone l1 r1) (MDone l2 r2)) (merge arr l r, MDone l r).

Example quicksort_demo :
  normal_quicksort 10 (fun _ => 0) ([3; 1; 2; 9; 8; 7], O) 0 5 = Some ([2; 1; 3; 7; 8; 9], 1%nat).
Proof. reflexivity. Qed.
Example mergesort_demo : normal_mergesort 10 [3; 1; 2; 9; 8; 7; 4; 0] 0 7 = Some [0; 1; 2; 3; 4; 7; 8; 9].
Proof. reflexivity. Qed.
