(* ===== verification/SortsSpec.v ===== *)
(** * The sorts of A4/q1

    [insertionSort] sorts; the mergesort sorts under every interleaving of its threads;
    the quicksort permutes and its threads never share an index, but it does not sort. *)
From stdpp Require Import sorting.
From S2P Require Import Prelude Sorts.

(** ** Ranges of an array *)
Definition within (l r : Z) (a : list Z) : Prop := 0 <= l /\ l <= r + 1 /\ r < zlen a.
Definition sorted (l r : Z) (a : list Z) : Prop := forall i j, l <= i <= j -> j <= r -> znth a i <= znth a j.
(** [b] is [a] with the elements of the range in another order. *)
Definition shuffled (l r : Z) (a b : list Z) : Prop :=
  a ≡ₚ b /\ forall k, ~ (l <= k <= r) -> znth b k = znth a k.
Definition seg (l r : Z) (a : list Z) : list Z := take (Z.to_nat (r + 1 - l)) (drop (Z.to_nat l) a).

Lemma lookup_znth (a : list Z) k : 0 <= k < zlen a -> a !! Z.to_nat k = Some (znth a k).
Proof.
  intros Hk. unfold znth, zlen in *. destruct (Z.ltb_spec k 0); [lia|].
  destruct (lookup_lt_is_Some_2 a (Z.to_nat k)) as [x Hx]; [lia|]. by rewrite Hx, (nth_lookup_Some _ _ _ _ Hx).
Qed.
Lemma shuffled_len l r a b : shuffled l r a b -> zlen b = zlen a.
Proof. intros [Hp _]. unfold zlen. by rewrite Hp. Qed.
Lemma shuffled_refl l r a : shuffled l r a a.
Proof. done. Qed.
Lemma shuffled_trans l r a b c : shuffled l r a b -> shuffled l r b c -> shuffled l r a c.
Proof. intros [P1 O1] [P2 O2]. split; [by rewrite P1|]. intros k Hk. by rewrite O2, O1. Qed.
Lemma shuffled_wider l r l' r' a b : shuffled l r a b -> l' <= l -> r <= r' -> shuffled l' r' a b.
Proof. intros [P1 O1] Hl Hr. split; [done|]. intros k Hk. apply O1. lia. Qed.
Lemma within_shuffled l r l' r' a b : within l r a -> shuffled l' r' a b -> within l r b.
Proof. intros (H1 & H2 & H3) Hs. rewrite <-(shuffled_len _ _ _ _ Hs) in H3. done. Qed.

Lemma znth_swap a i j k : 0 <= i < zlen a -> 0 <= j < zlen a ->
  znth (swap a i j) k = if k =? j then znth a i else if k =? i then znth a j else znth a k.
Proof.
  intros Hi Hj. unfold swap. destruct (Z.eqb_spec k j) as [->|Hkj].
  - apply znth_zupd_eq. unfold zlen in *. rewrite length_zupd. lia.
  - rewrite znth_zupd_ne by done. destruct (Z.eqb_spec k i) as [->|]; [by apply znth_zupd_eq|].
    by apply znth_zupd_ne.
Qed.
Lemma swap_shuffled l r a i j : within l r a -> l <= i <= r -> l <= j <= r -> shuffled l r a (swap a i j).
Proof.
  intros (H1 & H2 & H3) Hi Hj. split.
  - unfold swap, zupd. destruct (Z.ltb_spec i 0), (Z.ltb_spec j 0); try lia.
    symmetry. apply Permutation_insert_swap; apply lookup_znth; lia.
  - intros k Hk. rewrite znth_swap by lia. destruct (Z.eqb_spec k j), (Z.eqb_spec k i); try lia; done.
Qed.

(** What holds of all elements of the range still does. *)
Lemma seg_Forall P l r a : within l r a -> Forall P (seg l r a) <-> forall k, l <= k <= r -> P (znth a k).
Proof.
  intros (H1 & H2 & H3). unfold seg. rewrite Forall_lookup. split.
  - intros HP k Hk. apply (HP (Z.to_nat (k - l))). rewrite lookup_take_lt by lia.
    rewrite lookup_drop. replace (Z.to_nat l + Z.to_nat (k - l))%nat with (Z.to_nat k) by lia.
    apply lookup_znth. lia.
  - intros HP i x Hx. apply lookup_take_Some in Hx as [Hx Hi]. rewrite lookup_drop in Hx.
    replace (Z.to_nat l + i)%nat with (Z.to_nat (l + Z.of_nat i)) in Hx by lia.
    rewrite lookup_znth in Hx by lia. injection Hx as <-. apply HP. lia.
Qed.
Lemma seg_split l r a : within l r a ->
  a = take (Z.to_nat l) a ++ seg l r a ++ drop (Z.to_nat (r + 1)) a.
Proof.
  intros (H1 & H2 & H3). unfold seg. rewrite <-(take_drop (Z.to_nat l) a) at 1. f_equal.
  rewrite <-(take_drop (Z.to_nat (r + 1 - l)) (drop (Z.to_nat l) a)) at 1. f_equal.
  rewrite drop_drop. f_equal. lia.
Qed.
Lemma same_lookup (a b : list Z) i : zlen b = zlen a -> znth b (Z.of_nat i) = znth a (Z.of_nat i) -> b !! i = a !! i.
Proof.
  intros Hl He. destruct (decide (Z.of_nat i < zlen a)) as [Hi|Hi].
  - rewrite <-(Nat2Z.id i), !lookup_znth by lia. by rewrite He.
  - unfold zlen in *. rewrite !lookup_ge_None_2; [done|lia..].
Qed.
Lemma shuffled_seg l r a b : within l r a -> shuffled l r a b -> seg l r a ≡ₚ seg l r b.
Proof.
  intros Hw Hs. pose proof (shuffled_len _ _ _ _ Hs) as Hl. pose proof Hs as [Hp Ho].
  pose proof (within_shuffled _ _ _ _ _ _ Hw Hs) as Hw'.
  rewrite (seg_split l r a Hw), (seg_split l r b Hw') in Hp. destruct Hw as (H1 & H2 & H3).
  assert (Et : take (Z.to_nat l) b = take (Z.to_nat l) a).
  { apply list_eq. intros i. destruct (decide (i < Z.to_nat l)%nat).
    - rewrite !lookup_take_lt by done. apply same_lookup; [done|]. apply Ho. lia.
    - rewrite !lookup_take_ge by lia. done. }
  assert (Ed : drop (Z.to_nat (r + 1)) b = drop (Z.to_nat (r + 1)) a).
  { apply list_eq. intros i. rewrite !lookup_drop. apply same_lookup; [done|]. apply Ho. lia. }
  rewrite Et, Ed in Hp. by apply Permutation_app_inv_l, Permutation_app_inv_r in Hp.
Qed.
Lemma shuffled_all (P : Z -> Prop) l r a b : within l r a -> shuffled l r a b ->
  (forall k, l <= k <= r -> P (znth a k)) -> forall k, l <= k <= r -> P (znth b k).
Proof.
  intros Hw Hs HP. apply seg_Forall; [by eapply within_shuffled|].
  rewrite <-(shuffled_seg _ _ _ _ Hw Hs). by apply seg_Forall.
Qed.

(** ** Insertion sort *)
Lemma insert_inner_spec k : forall a l r i j, within l r a -> l <= i < j -> j + Z.of_nat k = r + 1 ->
  (forall x, i < x < j -> znth a i <= znth a x) ->
  let b := insert_inner k a i j in
  shuffled i r a b /\ forall x, i < x <= r -> znth b i <= znth b x.
Proof.
  induction k as [|k IH]; intros a l r i j Hw Hi Hk Hmin; cbn [insert_inner].
  { split; [apply shuffled_refl|]. intros x Hx. apply Hmin. lia. }
  destruct (Z.ltb_spec (znth a j) (znth a i)) as [Hlt|Hge].
  - assert (Hs : shuffled i r a (swap a i j)).
    { destruct Hw as (H1 & H2 & H3). apply swap_shuffled; [split; lia|lia|lia]. }
    destruct (IH (swap a i j) l r i (j + 1)) as [S1 M1]; [by eapply within_shuffled|lia|lia| |].
    { intros x Hx. destruct Hw as (H1 & H2 & H3). rewrite !znth_swap by lia.
      destruct (Z.eqb_spec i j); [lia|]. rewrite Z.eqb_refl. destruct (Z.eqb_spec x j); [lia|].
      destruct (Z.eqb_spec x i); [lia|]. specialize (Hmin x ltac:(lia)). lia. }
    split; [|done]. by eapply shuffled_trans.
  - apply (IH a l r i (j + 1)); [done|lia|lia|]. intros x Hx. destruct (decide (x = j)) as [->|]; [lia|].
    apply Hmin. lia.
Qed.
Lemma insert_outer_spec k : forall a l r i, within l r a -> l <= i -> i + Z.of_nat k = Z.max i r ->
  (forall x y, l <= x < i -> x <= y <= r -> znth a x <= znth a y) ->
  let b := insert_outer k a i r in shuffled l r a b /\ sorted l r b.
Proof.
  induction k as [|k IH]; intros a l r i Hw Hi Hk Hs; cbn [insert_outer].
  { split; [apply shuffled_refl|]. intros x y Hx Hy. destruct (decide (x = y)) as [->|]; [lia|]. apply Hs; lia. }
  destruct (insert_inner_spec (Z.to_nat (r - i)) a l r i (i + 1) Hw) as [S1 M1]; [lia|lia|lia|].
  set (b := insert_inner _ _ _ _) in *. assert (S2 : shuffled l r a b) by (eapply shuffled_wider; [exact S1|lia|lia]).
  destruct (IH b l r (i + 1)) as [S3 O3]; [by eapply within_shuffled|lia|lia| |].
  { intros x y Hx Hy. destruct (decide (x = i)) as [->|Hxi].
    - destruct (decide (y = i)) as [->|]; [lia|]. apply M1. lia.
    - destruct S1 as [P1 O1]. rewrite (O1 x) by lia. destruct (decide (y < i)) as [Hy'|Hy'].
      + rewrite (O1 y) by lia. apply Hs; lia.
      + assert (Hw' : within i r a) by (destruct Hw as (? & ? & ?); split; lia).
        apply (shuffled_all (fun v => znth a x <= v) i r a b Hw' (conj P1 O1)); [|lia].
        intros z Hz. apply Hs; lia. }
  split; [|done]. by eapply shuffled_trans.
Qed.
Lemma insertionSort_spec a l r : within l r a ->
  shuffled l r a (insertionSort a l r) /\ sorted l r (insertionSort a l r).
Proof. intros Hw. apply (insert_outer_spec _ a l r l Hw); [lia|lia|]. intros x y Hx. lia. Qed.

(** ** Partition *)
Lemma scan_up_spec k a r p : forall i, Z.of_nat k = Z.max 0 (r - i) ->
  exists i', scan_up k a i r p = Some i' /\ i < i' /\ (forall x, i < x < i' -> x <= r /\ znth a x < p) /\
    (i' <= r -> p <= znth a i').
Proof.
  induction k as [|k IH]; intros i Hk; cbn [scan_up]; cbv zeta.
  - destruct (Z.leb_spec (i + 1) r); [lia|]. exists (i + 1). split; [done|]. split; [lia|]. split; intros; lia.
  - destruct (Z.leb_spec (i + 1) r), (Z.ltb_spec (znth a (i + 1)) p); cbn [andb].
    1: { destruct (IH (i + 1)) as (i' & E & Hi & Hl & Hr); [lia|]. exists i'. split; [done|]. split; [lia|].
      split; [|done]. intros x Hx. destruct (decide (x = i + 1)) as [->|]; [lia|]. apply Hl. lia. }
    all: exists (i + 1); split; [done|]; split; [lia|]; split; intros; lia.
Qed.
Lemma scan_down_spec k a l p : forall j, Z.of_nat k = Z.max 0 (j - l) ->
  exists j', scan_down k a j l p = Some j' /\ j' < j /\ (forall x, j' < x < j -> l <= x /\ p < znth a x) /\
    (l <= j' -> znth a j' <= p).
Proof.
  induction k as [|k IH]; intros j Hk; cbn [scan_down]; cbv zeta.
  - destruct (Z.leb_spec l (j - 1)); [lia|]. exists (j - 1). split; [done|]. split; [lia|]. split; intros; lia.
  - destruct (Z.leb_spec l (j - 1)), (Z.ltb_spec p (znth a (j - 1))); cbn [andb].
    1: { destruct (IH (j - 1)) as (j' & E & Hj & Hl & Hr); [lia|]. exists j'. split; [done|]. split; [lia|].
      split; [|done]. intros x Hx. destruct (decide (x = j - 1)) as [->|]; [lia|]. apply Hl. lia. }
    all: exists (j - 1); split; [done|]; split; [lia|]; split; intros; lia.
Qed.

(** The loop's invariant: both ends are scanned, and there is an element to stop at. *)
Record part_inv (a : list Z) (i j l r p : Z) : Prop := {
  pv_order : l - 1 <= i < j /\ j <= r + 1;
  pv_low : forall x, l <= x <= i -> znth a x <= p;
  pv_high : forall x, j <= x <= r -> p <= znth a x;
  pv_stop : (exists x, l <= x < j /\ i <= x /\ znth a x <= p)
}.
Lemma partition_loop_spec fuel l r p : forall a i j, within l r a -> part_inv a i j l r p ->
  j - i <= Z.of_nat fuel ->
  exists b q, partition_loop fuel a i j l r p = Some (b, q) /\ shuffled l r a b /\ l <= q <= r /\
    (forall x, l <= x <= q -> znth b x <= p) /\ (forall x, q < x <= r -> p <= znth b x).
Proof.
  induction fuel as [|fuel IH]; intros a i j Hw [Ho Hl Hh (x0 & Hx0 & Hx0' & Hx0p)] Hf; [lia|].
  cbn [partition_loop]. destruct (scan_up_spec (Z.to_nat (r - i)) a r p i) as (i' & -> & Hi & Hil & Hir); [lia|].
  destruct (scan_down_spec (Z.to_nat (j - l)) a l p j) as (j' & -> & Hj & Hjl & Hjr); [lia|].
  cbn [mbind option_bind]. assert (Hq : l <= j').
  { destruct (decide (j' < x0)) as [Hc|]; [|lia]. specialize (Hjl x0 ltac:(lia)). lia. }
  destruct (Z.leb_spec j' i') as [Hji|Hij].
  - exists a, j'. split; [done|]. split; [apply shuffled_refl|]. split; [lia|]. split.
    + intros x Hx. destruct (decide (x = j')) as [->|]; [by apply Hjr|].
      destruct (decide (x <= i)); [apply Hl; lia|]. specialize (Hil x ltac:(lia)). lia.
    + intros x Hx. destruct (decide (j <= x)); [apply Hh; lia|]. specialize (Hjl x ltac:(lia)). lia.
  - assert (Hs : shuffled l r a (swap a i' j')) by (apply swap_shuffled; [done|lia|lia]).
    assert (Hwi : 0 <= i' < zlen a /\ 0 <= j' < zlen a) by (destruct Hw as (? & ? & ?); lia).
    assert (V : forall x, znth (swap a i' j') x = if x =? j' then znth a i' else if x =? i' then znth a j' else znth a x)
      by (intros x; apply znth_swap; apply Hwi).
    specialize (Hir ltac:(lia)). specialize (Hjr Hq).
    destruct (IH (swap a i' j') i' j') as (b & q & E & S1 & R); [by eapply within_shuffled| |lia|].
    + split; [lia| | |].
      * intros x Hx. rewrite V. destruct (Z.eqb_spec x j'); [lia|]. destruct (Z.eqb_spec x i'); [lia|].
        destruct (decide (x <= i)); [apply Hl; lia|]. specialize (Hil x ltac:(lia)). lia.
      * intros x Hx. rewrite V. destruct (Z.eqb_spec x j'); [lia|]. destruct (Z.eqb_spec x i'); [lia|].
        destruct (decide (j <= x)); [apply Hh; lia|]. specialize (Hjl x ltac:(lia)). lia.
      * exists i'. split; [lia|]. split; [lia|]. rewrite V. destruct (Z.eqb_spec i' j'); [lia|]. by rewrite Z.eqb_refl.
    + exists b, q. split; [done|]. split; [by eapply shuffled_trans|done].
Qed.

(** Partition returns in the range and with the range permuted, every element up to the
    returned index at most the pivot, every later one at least the pivot. *)
Theorem partition_spec a l r rnd : within l r a -> l <= r ->
  exists b q p, partition a l r rnd = Some (b, q) /\ shuffled l r a b /\ l <= q <= r /\
    (forall x, l <= x <= q -> znth b x <= p) /\ (forall x, q < x <= r -> p <= znth b x).
Proof.
  intros Hw Hlr. unfold partition. cbv zeta. set (m := rnd mod (r - l + 1)).
  assert (Hm : 0 <= m < r - l + 1) by (apply Z.mod_pos_bound; lia).
  destruct (partition_loop_spec (Z.to_nat (r - l + 1 + 1)) l r (znth a (l + m)) a (l - 1) (r + 1) Hw)
    as (b & q & E & R); [|lia|by exists b, q, (znth a (l + m))].
  split; [lia| | |].
  - intros x Hx. lia.
  - intros x Hx. lia.
  - exists (l + m). lia.
Qed.
Lemma partition_spec_witness : exists b q, partition [3; 1; 2; 9; 8; 7] 0 5 3 = Some (b, q) /\ 0 <= q <= 5.
Proof.
  destruct (partition_spec [3; 1; 2; 9; 8; 7] 0 5 3) as (b & q & p & E & _ & H & _).
  - repeat split; vm_compute; first [reflexivity|discriminate].
  - lia.
  - exists b, q. split; [exact E|exact H].
Defined.

(** ** The threads of the quicksort *)

(** The call tree works inside the range, its branches on both sides of an index. *)
Fixpoint qinv (l r : Z) (t : qcall) : Prop :=
  match t with
  | QSort l' r' => l <= l' /\ l' <= r' + 1 /\ r' <= r
  | QWait t1 t2 => exists p, l <= p <= r /\ qinv l (p - 1) t1 /\ qinv (p + 1) r t2
  | QDone => True
  end.
Fixpoint qsize (t : qcall) : Z :=
  match t with
  | QSort l r => 4 * (r + 1 - l) + 2
  | QWait t1 t2 => 1 + qsize t1 + qsize t2
  | QDone => 0
  end.
Definition before (p q : Z * Z) : Prop := p.2 < q.1.

Lemma qinv_ranges t : forall l r, qinv l r t ->
  Forall (fun p => l <= p.1 /\ p.1 <= p.2 + 1 /\ p.2 <= r) (qranges t) /\ StronglySorted before (qranges t) /\ 0 <= qsize t.
Proof.
  induction t as [l' r'|t1 IH1 t2 IH2|]; intros l r; cbn [qinv qranges qsize].
  - intros H. split; [by constructor|]. split; [by repeat constructor|lia].
  - intros (p & Hp & H1 & H2). destruct (IH1 _ _ H1) as (F1 & S1 & N1), (IH2 _ _ H2) as (F2 & S2 & N2).
    split; [|split; [|lia]].
    + apply Forall_app. split; eapply Forall_impl; try eassumption; cbn; intros x Hx; lia.
    + apply StronglySorted_app_2; [|done..]. intros x y Hx Hy. rewrite Forall_forall in F1, F2.
      specialize (F1 x Hx). specialize (F2 y Hy). unfold before. lia.
  - intros _. split; [constructor|]. split; [constructor|lia].
Qed.
Lemma within_sub l r l' r' a : within l r a -> l <= l' -> l' <= r' + 1 -> r' <= r -> within l' r' a.
Proof. intros (H1 & H2 & H3) ? ? ?. split; lia. Qed.
Ltac wsub := match goal with H : within _ _ ?a |- within _ _ ?a => apply (within_sub _ _ _ _ _ H); lia end.
Lemma qstep_inv s s' : qstep s s' -> forall l r, within l r s.1 -> qinv l r s.2 ->
  shuffled l r s.1 s'.1 /\ qinv l r s'.2 /\ qsize s'.2 < qsize s.2.
Proof.
  induction 1 as [a l' r' Hlt|a l' r' Hlt Hsm|a l' r' rnd a' p Hsz Hp|a a' t1 t1' t2 _ IH|a a' t1 t2 t2' _ IH|a];
    cbn [fst snd qinv qsize] in *; intros l r Hw Hq.
  - split; [apply shuffled_refl|]. split; [done|lia].
  - split; [|split; [done|lia]]. destruct (insertionSort_spec a l' r') as [Hs _]; [wsub|].
    eapply shuffled_wider; [exact Hs|lia|lia].
  - destruct (partition_spec a l' r' rnd) as (b & q & v & E & Hs & Hqr & _); [wsub|lia|].
    rewrite Hp in E. injection E as -> ->. split; [eapply shuffled_wider; [exact Hs|lia|lia]|].
    split; [|lia]. exists q. split; [lia|]. split; lia.
  - destruct Hq as (p & Hp & H1 & H2). destruct (IH l (p - 1)) as (Hs & Hq & Hn); [wsub|done|].
    split; [eapply shuffled_wider; [exact Hs|lia|lia]|]. split; [by exists p|]. lia.
  - destruct Hq as (p & Hp & H1 & H2). destruct (IH (p + 1) r) as (Hs & Hq & Hn); [wsub|done|].
    split; [eapply shuffled_wider; [exact Hs|lia|lia]|]. split; [by exists p|]. lia.
  - split; [apply shuffled_refl|]. split; [done|lia].
Qed.
Lemma qstep_progress t : forall a l r, within l r a -> qinv l r t -> t = QDone \/ exists s, qstep (a, t) s.
Proof.
  induction t as [l' r'|t1 IH1 t2 IH2|]; intros a l r Hw Hq; [right|right|by left].
  - cbn [qinv] in Hq. destruct (decide (r' <= l')); [eexists; by constructor|].
    destruct (decide (r' - l' + 1 <= 5)); [eexists; constructor; lia|].
    destruct (partition_spec a l' r' 0) as (b & q & v & E & _); [wsub|lia|].
    eexists. eapply q_split; [lia|exact E].
  - cbn [qinv] in Hq. destruct Hq as (p & Hp & H1 & H2).
    destruct (IH1 a l (p - 1)) as [->|([a1 t1'] & E)]; [wsub|done| |eexists; by apply q_left].
    destruct (IH2 a (p + 1) r) as [->|([a2 t2'] & E)]; [wsub|done| |eexists; by apply q_right].
    eexists. apply q_join.
Qed.

(** C15: however its threads interleave and whatever [rand] returns, the concurrent
    quicksort only permutes its range, at every moment the running calls have disjoint
    ranges, it is never stuck before it returns, and it makes a bounded number of steps. *)
Theorem quicksort_race_free a l r n b t : within l r a -> nsteps qstep n (a, QSort l r) (b, t) ->
  shuffled l r a b /\ StronglySorted before (qranges t) /\
  Forall (fun p => l <= p.1 /\ p.2 <= r) (qranges t) /\
  (t = QDone \/ exists s, qstep (b, t) s) /\ Z.of_nat n <= 4 * (r + 1 - l) + 2.
Proof.
  intros Hw Hn.
  assert (H : forall n s s', nsteps qstep n s s' -> within l r s.1 -> qinv l r s.2 ->
    shuffled l r s.1 s'.1 /\ qinv l r s'.2 /\ Z.of_nat n + qsize s'.2 <= qsize s.2).
  { clear. intros n s s' H. induction H as [s|n s1 s2 s3 H12 H23 IH]; intros Hw Hq.
    - split; [apply shuffled_refl|]. split; [done|lia].
    - destruct (qstep_inv _ _ H12 l r Hw Hq) as (S1 & Q1 & N1).
      destruct IH as (S2 & Q2 & N2); [by eapply within_shuffled|done|].
      split; [by eapply shuffled_trans|]. split; [done|lia]. }
  destruct (H _ _ _ Hn) as (Hs & Hq & Hm); [done|cbn; destruct Hw as (? & ? & ?); lia|]. cbn [fst snd qsize] in *.
  destruct (qinv_ranges _ _ _ Hq) as (F & S1 & N1). split; [done|]. split; [done|].
  split; [eapply Forall_impl; [exact F|]; cbn; intros x Hx; lia|].
  split; [|lia]. eapply qstep_progress; [by eapply within_shuffled|done].
Qed.
Lemma quicksort_race_free_witness : exists b t,
  nsteps qstep 1 ([3; 1; 2; 9; 8; 7], QSort 0 5) (b, t) /\ StronglySorted before (qranges t) /\ b ≡ₚ [3; 1; 2; 9; 8; 7].
Proof.
  assert (Hn : nsteps qstep 1 ([3; 1; 2; 9; 8; 7], QSort 0 5) ([2; 1; 3; 9; 8; 7], QWait (QSort 0 0) (QSort 2 5))).
  { apply nsteps_once, (q_split _ 0 5 0 _ 1); [lia|reflexivity]. }
  assert (Hw : within 0 5 [3; 1; 2; 9; 8; 7]) by (repeat split; vm_compute; first [reflexivity|discriminate]).
  destruct (quicksort_race_free _ _ _ _ _ _ Hw Hn) as ([Hp _] & Hs & _).
  eexists _, _. split; [exact Hn|]. split; [exact Hs|]. symmetry. exact Hp.
Defined.

(** The index a partition returns is not sorted any more, although its element need not be
    the largest of the left part: six elements can end up out of order. *)
Lemma quicksort_unsorted :
  normal_quicksort 10 (fun _ => 0) ([3; 1; 2; 9; 8; 7], O) 0 5 = Some ([2; 1; 3; 7; 8; 9], 1%nat) /\
  ~ sorted 0 5 [2; 1; 3; 7; 8; 9].
Proof. split; [reflexivity|]. intros H. specialize (H 0 1 ltac:(lia) ltac:(lia)). vm_compute in H. by apply H. Qed.

(** ** Merging *)
Lemma seg_cons a l r : within l r a -> l <= r -> seg l r a = znth a l :: seg (l + 1) r a.
Proof.
  intros (H1 & H2 & H3) Hl. unfold seg. replace (Z.to_nat (r + 1 - l)) with (S (Z.to_nat (r + 1 - (l + 1)))) by lia.
  rewrite (drop_S a (znth a l) (Z.to_nat l)) by (apply lookup_znth; lia). cbn [take]. do 3 f_equal. lia.
Qed.
Lemma seg_nil a l r : r < l -> seg l r a = [].
Proof. intros H. unfold seg. replace (Z.to_nat (r + 1 - l)) with O by lia. done. Qed.
Lemma seg_elem a l r x : within l r a -> x ∈ seg l r a -> exists k, l <= k <= r /\ x = znth a k.
Proof.
  intros Hw Hx. assert (F : Forall (fun x => exists k, l <= k <= r /\ x = znth a k) (seg l r a)).
  { apply seg_Forall; [done|]. intros k Hk. by exists k. }
  rewrite Forall_forall in F. by apply F.
Qed.
Lemma seg_sorted a r : forall k l, within l r a -> Z.of_nat k = r + 1 - l -> sorted l r a -> StronglySorted Z.le (seg l r a).
Proof.
  induction k as [|k IH]; intros l Hw Hk Hs; [rewrite seg_nil by lia; constructor|].
  rewrite seg_cons by (first [done|lia]). assert (Hw' : within (l + 1) r a) by (wsub).
  constructor.
  - apply IH; [done|lia|]. intros i j Hi Hj. apply Hs; lia.
  - apply seg_Forall; [done|]. intros j Hj. apply Hs; lia.
Qed.
Lemma seg_app a r m : forall k l, within l r a -> Z.of_nat k = m + 1 - l -> m <= r ->
  seg l r a = seg l m a ++ seg (m + 1) r a.
Proof.
  induction k as [|k IH]; intros l Hw Hk Hm.
  - rewrite (seg_nil a l m) by lia. by replace (m + 1) with l by lia.
  - rewrite (seg_cons a l r), (seg_cons a l m) by (first [wsub|lia]).
    cbn [app]. f_equal. apply IH; [wsub|lia|lia].
Qed.
Lemma merge_right_spec k a r x : forall j, within j r a -> Z.of_nat k = r + 1 - j -> sorted j r a ->
  exists o j', merge_right k a j r x = (o, j') /\ j <= j' <= r + 1 /\ o = seg j (j' - 1) a /\
    Forall (fun y => y <= x) o /\ (forall y, j' <= y <= r -> x < znth a y).
Proof.
  induction k as [|k IH]; intros j Hw Hk Hs; cbn [merge_right].
  - exists [], j. split; [done|]. split; [lia|]. split; [by rewrite seg_nil by lia|]. split; [constructor|]. intros; lia.
  - destruct (Z.leb_spec j r); [|lia]. destruct (Z.leb_spec (znth a j) x); cbn [andb].
    + destruct (IH (j + 1)) as (o & j' & -> & Hj & -> & Ho & Hy);
        [wsub|lia|intros ? ? ? ?; apply Hs; lia|].
      exists (znth a j :: seg (j + 1) (j' - 1) a), j'. split; [done|]. split; [lia|].
      split; [symmetry; apply seg_cons; [wsub|lia]|]. split; [by constructor|done].
    + exists [], j. split; [done|]. split; [lia|]. split; [by rewrite seg_nil by lia|]. split; [constructor|].
      intros y Hy. specialize (Hs j y ltac:(lia) ltac:(lia)). lia.
Qed.
Lemma merge_left_spec k a m r : forall i j, within i m a -> within j r a -> Z.of_nat k = m + 1 - i ->
  sorted i m a -> sorted j r a ->
  exists o j', merge_left k a i j r = (o, j') /\ j <= j' <= r + 1 /\
    o ≡ₚ seg i m a ++ seg j (j' - 1) a /\ StronglySorted Z.le o /\
    (forall x y, x ∈ o -> j' <= y <= r -> x <= znth a y).
Proof.
  induction k as [|k IH]; intros i j Hwi Hwj Hk Hsi Hsj; cbn [merge_left].
  { exists [], j. split; [done|]. pose proof Hwj as (? & ? & ?). split; [lia|]. rewrite !seg_nil by lia.
    split; [done|]. split; [constructor|]. by intros x y ?%elem_of_nil. }
  destruct (merge_right_spec (Z.to_nat (r + 1 - j)) a r (znth a i) j) as (o1 & j1 & -> & Hj1 & Ho1 & Hle & Hlt);
    [done|destruct Hwj as (? & ? & ?); lia|done|].
  assert (Hwj1 : within j1 r a) by (wsub).
  destruct (IH (i + 1) j1) as (o2 & j2 & -> & Hj2 & Hp & Hs2 & Hb);
    [wsub|done|lia|intros ? ? ? ?; apply Hsi; lia|intros ? ? ? ?; apply Hsj; lia|].
  assert (Hge : forall x, x ∈ o2 -> znth a i <= x).
  { intros x Hx. rewrite Hp in Hx. apply elem_of_app in Hx as [Hx|Hx].
    - apply seg_elem in Hx as (k' & Hk' & ->); [apply Hsi; lia|wsub].
    - apply seg_elem in Hx as (k' & Hk' & ->); [specialize (Hlt k' ltac:(lia)); lia|wsub]. }
  rewrite Forall_forall in Hle.
  exists (o1 ++ znth a i :: o2), j2. split; [done|]. split; [lia|]. split; [|split].
  - rewrite Ho1, Hp, (seg_cons a i m) by (first [done|lia]).
    rewrite (seg_app a (j2 - 1) (j1 - 1) (Z.to_nat (j1 - j)) j) by (first [wsub|lia]).
    replace (j1 - 1 + 1) with j1 by lia. solve_Permutation.
  - apply StronglySorted_app_2.
    + intros x y Hx Hy. specialize (Hle x Hx). apply elem_of_cons in Hy as [->|Hy]; [done|].
      specialize (Hge y Hy). lia.
    + rewrite Ho1. apply (seg_sorted a (j1 - 1) (Z.to_nat (j1 - j))); [wsub|lia|].
      intros ? ? ? ?. apply Hsj; lia.
    + constructor; [done|]. by apply Forall_forall.
  - intros x y Hx Hy. apply elem_of_app in Hx as [Hx|[->|Hx]%elem_of_cons].
    + specialize (Hle x Hx). specialize (Hlt y ltac:(lia)). lia.
    + specialize (Hlt y ltac:(lia)). lia.
    + by apply Hb.
Qed.
Lemma copy_rest_spec k a r : forall j, within j r a -> Z.of_nat k = r + 1 - j -> copy_rest k a j = seg j r a.
Proof.
  induction k as [|k IH]; intros j Hw Hk; cbn [copy_rest]; [by rewrite seg_nil by lia|].
  rewrite (seg_cons a j r) by (first [done|lia]). f_equal. apply IH; [wsub|lia].
Qed.
Lemma splice_seg a l r s : within l r a -> seg l r a ≡ₚ s ->
  shuffled l r a (splice a (Z.to_nat l) s) /\ (StronglySorted Z.le s -> sorted l r (splice a (Z.to_nat l) s)).
Proof.
  intros Hw Hp. pose proof Hw as (H1 & H2 & H3).
  assert (Hl : Z.of_nat (length s) = r + 1 - l).
  { rewrite <-Hp. unfold seg. rewrite length_take, length_drop. unfold zlen in H3. lia. }
  assert (Hfit : (Z.to_nat l + length s <= length a)%nat) by (unfold zlen in H3; lia).
  assert (V : forall k, l <= k <= r -> s !! Z.to_nat (k - l) = Some (znth (splice a (Z.to_nat l) s) k)).
  { intros k Hk. rewrite <-(lookup_splice_in a (Z.to_nat l)) by (first [done|lia]).
    replace (Z.to_nat l + Z.to_nat (k - l))%nat with (Z.to_nat k) by lia. apply lookup_znth.
    unfold zlen in *. rewrite length_splice by done. lia. }
  split; [split|].
  - rewrite (seg_split l r a Hw) at 1. unfold splice. rewrite Hp.
    replace (Z.to_nat l + length s)%nat with (Z.to_nat (r + 1)) by lia. done.
  - intros k Hk. unfold znth. destruct (Z.ltb_spec k 0); [done|]. rewrite !nth_lookup.
    by rewrite lookup_splice_out by (first [done|lia]).
  - intros Hs i j Hi Hj. pose proof (V i ltac:(lia)) as Ei. pose proof (V j ltac:(lia)) as Ej.
    destruct (decide (i = j)) as [->|Hne]; [lia|].
    rewrite <-(take_drop (Z.to_nat (j - l)) s) in Hs. rewrite StronglySorted_app in Hs. destruct Hs as [Hs _].
    apply Hs.
    + apply (list_elem_of_lookup_2 _ (Z.to_nat (i - l))). rewrite lookup_take_lt by lia. done.
    + apply (list_elem_of_lookup_2 _ O). by rewrite lookup_drop, Nat.add_0_r.
Qed.
Lemma quot_mid l r : 0 <= l -> l < r -> l <= Z.quot (l + r) 2 < r.
Proof. intros H1 H2. rewrite Z.quot_div_nonneg by lia. lia. Qed.
Lemma merge_spec a l r : within l r a -> l < r ->
  sorted l (Z.quot (l + r) 2) a -> sorted (Z.quot (l + r) 2 + 1) r a ->
  shuffled l r a (merge a l r) /\ sorted l r (merge a l r).
Proof.
  intros Hw Hlr Hs1 Hs2. unfold merge. cbv zeta. pose proof Hw as (H1 & H2 & H3).
  pose proof (quot_mid l r H1 Hlr) as Hm. set (m := Z.quot (l + r) 2) in *.
  destruct (merge_left_spec (Z.to_nat (m + 1 - l)) a m r l (m + 1)) as (o & j & -> & Hj & Hp & Hs & Hb);
    [wsub|wsub|lia|done|done|].
  assert (Hwj : within j r a) by wsub.
  rewrite (copy_rest_spec (Z.to_nat (r + 1 - j)) a r j Hwj) by lia.
  destruct (splice_seg a l r (o ++ seg j r a) Hw) as [S1 S2].
  - rewrite Hp, (seg_app a r m (Z.to_nat (m + 1 - l)) l) by (first [done|lia]).
    rewrite (seg_app a r (j - 1) (Z.to_nat (j - (m + 1))) (m + 1)) by (first [wsub|lia]).
    replace (j - 1 + 1) with j by lia. by rewrite (assoc_L (++)).
  - split; [done|]. apply S2. apply StronglySorted_app_2; [|done|].
    + intros x y Hx Hy. apply seg_elem in Hy as (k & Hk & ->); [by apply Hb|done].
    + apply (seg_sorted a r (Z.to_nat (r + 1 - j))); [done|lia|]. intros x y Hx Hy. apply Hs2; lia.
Qed.

(** ** Mergesort *)
Fixpoint minv (a : list Z) (l r : Z) (t : mcall) : Prop :=
  match t with
  | MSort l' r' => l' = l /\ r' = r
  | MWait l' r' t1 t2 => l' = l /\ r' = r /\ 0 <= l < r /\
      minv a l (Z.quot (l + r) 2) t1 /\ minv a (Z.quot (l + r) 2 + 1) r t2
  | MDone l' r' => l' = l /\ r' = r /\ sorted l r a
  end.
Fixpoint msize (t : mcall) : Z :=
  match t with
  | MSort l r => Z.max 1 (4 * (r + 1 - l) - 3)
  | MWait _ _ t1 t2 => 1 + msize t1 + msize t2
  | MDone _ _ => 0
  end.
(** Only the range of a call matters to it. *)
Lemma minv_frame a b t : forall l r, (forall k, l <= k <= r -> znth b k = znth a k) -> minv a l r t -> minv b l r t.
Proof.
  induction t as [l' r'|l' r' t1 IH1 t2 IH2|l' r']; intros l r He; cbn [minv]; [done| |].
  - intros (-> & -> & Hlr & H1 & H2). split; [done|]. split; [done|]. split; [done|].
    pose proof (quot_mid l r ltac:(lia) ltac:(lia)).
    split; [apply IH1|apply IH2]; try done; intros k Hk; apply He; lia.
  - intros (-> & -> & Hs). split; [done|]. split; [done|]. intros i j Hi Hj. rewrite !He by lia. by apply Hs.
Qed.
Lemma mstep_inv s s' : mstep s s' -> forall l r, within l r s.1 -> minv s.1 l r s.2 ->
  shuffled l r s.1 s'.1 /\ minv s'.1 l r s'.2 /\ msize s'.2 < msize s.2.
Proof.
  induction 1 as [a l' r' Hlt|a l' r' Hlt Hsm|a l' r' Hsz|a a' l' r' t1 t1' t2 _ IH|a a' l' r' t1 t2 t2' _ IH|a l' r' l1 r1 l2 r2];
    cbn [fst snd minv msize] in *; intros l r Hw Hm.
  - destruct Hm as [-> ->]. destruct Hw as (? & ? & ?). split; [apply shuffled_refl|].
    split; [|lia]. split; [done|]. split; [done|]. intros i j Hi Hj. lia.
  - destruct Hm as [-> ->]. destruct (insertionSort_spec a l r Hw) as [Hs Ho].
    split; [exact Hs|]. split; [done|lia].
  - destruct Hm as [-> ->]. destruct Hw as (? & ? & ?). pose proof (quot_mid l r ltac:(lia) ltac:(lia)).
    split; [apply shuffled_refl|]. repeat split; lia.
  - destruct Hm as (-> & -> & Hlr & H1 & H2). pose proof Hw as (? & ? & ?). pose proof (quot_mid l r ltac:(lia) ltac:(lia)).
    destruct (IH l (Z.quot (l + r) 2)) as (Hs & Hi & Hn); [wsub|done|].
    split; [eapply shuffled_wider; [exact Hs|lia|lia]|]. split; [|lia]. repeat (split; [done|]).
    eapply minv_frame; [|exact H2]. intros k Hk. apply Hs. lia.
  - destruct Hm as (-> & -> & Hlr & H1 & H2). pose proof Hw as (? & ? & ?). pose proof (quot_mid l r ltac:(lia) ltac:(lia)).
    destruct (IH (Z.quot (l + r) 2 + 1) r) as (Hs & Hi & Hn); [wsub|done|].
    split; [eapply shuffled_wider; [exact Hs|lia|lia]|]. split; [|lia]. repeat (split; [done|]).
    split; [|done]. eapply minv_frame; [|exact H1]. intros k Hk. apply Hs. lia.
  - destruct Hm as (-> & -> & Hlr & (-> & -> & H1) & (-> & -> & H2)).
    destruct (merge_spec a l r Hw ltac:(lia) H1 H2) as [Hs Ho].
    split; [exact Hs|]. split; [done|lia].
Qed.
Lemma mstep_progress t : forall a l r, minv a l r t -> (exists l' r', t = MDone l' r') \/ exists s, mstep (a, t) s.
Proof.
  induction t as [l' r'|l' r' t1 IH1 t2 IH2|l' r']; intros a l r Hm; [right|right|left; eauto].
  - destruct (decide (r' < l')); [eexists; by constructor|].
    destruct (decide (r' - l' + 1 <= 5)); [eexists; constructor; lia|]. eexists. apply m_split. lia.
  - destruct Hm as (-> & -> & Hlr & H1 & H2).
    destruct (IH1 a _ _ H1) as [(l1 & r1 & ->)|([a1 t1'] & E)]; [|eexists; by apply m_left].
    destruct (IH2 a _ _ H2) as [(l2 & r2 & ->)|([a2 t2'] & E)]; [|eexists; by apply m_right].
    eexists. apply m_join.
Qed.

(** C16: under every interleaving of its threads or processes the mergesort keeps running
    until it returns, within a bounded number of steps, and then the range is a sorted
    permutation of what it was and the rest of the array is unchanged. *)
Theorem mergesort_sorts a l r n b t : within l r a -> nsteps mstep n (a, MSort l r) (b, t) ->
  shuffled l r a b /\ Z.of_nat n <= Z.max 1 (4 * (r + 1 - l) - 3) /\
  ((exists s, mstep (b, t) s) \/ t = MDone l r /\ sorted l r b).
Proof.
  intros Hw Hn.
  assert (N : forall b l r t, minv b l r t -> 0 <= l -> l <= r + 1 -> 0 <= msize t).
  { clear. intros b l r t. revert l r. induction t as [l' r'|l' r' t1 IH1 t2 IH2|l' r']; intros l r Hm H0 Hlr; cbn [msize minv] in *; [lia| |lia].
    destruct Hm as (-> & -> & Hl & H1 & H2). pose proof (quot_mid l r ltac:(lia) ltac:(lia)).
    specialize (IH1 _ _ H1 ltac:(lia) ltac:(lia)). specialize (IH2 _ _ H2 ltac:(lia) ltac:(lia)). lia. }
  assert (H : forall n s s', nsteps mstep n s s' -> within l r s.1 -> minv s.1 l r s.2 ->
    shuffled l r s.1 s'.1 /\ minv s'.1 l r s'.2 /\ Z.of_nat n + msize s'.2 <= msize s.2).
  { clear. intros n s s' H. induction H as [s|n s1 s2 s3 H12 H23 IH]; intros Hw Hm.
    - split; [apply shuffled_refl|]. split; [done|lia].
    - destruct (mstep_inv _ _ H12 l r Hw Hm) as (S1 & Q1 & N1).
      destruct IH as (S2 & Q2 & N2); [by eapply within_shuffled|done|].
      split; [by eapply shuffled_trans|]. split; [done|lia]. }
  destruct (H _ _ _ Hn) as (Hs & Hm & Hk); [done|done|]. cbn [fst snd msize] in *.
  split; [done|]. pose proof Hw as (? & ? & ?). pose proof (N _ _ _ _ Hm ltac:(lia) ltac:(lia)). split; [lia|].
  destruct (mstep_progress t b l r Hm) as [(l' & r' & ->)|He]; [right|by left].
  destruct Hm as (-> & -> & Ho). done.
Qed.
Lemma mergesort_sorts_witness :
  nsteps mstep 1 ([3; 9; 1; 2], MSort 0 3) ([1; 2; 3; 9], MDone 0 3) /\ sorted 0 3 [1; 2; 3; 9].
Proof.
  assert (Hn : nsteps mstep 1 ([3; 9; 1; 2], MSort 0 3) ([1; 2; 3; 9], MDone 0 3)).
  { apply nsteps_once. change [1; 2; 3; 9] with (insertionSort [3; 9; 1; 2] 0 3). apply m_small; lia. }
  assert (Hw : within 0 3 [3; 9; 1; 2]) by (repeat split; vm_compute; first [reflexivity|discriminate]).
  destruct (mergesort_sorts _ _ _ _ _ _ Hw Hn) as (_ & _ & [([c t] & E)|[_ Hs]]).
  - inversion E.
  - split; [exact Hn|exact Hs].
Defined.

(** The sequential mergesort, with as much fuel as there are elements. *)
Lemma normal_mergesort_sorts fuel : forall a l r, within l r a -> r + 1 - l < Z.of_nat fuel ->
  exists b, normal_mergesort fuel a l r = Some b /\ shuffled l r a b /\ sorted l r b.
Proof.
  induction fuel as [|fuel IH]; intros a l r Hw Hf; cbn [normal_mergesort]; pose proof Hw as (H1 & H2 & H3); [lia|].
  destruct (Z.ltb_spec r l).
  { exists a. split; [done|]. split; [apply shuffled_refl|]. intros i j ? ?. lia. }
  destruct (Z.leb_spec (r - l + 1) 5).
  { destruct (insertionSort_spec a l r Hw). eauto. }
  pose proof (quot_mid l r ltac:(lia) ltac:(lia)) as Hm.
  destruct (IH a l (Z.quot (l + r) 2)) as (b & -> & S1 & O1); [wsub|lia|]. cbn [mbind option_bind].
  assert (Hwb : within l r b) by (by eapply within_shuffled).
  destruct (IH b (Z.quot (l + r) 2 + 1) r) as (c & -> & S2 & O2); [wsub|lia|]. cbn [mbind option_bind].
  assert (Sc : shuffled l r a c).
  { eapply shuffled_trans; eapply shuffled_wider; eauto; lia. }
  destruct (merge_spec c l r) as [S3 O3]; [by eapply within_shuffled|lia| |done|].
  - intros i j Hi Hj. rewrite !(proj2 S2) by lia. by apply O1.
  - exists (merge c l r). split; [done|]. split; [by eapply shuffled_trans|done].
Qed.
