(* ===== verification/Console.v ===== *)
(** * The console: console.c

    Output goes to the serial port and the CGA screen; input is edited a line at a time
    in a ring buffer with three indices. The serial port is the list of bytes sent to it,
    the screen its memory and cursor; [consoleread] runs in segments that end when it
    returns or sleeps. *)
From S2P Require Import Prelude Iface CString Printf.

Record con := Con {
  cn_lock : bool;
  cn_locking : bool;
  cn_panicked : bool;
  cn_uart : list Z;
  cn_crt : list Z;
  cn_pos : Z;
  cn_buf : list Z;
  cn_r : Z;
  cn_w : Z;
  cn_e : Z
}.
Definition set_cn_lock (v : bool) (s : con) : con :=
  Con v (cn_locking s) (cn_panicked s) (cn_uart s) (cn_crt s) (cn_pos s) (cn_buf s) (cn_r s) (cn_w s) (cn_e s).
Definition set_cn_locking (v : bool) (s : con) : con :=
  Con (cn_lock s) v (cn_panicked s) (cn_uart s) (cn_crt s) (cn_pos s) (cn_buf s) (cn_r s) (cn_w s) (cn_e s).
Definition set_cn_panicked (v : bool) (s : con) : con :=
  Con (cn_lock s) (cn_locking s) v (cn_uart s) (cn_crt s) (cn_pos s) (cn_buf s) (cn_r s) (cn_w s) (cn_e s).
Definition set_cn_uart (v : list Z) (s : con) : con :=
  Con (cn_lock s) (cn_locking s) (cn_panicked s) v (cn_crt s) (cn_pos s) (cn_buf s) (cn_r s) (cn_w s) (cn_e s).
Definition set_cn_crt (v : list Z) (s : con) : con :=
  Con (cn_lock s) (cn_locking s) (cn_panicked s) (cn_uart s) v (cn_pos s) (cn_buf s) (cn_r s) (cn_w s) (cn_e s).
Definition set_cn_pos (v : Z) (s : con) : con :=
  Con (cn_lock s) (cn_locking s) (cn_panicked s) (cn_uart s) (cn_crt s) v (cn_buf s) (cn_r s) (cn_w s) (cn_e s).
Definition set_cn_buf (v : list Z) (s : con) : con :=
  Con (cn_lock s) (cn_locking s) (cn_panicked s) (cn_uart s) (cn_crt s) (cn_pos s) v (cn_r s) (cn_w s) (cn_e s).
Definition set_cn_r (v : Z) (s : con) : con :=
  Con (cn_lock s) (cn_locking s) (cn_panicked s) (cn_uart s) (cn_crt s) (cn_pos s) (cn_buf s) v (cn_w s) (cn_e s).
Definition set_cn_w (v : Z) (s : con) : con :=
  Con (cn_lock s) (cn_locking s) (cn_panicked s) (cn_uart s) (cn_crt s) (cn_pos s) (cn_buf s) (cn_r s) v (cn_e s).
Definition set_cn_e (v : Z) (s : con) : con :=
  Con (cn_lock s) (cn_locking s) (cn_panicked s) (cn_uart s) (cn_crt s) (cn_pos s) (cn_buf s) (cn_r s) (cn_w s) v.

Definition BACKSPACE : Z := 256.
Definition INPUT_BUF : Z := 128.
(** [C(x)]: Control-x. *)
Definition ctl (x : Z) : Z := x - 64.

(** ** Output *)

(** The console's [printint]: the bytes it sends. *)
Definition digits_lower : list Z := codes "0123456789abcdef".
Definition kprintint (xx base sign : Z) : list Z :=
  let neg := negb (sign =? 0) && (s32 xx <? 0) in
  let x := if neg then u32 (- s32 xx) else u32 xx in
  let buf := digits_loop 33 (znth digits_lower) x base in
  let buf := if neg then buf ++ [45] else buf in
  rev buf.

(** [memmove] and [memset] of screen cells. *)
Definition scroll (crt : list Z) (pos : Z) : list Z :=
  let crt := take (23 * 80) (drop 80 crt) ++ drop (23 * 80) crt in
  splice crt (Z.to_nat pos) (replicate (Z.to_nat (24 * 80 - pos)) 0).
(** The cursor is read from and written to the CRT controller as 16 bits. *)
Definition cgaputc (c : Z) : M con unit :=
  let! s := get in
  let pos := cn_pos s in
  let (pos, crt) :=
    if c =? 10 then (pos + (80 - pos mod 80), cn_crt s)
    else if c =? BACKSPACE then ((if 0 <? pos then pos - 1 else pos), cn_crt s)
    else (pos + 1, zupd (cn_crt s) pos (Z.lor (Z.land c 255) 1792)) in
  if (pos <? 0) || (25 * 80 <? pos) then panic "pos under/overflow"
  else
  let (pos, crt) := if 24 <=? pos / 80 then (pos - 80, scroll crt (pos - 80)) else (pos, crt) in
  modify (set_cn_pos (u16 pos)) ;;;
  modify (set_cn_crt (zupd crt pos (Z.lor 32 1792))).

Definition uartputc (c : Z) : M con unit := modify (fun s => set_cn_uart (cn_uart s ++ [u8 c]) s).
(** On a machine that has panicked the loop never ends. *)
Definition consputc (c : Z) : M con unit :=
  let! s := get in
  if cn_panicked s then fun _ => NoFuel
  else
  (if c =? BACKSPACE then uartputc 8 ;;; uartputc 32 ;;; uartputc 8 else uartputc c) ;;;
  cgaputc c.
Fixpoint consputs (l : list Z) : M con unit :=
  match l with
  | [] => ret tt
  | c :: l => consputc c ;;; consputs l
  end.

Definition cn_lock_lens : lens con bool := Lens cn_lock set_cn_lock.

(** The format loop of [cprintf]: the bytes for [fmt] with argument words [ap]; [str]
    reads the string of a [%s] argument. [None]: more arguments than given. *)
Fixpoint cprintf_loop (str : Z -> list Z) (fmt ap : list Z) : option (list Z) :=
  match fmt with
  | [] => Some []
  | c :: fmt =>
    if negb (c =? 37) then out ← cprintf_loop str fmt ap; Some (u8 c :: out)
    else
    match fmt with
    | [] => Some []
    | c :: fmt =>
      if c =? 100 then
        match ap with
        | a :: ap => out ← cprintf_loop str fmt ap; Some (kprintint a 10 1 ++ out)
        | [] => None
        end
      else if (c =? 120) || (c =? 112) then
        match ap with
        | a :: ap => out ← cprintf_loop str fmt ap; Some (kprintint a 16 0 ++ out)
        | [] => None
        end
      else if c =? 115 then
        match ap with
        | a :: ap => out ← cprintf_loop str fmt ap;
            Some ((if a =? 0 then codes "(null)" else str a) ++ out)
        | [] => None
        end
      else if c =? 37 then out ← cprintf_loop str fmt ap; Some (37 :: out)
      else out ← cprintf_loop str fmt ap; Some (37 :: u8 c :: out)
    end
  end.
Definition cprintf (str : Z -> list Z) (fmt ap : list Z) : M con unit :=
  let! s := get in
  let locking := cn_locking s in
  when locking (zoom cn_lock_lens spin_acquire) ;;;
  match cprintf_loop str fmt ap with
  | Some out => consputs out
  | None => fun _ => NoFuel
  end ;;;
  when locking (zoom cn_lock_lens spin_release).

(** ** Input *)

Section Console.
Context {P : Type} `{ProcIface P}.

Definition con_lens : lens (con * P) con := Lens fst (fun c s => (c, s.2)).
Definition on_con {A} (m : M con A) : M (con * P) A := zoom con_lens m.

(** [case C('U')]: kill the line. *)
Fixpoint kill_line (fuel : nat) : M con unit :=
  let! s := get in
  if negb (cn_e s =? cn_w s) && negb (znth (cn_buf s) (u32 (cn_e s - 1) mod INPUT_BUF) =? 10) then
    match fuel with
    | O => fun _ => NoFuel
    | S fuel' =>
      modify (set_cn_e (u32 (cn_e s - 1))) ;;;
      consputc BACKSPACE ;;;
      kill_line fuel'
    end
  else ret tt.

(** [default:]: an ordinary character; whether a line is complete. *)
Definition put_char (c : Z) : M con bool :=
  let! s := get in
  if negb (c =? 0) && (u32 (cn_e s - cn_r s) <? INPUT_BUF) then
    let c := if c =? 13 then 10 else c in
    modify (set_cn_buf (zupd (cn_buf s) (cn_e s mod INPUT_BUF) (u8 c))) ;;;
    modify (set_cn_e (u32 (cn_e s + 1))) ;;;
    consputc c ;;;
    let! s := get in
    if (c =? 10) || (c =? ctl 68) || (cn_e s =? u32 (cn_r s + INPUT_BUF)) then
      modify (set_cn_w (cn_e s)) ;;; ret true
    else ret false
  else ret false.

(** One character of [consoleintr]; whether it asks for [procdump]. *)
Definition intr_char (c : Z) : M (con * P) bool :=
  if c =? ctl 80 then ret true
  else if c =? ctl 85 then on_con (kill_line (Z.to_nat INPUT_BUF)) ;;; ret false
  else if (c =? ctl 72) || (c =? 127) then
    let! s := get in
    when (negb (cn_e s.1 =? cn_w s.1)) (
      on_con (modify (set_cn_e (u32 (cn_e s.1 - 1)))) ;;;
      on_con (consputc BACKSPACE)) ;;;
    ret false
  else
    let! line := on_con (put_char c) in
    when line (modify (fun s => (s.1, wakeup ChInput s.2))) ;;;
    ret false.
(** [cs]: what [getc] returns until it returns a negative value. [procdump] only prints. *)
Fixpoint intr_chars (cs : list Z) (doprocdump : bool) : M (con * P) bool :=
  match cs with
  | [] => ret doprocdump
  | c :: cs => let! d := intr_char c in intr_chars cs (doprocdump || d)
  end.
Definition consoleintr (cs : list Z) : M (con * P) bool :=
  on_con (zoom cn_lock_lens spin_acquire) ;;;
  let! d := intr_chars cs false in
  on_con (zoom cn_lock_lens spin_release) ;;;
  ret d.

(** How a segment of [consoleread] ends: it returns, or it sleeps with [n] bytes to go. *)
Inductive con_res :=
| CDone (r : Z) (data : list Z)
| CSleep (n : Z) (data : list Z).

(** [ilock(ip)] and [iunlock(ip)] of the console's inode. *)
Variable con_ilock con_iunlock : M (con * P) unit.

(** The loop, with [cons.lock] held; [acc] is stored at [dst] so far. *)
Fixpoint consoleread_loop (k : nat) (target : Z) (acc : list Z) : M (con * P) con_res :=
  match k with
  | O =>
    on_con (zoom cn_lock_lens spin_release) ;;;
    con_ilock ;;;
    ret (CDone target acc)
  | S k' =>
    let n := Z.of_nat k in
    let! s := get in
    if cn_r s.1 =? cn_w s.1 then
      if cur_killed s.2 then
        on_con (zoom cn_lock_lens spin_release) ;;;
        con_ilock ;;;
        ret (CDone (-1) acc)
      else
        on_con (zoom cn_lock_lens spin_release) ;;;   (* sleep(&input.r, &cons.lock) *)
        ret (CSleep n acc)
    else
    let c := znth (cn_buf s.1) (cn_r s.1 mod INPUT_BUF) in
    on_con (modify (set_cn_r (u32 (cn_r s.1 + 1)))) ;;;
    if c =? ctl 68 then
      (* save ^D for next time, to make sure the caller gets a 0-byte result *)
      when (n <? target) (on_con (modify (fun s => set_cn_r (u32 (cn_r s - 1)) s))) ;;;
      on_con (zoom cn_lock_lens spin_release) ;;;
      con_ilock ;;;
      ret (CDone (target - n) acc)
    else if c =? 10 then
      on_con (zoom cn_lock_lens spin_release) ;;;
      con_ilock ;;;
      ret (CDone (target - (n - 1)) (acc ++ [c]))
    else consoleread_loop k' target (acc ++ [c])
  end.
(** The segment that starts after waking up with [n] bytes to go. *)
Definition consoleread_wake (n target : Z) (acc : list Z) : M (con * P) con_res :=
  on_con (zoom cn_lock_lens spin_acquire) ;;;
  consoleread_loop (Z.to_nat n) target acc.
(** [while(n > 0)] is not entered when [n <= 0]; [target - n] is then 0. *)
Definition consoleread (n : Z) : M (con * P) con_res :=
  con_iunlock ;;;
  consoleread_wake n (Z.max 0 n) [].

Definition consolewrite (buf : list Z) : M (con * P) Z :=
  con_iunlock ;;;
  on_con (zoom cn_lock_lens spin_acquire) ;;;
  on_con (consputs (u8 <$> buf)) ;;;
  on_con (zoom cn_lock_lens spin_release) ;;;
  con_ilock ;;;
  ret (zlen buf).

(** The console's part of [consoleinit]. *)
Definition consoleinit : M (con * P) unit :=
  on_con (modify (set_cn_lock false)) ;;;
  on_con (modify (set_cn_locking true)).
End Console.
