(* ===== verification/ConsoleSpec.v ===== *)
(** * The console against a line editor

    The input ring refines a queue of completed input and a line being edited; the screen
    cursor stays on the screen. *)
From S2P Require Import Prelude Iface CString Printf Console.

(** ** Output *)

(** The cursor is on the first 24 rows, so every cell written exists. *)
Definition screen_ok (s : con) : Prop := 0 <= cn_pos s < 24 * 80 /\ length (cn_crt s) = Z.to_nat (25 * 80).
(** [s'] differs from [s] in the output only. *)
Definition same_input (s s' : con) : Prop :=
  s' = set_cn_uart (cn_uart s') (set_cn_crt (cn_crt s') (set_cn_pos (cn_pos s') s)).

Lemma same_input_refl s : same_input s s.
Proof. by destruct s. Qed.
Lemma same_input_trans s1 s2 s3 : same_input s1 s2 -> same_input s2 s3 -> same_input s1 s3.
Proof. unfold same_input. intros H1 H2. rewrite H2 at 1. rewrite H1. by destruct s1. Qed.
Lemma same_input_fields s s' : same_input s s' -> cn_lock s' = cn_lock s /\ cn_locking s' = cn_locking s /\
  cn_panicked s' = cn_panicked s /\ cn_buf s' = cn_buf s /\ cn_r s' = cn_r s /\ cn_w s' = cn_w s /\ cn_e s' = cn_e s.
Proof. unfold same_input. intros H. rewrite H. done. Qed.

Lemma length_scroll crt pos : length crt = Z.to_nat (25 * 80) -> 0 <= pos -> pos <= 24 * 80 ->
  length (scroll crt pos) = Z.to_nat (25 * 80).
Proof.
  intros Hl H0 H1. unfold scroll. rewrite length_splice; rewrite ?length_replicate, length_app, length_take, !length_drop; lia.
Qed.

Lemma cgaputc_run c s : screen_ok s ->
  exists s', cgaputc c s = Ret tt s' /\ screen_ok s' /\ same_input s s' /\ cn_uart s' = cn_uart s.
Proof.
  intros [Hp Hl]. unfold cgaputc. mrun.
  set (pc := if c =? 10 then _ else _). assert (Hpc : 0 <= pc.1 <= 24 * 80 /\ length pc.2 = Z.to_nat (25 * 80)).
  { unfold pc. destruct (c =? 10); [simpl; lia|]. destruct (c =? BACKSPACE); [simpl; destruct (0 <? cn_pos s) eqn:E; lia|].
    simpl. rewrite length_zupd. lia. }
  destruct pc as [pos crt]. simpl in Hpc. destruct Hpc as [Hpos Hcrt].
  destruct (_ || _) eqn:E; [lia|].
  destruct (Z.leb_spec 24 (pos / 80)) as [Hge|Hlt]; mrun; (eexists; split; [done|]).
  - assert (pos = 1920) as -> by lia. split; [|by destruct s]. unfold screen_ok. cbn [cn_pos cn_crt set_cn_pos set_cn_crt].
    rewrite length_zupd, length_scroll by lia. done.
  - split; [|by destruct s]. unfold screen_ok. cbn [cn_pos cn_crt set_cn_pos set_cn_crt].
    rewrite length_zupd. unfold u16. rewrite Z.mod_small by lia. lia.
Qed.

Lemma consputc_run c s : cn_panicked s = false -> screen_ok s ->
  exists s', consputc c s = Ret tt s' /\ screen_ok s' /\ same_input s s'.
Proof.
  intros Hp Hs. unfold consputc. mrun. rewrite Hp.
  assert (Hu : forall u, exists s', cgaputc c (set_cn_uart u s) = Ret tt s' /\ screen_ok s' /\ same_input s s').
  { intros u. destruct (cgaputc_run c (set_cn_uart u s)) as (s' & E & H1 & H2 & _); [done|].
    exists s'. split; [done|]. split; [done|]. eapply same_input_trans; [|exact H2]. by destruct s. }
  destruct (c =? BACKSPACE); unfold uartputc; mrun; apply Hu.
Qed.

(** ** Input *)

(** The ring holds the queue [q] of completed input followed by the line [l]. *)
Record ring (s : con) (q l : list Z) : Prop := {
  rg_r : 0 <= cn_r s < 2 ^ 32;
  rg_w : cn_w s = u32 (cn_r s + zlen q);
  rg_e : cn_e s = u32 (cn_r s + zlen q + zlen l);
  rg_len : zlen (cn_buf s) = INPUT_BUF;
  rg_fit : zlen q + zlen l <= INPUT_BUF;
  rg_bytes i : 0 <= i < zlen q + zlen l -> znth (cn_buf s) ((cn_r s + i) mod INPUT_BUF) = znth (q ++ l) i;
  rg_line : 10 ∉ l;
  rg_run : cn_panicked s = false;
  rg_screen : screen_ok s
}.

(** The line editor: what a character does to the completed input and the line. *)
Definition edit (st : list Z * list Z) (c : Z) : list Z * list Z :=
  let (q, l) := st in
  if c =? 16 then st                                    (* ^P *)
  else if c =? 21 then (q, [])                          (* ^U *)
  else if (c =? 8) || (c =? 127) then (q, removelast l) (* ^H, delete *)
  else if negb (c =? 0) && (zlen q + zlen l <? INPUT_BUF) then
    let c := if c =? 13 then 10 else c in
    if (c =? 10) || (c =? 4) || (zlen q + zlen l + 1 =? INPUT_BUF) then (q ++ l ++ [c], [])
    else (q, l ++ [c])
  else st.

Lemma ring_same s s' q l : ring s q l -> same_input s s' -> screen_ok s' -> ring s' q l.
Proof.
  intros [] Hs Hok. destruct (same_input_fields s s' Hs) as (_ & _ & E1 & E2 & E3 & E4 & E5).
  split; rewrite ?E1, ?E2, ?E3, ?E4, ?E5; done.
Qed.

Lemma zlen_app {A} (l1 l2 : list A) : zlen (l1 ++ l2) = zlen l1 + zlen l2.
Proof. unfold zlen. rewrite length_app. lia. Qed.
Lemma zlen_nonneg {A} (l : list A) : 0 <= zlen l.
Proof. unfold zlen. lia. Qed.

Lemma znth_app_l l1 l2 i : i < zlen l1 -> znth (l1 ++ l2) i = znth l1 i.
Proof. unfold znth, zlen. intros Hi. case_match; [done|]. rewrite app_nth1 by lia. done. Qed.
Lemma znth_app_last l x : znth (l ++ [x]) (zlen l) = x.
Proof.
  unfold znth, zlen. case_match; [lia|]. rewrite app_nth2 by lia. rewrite Nat2Z.id, Nat.sub_diag. done.
Qed.

(** The last byte of the line goes. *)
Lemma ring_pop s q l x : ring s q (l ++ [x]) -> ring (set_cn_e (u32 (cn_e s - 1)) s) q l.
Proof.
  intros [R W E L F B N P S]. rewrite zlen_app in *. change (zlen [x]) with 1 in *.
  pose proof (zlen_nonneg q). pose proof (zlen_nonneg l).
  split; try done; cbn [cn_r cn_w cn_e cn_buf set_cn_e].
  - rewrite E. unfold u32. lia.
  - lia.
  - intros i Hi. rewrite B by lia. rewrite app_assoc. apply znth_app_l. rewrite zlen_app. lia.
  - intros H'. apply N. apply elem_of_app. by left.
Qed.

Lemma e_is_w s q l : ring s q l -> (cn_e s =? cn_w s) = match l with [] => true | _ => false end.
Proof.
  intros [R W E L F _ _ _ _]. pose proof (zlen_nonneg q). pose proof (zlen_nonneg l). unfold INPUT_BUF in F.
  rewrite W, E. unfold u32. destruct l as [|x l]; [unfold zlen; simpl; lia|].
  assert (zlen (x :: l) = zlen l + 1) by (unfold zlen; simpl; lia). pose proof (zlen_nonneg l). lia.
Qed.

(** The byte before the edit index is the last of the line. *)
Lemma last_byte s q l x : ring s q (l ++ [x]) -> znth (cn_buf s) (u32 (cn_e s - 1) mod INPUT_BUF) = x.
Proof.
  intros [R W E L F B N P S]. rewrite zlen_app in *. change (zlen [x]) with 1 in *.
  pose proof (zlen_nonneg q). pose proof (zlen_nonneg l).
  replace (u32 (cn_e s - 1) mod INPUT_BUF) with ((cn_r s + (zlen q + zlen l)) mod INPUT_BUF)
    by (rewrite E; unfold u32, INPUT_BUF; lia).
  rewrite B by lia. rewrite app_assoc, <-zlen_app. apply znth_app_last.
Qed.

Lemma erase_run s q l x : ring s q (l ++ [x]) ->
  exists s', consputc BACKSPACE (set_cn_e (u32 (cn_e s - 1)) s) = Ret tt s' /\ ring s' q l /\ cn_lock s' = cn_lock s.
Proof.
  intros Hr. pose proof (ring_pop s q l x Hr) as Hp.
  destruct (consputc_run BACKSPACE (set_cn_e (u32 (cn_e s - 1)) s)) as (s' & E & S & I);
    [apply (rg_run _ _ _ Hr)|apply (rg_screen _ _ _ Hr)|].
  exists s'. split; [done|]. split; [by eapply ring_same|]. by destruct (same_input_fields _ _ I) as [-> _].
Qed.

Lemma kill_line_run fuel : forall s q l, ring s q l -> (length l <= fuel)%nat ->
  exists s', kill_line fuel s = Ret tt s' /\ ring s' q [] /\ cn_lock s' = cn_lock s.
Proof.
  induction fuel as [|fuel IH]; intros s q l Hr Hf; cbn [kill_line]; mrun; rewrite (e_is_w _ _ _ Hr);
    (destruct l as [|x l _] using rev_ind; [by exists s|]).
  - rewrite length_app in Hf. simpl in Hf. lia.
  - replace (match l ++ [x] with [] => true | _ => false end) with false by (by destruct l).
    rewrite (last_byte _ _ _ _ Hr). destruct (Z.eqb_spec x 10) as [->|Hx].
    { exfalso. apply (rg_line _ _ _ Hr). apply elem_of_app. right. by left. }
    cbn [negb andb]. mrun. destruct (erase_run s q l x Hr) as (s1 & E & Hr1 & Hl1).
    erewrite bind_eq by exact E. rewrite length_app in Hf. simpl in Hf.
    destruct (IH s1 q l Hr1) as (s2 & E2 & H2 & Hl2); [lia|]. exists s2. split; [done|]. split; [done|congruence].
Qed.

(** Storing a byte at the edit index. *)
Definition stored (s : con) (x : Z) : con :=
  set_cn_e (u32 (cn_e s + 1)) (set_cn_buf (zupd (cn_buf s) (cn_e s mod INPUT_BUF) x) s).

Lemma stored_bytes s q l x : ring s q l -> zlen q + zlen l < INPUT_BUF ->
  forall i, 0 <= i < zlen q + zlen l + 1 ->
    znth (cn_buf (stored s x)) ((cn_r s + i) mod INPUT_BUF) = znth (q ++ l ++ [x]) i.
Proof.
  intros [R W E L F B N P S] Hlt i Hi. pose proof (zlen_nonneg q). pose proof (zlen_nonneg l).
  cbn [stored cn_buf set_cn_e set_cn_buf].
  assert (Ee : cn_e s mod INPUT_BUF = (cn_r s + (zlen q + zlen l)) mod INPUT_BUF)
    by (rewrite E; unfold u32, INPUT_BUF; lia).
  destruct (decide (i = zlen q + zlen l)) as [->|Hne].
  - rewrite Ee, znth_zupd_eq by (rewrite L; unfold INPUT_BUF; lia).
    rewrite app_assoc, <-zlen_app. symmetry. apply znth_app_last.
  - rewrite znth_zupd_ne by (rewrite Ee; unfold INPUT_BUF in *; lia). rewrite B by lia.
    rewrite app_assoc. symmetry. apply znth_app_l. rewrite zlen_app. lia.
Qed.

Lemma ring_push s q l x : ring s q l -> zlen q + zlen l < INPUT_BUF -> x <> 10 -> ring (stored s x) q (l ++ [x]).
Proof.
  intros Hr Hlt Hx. pose proof (stored_bytes s q l x Hr Hlt) as Hb. destruct Hr as [R W E L F B N P S].
  split; rewrite ?zlen_app; change (zlen [x]) with 1; cbn [stored cn_r cn_w cn_e cn_buf set_cn_e set_cn_buf]; try done.
  - rewrite E. unfold u32. lia.
  - unfold zlen. rewrite length_zupd. exact L.
  - lia.
  - intros i Hi. apply Hb. lia.
  - intros [H|H]%elem_of_app; [done|]. apply list_elem_of_singleton in H. done.
Qed.
(** [input.w = input.e]. *)
Lemma ring_commit s q l x : ring s q l -> zlen q + zlen l < INPUT_BUF ->
  ring (set_cn_w (cn_e (stored s x)) (stored s x)) (q ++ l ++ [x]) [].
Proof.
  intros Hr Hlt. pose proof (stored_bytes s q l x Hr Hlt) as Hb. destruct Hr as [R W E L F B N P S].
  split; rewrite ?zlen_app; change (zlen [x]) with 1; change (zlen (A:=Z) []) with 0;
    cbn [stored cn_r cn_w cn_e cn_buf set_cn_e set_cn_buf set_cn_w]; try done.
  - rewrite E. unfold u32. lia.
  - rewrite E. unfold u32. lia.
  - unfold zlen. rewrite length_zupd. exact L.
  - lia.
  - intros i Hi. rewrite app_nil_r. apply Hb. lia.
  - apply not_elem_of_nil.
Qed.

Lemma used_bytes s q l : ring s q l -> u32 (cn_e s - cn_r s) = zlen q + zlen l.
Proof.
  intros [R W E L F _ _ _ _]. pose proof (zlen_nonneg q). pose proof (zlen_nonneg l). unfold INPUT_BUF in F.
  rewrite E. unfold u32. lia.
Qed.

Lemma put_char_run c s q l : ring s q l -> 0 <= c < 256 ->
  exists line s', put_char c s = Ret line s' /\ cn_lock s' = cn_lock s /\
    let st := if negb (c =? 0) && (zlen q + zlen l <? INPUT_BUF) then
        let c := if c =? 13 then 10 else c in
        if (c =? 10) || (c =? 4) || (zlen q + zlen l + 1 =? INPUT_BUF) then (q ++ l ++ [c], [])
        else (q, l ++ [c])
      else (q, l) in
    ring s' st.1 st.2 /\ (line = false -> st.1 = q).
Proof.
  intros Hr Hc. pose proof (used_bytes s q l Hr) as Hu. unfold put_char. mrun. rewrite Hu.
  destruct (negb (c =? 0) && (zlen q + zlen l <? INPUT_BUF)) eqn:Eg; [|by exists false, s].
  set (c' := if c =? 13 then 10 else c). assert (Hc' : 0 <= c' < 256) by (unfold c'; case_match; lia).
  assert (Hlt : zlen q + zlen l < INPUT_BUF) by lia. mrun. rewrite u8_small by done.
  destruct (consputc_run c' (stored s c')) as (s1 & E & S1 & I1);
    [apply (rg_run _ _ _ Hr)|apply (rg_screen _ _ _ Hr)|].
  unfold stored in E at 1. erewrite bind_eq by exact E. mrun.
  destruct (same_input_fields _ _ I1) as (L1 & _ & _ & _ & R1 & _ & E1). rewrite R1, E1.
  assert (Ef : (cn_e (stored s c') =? u32 (cn_r (stored s c') + INPUT_BUF)) = (zlen q + zlen l + 1 =? INPUT_BUF)).
  { destruct Hr as [R W Ee _ _ _ _ _ _]. cbn [stored cn_e cn_r set_cn_e set_cn_buf]. rewrite Ee.
    pose proof (zlen_nonneg q). pose proof (zlen_nonneg l). unfold u32, INPUT_BUF in *. lia. }
  rewrite Ef. change (ctl 68) with 4. destruct (_ || _) eqn:Ec; mrun.
  - eexists true, _. split; [done|]. split; [exact L1|]. split; [|done].
    apply (ring_same (set_cn_w (cn_e (stored s c')) (stored s c'))); [by apply ring_commit| |done].
    rewrite <-E1. unfold same_input in I1 |- *. rewrite I1. done.
  - exists false, s1. split; [done|]. split; [exact L1|]. split; [|done].
    apply (ring_same (stored s c')); [apply ring_push; try done; lia|done|done].
Qed.

Section Refine.
Context {P : Type} `{ProcIface P}.

Lemma on_con_eq {A} (m : M con A) (s : con * P) a c : m s.1 = Ret a c -> on_con m s = Ret a (c, s.2).
Proof. intros E. unfold on_con, zoom. cbn [lget con_lens]. by rewrite E. Qed.

(** [k] wakeups of the readers. *)
Definition woken (k : nat) (p : P) : P := Nat.iter k (wakeup ChInput) p.

(** The state of the console and its clients against the editor: readers are woken
    whenever input is completed. *)
Definition con_step (s s' : con * P) (q : list Z) (st : list Z * list Z) : Prop :=
  ring s'.1 st.1 st.2 /\ cn_lock s'.1 = cn_lock s.1 /\
  exists k, s'.2 = woken k s.2 /\ (k = 0%nat -> st.1 = q).

Lemma intr_char_run c s p q l : ring s q l -> 0 <= c < 256 ->
  exists d s', intr_char c (s, p) = Ret d s' /\ con_step (s, p) s' q (edit (q, l) c).
Proof.
  intros Hr Hc. unfold intr_char, edit. change (ctl 80) with 16. change (ctl 85) with 21. change (ctl 72) with 8.
  destruct (Z.eqb_spec c 16).
  { exists true, (s, p). split; [done|]. split; [done|]. split; [done|]. by exists 0%nat. }
  destruct (Z.eqb_spec c 21).
  { destruct (kill_line_run (Z.to_nat INPUT_BUF) s q l Hr) as (s1 & E & H1 & L1).
    { pose proof (rg_fit _ _ _ Hr). pose proof (zlen_nonneg q). unfold zlen, INPUT_BUF in *. lia. }
    exists false, (s1, p). erewrite bind_eq by (apply on_con_eq; exact E). split; [done|].
    split; [done|]. split; [done|]. by exists 0%nat. }
  destruct ((c =? 8) || (c =? 127)).
  { mrun. cbn [fst snd]. rewrite (e_is_w _ _ _ Hr). destruct l as [|x l _] using rev_ind.
    { exists false, (s, p). split; [done|]. split; [done|]. split; [done|]. by exists 0%nat. }
    replace (match l ++ [x] with [] => true | _ => false end) with false by (by destruct l).
    rewrite removelast_last. destruct (erase_run s q l x Hr) as (s1 & E & H1 & L1).
    exists false, (s1, p). cbn [negb]. mrun. erewrite bind_eq by (apply on_con_eq; done).
    erewrite bind_eq by (apply on_con_eq; exact E). split; [done|]. split; [done|]. split; [done|]. by exists 0%nat. }
  destruct (put_char_run c s q l Hr Hc) as (line & s1 & E & L1 & H1 & H2).
  erewrite bind_eq by (apply on_con_eq; exact E). destruct line; mrun.
  - eexists false, (s1, _). split; [done|]. split; [exact H1|]. split; [done|]. by exists 1%nat.
  - exists false, (s1, p). split; [done|]. split; [exact H1|]. split; [done|]. exists 0%nat. split; [done|]. auto.
Qed.

Lemma intr_chars_run cs : forall d s p q l, ring s q l -> Forall (fun c => 0 <= c < 256) cs ->
  exists d' s', intr_chars cs d (s, p) = Ret d' s' /\ con_step (s, p) s' q (foldl edit (q, l) cs).
Proof.
  induction cs as [|c cs IH]; intros d s p q l Hr Hcs; cbn [intr_chars].
  - exists d, (s, p). split; [done|]. split; [done|]. split; [done|]. by exists 0%nat.
  - inversion_clear Hcs as [|? ? Hc Hcs']. destruct (intr_char_run c s p q l Hr Hc) as (d1 & [s1 p1] & E & R1 & L1 & k & Hk & Hq).
    erewrite bind_eq by exact E. cbn [foldl]. destruct (edit (q, l) c) as [q1 l1]. cbn [fst snd] in *.
    destruct (IH (d || d1) s1 p1 q1 l1 R1 Hcs') as (d2 & s2 & E2 & R2 & L2 & k2 & Hk2 & Hq2).
    exists d2, s2. split; [done|]. split; [done|]. split; [cbn [fst snd] in *; congruence|].
    exists (k2 + k)%nat. cbn [snd] in *. split.
    + rewrite Hk2, Hk. unfold woken. by rewrite Nat.iter_add.
    + intros Hz. rewrite Hq2, Hq; [done|lia|lia].
Qed.

Lemma consoleintr_run s p q l cs : ring s q l -> cn_lock s = false ->
  Forall (fun c => 0 <= c < 256) cs ->
  wp (consoleintr cs) (fun _ s' => con_step (s, p) s' q (foldl edit (q, l) cs)) (s, p).
Proof.
  intros Hr Hl Hcs. apply wp_run. unfold consoleintr.
  assert (Hr1 : ring (set_cn_lock true s) q l) by (by destruct Hr).
  destruct (intr_chars_run cs false _ p q l Hr1 Hcs) as (d & [s1 p1] & E & R1 & L1 & k & Hk & Hq).
  erewrite bind_eq by (apply on_con_eq, (zoom_eq cn_lock_lens _ _ tt true); cbn; by rewrite Hl).
  erewrite bind_eq by exact E.
  erewrite bind_eq by (apply on_con_eq, (zoom_eq cn_lock_lens _ _ tt false); cbn in *; by rewrite L1).
  eexists d, _. split; [done|]. cbn [fst snd] in *. split; [|split; [cbn; done|by exists k]].
  by destruct R1.
Qed.

(** C12: the console interrupt refines the line editor. From a ring that holds a completed
    queue and a line, any characters leave the ring holding what the editor makes of them;
    the queue never exceeds the buffer, the screen cursor stays on the screen, nothing
    panics, and readers are woken whenever the queue changes. *)
Theorem consoleintr_refines s p q l cs : ring s q l -> cn_lock s = false ->
  Forall (fun c => 0 <= c < 256) cs ->
  wp (consoleintr cs) (fun _ s' => con_step (s, p) s' q (foldl edit (q, l) cs)) (s, p).
Proof. apply consoleintr_run. Qed.

(** ** Reading *)

(** What a reader that wants [n] more bytes of [target] takes from the queue: bytes up to
    a newline; a ^D ends the input and is left for the next call unless it comes first; on
    an empty queue it sleeps, or fails if it has been killed. The result, and the queue
    that is left. *)
Fixpoint take_line (killed : bool) (n : nat) (target : Z) (q acc : list Z) : con_res * list Z :=
  match n with
  | O => (CDone target acc, q)
  | S n' =>
    match q with
    | [] => (if killed then CDone (-1) acc else CSleep (Z.of_nat n) acc, [])
    | c :: q' =>
      if c =? 4 then (CDone (target - Z.of_nat n) acc, if Z.of_nat n <? target then q else q')
      else if c =? 10 then (CDone (target - Z.of_nat n') (acc ++ [c]), q')
      else take_line killed n' target q' (acc ++ [c])
    end
  end.

(** [ilock] of the console's inode returns and leaves the console alone. *)
Variable con_ilock : M (con * P) unit.
Hypothesis ilock_ok : forall s, exists p, con_ilock s = Ret tt (s.1, p).

Lemma r_is_w s q l : ring s q l -> (cn_r s =? cn_w s) = match q with [] => true | _ => false end.
Proof.
  intros [R W E L F _ _ _ _]. pose proof (zlen_nonneg q). pose proof (zlen_nonneg l). unfold INPUT_BUF in F.
  rewrite W. destruct q as [|x q]; [unfold u32, zlen; simpl; lia|].
  assert (zlen (x :: q) = zlen q + 1) by (unfold zlen; simpl; lia). pose proof (zlen_nonneg q). unfold u32. lia.
Qed.
Lemma ring_head s q l x : ring s (x :: q) l -> znth (cn_buf s) (cn_r s mod INPUT_BUF) = x.
Proof.
  intros [R W E L F B _ _ _]. pose proof (zlen_nonneg q). pose proof (zlen_nonneg l).
  assert (zlen (x :: q) = zlen q + 1) by (unfold zlen; simpl; lia).
  rewrite <-(Z.add_0_r (cn_r s)), B by lia. done.
Qed.
Lemma ring_take s q l x : ring s (x :: q) l -> ring (set_cn_r (u32 (cn_r s + 1)) s) q l.
Proof.
  intros [R W E L F B N Pn Sc]. pose proof (zlen_nonneg q). pose proof (zlen_nonneg l).
  assert (Hz : zlen (x :: q) = zlen q + 1) by (unfold zlen; simpl; lia). rewrite Hz in *.
  split; cbn [cn_r cn_w cn_e cn_buf set_cn_r]; try done.
  - apply u32_range.
  - rewrite W. unfold u32. lia.
  - rewrite E. unfold u32. lia.
  - lia.
  - intros i Hi. replace ((u32 (cn_r s + 1) + i) mod INPUT_BUF) with ((cn_r s + (i + 1)) mod INPUT_BUF)
      by (unfold u32, INPUT_BUF; lia).
    rewrite B by lia. unfold znth. destruct (Z.ltb_spec (i + 1) 0), (Z.ltb_spec i 0); try lia.
    replace (Z.to_nat (i + 1)) with (S (Z.to_nat i)) by lia. done.
Qed.
(** [input.r--] after a byte that was taken. *)
Lemma ring_untake s : 0 <= cn_r s < 2 ^ 32 ->
  set_cn_r (u32 (cn_r (set_cn_r (u32 (cn_r s + 1)) s) - 1)) (set_cn_r (u32 (cn_r s + 1)) s) = s.
Proof.
  intros Hr. destruct s as [a b c d e f g r w i]. unfold set_cn_r. simpl in *. f_equal. unfold u32. lia.
Qed.

Lemma con_unlock s p {B} (k : unit -> M (con * P) B) : cn_lock s = true ->
  bind (on_con (zoom cn_lock_lens spin_release)) k (s, p) = k tt (set_cn_lock false s, p).
Proof. intros Hl. erewrite bind_eq; [reflexivity|]. apply on_con_eq, (zoom_eq cn_lock_lens _ _ tt false). cbn. by rewrite Hl. Qed.

(** [release(&cons.lock); ilock(ip); return] *)
Lemma con_return s p (r : con_res) q l : ring s q l -> cn_lock s = true ->
  exists s', (on_con (zoom cn_lock_lens spin_release) ;;; con_ilock ;;; ret r) (s, p) = Ret r s' /\
    ring s'.1 q l /\ cn_lock s'.1 = false.
Proof.
  intros Hr Hl. rewrite con_unlock by done. destruct (ilock_ok (set_cn_lock false s, p)) as [p' E].
  erewrite bind_eq by exact E. exists (set_cn_lock false s, p'). split; [done|]. split; [by destruct Hr|done].
Qed.

Lemma consoleread_loop_run k : forall s p q l target acc, ring s q l -> cn_lock s = true ->
  exists s', consoleread_loop con_ilock k target acc (s, p) = Ret (take_line (cur_killed p) k target q acc).1 s' /\
    ring s'.1 (take_line (cur_killed p) k target q acc).2 l /\ cn_lock s'.1 = false.
Proof.
  induction k as [|k IH]; intros s p q l target acc Hr Hl; cbn [consoleread_loop take_line].
  { by apply con_return. }
  mrun. cbn [fst snd]. rewrite (r_is_w _ _ _ Hr). destruct q as [|c q].
  { destruct (cur_killed p); [by apply con_return|]. rewrite con_unlock by done.
    eexists. split; [done|]. split; [by destruct Hr|done]. }
  rewrite (ring_head _ _ _ _ Hr). erewrite bind_eq by (apply on_con_eq; done). cbn [fst snd].
  pose proof (ring_take _ _ _ _ Hr) as Ht. change (ctl 68) with 4. destruct (c =? 4).
  - destruct (Z.of_nat (S k) <? target); mrun.
    + erewrite bind_eq by (apply on_con_eq; done). cbn [fst snd].
      rewrite ring_untake by (by destruct Hr). by apply con_return.
    + by apply con_return.
  - destruct (c =? 10).
    + replace (Z.of_nat (S k) - 1) with (Z.of_nat k) by lia. by apply con_return.
    + by apply IH.
Qed.

(** A segment of [consoleread] takes from the completed queue exactly what the
    specification takes: the bytes up to a newline or the count asked for, an end of file
    for ^D, sleeping on an empty queue; the line being edited is not touched. *)
Theorem consoleread_refines s p q l n target acc : ring s q l -> cn_lock s = false ->
  wp (consoleread_wake con_ilock n target acc)
    (fun r s' => r = (take_line (cur_killed p) (Z.to_nat n) target q acc).1 /\
       ring s'.1 (take_line (cur_killed p) (Z.to_nat n) target q acc).2 l /\ cn_lock s'.1 = false) (s, p).
Proof.
  intros Hr Hl. apply wp_run. unfold consoleread_wake.
  erewrite bind_eq by (apply on_con_eq, (zoom_eq cn_lock_lens _ _ tt true); cbn; by rewrite Hl).
  destruct (consoleread_loop_run (Z.to_nat n) (set_cn_lock true s) p q l target acc) as (s' & E & R & L);
    [by destruct Hr|done|].
  eexists _, s'. split; [exact E|]. done.
Qed.
End Refine.

(** ** An idle console *)

Definition idle : con := Con false true false [] (replicate 2000 0) 0 (replicate 128 0) 4294967290 4294967290 4294967290.
Lemma idle_ring : ring idle [] [].
Proof.
  split; try done.
  - intros i Hi. change (zlen (A:=Z) []) with 0 in Hi. lia.
  - apply not_elem_of_nil.
Qed.

(** "lz", delete, "s", return, "a": the indices wrap around 2^32 on the way. *)
Lemma consoleintr_refines_witness : exists d s', consoleintr [108; 122; 8; 115; 13; 97] (idle, (1, false)) = Ret d s' /\
  ring s'.1 [108; 115; 10] [97].
Proof.
  pose proof (consoleintr_refines (P := lone_proc) idle (1, false) [] [] [108; 122; 8; 115; 13; 97] idle_ring eq_refl
    ltac:(apply (bool_decide_unpack _); vm_compute; exact I)) as H.
  destruct (proj1 (wp_run _ _ _) H) as (d & s' & E & R & _). clear H. exists d, s'. split; [exact E|exact R].
Defined.

(** A reader of 100 bytes gets the line "ok", and the next one the end of the file. *)
Definition two_lines : con :=
  set_cn_e 6 (set_cn_w 5 (set_cn_r 1 (set_cn_buf (0 :: 111 :: 107 :: 10 :: 4 :: 120 :: replicate 122 0) idle))).
Lemma two_lines_ring : ring two_lines [111; 107; 10; 4] [120].
Proof.
  split; try done.
  - intros i Hi. change (zlen [111; 107; 10; 4] + zlen [120]) with 5 in Hi.
    assert (i = 0 \/ i = 1 \/ i = 2 \/ i = 3 \/ i = 4) as [-> |[-> |[-> |[-> | ->]]]] by lia; reflexivity.
  - rewrite list_elem_of_singleton. lia.
Qed.
Lemma consoleread_refines_witness : exists s1 s2,
  consoleread_wake (ret tt) 100 100 [] (two_lines, (1, false)) = Ret (CDone 3 [111; 107; 10]) s1 /\
  consoleread_wake (ret tt) 100 100 [] s1 = Ret (CDone 0 []) s2 /\ ring s2.1 [] [120].
Proof.
  assert (Hi : forall s : con * lone_proc, exists p, ret tt s = Ret tt (s.1, p)) by (intros [c p]; by exists p).
  pose proof (consoleread_refines (ret tt) Hi two_lines (1, false) _ _ 100 100 [] two_lines_ring eq_refl) as H.
  destruct (proj1 (wp_run _ _ _) H) as (r1 & [c1 p1] & E1 & -> & R1 & L1). clear H.
  pose proof (consoleread_refines (ret tt) Hi c1 p1 _ _ 100 100 [] R1 L1) as H.
  destruct (proj1 (wp_run _ _ _) H) as (r2 & s2 & E2 & -> & R2 & _). clear H.
  exists (c1, p1), s2. split; [exact E1|]. split; [exact E2|exact R2].
Defined.
