(* ===== verification/Kbd.v ===== *)
(** * The keyboard: kbd.c, kbd.h

    [kbdgetc] turns the scan codes of a PC keyboard into characters. The controller is the
    list of the bytes waiting in its data port; [static uint shift] is the state. *)
From S2P Require Import Prelude Iface CString Printf Console ConsoleSpec.

Definition SHIFT : Z := 1.
Definition CTL : Z := 2.
Definition ALT : Z := 4.
Definition CAPSLOCK : Z := 8.
Definition NUMLOCK : Z := 16.
Definition SCROLLLOCK : Z := 32.
Definition E0ESC : Z := 64.

(** An array of 256 bytes from its leading elements and its designated ones. *)
Definition table (rows : list Z) (rest : list (Z * Z)) : list Z :=
  foldl (fun m e => zupd m e.1 e.2) (rows ++ replicate (256 - length rows) 0) rest.
Definition shiftcode : list Z :=
  table [] [(29, CTL); (42, SHIFT); (54, SHIFT); (56, ALT); (157, CTL); (184, ALT)].
Definition togglecode : list Z := table [] [(58, CAPSLOCK); (69, NUMLOCK); (70, SCROLLLOCK)].
(** KEY_UP, KEY_DN, KEY_PGUP, KEY_PGDN, KEY_LF, KEY_RT, KEY_HOME, KEY_END, KEY_INS, KEY_DEL *)
Definition special_keys : list (Z * Z) :=
  [(200, 226); (208, 227); (201, 230); (209, 231); (203, 228); (205, 229); (151, 224); (207, 225); (210, 232); (211, 233)].
Definition keypad : list Z := replicate 13 0 ++ codes "789-456+1230." ++ replicate 4 0.
Definition normalmap : list Z :=
  table ([0; 27] ++ codes "1234567890-=" ++ [8; 9] ++ codes "qwertyuiop[]" ++ [10; 0] ++ codes "asdfghjkl;'`" ++ [0] ++
    codes "\zxcvbnm,./" ++ [0; 42; 0; 32] ++ keypad) ((156, 10) :: (181, 47) :: special_keys).
Definition shiftmap : list Z :=
  table ([0; 27] ++ codes "!@#$%^&*()_+" ++ [8; 9] ++ codes "QWERTYUIOP{}" ++ [10; 0] ++ codes "ASDFGHJKL:" ++ [34; 126; 0] ++
    codes "|ZXCVBNM<>?" ++ [0; 42; 0; 32] ++ keypad) ((156, 10) :: (181, 47) :: special_keys).
Definition ctlmap : list Z :=
  table (replicate 16 0 ++ (ctl <$> codes "QWERTYUIOP") ++ [0; 0; 13; 0] ++ (ctl <$> codes "ASDFGHJKL") ++ [0; 0; 0; 0] ++
    (ctl <$> codes "\ZXCVBNM") ++ [0; 0; u8 (ctl 47); 0; 0]) ((156, 13) :: (181, u8 (ctl 47)) :: special_keys).
Definition charcode (i : Z) : list Z :=
  if i =? 0 then normalmap else if i =? 1 then shiftmap else ctlmap.

(** One byte of the data port. *)
Definition kbd_data (shift data : Z) : Z * Z :=
  if data =? 224 then (0, Z.lor shift E0ESC)
  else if negb (Z.land data 128 =? 0) then
    (* key released *)
    let data := if negb (Z.land shift E0ESC =? 0) then data else Z.land data 127 in
    (0, Z.ldiff shift (Z.lor (znth shiftcode data) E0ESC))
  else
    let (data, shift) :=
      if negb (Z.land shift E0ESC =? 0) then (Z.lor data 128, Z.ldiff shift E0ESC) else (data, shift) in
    let shift := Z.lor shift (znth shiftcode data) in
    let shift := Z.lxor shift (znth togglecode data) in
    let c := znth (charcode (Z.land shift (Z.lor CTL SHIFT))) data in
    let c :=
      if negb (Z.land shift CAPSLOCK =? 0) then
        if (97 <=? c) && (c <=? 122) then u32 (c + (65 - 97))
        else if (65 <=? c) && (c <=? 90) then u32 (c + (97 - 65)) else c
      else c in
    (c, shift).
(** The result, the bytes left and [shift]. *)
Definition kbdgetc (port : list Z) (shift : Z) : Z * list Z * Z :=
  match port with
  | [] => (-1, [], shift)
  | data :: port => let (c, shift) := kbd_data shift data in (c, port, shift)
  end.
(** What the calls of [getc] return until there is no data. *)
Fixpoint kbd_chars (fuel : nat) (port : list Z) (shift : Z) : option (list Z * Z) :=
  match fuel with
  | O => None
  | S fuel' =>
    let '(c, port, shift) := kbdgetc port shift in
    if c <? 0 then Some ([], shift)
    else '(cs, shift) ← kbd_chars fuel' port shift; Some (c :: cs, shift)
  end.
(** [consoleintr(kbdgetc)], with the data in the port when the interrupt is handled. *)
Definition kbdintr {P} `{ProcIface P} (port : list Z) (shift : Z) : M (con * P) (bool * Z) :=
  match kbd_chars (S (length port)) port shift with
  | None => fun _ => NoFuel
  | Some (cs, shift) => let! d := consoleintr cs in ret (d, shift)
  end.

(** ** Typing

    Characters and modifier flags stay in their ranges, and typing a text on the keyboard
    gives the console that text. *)

(** *** Flags *)

Definition fits (n x : Z) : Prop := 0 <= x < 2 ^ n.
Lemma fits_bits n x : 0 <= n -> fits n x <-> 0 <= x /\ forall k, n <= k -> Z.testbit x k = false.
Proof.
  intros Hn. split.
  - intros [H0 H1]. split; [done|]. intros k Hk. rewrite <-(Z.mod_small x (2 ^ n)) by done. by apply Z.mod_pow2_bits_high.
  - intros [H0 Hb]. assert (E : x mod 2 ^ n = x).
    { apply Z.bits_inj'. intros k Hk. destruct (Z.lt_ge_cases k n); [by apply Z.mod_pow2_bits_low|]. rewrite Z.mod_pow2_bits_high by lia. by rewrite Hb. }
    unfold fits. rewrite <-E. apply Z.mod_pos_bound. by apply Z.pow_pos_nonneg.
Qed.
Lemma fits_lor n x y : 0 <= n -> fits n x -> fits n y -> fits n (Z.lor x y).
Proof.
  intros Hn [Hx Bx]%fits_bits [Hy By]%fits_bits; [|done..]. apply fits_bits; [done|]. split; [by apply Z.lor_nonneg|].
  intros k Hk. by rewrite Z.lor_spec, Bx, By.
Qed.
Lemma fits_lxor n x y : 0 <= n -> fits n x -> fits n y -> fits n (Z.lxor x y).
Proof.
  intros Hn [Hx Bx]%fits_bits [Hy By]%fits_bits; [|done..]. apply fits_bits; [done|]. split; [by apply Z.lxor_nonneg|].
  intros k Hk. by rewrite Z.lxor_spec, Bx, By.
Qed.
Lemma fits_ldiff n x y : 0 <= n -> fits n x -> fits n (Z.ldiff x y).
Proof.
  intros Hn [Hx Bx]%fits_bits; [|done]. apply fits_bits; [done|]. split; [apply Z.ldiff_nonneg; by left|].
  intros k Hk. by rewrite Z.ldiff_spec, Bx.
Qed.
Lemma fits_znth n l i : 0 <= n -> Forall (fits n) l -> fits n (znth l i).
Proof.
  intros Hn H. assert (Z0 : fits n 0) by (split; [done|by apply Z.pow_pos_nonneg]). unfold znth. case_match; [done|].
  rewrite nth_lookup. destruct (l !! _) eqn:E; [|done]. by apply (Forall_lookup_1 _ _ _ _ H E).
Qed.
#[local] Instance fits_dec n x : Decision (fits n x).
Proof. unfold fits. apply _. Defined.
Lemma tables_ok : Forall (fits 7) shiftcode /\ Forall (fits 7) togglecode /\ Forall (fits 8) normalmap /\ Forall (fits 8) shiftmap /\ Forall (fits 8) ctlmap.
Proof. split_and!; apply (bool_decide_unpack _); vm_compute; exact I. Qed.
Lemma charcode_ok i j : fits 8 (znth (charcode i) j).
Proof. apply fits_znth; [done|]. unfold charcode. destruct tables_ok as (_ & _ & ? & ? & ?). by repeat case_match. Qed.

Lemma kbd_data_typed shift data : fits 7 shift -> fits 8 (kbd_data shift data).1 /\ fits 7 (kbd_data shift data).2.
Proof.
  intros Hs. destruct tables_ok as (T1 & T2 & _). unfold kbd_data. destruct (data =? 224).
  { split; [by vm_compute|by apply fits_lor]. }
  destruct (negb _); [split; [by vm_compute|by apply fits_ldiff]|].
  set (ds := if negb (Z.land shift E0ESC =? 0) then (Z.lor data 128, Z.ldiff shift E0ESC) else (data, shift)).
  assert (Hds : fits 7 ds.2) by (unfold ds; case_match; [by apply fits_ldiff|done]).
  destruct ds as [data' shift'] eqn:E. clear E. cbn [snd] in Hds. cbv zeta. set (sh := Z.lxor _ _).
  assert (Hsh : fits 7 sh) by (apply fits_lxor; [done|apply fits_lor; [done|done|by apply fits_znth]|by apply fits_znth]).
  split; [|done]. cbn [fst]. pose proof (charcode_ok (Z.land sh (Z.lor CTL SHIFT)) data') as Hc. unfold fits in *. change (2 ^ 8) with 256 in *.
  destruct (negb (Z.land sh CAPSLOCK =? 0)); [|done]. repeat case_match; unfold u32 in *; lia.
Qed.

(** C19: types. With [shift] within its seven flags, [kbdgetc] returns -1 when the port is
    empty and a byte otherwise, takes one byte from the port, and leaves [shift] within
    its flags; so every index into the tables is in range. *)
Theorem kbdgetc_typed port shift : 0 <= shift < 128 ->
  let '(c, port', shift') := kbdgetc port shift in
  0 <= shift' < 128 /\ (c = -1 /\ port = [] /\ port' = [] \/ 0 <= c < 256 /\ exists data, port = data :: port').
Proof.
  intros Hs. destruct port as [|data port]; cbn [kbdgetc]; [split; [done|by left]|].
  pose proof (kbd_data_typed shift data Hs) as [H1 H2]. destruct (kbd_data shift data) as [c s']. split; [exact H2|]. right. eauto.
Qed.
Lemma kbdgetc_typed_witness : 0 <= SHIFT < 128 /\ kbdgetc [30; 158] SHIFT = (65, [158], SHIFT) /\
  let '(c, port', shift') := kbdgetc [30; 158] SHIFT in
  0 <= shift' < 128 /\ (c = -1 /\ [30; 158] = [] /\ port' = [] \/ 0 <= c < 256 /\ exists data, [30; 158] = data :: port').
Proof. split; [by vm_compute|]. split; [by vm_compute|]. apply kbdgetc_typed. by vm_compute. Defined.

(** *** Typing a text *)

(** The characters of a port, without fuel. *)
Fixpoint kbd_run (port : list Z) (shift : Z) : list Z * Z :=
  match port with
  | [] => ([], shift)
  | data :: port => let (c, shift) := kbd_data shift data in let (cs, shift) := kbd_run port shift in (c :: cs, shift)
  end.
Lemma kbd_chars_run port : forall shift, fits 7 shift -> kbd_chars (S (length port)) port shift = Some (kbd_run port shift) /\
  Forall (fits 8) (kbd_run port shift).1.
Proof.
  induction port as [|data port IH]; intros shift Hs; [split; [done|constructor]|].
  destruct (kbd_data_typed shift data Hs) as [H1 H2]. change (length (data :: port)) with (S (length port)).
  remember (S (length port)) as f. cbn [kbd_chars kbdgetc kbd_run]. destruct (kbd_data shift data) as [c s1]. cbn [fst snd] in *.
  destruct (IH s1 H2) as [-> IH2]. destruct (kbd_run port s1) as [cs s2]. rewrite (proj2 (Z.ltb_ge c 0)) by (apply H1).
  split; [done|by constructor].
Qed.
Lemma kbd_run_app p1 p2 s : kbd_run (p1 ++ p2) s = ((kbd_run p1 s).1 ++ (kbd_run p2 (kbd_run p1 s).2).1, (kbd_run p2 (kbd_run p1 s).2).2).
Proof.
  revert s. induction p1 as [|d p1 IH]; intros s; cbn [app kbd_run fst snd]; [by destruct (kbd_run p2 s)|].
  destruct (kbd_data s d) as [c s1]. rewrite IH. destruct (kbd_run p1 s1) as [cs s2]. done.
Qed.

(** The key of a character: press and release it, with the left shift key down where needed. *)
Definition find_key (m : list Z) (c : Z) : option Z := (fun e => Z.of_nat e.1) <$> list_find (fun x => x = c) (take 128 m).
Definition keystroke (c : Z) : list Z :=
  match find_key normalmap c with
  | Some k => [k; k + 128]
  | None => match find_key shiftmap c with Some k => [42; k; k + 128; 170] | None => [] end
  end.
Definition keystrokes (text : list Z) : list Z := text ≫= keystroke.
(** The characters with a key: newline, tab, backspace, escape and the printable ones. *)
Definition typable (c : Z) : Prop := 0 < c < 128 /\ keystroke c <> [].
(** Only CAPS LOCK, NUM LOCK and SCROLL LOCK may be on. *)
Definition locks_only (shift : Z) : Prop := exists k, 0 <= k < 8 /\ shift = 8 * k.
Definition caps_case (shift c : Z) : Z :=
  if Z.land shift CAPSLOCK =? 0 then c
  else if (97 <=? c) && (c <=? 122) then c - 32 else if (65 <=? c) && (c <=? 90) then c + 32 else c.
Definition nonzero (l : list Z) : list Z := filter (fun c => c <> 0) l.

Example typable_chars : Forall typable (8 :: 9 :: 10 :: 27 :: seqZ 32 95).
Proof. apply Forall_forall. intros c Hc. assert (H : bool_decide (0 < c < 128) && negb (bool_decide (keystroke c = [])) = true).
  { revert c Hc. apply Forall_forall. apply (bool_decide_unpack _). vm_compute. exact I. }
  apply andb_true_iff in H as [H1%bool_decide_eq_true H2%negb_true_iff%bool_decide_eq_false]. by split. Qed.
Definition keystroke_good (c k : nat) : bool :=
  let c := Z.of_nat c in let s := 8 * Z.of_nat k in
  bool_decide (keystroke c = []) ||
  (let r := kbd_run (keystroke c) s in bool_decide (nonzero r.1 = [caps_case s c]) && (r.2 =? s)).
Lemma keystroke_all : forallb (fun c => forallb (keystroke_good c) (seq 0 8)) (seq 1 127) = true.
Proof. vm_compute. reflexivity. Qed.
Lemma keystroke_run c s : typable c -> locks_only s -> nonzero (kbd_run (keystroke c) s).1 = [caps_case s c] /\ (kbd_run (keystroke c) s).2 = s.
Proof.
  intros [Hc Hk] (k & Hk8 & ->). pose proof keystroke_all as H. rewrite forallb_forall in H. specialize (H (Z.to_nat c)).
  rewrite in_seq in H. specialize (H ltac:(lia)). rewrite forallb_forall in H. specialize (H (Z.to_nat k)). rewrite in_seq in H.
  specialize (H ltac:(lia)). unfold keystroke_good in H. rewrite !Z2Nat.id in H by lia. rewrite bool_decide_eq_false_2 in H by done.
  cbn [orb] in H. cbv zeta in H. apply andb_true_iff in H as [H1%bool_decide_eq_true H2%Z.eqb_eq]. done.
Qed.
Lemma typed text s : Forall typable text -> locks_only s ->
  nonzero (kbd_run (keystrokes text) s).1 = caps_case s <$> text /\ (kbd_run (keystrokes text) s).2 = s.
Proof.
  intros Ht Hs. induction Ht as [|c text Hc _ [IH1 IH2]]; [done|]. change (keystrokes (c :: text)) with (keystroke c ++ keystrokes text).
  destruct (keystroke_run c s Hc Hs) as [E1 E2]. rewrite kbd_run_app, E2. cbn [fst snd]. split; [|done].
  unfold nonzero in *. by rewrite filter_app, E1, IH1.
Qed.
(** The editor ignores NULs. *)
Lemma edit_nonzero cs st : foldl edit st (nonzero cs) = foldl edit st cs.
Proof.
  revert st. induction cs as [|c cs IH]; intros st; [done|]. unfold nonzero. cbn [foldl filter list_filter].
  destruct (decide (c <> 0)) as [|Hc]; [apply IH|]. destruct (Z.eq_dec c 0) as [->|]; [|done]. rewrite IH. f_equal. by destruct st.
Qed.

Lemma locks_fits s : locks_only s -> fits 7 s.
Proof. intros (k & Hk & ->). unfold fits. lia. Qed.

(** C18: typing. With only lock keys on, pressing the keys of a text, the interrupt handler
    leaves the console as the line editor makes it of that text (letters in the other case
    under CAPS LOCK), and the keyboard as it was: the NULs of modifiers and releases have
    no effect. *)
Theorem kbdintr_types {P} `{ProcIface P} (s : con) (p : P) q l shift text :
  ring s q l -> cn_lock s = false -> Forall typable text -> locks_only shift ->
  wp (kbdintr (keystrokes text) shift)
    (fun r s' => r.2 = shift /\ con_step (s, p) s' q (foldl edit (q, l) (caps_case shift <$> text))) (s, p).
Proof.
  intros Hr Hl Ht Hs. destruct (kbd_chars_run (keystrokes text) shift (locks_fits _ Hs)) as [Ec Hb].
  destruct (typed text shift Ht Hs) as [E1 E2]. unfold kbdintr. rewrite Ec. destruct (kbd_run _ _) as [cs s2]. cbn [fst snd] in *. subst s2.
  apply wp_bind. eapply wp_mono; [apply (consoleintr_run s p q l cs Hr Hl Hb)|]. intros d s' Hst. apply wp_ret. split; [done|].
  by rewrite <-E1, edit_nonzero.
Qed.

(** "lS", Enter under CAPS LOCK: the reader will get "Ls". *)
Lemma kbdintr_types_witness : exists r s', kbdintr (keystrokes [108; 83; 10]) CAPSLOCK (idle, (1, false)) = Ret r s' /\
  keystrokes [108; 83; 10] = [38; 166; 42; 31; 159; 170; 28; 156] /\ r.2 = CAPSLOCK /\ ring s'.1 [76; 115; 10] [].
Proof.
  assert (Ht : Forall typable [108; 83; 10]).
  { repeat (apply Forall_cons; split); try apply Forall_nil_2; (split; [lia|discriminate]). }
  pose proof (kbdintr_types (P := lone_proc) idle (1, false) [] [] CAPSLOCK [108; 83; 10] idle_ring eq_refl Ht
    ltac:(exists 1; split; [lia|reflexivity])) as H.
  destruct (proj1 (wp_run _ _ _) H) as (r & s' & E & R & C & _). clear H. exists r, s'. split; [exact E|]. split; [reflexivity|]. split; [exact R|exact C].
Defined.
