(* ===== verification/Exec.v ===== *)
(** * exec.c

    Loading a program: the new page table is built aside and replaces the old one only
    when nothing can fail any more. File system, page allocator and the calling process
    are the parts of one state. The path is its bytes; the argument strings are in memory
    below [KERNBASE], where the current page table shows them. *)
From S2P Require Import Prelude Param Iface Sleeplock CString Fs Kalloc Vm.

Definition ELF_MAGIC : Z := 1179403647.
Definition ELF_PROG_LOAD : Z := 1.

(** elf.h: the fields [exec] reads, from the bytes of the headers. *)
Record elfhdr := Elfhdr { e_magic : Z; e_entry : Z; e_phoff : Z; e_phnum : Z }.
Definition elfhdr_size : Z := 52.
Definition elfhdr_of (b : list Z) : elfhdr := Elfhdr (get32 b 0) (get32 b 24) (get32 b 28) (get16 b 44).
Record proghdr := Proghdr { ph_type : Z; ph_off : Z; ph_vaddr : Z; ph_filesz : Z; ph_memsz : Z }.
Definition proghdr_size : Z := 32.
Definition proghdr_of (b : list Z) : proghdr :=
  Proghdr (get32 b 0) (get32 b 4) (get32 b 8) (get32 b 16) (get32 b 20).

Record xs (T : Type) := Xs {
  x_fs : fs T;
  x_mmu : mmu;
  x_name : list Z;
  x_kstack : Z;
  x_pgdir : Z;
  x_sz : Z;
  x_eip : Z;
  x_esp : Z
}.
Arguments Xs {T}.
Arguments x_fs {T}.
Arguments x_mmu {T}.
Arguments x_name {T}.
Arguments x_kstack {T}.
Arguments x_pgdir {T}.
Arguments x_sz {T}.
Arguments x_eip {T}.
Arguments x_esp {T}.
Definition set_x_fs {T : Type} (v : fs T) (s : xs T) : xs T :=
  Xs v (x_mmu s) (x_name s) (x_kstack s) (x_pgdir s) (x_sz s) (x_eip s) (x_esp s).
Definition set_x_mmu {T : Type} (v : mmu) (s : xs T) : xs T :=
  Xs (x_fs s) v (x_name s) (x_kstack s) (x_pgdir s) (x_sz s) (x_eip s) (x_esp s).
Definition set_x_name {T : Type} (v : list Z) (s : xs T) : xs T :=
  Xs (x_fs s) (x_mmu s) v (x_kstack s) (x_pgdir s) (x_sz s) (x_eip s) (x_esp s).
Definition set_x_kstack {T : Type} (v : Z) (s : xs T) : xs T :=
  Xs (x_fs s) (x_mmu s) (x_name s) v (x_pgdir s) (x_sz s) (x_eip s) (x_esp s).
Definition set_x_pgdir {T : Type} (v : Z) (s : xs T) : xs T :=
  Xs (x_fs s) (x_mmu s) (x_name s) (x_kstack s) v (x_sz s) (x_eip s) (x_esp s).
Definition set_x_sz {T : Type} (v : Z) (s : xs T) : xs T :=
  Xs (x_fs s) (x_mmu s) (x_name s) (x_kstack s) (x_pgdir s) v (x_eip s) (x_esp s).
Definition set_x_eip {T : Type} (v : Z) (s : xs T) : xs T :=
  Xs (x_fs s) (x_mmu s) (x_name s) (x_kstack s) (x_pgdir s) (x_sz s) v (x_esp s).
Definition set_x_esp {T : Type} (v : Z) (s : xs T) : xs T :=
  Xs (x_fs s) (x_mmu s) (x_name s) (x_kstack s) (x_pgdir s) (x_sz s) (x_eip s) v.

Section Exec.
Context {T : Type} `{ProcIface T} `{TxnOps T} `{DevSw T}.
(** [end] and [data] from the linker, and the address of [ustack] on the kernel stack. *)
Variables (kend kdata ustack : Z).

Definition x_fs_lens : lens (xs T) (fs T) := Lens x_fs set_x_fs.
Definition x_mmu_lens : lens (xs T) mmu := Lens x_mmu set_x_mmu.
Definition x_km_lens : lens (xs T) kmem :=
  Lens (fun s => mm_km (x_mmu s)) (fun k s => set_x_mmu (set_mm_km k (x_mmu s)) s).
Definition xfs {A} (m : M (fs T) A) : M (xs T) A := zoom x_fs_lens m.
Definition xkm {A} (m : M kmem A) : M (xs T) A := zoom x_km_lens m.
Definition xtxn {A} (m : M T A) : M (xs T) A := xfs (txn m).

(** [bad:] frees the new page table and lets go of the inode. *)
Definition exec_bad (pgdir : Z) (ip : option nat) : M (xs T) Z :=
  when (negb (pgdir =? 0)) (xkm (freevm kend pgdir)) ;;;
  match ip with
  | Some i => xfs (iunlockput i) ;;; xtxn t_end ;;; ret (-1)
  | None => ret (-1)
  end.

(** The program headers from the [i]th on; the new size, or [None] to go to [bad]. *)
Fixpoint load_segments (k : nat) (ip : nat) (pgdir off sz : Z) : M (xs T) (option Z) :=
  match k with
  | O => ret (Some sz)
  | S k' =>
    let! (n, b) := xfs (readi ip (u32 off) proghdr_size) in
    if negb (n =? proghdr_size) then ret None
    else
    let ph := proghdr_of b in
    if negb (ph_type ph =? ELF_PROG_LOAD) then load_segments k' ip pgdir (off + proghdr_size) sz
    else if ph_memsz ph <? ph_filesz ph then ret None
    else if u32 (ph_vaddr ph + ph_memsz ph) <? ph_vaddr ph then ret None
    else
    let! sz := xkm (allocuvm kend pgdir sz (u32 (ph_vaddr ph + ph_memsz ph))) in
    if sz =? 0 then ret None
    else if negb (ph_vaddr ph mod PGSIZE =? 0) then ret None
    else
    let! r := loaduvm x_km_lens (fun off n => xfs (readi ip off n)) pgdir (ph_vaddr ph) (ph_off ph) (ph_filesz ph) in
    if r <? 0 then ret None else load_segments k' ip pgdir (off + proghdr_size) sz
  end.

Definition set_ustack (i v : Z) : M (xs T) unit := xkm (wr (ustack + 4 * i) v).

(** Push the argument strings, which end inside the process, from [argv[argc]] on: the count and [sp], or [None]. *)
Fixpoint push_args (args : list Z) (pgdir argc sp : Z) : M (xs T) (option (Z * Z)) :=
  match args with
  | [] => ret (Some (argc, sp))
  | a :: args =>
    if MAXARG <=? argc then ret None
    else
    let! s := get in
    match strlen (Z.to_nat (x_sz s)) (km_mem (mm_km (x_mmu s))) a with
    | None => fun _ => NoFuel
    | Some len =>
      let sp := Z.land (u32 (sp - (len + 1))) (u32 (Z.lnot 3)) in
      let! r := xkm (copyout pgdir sp a (len + 1)) in
      if r <? 0 then ret None
      else
      set_ustack (3 + argc) sp ;;;
      push_args args pgdir (argc + 1) sp
    end
  end.

(** [for(last=s=path; *s; s++) if( *s == '/') last = s+1;] *)
Fixpoint last_elem (path last : list Z) : list Z :=
  match path with
  | [] => last
  | c :: path => if c =? slash then last_elem path path else last_elem path last
  end.
(** [safestrcpy(curproc->name, last, 16)] *)
Definition proc_name (old last : list Z) : list Z := splice old 0 (take 15 last ++ [0]).

(** After the inode is released: the stack, the arguments and the switch. *)
Definition exec_stack (path : list Z) (args : list Z) (pgdir sz entry : Z) : M (xs T) Z :=
  (* two pages at the next page boundary, the first inaccessible *)
  let sz := PGROUNDUP sz in
  let! sz := xkm (allocuvm kend pgdir sz (u32 (sz + 2 * PGSIZE))) in
  if sz =? 0 then exec_bad pgdir None
  else
  xkm (clearpteu pgdir (u32 (sz - 2 * PGSIZE))) ;;;
  let! r := push_args args pgdir 0 sz in
  match r with
  | None => exec_bad pgdir None
  | Some (argc, sp) =>
    set_ustack (3 + argc) 0 ;;;
    set_ustack 0 4294967295 ;;;                  (* fake return PC *)
    set_ustack 1 argc ;;;
    set_ustack 2 (u32 (sp - (argc + 1) * 4)) ;;;  (* argv pointer *)
    let sp := u32 (sp - (3 + argc + 1) * 4) in
    let! r := xkm (copyout pgdir sp ustack ((3 + argc + 1) * 4)) in
    if r <? 0 then exec_bad pgdir None
    else
    modify (fun s => set_x_name (proc_name (x_name s) (last_elem path path)) s) ;;;
    (* commit to the user image *)
    let! s := get in
    let oldpgdir := x_pgdir s in
    modify (set_x_pgdir pgdir) ;;;
    modify (set_x_sz sz) ;;;
    modify (set_x_eip entry) ;;;
    modify (set_x_esp sp) ;;;
    zoom x_mmu_lens (switchuvm (Some (x_kstack s, pgdir))) ;;;
    xkm (freevm kend oldpgdir) ;;;
    ret 0
  end.

Definition exec (path : list Z) (args : list Z) : M (xs T) Z :=
  xtxn t_begin ;;;
  let! ip := xfs (namei path) in
  match ip with
  | None => xtxn t_end ;;; ret (-1)
  | Some ip =>
    xfs (ilock ip) ;;;
    (* check the ELF header *)
    let! (n, b) := xfs (readi ip 0 elfhdr_size) in
    if negb (n =? elfhdr_size) then exec_bad 0 (Some ip)
    else
    let elf := elfhdr_of b in
    if negb (e_magic elf =? ELF_MAGIC) then exec_bad 0 (Some ip)
    else
    let! pgdir := xkm (setupkvm kend kdata) in
    if pgdir =? 0 then exec_bad pgdir (Some ip)
    else
    let! r := load_segments (Z.to_nat (e_phnum elf)) ip pgdir (e_phoff elf) 0 in
    match r with
    | None => exec_bad pgdir (Some ip)
    | Some sz =>
      xfs (iunlockput ip) ;;;
      xtxn t_end ;;;
      exec_stack path args pgdir sz (e_entry elf)
    end
  end.
End Exec.
