(* ===== verification/Balance.v ===== *)
(** * Transactions: what runs inside [begin_op] and [end_op]

    A small logic for code that opens and closes transactions: [tx strict d m d'] says that
    [m], entered with [d] transactions of its own open, returns with [d'] open, goes to
    sleep with none closed but its own, and (when [strict]) never writes to the log outside
    a transaction. The rules follow the program
    text; [BalanceFs] applies them to fs.c and [BalanceSys] to the system calls. Here log.c
    is shown to have the property they rest on. *)
From S2P Require Import Prelude Param Iface Log.

Definition outside : string := "log_write outside of trans".

Section Rules.
Context {S : Type} (f : S -> Z) (st : bool).

(** [f] counts all the open transactions of the system. *)
Definition tx {A} (d : nat) (m : M S A) (d' : nat) : Prop := forall s, Z.of_nat d <= f s ->
  match m s with
  | Ret _ s' => f s' - Z.of_nat d' = f s - Z.of_nat d
  | Panic e => st = true -> e <> outside
  | Asleep _ s' => f s - Z.of_nat d <= f s'
  | NoFuel => True
  end.

Lemma tx_ret {A} d (a : A) : tx d (ret a) d.
Proof. intros s _. simpl. lia. Qed.
Lemma tx_bind {A B} d d1 d' (m : M S A) (k : A -> M S B) :
  tx d m d1 -> (forall a, tx d1 (k a) d') -> tx d (bind m k) d'.
Proof.
  intros Hm Hk s Hs. specialize (Hm s Hs). unfold bind. destruct (m s) as [a s1|e|c s1|]; [|done..].
  specialize (Hk a s1 ltac:(lia)). destruct (k a s1); [lia|done|lia|done].
Qed.
Lemma tx_get d : tx d get d.
Proof. intros s _. simpl. lia. Qed.
(** What is read stays true of the state it was read from. *)
Lemma tx_get_bind {A} d d' (k : S -> M S A) :
  (forall s, Z.of_nat d <= f s -> tx d (k s) d') -> tx d (bind get k) d'.
Proof. intros Hk s Hs. by apply (Hk s Hs s). Qed.
Lemma tx_gets {A} d (g : S -> A) : tx d (gets g) d.
Proof. intros s _. simpl. lia. Qed.
Lemma tx_modify d g : (forall s, f (g s) = f s) -> tx d (modify g) d.
Proof. intros Hg s _. simpl. rewrite Hg. lia. Qed.
Lemma tx_when d b m : tx d m d -> tx d (when b m) d.
Proof. destruct b; [done|]. intros _. apply tx_ret. Qed.
Lemma tx_panic {A} d d' e : (st = true -> e <> outside) -> tx d (panic (A := A) e) d'.
Proof. by intros H s _. Qed.
Lemma tx_asleep {A} d d' c : tx d (asleep (A := A) c) d'.
Proof. intros s _. simpl. lia. Qed.
Lemma tx_nofuel {A} d d' : tx d (fun _ => @NoFuel S A) d'.
Proof. by intros s _. Qed.
(** A panic before the count is reached does no harm to what is above it. *)
Lemma tx_le {A} d e (m : M S A) : tx d m d -> (d <= e)%nat -> tx e m e.
Proof. intros Hm He s Hs. specialize (Hm s ltac:(lia)). destruct (m s); [lia|done|lia|done]. Qed.
End Rules.

(** Code that never reports a write outside a transaction, whatever it counts. *)
Abbreviation quiet st m := (tx (fun _ => 0) st 0 m 0).
Definition writes (st : bool) (d : nat) : Prop := st = true -> (1 <= d)%nat.

Lemma tx_zoom {S T A} (l : lens S T) (fS : S -> Z) (fT : T -> Z) st d d' (m : M T A) :
  (forall s, fS s = fT (lget l s)) -> (forall t s, fS (lset l t s) = fT t) ->
  tx fT st d m d' -> tx fS st d (zoom l m) d'.
Proof.
  intros Hg Hs Hm s Hd. rewrite Hg in Hd. specialize (Hm _ Hd). unfold zoom.
  destruct (m (lget l s)); [|done| |done]; rewrite Hs, Hg; lia.
Qed.
Lemma tx_frame {S T A} (l : lens S T) (fS : S -> Z) st d (m : M T A) :
  (forall t s, fS (lset l t s) = fS s) -> quiet st m -> tx fS st d (zoom l m) d.
Proof.
  intros Hs Hm s Hd. specialize (Hm (lget l s) ltac:(lia)). unfold zoom.
  destruct (m (lget l s)); [|done| |done]; rewrite Hs; lia.
Qed.
Lemma quiet_acquire st : quiet st spin_acquire.
Proof. intros [|] _; [by intros _|done]. Qed.
Lemma quiet_release st : quiet st spin_release.
Proof. intros [|] _; [done|by intros _]. Qed.
Lemma writes_S st d : writes st (S d).
Proof. intros _. lia. Qed.
Lemma writes_lax d : writes false d.
Proof. done. Qed.

Create HintDb tx.
#[export] Hint Resolve tx_ret tx_get tx_gets tx_asleep tx_nofuel quiet_acquire quiet_release
  writes_S writes_lax : tx.

(** The rules, driven by the program text; leaves are in the [tx] database or assumed. *)
Ltac tx_leaf := solve [eauto 3 with tx].
Ltac tx_step :=
  lazymatch goal with
  | |- forall _, _ => intros ?
  | |- tx _ _ _ (bind _ _) _ => eapply tx_bind; [|intros ?]
  | |- tx _ _ _ (ret _) _ => apply tx_ret
  | |- tx _ _ _ (modify _) _ => apply tx_modify; intros ?; try solve [reflexivity | cbn; auto with tx]
  | |- tx _ _ _ (when _ _) _ => apply tx_when
  | |- tx _ _ _ (panic _) _ => apply tx_panic; try done
  | |- tx _ _ _ (if ?b then _ else _) _ => destruct b
  | |- tx _ _ _ (let (_, _) := ?p in _) _ => destruct p
  | |- tx _ _ _ (match ?x with _ => _ end) _ => destruct x eqn:?
  | |- tx _ _ _ (let _ := _ in _) _ => cbv zeta
  end.
Ltac tx := repeat first [tx_leaf | tx_step].

(** ** What the log promises *)
Class TxnDepth (T : Type) `{!ProcIface T, !TxnOps T} := {
  t_depth : T -> Z;
  t_depth_wakeup c s : t_depth (wakeup c s) = t_depth s;
  t_read_tx st d dev bn : tx t_depth st d (t_read dev bn) d;
  t_release_tx st d i : tx t_depth st d (t_release i) d;
  t_set_data_tx st d i b : tx t_depth st d (t_set_data i b) d;
  t_write_tx st d i : writes st d -> tx t_depth st d (t_write i) d;
  t_begin_tx st d : tx t_depth st d t_begin (S d);
  t_end_tx st d : tx t_depth st (S d) t_end d
}.
#[export] Hint Resolve t_depth_wakeup t_read_tx t_release_tx t_set_data_tx t_write_tx t_begin_tx t_end_tx : tx.

(** ** The log counts its operations in [log.outstanding] *)
Section LogDepth.
Context {B : Type} `{ProcIface B} `{BlockOps B}.

(** What the block layer must not do: claim to be the log. *)
Class BlockQuiet := {
  blk_read_quiet dev bn : quiet true (blk_read (B := B) dev bn);
  blk_write_quiet i : quiet true (blk_write (B := B) i);
  blk_release_quiet i : quiet true (blk_release (B := B) i);
  blk_set_data_quiet i d : quiet true (blk_set_data (B := B) i d);
  blk_dirty_quiet i : quiet true (blk_dirty (B := B) i)
}.
Context `{BlockQuiet}.

Lemma quiet_lax {S A} st (m : M S A) : quiet true m -> quiet st m.
Proof. intros Hm s Hs. specialize (Hm s Hs). destruct (m s); auto. Qed.
Lemma log_blk_tx {A} st d (m : M B A) : quiet true m -> tx lg_outstanding st d (log_blk m) d.
Proof. intros Hm. apply tx_frame; [done|]. by apply quiet_lax. Qed.
Lemma lg_lock_tx {A} st d (m : M bool A) : quiet st m ->
  tx (@lg_outstanding B) st d (zoom lg_lock_lens m) d.
Proof. by apply tx_frame. Qed.
Hint Resolve blk_read_quiet blk_write_quiet blk_release_quiet blk_set_data_quiet blk_dirty_quiet
  log_blk_tx lg_lock_tx : tx.

Lemma install_trans_loop_tx st d k : forall t, tx lg_outstanding st d (install_trans_loop k t) d.
Proof. induction k as [|k IH]; intros t; unfold install_trans_loop; fold (install_trans_loop (B := B)); tx. Qed.
Lemma write_log_loop_tx st d k : forall t, tx lg_outstanding st d (write_log_loop k t) d.
Proof. induction k as [|k IH]; intros t; unfold write_log_loop; fold (write_log_loop (B := B)); tx. Qed.
Hint Resolve install_trans_loop_tx write_log_loop_tx : tx.
Lemma write_head_tx st d : tx lg_outstanding st d write_head d.
Proof. unfold write_head. tx. Qed.
Hint Resolve write_head_tx : tx.
Lemma commit_tx st d : tx lg_outstanding st d commit d.
Proof. unfold commit, write_log, install_trans. tx. Qed.
Hint Resolve commit_tx : tx.

Lemma begin_op_tx st d : tx (@lg_outstanding B) st d begin_op (S d).
Proof.
  intros [b [] start size out com dev n bl] Hs; [by intros _|]. unfold begin_op, bind, zoom. simpl in *.
  destruct (negb (com =? 0)); [simpl; lia|]. destruct (LOGSIZE <? _); [simpl; lia|]. simpl. lia.
Qed.
Lemma end_op_tx st d : tx (@lg_outstanding B) st (S d) end_op d.
Proof.
  unfold end_op. eapply (tx_bind _ _ _ (S d)); [tx|intros ?].
  eapply (tx_bind _ _ _ d); [intros s _; simpl; lia|intros ?]. unfold log_wakeup. tx.
Qed.
Lemma log_write_tx st d i : writes st d -> tx (@lg_outstanding B) st d (log_write i) d.
Proof.
  intros Hw. unfold log_write. apply tx_get_bind. intros l Hl.
  destruct (_ || _); [by apply tx_panic|]. destruct (Z.ltb_spec (lg_outstanding l) 1) as [Ho|Ho]; [|tx].
  apply tx_panic. intros Hst. specialize (Hw Hst). lia.
Qed.

#[export] Program Instance log_depth : TxnDepth (log B) := { t_depth := lg_outstanding }.
Next Obligation. done. Qed.
Next Obligation. intros. apply log_blk_tx, blk_read_quiet. Qed.
Next Obligation. intros. apply log_blk_tx, blk_release_quiet. Qed.
Next Obligation. intros. apply log_blk_tx, blk_set_data_quiet. Qed.
Next Obligation. intros. by apply log_write_tx. Qed.
Next Obligation. intros. apply begin_op_tx. Qed.
Next Obligation. intros. apply end_op_tx. Qed.
End LogDepth.
