(* ===== verification/BalanceFs.v ===== *)
(** * The transactions of fs.c

    Every operation of the file system leaves the open transactions as they were; those
    that may write are called inside one. *)
From S2P Require Import Prelude Param Iface Sleeplock CString Fs Balance.

(** Device drivers run no transactions. *)
Class DevDepth (T : Type) `{!ProcIface T, !TxnOps T, !TxnDepth T, !DevSw T} := {
  dev_read_tx st d n g i k : dev_read n = Some g -> tx t_depth st d (g i k) d;
  dev_write_tx st d n g i l k : dev_write n = Some g -> tx t_depth st d (g i l k) d
}.

Section BalanceFs.
Context {T : Type} `{HP : ProcIface T} `{HO : TxnOps T} `{HD : !TxnDepth T} `{HW : DevSw T} `{HDW : !DevDepth T}.
Variable st : bool.
Implicit Types (d : nat).

Definition fs_depth (s : fs T) : Z := t_depth (f_txn s).
Definition lock_depth (s : sleeplock * T) : Z := t_depth s.2.

Lemma txn_tx {A} d d' (m : M T A) : tx t_depth st d m d' -> tx fs_depth st d (txn m) d'.
Proof. by apply tx_zoom. Qed.
Lemma f_lock_tx {A} d (m : M bool A) : quiet st m -> tx fs_depth st d (zoom f_lock_lens m) d.
Proof. by apply tx_frame. Qed.
Lemma inode_lock_tx {A} d i (m : M (sleeplock * T) A) :
  tx lock_depth st d m d -> tx fs_depth st d (zoom (inode_lock_lens i) m) d.
Proof. by apply tx_zoom. Qed.
Hint Resolve txn_tx f_lock_tx inode_lock_tx dev_read_tx dev_write_tx : tx.
Lemma sl_lk_tx {A} d (m : M bool A) : quiet st m -> tx lock_depth st d (zoom sl_lk_lens m) d.
Proof. by apply tx_frame. Qed.
Hint Resolve sl_lk_tx : tx.

Lemma acquiresleep_tx d c : tx lock_depth st d (acquiresleep c) d.
Proof. unfold acquiresleep, acquiresleep_wait. tx. Qed.
Lemma releasesleep_tx d c : tx lock_depth st d (releasesleep c) d.
Proof. unfold releasesleep. tx. Qed.
Lemma holdingsleep_tx d : tx lock_depth st d holdingsleep d.
Proof. unfold holdingsleep. tx. Qed.
Hint Resolve acquiresleep_tx releasesleep_tx holdingsleep_tx : tx.

(** ** Blocks and inodes *)
Lemma bzero_tx d dev b : writes st d -> tx fs_depth st d (bzero dev b) d.
Proof. intros Hw. unfold bzero. tx. Qed.
Hint Resolve bzero_tx : tx.
Lemma balloc_loop_tx k d dev : forall b, writes st d -> tx fs_depth st d (balloc_loop k dev b) d.
Proof. induction k as [|k IH]; intros b Hw; cbn [balloc_loop]; tx. Qed.
Lemma balloc_tx d dev : writes st d -> tx fs_depth st d (balloc dev) d.
Proof. intros Hw. unfold balloc. apply tx_get_bind. intros s _. by apply balloc_loop_tx. Qed.
Lemma bfree_tx d dev b : writes st d -> tx fs_depth st d (bfree dev b) d.
Proof. intros Hw. unfold bfree. tx. Qed.
Hint Resolve balloc_tx bfree_tx : tx.
Lemma iget_tx d dev inum : tx fs_depth st d (iget dev inum) d.
Proof. unfold iget. tx. Qed.
Lemma idup_tx d i : tx fs_depth st d (idup i) d.
Proof. unfold idup. tx. Qed.
Hint Resolve iget_tx idup_tx : tx.
Lemma ialloc_loop_tx k d dev ty : forall i, writes st d -> tx fs_depth st d (ialloc_loop k dev i ty) d.
Proof. induction k as [|k IH]; intros i Hw; cbn [ialloc_loop]; tx. Qed.
Hint Resolve ialloc_loop_tx : tx.
Lemma ialloc_tx d dev ty : writes st d -> tx fs_depth st d (ialloc dev ty) d.
Proof. intros Hw. unfold ialloc. tx. Qed.
Lemma iupdate_tx d i : writes st d -> tx fs_depth st d (iupdate i) d.
Proof. intros Hw. unfold iupdate. tx. Qed.
Lemma ilock_tx d i : tx fs_depth st d (ilock i) d.
Proof. unfold ilock. tx. Qed.
Lemma iunlock_tx d i : tx fs_depth st d (iunlock i) d.
Proof. unfold iunlock. tx. Qed.
Hint Resolve ialloc_tx iupdate_tx ilock_tx iunlock_tx : tx.
Lemma bmap_tx d i b : writes st d -> tx fs_depth st d (bmap i b) d.
Proof. intros Hw. unfold bmap. tx. Qed.
Hint Resolve bmap_tx : tx.
Lemma itrunc_direct_tx k d i : forall n, writes st d -> tx fs_depth st d (itrunc_direct k i n) d.
Proof. induction k as [|k IH]; intros n Hw; cbn [itrunc_direct]; tx. Qed.
Lemma itrunc_indirect_tx k d dev a : forall j, writes st d -> tx fs_depth st d (itrunc_indirect k dev a j) d.
Proof. induction k as [|k IH]; intros j Hw; cbn [itrunc_indirect]; tx. Qed.
Hint Resolve itrunc_direct_tx itrunc_indirect_tx : tx.
Lemma itrunc_tx d i : writes st d -> tx fs_depth st d (itrunc i) d.
Proof. intros Hw. unfold itrunc. tx. Qed.
Hint Resolve itrunc_tx : tx.
Lemma iput_tx d i : writes st d -> tx fs_depth st d (iput i) d.
Proof. intros Hw. unfold iput. tx. Qed.
Hint Resolve iput_tx : tx.
Lemma iunlockput_tx d i : writes st d -> tx fs_depth st d (iunlockput i) d.
Proof. intros Hw. unfold iunlockput. tx. Qed.

Hint Extern 1 (_ <> outside) => done : tx.
(** ** Content, directories and paths *)
Lemma readi_loop_tx k d i n : forall tot off acc, writes st d ->
  tx fs_depth st d (readi_loop k i tot n off acc) d.
Proof. induction k as [|k IH]; intros tot off acc Hw; cbn [readi_loop]; tx. Qed.
Lemma writei_loop_tx k d i src n : forall tot off, writes st d ->
  tx fs_depth st d (writei_loop k i src tot n off) d.
Proof. induction k as [|k IH]; intros tot off Hw; cbn [writei_loop]; tx. Qed.
Hint Resolve iunlockput_tx readi_loop_tx writei_loop_tx : tx.
Lemma readi_tx d i off n : writes st d -> tx fs_depth st d (readi i off n) d.
Proof. intros Hw. unfold readi. tx. Qed.
Lemma writei_tx d i src off n : writes st d -> tx fs_depth st d (writei i src off n) d.
Proof. intros Hw. unfold writei. tx. Qed.
Hint Resolve readi_tx writei_tx : tx.
Lemma read_dirent_tx d dp off msg : writes st d -> msg <> outside ->
  tx fs_depth st d (read_dirent dp off msg) d.
Proof. intros Hw Hm. unfold read_dirent. tx. Qed.
Hint Resolve read_dirent_tx : tx.
Lemma dirlookup_loop_tx k d dp name : forall off, writes st d ->
  tx fs_depth st d (dirlookup_loop k dp name off) d.
Proof. induction k as [|k IH]; intros off Hw; cbn [dirlookup_loop]; tx. Qed.
Hint Resolve dirlookup_loop_tx : tx.
Lemma dirlookup_tx d dp name : writes st d -> tx fs_depth st d (dirlookup dp name) d.
Proof. intros Hw. unfold dirlookup. tx. Qed.
Lemma dirlink_loop_tx k d dp : forall off, writes st d -> tx fs_depth st d (dirlink_loop k dp off) d.
Proof. induction k as [|k IH]; intros off Hw; cbn [dirlink_loop]; tx. Qed.
Hint Resolve dirlookup_tx dirlink_loop_tx : tx.
Lemma dirlink_tx d dp name inum : writes st d -> tx fs_depth st d (dirlink dp name inum) d.
Proof. intros Hw. unfold dirlink. tx. Qed.
Lemma namex_loop_tx k d np : forall ip path name, writes st d ->
  tx fs_depth st d (namex_loop k ip path np name) d.
Proof.
  induction k as [|k IH]; intros ip path name Hw; cbn [namex_loop]; tx.
Qed.
Hint Resolve namex_loop_tx : tx.
Lemma namex_tx d path np name : writes st d -> tx fs_depth st d (namex path np name) d.
Proof. intros Hw. unfold namex. tx. Qed.
Hint Resolve namex_tx : tx.
Lemma namei_tx d path : writes st d -> tx fs_depth st d (namei path) d.
Proof. intros Hw. unfold namei. tx. Qed.
Lemma nameiparent_tx d path name : writes st d -> tx fs_depth st d (nameiparent path name) d.
Proof. intros Hw. unfold nameiparent. tx. Qed.
End BalanceFs.
#[export] Hint Resolve txn_tx ilock_tx iunlock_tx iunlockput_tx iput_tx iupdate_tx ialloc_tx idup_tx iget_tx
  readi_tx writei_tx read_dirent_tx dirlookup_tx dirlink_tx namei_tx nameiparent_tx : tx.

