(* ===== verification/BalanceSys.v ===== *)
(** * The transactions of the system calls

    Every call of sysfile.c closes each transaction it opens before it returns, and but for
    [sys_read] none writes to the log outside of one. *)
From S2P Require Import Prelude Param Iface Sleeplock CString Ide Bio Log Fs Pipe Syscall File Sysfile.
From S2P Require Import Balance BalanceFs.

(** The page allocator runs no transactions. *)
Class PageDepth (T : Type) `{!ProcIface T, !TxnOps T, !TxnDepth T, !PageOps T} := {
  pg_kalloc_tx st d : tx t_depth st d pg_kalloc d;
  pg_kfree_tx st d p : tx t_depth st d (pg_kfree p) d
}.

(** ** Pipes wake processes up and nothing more *)
Section PipeTx.
Context {P : Type} `{ProcIface P} (f : P -> Z) (Hwake : forall c p, f (wakeup c p) = f p) (st : bool).
Definition pipe_depth (s : pipe * P) : Z := f s.2.

Lemma p_lock_tx {A} d (m : M bool A) : quiet st m -> tx pipe_depth st d (zoom p_lock_lens m) d.
Proof. by apply tx_frame. Qed.
Lemma on_pipe_tx d g : tx pipe_depth st d (on_pipe g) d.
Proof. by apply tx_modify. Qed.
Lemma pipe_wakeup_tx d c : tx pipe_depth st d (pipe_wakeup c) d.
Proof. apply tx_modify. intros s. apply Hwake. Qed.
Hint Resolve p_lock_tx on_pipe_tx pipe_wakeup_tx : tx.

Lemma pipeclose_tx d id w : tx pipe_depth st d (pipeclose id w) d.
Proof. unfold pipeclose. tx. Qed.
Lemma pipewrite_loop_tx k d id addr : forall i, tx pipe_depth st d (pipewrite_loop id k addr i) d.
Proof. induction k as [|k IH]; intros i; cbn [pipewrite_loop]; tx. Qed.
Lemma piperead_copy_tx k d : forall acc, tx pipe_depth st d (piperead_copy k acc) d.
Proof. induction k as [|k IH]; intros acc; cbn [piperead_copy]; tx. Qed.
Hint Resolve pipewrite_loop_tx piperead_copy_tx : tx.
Lemma pipewrite_tx d id addr i : tx pipe_depth st d (pipewrite id addr i) d.
Proof. unfold pipewrite. tx. Qed.
Lemma piperead_tx d id n : tx pipe_depth st d (piperead id n) d.
Proof. unfold piperead. tx. Qed.
End PipeTx.

Section BalanceSys.
Context {T : Type} `{HP : ProcIface T} `{HO : TxnOps T} `{HD : !TxnDepth T} `{HW : DevSw T} `{HDW : !DevDepth T}.
Context `{HG : PageOps T} `{HGD : !PageDepth T}.
Implicit Types (d : nat).

(** ** file.c *)
Section File.
Variable st : bool.
Definition ft_depth (s : ft T) : Z := fs_depth (ft_fs s).

Lemma on_fs_tx {A} d d' (m : M (fs T) A) : tx fs_depth st d m d' -> tx ft_depth st d (on_fs m) d'.
Proof. by apply tx_zoom. Qed.
Lemma on_txn_tx {A} d d' (m : M T A) : tx t_depth st d m d' -> tx ft_depth st d (on_txn m) d'.
Proof. intros Hm. by apply on_fs_tx, txn_tx. Qed.
Lemma ft_lock_tx {A} d (m : M bool A) : quiet st m -> tx ft_depth st d (zoom ft_lock_lens m) d.
Proof. by apply tx_frame. Qed.
Lemma pipe_lens_tx {A} d p (m : M (pipe * fs T) A) :
  tx (pipe_depth fs_depth) st d m d -> tx ft_depth st d (zoom (pipe_lens p) m) d.
Proof. by apply tx_zoom. Qed.
Lemma fs_wakeup c (s : fs T) : fs_depth (wakeup c s) = fs_depth s.
Proof. apply t_depth_wakeup. Qed.
Hint Resolve on_fs_tx on_txn_tx ft_lock_tx pipe_lens_tx fs_wakeup pg_kalloc_tx pg_kfree_tx
  pipeclose_tx pipewrite_tx piperead_tx : tx.

Lemma filealloc_tx d : tx ft_depth st d filealloc d.
Proof. unfold filealloc. tx. Qed.
Lemma filedup_tx d f : tx ft_depth st d (filedup f) d.
Proof. unfold filedup. tx. Qed.
Lemma pipe_call_tx {A} d p c (m : M (pipe * fs T) (pipe_res A)) :
  tx (pipe_depth fs_depth) st d m d -> tx ft_depth st d (pipe_call p c m) d.
Proof. intros Hm. unfold pipe_call. tx. Qed.
Lemma pipe_close_tx d p w : tx ft_depth st d (pipe_close p w) d.
Proof. unfold pipe_close. tx. Qed.
Hint Resolve filealloc_tx pipe_call_tx pipe_close_tx : tx.
Lemma fileclose_tx d f : tx ft_depth st d (fileclose f) d.
Proof. unfold fileclose. tx. Qed.
Lemma filestat_tx d f : tx ft_depth st d (filestat f) d.
Proof. unfold filestat. tx. Qed.
Lemma fileread_tx d f n : writes st d -> tx ft_depth st d (fileread f n) d.
Proof. intros Hw. unfold fileread. tx. Qed.
Lemma filewrite_loop_tx k d f addr n : forall i, tx ft_depth st d (filewrite_loop k f addr i n) d.
Proof. induction k as [|k IH]; intros i; cbn [filewrite_loop]; tx. Qed.
Hint Resolve fileclose_tx filewrite_loop_tx : tx.
Lemma filewrite_tx d f addr n : tx ft_depth st d (filewrite f addr n) d.
Proof. unfold filewrite. tx. Qed.
Lemma pipealloc_tx d : tx ft_depth st d pipealloc d.
Proof. unfold pipealloc. tx. Qed.
End File.
Hint Resolve filealloc_tx filedup_tx fileclose_tx filestat_tx fileread_tx filewrite_tx pipealloc_tx : tx.

(** ** sysfile.c *)
Section Calls.
Variable st : bool.
Definition sf_depth (s : sf T) : Z := ft_depth (sf_ft s).

Lemma on_ft_tx {A} d d' (m : M (ft T) A) : tx ft_depth st d m d' -> tx sf_depth st d (on_ft m) d'.
Proof. by apply tx_zoom. Qed.
Lemma on_fs'_tx {A} d d' (m : M (fs T) A) : tx fs_depth st d m d' -> tx sf_depth st d (on_fs' m) d'.
Proof. intros Hm. by apply on_ft_tx, on_fs_tx. Qed.
Lemma on_ft_upd_tx d f g : tx sf_depth st d (on_ft (modify (upd_file f g))) d.
Proof. by apply on_ft_tx, tx_modify. Qed.
Lemma set_cwd_tx d i : tx sf_depth st d (on_fs' (modify (set_f_cwd i))) d.
Proof. by apply on_fs'_tx, tx_modify. Qed.
Lemma upd_ino_tx d i g : tx sf_depth st d (upd_ino i g) d.
Proof. by apply on_fs'_tx, tx_modify. Qed.
Lemma sys_begin_tx d : tx sf_depth st d begin_op (S d).
Proof. apply on_ft_tx, on_txn_tx, t_begin_tx. Qed.
Lemma sys_end_tx d : tx sf_depth st (S d) end_op d.
Proof. apply on_ft_tx, on_txn_tx, t_end_tx. Qed.
Lemma arg_int_tx d n : tx sf_depth st d (arg_int n) d.
Proof. apply tx_gets. Qed.
Lemma arg_ptr_tx d n k : tx sf_depth st d (arg_ptr n k) d.
Proof. apply tx_gets. Qed.
Lemma arg_str_tx d n : tx sf_depth st d (arg_str n) d.
Proof. apply tx_gets. Qed.
Lemma user_store_tx d p l : tx sf_depth st d (user_store p l) d.
Proof. by apply tx_modify. Qed.
Lemma argfd_tx d n : tx sf_depth st d (argfd n) d.
Proof. unfold argfd. pose proof arg_int_tx. tx. Qed.
Lemma fdalloc_tx d f : tx sf_depth st d (fdalloc f) d.
Proof. unfold fdalloc. tx. Qed.
Hint Resolve on_ft_tx on_fs'_tx on_ft_upd_tx set_cwd_tx upd_ino_tx sys_begin_tx sys_end_tx arg_int_tx arg_ptr_tx arg_str_tx
  user_store_tx argfd_tx fdalloc_tx : tx.

Lemma link_bad_tx d i : tx sf_depth st (S d) (link_bad i) d.
Proof. unfold link_bad. tx. Qed.
Lemma unlink_bad_tx d i : tx sf_depth st (S d) (unlink_bad i) d.
Proof. unfold unlink_bad. tx. Qed.
Lemma isdirempty_loop_tx k d dp : forall off, tx fs_depth st (S d) (isdirempty_loop k dp off) (S d).
Proof. induction k as [|k IH]; intros off; cbn [isdirempty_loop]; tx. Qed.
Hint Resolve link_bad_tx unlink_bad_tx isdirempty_loop_tx : tx.
Lemma isdirempty_tx d dp : tx fs_depth st (S d) (isdirempty dp) (S d).
Proof. unfold isdirempty. tx. Qed.
Lemma create_tx d path ty mj mn : tx sf_depth st (S d) (create path ty mj mn) (S d).
Proof. unfold create. tx. Qed.
Lemma open_file_tx d ip om : tx sf_depth st (S d) (open_file ip om) d.
Proof. unfold open_file. tx. Qed.
End Calls.
Hint Resolve on_ft_tx on_fs'_tx on_ft_upd_tx set_cwd_tx upd_ino_tx sys_begin_tx sys_end_tx arg_int_tx arg_ptr_tx
  arg_str_tx user_store_tx argfd_tx fdalloc_tx link_bad_tx unlink_bad_tx isdirempty_tx create_tx open_file_tx : tx.

(** The calls of sysfile.c but [sys_read] and [sys_exec]. *)
Definition fs_calls : list (M (sf T) Z) :=
  [sys_dup; sys_write; sys_close; sys_fstat; sys_link; sys_unlink; sys_open; sys_mkdir; sys_mknod;
   sys_chdir; sys_pipe].
Lemma fs_calls_tx st : Forall (fun c => tx sf_depth st 0 c 0) fs_calls.
Proof.
  unfold fs_calls. repeat apply List.Forall_cons; try apply List.Forall_nil.
  - unfold sys_dup. tx.
  - unfold sys_write. tx.
  - unfold sys_close. tx.
  - unfold sys_fstat. tx.
  - unfold sys_link. tx.
  - unfold sys_unlink. tx.
  - unfold sys_open. tx.
  - unfold sys_mkdir. tx.
  - unfold sys_mknod. tx.
  - unfold sys_chdir. tx.
  - unfold sys_pipe. tx.
Qed.
Lemma sys_exec_tx st exec : (forall p a, tx sf_depth st 0 (exec p a) 0) -> tx sf_depth st 0 (sys_exec exec) 0.
Proof. intros He. unfold sys_exec. tx. Qed.
Lemma sys_read_tx : tx sf_depth false 0 sys_read 0.
Proof. unfold sys_read. tx. Qed.

(** What became of the transactions of a call [c] made in [s]. *)
Definition balanced (strict : bool) (c : M (sf T) Z) (s : sf T) : Prop :=
  match c s with
  | Ret _ s' => sf_depth s' = sf_depth s
  | Panic e => strict = true -> e <> "log_write outside of trans"
  | Asleep _ s' => sf_depth s <= sf_depth s'
  | NoFuel => True
  end.
Lemma balanced_tx st c : tx sf_depth st 0 c 0 <-> forall s, 0 <= sf_depth s -> balanced st c s.
Proof.
  unfold tx, balanced. split; intros H s Hs; specialize (H s Hs); destruct (c s); try done; lia.
Qed.
Lemma balanced_ret st c s r s' : balanced st c s -> c s = Ret r s' -> sf_depth s' = sf_depth s.
Proof. unfold balanced. intros H E. by rewrite E in H. Qed.

(** C2: a call of sysfile.c that returns has ended every transaction it began and none but
    those, and one that sleeps has ended no other. None but [sys_read] panics with
    "log_write outside of trans"; [sys_read] runs without a transaction, and only a file
    without holes keeps it from allocating a block there. [sys_exec] is like the others as
    soon as the [exec] it calls is. *)
Theorem syscalls_balanced s : 0 <= sf_depth s ->
  (forall c, In c fs_calls -> balanced true c s) /\ balanced false sys_read s /\
  (forall exec, (forall path argv s1, 0 <= sf_depth s1 -> balanced true (exec path argv) s1) ->
    balanced true (sys_exec exec) s).
Proof.
  intros Hs. pose proof (fs_calls_tx true) as Hc. rewrite List.Forall_forall in Hc. split; [|split].
  - intros c Hin. by apply balanced_tx; [apply Hc|].
  - by apply balanced_tx; [apply sys_read_tx|].
  - intros exec He. apply balanced_tx; [|done]. apply sys_exec_tx. intros p a. by apply balanced_tx, He.
Qed.
End BalanceSys.

(** ** The buffer cache never speaks for the log *)
Section BioQuiet.
Context {P : Type} `{ProcIface P}.

Lemma quiet_zoom {S U A} (l : lens S U) st d (m : M U A) : quiet st m -> tx (fun _ => 0) st d (zoom l m) d.
Proof. by apply tx_frame. Qed.
Hint Resolve quiet_zoom : tx.
Lemma quiet_acquiresleep c : quiet true (acquiresleep (P := P) c).
Proof. unfold acquiresleep, acquiresleep_wait. tx. Qed.
Lemma quiet_releasesleep c : quiet true (releasesleep (P := P) c).
Proof. unfold releasesleep. tx. Qed.
Lemma quiet_holdingsleep : quiet true (holdingsleep (P := P)).
Proof. unfold holdingsleep. tx. Qed.
Hint Resolve quiet_acquiresleep quiet_releasesleep quiet_holdingsleep : tx.
Lemma quiet_idestart b : quiet true (idestart (P := P) b).
Proof. unfold idestart. tx. Qed.
Hint Resolve quiet_idestart : tx.
Lemma quiet_iderw_wait k i : quiet true (iderw_wait (P := P) k i).
Proof. induction k as [|k IH]; cbn [iderw_wait]; unfold sleep_on_disk, disk_complete, ideintr; tx. Qed.
Hint Resolve quiet_iderw_wait : tx.
Lemma quiet_iderw i : quiet true (iderw (P := P) i).
Proof. unfold iderw. tx. Qed.
Hint Resolve quiet_iderw : tx.
Lemma quiet_bget dev bn : quiet true (bget (P := P) dev bn).
Proof. unfold bget, buf_sleep. tx. Qed.
Hint Resolve quiet_bget : tx.

#[export] Instance bio_quiet : BlockQuiet (B := bio P).
Proof.
  split; intros; cbn [blk_read blk_write blk_release blk_set_data blk_dirty bio_ops].
  - unfold bread. tx.
  - unfold bwrite, buf_sleep. tx.
  - unfold brelse, buf_sleep. tx.
  - unfold set_bdata. tx.
  - tx.
Qed.
End BioQuiet.

(** ** A process without arguments on an idle machine *)
Section Demo.
#[local] Instance no_devs : DevSw (log (bio lone_proc)) :=
  {| dev_read := fun _ => None; dev_write := fun _ => None |}.
#[local] Instance no_devs_depth : DevDepth (log (bio lone_proc)).
Proof. split; discriminate. Qed.
#[local] Instance no_pages : PageOps (log (bio lone_proc)) :=
  {| pg_kalloc := ret 0; pg_kfree := fun _ => ret tt |}.
#[local] Instance no_pages_depth : PageDepth (log (bio lone_proc)).
Proof. split; intros; apply tx_ret. Qed.

Definition idle_disk : ide lone_proc := Ide (1, false) false [] false [] [] None.
Definition idle_log : log (bio lone_proc) := Log (Bio idle_disk false []) false 2 30 0 0 1 0 [].
Definition idle_sf : sf (log (bio lone_proc)) :=
  Sf (Ft (Fs idle_log false [] (SuperBlock 0 0 0 0 0 0 0) 0) false [] ∅) (replicate NOFILE None) (Uproc 0 (fun _ => 0) 0 0).

(** [mkdir] with a bad argument has begun its transaction and ends it. *)
Lemma syscalls_balanced_witness : exists s', sys_mkdir idle_sf = Ret (-1) s' /\ sf_depth s' = 0.
Proof.
  assert (H0 : 0 <= sf_depth idle_sf) by apply Z.le_refl.
  destruct (syscalls_balanced idle_sf H0) as [H _].
  specialize (H sys_mkdir ltac:(unfold fs_calls; simpl; tauto)).
  destruct (sys_mkdir idle_sf) as [r s'|e|c s'|] eqn:E; [|vm_compute in E; discriminate E..].
  exists s'. split; [|exact (balanced_ret _ _ _ _ _ H E)].
  vm_compute in E. injection E as <- <-. reflexivity.
Defined.
End Demo.
