(* ===== verification/ExecSpec.v ===== *)
(** * exec replaces the process image or leaves it alone

    [exec] on every path: the transaction it opens is closed, and a failure leaves the
    calling process with the page table, size, registers and name it had. *)
From S2P Require Import Prelude Param Iface Sleeplock CString Ide Bio Log Fs Kalloc Vm VmSpec Balance BalanceFs BalanceSys Exec.

Lemma quiet_any {S A} (m : M S A) : quiet false m.
Proof. intros s _. by destruct (m s). Qed.

(** ** The page tables know nothing of the log *)
Section VmQuiet.
Variables (st : bool) (kend kdata : Z).
Lemma rd_quiet a : quiet st (rd a).
Proof. apply tx_gets. Qed.
Lemma wr_quiet a v : quiet st (wr a v).
Proof. by apply tx_modify. Qed.
Lemma mem_op_quiet g : quiet st (mem_op g).
Proof. by apply tx_modify. Qed.
Lemma km_lock_quiet (m : M bool unit) : quiet st m -> quiet st (zoom km_lock_lens m).
Proof. by apply tx_frame. Qed.
Hint Resolve rd_quiet wr_quiet mem_op_quiet km_lock_quiet : tx.
Lemma kalloc_quiet : quiet st kalloc.
Proof. unfold kalloc. tx. Qed.
Lemma kfree_quiet v : quiet st (kfree kend v).
Proof. unfold kfree. tx. Qed.
Hint Resolve kalloc_quiet kfree_quiet : tx.
Lemma walkpgdir_quiet p va al : quiet st (walkpgdir p va al).
Proof. unfold walkpgdir. tx. Qed.
Hint Resolve walkpgdir_quiet : tx.
Lemma mappages_loop_quiet k p last pe : forall a pa, quiet st (mappages_loop k p a last pa pe).
Proof. induction k as [|k IH]; intros a pa; cbn [mappages_loop]; tx. Qed.
Lemma mappages_quiet p va sz pa pe : quiet st (mappages p va sz pa pe).
Proof. apply mappages_loop_quiet. Qed.
Lemma deallocuvm_loop_quiet k p o : forall a, quiet st (deallocuvm_loop kend k p a o).
Proof. induction k as [|k IH]; intros a; cbn [deallocuvm_loop]; tx. Qed.
Hint Resolve deallocuvm_loop_quiet : tx.
Lemma deallocuvm_quiet p o n : quiet st (deallocuvm kend p o n).
Proof. unfold deallocuvm. tx. Qed.
Lemma freevm_loop_quiet k p : forall i, quiet st (freevm_loop kend k p i).
Proof. induction k as [|k IH]; intros i; cbn [freevm_loop]; tx. Qed.
Hint Resolve mappages_quiet deallocuvm_quiet freevm_loop_quiet : tx.
Lemma freevm_quiet p : quiet st (freevm kend p).
Proof. unfold freevm. tx. Qed.
Hint Resolve freevm_quiet : tx.
Lemma setupkvm_quiet : quiet st (setupkvm kend kdata).
Proof. unfold setupkvm. cbn [setupkvm_loop kmap]. tx. Qed.
Lemma allocuvm_loop_quiet k p o n : forall a, quiet st (allocuvm_loop kend k p a o n).
Proof. induction k as [|k IH]; intros a; cbn [allocuvm_loop]; tx. Qed.
Hint Resolve allocuvm_loop_quiet : tx.
Lemma allocuvm_quiet p o n : quiet st (allocuvm kend p o n).
Proof. unfold allocuvm. tx. Qed.
Lemma clearpteu_quiet p va : quiet st (clearpteu p va).
Proof. unfold clearpteu. tx. Qed.
Lemma uva2ka_quiet p va : quiet st (uva2ka p va).
Proof. unfold uva2ka. tx. Qed.
Hint Resolve uva2ka_quiet : tx.
Lemma copyout_loop_quiet k p : forall va q n, quiet st (copyout_loop k p va q n).
Proof. induction k as [|k IH]; intros va q n; cbn [copyout_loop]; tx. Qed.
Lemma copyout_quiet p va q n : quiet st (copyout p va q n).
Proof. apply copyout_loop_quiet. Qed.
End VmQuiet.
#[export] Hint Resolve rd_quiet wr_quiet mem_op_quiet walkpgdir_quiet freevm_quiet setupkvm_quiet allocuvm_quiet
  clearpteu_quiet copyout_quiet : tx.

Section ExecSpec.
Context {T : Type} `{HP : ProcIface T} `{HO : TxnOps T} `{HD : !TxnDepth T} `{HW : DevSw T} `{HDW : !DevDepth T}.
Variables (kend kdata ustack : Z).
Implicit Types (d : nat) (s : xs T).

(** A measure that page tables do not change, nor balanced file-system code. *)
Section Parts.
Variables (f : xs T -> Z) (st : bool).
Hypothesis f_km : forall k s, f (lset x_km_lens k s) = f s.
Hypothesis f_fs : forall A d (m : M (fs T) A), tx fs_depth st d m d -> tx f st d (xfs m) d.

Lemma xkm_tx {A} d (m : M kmem A) : quiet st m -> tx f st d (xkm m) d.
Proof. by apply tx_frame. Qed.
Lemma zoom_km_tx {A} d (m : M kmem A) : quiet st m -> tx f st d (zoom x_km_lens m) d.
Proof. apply xkm_tx. Qed.
Hint Resolve xkm_tx zoom_km_tx f_fs : tx.

Lemma loaduvm_loop_tx k d rd pgdir addr off sz : (forall o n, tx f st d (rd o n) d) ->
  forall i, tx f st d (loaduvm_loop x_km_lens rd k pgdir addr off sz i) d.
Proof. intros Hr. induction k as [|k IH]; intros i; cbn [loaduvm_loop]; unfold readi_to; tx. Qed.
Lemma loaduvm_tx d ip pgdir addr off sz : writes st d ->
  tx f st d (loaduvm x_km_lens (fun o n => xfs (readi ip o n)) pgdir addr off sz) d.
Proof. intros Hw. pose proof loaduvm_loop_tx as Hl. unfold loaduvm. tx. apply Hl. tx. Qed.
Hint Resolve loaduvm_tx : tx.
Lemma load_segments_tx k d ip pgdir : writes st d -> forall off sz,
  tx f st d (load_segments kend k ip pgdir off sz) d.
Proof. intros Hw. induction k as [|k IH]; intros off sz; cbn [load_segments]; tx. Qed.
Lemma push_args_tx args d pgdir : forall argc sp, tx f st d (push_args ustack args pgdir argc sp) d.
Proof. induction args as [|a args IH]; intros argc sp; cbn [push_args]; unfold set_ustack; tx. Qed.
Lemma set_ustack_tx d i v : tx f st d (set_ustack ustack i v) d.
Proof. apply xkm_tx, wr_quiet. Qed.
End Parts.

(** ** The transaction *)
Section Depth.
Variable st : bool.
Definition xs_depth (s : xs T) : Z := fs_depth (x_fs s).
Lemma xs_fs {A} d d' (m : M (fs T) A) : tx fs_depth st d m d' -> tx xs_depth st d (xfs m) d'.
Proof. by apply tx_zoom. Qed.
Lemma xs_txn {A} d d' (m : M T A) : tx t_depth st d m d' -> tx xs_depth st d (xtxn m) d'.
Proof. intros Hm. by apply xs_fs, txn_tx. Qed.
Hint Resolve xs_fs xs_txn xkm_tx load_segments_tx push_args_tx set_ustack_tx : tx.
Lemma exec_bad_tx d p i : tx xs_depth st (S d) (exec_bad kend p (Some i)) d.
Proof. unfold exec_bad. tx. Qed.
Lemma exec_bad0_tx d p : tx xs_depth st d (exec_bad kend p None) d.
Proof. unfold exec_bad. tx. Qed.
Lemma switch_tx d p : tx xs_depth st d (zoom x_mmu_lens (switchuvm p)) d.
Proof. apply tx_frame; [done|]. unfold switchuvm. tx. Qed.
Hint Resolve exec_bad_tx exec_bad0_tx switch_tx : tx.
Lemma exec_stack_tx d path args pgdir sz e :
  tx xs_depth st d (exec_stack kend ustack path args pgdir sz e) d.
Proof. unfold exec_stack. tx. Qed.
Hint Resolve exec_stack_tx : tx.
Lemma exec_tx d path args : tx xs_depth st d (exec kend kdata ustack path args) d.
Proof. unfold exec. tx. Qed.
End Depth.

(** ** The process image *)
Definition image (s : xs T) : list Z * list Z :=
  (x_name s, [x_kstack s; x_pgdir s; x_sz s; x_eip s; x_esp s; mm_cr3 (x_mmu s); mm_esp0 (x_mmu s)]).
Definition same (v : list Z * list Z) (s : xs T) : Z := if decide (image s = v) then 0 else 1.
Definition keeps {A} (m : M (xs T) A) : Prop := forall v, tx (same v) false 0 m 0.

Lemma keeps_image {A} (m : M (xs T) A) s a s' : keeps m -> m s = Ret a s' -> image s' = image s.
Proof.
  intros Hk E. specialize (Hk (image s) s). unfold same in *. rewrite E, (decide_True _ _ (eq_refl (image s))) in Hk.
  specialize (Hk ltac:(lia)). by destruct (decide (image s' = image s)).
Qed.
Lemma same_fs v A d (m : M (fs T) A) : tx (same v) false d (xfs m) d.
Proof. apply tx_frame; [done|]. apply quiet_any. Qed.
Lemma keeps_fs {A} (m : M (fs T) A) : keeps (xfs m).
Proof. intros v. apply same_fs. Qed.
Lemma keeps_km {A} (m : M kmem A) : keeps (xkm m).
Proof. intros v. apply xkm_tx; [done|apply quiet_any]. Qed.
Lemma keeps_load k ip pgdir off sz : keeps (load_segments kend k ip pgdir off sz).
Proof. intros v. apply load_segments_tx; [done| |apply writes_lax]. intros. apply same_fs. Qed.
Lemma keeps_push args pgdir argc sp : keeps (push_args ustack args pgdir argc sp).
Proof. intros v. by apply push_args_tx. Qed.

(** What [exec path] finds at the start of the file: the number of bytes and the bytes. *)
Definition file_header (path : list Z) : M (fs T) (option (Z * list Z)) :=
  txn t_begin ;;;
  let! ip := namei path in
  match ip with
  | None => ret None
  | Some ip => ilock ip ;;; let! h := readi ip 0 elfhdr_size in ret (Some h)
  end.
(** The entry point is the one in the ELF header of the file. *)
Definition enters (path : list Z) (f : fs T) (entry : Z) : Prop := exists b f',
  file_header path f = Ret (Some (elfhdr_size, b)) f' /\ e_magic (elfhdr_of b) = ELF_MAGIC /\ entry = e_entry (elfhdr_of b).
(** The stack pointer below the strings of lengths [lens], each aligned, and below the
    words [exec] puts there: [argv], its address, [argc] and a return address. *)
Fixpoint below_strings (sp : Z) (lens : list Z) : Z :=
  match lens with
  | [] => sp
  | n :: lens => below_strings (Z.land (u32 (sp - (n + 1))) (u32 (Z.lnot 3))) lens
  end.
Definition stack_ptr (sz : Z) (lens : list Z) : Z := u32 (below_strings sz lens - (3 + zlen lens + 1) * 4).

(** How [exec] ends, started in [s0]. *)
Definition replaced (path args : list Z) (s0 s' : xs T) : Prop :=
  (* the name and the page table, in the first free page *)
  x_name s' = proc_name (x_name s0) (last_elem path path) /\
  x_pgdir s' = km_freelist (mm_km (x_mmu s0)) /\ x_pgdir s' <> 0 /\ mm_cr3 (x_mmu s') = V2P (x_pgdir s') /\
  (* the kernel stack is the one it was *)
  x_kstack s' = x_kstack s0 /\ mm_esp0 (x_mmu s') = u32 (x_kstack s0 + KSTACKSIZE) /\
  (* the file's entry point *)
  enters path (x_fs s0) (x_eip s') /\
  (* whole pages, with two for the stack, and the stack pointer *)
  (exists sz, 0 <= sz /\ x_sz s' = PGROUNDUP sz + 2 * PGSIZE /\ x_sz s' < KERNBASE) /\
  zlen args <= MAXARG /\
  exists lens, length lens = length args /\ x_esp s' = stack_ptr (x_sz s') lens /\ x_esp s' mod 4 = 0.
Definition outcome (path args : list Z) (s0 : xs T) (r : Z) (s' : xs T) : Prop :=
  r = -1 /\ image s' = image s0 \/ r = 0 /\ replaced path args s0 s'.

Section Ends.
Variables (path args : list Z) (s0 : xs T).
Definition ends (m : M (xs T) Z) : Prop :=
  forall s r s', image s = image s0 -> m s = Ret r s' -> outcome path args s0 r s'.

Lemma ends_bind {A} (m : M (xs T) A) k : keeps m -> (forall a, ends (k a)) -> ends (bind m k).
Proof.
  intros Hm Hk s r s' Hi E. apply bind_inv in E as (a & s1 & Em & E).
  eapply Hk; [|exact E]. by rewrite (keeps_image m s a s1 Hm Em).
Qed.
Lemma ends_fail : ends (ret (-1)).
Proof. intros s r s' Hi [= <- <-]. by left. Qed.
Lemma ends_bad p ip : ends (exec_bad kend p ip).
Proof.
  unfold exec_bad. apply ends_bind; [destruct (negb _); [apply keeps_km|intros v; apply tx_ret]|intros _].
  destruct ip; [|apply ends_fail]. apply ends_bind; [apply keeps_fs|intros _].
  apply ends_bind; [apply keeps_fs|intros _; apply ends_fail].
Qed.
End Ends.

(** ** The stack pointer *)
Lemma land_mul k x c : 0 <= k -> Z.land c (Z.ones k) = 0 -> Z.land x c mod 2 ^ k = 0.
Proof. intros Hk Hc. rewrite <-Z.land_ones, <-Z.land_assoc, Hc by done. apply Z.land_0_r. Qed.
Lemma land_mul4 x : Z.land x (u32 (Z.lnot 3)) mod 4 = 0.
Proof. by apply (land_mul 2). Qed.
Lemma PGROUNDUP_mul x : PGROUNDUP x mod 4096 = 0.
Proof. by apply (land_mul 12). Qed.

Lemma below_strings_mul sp lens : sp mod 4 = 0 -> below_strings sp lens mod 4 = 0.
Proof. revert sp. induction lens as [|n lens IH]; intros sp Hsp; [done|]. apply IH, land_mul4. Qed.

Lemma push_args_sp args pgdir : forall argc sp s argc' sp' s', argc <= MAXARG ->
  push_args ustack args pgdir argc sp s = Ret (Some (argc', sp')) s' ->
  argc' = argc + zlen args /\ argc' <= MAXARG /\ exists lens, length lens = length args /\ sp' = below_strings sp lens.
Proof.
  induction args as [|a args IH]; intros argc sp s argc' sp' s' Hargc E; cbn [push_args] in E.
  { injection E as <- <- <-. split; [unfold zlen; simpl; lia|]. split; [done|]. by exists []. }
  destruct (Z.leb_spec MAXARG argc); [done|]. rewrite run_bind_get in E. destruct (strlen _ _ _) as [len|]; [|done].
  cbv zeta in E. apply bind_inv in E as (r & s1 & _ & E). destruct (r <? 0); [done|].
  apply bind_inv in E as (u & s2 & _ & E). apply IH in E as (-> & Hle & lens & Hl & ->); [|lia].
  split; [unfold zlen; simpl length; lia|]. split; [done|]. exists (len :: lens). split; [simpl; lia|done].
Qed.
Lemma allocuvm_loop_result k pgdir oldsz newsz : forall a (s : kmem) r (s' : kmem),
  allocuvm_loop kend k pgdir a oldsz newsz s = Ret r s' -> r = 0 \/ r = newsz.
Proof.
  induction k as [|k IH]; intros a s r s' E; cbn [allocuvm_loop] in E.
  { destruct (a <? newsz); [done|]. injection E as <- _. by right. }
  destruct (a <? newsz); [|injection E as <- _; by right].
  apply bind_inv in E as (p & s1 & _ & E). destruct (p =? 0).
  { apply bind_inv in E as (z & s2 & _ & E). injection E as <- _. by left. }
  apply bind_inv in E as ([] & s2 & _ & E). apply bind_inv in E as (r1 & s3 & _ & E).
  destruct (r1 <? 0); [|by eapply IH]. apply bind_inv in E as (z & s4 & _ & E).
  apply bind_inv in E as (u & s5 & _ & E). injection E as <- _. by left.
Qed.
Lemma allocuvm_result pgdir oldsz newsz (s : kmem) r (s' : kmem) : allocuvm kend pgdir oldsz newsz s = Ret r s' ->
  r = 0 \/ r = newsz \/ r = oldsz.
Proof.
  unfold allocuvm. destruct (KERNBASE <=? newsz); [intros [= <- _]; by left|].
  destruct (newsz <? oldsz); [intros [= <- _]; auto|]. intros E. apply allocuvm_loop_result in E. tauto.
Qed.
Lemma load_size k ip pgdir : forall off sz s sz' s', 0 <= sz <= KERNBASE ->
  load_segments kend k ip pgdir off sz s = Ret (Some sz') s' -> 0 <= sz' <= KERNBASE.
Proof.
  induction k as [|k IH]; intros off sz s sz' s' Hsz E; cbn [load_segments] in E; [by injection E as <- <-|].
  apply bind_inv in E as ([n b] & s1 & _ & E). destruct (negb _); [done|]. cbv zeta in E.
  destruct (negb _); [by eapply IH|]. do 2 (case_match; [done|]).
  apply bind_inv in E as (r & s2 & E2 & E). do 2 (case_match; [done|]).
  apply bind_inv in E as (r' & s3 & _ & E). case_match; [done|]. eapply IH; [|exact E].
  apply zoom_inv in E2 as (t & E2 & _). unfold allocuvm in E2.
  destruct (Z.leb_spec KERNBASE (u32 (ph_vaddr (proghdr_of b) + ph_memsz (proghdr_of b)))); [injection E2 as <- _; lia|].
  destruct (_ <? sz); [by injection E2 as <- _|]. apply allocuvm_loop_result in E2 as [->| ->]; [lia|].
  pose proof (Z.mod_pos_bound (ph_vaddr (proghdr_of b) + ph_memsz (proghdr_of b)) (2 ^ 32) ltac:(lia)). unfold u32 in *. lia.
Qed.
Lemma PGROUNDUP_range sz : 0 <= sz <= KERNBASE -> 0 <= PGROUNDUP sz <= KERNBASE.
Proof.
  intros Hsz. change (PGROUNDUP sz) with (PGROUNDDOWN (u32 (sz + PGSIZE - 1))). unfold PGSIZE, KERNBASE in *.
  rewrite u32_small, PGROUNDDOWN_eq by lia. lia.
Qed.
(** The size of the process with its stack. *)
Lemma stack_size pgdir sz (s : xs T) r s' : 0 <= sz <= KERNBASE ->
  xkm (allocuvm kend pgdir (PGROUNDUP sz) (u32 (PGROUNDUP sz + 2 * PGSIZE))) s = Ret r s' ->
  r = 0 \/ r = PGROUNDUP sz + 2 * PGSIZE /\ r < KERNBASE.
Proof.
  intros Hsz (t & E & _)%zoom_inv. pose proof (PGROUNDUP_range sz Hsz) as Hr. unfold PGSIZE, KERNBASE in *.
  rewrite u32_small in E by lia. unfold allocuvm in E. destruct (Z.leb_spec KERNBASE (PGROUNDUP sz + 2 * 4096)).
  { injection E as <- _. by left. }
  destruct (Z.ltb_spec (PGROUNDUP sz + 2 * 4096) (PGROUNDUP sz)); [lia|].
  apply allocuvm_loop_result in E as [->| ->]; [by left|right]. unfold KERNBASE in *. lia.
Qed.
(** The new page directory is the first free page. *)
Lemma setupkvm_loop_result l pgdir : forall (k : kmem) r k', setupkvm_loop kend l pgdir k = Ret r k' -> r = 0 \/ r = pgdir.
Proof.
  induction l as [|e l IH]; intros k r k' E; cbn [setupkvm_loop] in E; [injection E as <- _; by right|].
  apply bind_inv in E as (r1 & k1 & _ & E). destruct (r1 <? 0); [|by eapply IH].
  apply bind_inv in E as (u & k2 & _ & E). injection E as <- _. by left.
Qed.
Lemma setupkvm_result (k : kmem) r k' : setupkvm kend kdata k = Ret r k' -> r = 0 \/ r = km_freelist k.
Proof.
  unfold setupkvm. intros E. apply bind_inv in E as (p & k1 & E1 & E).
  assert (p = km_freelist k) as ->.
  { destruct k as [m lk ul fl]. unfold kalloc in E1. rewrite run_bind_get in E1.
    apply bind_inv in E1 as (u1 & k2 & Ea & E1). apply bind_inv in E1 as (r1 & k3 & Er & E1).
    apply bind_inv in E1 as (u2 & k4 & _ & E1). apply bind_inv in E1 as (u3 & k5 & _ & E1).
    injection E1 as <- _. injection Er as <- _. simpl in *. destruct ul; simpl in Ea; [|by injection Ea as _ <-].
    apply zoom_inv in Ea as (b & _ & ->). done. }
  destruct (_ =? 0); [injection E as <- _; by left|]. unfold mem_op in E. rewrite run_bind_modify in E.
  destruct (_ <? _); [done|]. by apply setupkvm_loop_result in E.
Qed.

(** The point of no return: [pgdir] is loaded and the old table is freed. *)
Lemma ends_commit path args s0 pgdir sz entry sp :
  pgdir = km_freelist (mm_km (x_mmu s0)) -> enters path (x_fs s0) entry ->
  (exists sz', 0 <= sz' /\ sz = PGROUNDUP sz' + 2 * PGSIZE /\ sz < KERNBASE) -> zlen args <= MAXARG ->
  (exists lens, length lens = length args /\ sp = stack_ptr sz lens) -> sp mod 4 = 0 ->
  ends path args s0 (
    modify (fun s => set_x_name (proc_name (x_name s) (last_elem path path)) s) ;;;
    let! s := get in
    modify (set_x_pgdir pgdir) ;;; modify (set_x_sz sz) ;;; modify (set_x_eip entry) ;;;
    modify (set_x_esp sp) ;;;
    zoom x_mmu_lens (switchuvm (Some (x_kstack s, pgdir))) ;;;
    xkm (freevm kend (x_pgdir s)) ;;;
    ret 0).
Proof.
  intros Hpg Hent Hsz Hargs (lens & Hl & Hsp) Hsp4 s r s' Hi E. right. rewrite !run_bind_modify in E.
  rewrite run_bind_get, !run_bind_modify in E.
  apply bind_inv in E as ([] & s1 & E1 & E). apply bind_inv in E as ([] & s2 & E2 & E).
  injection E as <- <-. apply zoom_inv in E1 as (m1 & E1 & ->). unfold switchuvm in E1.
  destruct (_ =? 0) in E1; [done|]. destruct (Z.eqb_spec pgdir 0) as [|Hp]; [done|].
  injection E1 as <-. apply zoom_inv in E2 as (k2 & _ & ->). injection Hi as Hn Hk _ _ _ _ _ _.
  destruct s. simpl in *. subst. split; [done|]. unfold replaced. simpl. split_and!; try done. by exists lens.
Qed.
Lemma ends_stack path args s0 pgdir sz entry : 0 <= sz <= KERNBASE ->
  pgdir = km_freelist (mm_km (x_mmu s0)) -> enters path (x_fs s0) entry ->
  ends path args s0 (exec_stack kend ustack path args pgdir sz entry).
Proof.
  intros Hsz Hpg Hent s r s' Hi E. unfold exec_stack in E. cbv zeta in E.
  apply bind_inv in E as (sz1 & s1 & E1 & E). pose proof (stack_size _ _ _ _ _ Hsz E1) as Hal.
  rewrite <-(keeps_image _ _ _ _ (keeps_km _) E1) in Hi. destruct (Z.eqb_spec sz1 0) as [|Hnz]; [by eapply ends_bad|].
  destruct Hal as [|[Hal Hlt]]; [done|].
  apply bind_inv in E as (u & s2 & E2 & E). rewrite <-(keeps_image _ _ _ _ (keeps_km _) E2) in Hi.
  apply bind_inv in E as (o & s3 & E3 & E). rewrite <-(keeps_image _ _ _ _ (keeps_push _ _ _ _) E3) in Hi.
  destruct o as [[argc sp]|]; [|by eapply ends_bad].
  assert (HM : 0 <= MAXARG) by done.
  destruct (push_args_sp _ _ _ _ _ _ _ _ HM E3) as (-> & Hmax & lens & Hlens & ->).
  assert (Hmul : below_strings sz1 lens mod 4 = 0).
  { apply below_strings_mul. pose proof (PGROUNDUP_mul sz). unfold PGSIZE in *. lia. }
  assert (El : zlen args = zlen lens) by (unfold zlen; lia). rewrite !Z.add_0_l in *.
  refine (ends_bind path args s0 _ _ (keeps_km _) _ s3 r s' Hi E). intros _.
  do 3 (apply ends_bind; [apply keeps_km|intros _]). apply ends_bind; [apply keeps_km|intros q].
  destruct (q <? 0); [apply ends_bad|]. apply ends_commit; [done|done|by exists sz; split_and!; [lia|..]|done| |].
  - exists lens. split; [done|]. unfold stack_ptr. by rewrite El.
  - unfold u32. lia.
Qed.
Lemma ends_exec path args s0 r s' : exec kend kdata ustack path args s0 = Ret r s' -> outcome path args s0 r s'.
Proof.
  intros E. unfold exec in E.
  apply bind_inv in E as (u & s1 & E1 & E). pose proof (keeps_image _ _ _ _ (keeps_fs _) E1) as Hi.
  apply bind_inv in E as (o & s2 & E2 & E). rewrite <-(keeps_image _ _ _ _ (keeps_fs _) E2) in Hi.
  destruct o as [ip|].
  2: { refine (ends_bind path args s0 _ _ (keeps_fs _) _ s2 r s' Hi E). intros _. apply ends_fail. }
  apply bind_inv in E as (u3 & s3 & E3 & E). rewrite <-(keeps_image _ _ _ _ (keeps_fs _) E3) in Hi.
  apply bind_inv in E as ([n b] & s4 & E4 & E). rewrite <-(keeps_image _ _ _ _ (keeps_fs _) E4) in Hi.
  destruct (Z.eqb_spec n elfhdr_size) as [->|]; simpl negb in E; [|exact (ends_bad _ _ _ _ _ _ _ _ Hi E)]. cbv zeta in E.
  destruct (Z.eqb_spec (e_magic (elfhdr_of b)) ELF_MAGIC) as [Hmag|]; simpl negb in E; [|exact (ends_bad _ _ _ _ _ _ _ _ Hi E)].
  assert (Hkm : x_mmu s4 = x_mmu s0 /\ enters path (x_fs s0) (e_entry (elfhdr_of b))).
  { apply zoom_inv in E1 as (f1 & E1 & ->), E2 as (f2 & E2 & ->), E3 as (f3 & E3 & ->), E4 as (f4 & E4 & ->).
    split; [done|]. exists b, f4. split; [|done]. unfold file_header. 
    erewrite bind_eq by exact E1. cbv beta. erewrite bind_eq by exact E2. cbv beta iota.
    erewrite bind_eq by exact E3. cbv beta.
    by erewrite bind_eq by exact E4. }
  destruct Hkm as [Hkm Hent].
  apply bind_inv in E as (pgdir & s5 & E5 & E). rewrite <-(keeps_image _ _ _ _ (keeps_km _) E5) in Hi.
  destruct (Z.eqb_spec pgdir 0) as [|Hp]; [by eapply ends_bad|].
  apply zoom_inv in E5 as (k5 & E5 & _). apply setupkvm_result in E5 as [|Hpg]; [done|].
  simpl in Hpg. rewrite Hkm in Hpg.
  apply bind_inv in E as (o & s6 & E6 & E). rewrite <-(keeps_image _ _ _ _ (keeps_load _ _ _ _ _) E6) in Hi.
  destruct o as [sz|]; [|by eapply ends_bad].
  apply load_size in E6; [|unfold KERNBASE; lia].
  refine (ends_bind path args s0 _ _ (keeps_fs _) _ s6 r s' Hi E). intros _.
  apply ends_bind; [apply keeps_fs|intros _]. by apply ends_stack.
Qed.

End ExecSpec.

(** The current directory is an empty file: executing "" fails after the transaction, the
    inode and its lock have been taken. *)
Section Demo.
#[local] Existing Instances no_devs no_devs_depth.

Definition empty_file : inode := Inode ROOTDEV 7 1 initsleeplock true (Dinode T_FILE 0 0 1 0 (replicate 13 0)).
Definition idle_xs : xs (log (bio lone_proc)) :=
  Xs (Fs idle_log false [empty_file] (SuperBlock 0 0 0 0 0 0 0) 0)
    (Mmu (Kmem (fun _ => 0) false true 0) 0 0 0 0) [115; 104; 0] 1 4096 8192 0 8000.

End Demo.
