(* ===== verification/User.v ===== *)
(** * User programs

    The outcome of user code, the system calls it makes as an interface, and [printf]
    as the bytes it writes one at a time. *)
From S2P Require Import Prelude CString Printf.

(** User code returns, ends the process with [exit], replaces it with [exec], or the
    model's loop bound is exhausted. *)
Inductive uout (S A : Type) :=
| UDone (a : A) (s : S)
| UExit (s : S)
| UExec (path : list Z) (argv : list (list Z)) (s : S)
| UFuel.
Arguments UDone {S A}.
Arguments UExit {S A}.
Arguments UExec {S A}.
Arguments UFuel {S A}.

Definition U (S A : Type) : Type := S -> uout S A.
Definition uret {S A} (a : A) : U S A := fun s => UDone a s.
Definition ubind {S A B} (m : U S A) (k : A -> U S B) : U S B := fun s =>
  match m s with
  | UDone a s' => k a s'
  | UExit s' => UExit s'
  | UExec p v s' => UExec p v s'
  | UFuel => UFuel
  end.
Definition exit {S A} : U S A := fun s => UExit s.
Definition ufuel {S A} : U S A := fun _ => UFuel.

Declare Scope user_scope.
Notation "'do!' x := m 'in' k" := (ubind m (fun x => k))
  (at level 10, x pattern, m at level 100, k at level 200,
   format "'[v' 'do!'  x  :=  m  'in' '/' k ']'") : user_scope.
Notation "m ;! k" := (ubind m (fun _ => k))
  (at level 199, right associativity, format "'[v' m ;! '/' k ']'") : user_scope.
#[global] Open Scope user_scope.

(** user.h: the calls the programs here make. Strings are their bytes without the NUL;
    [u_read] gives the count and the bytes stored; [u_exec] returns only when it fails. *)
Class UserSys (S : Type) := {
  u_fork : U S Z;
  u_wait : U S Z;
  u_pipe : U S (option (Z * Z));
  u_read : Z -> Z -> U S (Z * list Z);
  u_write : Z -> list Z -> U S Z;
  u_close : Z -> U S Z;
  u_dup : Z -> U S Z;
  u_open : list Z -> Z -> U S Z;
  u_exec : list Z -> list (list Z) -> U S unit;
  u_chdir : list Z -> U S Z;
  u_mkdir : list Z -> U S Z;
  u_unlink : list Z -> U S Z;
  u_link : list Z -> list Z -> U S Z;
  u_kill : Z -> U S Z
}.

Section User.
Context {S : Type} `{UserSys S}.

(** printf.c [putc], for every byte of the output. *)
Fixpoint puts_ (fd : Z) (l : list Z) : U S unit :=
  match l with
  | [] => uret tt
  | c :: l => u_write fd [c] ;! puts_ fd l
  end.

Lemma ubind_done {A B} (m : U S A) (k : A -> U S B) s a s' : m s = UDone a s' -> ubind m k s = k a s'.
Proof. unfold ubind. by intros ->. Qed.
End User.

#[global] Arguments ubind : simpl never.

(** ** A filter's environment *)

(** A process with the chunks its reads will return, and what it has written. *)
Record gst := Gst { gs_in : list (list Z); gs_out : list Z }.
#[export] Instance gst_sys : UserSys gst := {|
  u_fork := fun s => UDone 1 s;
  u_wait := fun s => UDone 1 s;
  u_pipe := fun s => UDone None s;
  u_read := fun _ n s => match gs_in s with
                         | [] => UDone (0, []) s
                         | l :: r => UDone (Z.min n (zlen l), take (Z.to_nat n) l)
                                       (Gst (match drop (Z.to_nat n) l with [] => r | d => d :: r end) (gs_out s))
                         end;
  u_write := fun _ l s => UDone (zlen l) (Gst (gs_in s) (gs_out s ++ l));
  u_close := fun _ s => UDone 0 s;
  u_dup := fun _ s => UDone 1 s;
  u_open := fun _ _ s => UDone 3 s;
  u_exec := fun p v s => UExec p v s;
  u_chdir := fun _ s => UDone 0 s;
  u_mkdir := fun _ s => UDone 0 s;
  u_unlink := fun _ s => UDone 0 s;
  u_link := fun _ _ s => UDone 0 s;
  u_kill := fun _ s => UDone 0 s
|}.

