(* ===== verification/Grep.v ===== *)
(** * grep: the regular-expression matcher and the line filter of grep.c

    Patterns and texts are their bytes without the NUL; [re[1]] of a one-byte pattern is
    the NUL. *)
From S2P Require Import Prelude CString Printf User.

(** ** The matcher *)

(** matchstar: search for [c*re] at beginning of text; [here] is [matchhere(re, .)]. *)
Fixpoint matchstar (here : list Z -> bool) (c : Z) (text : list Z) : bool :=
  here text ||
  match text with
  | [] => false
  | t :: text => ((t =? c) || (c =? 46)) && matchstar here c text
  end.

(** matchhere: search for [re] at beginning of text. *)
Fixpoint matchhere (fuel : nat) (re text : list Z) : bool :=
  match fuel with
  | O => false
  | S fuel' =>
    match re with
    | [] => true
    | c :: re' =>
      if znth re' 0 =? 42 then matchstar (matchhere fuel' (tail re')) c text
      else if (c =? 36) && (znth re' 0 =? 0) then match text with [] => true | _ => false end
      else match text with
           | t :: text' => ((c =? 46) || (c =? t)) && matchhere fuel' re' text'
           | [] => false
           end
    end
  end.

(** [do { if(matchhere(re, text)) return 1; } while( *text++ != '\0');] *)
Fixpoint match_any (re text : list Z) : bool :=
  matchhere (S (length re)) re text ||
  match text with
  | [] => false
  | _ :: text => match_any re text
  end.
Definition match_ (re text : list Z) : bool :=
  match re with
  | c :: re' => if c =? 94 then matchhere (S (length re')) re' text else match_any re text
  | [] => match_any re text
  end.

(** ** The lines of a buffer *)

(** [strchr(p, '\n')]: the bytes before the first newline of the string, and after it. *)
Fixpoint split_line (p : list Z) : option (list Z * list Z) :=
  match p with
  | [] => None
  | c :: p =>
    if c =? 0 then None
    else if c =? 10 then Some ([], p)
    else match split_line p with
         | Some (l, rest) => Some (c :: l, rest)
         | None => None
         end
  end.

Section Grep.
Context {S : Type} `{UserSys S}.

(** The inner loop: the complete lines of [p], written if they match; what is left. *)
Fixpoint grep_lines (fuel : nat) (pattern p : list Z) : U S (list Z) :=
  match split_line p with
  | None => uret p
  | Some (l, rest) =>
    match fuel with
    | O => ufuel
    | Datatypes.S fuel' =>
      (if match_ pattern l then u_write 1 (l ++ [10]) ;! uret tt else uret tt) ;!
      grep_lines fuel' pattern rest
    end
  end.

(** The read loop; [buf] is the [m] bytes kept from the last round. *)
Fixpoint grep_loop (fuel : nat) (pattern : list Z) (fd : Z) (buf : list Z) : U S unit :=
  match fuel with
  | O => ufuel
  | Datatypes.S fuel' =>
    do! (n, data) := u_read fd (1024 - zlen buf - 1) in
    if 0 <? n then
      let buf := buf ++ data in
      do! p := grep_lines (length buf) pattern buf in
      (* if(p == buf) m = 0; otherwise the bytes from p on are kept *)
      grep_loop fuel' pattern fd (if zlen p =? zlen buf then [] else p)
    else uret tt
  end.
Definition grep (fuel : nat) (pattern : list Z) (fd : Z) : U S unit := grep_loop fuel pattern fd [].

Fixpoint grep_files (fuel : nat) (pattern : list Z) (files : list (list Z)) : U S unit :=
  match files with
  | [] => exit
  | f :: files =>
    do! fd := u_open f 0 in
    if fd <? 0 then puts_ 1 (codes "grep: cannot open " ++ f ++ [10]) ;! exit
    else
    grep fuel pattern fd ;!
    u_close fd ;!
    grep_files fuel pattern files
  end.
Definition main (fuel : nat) (argv : list (list Z)) : U S unit :=
  match argv with
  | _ :: pattern :: files =>
    match files with
    | [] => grep fuel pattern 0 ;! exit
    | _ => grep_files fuel pattern files
    end
  | _ => puts_ 2 (codes "usage: grep pattern [file ...]" ++ [10]) ;! exit
  end.
End Grep.

(** ** The language of a pattern *)

(** The byte [c] of a pattern stands for the byte [t] of the text. *)
Definition stands (c t : Z) : Prop := c = 46 \/ c = t.
(** [re] matches a prefix of the text. *)
Inductive re_prefix : list Z -> list Z -> Prop :=
| re_nil text : re_prefix [] text
| re_star c re l text : Forall (stands c) l -> re_prefix re text -> re_prefix (c :: 42 :: re) (l ++ text)
| re_eol : re_prefix [36] []
| re_char c re t text : znth re 0 <> 42 -> ~ (c = 36 /\ re = []) -> stands c t -> re_prefix re text ->
    re_prefix (c :: re) (t :: text).
(** [re] matches somewhere in the text, or at its beginning after [^]. *)
Definition re_matches (re text : list Z) : Prop :=
  match re with
  | c :: re' => if c =? 94 then re_prefix re' text else exists l r, text = l ++ r /\ re_prefix re r
  | [] => True
  end.

Lemma matchstar_spec here c text : matchstar here c text = true <->
  exists l r, text = l ++ r /\ Forall (stands c) l /\ here r = true.
Proof.
  induction text as [|t text IH]; cbn [matchstar].
  - rewrite orb_false_r. split; [intros H; by exists [], []|].
    intros (l & r & E & _ & H). by destruct l, r.
  - rewrite orb_true_iff, andb_true_iff, IH. split.
    + intros [H|[Ht (l & r & -> & Hl & Hr)]]; [by exists [], (t :: text)|].
      exists (t :: l), r. split; [done|]. split; [|done]. constructor; [|done]. unfold stands. lia.
    + intros (l & r & E & Hl & Hr). destruct l as [|t' l]; simpl in E; [left; by subst|right].
      injection E as <- ->. inversion_clear Hl as [|? ? Ht Hl']. split; [unfold stands in Ht; lia|eauto].
Qed.

Lemma znth_head_nul re : Forall (fun c => c <> 0) re -> znth re 0 = 0 <-> re = [].
Proof.
  intros H. split; [|by intros ->]. destruct re as [|c re]; [done|]. inversion_clear H. by intros [=].
Qed.

Lemma re_prefix_inv c re text : re_prefix (c :: re) text ->
  (exists re2 l r, re = 42 :: re2 /\ text = l ++ r /\ Forall (stands c) l /\ re_prefix re2 r) \/
  (c = 36 /\ re = [] /\ text = []) \/
  (exists t r, znth re 0 <> 42 /\ ~ (c = 36 /\ re = []) /\ text = t :: r /\ stands c t /\ re_prefix re r).
Proof. intros H. inversion H; subst; [left|right; left|right; right]; eauto 10. Qed.

Lemma matchhere_spec fuel : forall re text, Forall (fun c => c <> 0) re -> (length re < fuel)%nat ->
  matchhere fuel re text = true <-> re_prefix re text.
Proof.
  induction fuel as [|fuel IH]; intros re text Hn Hf; [lia|]. cbn [matchhere].
  destruct re as [|c re]; [split; [constructor|done]|].
  inversion_clear Hn as [|? ? Hc Hn']. simpl in Hf. destruct (Z.eqb_spec (znth re 0) 42) as [Es|Es].
  - destruct re as [|c' re]; [done|]. change (znth (c' :: re) 0) with c' in Es. subst c'. simpl tail.
    inversion_clear Hn' as [|? ? _ Hn'']. simpl in Hf. rewrite matchstar_spec. split.
    + intros (l & r & -> & Hl & Hr). constructor; [done|]. apply IH in Hr; [done|done|lia].
    + intros [(re2 & l & r & [= <-] & -> & Hl & Hr)|[(_ & [=] & _)|(t & r & Hx & _)]]%re_prefix_inv; [|done].
      exists l, r. split; [done|]. split; [done|]. apply IH; [done|lia|done].
  - pose proof (znth_head_nul re Hn') as Hz. destruct ((c =? 36) && (znth re 0 =? 0)) eqn:E.
    + assert (c = 36 /\ re = []) as [-> ->] by (split; [lia|apply Hz; lia]). destruct text as [|t text].
      * split; [constructor|done].
      * split; [done|].
        intros [(? & ? & ? & [=] & _)|[(_ & _ & [=])|(t' & r & _ & Hx & _)]]%re_prefix_inv. by destruct Hx.
    + assert (Hne : ~ (c = 36 /\ re = [])) by (intros [-> ->]; discriminate E). destruct text as [|t text].
      * split; [done|].
        intros [(? & ? & ? & -> & _)|[(-> & -> & _)|(t' & r & _ & _ & [=] & _)]]%re_prefix_inv; [done|by destruct Hne].
      * rewrite andb_true_iff, IH by (done || lia). split.
        -- intros [Hs Hr]. constructor; [done|done|unfold stands; lia|done].
        -- intros [(? & ? & ? & -> & _)|[(_ & _ & [=])|(t' & r & _ & _ & [= <- <-] & Hs & Hr)]]%re_prefix_inv;
             [done|]. split; [unfold stands in Hs; lia|done].
Qed.

Lemma match_any_spec re text : Forall (fun c => c <> 0) re ->
  match_any re text = true <-> exists l r, text = l ++ r /\ re_prefix re r.
Proof.
  intros Hn. induction text as [|t text IH]; cbn [match_any]; rewrite orb_true_iff, matchhere_spec by (done || lia).
  - split; [intros [H|]; [|done]; by exists [], []|]. intros (l & r & E & H). left. by destruct l, r.
  - rewrite IH. split.
    + intros [H|(l & r & -> & H)]; [by exists [], (t :: text)|by exists (t :: l), r].
    + intros (l & r & E & H). destruct l as [|t' l]; simpl in E; [left; by subst|right].
      injection E as <- ->. eauto.
Qed.

(** C35: the matcher of grep decides the language of its patterns: a byte stands for itself,
    [.] for any byte, [c*] for any number of bytes [c] stands for, a final [$] for the end
    of the text and a leading [^] for its beginning; its recursion ends. *)
Theorem match_correct re text : Forall (fun c => c <> 0) re ->
  match_ re text = true <-> re_matches re text.
Proof.
  intros Hn. unfold match_, re_matches. destruct re as [|c re].
  - rewrite match_any_spec by done. split; [done|]. intros _. exists [], text. split; [done|constructor].
  - inversion_clear Hn as [|? ? Hc Hn']. destruct (c =? 94).
    + apply matchhere_spec; [done|lia].
    + apply match_any_spec. by constructor.
Qed.

(** "a.*c$" matches "xabbc" and not "abcd". *)
Lemma match_correct_witness : re_matches [97; 46; 42; 99; 36] [120; 97; 98; 98; 99] /\
  ~ re_matches [97; 46; 42; 99; 36] [97; 98; 99; 100].
Proof.
  assert (Hn : Forall (fun c => c <> 0) [97; 46; 42; 99; 36]) by (repeat constructor; discriminate).
  split.
  - apply (match_correct _ [120; 97; 98; 98; 99] Hn). reflexivity.
  - intros H. apply (match_correct _ [97; 98; 99; 100] Hn) in H. discriminate H.
Defined.

(** ** Lines that arrive in pieces *)

(** A line whose bytes arrive in two reads: "ab" and then "c" with its newline. The first
    read has no newline, so its bytes are dropped, and the line "abc" is not printed for
    pattern "a"; in one read it is. *)
Lemma grep_drops_split_line :
  grep 5 [97] 0 (Gst [[97; 98]; [99; 10]] []) = UDone tt (Gst [] []) /\
  grep 5 [97] 0 (Gst [[97; 98; 99; 10]] []) = UDone tt (Gst [] [97; 98; 99; 10]).
Proof. split; vm_compute; reflexivity. Qed.
