(* ===== verification/Utils.v ===== *)
(** * Small user programs: cat.c, wc.c, echo.c, ln.c, mkdir.c, rm.c, kill.c

    The programs over the system-call interface, [cat] and [wc] against their input
    however the reads cut it. *)
From S2P Require Import Prelude CString Printf User.

Section Utils.
Context {S : Type} `{UserSys S}.

(** ** cat.c *)
Fixpoint cat (fuel : nat) (fd : Z) : U S unit :=
  match fuel with
  | O => ufuel
  | Datatypes.S fuel' =>
    do! (n, buf) := u_read fd 512 in
    if 0 <? n then
      do! w := u_write 1 buf in
      if negb (w =? n) then puts_ 1 (codes "cat: write error" ++ [10]) ;! exit
      else cat fuel' fd
    else if n <? 0 then puts_ 1 (codes "cat: read error" ++ [10]) ;! exit
    else uret tt
  end.
Fixpoint cat_files (fuel : nat) (files : list (list Z)) : U S unit :=
  match files with
  | [] => exit
  | f :: files =>
    do! fd := u_open f 0 in
    if fd <? 0 then puts_ 1 (codes "cat: cannot open " ++ f ++ [10]) ;! exit
    else cat fuel fd ;! u_close fd ;! cat_files fuel files
  end.
Definition cat_main (fuel : nat) (argv : list (list Z)) : U S unit :=
  match tail argv with
  | [] => cat fuel 0 ;! exit
  | files => cat_files fuel files
  end.

(** ** wc.c *)

(** [l], [w], [c] and [inword]. *)
Record counts := Counts { wc_l : Z; wc_w : Z; wc_c : Z; wc_in : bool }.
(** The body of the loop over [buf]. *)
Definition wc_byte (s : counts) (b : Z) : counts :=
  let c := wc_c s + 1 in
  let l := if b =? 10 then wc_l s + 1 else wc_l s in
  if existsb (Z.eqb b) [32; 13; 9; 10; 11] then Counts l (wc_w s) c false
  else if negb (wc_in s) then Counts l (wc_w s + 1) c true
  else Counts l (wc_w s) c (wc_in s).
Fixpoint wc_loop (fuel : nat) (fd : Z) (s : counts) : U S counts :=
  match fuel with
  | O => ufuel
  | Datatypes.S fuel' =>
    do! (n, buf) := u_read fd 512 in
    if 0 <? n then wc_loop fuel' fd (foldl wc_byte s buf)
    else if n <? 0 then puts_ 1 (codes "wc: read error" ++ [10]) ;! exit
    else uret s
  end.
Definition wc (fuel : nat) (fd : Z) (name : list Z) : U S unit :=
  do! s := wc_loop fuel fd (Counts 0 0 0 false) in
  puts_ 1 (printint (wc_l s) 10 1 ++ [32] ++ printint (wc_w s) 10 1 ++ [32] ++
    printint (wc_c s) 10 1 ++ [32] ++ name ++ [10]).
Fixpoint wc_files (fuel : nat) (files : list (list Z)) : U S unit :=
  match files with
  | [] => exit
  | f :: files =>
    do! fd := u_open f 0 in
    if fd <? 0 then puts_ 1 (codes "wc: cannot open " ++ f ++ [10]) ;! exit
    else wc fuel fd f ;! u_close fd ;! wc_files fuel files
  end.
Definition wc_main (fuel : nat) (argv : list (list Z)) : U S unit :=
  match tail argv with
  | [] => wc fuel 0 [] ;! exit
  | files => wc_files fuel files
  end.

(** ** echo.c, ln.c, mkdir.c, rm.c, kill.c *)
Fixpoint echo_args (args : list (list Z)) : U S unit :=
  match args with
  | [] => exit
  | a :: args => puts_ 1 (a ++ match args with [] => [10] | _ => [32] end) ;! echo_args args
  end.
Definition echo_main (argv : list (list Z)) : U S unit := echo_args (tail argv).

Definition ln_main (argv : list (list Z)) : U S unit :=
  match argv with
  | [_; old; new] =>
    do! r := u_link old new in
    (if r <? 0 then puts_ 2 (codes "link " ++ old ++ [32] ++ new ++ codes ": failed" ++ [10]) else uret tt) ;!
    exit
  | _ => puts_ 2 (codes "Usage: ln old new" ++ [10]) ;! exit
  end.

(** The first failure ends the loop. *)
Fixpoint mkdir_loop (files : list (list Z)) : U S unit :=
  match files with
  | [] => exit
  | f :: files =>
    do! r := u_mkdir f in
    if r <? 0 then puts_ 2 (codes "mkdir: " ++ f ++ codes " failed to create" ++ [10]) ;! exit
    else mkdir_loop files
  end.
Definition mkdir_main (argv : list (list Z)) : U S unit :=
  match tail argv with
  | [] => puts_ 2 (codes "Usage: mkdir files..." ++ [10]) ;! exit
  | files => mkdir_loop files
  end.
Fixpoint rm_loop (files : list (list Z)) : U S unit :=
  match files with
  | [] => exit
  | f :: files =>
    do! r := u_unlink f in
    if r <? 0 then puts_ 2 (codes "rm: " ++ f ++ codes " failed to delete" ++ [10]) ;! exit
    else rm_loop files
  end.
Definition rm_main (argv : list (list Z)) : U S unit :=
  match tail argv with
  | [] => puts_ 2 (codes "Usage: rm files..." ++ [10]) ;! exit
  | files => rm_loop files
  end.

(** [atoi] of an argument, as a string in memory. *)
Definition arg_atoi (a : list Z) : Z := default 0 (atoi (Datatypes.S (length a)) (znth a) 0).
Fixpoint kill_loop (pids : list (list Z)) : U S unit :=
  match pids with
  | [] => exit
  | p :: pids => u_kill (arg_atoi p) ;! kill_loop pids
  end.
Definition kill_main (argv : list (list Z)) : U S unit :=
  match tail argv with
  | [] => puts_ 2 (codes "usage: kill pid..." ++ [10]) ;! exit
  | pids => kill_loop pids
  end.
End Utils.

(** ** cat and wc on a stream *)

(** Reading all of the input takes a round for each piece of at most 512 bytes, and one
    that finds the end. *)
Definition pieces (l : list Z) : nat := Z.to_nat ((zlen l + 511) / 512).
Definition rounds (chunks : list (list Z)) : nat := S (sum_list_with pieces chunks).

(** One read: a nonempty piece of the input, and the rest; or the end. *)
Lemma read_piece chunks out : Forall (fun l => l <> []) chunks ->
  (chunks = [] /\ u_read 0 512 (Gst chunks out) = UDone (0, []) (Gst [] out)) \/
  exists d chunks', u_read 0 512 (Gst chunks out) = UDone (zlen d, d) (Gst chunks' out) /\ 0 < zlen d /\
    d ++ concat chunks' = concat chunks /\ Forall (fun l => l <> []) chunks' /\ rounds chunks = S (rounds chunks').
Proof.
  intros Hc. destruct chunks as [|l chunks]; [by left|right]. inversion_clear Hc as [|? ? Hl Hc'].
  cbn [u_read gst_sys gs_in gs_out]. assert (Hp : 0 < zlen l) by (destruct l; [done|unfold zlen; simpl; lia]).
  exists (take (Z.to_nat 512) l), (match drop (Z.to_nat 512) l with [] => chunks | d => d :: chunks end).
  assert (Ht : zlen (take (Z.to_nat 512) l) = Z.min 512 (zlen l)) by (unfold zlen; rewrite length_take; lia).
  rewrite Ht. split; [done|]. split; [lia|]. pose proof (take_drop (Z.to_nat 512) l) as Hd.
  assert (Hlen : zlen (drop (Z.to_nat 512) l) = Z.max 0 (zlen l - 512)) by (unfold zlen in *; rewrite length_drop; lia).
  destruct (drop (Z.to_nat 512) l) as [|x r].
  - rewrite app_nil_r in Hd. rewrite Hd. split; [done|]. split; [done|]. unfold rounds. cbn [sum_list_with].
    change (zlen (A:=Z) []) with 0 in Hlen. unfold pieces at 1. lia.
  - split; [cbn [concat]; by rewrite app_assoc, Hd|]. split; [by constructor|]. unfold rounds. cbn [sum_list_with].
    assert (0 < zlen (x :: r)) by (unfold zlen; simpl; lia). unfold pieces at 1 3. lia.
Qed.

Lemma puts_gst l : forall fd s, puts_ fd l s = UDone tt (Gst (gs_in s) (gs_out s ++ l)).
Proof.
  induction l as [|c l IH]; intros fd s; cbn [puts_].
  - rewrite app_nil_r. by destruct s.
  - erewrite ubind_done by reflexivity. rewrite IH. cbn [gs_in gs_out]. by rewrite <-app_assoc.
Qed.

(** [cat] copies its input, however it is cut into chunks. *)
Lemma cat_copies fuel : forall chunks out, Forall (fun l => l <> []) chunks -> (rounds chunks <= fuel)%nat ->
  cat fuel 0 (Gst chunks out) = UDone tt (Gst [] (out ++ concat chunks)).
Proof.
  induction fuel as [|fuel IH]; intros chunks out Hc Hf; [unfold rounds in Hf; lia|]. cbn [cat].
  destruct (read_piece chunks out Hc) as [[-> E]|(d & chunks' & E & Hd & Hcat & Hc' & Hr)].
  - erewrite ubind_done by exact E. cbn. by rewrite app_nil_r.
  - erewrite ubind_done by exact E. cbv beta iota. destruct (Z.ltb_spec 0 (zlen d)); [|lia].
    erewrite ubind_done by reflexivity. rewrite Z.eqb_refl. cbn [negb gs_in gs_out].
    rewrite IH by (done || lia). rewrite <-app_assoc. by rewrite Hcat.
Qed.

(** ** What wc counts *)

Definition blank (b : Z) : bool := existsb (Z.eqb b) [32; 13; 9; 10; 11].
(** The words of a text: its maximal runs of bytes that are not blank; [cur] is the run
    read so far. *)
Fixpoint fields_from (cur data : list Z) : list (list Z) :=
  let done := match cur with [] => [] | _ => [cur] end in
  match data with
  | [] => done
  | b :: data => if blank b then done ++ fields_from [] data else fields_from (cur ++ [b]) data
  end.
Definition lines (data : list Z) : Z := zlen (filter (fun b => b = 10) data).
Definition words (data : list Z) : Z := zlen (fields_from [] data).

Lemma wc_bytes data : forall s cur, wc_in s = (match cur with [] => false | _ => true end) ->
  let s' := foldl wc_byte s data in
  wc_l s' = wc_l s + lines data /\ wc_c s' = wc_c s + zlen data /\
  wc_w s' = wc_w s + zlen (fields_from cur data) - (match cur with [] => 0 | _ => 1 end).
Proof.
  induction data as [|b data IH]; intros s cur Hin; cbn [foldl fields_from].
  { change (lines []) with 0. change (zlen (A:=Z) []) with 0. destruct cur; unfold zlen; simpl; lia. }
  assert (Hl : lines (b :: data) = (if b =? 10 then 1 else 0) + lines data).
  { unfold lines. rewrite filter_cons. unfold zlen. destruct (Z.eqb_spec b 10); case_decide; try done; simpl; lia. }
  assert (Hz : zlen (b :: data) = 1 + zlen data) by (unfold zlen; simpl; lia).
  assert (Hb : wc_byte s b = let l := if b =? 10 then wc_l s + 1 else wc_l s in
    if blank b then Counts l (wc_w s) (wc_c s + 1) false
    else if negb (wc_in s) then Counts l (wc_w s + 1) (wc_c s + 1) true
    else Counts l (wc_w s) (wc_c s + 1) (wc_in s)) by done.
  rewrite Hb. cbv zeta. clear Hb. destruct (blank b) eqn:Eb.
  - destruct (IH (Counts (if b =? 10 then wc_l s + 1 else wc_l s) (wc_w s) (wc_c s + 1) false) [] eq_refl)
      as (H1 & H2 & H3). cbn [wc_l wc_w wc_c] in *. rewrite H1, H2, H3, Hl, Hz.
    destruct (b =? 10), cur; unfold zlen; rewrite ?length_app; simpl length; lia.
  - assert (Hnb : (b =? 10) = false) by (destruct (Z.eqb_spec b 10) as [->|]; [discriminate Eb|done]).
    rewrite Hnb in *. destruct cur as [|x cur]; rewrite Hin; cbn [negb].
    + destruct (IH (Counts (wc_l s) (wc_w s + 1) (wc_c s + 1) true) [b] eq_refl) as (H1 & H2 & H3).
      cbn [wc_l wc_w wc_c app] in *. lia.
    + destruct (IH (Counts (wc_l s) (wc_w s) (wc_c s + 1) true) ((x :: cur) ++ [b]) eq_refl) as (H1 & H2 & H3).
      cbn [wc_l wc_w wc_c app] in *. lia.
Qed.

Lemma wc_loop_run fuel : forall chunks out s, Forall (fun l => l <> []) chunks -> (rounds chunks <= fuel)%nat ->
  wc_loop fuel 0 s (Gst chunks out) = UDone (foldl wc_byte s (concat chunks)) (Gst [] out).
Proof.
  induction fuel as [|fuel IH]; intros chunks out s Hc Hf; [unfold rounds in Hf; lia|]. cbn [wc_loop].
  destruct (read_piece chunks out Hc) as [[-> E]|(d & chunks' & E & Hd & Hcat & Hc' & Hr)].
  - erewrite ubind_done by exact E. done.
  - erewrite ubind_done by exact E. cbv beta iota. destruct (Z.ltb_spec 0 (zlen d)); [|lia].
    rewrite IH by (done || lia). by rewrite <-Hcat, foldl_app.
Qed.

(** [wc] ends and prints the number of newlines, of maximal runs of non-blank bytes and
    of bytes of its whole input, whatever the reads return (words may span reads). *)
Theorem wc_counts fuel chunks out name : Forall (fun l => l <> []) chunks -> (rounds chunks <= fuel)%nat ->
  let data := concat chunks in
  wc fuel 0 name (Gst chunks out) = UDone tt (Gst [] (out ++
    printint (lines data) 10 1 ++ [32] ++ printint (words data) 10 1 ++ [32] ++
    printint (zlen data) 10 1 ++ [32] ++ name ++ [10])).
Proof.
  intros Hc Hf data. unfold wc. erewrite ubind_done by (by apply wc_loop_run).
  rewrite puts_gst. fold data. destruct (wc_bytes data (Counts 0 0 0 false) [] eq_refl) as (-> & -> & ->).
  cbn [gs_in gs_out wc_l wc_w wc_c]. rewrite !Z.add_0_l, Z.sub_0_r. done.
Qed.

(** "ab c" and a newline in three reads, one of them inside the word. *)
Lemma wc_counts_witness : wc 10 0 (codes "f") (Gst [[97]; [98; 32]; [99; 10]] []) =
  UDone tt (Gst [] (codes "1 2 5 f" ++ [10])).
Proof.
  rewrite (wc_counts 10 [[97]; [98; 32]; [99; 10]] [] (codes "f"));
    [vm_compute; reflexivity|repeat constructor; discriminate|vm_compute; lia].
Defined.
