(* ===== verification/Sh.v ===== *)
(** * The shell: sh.c

    The command line is its bytes without the terminating NUL; a [char *] into it is an
    index, and the parser's state is [*ps]. A parsed command is a tree whose words are
    pairs of indices ([argv]/[eargv], [file]/[efile]). *)
From S2P Require Import Prelude Param CString.

Definition MAXARGS : Z := 10.

Inductive cmd :=
| EXEC (argv : list (Z * Z))
| REDIR (c : cmd) (file efile mode fd : Z)
| PIPE (left right : cmd)
| LIST (left right : cmd)
| BACK (c : cmd).

(** The constructors ([malloc], [memset] and the fields). *)
Definition execcmd : cmd := EXEC [].
Definition redircmd (subcmd : cmd) (file efile mode fd : Z) : cmd := REDIR subcmd file efile mode fd.
Definition pipecmd (l r : cmd) : cmd := PIPE l r.
Definition listcmd (l r : cmd) : cmd := LIST l r.
Definition backcmd (subcmd : cmd) : cmd := BACK subcmd.

Definition whitespace : list Z := [32; 9; 13; 10; 11].
Definition symbols : list Z := [60; 124; 62; 38; 59; 40; 41].
(** ulib.c [strchr(s, c) != 0]: the NUL is in no string. *)
Definition in_str (s : list Z) (c : Z) : bool := existsb (Z.eqb c) s.

Section Parse.
(** The command line; [*s] is [at_ s]. *)
Variable text : list Z.
Definition es : Z := zlen text.
Definition at_ (s : Z) : Z := znth text s.

(** [while(s < es && p( *s)) s++;] *)
Fixpoint skip_while (fuel : nat) (p : Z -> bool) (s : Z) : Z :=
  match fuel with
  | O => s
  | S fuel' => if (s <? es) && p (at_ s) then skip_while fuel' p (s + 1) else s
  end.
Definition skip_white (s : Z) : Z := skip_while (length text) (in_str whitespace) s.
Definition skip_word (s : Z) : Z :=
  skip_while (length text) (fun c => negb (in_str whitespace c) && negb (in_str symbols c)) s.

(** The token ([0] at the end, ['+'] for [>>], ['a'] for a word, otherwise the symbol)
    and its bounds [*q] and [*eq]. *)
Definition gettoken : M Z (Z * Z * Z) :=
  let! s := get in
  let s := skip_white s in
  let q := s in
  let c := at_ s in
  let (ret_, s) :=
    if c =? 0 then (c, s)
    else if existsb (Z.eqb c) [124; 40; 41; 59; 38; 60] then (c, s + 1)
    else if c =? 62 then
      let s := s + 1 in
      if at_ s =? 62 then (43, s + 1) else (c, s)
    else (97, skip_word s) in
  let eq := s in
  modify (fun _ => skip_white s) ;;;
  ret (ret_, q, eq).

Definition peek (toks : list Z) : M Z bool :=
  modify skip_white ;;;
  let! s := get in
  ret (negb (at_ s =? 0) && in_str toks (at_ s)).

(** A redirection parsed once [peek] has seen [<] or [>]. *)
Definition parseredir (c : cmd) : M Z cmd :=
  let! (tok, _, _) := gettoken in
  let! (t, q, eq) := gettoken in
  if negb (t =? 97) then panic "missing file for redirection"
  else
  ret (if tok =? 60 then redircmd c q eq O_RDONLY 0
       else if tok =? 62 then redircmd c q eq (Z.lor O_WRONLY O_CREATE) 1
       else if tok =? 43 then redircmd c q eq (Z.lor O_WRONLY O_CREATE) 1   (* >> *)
       else c).
Fixpoint parseredirs_loop (fuel : nat) (c : cmd) : M Z cmd :=
  let! b := peek [60; 62] in
  if b then
    match fuel with
    | O => fun _ => NoFuel
    | S fuel' => let! c := parseredir c in parseredirs_loop fuel' c
    end
  else ret c.
Definition parseredirs (c : cmd) : M Z cmd := parseredirs_loop (length text) c.

(** [cmd->argv[argc] = q; ...]: the [execcmd] is the leaf of the redirections that
    [parseredirs] has put around it, which are its only owners. *)
Fixpoint add_arg (w : Z * Z) (ret_ : cmd) : cmd :=
  match ret_ with
  | EXEC argv => EXEC (argv ++ [w])
  | REDIR c file efile mode fd => REDIR (add_arg w c) file efile mode fd
  | _ => ret_
  end.
Fixpoint parseexec_loop (fuel : nat) (argc : Z) (ret_ : cmd) : M Z cmd :=
  let! b := peek [124; 41; 38; 59] in
  if b then ret ret_
  else
  match fuel with
  | O => fun _ => NoFuel
  | S fuel' =>
    let! (tok, q, eq) := gettoken in
    if tok =? 0 then ret ret_
    else if negb (tok =? 97) then panic "syntax"
    else
    let ret_ := add_arg (q, eq) ret_ in
    let argc := argc + 1 in
    if MAXARGS <=? argc then panic "too many args"
    else
    let! ret_ := parseredirs ret_ in
    parseexec_loop fuel' argc ret_
  end.

Fixpoint backs (fuel : nat) (c : cmd) : M Z cmd :=
  let! b := peek [38] in
  if b then
    match fuel with
    | O => fun _ => NoFuel
    | S fuel' => let! _ := gettoken in backs fuel' (backcmd c)
    end
  else ret c.

Fixpoint parseline (fuel : nat) : M Z cmd :=
  match fuel with
  | O => fun _ => NoFuel
  | S fuel' =>
    let! c := parsepipe fuel' in
    let! c := backs (length text) c in
    let! b := peek [59] in
    if b then
      let! _ := gettoken in
      let! r := parseline fuel' in
      ret (listcmd c r)
    else ret c
  end
with parsepipe (fuel : nat) : M Z cmd :=
  match fuel with
  | O => fun _ => NoFuel
  | S fuel' =>
    let! c := parseexec fuel' in
    let! b := peek [124] in
    if b then
      let! _ := gettoken in
      let! r := parsepipe fuel' in
      ret (pipecmd c r)
    else ret c
  end
with parseexec (fuel : nat) : M Z cmd :=
  match fuel with
  | O => fun _ => NoFuel
  | S fuel' =>
    let! b := peek [40] in
    if b then parseblock fuel'
    else
    let! ret_ := parseredirs execcmd in
    parseexec_loop (S (length text)) 0 ret_
  end
with parseblock (fuel : nat) : M Z cmd :=
  match fuel with
  | O => fun _ => NoFuel
  | S fuel' =>
    let! b := peek [40] in
    if negb b then panic "parseblock"
    else
    let! _ := gettoken in
    let! c := parseline fuel' in
    let! b := peek [41] in
    if negb b then panic "syntax - missing )"
    else
    let! _ := gettoken in
    parseredirs c
  end.

(** The recursion consumes a byte or goes down one of four levels. *)
Definition parse_fuel : nat := (4 * length text + 4)%nat.
End Parse.

(** Overwrite the byte after each word with a NUL. [*es] of the line is its own NUL, so
    a write there changes nothing of [text]. *)
Fixpoint nul_args (argv : list (Z * Z)) (text : list Z) : list Z :=
  match argv with
  | [] => text
  | (_, eq) :: argv => nul_args argv (zupd text eq 0)
  end.
Fixpoint nulterminate (c : cmd) (text : list Z) : list Z :=
  match c with
  | EXEC argv => nul_args argv text
  | REDIR c _ efile _ _ => zupd (nulterminate c text) efile 0
  | PIPE l r => nulterminate r (nulterminate l text)
  | LIST l r => nulterminate r (nulterminate l text)
  | BACK c => nulterminate c text
  end.

(** The command, and the line with its words terminated; the state is the line. *)
Definition parsecmd : M (list Z) cmd := fun text =>
  match (let! c := parseline text (parse_fuel text) in
         let! _ := peek text [] in
         let! s := get in
         if negb (s =? es text) then panic "syntax" else ret c) 0 with
  | Ret c _ => Ret c (nulterminate c text)
  | Panic e => Panic e
  | Asleep ch _ => Asleep ch text
  | NoFuel => NoFuel
  end.

(** "ls -l > out | (wc; x)& " *)
Example parse_ex :
  parsecmd [108; 115; 32; 45; 108; 32; 62; 32; 111; 32; 124; 32; 40; 119; 99; 59; 120; 41; 38; 10] =
  Ret (BACK (PIPE (REDIR (EXEC [(0, 2); (3, 5)]) 8 9 513 1) (LIST (EXEC [(13, 15)]) (EXEC [(16, 17)]))))
    [108; 115; 0; 45; 108; 0; 62; 32; 111; 0; 124; 32; 40; 119; 99; 0; 120; 0; 38; 10].
Proof. vm_compute. reflexivity. Qed.
