(* ===== verification/ShSpec.v ===== *)
(** * The shell's parser

    The language of command lines is given by the tokens of a line ([lexes]) and a grammar
    over them ([gram]). Parsing ends; the command it returns is the one the grammar gives
    the tokens of the whole line; after [nulterminate] each word is a C string. *)
From S2P Require Import Prelude Param CString Sh.

(** A symbol, [>>], or a word with its bounds. *)
Inductive token := TSym (c : Z) | TApp | TWord (q eq : Z).

(** A simple command's parts: an argument, or a redirection's symbol and file. *)
Inductive item := Arg (w : Z * Z) | Redir (k : token) (w : Z * Z).
Definition item_toks (i : item) : list token :=
  match i with Arg w => [TWord w.1 w.2] | Redir k w => [k; TWord w.1 w.2] end.
Definition toks_of (its : list item) : list token := concat (map item_toks its).
Definition is_redir (i : item) : Prop :=
  match i with Arg _ => False | Redir k _ => k = TSym 60 \/ k = TSym 62 \/ k = TApp end.
Definition item_ok (i : item) : Prop := match i with Arg _ => True | _ => is_redir i end.
(** The arguments in the order of the line; the redirections, the first innermost. *)
Definition args (its : list item) : list (Z * Z) :=
  concat (map (fun i => match i with Arg w => [w] | _ => [] end) its).
Definition redirect (c : cmd) (i : item) : cmd :=
  match i with
  | Arg _ => c
  | Redir (TSym 60) w => REDIR c w.1 w.2 O_RDONLY 0
  | Redir _ w => REDIR c w.1 w.2 (Z.lor O_WRONLY O_CREATE) 1
  end.
Definition build (its : list item) (c : cmd) : cmd := foldl redirect c its.

Inductive nonterm := line | pipeline | command.
(** The commands of a sequence of tokens:
<<
    line     ::= pipeline '&'* [ ';' line ]
    pipeline ::= command [ '|' pipeline ]
    command  ::= (word | redirection)* | '(' line ')' redirection*
>> *)
Inductive gram : nonterm -> list token -> cmd -> Prop :=
| gram_line n ts c : gram pipeline ts c -> gram line (ts ++ replicate n (TSym 38)) (Nat.iter n BACK c)
| gram_list n ts c ts' r : gram pipeline ts c -> gram line ts' r ->
    gram line (ts ++ replicate n (TSym 38) ++ TSym 59 :: ts') (LIST (Nat.iter n BACK c) r)
| gram_command ts c : gram command ts c -> gram pipeline ts c
| gram_pipe ts c ts' r : gram command ts c -> gram pipeline ts' r ->
    gram pipeline (ts ++ TSym 124 :: ts') (PIPE c r)
| gram_simple its : Forall item_ok its -> zlen (args its) < MAXARGS ->
    gram command (toks_of its) (build its (EXEC (args its)))
| gram_block ts c its : gram line ts c -> Forall is_redir its ->
    gram command (TSym 40 :: ts ++ TSym 41 :: toks_of its) (build its c).

(** The words of a command. *)
Fixpoint words_of (c : cmd) : list (Z * Z) :=
  match c with
  | EXEC argv => argv
  | REDIR c file efile _ _ => words_of c ++ [(file, efile)]
  | PIPE l r | LIST l r => words_of l ++ words_of r
  | BACK c => words_of c
  end.

Lemma toks_app its its' : toks_of (its ++ its') = toks_of its ++ toks_of its'.
Proof. unfold toks_of. by rewrite map_app, concat_app. Qed.
Lemma args_app its its' : args (its ++ its') = args its ++ args its'.
Proof. unfold args. by rewrite map_app, concat_app. Qed.
Lemma args_redirs its : Forall is_redir its -> args its = [].
Proof. unfold args. induction 1 as [|[w|k w] its H _ IH]; [done|done|exact IH]. Qed.
Lemma build_app its its' c : build (its ++ its') c = build its' (build its c).
Proof. apply foldl_app. Qed.
Lemma redirs_ok its : Forall is_redir its -> Forall item_ok its.
Proof. intros H. eapply Forall_impl; [exact H|]. by intros [w|k w]. Qed.

(** The words of a command are words of its tokens. *)
Lemma redirect_words c i w : w ∈ words_of (redirect c i) -> w ∈ words_of c \/ TWord w.1 w.2 ∈ item_toks i.
Proof.
  destruct i as [v|k v]; [by left|]. assert (E : words_of (redirect c (Redir k v)) = words_of c ++ [v]).
  { destruct v. simpl. repeat case_match; reflexivity. }
  rewrite E, elem_of_app, list_elem_of_singleton. intros [| ->]; [by left|right; set_solver].
Qed.
Lemma build_words its : forall c w, w ∈ words_of (build its c) -> w ∈ words_of c \/ TWord w.1 w.2 ∈ toks_of its.
Proof.
  induction its as [|i its IH]; intros c w; [by left|]. intros [H|H]%IH.
  - apply redirect_words in H as [|H]; [by left|]. right. unfold toks_of. simpl. set_solver.
  - right. unfold toks_of. simpl. set_solver.
Qed.
Lemma args_words its w : w ∈ args its -> TWord w.1 w.2 ∈ toks_of its.
Proof.
  unfold args, toks_of. induction its as [|[v|k v] its IH]; simpl; [set_solver| |set_solver].
  rewrite elem_of_cons. intros [->|]; set_solver.
Qed.
Lemma backs_words n c : words_of (Nat.iter n BACK c) = words_of c.
Proof. by induction n. Qed.
Lemma gram_words l ts c : gram l ts c -> forall w, w ∈ words_of c -> TWord w.1 w.2 ∈ ts.
Proof.
  induction 1; intros w; simpl; rewrite ?backs_words.
  - set_solver.
  - set_solver.
  - auto.
  - set_solver.
  - intros [|]%build_words; [by apply args_words|done].
  - intros [|]%build_words; set_solver.
Qed.

Section ShSpec.
Variable text : list Z.
(** The line has no NUL of its own. *)
Hypothesis no_nul : Forall (fun c => c <> 0) text.
Let L : Z := zlen text.

Definition white (s s' : Z) : Prop := forall i, s <= i < s' -> in_str whitespace (at_ text i) = true.
Definition word_char (c : Z) : bool := negb (in_str whitespace c) && negb (in_str symbols c).
(** [q, eq) is a word of the line: a run of word bytes that cannot be made longer at
    either end. *)
Definition word (w : Z * Z) : Prop :=
  0 <= w.1 < w.2 /\ w.2 <= zlen text /\ (forall i, w.1 <= i < w.2 -> word_char (at_ text i) = true) /\
  (w.2 = zlen text \/ word_char (at_ text w.2) = false) /\ (w.1 = 0 \/ word_char (at_ text (w.1 - 1)) = false).
(** The bytes from [q] up to [e] are the token [t]. *)
Definition spells (q : Z) (t : token) (e : Z) : Prop :=
  match t with
  | TSym c => at_ text q = c /\ c ∈ symbols /\ e = q + 1 /\ (c = 62 -> at_ text (q + 1) <> 62)
  | TApp => at_ text q = 62 /\ at_ text (q + 1) = 62 /\ e = q + 2
  | TWord q' e' => q' = q /\ e' = e /\ word (q, e)
  end.
(** The tokens of the bytes from [s] up to [s'], with white space around them. *)
Inductive lexes : Z -> list token -> Z -> Prop :=
| lexes_nil s s' : s <= s' -> white s s' -> lexes s [] s'
| lexes_cons s q t e ts s' : s <= q -> white s q -> spells q t e -> lexes e ts s' -> lexes s (t :: ts) s'.

Lemma white_app s s1 s2 : white s s1 -> white s1 s2 -> white s s2.
Proof. intros H1 H2 i Hi. destruct (decide (i < s1)); [apply H1; lia|apply H2; lia]. Qed.
Lemma lexes_app s ts s1 ts' s2 : lexes s ts s1 -> lexes s1 ts' s2 -> lexes s (ts ++ ts') s2.
Proof.
  induction 1 as [s s1 Hs Hw|s q t e ts s1 Hs Hw Ht _ IH]; intros H2; simpl.
  - inversion H2; subst; [apply lexes_nil; [lia|by eapply white_app]|].
    econstructor; [|by eapply white_app|done|done]. lia.
  - econstructor; eauto.
Qed.
Lemma lexes_words s ts s' q e : lexes s ts s' -> TWord q e ∈ ts -> word (q, e).
Proof.
  induction 1 as [|s q0 t e0 ts s' _ _ Ht _ IH]; [set_solver|]. rewrite elem_of_cons.
  intros [<-|]; [|auto]. by destruct Ht as (-> & -> & Hw).
Qed.

Lemma at_nonzero s : 0 <= s < L -> at_ text s <> 0.
Proof.
  unfold L, zlen. intros Hs. unfold at_, znth. destruct (Z.ltb_spec s 0); [lia|].
  rewrite nth_lookup. destruct (lookup_lt_is_Some_2 text (Z.to_nat s)) as [x Hx]; [lia|].
  rewrite Hx. simpl. exact (Forall_lookup_1 _ _ _ _ no_nul Hx).
Qed.
Lemma at_end : at_ text L = 0.
Proof. unfold at_, znth, L, zlen. case_match; [done|]. apply nth_overflow. lia. Qed.

Lemma skip_while_spec fuel p s : 0 <= s <= L -> L - s <= Z.of_nat fuel ->
  let s' := skip_while text fuel p s in
  s <= s' <= L /\ (forall i, s <= i < s' -> p (at_ text i) = true) /\ (s' = L \/ p (at_ text s') = false).
Proof.
  revert s. induction fuel as [|fuel IH]; intros s Hs Hf; cbn [skip_while].
  - split; [lia|]. split; [lia|left; lia].
  - unfold es. fold L. destruct ((s <? L) && p (at_ text s)) eqn:E.
    + destruct (IH (s + 1)) as (H1 & H2 & H3); [lia|lia|]. cbv zeta. split; [lia|]. split; [|done].
      intros i Hi. destruct (decide (i = s)) as [->|]; [by destruct (s <? L)|]. apply H2. lia.
    + cbv zeta. split; [lia|]. split; [lia|]. destruct (Z.ltb_spec s L); [by right|left; lia].
Qed.

(** A place a word may begin at: not inside of one. *)
Definition clean (s : Z) : Prop :=
  s = L \/ word_char (at_ text s) = false \/ s = 0 \/ word_char (at_ text (s - 1)) = false.
Lemma white_char c : in_str whitespace c = true -> word_char c = false.
Proof. unfold word_char. by intros ->. Qed.

Lemma skip_white_spec s : 0 <= s <= L -> let s' := skip_white text s in
  s <= s' <= L /\ white s s' /\ (s' = L \/ in_str whitespace (at_ text s') = false) /\ (clean s -> clean s').
Proof.
  intros Hs s'. destruct (skip_while_spec (length text) (in_str whitespace) s) as (Hr & Hw & He);
    [lia|unfold L, zlen in *; lia|]. fold (skip_white text s) in *. split; [exact Hr|]. split; [exact Hw|].
  split; [exact He|]. intros Hc. destruct (decide (s' = s)) as [->|Hn]; [done|].
  right; right; right. apply white_char, Hw. unfold s' in *. lia.
Qed.

Lemma skip_word_spec s : 0 <= s < L -> clean s -> in_str whitespace (at_ text s) = false ->
  in_str symbols (at_ text s) = false -> word (s, skip_word text s) /\ clean (skip_word text s).
Proof.
  intros Hs Hc H1 H2. destruct (skip_while_spec (length text) (fun c => negb (in_str whitespace c) &&
    negb (in_str symbols c)) s) as (Hr & Ha & He); [lia|unfold L, zlen in *; lia|]. fold (skip_word text s) in *.
  assert (Hwc : word_char (at_ text s) = true) by (unfold word_char; by rewrite H1, H2).
  assert (s <> skip_word text s).
  { intros E. destruct He as [He|He]; [lia|]. rewrite <-E in He. by rewrite H1, H2 in He. }
  split; [|destruct He as [He|He]; [by left|right; by left]].
  split; [simpl; lia|]. split; [simpl; unfold L in *; lia|]. split; [done|]. split; [exact He|].
  simpl. destruct Hc as [|[Hc|Hc]]; [lia|congruence|exact Hc].
Qed.
Lemma clean_end s t e : spells s t e -> (forall q eq, t <> TWord q eq) -> 0 <= s -> clean e.
Proof.
  intros Ht Hn Hs. right; right; right. unfold word_char. rewrite andb_false_iff. right.
  destruct t as [c| |q eq]; [|..|by edestruct Hn].
  - destruct Ht as (Hc & Hin & -> & _). replace (s + 1 - 1) with s by lia. rewrite Hc.
    apply negb_false_iff, existsb_exists. exists c. split; [by apply list_elem_of_In|apply Z.eqb_refl].
  - destruct Ht as (_ & Hc & ->). replace (s + 2 - 1) with (s + 1) by lia. by rewrite Hc.
Qed.

(** What [gettoken] answers for a token, and what a token begins with. *)
Definition tok_code (t : token) : Z := match t with TSym c => c | TApp => 43 | TWord _ _ => 97 end.
Definition begins (t : token) (c : Z) : Prop :=
  match t with TSym x => c = x | TApp => c = 62 | TWord _ _ => word_char c = true end.

Lemma gettoken_spec s : 0 <= s <= L -> clean s -> exists tok q eq s',
  gettoken text s = Ret (tok, q, eq) s' /\ s <= s' <= L /\ clean s' /\
  (tok = 0 /\ s' = L /\ lexes s [] L \/
   exists t, lexes s [t] s' /\ s < s' /\ tok = tok_code t /\ tok_code t <> 0 /\ (tok_code t = 97 -> t = TWord q eq) /\
     (in_str whitespace (at_ text s) = false -> begins t (at_ text s))).
Proof.
  intros Hs Hcl. destruct (skip_white_spec s Hs) as (Hw & Hws & Hstop & Hcl1).
  unfold gettoken. mrun. set (s1 := skip_white text s) in *. specialize (Hcl1 Hcl).
  assert (Hsame : in_str whitespace (at_ text s) = false -> s1 = s).
  { intros E. destruct (decide (s1 = s)) as [|Hn]; [done|]. rewrite (Hws s) in E; [done|lia]. }
  destruct (Z.eqb_spec (at_ text s1) 0) as [E0|E0].
  { assert (Hs1 : s1 = L) by (destruct (decide (s1 = L)); [done|]; exfalso; apply (at_nonzero s1); [lia|done]).
    exists 0, s1, s1, (skip_white text s1). rewrite E0. split; [done|].
    destruct (skip_white_spec s1 ltac:(lia)) as (? & _ & _ & ?). split; [lia|]. split; [auto|].
    left. split; [done|]. split; [lia|]. apply lexes_nil; [lia|]. by rewrite <-Hs1. }
  assert (Hlt : s1 < L) by (destruct (decide (s1 = L)) as [E|]; [by rewrite E, at_end in E0|lia]).
  destruct Hstop as [|Hnw]; [lia|].
  (* a token [t] up to [e] *)
  assert (Hgo : forall t e, s1 < e <= L -> spells s1 t e -> clean e -> begins t (at_ text s1) ->
    s <= skip_white text e <= L /\ clean (skip_white text e) /\ lexes s [t] (skip_white text e) /\
    s < skip_white text e /\ (in_str whitespace (at_ text s) = false -> begins t (at_ text s))).
  { intros t e He Ht Hce Hb. destruct (skip_white_spec e ltac:(lia)) as (? & ? & _ & Hc).
    split; [lia|]. split; [auto|]. split; [|split; [lia|intros E; by rewrite <-(Hsame E)]].
    econstructor; [|exact Hws|exact Ht|]; [lia|]. apply lexes_nil; [lia|done]. }
  destruct (existsb _ _) eqn:Es.
  { assert (Hin : at_ text s1 ∈ symbols /\ at_ text s1 <> 62).
    { apply existsb_exists in Es as (c & Hc & Ec%Z.eqb_eq). rewrite <-Ec in Hc. unfold symbols. simpl in Hc. 
      split; [|lia]. rewrite list_elem_of_In. simpl. tauto. }
    assert (Hsp : spells s1 (TSym (at_ text s1)) (s1 + 1)).
    { split; [done|]. split; [apply Hin|]. split; [done|]. intros; by destruct Hin. }
    destruct (Hgo (TSym (at_ text s1)) (s1 + 1)) as (H1 & H2 & H3 & H4 & H5);
      [lia|done|by eapply clean_end; [exact Hsp|done|lia]|done|].
    exists (at_ text s1), s1, (s1 + 1), (skip_white text (s1 + 1)). split; [done|]. split; [done|]. split; [done|].
    right. eexists. split_and!; try done. simpl. intros E. exfalso. destruct Hin as [Hin _]. rewrite E in Hin. by apply (bool_decide_unpack _) in Hin || set_solver. }
  destruct (Z.eqb_spec (at_ text s1) 62) as [Eg|Eg].
  { destruct (Z.eqb_spec (at_ text (s1 + 1)) 62) as [Eg2|Eg2].
    - assert (s1 + 1 < L) by (destruct (decide (s1 + 1 = L)) as [E|]; [by rewrite E, at_end in Eg2|lia]).
      assert (Hsp : spells s1 TApp (s1 + 2)) by by split_and!.
      destruct (Hgo TApp (s1 + 2)) as (H1 & H2 & H3 & H4 & H5);
        [lia|done|by eapply clean_end; [exact Hsp|done|lia]|done|].
      exists 43, s1, (s1 + 2), (skip_white text (s1 + 2)). replace (s1 + 1 + 1) with (s1 + 2) by lia.
      split; [done|]. split; [done|]. split; [done|]. right. eexists. by split_and!.
    - assert (Hsp : spells s1 (TSym 62) (s1 + 1)).
      { split; [done|]. split; [rewrite list_elem_of_In; simpl; tauto|]. by split. }
      destruct (Hgo (TSym 62) (s1 + 1)) as (H1 & H2 & H3 & H4 & H5);
        [lia|done|by eapply clean_end; [exact Hsp|done|lia]|done|].
      exists 62, s1, (s1 + 1), (skip_white text (s1 + 1)). rewrite Eg.
      split; [done|]. split; [done|]. split; [done|]. right. eexists. by split_and!. }
  assert (Hsy : in_str symbols (at_ text s1) = false).
  { cbn [existsb] in Es. unfold in_str, symbols. cbn [existsb]. lia. }
  destruct (skip_word_spec s1 ltac:(lia) Hcl1 Hnw Hsy) as (Hword & Hce). pose proof Hword as (Hq & Heq & _). simpl in Hq, Heq.
  destruct (Hgo (TWord s1 (skip_word text s1)) (skip_word text s1)) as (H1 & H2 & H3 & H4 & H5);
    [unfold L; lia|by split_and!|done|unfold begins, word_char; by rewrite Hnw, Hsy|].
  exists 97, s1, (skip_word text s1), (skip_white text (skip_word text s1)). split; [done|]. split; [done|]. split; [done|].
  right. eexists. by split_and!.
Qed.

Lemma peek_spec toks s : 0 <= s <= L -> clean s -> exists b s',
  peek text toks s = Ret b s' /\ s <= s' <= L /\ clean s' /\ lexes s [] s' /\
  (b = true -> s' < L /\ in_str toks (at_ text s') = true /\ in_str whitespace (at_ text s') = false).
Proof.
  intros Hs Hc. unfold peek. mrun. eexists _, _. split; [done|].
  destruct (skip_white_spec s Hs) as (Hw & Hws & Hstop & Hcl).
  split; [done|]. split; [auto|]. split; [apply lexes_nil; [lia|done]|]. intros [Hn Ht]%andb_true_iff.
  assert (skip_white text s <> L) by (intros E; by rewrite E, at_end in Hn).
  split; [lia|]. split; [done|]. by destruct Hstop.
Qed.

(** A parsing step from [s] reads tokens and has a result in [P] for them, or reports an error. *)
Definition parses {A} (s : Z) (P : list token -> A -> Prop) (r : res Z A) : Prop :=
  match r with
  | Ret a s' => s <= s' <= L /\ clean s' /\ exists ts, lexes s ts s' /\ P ts a
  | Panic _ => True
  | _ => False
  end.

Lemma parses_mono {A} s s' ts (P Q : list token -> A -> Prop) r : s <= s' -> lexes s ts s' -> parses s' P r ->
  (forall ts' a, P ts' a -> Q (ts ++ ts') a) -> parses s Q r.
Proof.
  unfold parses. destruct r as [a s2|e|c s2|]; try done. intros Hs Hl (Hr & Hc & ts' & Hl' & Ha) HPQ.
  split; [lia|]. split; [done|]. exists (ts ++ ts'). split; [by eapply lexes_app|auto].
Qed.
Lemma parses_bind {A B} s (m : M Z A) (k : A -> M Z B) (P : list token -> A -> Prop) (Q : list token -> B -> Prop) :
  parses s P (m s) ->
  (forall a ts s', s <= s' <= L -> clean s' -> P ts a -> parses s' (fun ts' => Q (ts ++ ts')) (k a s')) ->
  parses s Q (bind m k s).
Proof.
  unfold bind. destruct (m s) as [a s'|e|c s'|] eqn:E; try done. cbn. intros (Hs & Hc & ts & Hl & Ha) Hk.
  eapply parses_mono; [|exact Hl|by apply Hk|done]. lia.
Qed.
Lemma parses_ret {A} s (a : A) (P : list token -> A -> Prop) : 0 <= s <= L -> clean s -> P [] a -> parses s P (ret a s).
Proof. intros. split; [lia|]. split; [done|]. exists []. split; [apply lexes_nil; [lia|]|done]. intros i ?. lia. Qed.

(** After a [peek] that succeeded the next token begins with the byte seen. *)
Lemma parses_peek {B} toks s (k : bool -> M Z B) (Q : list token -> B -> Prop) : 0 <= s <= L -> clean s ->
  (forall s', s <= s' < L -> clean s' -> in_str toks (at_ text s') = true ->
    in_str whitespace (at_ text s') = false -> parses s' Q (k true s')) ->
  (forall s', s <= s' <= L -> clean s' -> parses s' Q (k false s')) -> parses s Q (bind (peek text toks) k s).
Proof.
  intros Hs Hc Ht Hf. destruct (peek_spec toks s Hs Hc) as (b & s' & E & Hr & Hc' & Hl & Hb).
  erewrite bind_eq by exact E. eapply parses_mono with (s' := s'); [lia|exact Hl| |done].
  destruct b; [|by apply Hf]. destruct (Hb eq_refl) as (? & ? & ?). apply Ht; [lia|done..].
Qed.
Lemma parses_token {B} s (k : Z * Z * Z -> M Z B) (Q : list token -> B -> Prop) : 0 <= s <= L -> clean s ->
  (forall q eq s', s <= s' <= L -> clean s' -> s = L \/ in_str whitespace (at_ text s) = true ->
     parses s' Q (k (0, q, eq) s')) ->
  (forall t q eq s', s < s' <= L -> clean s' -> tok_code t <> 0 /\ (tok_code t = 97 -> t = TWord q eq) ->
    (in_str whitespace (at_ text s) = false -> begins t (at_ text s)) ->
    parses s' (fun ts => Q (t :: ts)) (k (tok_code t, q, eq) s')) -> parses s Q (bind (gettoken text) k s).
Proof.
  intros Hs Hc H0 Ht. destruct (gettoken_spec s Hs Hc) as (tok & q & eq & s' & E & Hr & Hc' & Hcase).
  erewrite bind_eq by exact E. destruct Hcase as [(-> & -> & Hl)|(t & Hl & Hlt & -> & Hn & Hw & Hb)].
  - eapply parses_mono with (s' := L); [lia|exact Hl| |done]. apply H0; [lia|done|].
    destruct (decide (s = L)) as [|]; [by left|right]. inversion Hl; subst.
    match goal with H : white _ _ |- _ => apply H; lia end.
  - eapply parses_mono with (s' := s'); [lia|exact Hl|apply Ht; [lia|done|by split|done]|done].
Qed.

(** A [peek] for [toks] and the token it saw. *)
Lemma parses_peek_token {B} toks s (k0 : M Z B) (k : Z * Z * Z -> M Z B) (Q : list token -> B -> Prop) :
  0 <= s <= L -> clean s ->
  (forall t q eq s', s < s' <= L -> clean s' -> (exists c, c ∈ toks /\ begins t c) ->
    parses s' (fun ts => Q (t :: ts)) (k (tok_code t, q, eq) s')) ->
  (forall s', s <= s' <= L -> clean s' -> parses s' Q (k0 s')) ->
  parses s Q ((let! b := peek text toks in if b then (let! t := gettoken text in k t) else k0) s).
Proof.
  intros Hs Hc Ht Hf. apply parses_peek; [done|done| |exact Hf]. intros s1 H1 Hc1 Hin Hnw.
  apply parses_token; [lia|done| |].
  - intros ? ? ? _ _ [->|E]; [lia|congruence].
  - intros t q eq s2 H2 Hc2 _ Hb. apply Ht; [lia|done|]. exists (at_ text s1). split; [|auto].
    apply existsb_exists in Hin as (c & Hin & ->%Z.eqb_eq). by apply list_elem_of_In.
Qed.
Lemma begins_sym c t : c ∈ [38; 40; 41; 59; 124] -> begins t c -> t = TSym c.
Proof.
  intros Hc. destruct t as [x| |]; simpl; [by intros ->|intros ->; set_solver|].
  repeat (apply elem_of_cons in Hc as [->|Hc]; [done|]). set_solver.
Qed.
Lemma begins_redir c t : c ∈ [60; 62] -> begins t c -> t = TSym 60 \/ t = TSym 62 \/ t = TApp.
Proof.
  intros Hc. destruct t as [x| |]; simpl; [intros ->|auto|].
  - repeat (apply elem_of_cons in Hc as [->|Hc]; [auto|]). set_solver.
  - repeat (apply elem_of_cons in Hc as [->|Hc]; [done|]). set_solver.
Qed.

Lemma parses_weaken {A} s (P Q : list token -> A -> Prop) r : 0 <= s <= L -> parses s P r ->
  (forall ts a, P ts a -> Q ts a) -> parses s Q r.
Proof.
  intros. eapply (parses_mono s s []); [lia|apply lexes_nil; [lia|intros i ?; lia]|done|done].
Qed.
Lemma parses_redir {B} c s (k : cmd -> M Z B) (k0 : M Z B) (Q : list token -> B -> Prop) : 0 <= s <= L -> clean s ->
  (forall i s', s < s' <= L -> clean s' -> is_redir i ->
    parses s' (fun ts => Q (item_toks i ++ ts)) (k (redirect c i) s')) ->
  (forall s', s <= s' <= L -> clean s' -> parses s' Q (k0 s')) ->
  parses s Q ((let! b := peek text [60; 62] in if b then (let! c := parseredir text c in k c) else k0) s).
Proof.
  intros Hs Hc Hk H0. apply parses_peek; [done|done| |exact H0]. intros s1 H1 Hc1 Hin Hnw. unfold parseredir.
  mrun. apply parses_token; [lia|done|intros ? ? ? _ _ [->|E]; [lia|congruence]|].
  intros t q eq s2 H2 Hc2 _ Hb. specialize (Hb Hnw).
  assert (Ht : t = TSym 60 \/ t = TSym 62 \/ t = TApp).
  { unfold in_str in Hin. apply existsb_exists in Hin as (x & Hin & Ex%Z.eqb_eq). rewrite Ex in Hb.
    eapply begins_redir; [|exact Hb]. by apply list_elem_of_In. }
  mrun. apply parses_token; [lia|done|done|]. intros t' q' eq' s3 H3 Hc3 Hw _.
  destruct (Z.eqb_spec (tok_code t') 97) as [Et|]; simpl; mrun; [|done]. destruct Hw as [_ Hw]. rewrite (Hw Et).
  pose proof (Hk (Redir t (q', eq')) s3 ltac:(lia) Hc3 Ht) as H. simpl in H.
  by destruct Ht as [->|[->| ->]].
Qed.

Definition redirected (c : cmd) (ts : list token) (c' : cmd) : Prop :=
  exists rs, Forall is_redir rs /\ ts = toks_of rs /\ c' = build rs c.

Lemma parseredirs_loop_ok fuel s c : 0 <= s <= L -> clean s -> L - s <= Z.of_nat fuel ->
  parses s (redirected c) (parseredirs_loop text fuel c s).
Proof.
  revert s c. induction fuel as [|fuel IH]; intros s c Hs Hc Hf; cbn [parseredirs_loop].
  - apply parses_peek; [done|done|intros; lia|]. intros. apply parses_ret; [lia|done|by exists []].
  - apply parses_redir; [done|done| |intros; apply parses_ret; [lia|done|by exists []]].
    intros i s1 H1 Hc1 Hi. eapply parses_weaken; [lia|apply IH; [lia|done|lia]|].
    intros ts c' (rs & Hrs & -> & ->). exists (i :: rs). by split; [constructor|].
Qed.
Lemma parseredirs_ok s c : 0 <= s <= L -> clean s -> parses s (redirected c) (parseredirs text c s).
Proof. intros. apply parseredirs_loop_ok; [done|done|unfold L, zlen in *; lia]. Qed.

Lemma add_arg_build w its : forall c, add_arg w (build its c) = build its (add_arg w c).
Proof.
  induction its as [|i its IH]; intros c; [done|]. simpl. rewrite IH. f_equal.
  destruct i as [|k v]; [done|]. simpl. by repeat case_match.
Qed.
Definition simple (its : list item) : cmd := build its (EXEC (args its)).

Lemma parseexec_loop_ok fuel s its : 0 <= s <= L -> clean s -> L - s < Z.of_nat fuel -> zlen (args its) < MAXARGS ->
  parses s (fun ts c => exists its', Forall item_ok its' /\ ts = toks_of its' /\ c = simple (its ++ its') /\
    zlen (args (its ++ its')) < MAXARGS) (parseexec_loop text fuel (zlen (args its)) (simple its) s).
Proof.
  revert s its. induction fuel as [|fuel IH]; intros s its Hs Hc Hf Hn; [lia|]. cbn [parseexec_loop].
  assert (Hend : exists its', Forall item_ok its' /\ [] = toks_of its' /\ simple its = simple (its ++ its') /\
    zlen (args (its ++ its')) < MAXARGS) by (exists []; by rewrite app_nil_r).
  apply parses_peek; [done|done|intros; by apply parses_ret; [lia|..]|]. intros s1 H1 Hc1.
  apply parses_token; [lia|done|intros; by apply parses_ret; [lia|..]|]. intros t q eq s2 H2 Hc2 Hw _.
  destruct (Z.eqb_spec (tok_code t) 0) as [E0|_]; [by destruct Hw|]. destruct Hw as [_ Hw].
  destruct (Z.eqb_spec (tok_code t) 97) as [E1|E1]; simpl negb; [|done]. rewrite (Hw E1). 
  destruct (Z.leb_spec MAXARGS (zlen (args its) + 1)) as [|Hlt]; [done|].
  eapply parses_bind; [by apply parseredirs_ok; [lia|]|]. intros c ts s3 H3 Hc3 (rs & Hrs & -> & ->).
  assert (E : args (its ++ Arg (q, eq) :: rs) = args its ++ [(q, eq)]).
  { rewrite args_app. f_equal. change (args (Arg (q, eq) :: rs)) with ((q, eq) :: args rs). by rewrite args_redirs. }
  assert (En : zlen (args its) + 1 = zlen (args (its ++ Arg (q, eq) :: rs))).
  { rewrite E. unfold zlen. rewrite length_app. simpl. lia. }
  replace (build rs _) with (simple (its ++ Arg (q, eq) :: rs)).
  2: { unfold simple. rewrite E, build_app, add_arg_build. simpl. done. }
  rewrite En. eapply parses_weaken; [lia|apply IH; [lia|done|lia|lia]|].
  intros ts c (its' & Hok & -> & -> & Hlen). exists (Arg (q, eq) :: rs ++ its'). rewrite <-app_assoc in *. simpl in *.
  split; [constructor; [done|]; apply Forall_app; by split; [apply redirs_ok|]|].
  split; [by rewrite <-toks_app|done].
Qed.

Lemma backs_ok fuel s c : 0 <= s <= L -> clean s -> L - s <= Z.of_nat fuel ->
  parses s (fun ts c' => exists n, ts = replicate n (TSym 38) /\ c' = Nat.iter n BACK c) (backs text fuel c s).
Proof.
  revert s c. induction fuel as [|fuel IH]; intros s c Hs Hc Hf; cbn [backs].
  - apply parses_peek; [done|done|intros; lia|]. intros. apply parses_ret; [lia|done|by exists 0%nat].
  - apply parses_peek_token; [done|done| |intros; apply parses_ret; [lia|done|by exists 0%nat]].
    intros t q eq s1 H1 Hc1 (c1 & ->%list_elem_of_singleton & ->%begins_sym); [|set_solver].
    eapply parses_weaken; [lia|apply IH; [lia|done|lia]|]. intros ts c' (n & -> & ->). exists (S n).
    split; [done|]. unfold backcmd. by rewrite Nat.iter_succ_r.
Qed.

(** The four mutually recursive procedures, with enough fuel at each level. *)
Lemma parse_ok fuel : forall s, 0 <= s <= L -> clean s ->
  (4 * (L - s) + 4 <= Z.of_nat fuel -> parses s (gram line) (parseline text fuel s)) /\
  (4 * (L - s) + 3 <= Z.of_nat fuel -> parses s (gram pipeline) (parsepipe text fuel s)) /\
  (4 * (L - s) + 2 <= Z.of_nat fuel -> parses s (gram command) (parseexec text fuel s)) /\
  (4 * (L - s) + 1 <= Z.of_nat fuel -> parses s (gram command) (parseblock text fuel s)).
Proof.
  induction fuel as [|fuel IH]; intros s Hs Hcl; [split_and!; lia|]. split_and!; intros Hf;
    cbn [parseline parsepipe parseexec parseblock].
  - eapply parses_bind; [apply IH; [lia|done|lia]|]. intros c ts s1 H1 Hc1 Hc.
    eapply parses_bind; [apply backs_ok; [lia|done|unfold L, zlen in *; lia]|]. intros ? ? s2 H2 Hc2 (n & -> & ->).
    apply parses_peek_token; [lia|done| |].
    + intros t q eq s4 H4 Hc4 (c1 & ->%list_elem_of_singleton & ->%begins_sym); [|set_solver].
      eapply parses_bind; [apply IH; [lia|done|lia]|]. intros r ts' s5 H5 Hc5 Hr. apply parses_ret; [lia|done|].
      rewrite app_nil_r. by apply gram_list.
    + intros. apply parses_ret; [lia|done|]. rewrite app_nil_r. by apply gram_line.
  - eapply parses_bind; [apply IH; [lia|done|lia]|]. intros c ts s1 H1 Hc1 Hc.
    apply parses_peek_token; [lia|done| |].
    + intros t q eq s4 H4 Hc4 (c1 & ->%list_elem_of_singleton & ->%begins_sym); [|set_solver].
      eapply parses_bind; [apply IH; [lia|done|lia]|]. intros r ts' s5 H5 Hc5 Hr. apply parses_ret; [lia|done|].
      rewrite app_nil_r. by apply gram_pipe.
    + intros. apply parses_ret; [lia|done|]. rewrite app_nil_r. by apply gram_command.
  - apply parses_peek; [lia|done| |].
    + intros s1 H1 Hc1 Hin Hnw. unfold in_str in Hin. simpl in Hin. apply IH; [lia|done|lia].
    + intros s1 H1 Hc1. eapply parses_bind; [by apply parseredirs_ok; [lia|]|].
      intros c ts s2 H2 Hc2 (rs & Hrs & -> & ->).
      pose proof (parseexec_loop_ok (S (length text)) s2 rs ltac:(lia) Hc2) as H.
      unfold simple in H. rewrite args_redirs in H by done.
      eapply parses_weaken; [lia|apply H; [unfold L, zlen in *; lia|done]|].
      intros ts c (its & Hits & -> & -> & Hlen). rewrite <-toks_app. apply gram_simple; [|done].
      apply Forall_app. by split; [apply redirs_ok|].
  - apply parses_peek; [lia|done| |done]. intros s1 H1 Hc1 Hin Hnw1. cbn [negb].
    apply parses_token; [lia|done|intros ? ? ? _ _ [->|E]; [lia|congruence]|].
    intros t q eq s2 H2 Hc2 _ Hb. specialize (Hb Hnw1).
    assert (t = TSym 40) as ->.
    { unfold in_str in Hin. simpl in Hin. replace (at_ text s1) with 40 in Hb by lia. apply begins_sym in Hb; [done|set_solver]. }
    eapply parses_bind; [apply IH; [lia|done|lia]|]. intros c ts s3 H3 Hc3 Hc.
    apply parses_peek; [lia|done| |done]. intros s4 H4 Hc4 Hin4 Hnw4. cbn [negb].
    apply parses_token; [lia|done|intros ? ? ? _ _ [->|E]; [lia|congruence]|].
    intros t q' eq' s5 H5 Hc5 _ Hb5. specialize (Hb5 Hnw4).
    assert (t = TSym 41) as ->.
    { unfold in_str in Hin4. simpl in Hin4. replace (at_ text s4) with 41 in Hb5 by lia. apply begins_sym in Hb5; [done|set_solver]. }
    eapply parses_weaken; [lia|by apply parseredirs_ok; [lia|]|]. intros ? ? (rs & Hrs & -> & ->). by apply gram_block.
Qed.

(** ** Terminating the words *)

(** [t] with NULs after the words [ws]. *)
Definition nul_after (ws : list (Z * Z)) (t t' : list Z) : Prop :=
  forall i, znth t' i = if existsb (fun w => w.2 =? i) ws then 0 else znth t i.

Lemma znth_zupd_zero l i j : znth (zupd l i 0) j = if i =? j then 0 else znth l j.
Proof.
  destruct (Z.eqb_spec i j) as [<-|Hne]; [|by apply znth_zupd_ne].
  destruct (decide (0 <= i < zlen l)); [by apply znth_zupd_eq|]. unfold znth, zupd, zlen in *.
  case_match; [done|]. rewrite list_insert_ge by lia. apply nth_overflow. lia.
Qed.
Lemma nul_after_app ws ws' t t1 t2 : nul_after ws t t1 -> nul_after ws' t1 t2 -> nul_after (ws ++ ws') t t2.
Proof.
  intros H1 H2 i. rewrite H2, H1, existsb_app. by destruct (existsb _ ws), (existsb _ ws').
Qed.
Lemma nul_after_one w t : nul_after [w] t (zupd t w.2 0).
Proof. intros i. rewrite znth_zupd_zero. simpl. by rewrite orb_false_r. Qed.
Lemma nul_args_after argv t : nul_after argv t (nul_args argv t).
Proof.
  revert t. induction argv as [|[q eq] argv IH]; intros t; [done|]. cbn [nul_args].
  change ((q, eq) :: argv) with ([(q, eq)] ++ argv). eapply nul_after_app; [apply nul_after_one|apply IH].
Qed.
Lemma nulterminate_after c t : nul_after (words_of c) t (nulterminate c t).
Proof.
  revert t. induction c as [argv|c IH f ef m fd|l IHl r IHr|l IHl r IHr|c IH]; intros t; simpl.
  - apply nul_args_after.
  - eapply nul_after_app; [apply IH|apply (nul_after_one (f, ef))].
  - eapply nul_after_app; [apply IHl|apply IHr].
  - eapply nul_after_app; [apply IHl|apply IHr].
  - apply IH.
Qed.

(** No word ends inside another. *)
Lemma words_apart w v : word w -> word v -> ~ w.1 <= v.2 < w.2.
Proof.
  intros (_ & Hw & Hc & _) (_ & _ & _ & [He|He] & _) Hr; [lia|]. by rewrite Hc in He.
Qed.

(** The bytes of word [w] are unchanged in [t'] and followed by a NUL. *)
Definition terminated (t' : list Z) (w : Z * Z) : Prop :=
  cstr_len (znth t') w.1 (w.2 - w.1) /\ forall i, w.1 <= i < w.2 -> znth t' i = znth text i.

Lemma terminated_words c : Forall word (words_of c) -> Forall (terminated (nulterminate c text)) (words_of c).
Proof.
  intros Hall. apply Forall_forall. intros w Hw.
  pose proof (nulterminate_after c text) as Hn. rewrite Forall_forall in Hall. pose proof (Hall w Hw) as Hww.
  assert (Hin : forall i, w.1 <= i < w.2 -> znth (nulterminate c text) i = znth text i).
  { intros i Hi. rewrite Hn. destruct (existsb _ _) eqn:E; [|done]. apply existsb_exists in E as (v & Hv & Ev).
    apply list_elem_of_In in Hv. exfalso. apply (words_apart w v Hww (Hall v Hv)). lia. }
  split; [|done]. destruct Hww as (Hr & Hl & Hch & _). split; [lia|]. split.
  - replace (w.1 + (w.2 - w.1)) with w.2 by lia. rewrite Hn.
    replace (existsb _ _) with true; [done|]. symmetry. apply existsb_exists. exists w.
    split; [by apply list_elem_of_In|lia].
  - intros i Hi. rewrite Hin by lia. apply at_nonzero. unfold L. lia.
Qed.

(** C8: parsing any command line ends. A command it returns is the one the grammar [gram]
    gives the tokens of the whole line (its words, symbols and [>>], cut at the longest
    words, with nothing but white space left out), with fewer than [MAXARGS] arguments to
    each program; after [nulterminate] every word of it is a C string with the bytes it
    had. *)
Theorem parsecmd_ok : match parsecmd text with
  | Ret c text' => (exists ts, lexes 0 ts (zlen text) /\ gram line ts c) /\ Forall (terminated text') (words_of c)
  | Panic _ => True
  | _ => False
  end.
Proof.
  unfold parsecmd. assert (HL : 0 <= L) by (unfold L, zlen; lia).
  assert (H : match (let! c := parseline text (parse_fuel text) in
    let! _ := peek text [] in let! s := get in
    if negb (s =? es text) then panic "syntax" else ret c) 0 with
    | Ret c s => exists ts, lexes 0 ts L /\ gram line ts c | Panic _ => True | _ => False end).
  { destruct (parse_ok (parse_fuel text) 0) as (H & _); [lia|by right; right; left|].
    specialize (H ltac:(unfold parse_fuel, L, zlen; lia)). unfold bind at 1.
    destruct (parseline _ _ _) as [c s|e|ch s|]; [|done..]. destruct H as (Hr & Hc & ts & Hl & Hg).
    destruct (peek_spec [] s Hr Hc) as (b & s' & E & Hr' & _ & Hl' & _). erewrite bind_eq by exact E. mrun.
    destruct (Z.eqb_spec s' (es text)) as [->|]; [|done]. simpl. mrun. exists ts. split; [|done].
    rewrite <-(app_nil_r ts). by eapply lexes_app. }
  destruct (bind _ _ 0) as [c s|e|ch s|]; [|done..]. destruct H as (ts & Hl & Hg). split; [by exists ts|].
  apply terminated_words, Forall_forall. intros [q e] Hw. eapply lexes_words; [exact Hl|].
  by apply (gram_words _ _ _ Hg (q, e)).
Qed.
End ShSpec.

(** "cat < in; echo" *)
Lemma parsecmd_ok_witness : let text := [99; 97; 116; 32; 60; 32; 105; 110; 59; 101; 99; 104; 111] in
  exists c text', parsecmd text = Ret c text' /\ words_of c = [(0, 3); (6, 8); (9, 13)] /\ Forall (terminated text text') (words_of c).
Proof.
  intros text. pose proof (parsecmd_ok text ltac:(apply (bool_decide_unpack _); vm_compute; exact I)) as H.
  assert (E : parsecmd text = Ret (LIST (REDIR (EXEC [(0, 3)]) 6 8 O_RDONLY 0) (EXEC [(9, 13)]))
    [99; 97; 116; 0; 60; 32; 105; 110; 0; 101; 99; 104; 111]) by (vm_compute; reflexivity).
  rewrite E in H. destruct H as [_ H]. eexists _, _. split; [exact E|]. split; [reflexivity|exact H].
Defined.
