(* ===== verification/ShRun.v ===== *)
(** * Running commands: sh.c

    [runcmd] and the main loop over the system-call interface, and the descriptors the
    commands of a pipeline get. *)
From S2P Require Import Prelude Param CString Printf User Sh.

(** The string at [q] of a line. *)
Definition str_at (line : list Z) (q : Z) : list Z := until_nul (drop (Z.to_nat q) line).

Section ShRun.
Context {S : Type} `{UserSys S}.

(** [printf(2, "%s\n", s); exit();] *)
Definition sh_panic {A} (msg : list Z) : U S A := puts_ 2 (msg ++ [10]) ;! exit.
Definition fork1 : U S Z :=
  do! pid := u_fork in
  if pid =? -1 then sh_panic (codes "fork") else uret pid.

(** Execute [c]. Never returns. *)
Fixpoint runcmd (line : list Z) (c : cmd) : U S unit :=
  match c with
  | EXEC argv =>
    match (fun w => str_at line w.1) <$> argv with
    | [] => exit
    | a0 :: av =>
      u_exec a0 (a0 :: av) ;!
      puts_ 2 (codes "exec " ++ a0 ++ codes " failed" ++ [10]) ;!
      exit
    end
  | REDIR c file _ mode fd =>
    u_close fd ;!
    do! r := u_open (str_at line file) mode in
    if r <? 0 then
      puts_ 2 (codes "open " ++ str_at line file ++ codes " failed" ++ [10]) ;! exit
    else runcmd line c ;! exit
  | LIST l r =>
    do! pid := fork1 in
    (if pid =? 0 then runcmd line l else uret tt) ;!
    u_wait ;!
    runcmd line r ;!
    exit
  | PIPE l r =>
    do! p := u_pipe in
    match p with
    | None => sh_panic (codes "pipe")
    | Some (p0, p1) =>
      do! pid := fork1 in
      (if pid =? 0 then
         u_close 1 ;! u_dup p1 ;! u_close p0 ;! u_close p1 ;! runcmd line l
       else uret tt) ;!
      do! pid := fork1 in
      (if pid =? 0 then
         u_close 0 ;! u_dup p0 ;! u_close p0 ;! u_close p1 ;! runcmd line r
       else uret tt) ;!
      u_close p0 ;! u_close p1 ;! u_wait ;! u_wait ;!
      exit
    end
  | BACK c =>
    do! pid := fork1 in
    (if pid =? 0 then runcmd line c else uret tt) ;!
    exit
  end.

(** [gets(buf, nbuf)]: a line of at most [max - 1] bytes, one read at a time. *)
Fixpoint gets_loop (k : nat) (acc : list Z) : U S (list Z) :=
  match k with
  | O => uret acc
  | Datatypes.S k' =>
    do! (cc, l) := u_read 0 1 in
    if cc <? 1 then uret acc
    else
    let c := nth 0 l 0 in
    if (c =? 10) || (c =? 13) then uret (acc ++ [c]) else gets_loop k' (acc ++ [c])
  end.
Definition gets (max : Z) : U S (list Z) := gets_loop (Z.to_nat (max - 1)) [].

(** The command line as a string, or [None] at the end of the input. *)
Definition getcmd (nbuf : Z) : U S (option (list Z)) :=
  puts_ 2 (codes "$ ") ;!
  do! buf := gets nbuf in
  match until_nul buf with
  | [] => uret None
  | l => uret (Some l)
  end.

(** Ensure that three file descriptors are open. *)
Fixpoint open_console (fuel : nat) : U S unit :=
  match fuel with
  | O => ufuel
  | Datatypes.S fuel' =>
    do! fd := u_open (codes "console") O_RDWR in
    if 0 <=? fd then
      if 3 <=? fd then u_close fd ;! uret tt else open_console fuel'
    else uret tt
  end.

(** The child that parses and runs a line. *)
Definition run_line (buf : list Z) : U S unit :=
  match parsecmd buf with
  | Ret c line => runcmd line c
  | Panic e => sh_panic (codes e)
  | _ => ufuel
  end.
Fixpoint main_loop (fuel : nat) : U S unit :=
  match fuel with
  | O => ufuel
  | Datatypes.S fuel' =>
    do! l := getcmd 100 in
    match l with
    | None => exit
    | Some buf =>
      if (znth buf 0 =? 99) && (znth buf 1 =? 100) && (znth buf 2 =? 32) then
        (* chdir must be called by the parent, not the child; chop \n *)
        let dir := drop 3 (take (length buf - 1) buf) in
        do! r := u_chdir dir in
        (if r <? 0 then puts_ 2 (codes "cannot cd " ++ dir ++ [10]) else uret tt) ;!
        main_loop fuel'
      else
      do! pid := fork1 in
      (if pid =? 0 then run_line buf else uret tt) ;!
      u_wait ;!
      main_loop fuel'
    end
  end.
(** [policy]: the scheduling policy compiled in. *)
Definition main (policy : list Z) (fuel : nat) : U S unit :=
  puts_ 1 (codes "Scheduling policy: ") ;!
  puts_ 1 (policy ++ [10]) ;!
  open_console 16 ;!
  main_loop fuel.

(** ** [runcmd] never returns *)

Lemma ubind_never {A B} (m : U S A) (k : A -> U S B) s :
  (forall a s', m s = UDone a s' -> forall b s'', k a s' <> UDone b s'') -> forall b s', ubind m k s <> UDone b s'.
Proof. unfold ubind. intros Hk b s'. destruct (m s) as [a s1| | |]; try done. by apply (Hk a s1). Qed.

Lemma sh_panic_never {A} msg s (b : A) s' : sh_panic msg s <> UDone b s'.
Proof. revert b s'. by apply ubind_never. Qed.

Lemma runcmd_never line c s b s' : runcmd line c s <> UDone b s'.
Proof.
  revert s b s'. induction c as [argv|c IH f ef m fd|l IHl r IHr|l IHl r IHr|c IH]; intros s b s'; cbn [runcmd].
  - destruct (_ <$> argv); [done|]. revert b s'. apply ubind_never. intros _ s1 _. by apply ubind_never.
  - revert b s'. apply ubind_never. intros _ s1 _. apply ubind_never. intros z s2 _. destruct (z <? 0); by apply ubind_never.
  - revert b s'. apply ubind_never. intros [[p0 p1]|] s1 _; [|intros; apply sh_panic_never].
    do 2 (apply ubind_never; intros ? ? _; apply ubind_never; intros ? ? _).
    do 4 (apply ubind_never; intros ? ? _). done.
  - revert b s'. apply ubind_never. intros pid s1 _. apply ubind_never. intros _ s2 _.
    apply ubind_never. intros _ s3 _. by apply ubind_never.
  - revert b s'. apply ubind_never. intros pid s1 _. by apply ubind_never.
Qed.

(** A child that runs a command does not come back to the code after it. *)
Lemma runcmd_bind line c (k : unit -> U S unit) s : ubind (runcmd line c) k s = runcmd line c s.
Proof. unfold ubind. pose proof (runcmd_never line c s) as Hn. destruct (runcmd line c s) as [a s1| | |]; [by destruct (Hn a s1)|done..]. Qed.
End ShRun.

(** ** The descriptors of a pipeline *)

Inductive fobj := OCon | OFile (path : list Z) (mode : Z) | OPipeR (n : nat) | OPipeW (n : nat).
(** A process as its descriptor table, the results its forks will have, and the number of
    pipes made so far. *)
Record pst := Pst { ps_fds : list (option fobj); ps_forks : list Z; ps_pipes : nat }.

Definition fd_free (l : list (option fobj)) : option nat :=
  fst <$> list_find (fun o => o = None) l.
Definition fd_alloc (o : fobj) (s : pst) : option (Z * pst) :=
  fd ← fd_free (ps_fds s);
  Some (Z.of_nat fd, Pst (<[fd := Some o]> (ps_fds s)) (ps_forks s) (ps_pipes s)).
Definition fd_close (fd : Z) (s : pst) : pst :=
  Pst (<[Z.to_nat fd := None]> (ps_fds s)) (ps_forks s) (ps_pipes s).

#[export] Instance pst_sys : UserSys pst := {|
  u_fork := fun s => UDone (nth 0 (ps_forks s) 1) (Pst (ps_fds s) (tail (ps_forks s)) (ps_pipes s));
  u_wait := fun s => UDone 1 s;
  u_pipe := fun s =>
    match fd_alloc (OPipeR (ps_pipes s)) s with
    | None => UDone None s
    | Some (p0, s1) =>
      match fd_alloc (OPipeW (ps_pipes s)) s1 with
      | None => UDone None s
      | Some (p1, s2) => UDone (Some (p0, p1)) (Pst (ps_fds s2) (ps_forks s2) (S (ps_pipes s)))
      end
    end;
  u_read := fun _ _ s => UDone (0, []) s;
  u_write := fun _ l s => UDone (zlen l) s;
  u_close := fun fd s => UDone 0 (fd_close fd s);
  u_dup := fun fd s =>
    match nth (Z.to_nat fd) (ps_fds s) None with
    | None => UDone (-1) s
    | Some o => match fd_alloc o s with None => UDone (-1) s | Some (r, s') => UDone r s' end
    end;
  u_open := fun p m s => match fd_alloc (OFile p m) s with None => UDone (-1) s | Some (r, s') => UDone r s' end;
  u_exec := fun p v s => UExec p v s;
  u_chdir := fun _ s => UDone 0 s;
  u_mkdir := fun _ s => UDone 0 s;
  u_unlink := fun _ s => UDone 0 s;
  u_link := fun _ _ s => UDone 0 s;
  u_kill := fun _ s => UDone 0 s
|}.

(** [i] is the lowest free descriptor. *)
Definition lowest_free (l : list (option fobj)) (i : nat) : Prop :=
  l !! i = Some None /\ forall j, (j < i)%nat -> exists o, l !! j = Some (Some o).

Lemma fd_alloc_lowest o s i : lowest_free (ps_fds s) i ->
  fd_alloc o s = Some (Z.of_nat i, Pst (<[i := Some o]> (ps_fds s)) (ps_forks s) (ps_pipes s)).
Proof.
  intros [Hi Hlt]. unfold fd_alloc, fd_free.
  assert (E : list_find (fun o => o = None) (ps_fds s) = Some (i, None)).
  { apply list_find_Some. split; [done|]. split; [done|]. intros j y Hy Hj. destruct (Hlt j Hj) as [o' Ho]. congruence. }
  by rewrite E.
Qed.

Lemma run_done {S A B} a (k : A -> U S B) s s1 (m : U S A) : m s = UDone a s1 -> ubind m k s = k a s1.
Proof. apply ubind_done. Qed.

Lemma run_fork1 {B} (k : Z -> U pst B) fds pid rest n : pid <> -1 ->
  ubind fork1 k (Pst fds (pid :: rest) n) = k pid (Pst fds rest n).
Proof. intros Hp. unfold fork1, ubind. simpl. destruct (Z.eqb_spec pid (-1)); [done|]. done. Qed.

Lemma run_close {B} fd (k : Z -> U pst B) s : ubind (u_close fd) k s = k 0 (fd_close fd s).
Proof. done. Qed.

Lemma run_dup {B} fd o i (k : Z -> U pst B) s : nth (Z.to_nat fd) (ps_fds s) None = Some o ->
  lowest_free (ps_fds s) i ->
  ubind (u_dup fd) k s = k (Z.of_nat i) (Pst (<[i := Some o]> (ps_fds s)) (ps_forks s) (ps_pipes s)).
Proof. intros Hn Hl. unfold ubind. cbn [u_dup pst_sys]. by rewrite Hn, (fd_alloc_lowest o s i Hl). Qed.

(** The descriptors after [pipe] and after a child has closed [fd], duplicated one end of
    the pipe into it and closed both. *)
Section Wiring.
Context (fds : list (option fobj)) (i j : nat) (r w : fobj).
Hypothesis Hi : lowest_free fds i.
Hypothesis Hj : lowest_free (<[i := Some r]> fds) j.
Let piped : list (option fobj) := <[j := Some w]> (<[i := Some r]> fds).

Lemma free_lt (l : list (option fobj)) n : lowest_free l n -> (n < length l)%nat.
Proof. intros [Hn _]. by eapply lookup_lt_Some. Qed.
Lemma fds_ij : i <> j /\ fds !! j = Some None.
Proof.
  pose proof (free_lt _ _ Hi). destruct Hj as [Hj1 _]. destruct (decide (i = j)) as [<-|Hne].
  - rewrite list_lookup_insert_eq in Hj1 by done. done.
  - rewrite list_lookup_insert_ne in Hj1 by done. done.
Qed.
Lemma piped_ends : nth i piped None = Some r /\ nth j piped None = Some w.
Proof.
  destruct fds_ij as [Hne _]. pose proof (free_lt _ _ Hi). pose proof (free_lt _ _ Hj) as Hl.
  unfold piped. rewrite nth_insert_ne, !nth_insert_eq by done. done.
Qed.
Lemma piped_open fd o : fds !! fd = Some (Some o) -> fd <> i /\ fd <> j /\ piped !! fd = Some (Some o).
Proof.
  intros Ho. destruct fds_ij as [Hne Hn]. destruct Hi as [Hn' _].
  assert (fd <> i /\ fd <> j) as [H1 H2] by (split; congruence).
  split; [done|]. split; [done|]. unfold piped. by rewrite !list_lookup_insert_ne.
Qed.
(** The descriptor just closed is the lowest free one. *)
Lemma closed_lowest fd o : fds !! fd = Some (Some o) ->
  (forall k, (k < fd)%nat -> exists o', fds !! k = Some (Some o')) ->
  lowest_free (<[fd := None]> piped) fd.
Proof.
  intros Ho Hlt. destruct (piped_open fd o Ho) as (H1 & H2 & H3). split.
  - apply list_lookup_insert_eq. by eapply lookup_lt_Some.
  - intros k Hk. destruct (Hlt k Hk) as [o' Ho']. destruct (piped_open k o' Ho') as (_ & _ & Hp).
    exists o'. rewrite list_lookup_insert_ne by lia. done.
Qed.
Lemma rewired fd o e : fds !! fd = Some (Some o) ->
  <[j := None]> (<[i := None]> (<[fd := Some e]> (<[fd := None]> piped))) = <[fd := Some e]> fds.
Proof.
  intros Ho. destruct fds_ij as [Hne Hn]. destruct (piped_open fd o Ho) as (H1 & H2 & _).
  pose proof (free_lt _ _ Hi). pose proof (free_lt _ _ Hj) as Hl. rewrite length_insert in Hl. destruct Hi as [Hn' _].
  assert (Hf : (fd < length fds)%nat) by (by eapply lookup_lt_Some).
  apply list_eq. intros k. unfold piped. rewrite !list_lookup_insert, !length_insert.
  repeat case_decide; try done; intuition congruence.
Qed.
Lemma unpiped : <[j := None]> (<[i := None]> piped) = fds.
Proof.
  destruct fds_ij as [Hne Hn]. pose proof (free_lt _ _ Hi). pose proof (free_lt _ _ Hj) as Hl.
  rewrite length_insert in Hl. destruct Hi as [Hn' _].
  apply list_eq. intros k. unfold piped. rewrite !list_lookup_insert, !length_insert.
  repeat case_decide; try done; intuition congruence.
Qed.

Lemma child_run line c fd p e o fks n : fds !! fd = Some (Some o) ->
  (forall k, (k < fd)%nat -> exists o', fds !! k = Some (Some o')) ->
  p <> fd -> nth p piped None = Some e ->
  (u_close (Z.of_nat fd) ;! u_dup (Z.of_nat p) ;! u_close (Z.of_nat i) ;! u_close (Z.of_nat j) ;! runcmd line c)
    (Pst piped fks n) = runcmd line c (Pst (<[fd := Some e]> fds) fks n).
Proof.
  intros Ho Hlt Hne He. rewrite run_close. unfold fd_close. cbn [ps_fds ps_forks ps_pipes]. rewrite Nat2Z.id.
  rewrite (run_dup _ e fd); [| |by eapply closed_lowest].
  2: { rewrite Nat2Z.id. cbn [ps_fds]. by rewrite nth_insert_ne. }
  rewrite !run_close. unfold fd_close. cbn [ps_fds ps_forks ps_pipes]. rewrite !Nat2Z.id. by erewrite rewired.
Qed.
End Wiring.

Lemma ubind_same {S A B} (m m' : U S A) (k : A -> U S B) s s' : m s = m' s' -> ubind m k s = ubind m' k s'.
Proof. unfold ubind. by intros ->. Qed.

(** C13: [runcmd] of a pipeline. The left child runs with its output, and nothing else,
    changed to the write end of a new pipe, the right child with its input changed to the
    read end; the parent ends with the descriptors it had; no copy of the pipe stays open
    elsewhere. No command returns to the code after its [runcmd]. *)
Theorem runcmd_pipeline line l r fds forks n i j f0 f1 :
  fds !! 0%nat = Some (Some f0) -> fds !! 1%nat = Some (Some f1) -> lowest_free fds i ->
  lowest_free (<[i := Some (OPipeR n)]> fds) j ->
  let run := fun forks => runcmd line (PIPE l r) (Pst fds forks n) in
  run (0 :: forks) = runcmd line l (Pst (<[1%nat := Some (OPipeW n)]> fds) forks (S n)) /\
  (forall p, 0 < p -> run (p :: 0 :: forks) = runcmd line r (Pst (<[0%nat := Some (OPipeR n)]> fds) forks (S n))) /\
  (forall p q, 0 < p -> 0 < q -> run (p :: q :: forks) = UExit (Pst fds forks (S n))) /\
  forall fks b s', run fks <> UDone b s'.
Proof.
  intros H0 H1 Hi Hj run. set (piped := <[j := Some (OPipeW n)]> (<[i := Some (OPipeR n)]> fds)).
  destruct (piped_ends fds i j (OPipeR n) (OPipeW n) Hi Hj) as [Ei Ej].
  destruct (piped_open fds i j _ (OPipeW n) Hi Hj 0%nat f0 H0) as (Hi0 & Hj0 & _).
  destruct (piped_open fds i j _ (OPipeW n) Hi Hj 1%nat f1 H1) as (Hi1 & Hj1 & _).
  assert (Hp : forall fks, run fks = ubind fork1 (fun pid => (if pid =? 0 then
        u_close 1 ;! u_dup (Z.of_nat j) ;! u_close (Z.of_nat i) ;! u_close (Z.of_nat j) ;! runcmd line l else uret tt) ;!
      do! pid := fork1 in
      (if pid =? 0 then u_close 0 ;! u_dup (Z.of_nat i) ;! u_close (Z.of_nat i) ;! u_close (Z.of_nat j) ;! runcmd line r
       else uret tt) ;!
      u_close (Z.of_nat i) ;! u_close (Z.of_nat j) ;! u_wait ;! u_wait ;! exit) (Pst piped fks (S n))).
  { intros fks. unfold run. cbn [runcmd]. rewrite (run_done (Some (Z.of_nat i, Z.of_nat j)) _ _ (Pst piped fks (S n))); [done|].
    cbn [u_pipe pst_sys ps_pipes]. rewrite (fd_alloc_lowest _ _ i) by done. cbn [ps_fds ps_forks ps_pipes].
    rewrite (fd_alloc_lowest _ _ j) by done. done. }
  split; [|split; [|split]].
  - rewrite Hp, run_fork1 by done. cbn [Z.eqb].
    erewrite ubind_same by (apply (child_run fds i j _ _ Hi Hj line l 1 j (OPipeW n) f1); try done;
      intros k Hk; replace k with 0%nat by lia; by exists f0).
    apply runcmd_bind.
  - intros p Hpos. rewrite Hp, run_fork1 by lia. destruct (Z.eqb_spec p 0); [lia|].
    rewrite (run_done tt _ _ (Pst piped (0 :: forks) (S n))) by done. rewrite run_fork1 by done. cbn [Z.eqb].
    erewrite ubind_same by (apply (child_run fds i j _ _ Hi Hj line r 0 i (OPipeR n) f0); try done; intros k Hk; lia).
    apply runcmd_bind.
  - intros p q Hpos Hqos. rewrite Hp, run_fork1 by lia. destruct (Z.eqb_spec p 0); [lia|].
    rewrite (run_done tt _ _ (Pst piped (q :: forks) (S n))) by done. rewrite run_fork1 by lia.
    destruct (Z.eqb_spec q 0); [lia|]. rewrite (run_done tt _ _ (Pst piped forks (S n))) by done.
    rewrite !run_close. unfold fd_close. cbn [ps_fds ps_forks ps_pipes]. rewrite !Nat2Z.id.
    unfold piped. by rewrite unpiped.
  - intros. apply runcmd_never.
Qed.

(** Three descriptors on the console; "a | b" with [a] and [b] at 0 and 4 of the line. *)
Lemma runcmd_pipeline_witness :
  let fds := replicate 3 (Some OCon) ++ replicate 13 None in
  let run := fun forks => runcmd [97; 0; 124; 32; 98; 0] (PIPE (EXEC [(0, 1)]) (EXEC [(4, 5)])) (Pst fds forks 7) in
  run [0] = UExec [97] [[97]] (Pst (<[1%nat := Some (OPipeW 7)]> fds) [] 8) /\
  run [5; 0] = UExec [98] [[98]] (Pst (<[0%nat := Some (OPipeR 7)]> fds) [] 8) /\
  run [5; 6] = UExit (Pst fds [] 8).
Proof.
  intros fds run.
  destruct (runcmd_pipeline [97; 0; 124; 32; 98; 0] (EXEC [(0, 1)]) (EXEC [(4, 5)]) fds [] 7 3 4 OCon OCon
    eq_refl eq_refl) as (HL & HR & HP & _).
  - split; [reflexivity|]. intros [|[|[|j]]] Hj; try lia; eexists; reflexivity.
  - split; [reflexivity|]. intros [|[|[|[|j]]]] Hj; try lia; eexists; reflexivity.
  - split; [|split].
    + etransitivity; [exact HL|reflexivity].
    + etransitivity; [apply (HR 5); lia|reflexivity].
    + apply (HP 5 6); lia.
Defined.
