(* ===== verification/Cabs.v ===== *)
(** * The cab simulation: A4/q3 (cab.c, rider.c, server.c)

    Riders, cabs and payment servers as a step relation: what a thread does under
    [checkCab] or [checkPayment] is one step, and so is each access outside of the locks.
    [None] is a failed [assert] or a null dereference. The sleeps only separate steps, and
    [pthread_cond_timedwait] may return at any time, signalled or not. *)
From S2P Require Import Prelude CString Printf.

(** [enum cabStates] *)
Inductive cabState := waitState | onRidePoolOne | onRidePoolFull | onRidePremier.
#[global] Instance cabState_eq_dec : EqDecision cabState.
Proof. solve_decision. Defined.
Record cab := Cab { c_state : cabState; c_rider1 : Z; c_rider2 : Z }.
Definition POOL_CAB : Z := 0.
Definition PREMIER_CAB : Z := 1.

(** Where a rider is: asleep before [bookCab], in its [timedwait], riding, in [endRide]
    before its lock, before the [sem_post] and before the lock of [makePayment], gone. *)
Inductive rider_pc := RBook | RWait | RRide (c : nat) | REnd (c : nat) | RPost | RPay | RGone.
(** Where a server is: at the [while], in [sem_wait], after it, before the lock, serving a
    rider, closed. *)
Inductive server_pc := SLoop | SSem | SCheck | SLock | SServe (r : nat) | SClosed.
#[global] Instance rider_pc_eq_dec : EqDecision rider_pc.
Proof. solve_decision. Defined.

Record city := City {
  taxis : list cab;
  totalCabsOpen : Z;
  isWaiting : list Z;
  serversOpen : Z;
  ridersPaying : list (option nat);
  ridersPayingCount : Z;
  ridersLeftToExit : Z;
  ct_riders : list rider_pc;
  ct_servers : list server_pc
}.
Definition set_cabs (t : list cab) (open : Z) (w : list Z) (rs : list rider_pc) (s : city) : city :=
  City t open w (serversOpen s) (ridersPaying s) (ridersPayingCount s) (ridersLeftToExit s) rs (ct_servers s).
Definition set_pay (sem : Z) (p : list (option nat)) (n left : Z) (rs : list rider_pc) (ss : list server_pc) (s : city) : city :=
  City (taxis s) (totalCabsOpen s) (isWaiting s) sem p n left rs ss.

(** ** cab.c *)

(** Not called: a cab that takes a rider itself. *)
Definition acceptRide (c : cab) (rideType : Z) : option cab :=
  if rideType =? POOL_CAB then
    if bool_decide (c_state c = onRidePoolFull) then None
    else Some (Cab (match c_state c with
                    | waitState => onRidePoolOne
                    | onRidePoolOne => onRidePoolFull
                    | _ => onRidePremier
                    end) (c_rider1 c) (c_rider2 c))
  else if bool_decide (c_state c = waitState) then Some (Cab onRidePremier (c_rider1 c) (c_rider2 c))
  else None.

Definition usefulCab (reqCab : Z) (currState : cabState) : option bool :=
  if reqCab =? -1 then Some false
  else if reqCab =? POOL_CAB then Some (bool_decide (currState = waitState) || bool_decide (currState = onRidePoolOne))
  else if reqCab =? PREMIER_CAB then Some (bool_decide (currState = waitState))
  else None.

(** The change of the cab in [endRide]. *)
Definition leave_cab (c : cab) (id : Z) : cab :=
  match c_state c with
  | onRidePremier | onRidePoolOne => Cab waitState (-1) (-1)
  | onRidePoolFull =>
    if c_rider1 c =? id then Cab onRidePoolOne (c_rider2 c) (-1) else Cab onRidePoolOne (c_rider1 c) (-1)
  | waitState => c
  end.
(** [while (j != rider->id && !usefulCab(...)) j = (j + 1) % ridersCount;]: the rider to
    signal, or [id]; [None] is the [assert(0)] of [usefulCab]. *)
Fixpoint find_waiting (k : nat) (w : list Z) (st : cabState) (id j n : Z) : option Z :=
  if j =? id then Some j
  else
  match usefulCab (znth w j) st, k with
  | None, _ => None
  | Some true, _ => Some j
  | Some false, O => None
  | Some false, S k' => find_waiting k' w st id ((j + 1) mod n) n
  end.
(** [endRide] before the lock: [assert(cab->state != waitState)]. *)
Definition endRide_enter (s : city) (i c : nat) : option city :=
  cb ← taxis s !! c;
  if bool_decide (c_state cb = waitState) then None
  else Some (set_cabs (taxis s) (totalCabsOpen s) (isWaiting s) (<[i := REnd c]> (ct_riders s)) s).
(** And under the lock. *)
Definition endRide (s : city) (i c : nat) : option city :=
  cb ← taxis s !! c;
  let cb' := leave_cab cb (Z.of_nat i) in
  let n := Z.of_nat (length (ct_riders s)) in
  j ← find_waiting (length (ct_riders s)) (isWaiting s) (c_state cb') (Z.of_nat i) ((Z.of_nat i + 1) mod n) n;
  Some (set_cabs (<[c := cb']> (taxis s)) (totalCabsOpen s + 1) (isWaiting s) (<[i := RPost]> (ct_riders s)) s).

(** ** rider.c *)
Fixpoint find_state (st : cabState) (l : list cab) (c : nat) : option nat :=
  match l with
  | [] => None
  | cb :: l => if bool_decide (c_state cb = st) then Some c else find_state st l (S c)
  end.
(** The cab found and what it becomes; [None] is [assert(0)]. *)
Definition findCab (t : list cab) (type id : Z) : option (nat * cab) :=
  let take c st r1 r2 :=
    match t !! c with
    | Some cb => Some (c, Cab st (default (c_rider1 cb) r1) (default (c_rider2 cb) r2))
    | None => None
    end in
  if type =? POOL_CAB then
    match find_state onRidePoolOne t 0 with
    | Some c => take c onRidePoolFull None (Some id)
    | None => match find_state waitState t 0 with
              | Some c => take c onRidePoolOne (Some id) None
              | None => None
              end
    end
  else
    match find_state waitState t 0 with
    | Some c => take c onRidePremier (Some id) None
    | None => None
    end.

Section City.
(** [rider->cabType], drawn when the rider starts. *)
Variable cabType : nat -> Z.

(** [bookCab] up to the wait or the ride. *)
Definition bookCab (s : city) (i : nat) : option city :=
  if 0 <? totalCabsOpen s then
    match findCab (taxis s) (cabType i) (Z.of_nat i) with
    | None => None
    | Some (c, cb) =>
      Some (set_cabs (<[c := cb]> (taxis s)) (totalCabsOpen s - 1) (isWaiting s)
        (<[i := RRide c]> (ct_riders s)) s)
    end
  else Some (set_cabs (taxis s) (totalCabsOpen s) (<[i := cabType i]> (isWaiting s))
    (<[i := RWait]> (ct_riders s)) s).
(** After [pthread_cond_timedwait]: it tries again, or leaves when it has timed out. *)
Definition wake (s : city) (i : nat) (timedout : bool) : city :=
  set_cabs (taxis s) (totalCabsOpen s) (<[i := -1]> (isWaiting s))
    (<[i := if timedout then RGone else RBook]> (ct_riders s)) s.
(** [makePayment]. *)
Definition pay_post (s : city) (i : nat) : city :=
  set_pay (serversOpen s + 1) (ridersPaying s) (ridersPayingCount s) (ridersLeftToExit s)
    (<[i := RPay]> (ct_riders s)) (ct_servers s) s.
Definition pay_lock (s : city) (i : nat) : city :=
  set_pay (serversOpen s) (<[Z.to_nat (ridersPayingCount s) := Some i]> (ridersPaying s))
    (ridersPayingCount s + 1) (ridersLeftToExit s) (<[i := RGone]> (ct_riders s)) (ct_servers s) s.

(** ** server.c *)
Definition server_goto (k : nat) (pc : server_pc) (s : city) : city :=
  set_pay (serversOpen s) (ridersPaying s) (ridersPayingCount s) (ridersLeftToExit s)
    (ct_riders s) (<[k := pc]> (ct_servers s)) s.
(** The critical section of [initServer]. *)
Definition server_take (s : city) (k : nat) : option city :=
  match ridersPaying s !! 0%nat with
  | Some (Some _) =>
    match ridersPaying s !! Z.to_nat (ridersPayingCount s - 1) with
    | Some (Some r) =>
      Some (set_pay (serversOpen s) (<[Z.to_nat (ridersPayingCount s - 1) := None]> (ridersPaying s))
        (ridersPayingCount s - 1) (ridersLeftToExit s) (ct_riders s) (<[k := SServe r]> (ct_servers s)) s)
    | _ => None
    end
  | _ => Some (server_goto k SClosed s)
  end.
(** [madePayment]. *)
Definition madePayment (s : city) (k : nat) : city :=
  set_pay (serversOpen s) (ridersPaying s) (ridersPayingCount s) (ridersLeftToExit s - 1)
    (ct_riders s) (<[k := SLoop]> (ct_servers s)) s.

Inductive city_step (s : city) : option city -> Prop :=
| st_book i : ct_riders s !! i = Some RBook -> city_step s (bookCab s i)
| st_wake i b : ct_riders s !! i = Some RWait -> city_step s (Some (wake s i b))
| st_enter i c : ct_riders s !! i = Some (RRide c) -> city_step s (endRide_enter s i c)
| st_end i c : ct_riders s !! i = Some (REnd c) -> city_step s (endRide s i c)
| st_post i : ct_riders s !! i = Some RPost -> city_step s (Some (pay_post s i))
| st_pay i : ct_riders s !! i = Some RPay -> city_step s (Some (pay_lock s i))
| st_while k : ct_servers s !! k = Some SLoop ->
    city_step s (Some (server_goto k (if ridersLeftToExit s =? 0 then SClosed else SSem) s))
| st_sem k : ct_servers s !! k = Some SSem -> 0 < serversOpen s ->
    city_step s (Some (set_pay (serversOpen s - 1) (ridersPaying s) (ridersPayingCount s) (ridersLeftToExit s)
      (ct_riders s) (<[k := SCheck]> (ct_servers s)) s))
| st_check k : ct_servers s !! k = Some SCheck ->
    city_step s (Some (server_goto k (if ridersLeftToExit s =? 0 then SClosed else SLock) s))
| st_lock k : ct_servers s !! k = Some SLock -> city_step s (server_take s k)
| st_serve k r : ct_servers s !! k = Some (SServe r) -> city_step s (Some (madePayment s k))
(* main.c: a [sem_post] after the riders have been joined *)
| st_main : (forall i pc, ct_riders s !! i = Some pc -> pc = RGone) ->
    city_step s (Some (set_pay (serversOpen s + 1) (ridersPaying s) (ridersPayingCount s) (ridersLeftToExit s)
      (ct_riders s) (ct_servers s) s)).

(** main.c: the threads have been created. *)
Definition city_start (cabs riders servers : nat) : city :=
  City (replicate cabs (Cab waitState (-1) (-1))) (Z.of_nat cabs) (replicate riders (-1)) 0
    (replicate riders None) 0 (Z.of_nat riders) (replicate riders RBook) (replicate servers SLoop).
Inductive city_reachable (cabs riders servers : nat) : city -> Prop :=
| city_reach_start : city_reachable cabs riders servers (city_start cabs riders servers)
| city_reach_step s s' : city_reachable cabs riders servers s -> city_step s (Some s') -> city_reachable cabs riders servers s'.
End City.

(** ** Messages: main.c *)

Definition KNRM : list Z := 27 :: codes "[0m".
Definition KGREEN : list Z := 27 :: codes "[32m".
Definition KMAGENTA : list Z := 27 :: codes "[35m".
Definition KBLUE : list Z := 27 :: codes "[34m".
Definition CAB_TYPE : Z := 0.
Definition RIDER_TYPE : Z := 1.
Definition SERVER_TYPE : Z := 2.
(** [b2]: the number and the tabs. *)
Definition number_text (type id : Z) : list Z :=
  32 :: printint (id + 1) 10 1 ++ (if type =? SERVER_TYPE then [9] else [9; 9]) ++ KNRM.
(** [stamp]: the time. [None]: [sprintf] writes past the ten bytes of [b2]. *)
Definition getHeader (stamp : list Z) (type id : Z) : option (list Z) :=
  let buf := stamp ++ [9] ++
    (if type =? CAB_TYPE then KGREEN ++ codes "Cab"
     else if type =? RIDER_TYPE then KMAGENTA ++ codes "Rider"
     else if type =? SERVER_TYPE then KBLUE ++ codes "Server" else []) in
  let b2 := number_text type id in
  if 10 <? zlen b2 + 1 then None else Some (buf ++ b2).
(** [text]: what [vsprintf] makes of the format. [None]: past the end of a buffer. *)
Definition printMsg (stamp : list Z) (type id : Z) (text : list Z) : option (list Z) :=
  if 1000 <? zlen text + 1 then None
  else
  header ← getHeader stamp type id;
  if 1000 <? zlen (header ++ text) + 1 then None else Some (header ++ text).
