(* ===== verification/CabsSpec.v ===== *)
(** * The cab simulation is safe

    No assertion of A4/q3 can fail: a cab carries exactly the riders that ride it, and a
    count [totalCabsOpen] above zero means that some cab waits. *)
From S2P Require Import Prelude CString Printf Cabs.

(** The riders a cab's fields name. *)
Definition riders_of (cb : cab) : list Z :=
  match c_state cb with
  | waitState => []
  | onRidePoolFull => [c_rider1 cb; c_rider2 cb]
  | _ => [c_rider1 cb]
  end.
(** The cab a rider's thread is in. *)
Definition aboard (p : rider_pc) : option nat := match p with RRide c | REnd c => Some c | _ => None end.
Definition cab_of (rs : list rider_pc) (i : nat) : option nat := rs !! i ≫= aboard.
Definition riding (rs : list rider_pc) : list rider_pc := filter (fun p => aboard p <> None) rs.
(** A cab with index [c] carries the riders whose threads are in its ride. *)
Record coherent (rs : list rider_pc) (c : nat) (cb : cab) : Prop := {
  co_nodup : NoDup (riders_of cb);
  co_riders i : cab_of rs i = Some c <-> Z.of_nat i ∈ riders_of cb;
  co_pos : Forall (fun r => 0 <= r) (riders_of cb);
  co_slot2 : c_state cb <> onRidePoolFull -> c_rider2 cb = -1
}.
(** One for each cab, less one for each rider. *)
Fixpoint seat_count (l : list cab) : Z :=
  match l with [] => 0 | cb :: l => 1 - zlen (riders_of cb) + seat_count l end.

Lemma cab_insert rs i j p p' : rs !! i = Some p ->
  cab_of (<[i := p']> rs) j = if decide (j = i) then aboard p' else cab_of rs j.
Proof.
  intros Hi. unfold cab_of. destruct (decide (j = i)) as [->|Hne].
  - by rewrite list_lookup_insert_eq by (by eapply lookup_lt_Some).
  - by rewrite list_lookup_insert_ne.
Qed.
Lemma cab_at rs i p : rs !! i = Some p -> cab_of rs i = aboard p.
Proof. unfold cab_of. by intros ->. Qed.
Lemma riding_insert rs : forall i p p', rs !! i = Some p ->
  zlen (riding (<[i := p']> rs)) + (if decide (aboard p = None) then 0 else 1) = zlen (riding rs) + (if decide (aboard p' = None) then 0 else 1).
Proof.
  unfold riding, zlen. induction rs as [|x rs IH]; intros [|i] p p' Hi; try done.
  - injection Hi as ->. cbn [insert list_insert]. rewrite !filter_cons.
    repeat case_decide; try done; cbn [length]; lia.
  - change (<[S i:=p']> (x :: rs)) with (x :: <[i:=p']> rs). rewrite !filter_cons.
    specialize (IH i p p' Hi). destruct (decide (aboard x <> None)); cbn [length]; lia.
Qed.
Lemma coh_other rs c cb i p p' : coherent rs c cb -> rs !! i = Some p -> (aboard p = Some c <-> aboard p' = Some c) ->
  coherent (<[i := p']> rs) c cb.
Proof.
  intros [N R P S2] Hi Hp. split; [done| |done|done]. intros j. rewrite <-R, (cab_insert _ _ _ _ _ Hi).
  destruct (decide (j = i)) as [->|]; [|done]. by rewrite (cab_at _ _ _ Hi).
Qed.
Lemma coh_add rs c cb cb' i p p' : coherent rs c cb -> rs !! i = Some p -> aboard p <> Some c -> aboard p' = Some c ->
  riders_of cb' ≡ₚ Z.of_nat i :: riders_of cb -> (c_state cb' <> onRidePoolFull -> c_rider2 cb' = -1) ->
  coherent (<[i := p']> rs) c cb'.
Proof.
  intros [N R P S2] Hi Hp Hp' HP HS. split; [| | |done].
  - rewrite HP. constructor; [|done]. by rewrite <-R, (cab_at _ _ _ Hi).
  - intros j. rewrite HP, elem_of_cons, <-R, (cab_insert _ _ _ _ _ Hi). destruct (decide (j = i)) as [->|Hne].
    + split; [by left|done].
    + split; [by right|]. intros [Hj|]; [lia|done].
  - rewrite HP. constructor; [lia|done].
Qed.
Lemma coh_remove rs c cb cb' i p p' : coherent rs c cb -> rs !! i = Some p -> aboard p = Some c -> aboard p' <> Some c ->
  riders_of cb ≡ₚ Z.of_nat i :: riders_of cb' -> (c_state cb' <> onRidePoolFull -> c_rider2 cb' = -1) ->
  coherent (<[i := p']> rs) c cb'.
Proof.
  intros [N R P S2] Hi Hp Hp' HP HS. rewrite HP in N, P. apply NoDup_cons in N as [Ni N]. apply Forall_cons in P as [_ P].
  split; [done| |done|done]. intros j. rewrite (cab_insert _ _ _ _ _ Hi). destruct (decide (j = i)) as [->|Hne].
  - split; [done|]. done.
  - rewrite R, HP, elem_of_cons. split; [|by right]. intros [Hj|]; [lia|done].
Qed.
Lemma open_insert l : forall c cb cb', l !! c = Some cb ->
  seat_count (<[c := cb']> l) = seat_count l + zlen (riders_of cb) - zlen (riders_of cb').
Proof.
  induction l as [|x l IH]; intros [|c] cb cb' Hc; try done.
  - injection Hc as ->. cbn. lia.
  - change (<[S c:=cb']> (x :: l)) with (x :: <[c:=cb']> l). cbn [seat_count]. rewrite (IH c cb cb') by done. lia.
Qed.
Lemma find_state_Some st l : forall c0 c, find_state st l c0 = Some c ->
  exists cb, (c0 <= c)%nat /\ l !! (c - c0)%nat = Some cb /\ c_state cb = st.
Proof.
  induction l as [|x l IH]; intros c0 c; cbn [find_state]; [done|]. case_bool_decide as E.
  - intros [= <-]. exists x. split; [done|]. by rewrite Nat.sub_diag.
  - intros H. destruct (IH _ _ H) as (cb & Hc & Hl & Hs). exists cb. split; [lia|].
    replace (c - c0)%nat with (S (c - S c0)) by lia. done.
Qed.
(** With an open seat there is a free cab. *)
Lemma find_wait l : forall c0, 0 < seat_count l -> find_state waitState l c0 <> None.
Proof.
  induction l as [|x l IH]; intros c0; cbn [seat_count find_state]; [lia|]. case_bool_decide as E; [done|].
  intros Ho. apply IH. assert (1 <= zlen (riders_of x)); [|lia].
  unfold riders_of, zlen. destruct (c_state x); simpl; first [done|lia].
Qed.

(** ** The search for a rider to signal ends *)
Lemma usefulCab_ok w st : w = -1 \/ w = 0 \/ w = 1 -> usefulCab w st <> None.
Proof. intros [->|[->| ->]]; done. Qed.
Lemma find_waiting_ok k w st id n : Forall (fun x => x = -1 \/ x = 0 \/ x = 1) w -> 0 <= id < n ->
  forall j, 0 <= j < n -> (id - j) mod n <= Z.of_nat k -> find_waiting k w st id j n <> None.
Proof.
  intros Hw Hid. induction k as [|k IH]; intros j Hj Hk; cbn [find_waiting].
  - destruct (Z.eqb_spec j id); [done|]. exfalso.
    destruct (decide (j <= id)); [rewrite Z.mod_small in Hk by lia; lia|].
    replace (id - j) with (id - j + n + -1 * n) in Hk by lia. rewrite Z.mod_add, Z.mod_small in Hk by lia. lia.
  - destruct (Z.eqb_spec j id) as [|Hne]; [done|].
    assert (Hu : usefulCab (znth w j) st <> None).
    { apply usefulCab_ok. unfold znth. destruct (Z.ltb_spec j 0); [lia|].
      destruct (decide (Z.to_nat j < length w)%nat) as [Hl|Hl].
      - rewrite Forall_lookup in Hw. destruct (lookup_lt_is_Some_2 _ _ Hl) as [x Hx]. rewrite (nth_lookup_Some _ _ _ _ Hx). eauto.
      - rewrite nth_overflow by lia. auto. }
    destruct (usefulCab _ _) as [[]|]; [done| |done]. apply IH; [apply Z.mod_pos_bound; lia|].
    rewrite Zminus_mod_idemp_r. replace (id - (j + 1)) with (id - j - 1) by lia.
    assert (0 < (id - j) mod n).
    { destruct (decide (j <= id)); [rewrite Z.mod_small by lia; lia|].
      replace (id - j) with (id - j + n + -1 * n) by lia. rewrite Z.mod_add, Z.mod_small by lia. lia. }
    rewrite <-Zminus_mod_idemp_l, Z.mod_small; [lia|]. pose proof (Z.mod_pos_bound (id - j) n ltac:(lia)). lia.
Qed.

(** ** The invariant *)
Ltac ccbn := cbn [taxis totalCabsOpen isWaiting serversOpen ridersPaying ridersPayingCount ridersLeftToExit
  ct_riders ct_servers set_cabs set_pay].
Section Inv.
Variable cabType : nat -> Z.
(** [rand() % 2] *)
Hypothesis type_ok : forall i, cabType i = POOL_CAB \/ cabType i = PREMIER_CAB.

Definition leaving (rs : list rider_pc) : list rider_pc := filter (fun p => p <> RGone) rs.
Record city_inv (s : city) : Prop := {
  ci_open : totalCabsOpen s = seat_count (taxis s);
  ci_coh c cb : taxis s !! c = Some cb -> coherent (ct_riders s) c cb;
  ci_count : totalCabsOpen s = zlen (taxis s) - zlen (riding (ct_riders s));
  ci_cab i c : cab_of (ct_riders s) i = Some c -> (c < length (taxis s))%nat;
  ci_wait : Forall (fun x => x = -1 \/ x = 0 \/ x = 1) (isWaiting s);
  ci_pay : exists l, ridersPaying s = (Some <$> l) ++ replicate (length (ridersPaying s) - length l) None /\
    ridersPayingCount s = zlen l /\ (length l + length (leaving (ct_riders s)) <= length (ridersPaying s))%nat
}.

Lemma leaving_insert rs : forall i p p', rs !! i = Some p ->
  (length (leaving (<[i := p']> rs)) + (if decide (p = RGone) then 0 else 1) =
   length (leaving rs) + (if decide (p' = RGone) then 0 else 1))%nat.
Proof.
  unfold leaving. induction rs as [|x rs IH]; intros [|i] p p' Hi; try done.
  - injection Hi as ->. cbn [insert list_insert]. rewrite !filter_cons.
    destruct (decide (p = RGone)), (decide (p' = RGone)), (decide (p <> RGone)), (decide (p' <> RGone)); try done;
      simpl; lia.
  - change (<[S i:=p']> (x :: rs)) with (x :: <[i:=p']> rs). rewrite !filter_cons.
    specialize (IH i p p' Hi). destruct (decide (x <> RGone)); cbn [length]; lia.
Qed.
Lemma leaving_le rs i p p' : rs !! i = Some p -> p <> RGone ->
  (length (leaving (<[i := p']> rs)) <= length (leaving rs))%nat.
Proof. intros Hi Hp. pose proof (leaving_insert rs i p p' Hi). repeat case_decide; try done; lia. Qed.

(** What [findCab] returns when a seat is open. *)
Lemma findCab_ok s i : city_inv s -> 0 < totalCabsOpen s ->
  exists c cb cb', findCab (taxis s) (cabType i) (Z.of_nat i) = Some (c, cb') /\ taxis s !! c = Some cb /\
    riders_of cb' ≡ₚ Z.of_nat i :: riders_of cb /\ (c_state cb' <> onRidePoolFull -> c_rider2 cb' = -1).
Proof.
  intros [Ho Hc _ _ _ _] Hpos. rewrite Ho in Hpos. pose proof (find_wait (taxis s) 0 Hpos) as Hw.
  destruct (find_state waitState (taxis s) 0) as [c|] eqn:Ew; [|done].
  destruct (find_state_Some _ _ _ _ Ew) as (cb & _ & Hl & Hst). rewrite Nat.sub_0_r in Hl.
  pose proof (co_slot2 _ _ _ (Hc _ _ Hl)) as Hs2. rewrite Hst in Hs2.
  unfold findCab. destruct (type_ok i) as [-> | ->]; cbn [Z.eqb POOL_CAB PREMIER_CAB]; cbv zeta.
  - destruct (find_state onRidePoolOne (taxis s) 0) as [c1|] eqn:E1.
    + apply find_state_Some in E1 as (cb1 & _ & Hl1 & Hst1). rewrite Nat.sub_0_r in Hl1. rewrite Hl1.
      eexists c1, cb1, _. split; [done|]. split; [done|]. unfold riders_of. rewrite Hst1. simpl.
      split; [apply Permutation_swap|done].
    + rewrite Ew, Hl. eexists c, cb, _. split; [done|]. split; [done|]. unfold riders_of. rewrite Hst. simpl.
      split; [done|]. intros _. by apply Hs2.
  - rewrite Ew, Hl. eexists c, cb, _. split; [done|]. split; [done|]. unfold riders_of. rewrite Hst. simpl.
    split; [done|]. intros _. by apply Hs2.
Qed.
(** What a cab is after one of its riders left. *)
Lemma leave_ok rs i c cb : coherent rs c cb -> cab_of rs i = Some c ->
  c_state cb <> waitState /\ riders_of cb ≡ₚ Z.of_nat i :: riders_of (leave_cab cb (Z.of_nat i)) /\
  c_rider2 (leave_cab cb (Z.of_nat i)) = -1.
Proof.
  intros [N R P S2] Hi. rewrite R in Hi. unfold riders_of in *. unfold leave_cab.
  destruct (c_state cb) eqn:Es; simpl in *.
  - by apply elem_of_nil in Hi.
  - apply list_elem_of_singleton in Hi as <-. done.
  - split; [done|]. destruct (Z.eqb_spec (c_rider1 cb) (Z.of_nat i)) as [E|E]; simpl.
    + by rewrite E.
    + apply elem_of_cons in Hi as [?|Hi]; [congruence|]. apply list_elem_of_singleton in Hi as ->.
      split; [apply Permutation_swap|done].
  - apply list_elem_of_singleton in Hi as <-. done.
Qed.

(** Changes that move no rider into or out of a cab. *)
Lemma inv_riders s i p p' w : city_inv s -> ct_riders s !! i = Some p -> p <> RGone ->
  aboard p = aboard p' -> Forall (fun x => x = -1 \/ x = 0 \/ x = 1) w ->
  city_inv (set_cabs (taxis s) (totalCabsOpen s) w (<[i := p']> (ct_riders s)) s).
Proof.
  intros [Ho Hc Hn Hb Hw (l & E & N & L)] Hi Hg Hp Hw'. split; ccbn; try done.
  - intros c cb Hl. eapply coh_other; [by apply Hc|done|by rewrite Hp].
  - rewrite Hn. pose proof (riding_insert _ i p p' Hi) as Hr. rewrite Hp in Hr. lia.
  - intros j c. rewrite (cab_insert _ _ _ _ _ Hi). case_decide as E'; [|apply Hb].
    intros Ha. apply (Hb i). by rewrite (cab_at _ _ _ Hi), Hp.
  - exists l. split; [done|]. split; [done|]. pose proof (leaving_le _ i p p' Hi Hg). lia.
Qed.
Lemma wait_insert w i x : Forall (fun x => x = -1 \/ x = 0 \/ x = 1) w -> x = -1 \/ x = 0 \/ x = 1 ->
  Forall (fun x => x = -1 \/ x = 0 \/ x = 1) (<[i := x]> w).
Proof. intros Hw Hx. by apply Forall_insert. Qed.

Lemma book_ok s i : city_inv s -> ct_riders s !! i = Some RBook ->
  exists s', bookCab cabType s i = Some s' /\ city_inv s'.
Proof.
  intros Hi Hr. unfold bookCab. destruct (Z.ltb_spec 0 (totalCabsOpen s)) as [Hpos|_].
  - destruct (findCab_ok s i Hi Hpos) as (c & cb & cb' & -> & Hl & HP & H2). eexists. split; [done|].
    destruct Hi as [Ho Hc Hn Hb Hw (l & E & N & L)]. pose proof (lookup_lt_Some _ _ _ Hl) as Hlt. split; ccbn; try done.
    + rewrite (open_insert _ _ _ _ Hl), Ho. unfold zlen. rewrite HP. simpl. lia.
    + intros c' x [(-> & -> & _)|[Hne Hx]]%list_lookup_insert_Some; [eapply (coh_add _ _ cb); [by apply Hc|exact Hr|done|done|exact HP|exact H2]|].
      eapply coh_other; [by apply Hc|exact Hr|]. simpl. split; congruence.
    + pose proof (riding_insert _ i _ (RRide c) Hr) as Hri. unfold zlen in *. rewrite length_insert. simpl in Hri. lia.
    + intros j c'. rewrite length_insert, (cab_insert _ _ _ _ _ Hr). case_decide; [by intros [= <-]|apply Hb].
    + exists l. split; [done|]. split; [done|]. pose proof (leaving_le _ i _ (RRide c) Hr ltac:(done)). lia.
  - eexists. split; [done|]. eapply inv_riders; try done. apply wait_insert; [apply Hi|].
    destruct (type_ok i) as [-> | ->]; auto.
Qed.
Lemma cab_there s i p c : city_inv s -> ct_riders s !! i = Some p -> aboard p = Some c ->
  cab_of (ct_riders s) i = Some c /\ exists cb, taxis s !! c = Some cb.
Proof.
  intros Hi Hr Ha. rewrite (cab_at _ _ _ Hr). split; [done|]. apply lookup_lt_is_Some_2, (ci_cab _ Hi i). by rewrite (cab_at _ _ _ Hr).
Qed.
Lemma enter_ok s i c : city_inv s -> ct_riders s !! i = Some (RRide c) ->
  exists s', endRide_enter s i c = Some s' /\ city_inv s'.
Proof.
  intros Hi Hr. destruct (cab_there s i _ c Hi Hr eq_refl) as (Hcab & cb & Hl).
  destruct (leave_ok _ _ _ _ (ci_coh _ Hi _ _ Hl) Hcab) as (Hst & _).
  unfold endRide_enter. rewrite Hl. simpl. rewrite bool_decide_eq_false_2 by done. eexists. split; [done|].
  by apply (inv_riders s i (RRide c)); try apply Hi.
Qed.
Lemma end_ok s i c : city_inv s -> ct_riders s !! i = Some (REnd c) ->
  exists s', endRide s i c = Some s' /\ city_inv s'.
Proof.
  intros Hi Hr. destruct (cab_there s i _ c Hi Hr eq_refl) as (Hcab & cb & Hl). pose proof Hi as [Ho Hc Hn Hb Hw (l & E & N & L)].
  destruct (leave_ok _ _ _ _ (Hc _ _ Hl) Hcab) as (Hst & HP & H2).
  unfold endRide. rewrite Hl. cbn [mbind option_bind]. cbv zeta.
  set (cb' := leave_cab cb (Z.of_nat i)) in *. pose proof (lookup_lt_Some _ _ _ Hr) as Hlen.
  set (n := Z.of_nat (length (ct_riders s))).
  assert (Hf : find_waiting (length (ct_riders s)) (isWaiting s) (c_state cb') (Z.of_nat i) ((Z.of_nat i + 1) mod n) n <> None).
  { apply find_waiting_ok; [done|lia|apply Z.mod_pos_bound; lia|].
    pose proof (Z.mod_pos_bound (Z.of_nat i - (Z.of_nat i + 1) mod n) n ltac:(lia)). lia. }
  destruct (find_waiting _ _ _ _ _ _) as [j|]; [|done]. eexists. split; [done|]. split; ccbn; try done.
  - rewrite (open_insert _ _ _ _ Hl), Ho. unfold zlen. rewrite HP. simpl. lia.
  - intros c' x [(-> & -> & _)|[Hne Hx]]%list_lookup_insert_Some; [eapply (coh_remove _ _ cb); [by apply Hc|exact Hr|done|done|exact HP|by intros _]|].
    eapply coh_other; [by apply Hc|exact Hr|]. simpl. split; congruence.
  - pose proof (riding_insert _ i _ RPost Hr) as Hri. unfold zlen in *. rewrite length_insert. simpl in Hri. lia.
  - intros k c'. rewrite length_insert, (cab_insert _ _ _ _ _ Hr). case_decide; [done|apply Hb].
  - exists l. split; [done|]. split; [done|]. pose proof (leaving_le _ i _ RPost Hr ltac:(done)). lia.
Qed.

(** Changes of the payment stack and of the servers. *)
Lemma inv_pay s sem p n left rs ss : city_inv s -> (forall i, cab_of rs i = cab_of (ct_riders s) i) ->
  zlen (riding rs) = zlen (riding (ct_riders s)) ->
  (exists l, p = (Some <$> l) ++ replicate (length p - length l) None /\ n = zlen l /\
    (length l + length (leaving rs) <= length p)%nat) ->
  city_inv (set_pay sem p n left rs ss s).
Proof.
  intros [Ho Hc Hn Hb Hw Hp] Hr Hz Hp'. split; ccbn; try done; [|by rewrite Hz|].
  - intros c cb Hl. destruct (Hc c cb Hl) as [N R P S2]. split; [done| |done|done]. intros i. by rewrite Hr.
  - intros i c. rewrite Hr. apply Hb.
Qed.
(** A rider that stays out of the cabs. *)
Lemma same_cabs s i p p' : ct_riders s !! i = Some p -> aboard p = None -> aboard p' = None ->
  (forall j, cab_of (<[i := p']> (ct_riders s)) j = cab_of (ct_riders s) j) /\
  zlen (riding (<[i := p']> (ct_riders s))) = zlen (riding (ct_riders s)).
Proof.
  intros Hi Hp Hp'. split.
  - intros j. rewrite (cab_insert _ _ _ _ _ Hi). case_decide as E; [|done]. by rewrite E, (cab_at _ _ _ Hi), Hp, Hp'.
  - pose proof (riding_insert _ i p p' Hi) as H. rewrite Hp, Hp' in H. simpl in H. lia.
Qed.
Lemma inv_server s k pc : city_inv s -> city_inv (server_goto k pc s).
Proof. intros Hi. apply inv_pay; try done; by destruct Hi. Qed.
Lemma push_paying (l : list nat) i m : (0 < m)%nat ->
  <[length l := Some i]> ((Some <$> l) ++ replicate m None) = (Some <$> l ++ [i]) ++ replicate (m - 1) None.
Proof.
  intros Hm. destruct m as [|m]; [lia|]. rewrite <-(length_fmap Some l), <-(Nat.add_0_r (length _)), insert_app_r.
  cbn [replicate insert list_insert]. rewrite fmap_app, <-(assoc_L (++)). do 2 f_equal. simpl. by rewrite Nat.sub_0_r.
Qed.
Lemma pay_ok s i : city_inv s -> ct_riders s !! i = Some RPay -> city_inv (pay_lock s i).
Proof.
  intros Hi Hr. pose proof Hi as [_ _ _ _ _ (l & E & N & L)].
  pose proof (leaving_insert _ i _ RGone Hr) as Hl. rewrite decide_False, decide_True in Hl by done.
  destruct (same_cabs s i _ RGone Hr eq_refl eq_refl) as [H1 H2]. apply inv_pay; [done|exact H1|exact H2|].
  - exists (l ++ [i]). rewrite length_insert, length_app, N. unfold zlen. rewrite Nat2Z.id.
    split; [|split; [rewrite length_app; simpl; lia|simpl; lia]].
    rewrite E at 1. rewrite push_paying by lia. f_equal. f_equal. simpl. lia.
Qed.
Lemma take_ok s k : city_inv s -> exists s', server_take s k = Some s' /\ city_inv s'.
Proof.
  intros Hi. pose proof Hi as [_ _ _ _ _ (l & E & N & L)]. unfold server_take.
  destruct (ridersPaying s !! 0%nat) as [[r0|]|] eqn:E0; [|eexists; split; [done|by apply inv_server]..].
  destruct l as [|r l' _] using rev_ind.
  { rewrite E in E0. cbn in E0. apply lookup_replicate_1 in E0 as [? _]. done. }
  rewrite N. unfold zlen. rewrite length_app in *. cbn [length] in *.
  replace (Z.to_nat (Z.of_nat (length l' + 1) - 1)) with (length l') by lia.
  set (m := (length (ridersPaying s) - (length l' + 1))%nat) in *.
  assert (Er : ridersPaying s = (Some <$> l') ++ Some r :: replicate m None).
  { rewrite E, fmap_app, <-(assoc_L (++)). done. }
  assert (El : ridersPaying s !! length l' = Some (Some r)).
  { rewrite Er, lookup_app_r by (rewrite length_fmap; lia). by rewrite length_fmap, Nat.sub_diag. }
  rewrite El. eexists. split; [done|]. apply inv_pay; [done|done|done|].
  exists l'. rewrite length_insert. split; [|split; [unfold zlen; lia|lia]].
  rewrite Er at 1. rewrite <-(length_fmap Some l') at 1. rewrite <-(Nat.add_0_r (length _)), insert_app_r.
  cbn [insert list_insert]. f_equal. replace (length (ridersPaying s) - length l')%nat with (S m) by lia. done.
Qed.
Lemma city_step_ok s o : city_inv s -> city_step cabType s o -> exists s', o = Some s' /\ city_inv s'.
Proof.
  intros Hi Hs. destruct Hs as [i Hr|i b Hr|i c Hr|i c Hr|i Hr|i Hr|k Hk|k Hk Hsem|k Hk|k Hk|k r Hk|Hall].
  - by apply book_ok.
  - eexists. split; [done|]. apply (inv_riders s i RWait); try done; [by destruct b|]. apply wait_insert; [apply Hi|auto].
  - by apply enter_ok.
  - by apply end_ok.
  - eexists. split; [done|]. pose proof Hi as [_ _ _ _ _ (l & E & N & L)].
    destruct (same_cabs s i _ RPay Hr eq_refl eq_refl) as [H1 H2]. apply inv_pay; [done|exact H1|exact H2|].
    exists l. split; [done|]. split; [done|]. pose proof (leaving_le _ i _ RPay Hr ltac:(done)). lia.
  - eexists. split; [done|]. by apply pay_ok.
  - eexists. split; [done|]. by apply inv_server.
  - eexists. split; [done|]. apply inv_pay; try done; by destruct Hi.
  - eexists. split; [done|]. by apply inv_server.
  - by apply take_ok.
  - eexists. split; [done|]. apply inv_pay; try done; by destruct Hi.
  - eexists. split; [done|]. apply inv_pay; try done; by destruct Hi.
Qed.
Lemma start_inv cabs riders servers : city_inv (city_start cabs riders servers).
Proof.
  assert (Hcab : forall i, cab_of (replicate riders RBook) i = None).
  { intros i. unfold cab_of. destruct (replicate riders RBook !! i) as [p|] eqn:E; [|done].
    by apply lookup_replicate_1 in E as [-> _]. }
  split; cbn [city_start taxis totalCabsOpen isWaiting ridersPaying ridersPayingCount ct_riders].
  - induction cabs as [|n IH]; [done|]. cbn [replicate seat_count]. rewrite <-IH. unfold zlen, riders_of. simpl. lia.
  - intros c cb [-> _]%lookup_replicate_1. split; [constructor| |constructor|done].
    intros i. rewrite Hcab. cbn. by rewrite elem_of_nil.
  - unfold zlen. rewrite length_replicate. replace (riding (replicate riders RBook)) with (@nil rider_pc); [simpl; lia|].
    unfold riding. induction riders as [|n IH]; [done|]. simpl. rewrite filter_cons, decide_False by (by intros []). apply IH.
    intros i. unfold cab_of. destruct (replicate n RBook !! i) as [p|] eqn:E; [|done]. by apply lookup_replicate_1 in E as [-> _].
  - intros i c. by rewrite Hcab.
  - apply Forall_replicate. auto.
  - exists []. rewrite !length_replicate, Nat.sub_0_r. split; [done|]. split; [done|]. simpl.
    unfold leaving. rewrite length_filter, length_replicate. done.
Qed.
Lemma city_reachable_inv cabs riders servers s : city_reachable cabType cabs riders servers s -> city_inv s.
Proof.
  induction 1 as [|s s' _ IH Hs]; [apply start_inv|]. destruct (city_step_ok _ _ IH Hs) as (s1 & [= <-] & Hi). done.
Qed.

(** C14: however the threads interleave and whichever waits time out, no assertion of the
    simulation fails and no null pointer is used; a cab names exactly the riders whose
    threads ride it (so at most two, two only in a full pool cab); [totalCabsOpen] is the
    number of cabs less the number of riders in one, and when it is above zero, as for
    every rider [bookCab] lets in, some cab waits. It is not a count of open seats: it may
    be zero with a seat free in a pool cab, or even a cab ([pool_seat_refused],
    [cab_refused]). *)
Theorem cabs_safe cabs riders servers s : city_reachable cabType cabs riders servers s ->
  ~ city_step cabType s None /\
  (forall c cb, taxis s !! c = Some cb -> NoDup (riders_of cb) /\
    forall i, cab_of (ct_riders s) i = Some c <-> Z.of_nat i ∈ riders_of cb) /\
  totalCabsOpen s = zlen (taxis s) - zlen (riding (ct_riders s)) /\
  (0 < totalCabsOpen s -> exists c cb, taxis s !! c = Some cb /\ c_state cb = waitState).
Proof.
  intros Hr. pose proof (city_reachable_inv _ _ _ _ Hr) as Hi. split; [|split; [|split; [apply Hi|]]].
  - intros Hs. by destruct (city_step_ok _ _ Hi Hs) as (s' & [=] & _).
  - intros c cb Hc. destruct (ci_coh _ Hi c cb Hc). done.
  - intros Ho. rewrite (ci_open _ Hi) in Ho. pose proof (find_wait _ 0 Ho) as Hf.
    destruct (find_state waitState (taxis s) 0) as [c|] eqn:E; [|done].
    destruct (find_state_Some _ _ _ _ E) as (cb & _ & Hl & Hs). rewrite Nat.sub_0_r in Hl. eauto.
Qed.
End Inv.

(** ** Two runs *)
Lemma city_reach_some t cabs riders servers s o s' : city_reachable t cabs riders servers s -> city_step t s o -> o = Some s' ->
  city_reachable t cabs riders servers s'.
Proof. intros Hr Hs ->. by eapply city_reach_step. Qed.
Definition pool (i : nat) : Z := POOL_CAB.
Definition one_riding : city :=
  City [Cab onRidePoolOne 0 (-1)] 0 [-1; -1] 0 [None; None] 0 2 [RRide 0; RBook] [SLoop].
Lemma one_riding_reach : city_reachable pool 1 2 1 one_riding.
Proof. eapply city_reach_some; [apply city_reach_start|by apply (st_book _ _ 0)|reflexivity]. Qed.

Lemma cabs_safe_witness : city_reachable pool 1 2 1 one_riding /\ ~ city_step pool one_riding None.
Proof.
  split; [apply one_riding_reach|].
  exact (proj1 (cabs_safe pool (fun _ => or_introl eq_refl) 1 2 1 one_riding one_riding_reach)).
Defined.

(** The seat counter counts riders, not cabs: with one cab, the second pool rider waits
    although the pool cab has a free seat. *)
Lemma pool_seat_refused : exists s, city_reachable pool 1 2 1 s /\ taxis s = [Cab onRidePoolOne 0 (-1)] /\
  ct_riders s = [RRide 0; RWait].
Proof.
  eexists. split; [|split].
  - eapply city_reach_some; [apply one_riding_reach|by apply (st_book _ _ 1)|reflexivity].
  - reflexivity.
  - reflexivity.
Qed.
(** Nor does it count free cabs: two pool riders share the first of two cabs, and the third
    rider waits although the second cab is empty. *)
Lemma cab_refused : exists s, city_reachable pool 2 3 1 s /\ taxis s = [Cab onRidePoolFull 0 1; Cab waitState (-1) (-1)] /\
  totalCabsOpen s = 0 /\ ct_riders s = [RRide 0; RRide 0; RWait].
Proof.
  pose proof (city_reach_start pool 2 3 1) as R.
  eapply city_reach_some in R; [|by eapply (st_book _ _ 0)|reflexivity].
  eapply city_reach_some in R; [|by eapply (st_book _ _ 1)|reflexivity].
  eapply city_reach_some in R; [|by eapply (st_book _ _ 2)|reflexivity].
  eexists. split; [exact R|]. split; [reflexivity|]. split; reflexivity.
Qed.
(** [makePayment] posts the semaphore before the rider is on the stack: a server that is
    quick enough finds the stack empty and closes, with a rider still to pay. *)
Lemma server_closes_early : exists s, city_reachable pool 1 1 1 s /\ ct_servers s = [SClosed] /\
  ct_riders s = [RPay] /\ ridersLeftToExit s = 1.
Proof.
  pose proof (city_reach_start pool 1 1 1) as R.
  eapply city_reach_some in R; [|by eapply (st_book _ _ 0)|reflexivity].
  eapply city_reach_some in R; [|by eapply (st_enter _ _ 0 0)|reflexivity].
  eapply city_reach_some in R; [|by eapply (st_end _ _ 0 0)|reflexivity].
  eapply city_reach_some in R; [|by eapply (st_post _ _ 0)|reflexivity].
  eapply city_reach_some in R; [|by eapply (st_while _ _ 0)|reflexivity].
  eapply city_reach_some in R; [|by eapply (st_sem _ _ 0)|reflexivity].
  eapply city_reach_some in R; [|by eapply (st_check _ _ 0)|reflexivity].
  eapply city_reach_some in R; [|by eapply (st_lock _ _ 0)|reflexivity].
  eexists. split; [exact R|]. split; [reflexivity|]. split; reflexivity.
Qed.

(** ** Messages *)

(** The head of a message fits its ten-byte buffer for every server and for all cabs and
    riders but the hundredth, whose number takes one byte too many. *)
Theorem cabs_headers stamp type id : 0 <= type <= 2 -> 0 <= id < 100 ->
  getHeader stamp type id = None <-> type <> SERVER_TYPE /\ id = 99.
Proof.
  intros Ht Hid.
  assert (Hb : Forall (fun ty => Forall (fun k => (10 <? zlen (number_text ty (Z.of_nat k)) + 1) = negb (ty =? SERVER_TYPE) && (Nat.eqb k 99)) (seq 0 100)) [0; 1; 2]).
  { repeat (apply Forall_cons; split); try apply Forall_nil_2; apply (bool_decide_unpack _); vm_compute; exact I. }
  assert (Hty : type ∈ [0; 1; 2]) by (rewrite !elem_of_cons; lia).
  rewrite Forall_forall in Hb. specialize (Hb type Hty). rewrite Forall_forall in Hb.
  specialize (Hb (Z.to_nat id)). rewrite Z2Nat.id in Hb by lia. unfold getHeader. cbv zeta. rewrite Hb by (apply elem_of_seq; lia).
  destruct (Z.eqb_spec type SERVER_TYPE), (Nat.eqb_spec (Z.to_nat id) 99); cbn [negb andb]; split; try done; try (intros [? ?]; lia || done); intros _; split; done || lia.
Qed.
