(* ===== verification/Biryani.v ===== *)
(** * The biryani simulation: A4/q2 (robot.c, table.c, student.c, main.c)

    Robots cook vessels, tables serve students. A section of code under a mutex is one
    hall_step; since one path leaves [tableMutexes] locked, each table has its lock in the state
    and a hall_step that takes it needs it free. [None] is an access past the end of
    [studentsEatingHere]. *)
From S2P Require Import Prelude CString Printf.

Record table := Table {
  tb_biryani : Z;
  tb_needVessel : Z;
  tb_ready : bool;
  tb_slots : Z;
  tb_eating : list Z;       (* studentsEatingHere[11] *)
  tb_locked : bool          (* tableMutexes[id] is held by a thread that has left *)
}.
Record robot := Robot { rb_vessels : Z; rb_size : Z }.

(** A table's thread: looking at robot [i], at the inner [while (!gameOver)], entering
    [ready_to_serve_table], waiting there for its slots to fill, gone. *)
Inductive table_pc := TScan (i : nat) | TLoop | TEnter | TFill | TLeft.
(** A robot's: cooking, after its vessels are set, waiting in [biryani_ready], gone. *)
Inductive robot_pc := RCook | RSet | REmpty | RLeft.
(** A student's: looking at table [i], seated. *)
Inductive student_pc := SLook (i : nat) | SSeated.
(** main: joining the students, then the loops over tables, robots and tables again. *)
Inductive main_pc := MJoin | MTables (i : nat) | MRobots (i : nat) | MTables2 (i : nat) | MEnd.

Record hall := Hall {
  hl_tables : list table;
  hl_robots : list robot;
  hl_gameOver : bool;
  hl_tpc : list table_pc;
  hl_rpc : list robot_pc;
  hl_spc : list student_pc;
  hl_main : main_pc
}.
Definition set_table (k : nat) (t : table) (pc : table_pc) (s : hall) : hall :=
  Hall (<[k := t]> (hl_tables s)) (hl_robots s) (hl_gameOver s) (<[k := pc]> (hl_tpc s)) (hl_rpc s) (hl_spc s) (hl_main s).
Definition set_robot (k : nat) (r : robot) (pc : robot_pc) (s : hall) : hall :=
  Hall (hl_tables s) (<[k := r]> (hl_robots s)) (hl_gameOver s) (hl_tpc s) (<[k := pc]> (hl_rpc s)) (hl_spc s) (hl_main s).
Definition set_main (ts : list table) (rs : list robot) (over : bool) (m : main_pc) (s : hall) : hall :=
  Hall ts rs over (hl_tpc s) (hl_rpc s) (hl_spc s) m.

(** ** table.c *)

(** The refill of table [t] from robot [r], under both mutexes. *)
Definition refill (t : table) (r : robot) : table * robot :=
  (Table (tb_biryani t + rb_size r) (tb_needVessel t) (tb_ready t) (tb_slots t) (tb_eating t) (tb_locked t),
   Robot (rb_vessels r - 1) (rb_size r)).
Definition min (x y : Z) : Z := if x <=? y then x else y.
(** [ready_to_serve_table] up to the first unlock, with [slots] drawn by
    [genRandomInRange(1, min(10, biryaniAmountRemaining))]. *)
Definition ready_to_serve_table (t : table) (slots : Z) : table :=
  Table (tb_biryani t) (tb_needVessel t) true slots (replicate 10 (-1) ++ drop 10 (tb_eating t)) false.
(** Its last section, once the slots are taken. *)
Definition serve (t : table) : table :=
  Table (tb_biryani t) (tb_needVessel t) false (tb_slots t) (replicate 10 (-1) ++ drop 10 (tb_eating t)) false.
(** [pthread_mutex_lock(...); if (gameOver) return;] *)
Definition leave_locked (t : table) : table :=
  Table (tb_biryani t) (tb_needVessel t) (tb_ready t) (tb_slots t) (tb_eating t) true.

(** ** student.c *)

(** [while (t->studentsEatingHere[j] != -1) j++;] *)
Fixpoint first_free (l : list Z) (j : nat) : option nat :=
  match l with
  | [] => None
  | x :: l => if x =? -1 then Some j else first_free l (S j)
  end.
Definition student_in_slot (id : Z) (t : table) : option table :=
  j ← first_free (tb_eating t) 0;
  Some (Table (tb_biryani t) (tb_needVessel t) (tb_ready t) (tb_slots t) (<[j := id]> (tb_eating t)) (tb_locked t)).
(** One look of [wait_for_slot] at a table: [None] when no slot is free. *)
Definition look (id : Z) (t : table) : option (option table) :=
  if tb_ready t && (0 <? tb_slots t) then
    Some (student_in_slot id (Table (tb_biryani t) (tb_needVessel t) (tb_ready t) (tb_slots t - 1) (tb_eating t) (tb_locked t)))
  else None.
Definition student_look (s : hall) (i k : nat) (t : table) : option hall :=
  match look (Z.of_nat i) t with
  | None =>
    let k' := if Nat.eqb (S k) (length (hl_tables s)) then O else S k in
    Some (Hall (hl_tables s) (hl_robots s) (hl_gameOver s) (hl_tpc s) (hl_rpc s) (<[i := SLook k']> (hl_spc s)) (hl_main s))
  | Some None => None
  | Some (Some t') =>
    Some (Hall (<[k := t']> (hl_tables s)) (hl_robots s) (hl_gameOver s) (hl_tpc s) (hl_rpc s)
      (<[i := SSeated]> (hl_spc s)) (hl_main s))
  end.

(** ** main.c: the reset of a table and of a robot *)
Definition reset_table (t : table) : table :=
  Table (tb_biryani t) (tb_needVessel t) (tb_ready t) (if 0 <? tb_slots t then 0 else tb_slots t) (tb_eating t) (tb_locked t).
Definition reset_robot (r : robot) : robot := Robot (if 0 <? rb_vessels r then 0 else rb_vessels r) (rb_size r).

Inductive hall_step (s : hall) : option hall -> Prop :=
(* a table *)
| st_over k i t : hl_tables s !! k = Some t -> hl_tpc s !! k = Some (TScan i) -> hl_gameOver s = true ->
    hall_step s (Some (set_table k t TLeft s))
| st_refill k i t r : hl_tables s !! k = Some t -> hl_tpc s !! k = Some (TScan i) -> hl_robots s !! i = Some r ->
    0 < rb_vessels r -> tb_locked t = false ->
    hall_step s (Some (Hall (<[k := (refill t r).1]> (hl_tables s)) (<[i := (refill t r).2]> (hl_robots s)) (hl_gameOver s)
      (<[k := TLoop]> (hl_tpc s)) (hl_rpc s) (hl_spc s) (hl_main s)))
| st_next k i t r : hl_tables s !! k = Some t -> hl_tpc s !! k = Some (TScan i) -> hl_robots s !! i = Some r ->
    rb_vessels r <= 0 ->
    hall_step s (Some (set_table k t (TScan (if Nat.eqb (S i) (length (hl_robots s)) then O else S i)) s))
| st_loop_over k t : hl_tables s !! k = Some t -> hl_tpc s !! k = Some TLoop -> hl_gameOver s = true ->
    hall_step s (Some (set_table k t TLeft s))
| st_loop k t : hl_tables s !! k = Some t -> hl_tpc s !! k = Some TLoop -> hl_gameOver s = false -> tb_locked t = false ->
    hall_step s (Some (set_table k t (if 0 <? tb_biryani t then TEnter else TLoop) s))
| st_enter_over k t : hl_tables s !! k = Some t -> hl_tpc s !! k = Some TEnter -> tb_locked t = false ->
    hl_gameOver s = true -> hall_step s (Some (set_table k (leave_locked t) TLoop s))
| st_enter k t slots : hl_tables s !! k = Some t -> hl_tpc s !! k = Some TEnter -> tb_locked t = false ->
    hl_gameOver s = false -> 1 <= slots <= min 10 (tb_biryani t) ->
    hall_step s (Some (set_table k (ready_to_serve_table t slots) TFill s))
| st_serve k t : hl_tables s !! k = Some t -> hl_tpc s !! k = Some TFill -> tb_locked t = false -> tb_slots t = 0 ->
    hall_step s (Some (set_table k (serve t) TLoop s))
(* a robot: [gameOver] is looked at after the cooking and after the vessels are set *)
| st_cook k r n c : hl_robots s !! k = Some r -> hl_rpc s !! k = Some RCook -> hl_gameOver s = false ->
    1 <= n <= 10 -> 25 <= c <= 50 -> hall_step s (Some (set_robot k (Robot n c) RSet s))
| st_cook_over k r pc : hl_robots s !! k = Some r -> hl_rpc s !! k = Some pc -> pc = RCook \/ pc = RSet ->
    hl_gameOver s = true -> hall_step s (Some (set_robot k r RLeft s))
| st_cooked k r : hl_robots s !! k = Some r -> hl_rpc s !! k = Some RSet -> hl_gameOver s = false ->
    hall_step s (Some (set_robot k r REmpty s))
| st_emptied k r : hl_robots s !! k = Some r -> hl_rpc s !! k = Some REmpty -> rb_vessels r = 0 ->
    hall_step s (Some (set_robot k r RLeft s))
(* a student *)
| st_look i k t : hl_spc s !! i = Some (SLook k) -> hl_tables s !! k = Some t -> tb_locked t = false ->
    hall_step s (student_look s i k t)
(* main *)
| st_join : hl_main s = MJoin -> (forall i pc, hl_spc s !! i = Some pc -> pc = SSeated) ->
    hall_step s (Some (set_main (hl_tables s) (hl_robots s) true (MTables 0) s))
| st_tables k t : hl_main s = MTables k -> hl_tables s !! k = Some t -> tb_locked t = false ->
    hall_step s (Some (set_main (<[k := reset_table t]> (hl_tables s)) (hl_robots s) (hl_gameOver s)
      (if Nat.eqb (S k) (length (hl_tables s)) then MRobots 0 else MTables (S k)) s))
| st_robots k r : hl_main s = MRobots k -> hl_robots s !! k = Some r ->
    hall_step s (Some (set_main (hl_tables s) (<[k := reset_robot r]> (hl_robots s)) (hl_gameOver s)
      (if Nat.eqb (S k) (length (hl_robots s)) then MTables2 0 else MRobots (S k)) s))
| st_tables2 k t : hl_main s = MTables2 k -> hl_tables s !! k = Some t -> tb_locked t = false ->
    hall_step s (Some (set_main (<[k := reset_table t]> (hl_tables s)) (hl_robots s) (hl_gameOver s)
      (if Nat.eqb (S k) (length (hl_tables s)) then MEnd else MTables2 (S k)) s)).

(** Shared memory starts out zero; [initTable] sets [needVessel]. *)
Definition hall_start (tables robots students : nat) : hall :=
  Hall (replicate tables (Table 0 1 false 0 (replicate 11 0) false)) (replicate robots (Robot 0 0)) false
    (replicate tables (TScan 0)) (replicate robots RCook) (replicate students (SLook 0)) MJoin.
Inductive hall_reachable (tables robots students : nat) : hall -> Prop :=
| hall_reach_start : hall_reachable tables robots students (hall_start tables robots students)
| hall_reach_step s s' : hall_reachable tables robots students s -> hall_step s (Some s') -> hall_reachable tables robots students s'.

(** ** Messages: main.c *)

Definition KNRM : list Z := 27 :: codes "[0m".
Definition KGREEN : list Z := 27 :: codes "[32m".
Definition KMAGENTA : list Z := 27 :: codes "[35m".
Definition KBLUE : list Z := 27 :: codes "[34m".
Definition ROBOT_TYPE : Z := 1.
Definition TABLE_TYPE : Z := 2.
Definition STUDENT_TYPE : Z := 3.
(** [b2]: the number and the tabs. *)
Definition number_text (type id : Z) : list Z :=
  32 :: printint (id + 1) 10 1 ++ (if type =? STUDENT_TYPE then [9] else [9; 9]) ++ KNRM.
(** [stamp]: the time. [None]: [sprintf] writes past the ten bytes of [b2]. *)
Definition getHeader (stamp : list Z) (type id : Z) : option (list Z) :=
  let buf := stamp ++ [9] ++
    (if type =? ROBOT_TYPE then KGREEN ++ codes "Robot"
     else if type =? TABLE_TYPE then KMAGENTA ++ codes "Table"
     else if type =? STUDENT_TYPE then KBLUE ++ codes "Student" else []) in
  let b2 := number_text type id in
  if 10 <? zlen b2 + 1 then None else Some (buf ++ b2).
(** [text]: what [vsprintf] makes of the format. [None]: past the end of a buffer. *)
Definition printMsg (stamp : list Z) (type id : Z) (text : list Z) : option (list Z) :=
  if 1000 <? zlen text + 1 then None
  else
  header ← getHeader stamp type id;
  if 1000 <? zlen (header ++ text) + 1 then None else Some (header ++ text).
