(* ===== verification/BiryaniSpec.v ===== *)
(** * The biryani simulation: seats and a deadlock

    No student is ever seated past the end of a table; but [main] can wait for ever on a
    mutex that a table's thread took with it. *)
From S2P Require Import Prelude CString Printf Biryani.

(** A serving table: the students seated, the empty seats, and a word that is not a seat. *)
Definition table_ok (t : table) : Prop :=
  length (tb_eating t) = 11%nat /\
  (tb_ready t = true -> exists ids x, tb_eating t = ids ++ replicate (10 - length ids) (-1) ++ [x] /\
    Forall (fun i => 0 <= i) ids /\ 0 <= tb_slots t /\ zlen ids + tb_slots t <= 10).
Definition hall_ok (s : hall) : Prop := Forall table_ok (hl_tables s).

Lemma cleared l : length l = 11%nat -> exists x, replicate 10 (-1) ++ drop 10 l = [] ++ replicate 10 (-1) ++ [x].
Proof. intros Hl. do 11 (destruct l as [|? l]; [done|]). destruct l; [|done]. eexists. reflexivity. Qed.
Lemma ready_ok t slots : table_ok t -> 1 <= slots <= min 10 (tb_biryani t) -> table_ok (ready_to_serve_table t slots).
Proof.
  intros [Hl _] Hs. destruct (cleared _ Hl) as [x E]. split; cbn [ready_to_serve_table tb_eating tb_ready tb_slots].
  - by rewrite length_app, length_replicate, length_drop, Hl.
  - intros _. exists [], x. split; [done|]. split; [constructor|]. change (zlen []) with 0. unfold min in Hs.
    destruct (10 <=? tb_biryani t) eqn:?; lia.
Qed.
Lemma serve_ok t : table_ok t -> table_ok (serve t).
Proof. intros [Hl _]. split; [|done]. cbn [serve tb_eating]. by rewrite length_app, length_replicate, length_drop, Hl. Qed.
Lemma reset_ok t : table_ok t -> table_ok (reset_table t).
Proof.
  intros [Hl H]. split; [done|]. cbn [reset_table tb_ready tb_slots tb_eating]. intros Hr.
  destruct (H Hr) as (ids & x & E & F & H0 & H1). exists ids, x. split; [done|]. split; [done|].
  destruct (Z.ltb_spec 0 (tb_slots t)); lia.
Qed.

Lemma first_free_seat ids n rest : Forall (fun i => 0 <= i) ids -> forall j,
  first_free (ids ++ replicate (S n) (-1) ++ rest) j = Some (j + length ids)%nat.
Proof.
  induction 1 as [|i ids Hi _ IH]; intros j; cbn [app replicate first_free length].
  - rewrite Z.eqb_refl. f_equal. lia.
  - destruct (Z.eqb_spec i (-1)); [lia|]. cbn [replicate app] in IH. rewrite IH. f_equal. lia.
Qed.
(** A look at a table that is well formed finds a seat for every slot. *)
Lemma look_ok id t : table_ok t -> 0 <= id -> match look id t with
  | Some None => False
  | Some (Some t') => table_ok t' /\ tb_locked t' = tb_locked t
  | None => True
  end.
Proof.
  intros [Hl H] Hid. unfold look. destruct (tb_ready t) eqn:Hr; cbn [andb]; [|done].
  destruct (Z.ltb_spec 0 (tb_slots t)) as [Hs|]; [|done].
  destruct (H eq_refl) as (ids & x & E & F & H0 & H1). unfold student_in_slot. cbn [tb_eating tb_slots tb_ready tb_biryani tb_needVessel tb_locked].
  unfold zlen in H1. destruct (10 - length ids)%nat as [|n] eqn:En; [lia|].
  rewrite E, first_free_seat by done. cbn [mbind option_bind]. cbn [plus]. split; [|done].
  split; cbn [tb_eating tb_ready tb_slots].
  - by rewrite length_insert, <-E.
  - intros _. exists (ids ++ [id]), x. rewrite <-(Nat.add_0_r (length ids)) at 1. rewrite insert_app_r, length_app.
    cbn [length]. replace (10 - (length ids + 1))%nat with n by lia. rewrite <-(assoc_L (++)). split; [done|].
    split; [apply Forall_app; by repeat constructor|]. unfold zlen. rewrite length_app. cbn [length]. lia.
Qed.

Lemma tables_insert s k t : hall_ok s -> table_ok t -> Forall table_ok (<[k := t]> (hl_tables s)).
Proof. intros Hs Ht. by apply Forall_insert. Qed.
Lemma hall_step_ok s o : hall_ok s -> hall_step s o -> exists s', o = Some s' /\ hall_ok s'.
Proof.
  intros Hs H. assert (L : forall k t, hl_tables s !! k = Some t -> table_ok t) by (intros k t; by apply Forall_lookup_1).
  destruct H as [k i t Ht|k i t r Ht ? ? ? ?|k i t r Ht|k t Ht|k t Ht|k t Ht|k t sl Ht ? ? ? Hsl|k t Ht| | | | |
    i k t Hp Ht Hl| |k t ? Ht| |k t ? Ht].
  13: { unfold student_look. pose proof (look_ok (Z.of_nat i) t (L _ _ Ht) ltac:(lia)) as Hk.
    destruct (look _ t) as [[t'|]|]; [|done|]; eexists; (split; [done|]); [|done]. apply tables_insert; [done|apply Hk]. }
  all: eexists; split; [done|]; try done; try (apply tables_insert; [done|]); eauto using ready_ok, serve_ok, reset_ok.
  all: exact (L _ _ Ht).
Qed.
Lemma hall_start_ok tables robots students : hall_ok (hall_start tables robots students).
Proof. apply Forall_replicate. split; [done|]. done. Qed.
Lemma hall_reachable_ok tables robots students s : hall_reachable tables robots students s -> hall_ok s.
Proof.
  induction 1 as [|s s' _ IH Hs]; [apply hall_start_ok|]. by destruct (hall_step_ok _ _ IH Hs) as (s1 & [= <-] & H).
Qed.

(** C38: however the threads interleave, the search for an empty seat stays inside
    [studentsEatingHere], and a serving table's slots and seated students are together at
    most its ten seats. *)
Theorem hall_safe tables robots students s : hall_reachable tables robots students s ->
  ~ hall_step s None /\ forall k t, hl_tables s !! k = Some t -> tb_ready t = true ->
    exists ids x, tb_eating t = ids ++ replicate (10 - length ids) (-1) ++ [x] /\
      0 <= tb_slots t /\ zlen ids + tb_slots t <= 10.
Proof.
  intros Hr. pose proof (hall_reachable_ok _ _ _ _ Hr) as Hs. split.
  - intros H. by destruct (hall_step_ok _ _ Hs H) as (s' & [=] & _).
  - intros k t Ht Hrd. pose proof (Forall_lookup_1 _ _ _ _ Hs Ht) as [_ H].
    destruct (H Hrd) as (ids & x & E & _ & R). by exists ids, x.
Qed.

(** ** One run to the end *)
Lemma hall_reach_some tables robots students s o s' : hall_reachable tables robots students s -> hall_step s o -> o = Some s' ->
  hall_reachable tables robots students s'.
Proof. intros Hr Hs ->. by eapply hall_reach_step. Qed.
Definition served (main : main_pc) (over locked : bool) (pc : table_pc) : hall :=
  Hall [Table 25 1 false 0 (replicate 10 (-1) ++ [0]) locked] [Robot 0 25] over [pc] [RSet] [SSeated] main.
Definition full_table : hall :=
  Hall [Table 25 1 true 0 (0 :: replicate 9 (-1) ++ [0]) false] [Robot 0 25] false [TFill] [RSet] [SSeated] MJoin.
Lemma full_reach : hall_reachable 1 1 1 full_table.
Proof.
  pose proof (hall_reach_start 1 1 1) as R.
  eapply hall_reach_some in R; [|by eapply (st_cook _ 0 _ 1 25)|reflexivity].
  eapply hall_reach_some in R; [|by eapply (st_refill _ 0 0)|reflexivity].
  eapply hall_reach_some in R; [|by eapply (st_loop _ 0)|reflexivity].
  eapply hall_reach_some in R; [|by eapply (st_enter _ 0 _ 1)|reflexivity].
  eapply hall_reach_some in R; [|by eapply (st_look _ 0 0)|reflexivity]. exact R.
Qed.
Lemma hall_safe_witness : hall_reachable 1 1 1 full_table /\ ~ hall_step full_table None.
Proof. split; [apply full_reach|]. exact (proj1 (hall_safe 1 1 1 full_table full_reach)). Defined.

Lemma stuck_reach : hall_reachable 1 1 1 (served (MTables 0) true true TLoop).
Proof.
  pose proof full_reach as R.
  eapply hall_reach_some in R; [|by eapply (st_serve _ 0)|reflexivity].
  eapply hall_reach_some in R; [|by eapply (st_loop _ 0)|reflexivity].
  eapply hall_reach_some in R; [|eapply st_join; [done|]|reflexivity].
  - eapply hall_reach_some in R; [|by eapply (st_enter_over _ 0)|reflexivity]. exact R.
  - intros [|i] pc Hi; [by injection Hi as <-|done].
Qed.
(** The thread of a table that enters [ready_to_serve_table] when the game is over returns
    with the table's mutex locked; from then on [main] never gets past that table. *)
Lemma main_deadlock : exists s, hall_reachable 1 1 1 s /\
  forall s', rtc (fun a b => hall_step a (Some b)) s s' -> hl_main s' = MTables 0.
Proof.
  exists (served (MTables 0) true true TLoop). split; [apply stuck_reach|].
  assert (H : forall a b, rtc (fun a b => hall_step a (Some b)) a b ->
    hl_main a = MTables 0 -> (exists t, hl_tables a = [t] /\ tb_locked t = true) -> hl_main b = MTables 0).
  { induction 1 as [a|a b c Hab _ IH]; [done|]. intros Hm (t & Ht & Hl).
    assert (L : forall k t', hl_tables a !! k = Some t' -> k = 0%nat /\ tb_locked t' = true /\ t' = t).
    { rewrite Ht. intros [|k] t' Hk; [by injection Hk as <-|done]. }
    inversion Hab; subst; try congruence;
      try match goal with Hk : hl_tables _ !! _ = Some _ |- _ => destruct (L _ _ Hk) as (-> & ? & ->) end;
      try congruence; apply IH; cbn; try congruence; rewrite ?Ht; eauto. }
  intros s' Hs. eapply H; [exact Hs|done|]. eexists. split; [reflexivity|done].
Qed.

(** ** Messages *)

(** The head of a message fits its ten-byte buffer for every student and for all robots and
    tables but the hundredth, whose number takes one byte too many. *)
Theorem biryani_headers stamp type id : 1 <= type <= 3 -> 0 <= id < 100 ->
  getHeader stamp type id = None <-> type <> STUDENT_TYPE /\ id = 99.
Proof.
  intros Ht Hid.
  assert (Hb : Forall (fun ty => Forall (fun k => (10 <? zlen (number_text ty (Z.of_nat k)) + 1) = negb (ty =? STUDENT_TYPE) && (Nat.eqb k 99)) (seq 0 100)) [1; 2; 3]).
  { repeat (apply Forall_cons; split); try apply Forall_nil_2; apply (bool_decide_unpack _); vm_compute; exact I. }
  assert (Hty : type ∈ [1; 2; 3]) by (rewrite !elem_of_cons; lia).
  rewrite Forall_forall in Hb. specialize (Hb type Hty). rewrite Forall_forall in Hb.
  specialize (Hb (Z.to_nat id)). rewrite Z2Nat.id in Hb by lia. unfold getHeader. cbv zeta. rewrite Hb by (apply elem_of_seq; lia).
  destruct (Z.eqb_spec type STUDENT_TYPE), (Nat.eqb_spec (Z.to_nat id) 99); cbn [negb andb]; split; try done; try (intros [? ?]; lia || done); intros _; split; done || lia.
Qed.
