(* ===== verification/Reverse.v ===== *)
(** * Reversing a file, and checking it: A1/2018101091_Assignment1/Q1.c, Q2.c and A1/q1.c

    Q1 writes the bytes of a file backwards to [Assignment/<name>], piece by piece from its
    end; Q2 reports the permissions of the two files and of the directory, and whether one
    file is the reverse of the other. The host's files are a map from paths to bytes; a
    descriptor is a path and an offset. [read] and [write] on a regular file transfer all
    they can. What is written to the terminal is kept with the NULs the programs send;
    [perror] writes to standard error, which is not modelled. *)
From S2P Require Import Prelude CString Printf.

Record host := Host {
  h_files : gmap (list Z) (list Z);
  h_dir : bool;                       (* FOLDER exists *)
  h_fds : list (list Z * Z);
  h_tty : list Z
}.
Definition set_h_files (v : gmap (list Z) (list Z)) (s : host) : host := Host v (h_dir s) (h_fds s) (h_tty s).
Definition set_h_dir (v : bool) (s : host) : host := Host (h_files s) v (h_fds s) (h_tty s).
Definition set_h_fds (v : list (list Z * Z)) (s : host) : host := Host (h_files s) (h_dir s) v (h_tty s).
Definition set_h_tty (v : list Z) (s : host) : host := Host (h_files s) (h_dir s) (h_fds s) v.

(** ** The host's calls *)

Definition contents (path : list Z) (s : host) : list Z := default [] (h_files s !! path).
Definition fd_at (fd : nat) (s : host) : list Z * Z := nth fd (h_fds s) ([], 0).
Definition tty (l : list Z) : M host unit := modify (fun s => set_h_tty (h_tty s ++ l) s).
Definition seek_to (fd : nat) (pos : Z) : M host Z := fun s =>
  if pos <? 0 then Ret (-1) s
  else Ret pos (set_h_fds (<[fd := ((fd_at fd s).1, pos)]> (h_fds s)) s).
Definition lseek_set (fd : nat) (off : Z) : M host Z := seek_to fd off.
Definition lseek_cur (fd : nat) (off : Z) : M host Z := let! s := get in seek_to fd ((fd_at fd s).2 + off).
Definition lseek_end (fd : nat) (off : Z) : M host Z := let! s := get in seek_to fd (zlen (contents (fd_at fd s).1 s) + off).
(** [read(fd, buf, n)]: the buffer after it. *)
Definition read (fd : nat) (buf : list Z) (n : Z) : M host (list Z) := fun s =>
  let (path, pos) := fd_at fd s in
  let data := take (Z.to_nat n) (drop (Z.to_nat pos) (contents path s)) in
  Ret (splice buf 0 data) (set_h_fds (<[fd := (path, pos + zlen data)]> (h_fds s)) s).
(** [write(fd, buf, n)]: the first [n] bytes of [buf]. *)
Definition write (fd : nat) (buf : list Z) (n : Z) : M host unit := fun s =>
  let (path, pos) := fd_at fd s in
  let data := take (Z.to_nat n) buf in
  let old := contents path s in
  let file := take (Z.to_nat pos) (old ++ replicate (Z.to_nat pos - length old) 0) ++ data ++ drop (Z.to_nat pos + length data) old in
  Ret tt (set_h_files (<[path := file]> (h_files s)) (set_h_fds (<[fd := (path, pos + zlen data)]> (h_fds s)) s)).
Definition new_fd (path : list Z) : M host nat := fun s =>
  Ret (length (h_fds s)) (set_h_fds (h_fds s ++ [(path, 0)]) s).

Section Host.
(** What the host permits, and what uninitialised arrays hold. *)
Variables (readable writable : list Z -> bool) (mkdir_ok : bool) (junk : nat -> list Z).
(** [st_mode] of [stat], or its failure. *)
Variable mode_of : list Z -> host -> option Z.
Definition exists_ (path : list Z) (s : host) : bool := if h_files s !! path then true else false.
(** [O_RDONLY] *)
Definition open_read (path : list Z) : M host (option nat) :=
  let! s := get in
  if exists_ path s && readable path then let! fd := new_fd path in ret (Some fd) else ret None.
(** [O_CREAT | O_WRONLY | O_TRUNC], of a path in FOLDER *)
Definition open_write (path : list Z) : M host (option nat) :=
  let! s := get in
  if h_dir s && writable path then
    modify (fun s => set_h_files (<[path := []]> (h_files s)) s) ;;;
    let! fd := new_fd path in ret (Some fd)
  else ret None.

(** ** Q1: the progress line *)

Definition fileNameSizeLimit : Z := 400.
Definition FOLDER : list Z := codes "Assignment".
Definition KNRM : list Z := 27 :: codes "[0m".
Definition KGRN : list Z := 27 :: codes "[32m".

(** The swaps of [for (int i = 0, j = len - 1; i <= j; i++, j--)], [k] at most. *)
Fixpoint swaps (k : nat) (i j : Z) (a : list Z) : list Z :=
  match k with
  | O => a
  | S k' => if i <=? j then swaps k' (i + 1) (j - 1) (zupd (zupd a i (znth a j)) j (znth a i)) else a
  end.
Definition reverse (str : list Z) (len : Z) : list Z := swaps (Z.to_nat len) 0 (len - 1) str.
(** The digits, least significant first. *)
Fixpoint num_digits (fuel : nat) (num : Z) : list Z :=
  match fuel with
  | O => []
  | S fuel' => if 0 <? num then (num mod 10 + 48) :: num_digits fuel' (num / 10) else []
  end.
Definition printnum (num : Z) : M host unit :=
  let ds := if num =? 0 then [48] else num_digits 100 num in
  let arr := swaps (length ds) 0 (zlen ds - 1) (ds ++ replicate (100 - length ds) 0) in
  tty (take (length ds + 1) arr).
Definition min (a b : Z) : Z := if a <? b then a else b.
Definition writeProgress (percent : Z) : M host unit :=
  tty [13; 0] ;;;
  tty KGRN ;;;
  printnum (s32 percent) ;;;
  tty (KNRM ++ [0]) ;;;
  tty (codes "% of file written" ++ [0]).

(** ** Q1: the reversal *)

(** [multiplePrintStep] for a file of [fileSize] bytes *)
Definition print_step (fileSize : Z) : Z := Z.max (min (s32 (fileSize / 1000)) 1000000) 1.
Fixpoint reverse_steps (k : nat) (fdIn fdOut : nat) (i m updateStep fileSize : Z) (buf : list Z) : M host (list Z) :=
  match k with
  | O => ret buf
  | S k' =>
    let! buf := read fdIn buf m in
    let buf := reverse buf m in
    write fdOut buf m ;;;
    lseek_cur fdIn (-2 * m) ;;;
    when (i mod updateStep =? 0) (writeProgress (i * m * 100 / fileSize)) ;;;
    reverse_steps k' fdIn fdOut (i + 1) m updateStep fileSize buf
  end.
(** From the two descriptors on. *)
Definition reverse_file (fdIn fdOut : nat) (fileSize : Z) : M host unit :=
  let m := print_step fileSize in
  let steps := fileSize / m in
  let updateStep := Z.max 1 (steps / 100) in
  lseek_end fdIn (- m) ;;;
  let! buf := reverse_steps (Z.to_nat steps) fdIn fdOut 0 m updateStep fileSize (junk (Z.to_nat m)) in
  let left := s32 (fileSize - steps * m) in
  lseek_set fdIn 0 ;;;
  let! buf := read fdIn buf left in
  let buf := reverse buf left in
  write fdOut buf left ;;;
  writeProgress 100.
(** The name after the last slash: [len] runs down from the NUL to a slash or to -1. *)
Fixpoint last_slash (k : nat) (name : list Z) : Z :=
  if (k <? length name)%nat && (znth name (Z.of_nat k) =? 47) then Z.of_nat k
  else match k with O => -1 | S k' => last_slash k' name end.
Definition basename (name : list Z) : list Z := drop (Z.to_nat (last_slash (length name) name + 1)) name.
(** [outFileName], an array of 400 bytes. *)
Definition out_name (name : list Z) : M host (list Z) :=
  let path := FOLDER ++ [47] ++ name in
  if zlen path <? fileNameSizeLimit then ret path else panic "stack smashing".
Definition reverse_to (inFileName outFileName : list Z) : M host Z :=
  let! fdIn := open_read inFileName in
  match fdIn with
  | None => ret 1
  | Some fdIn =>
    let! s := get in
    let fileSize := zlen (contents inFileName s) in
    let! fdOut := open_write outFileName in
    match fdOut with
    | None => ret 1
    | Some fdOut => reverse_file fdIn fdOut fileSize ;;; ret 0
    end
  end.
Definition make_folder : M host unit :=
  let! s := get in
  when (negb (h_dir s) && mkdir_ok) (modify (set_h_dir true)).
Definition usage : list Z :=
  codes "Unexpected number of arguments. Put exactly one string argument indicating file name of file to reverse." ++ [0].
(** Q1.c; [argv] without the program's name. *)
Definition q1_main (argv : list (list Z)) : M host Z :=
  match argv with
  | [inFileName] =>
    make_folder ;;;
    let name := basename inFileName in
    if negb (zlen name <? fileNameSizeLimit) then panic "stack smashing"
    else
    let! outFileName := out_name name in
    reverse_to inFileName outFileName
  | _ => tty usage ;;; ret 1
  end.
(** The earlier q1.c: the whole argument is appended to the folder. *)
Definition q1_draft_main (argv : list (list Z)) : M host Z :=
  match argv with
  | [inFileName] =>
    make_folder ;;;
    let! outFileName := out_name inFileName in
    reverse_to inFileName outFileName
  | _ => tty usage ;;; ret 1
  end.

(** ** Q2: the check *)

(** [a[i] == b[j]] for [k] more [i]s *)
Fixpoint is_rev_loop (k : nat) (i j : Z) (a b : list Z) : bool :=
  match k with
  | O => true
  | S k' => if negb (znth a i =? znth b j) then false else is_rev_loop k' (i + 1) (j - 1) a b
  end.
Definition isReved (a b : list Z) (len : Z) : bool := is_rev_loop (Z.to_nat len) 0 (len - 1) a b.
(** [Some (buf, buf2)] after the last step, [None] at the first difference. *)
Fixpoint compare_steps (k : nat) (fd1 fd2 : nat) (m : Z) (buf buf2 : list Z) : M host (option (list Z * list Z)) :=
  match k with
  | O => ret (Some (buf, buf2))
  | S k' =>
    let! buf := read fd1 buf m in
    let! buf2 := read fd2 buf2 m in
    if negb (isReved buf buf2 m) then ret None
    else
    lseek_cur fd1 (-2 * m) ;;;
    compare_steps k' fd1 fd2 m buf buf2
  end.
Definition compare_step (fileSize : Z) : Z := Z.max (Z.min (fileSize / 1000) 1000000) 1.
Definition reversed (newFilePath oldFilePath : list Z) : M host Z :=
  let! fd1 := open_read newFilePath in
  match fd1 with
  | None => ret (-1)
  | Some fd1 =>
    let! fd2 := open_read oldFilePath in
    match fd2 with
    | None => ret (-1)
    | Some fd2 =>
      let! s := get in
      if negb (zlen (contents newFilePath s) =? zlen (contents oldFilePath s)) then ret 0
      else
      let fileSize := s32 (zlen (contents newFilePath s)) in
      let m := compare_step fileSize in
      let steps := Z.quot fileSize m in
      lseek_end fd1 (- m) ;;;
      let! r := compare_steps (Z.to_nat steps) fd1 fd2 m (junk (Z.to_nat m)) (junk (Z.to_nat m)) in
      match r with
      | None => ret 0
      | Some (buf, buf2) =>
        let left := s32 (fileSize - steps * m) in
        lseek_set fd1 0 ;;;
        let! buf := read fd1 buf left in
        let! buf2 := read fd2 buf2 left in
        if negb (isReved buf buf2 left) then ret 0 else ret 1
      end
    end
  end.

(** ** Q2: the report *)

Definition print (str : list Z) : M host unit := tty str.
Definition perms : list Z := [256; 128; 64; 32; 16; 8; 4; 2; 1].
Fixpoint print_perms_loop (l : list Z) (i : Z) (mode : Z) (proc : list Z) : M host unit :=
  match l with
  | [] => ret tt
  | p :: l =>
    print (if i <? 3 then codes "User" else if i <? 6 then codes "Group" else codes "Others") ;;;
    print (codes " has ") ;;;
    print (if i mod 3 =? 0 then codes "read" else if i mod 3 =? 1 then codes "write" else codes "execute") ;;;
    print (codes " permission on ") ;;;
    print proc ;;;
    print (codes ": ") ;;;
    print (if negb (Z.land mode p =? 0) then codes "Yes" else codes "No") ;;;
    print [10] ;;;
    print_perms_loop l (i + 1) mode proc
  end.
Definition S_ISDIR (mode : Z) : bool := Z.land mode 61440 =? 16384.
Definition printPerms (path : list Z) (num : Z) (proc : list Z) : M host Z :=
  let! s := get in
  match mode_of path s with
  | None =>
    if num =? 3 then print (codes "Directory is created: No" ++ [10]) ;;; ret 1
    else print (codes "Could not stat file") ;;; print path ;;; ret 1
  | Some mode =>
    when (num =? 3) (
      print (codes "Directory is created: Yes" ++ [10]) ;;;
      if S_ISDIR mode then print (codes "Directory is created: Yes" ++ [10])
      else print (codes "Directory is created: It is not a directory :|" ++ [10])) ;;;
    print_perms_loop perms 0 mode proc ;;;
    print (codes "--" ++ [10]) ;;;
    ret 0
  end.
Definition q2_usage : list Z :=
  codes "Please pass three path string arguments in this order: newfile, oldfile and the directory" ++ [0].
Definition q2_main (argv : list (list Z)) : M host Z :=
  match argv with
  | [newfile; oldfile; directory] =>
    printPerms newfile 1 (codes "newfile") ;;;
    printPerms oldfile 2 (codes "oldfile") ;;;
    printPerms directory 3 (codes "directory") ;;;
    print (codes "Whether file contents are reversed in newfile: ") ;;;
    let! res := reversed newfile oldfile in
    (if res =? -1 then ret tt else if res =? 1 then print (codes "Yes") else print (codes "No")) ;;;
    ret 0
  | _ => tty q2_usage ;;; ret 1
  end.
End Host.
