(* ===== verification/ReverseSpec.v ===== *)
(** * The reversal is a reversal

    Q1 writes the input backwards whatever its size; Q2 says so exactly when it is true. *)
From S2P Require Import Prelude CString Printf Reverse.

(** ** Arrays *)

Lemma znth_eq (l l' : list Z) : length l = length l' -> (forall i, 0 <= i < zlen l -> znth l i = znth l' i) -> l = l'.
Proof.
  intros Hl H. apply list_eq. intros i. destruct (decide (i < length l)%nat) as [Hi|Hi].
  - destruct (lookup_lt_is_Some_2 l i Hi) as [x Hx]. destruct (lookup_lt_is_Some_2 l' i) as [y Hy]; [lia|].
    specialize (H (Z.of_nat i) ltac:(unfold zlen; lia)). rewrite (znth_lookup l _ x), (znth_lookup l' _ y) in H by (rewrite ?Nat2Z.id; done || lia).
    by rewrite Hx, Hy, H.
  - by rewrite !lookup_ge_None_2 by lia.
Qed.
Lemma znth_appl l l' i : i < zlen l -> znth (l ++ l') i = znth l i.
Proof. unfold znth, zlen. intros H. case_match; [done|]. rewrite app_nth1; [done|lia]. Qed.
Lemma znth_appr l l' i : zlen l <= i -> znth (l ++ l') i = znth l' (i - zlen l).
Proof.
  unfold znth, zlen. intros H. destruct (Z.ltb_spec i 0); [lia|]. destruct (Z.ltb_spec (i - Z.of_nat (length l)) 0); [lia|].
  rewrite app_nth2 by lia. f_equal. lia.
Qed.
Lemma znth_rev l i : 0 <= i < zlen l -> znth (rev l) i = znth l (zlen l - 1 - i).
Proof.
  unfold znth, zlen. intros H. destruct (Z.ltb_spec i 0); [lia|]. destruct (Z.ltb_spec (Z.of_nat (length l) - 1 - i) 0); [lia|].
  rewrite rev_nth by lia. f_equal. lia.
Qed.
Lemma znth_take l n i : i < n -> znth (take (Z.to_nat n) l) i = znth l i.
Proof.
  unfold znth. intros H. destruct (Z.ltb_spec i 0); [done|]. rewrite !nth_lookup. rewrite lookup_take_lt by lia. done.
Qed.
Lemma znth_drop l n i : 0 <= n -> 0 <= i -> znth (drop (Z.to_nat n) l) i = znth l (n + i).
Proof.
  unfold znth. intros Hn H. destruct (Z.ltb_spec i 0); [lia|]. destruct (Z.ltb_spec (n + i) 0); [lia|]. rewrite !nth_lookup, lookup_drop.
  by replace (Z.to_nat n + Z.to_nat i)%nat with (Z.to_nat (n + i)) by lia.
Qed.
Lemma zlen_take {A} (l : list A) n : 0 <= n <= zlen l -> zlen (take (Z.to_nat n) l) = n.
Proof. unfold zlen. rewrite length_take. lia. Qed.
Lemma zlen_drop {A} (l : list A) n : 0 <= n <= zlen l -> zlen (drop (Z.to_nat n) l) = zlen l - n.
Proof. unfold zlen. rewrite length_drop. lia. Qed.
Lemma zlen_rev {A} (l : list A) : zlen (rev l) = zlen l.
Proof. unfold zlen. by rewrite length_rev. Qed.
Lemma take_drop_split {A} (l : list A) a b : 0 <= a <= b -> drop (Z.to_nat a) l = take (Z.to_nat (b - a)) (drop (Z.to_nat a) l) ++ drop (Z.to_nat b) l.
Proof. intros H. rewrite <-(take_drop (Z.to_nat (b - a)) (drop (Z.to_nat a) l)) at 1. f_equal. rewrite drop_drop. f_equal. lia. Qed.

Lemma length_swaps k i j a : length (swaps k i j a) = length a.
Proof. revert i j a. induction k as [|k IH]; intros i j a; cbn [swaps]; [done|]. case_match; [|done]. by rewrite IH, !length_zupd. Qed.
Lemma swaps_znth k : forall i j a x, 0 <= i -> j < zlen a -> j - i < Z.of_nat k -> 0 <= x < zlen a ->
  znth (swaps k i j a) x = if (i <=? x) && (x <=? j) then znth a (i + j - x) else znth a x.
Proof.
  induction k as [|k IH]; intros i j a x Hi Hj Hk Hx; cbn [swaps].
  - destruct (Z.leb_spec i x), (Z.leb_spec x j); simpl; try done; lia.
  - destruct (Z.leb_spec i j) as [Hij|Hij].
    2:{ destruct (Z.leb_spec i x), (Z.leb_spec x j); simpl; try done; lia. }
    rewrite IH by (unfold zlen in *; rewrite ?length_zupd; lia).
    assert (Ez : forall y, znth (zupd (zupd a i (znth a j)) j (znth a i)) y = if j =? y then znth a i else if i =? y then znth a j else znth a y).
    { intros y. destruct (Z.eqb_spec j y) as [<-|Hjy]; [apply znth_zupd_eq; unfold zlen in *; rewrite length_zupd; lia|]. rewrite znth_zupd_ne by done.
      destruct (Z.eqb_spec i y) as [<-|Hiy]; [by apply znth_zupd_eq; lia|by apply znth_zupd_ne]. }
    rewrite !Ez. destruct (Z.leb_spec (i + 1) x), (Z.leb_spec x (j - 1)), (Z.leb_spec i x), (Z.leb_spec x j); cbn [andb]; try lia;
      repeat match goal with |- context [?p =? ?q] => destruct (Z.eqb_spec p q) end; try lia; try done; f_equal; lia.
Qed.
Lemma reverse_spec a len : 0 <= len <= zlen a -> reverse a len = rev (take (Z.to_nat len) a) ++ drop (Z.to_nat len) a.
Proof.
  intros H. unfold reverse. apply znth_eq.
  - rewrite length_swaps, length_app, length_rev, length_take, length_drop. lia.
  - intros i Hi. unfold zlen in Hi. rewrite length_swaps in Hi. fold (zlen a) in Hi. rewrite swaps_znth by lia.
    assert (Hl : zlen (rev (take (Z.to_nat len) a)) = len) by (by rewrite zlen_rev, zlen_take).
    destruct (Z.ltb_spec i len).
    + rewrite znth_appl by lia. rewrite znth_rev, zlen_take by (rewrite ?zlen_take; lia). rewrite znth_take by lia.
      rewrite (proj2 (Z.leb_le 0 i)), (proj2 (Z.leb_le i (len - 1))) by lia. cbn [andb]. f_equal; lia.
    + rewrite znth_appr, Hl, znth_drop by lia. rewrite (proj2 (Z.leb_gt i (len - 1))), andb_false_r by lia. f_equal; lia.
Qed.
Lemma is_rev_loop_spec k : forall i j a b, is_rev_loop k i j a b = true <-> forall x, 0 <= x < Z.of_nat k -> znth a (i + x) = znth b (j - x).
Proof.
  induction k as [|k IH]; intros i j a b; cbn [is_rev_loop]; [split; [lia|done]|].
  destruct (Z.eqb_spec (znth a i) (znth b j)) as [E|E]; cbn [negb].
  - rewrite IH. split; intros H x Hx.
    + destruct (decide (x = 0)) as [->|]; [by rewrite Z.add_0_r, Z.sub_0_r|].
      specialize (H (x - 1) ltac:(lia)).
      replace (i + 1 + (x - 1)) with (i + x) in H by lia. by replace (j - 1 - (x - 1)) with (j - x) in H by lia.
    + specialize (H (x + 1) ltac:(lia)). replace (i + (x + 1)) with (i + 1 + x) in H by lia. by replace (j - (x + 1)) with (j - 1 - x) in H by lia.
  - split; [done|]. intros H. exfalso. apply E. specialize (H 0 ltac:(lia)). by rewrite Z.add_0_r, Z.sub_0_r in H.
Qed.
Lemma isReved_spec a b : zlen a = zlen b -> isReved a b (zlen a) = true <-> a = rev b.
Proof.
  intros Hl. pose proof (zlen_rev b) as Hr. unfold isReved. rewrite is_rev_loop_spec. split.
  - intros H. apply znth_eq; [unfold zlen in *; lia|]. intros i Hi. rewrite znth_rev by lia.
    specialize (H i ltac:(lia)). rewrite Z.add_0_l in H. rewrite H. f_equal. lia.
  - intros -> x Hx. rewrite Z2Nat.id in Hx by (unfold zlen; lia). rewrite znth_rev by lia. f_equal. lia.
Qed.

(** ** Two descriptors *)

Section Fds.
Variables (files : gmap (list Z) (list Z)) (dir : bool) (fds : list (list Z * Z)).
Definition two (p1 : list Z) (o1 : Z) (p2 : list Z) (o2 : Z) (t : list Z) : host := Host files dir (fds ++ [(p1, o1); (p2, o2)]) t.
Let fd1 : nat := length fds.
Let fd2 : nat := S (length fds).
Variables (p1 p2 : list Z) (o1 o2 : Z) (t : list Z).

Lemma two_at : fd_at fd1 (two p1 o1 p2 o2 t) = (p1, o1) /\ fd_at fd2 (two p1 o1 p2 o2 t) = (p2, o2).
Proof.
  unfold fd_at, two, fd1, fd2. cbn [h_fds]. rewrite !app_nth2, Nat.sub_diag, Nat.sub_succ_l, Nat.sub_diag by lia. done.
Qed.
Lemma two_upd1 x : <[fd1 := x]> (fds ++ [(p1, o1); (p2, o2)]) = fds ++ [x; (p2, o2)].
Proof. unfold fd1. by rewrite insert_app_r_alt, Nat.sub_diag by lia. Qed.
Lemma two_upd2 x : <[fd2 := x]> (fds ++ [(p1, o1); (p2, o2)]) = fds ++ [(p1, o1); x].
Proof. unfold fd2. rewrite insert_app_r_alt, Nat.sub_succ_l, Nat.sub_diag by lia. done. Qed.
Lemma two_read1 buf m c : default [] (files !! p1) = c -> 0 <= o1 -> 0 <= m -> o1 + m <= zlen c ->
  let data := take (Z.to_nat m) (drop (Z.to_nat o1) c) in
  read fd1 buf m (two p1 o1 p2 o2 t) = Ret (splice buf 0 data) (two p1 (o1 + m) p2 o2 t) /\ zlen data = m.
Proof.
  intros Hc Ho Hm Hle data. assert (Hd : zlen data = m) by (unfold data; rewrite zlen_take; rewrite ?zlen_drop; lia). split; [|done].
  unfold read. destruct two_at as [-> _]. unfold contents. cbn [h_files two]. rewrite Hc. fold data. rewrite Hd.
  unfold set_h_fds, two. cbn [h_files h_dir h_fds h_tty]. by rewrite two_upd1.
Qed.
Lemma two_read2 buf m c : default [] (files !! p2) = c -> 0 <= o2 -> 0 <= m -> o2 + m <= zlen c ->
  let data := take (Z.to_nat m) (drop (Z.to_nat o2) c) in
  read fd2 buf m (two p1 o1 p2 o2 t) = Ret (splice buf 0 data) (two p1 o1 p2 (o2 + m) t) /\ zlen data = m.
Proof.
  intros Hc Ho Hm Hle data. assert (Hd : zlen data = m) by (unfold data; rewrite zlen_take; rewrite ?zlen_drop; lia). split; [|done].
  unfold read. destruct two_at as [_ ->]. unfold contents. cbn [h_files two]. rewrite Hc. fold data. rewrite Hd.
  unfold set_h_fds, two. cbn [h_files h_dir h_fds h_tty]. by rewrite two_upd2.
Qed.
(** A seek that would go below the start fails and leaves the offset. *)
Lemma two_seek pos : exists r, seek_to fd1 pos (two p1 o1 p2 o2 t) = Ret r (two p1 (if pos <? 0 then o1 else pos) p2 o2 t).
Proof.
  unfold seek_to. destruct (pos <? 0); [by eexists|]. destruct two_at as [-> _]. eexists. unfold set_h_fds, two. cbn [h_files h_dir h_fds h_tty fst]. by rewrite two_upd1.
Qed.
Lemma two_seek_cur off : exists r, lseek_cur fd1 off (two p1 o1 p2 o2 t) = Ret r (two p1 (if o1 + off <? 0 then o1 else o1 + off) p2 o2 t).
Proof. unfold lseek_cur. mrun. destruct two_at as [-> _]. apply two_seek. Qed.
Lemma two_seek_end off c : default [] (files !! p1) = c ->
  exists r, lseek_end fd1 off (two p1 o1 p2 o2 t) = Ret r (two p1 (if zlen c + off <? 0 then o1 else zlen c + off) p2 o2 t).
Proof. intros Hc. unfold lseek_end. mrun. destruct two_at as [-> _]. unfold contents. cbn [h_files two fst]. rewrite Hc. apply two_seek. Qed.
Lemma two_tty l : tty l (two p1 o1 p2 o2 t) = Ret tt (two p1 o1 p2 o2 (t ++ l)).
Proof. done. Qed.
Lemma two_progress n : exists l, writeProgress n (two p1 o1 p2 o2 t) = Ret tt (two p1 o1 p2 o2 (t ++ l)).
Proof.
  unfold writeProgress, printnum. eexists. unfold tty, modify, bind, set_h_tty, two. cbn [h_files h_dir h_fds h_tty]. rewrite <-!(assoc_L (++)). reflexivity.
Qed.
End Fds.
(** Appending at the end of the second file. *)
Lemma two_write files dir fds p1 o1 p2 o t buf m : 0 <= m <= zlen buf ->
  write (S (length fds)) buf m (two (<[p2 := o]> files) dir fds p1 o1 p2 (zlen o) t) =
  Ret tt (two (<[p2 := o ++ take (Z.to_nat m) buf]> files) dir fds p1 o1 p2 (zlen o + m) t).
Proof.
  intros Hm. unfold write. destruct (two_at (<[p2 := o]> files) dir fds p1 p2 o1 (zlen o) t) as [_ ->]. cbn [fst snd].
  unfold contents. cbn [h_files two]. rewrite lookup_insert_eq. cbn [default]. rewrite zlen_take by done.
  unfold id. assert (En : Z.to_nat (zlen o) = length o) by (unfold zlen; lia). rewrite En, Nat.sub_diag. change (replicate 0 0) with (@nil Z).
  rewrite app_nil_r, (take_ge o), (drop_ge o), app_nil_r, insert_insert_eq by lia.
  unfold set_h_fds, set_h_files, two. cbn [h_files h_dir h_fds h_tty]. by rewrite two_upd2.
Qed.
Lemma splice_all (buf data : list Z) : zlen data <= zlen buf -> splice buf 0 data = data ++ drop (length data) buf.
Proof. intros H. unfold splice. by rewrite take_0, Nat.add_0_l. Qed.

(** ** Q1 *)

Section Q1.
Variables (files : gmap (list Z) (list Z)) (dir : bool) (fds : list (list Z * Z)) (inp out d : list Z) (m steps : Z).
Hypothesis Hio : inp <> out.
Hypothesis Hd : files !! inp = Some d.
Hypothesis Hm : 1 <= m.
Hypothesis Hsteps : 0 <= steps /\ steps * m <= zlen d.
Let n : Z := zlen d.
(** After the last [b] bytes have been written backwards. *)
Definition part (b o1 : Z) (t : list Z) : host := two (<[out := rev (drop (Z.to_nat (n - b)) d)]> files) dir fds inp o1 out b t.

Lemma part_write b c o1 t buf : 0 <= b -> 0 <= c -> b + c <= n -> buf = rev (take (Z.to_nat c) (drop (Z.to_nat (n - (b + c))) d)) ++ drop (Z.to_nat c) buf ->
  write (S (length fds)) buf c (part b o1 t) = Ret tt (part (b + c) o1 t).
Proof.
  intros Hb Hc Hle E. unfold part. set (r := rev (take _ _)) in E.
  assert (Hr : zlen r = c) by (unfold r; rewrite zlen_rev, zlen_take; rewrite ?zlen_drop; unfold n in *; lia).
  assert (Hbuf : zlen buf = c + zlen (drop (Z.to_nat c) buf)) by (rewrite E at 1; unfold zlen in *; rewrite length_app; lia).
  assert (Ho : b = zlen (rev (drop (Z.to_nat (n - b)) d))) by (rewrite zlen_rev, zlen_drop; unfold n in *; lia).
  rewrite Ho at 2. rewrite two_write by (unfold zlen in *; lia). rewrite <-Ho. do 3 f_equal.
  assert (Et : take (Z.to_nat c) buf = r) by (rewrite E; apply take_app_length'; unfold zlen in Hr; lia). rewrite Et. unfold r.
  rewrite <-rev_app_distr. f_equal.
  pose proof (take_drop_split d (n - (b + c)) (n - b) ltac:(lia)) as Hs. replace (n - b - (n - (b + c))) with c in Hs by lia. by symmetry.
Qed.
Lemma reverse_steps_run u k : forall i o1 t buf, 0 <= i -> i + Z.of_nat k = steps -> zlen buf = m -> 0 <= o1 -> (k <> 0%nat -> o1 = n - (i + 1) * m) ->
  exists buf' o1' t', reverse_steps k (length fds) (S (length fds)) i m u n buf (part (i * m) o1 t) = Ret buf' (part (steps * m) o1' t') /\
    zlen buf' = m /\ 0 <= o1'.
Proof.
  induction k as [|k IH]; intros i o1 t buf Hi Hk Hbuf Ho Eo; cbn [reverse_steps].
  - exists buf, o1, t. by replace i with steps by lia.
  - specialize (Eo ltac:(lia)). assert (Hle : (i + 1) * m <= n) by (unfold n; nia).
    unfold part at 1. destruct (two_read1 (<[out := rev (drop (Z.to_nat (n - i * m)) d)]> files) dir fds inp out o1 (i * m) t buf m d) as [E1 Hl].
    { rewrite lookup_insert_ne by done. by rewrite Hd. } { done. } { lia. } { unfold n in *. lia. }
    erewrite bind_eq by exact E1. set (data := take (Z.to_nat m) (drop (Z.to_nat o1) d)) in *.
    rewrite splice_all, drop_ge, app_nil_r by (unfold zlen in *; lia). cbv zeta.
    assert (Er : reverse data m = rev data) by (rewrite reverse_spec by lia; rewrite take_ge, drop_ge, app_nil_r by (unfold zlen in *; lia); done). rewrite Er.
    change (two _ dir fds inp (o1 + m) out (i * m) t) with (part (i * m) (o1 + m) t).
    erewrite bind_eq.
    2:{ apply (part_write (i * m) m); [nia|lia|nia|]. rewrite (drop_ge (rev data)), app_nil_r by (unfold zlen in *; rewrite length_rev; lia).
        unfold data. do 4 f_equal. rewrite Eo. f_equal. ring. }
    unfold part at 1. destruct (two_seek_cur (<[out := rev (drop (Z.to_nat (n - (i * m + m))) d)]> files) dir fds inp out (o1 + m) (i * m + m) t (-2 * m)) as [r Es].
    erewrite bind_eq by exact Es. set (o2 := if _ <? 0 then _ else _). change (two _ dir fds inp o2 out (i * m + m) t) with (part (i * m + m) o2 t).
    assert (Hp : exists l, when (i mod u =? 0) (writeProgress (i * m * 100 / n)) (part (i * m + m) o2 t) = Ret tt (part (i * m + m) o2 (t ++ l))).
    { destruct (i mod u =? 0); [apply two_progress|]. exists []. by rewrite app_nil_r. }
    destruct Hp as [l Hp]. erewrite bind_eq by exact Hp. replace (i * m + m) with ((i + 1) * m) by ring.
    apply IH; [lia|lia|by rewrite zlen_rev| |].
    + unfold o2. destruct (Z.ltb_spec (o1 + m + -2 * m) 0); lia.
    + intros Hk0. unfold o2. assert ((i + 2) * m <= n) by (unfold n; nia). destruct (Z.ltb_spec (o1 + m + -2 * m) 0); lia.
Qed.

Variable junk : nat -> list Z.
Hypothesis junk_len : forall k, length (junk k) = k.
Lemma print_step_ok k : 0 <= k -> 1 <= print_step k <= 1000000.
Proof. intros Hk. unfold print_step, min. destruct (Z.ltb_spec (s32 (k / 1000)) 1000000); lia. Qed.
End Q1.

Section Main.
Variables (readable writable : list Z -> bool) (mkdir_ok : bool) (junk : nat -> list Z).
Hypothesis junk_len : forall k, length (junk k) = k.

Lemma reverse_file_run files dir fds inp out d t : inp <> out -> files !! inp = Some d ->
  exists s', reverse_file junk (length fds) (S (length fds)) (zlen d) (two (<[out := []]> files) dir fds inp 0 out 0 t) = Ret tt s' /\
    h_files s' = <[out := rev d]> files /\ h_dir s' = dir.
Proof.
  intros Hio Hd. set (n := zlen d). assert (Hn : 0 <= n) by (unfold n, zlen; lia). set (m := print_step n).
  assert (Hm : 1 <= m <= 1000000) by (by apply print_step_ok). set (steps := n / m). set (left := n - steps * m).
  assert (Hst : 0 <= steps /\ steps * m <= n /\ 0 <= left < m) by (unfold left, steps; nia).
  assert (Hpart : forall o1 t, two (<[out := []]> files) dir fds inp o1 out 0 t = part files dir fds inp out d (0 * m) o1 t).
  { intros. unfold part. rewrite Z.mul_0_l, Z.sub_0_r, drop_ge by (unfold zlen; lia). done. }
  unfold reverse_file. fold n m steps.
  assert (Hdd : forall o, default [] ((<[out := o]> files) !! inp) = d) by (intros; rewrite lookup_insert_ne by done; by rewrite Hd).
  destruct (two_seek_end (<[out := []]> files) dir fds inp out 0 0 t (- m) d (Hdd [])) as [r E]. erewrite bind_eq by exact E.
  fold n. set (o1 := if n + - m <? 0 then 0 else n + - m). rewrite Hpart.
  destruct (reverse_steps_run files dir fds inp out d m steps Hio Hd ltac:(lia) ltac:(unfold n in *; lia) (Z.max 1 (steps / 100)) (Z.to_nat steps) 0 o1 t (junk (Z.to_nat m)))
    as (buf & o2 & t2 & E2 & Hb & Ho2).
  { lia. } { lia. } { unfold zlen. rewrite junk_len. lia. } { unfold o1. destruct (Z.ltb_spec (n + - m) 0); lia. }
  { intros Hk. unfold o1. fold n. destruct (Z.ltb_spec (n + - m) 0); nia. }
  fold n in E2. erewrite bind_eq by exact E2. cbv zeta. fold left.
  rewrite s32_small by (unfold left in *; lia). unfold part at 1.
  match goal with |- context [two ?f dir fds inp o2 out ?b t2] => destruct (two_seek f dir fds inp out o2 b t2 0) as [r3 E3]; erewrite bind_eq by exact E3; cbn [Z.ltb Z.compare];
    destruct (two_read1 f dir fds inp out 0 b t2 buf left d) as [E4 Hl] end.
  { apply Hdd. } { lia. } { lia. } { unfold n in *. lia. }
  erewrite bind_eq by exact E4. rewrite Z.add_0_l. change (drop (Z.to_nat 0) d) with d in *. set (data := take (Z.to_nat left) d) in *.
  rewrite splice_all by lia. assert (Hdl : length data = Z.to_nat left) by (unfold zlen in Hl; lia).
  assert (Hbl : zlen (data ++ drop (length data) buf) = m) by (unfold zlen in *; rewrite length_app, length_drop; lia).
  assert (Er : reverse (data ++ drop (length data) buf) left = rev data ++ drop (length data) buf).
  { rewrite reverse_spec by lia. by rewrite take_app_length', drop_app_length' by lia. }
  rewrite Er. fold (part files dir fds inp out d (steps * m) left t2).
  erewrite bind_eq.
  2:{ apply (part_write files dir fds inp out d (steps * m) left); [lia|lia|unfold left, n; lia|].
      rewrite (drop_app_length' (rev data)) by (rewrite length_rev; lia). f_equal. unfold data. do 2 f_equal.
      replace (zlen d - (steps * m + left)) with 0 by (unfold left, n; lia). done. }
  replace (steps * m + left) with n by (unfold left; lia). unfold part.
  edestruct two_progress as [l El]. rewrite El. eexists. split; [done|]. cbn [h_files h_dir two]. rewrite Z.sub_diag. done.
Qed.

Lemma last_slash_hit k name : (k < length name)%nat -> znth name (Z.of_nat k) = 47 -> last_slash k name = Z.of_nat k.
Proof. intros Hk E. destruct k; cbn [last_slash]; by rewrite (proj2 (Nat.ltb_lt _ _) Hk), E. Qed.
Lemma last_slash_skip k name : ((k < length name)%nat -> znth name (Z.of_nat k) <> 47) ->
  last_slash k name = match k with O => -1 | S k' => last_slash k' name end.
Proof.
  intros H. destruct (Nat.ltb_spec k (length name)) as [Hk|Hk].
  - specialize (H Hk). destruct k; cbn [last_slash]; by rewrite (proj2 (Z.eqb_neq _ _)), andb_false_r by done.
  - destruct k; cbn [last_slash]; by rewrite (proj2 (Nat.ltb_ge _ _)) by done.
Qed.
Lemma last_slash_spec k pre b : (k <= length b)%nat -> 47 ∉ b -> pre = [] \/ (exists p, pre = p ++ [47]) ->
  last_slash (length pre + k) (pre ++ b) = zlen pre - 1.
Proof.
  intros Hk Hb Hp.
  assert (Hskip : forall j, (length pre <= j < length pre + length b)%nat -> znth (pre ++ b) (Z.of_nat j) <> 47).
  { intros j Hj. rewrite znth_appr by (unfold zlen; lia). intros E. apply Hb.
    destruct (lookup_lt_is_Some_2 b (j - length pre)) as [x Hx]; [lia|]. apply (list_elem_of_lookup_2 _ (j - length pre)). rewrite Hx. f_equal.
    rewrite <-E. symmetry. apply znth_lookup; [unfold zlen; lia|]. rewrite <-Hx. f_equal. unfold zlen. lia. }
  revert Hk. induction k as [|k IH]; intros Hk.
  - rewrite Nat.add_0_r, last_slash_skip by (rewrite length_app; intros; apply Hskip; lia).
    destruct Hp as [->|[p ->]]; [done|]. assert (E : length (p ++ [47]) = S (length p)) by (rewrite length_app; simpl; lia).
    rewrite E, <-app_assoc, last_slash_hit; [unfold zlen; rewrite E; lia|rewrite length_app; simpl; lia|].
    rewrite znth_appr by (unfold zlen; lia). unfold zlen. by rewrite Z.sub_diag.
  - rewrite Nat.add_succ_r, last_slash_skip; [apply IH; lia|]. rewrite length_app. intros. apply Hskip. lia.
Qed.
(** What follows the last slash. *)
Lemma basename_spec pre b : 47 ∉ b -> (pre = [] \/ exists p, pre = p ++ [47]) -> basename (pre ++ b) = b.
Proof.
  intros Hb Hp. unfold basename. rewrite length_app, last_slash_spec by (done || lia).
  replace (zlen pre - 1 + 1) with (zlen pre) by lia. unfold zlen. rewrite Nat2Z.id. apply drop_app_length.
Qed.

Lemma open_read_run s path d : h_files s !! path = Some d -> readable path = true ->
  open_read readable path s = Ret (Some (length (h_fds s))) (set_h_fds (h_fds s ++ [(path, 0)]) s).
Proof. intros Hd Hr. unfold open_read, exists_. mrun. by rewrite Hd, Hr. Qed.
Lemma open_write_run s path : h_dir s = true -> writable path = true ->
  open_write writable path s = Ret (Some (length (h_fds s))) (set_h_fds (h_fds s ++ [(path, 0)]) (set_h_files (<[path := []]> (h_files s)) s)).
Proof. intros Hd Hw. unfold open_write. mrun. by rewrite Hd, Hw. Qed.
Definition dir_prefix (pre : list Z) : Prop := pre = [] \/ exists p, pre = p ++ [47].

(** C24: Q1 reverses. For a readable file of fewer than 2^31 * 1000 bytes that is not its own
    output, with a name that fits, the program returns 0, and the host's files are as
    before except that [Assignment/<name>], whatever it was, holds the bytes of the input in
    reverse order. *)
Theorem q1_reverses s pre b d : dir_prefix pre -> 47 ∉ b ->
  let inp := pre ++ b in
  let out := FOLDER ++ [47] ++ b in
  h_files s !! inp = Some d -> zlen d < 2 ^ 31 * 1000 -> readable inp = true -> writable out = true ->
  h_dir s || mkdir_ok = true -> zlen out < fileNameSizeLimit -> inp <> out ->
  wp (q1_main readable writable mkdir_ok junk [inp]) (fun r s' => r = 0 /\ h_files s' = <[out := rev d]> (h_files s)) s.
Proof.
  intros Hp Hb inp out Hd _ Hr Hw Hdir Hlen Hne. apply wp_run. unfold q1_main.
  set (s1 := Host (h_files s) true (h_fds s) (h_tty s)).
  assert (E1 : make_folder mkdir_ok s = Ret tt s1).
  { unfold make_folder. mrun. unfold s1. destruct s as [f [|] fd ty], mkdir_ok; cbn in *; done. }
  erewrite bind_eq by exact E1. assert (Eb : basename inp = b) by (by apply basename_spec). cbv zeta. rewrite Eb.
  assert (Hb4 : zlen b < fileNameSizeLimit) by (unfold out, zlen in *; rewrite !length_app in Hlen; lia).
  rewrite (proj2 (Z.ltb_lt _ _)) by done. cbn [negb].
  erewrite bind_eq by (unfold out_name; fold out; rewrite (proj2 (Z.ltb_lt _ _)) by done; reflexivity).
  unfold reverse_to. erewrite bind_eq by (apply (open_read_run s1 inp d); done). cbv iota. mrun.
  assert (Ec : contents inp (set_h_fds (h_fds s1 ++ [(inp, 0)]) s1) = d) by (unfold contents; cbn; by rewrite Hd). rewrite Ec.
  erewrite bind_eq by (apply open_write_run; done). cbv iota.
  destruct (reverse_file_run (h_files s) true (h_fds s) inp out d (h_tty s) Hne Hd) as (s' & E & Hf & _).
  cbn [set_h_fds set_h_files h_fds h_files h_dir h_tty s1]. rewrite length_app. cbn [length]. rewrite Nat.add_1_r, <-app_assoc.
  erewrite bind_eq by exact E. exists 0, s'. done.
Qed.

(** ** Q2 *)

Lemma rev_segment (l : list Z) a c : 0 <= a -> 0 <= c -> a + c <= zlen l ->
  take (Z.to_nat c) (drop (Z.to_nat (zlen l - (a + c))) (rev l)) = rev (take (Z.to_nat c) (drop (Z.to_nat a) l)).
Proof.
  intros Ha Hc Hle. pose proof (zlen_rev l) as Hr.
  assert (H1 : zlen (take (Z.to_nat c) (drop (Z.to_nat (zlen l - (a + c))) (rev l))) = c) by (rewrite zlen_take; rewrite ?zlen_drop; lia).
  assert (H2 : zlen (take (Z.to_nat c) (drop (Z.to_nat a) l)) = c) by (rewrite zlen_take; rewrite ?zlen_drop; lia).
  apply znth_eq; [unfold zlen in *; rewrite length_rev; lia|]. intros i Hi. rewrite znth_rev, H2 by lia.
  rewrite !znth_take, !znth_drop, znth_rev by lia. f_equal. lia.
Qed.

Section Compare.
Variables (files : gmap (list Z) (list Z)) (dir : bool) (fds : list (list Z * Z)) (new old d1 d2 : list Z) (m steps : Z).
Hypothesis Hd1 : files !! new = Some d1.
Hypothesis Hd2 : files !! old = Some d2.
Hypothesis Hl : zlen d1 = zlen d2.
Hypothesis Hm : 1 <= m.
Hypothesis Hsteps : 0 <= steps /\ steps * m <= zlen d1.
Let n : Z := zlen d1.

Lemma d1_eq : default [] (files !! new) = d1.
Proof. by rewrite Hd1. Qed.
Lemma d2_eq : default [] (files !! old) = d2.
Proof. by rewrite Hd2. Qed.
(** One comparison, of [c] bytes. *)
Lemma compare_piece b c o1 t buf1 buf2 : 0 <= b -> 0 <= c -> b + c <= n -> o1 = n - (b + c) -> zlen buf1 = m -> zlen buf2 = m -> c <= m ->
  exists x1 x2, read (length fds) buf1 c (two files dir fds new o1 old b t) = Ret x1 (two files dir fds new (o1 + c) old b t) /\
    read (S (length fds)) buf2 c (two files dir fds new (o1 + c) old b t) = Ret x2 (two files dir fds new (o1 + c) old (b + c) t) /\
    zlen x1 = m /\ zlen x2 = m /\
    (isReved x1 x2 c = true <-> take (Z.to_nat c) (drop (Z.to_nat o1) d1) = rev (take (Z.to_nat c) (drop (Z.to_nat b) d2))).
Proof.
  intros Hb Hc Hle Ho B1 B2 Hcm. destruct (two_read1 files dir fds new old o1 b t buf1 c d1 d1_eq) as [E1 L1]; [lia|lia|lia|].
  destruct (two_read2 files dir fds new old (o1 + c) b t buf2 c d2 d2_eq) as [E2 L2]; [lia|lia|unfold n in *; lia|].
  eexists _, _. split; [exact E1|]. split; [exact E2|]. set (x := take _ (drop (Z.to_nat o1) d1)) in *. set (y := take _ (drop (Z.to_nat b) d2)) in *.
  rewrite !splice_all by lia. assert (Hx : forall (z w : list Z), zlen z = c -> zlen w = m -> zlen (z ++ drop (length z) w) = m).
  { intros z w Hz Hw. unfold zlen in *. rewrite length_app, length_drop. lia. }
  split; [by apply Hx|]. split; [by apply Hx|].
  assert (Hr : isReved (x ++ drop (length x) buf1) (y ++ drop (length y) buf2) c = isReved x y c).
  { unfold isReved. apply eq_iff_eq_true. rewrite !is_rev_loop_spec. split; intros H i Hi; specialize (H i Hi);
      [rewrite !znth_appl in H by lia; done|rewrite !znth_appl by lia; done]. }
  rewrite Hr, <-L1. apply isReved_spec. lia.
Qed.
Lemma compare_steps_run k : forall i o1 t b1 b2, 0 <= i -> i + Z.of_nat k = steps -> zlen b1 = m -> zlen b2 = m -> 0 <= o1 ->
  (k <> 0%nat -> o1 = n - (i + 1) * m) -> drop (Z.to_nat (n - i * m)) d1 = rev (take (Z.to_nat (i * m)) d2) ->
  exists r s', compare_steps k (length fds) (S (length fds)) m b1 b2 (two files dir fds new o1 old (i * m) t) = Ret r s' /\
    match r with
    | None => d1 <> rev d2 /\ h_files s' = files
    | Some (x1, x2) => zlen x1 = m /\ zlen x2 = m /\ drop (Z.to_nat (n - steps * m)) d1 = rev (take (Z.to_nat (steps * m)) d2) /\
        exists o1', 0 <= o1' /\ s' = two files dir fds new o1' old (steps * m) t
    end.
Proof.
  induction k as [|k IH]; intros i o1 t b1 b2 Hi Hk B1 B2 Ho Eo Hdone; cbn [compare_steps].
  - replace i with steps in * by lia. eexists (Some (b1, b2)), _. split; [done|]. split; [done|]. split; [done|]. split; [done|]. by exists o1.
  - specialize (Eo ltac:(lia)). assert (Hle : (i + 1) * m <= n) by (unfold n; nia).
    destruct (compare_piece (i * m) m o1 t b1 b2) as (x1 & x2 & E1 & E2 & L1 & L2 & Hr); [nia|lia|nia|lia|done|done|lia|].
    erewrite bind_eq by exact E1. erewrite bind_eq by exact E2. destruct (isReved x1 x2 m) eqn:Ei; cbn [negb].
    + pose proof (proj1 Hr eq_refl) as Hpiece.
      destruct (two_seek_cur files dir fds new old (o1 + m) (i * m + m) t (-2 * m)) as [r Es]. erewrite bind_eq by exact Es.
      replace (i * m + m) with ((i + 1) * m) by ring. apply IH; [lia|lia|done|done| | |].
      * destruct (Z.ltb_spec (o1 + m + -2 * m) 0); lia.
      * intros Hk0. assert ((i + 2) * m <= n) by (unfold n; nia). destruct (Z.ltb_spec (o1 + m + -2 * m) 0); lia.
      * pose proof (take_drop_split d1 (n - (i + 1) * m) (n - i * m) ltac:(lia)) as Hs. replace (n - i * m - (n - (i + 1) * m)) with m in Hs by ring.
        rewrite <-Eo in Hs at 2. rewrite Hs, Hpiece, Hdone, <-rev_app_distr. f_equal.
        replace (Z.to_nat ((i + 1) * m)) with (Z.to_nat (i * m) + Z.to_nat m)%nat by nia. by rewrite <-take_take_drop.
    + eexists None, _. split; [done|]. split; [|done]. intros E. enough (false = true) by done. apply Hr.
      rewrite E, Eo. replace (n - (i + 1) * m) with (zlen d2 - (i * m + m)) by (unfold n; lia). apply rev_segment; unfold n in *; nia.
Qed.
End Compare.

Lemma compare_step_ok k : 1 <= compare_step k <= 1000000 /\ (k < 0 -> compare_step k = 1).
Proof. unfold compare_step. lia. Qed.

(** From the two descriptors on. *)
Lemma reversed_opened s new old d1 d2 : h_files s !! new = Some d1 -> h_files s !! old = Some d2 -> readable new = true -> readable old = true ->
  zlen d1 = zlen d2 -> zlen d1 < 2 ^ 31 ->
  exists r s', reversed readable junk new old s = Ret r s' /\ r = (if bool_decide (d1 = rev d2) then 1 else 0) /\ h_files s' = h_files s.
Proof.
  intros Hd1 Hd2 Hr1 Hr2 Hl Hn. set (n := zlen d1) in *. assert (H0 : 0 <= n) by (unfold n, zlen; lia).
  set (s2 := two (h_files s) (h_dir s) (h_fds s) new 0 old 0 (h_tty s)).
  unfold reversed. erewrite bind_eq by (by apply (open_read_run s new d1)). cbv iota.
  erewrite bind_eq by (by apply (open_read_run _ old d2)). cbv iota.
  cbn [set_h_fds h_fds h_files h_dir h_tty]. rewrite <-app_assoc, length_app. cbn [length app]. rewrite Nat.add_1_r.
  change (set_h_fds (h_fds s ++ [(new, 0); (old, 0)]) (set_h_fds (h_fds s ++ [(new, 0)]) s)) with s2.
  mrun. assert (C1 : contents new s2 = d1) by (unfold contents; cbn; by rewrite Hd1). assert (C2 : contents old s2 = d2) by (unfold contents; cbn; by rewrite Hd2).
  rewrite C1, C2, <-Hl, Z.eqb_refl. cbn [negb]. fold n. rewrite s32_small by lia. cbv zeta. set (m := compare_step n).
  assert (Hm : 1 <= m <= 1000000) by apply compare_step_ok. rewrite Z.quot_div_nonneg by lia. set (steps := n / m).
  assert (Hst : 0 <= steps /\ steps * m <= n /\ 0 <= n - steps * m < m).
  { pose proof (Z.div_mod n m ltac:(lia)). pose proof (Z.mod_pos_bound n m ltac:(lia)). pose proof (Z.div_pos n m ltac:(lia) ltac:(lia)). unfold steps. lia. }
  unfold s2. destruct (two_seek_end (h_files s) (h_dir s) (h_fds s) new old 0 0 (h_tty s) (- m) d1) as [r0 E]; [by rewrite Hd1|].
  erewrite bind_eq by exact E. fold n. set (o1 := if n + - m <? 0 then 0 else n + - m).
  destruct (compare_steps_run (h_files s) (h_dir s) (h_fds s) new old d1 d2 m steps Hd1 Hd2 Hl ltac:(lia) ltac:(unfold n in *; lia) (Z.to_nat steps) 0 o1 (h_tty s)
    (junk (Z.to_nat m)) (junk (Z.to_nat m))) as (r & s3 & E3 & Hr); fold n.
  { lia. } { lia. } { unfold zlen. rewrite junk_len. lia. } { unfold zlen. rewrite junk_len. lia. }
  { unfold o1. destruct (Z.ltb_spec (n + - m) 0); lia. } { intros Hk. unfold o1. destruct (Z.ltb_spec (n + - m) 0); nia. }
  { rewrite Z.mul_0_l, Z.sub_0_r, drop_ge by (unfold n, zlen; lia). done. }
  rewrite Z.mul_0_l in E3. erewrite bind_eq by exact E3. destruct r as [[x1 x2]|]; cbv iota.
  2:{ destruct Hr as [Hr Hf]. exists 0, s3. by rewrite bool_decide_eq_false_2. }
  destruct Hr as (L1 & L2 & Hdone & o2 & Ho2 & ->). set (left := n - steps * m) in *. rewrite s32_small by lia.
  destruct (two_seek (h_files s) (h_dir s) (h_fds s) new old o2 (steps * m) (h_tty s) 0) as [r3 E4]. erewrite bind_eq by exact E4. cbn [Z.ltb Z.compare].
  destruct (compare_piece (h_files s) (h_dir s) (h_fds s) new old d1 d2 m Hd1 Hd2 Hl (steps * m) left 0 (h_tty s) x1 x2)
    as (y1 & y2 & E5 & E6 & _ & _ & Hi); [lia|lia|unfold left, n; lia|unfold left, n; lia|done|done|lia|].
  erewrite bind_eq by exact E5. erewrite bind_eq by exact E6. change (drop (Z.to_nat 0) d1) with d1 in Hi.
  assert (Hfin : isReved y1 y2 left = true <-> d1 = rev d2).
  { rewrite Hi. split.
    - intros Hp. rewrite <-(take_drop (Z.to_nat left) d1), Hp. change (drop (Z.to_nat left) d1) with (drop (Z.to_nat (zlen d1 - steps * m)) d1). rewrite Hdone, <-rev_app_distr.
      f_equal. rewrite <-(take_drop (Z.to_nat (steps * m)) d2) at 3. f_equal. apply take_ge. unfold left, n, zlen in *. rewrite length_drop. lia.
    - intros E7. pose proof (rev_segment d2 (steps * m) left ltac:(lia) ltac:(lia) ltac:(unfold left, n; lia)) as Hs. rewrite <-E7 in Hs.
      replace (zlen d2 - (steps * m + left)) with 0 in Hs by (unfold left; lia). exact Hs. }
  destruct (isReved y1 y2 left) eqn:Ei; cbn [negb].
  - eexists 1, _. split; [done|]. by rewrite bool_decide_eq_true_2 by (by apply Hfin).
  - eexists 0, _. split; [done|]. rewrite bool_decide_eq_false_2; [done|]. intros E7. by apply Hfin in E7.
Qed.

(** C25: Q2 checks. For two readable files below 2 GB, [reversed] returns 1 exactly when the
    first holds the bytes of the second in reverse order and 0 otherwise, whatever their
    sizes; it changes no file. *)
Theorem q2_checks s new old d1 d2 : h_files s !! new = Some d1 -> h_files s !! old = Some d2 ->
  readable new = true -> readable old = true -> zlen d1 < 2 ^ 31 ->
  wp (reversed readable junk new old) (fun r s' => r = (if bool_decide (d1 = rev d2) then 1 else 0) /\ h_files s' = h_files s) s.
Proof.
  intros Hd1 Hd2 Hr1 Hr2 Hn. apply wp_run. destruct (decide (zlen d1 = zlen d2)) as [Hl|Hl]; [by apply (reversed_opened s new old d1 d2)|].
  unfold reversed. erewrite bind_eq by (by apply (open_read_run s new d1)). cbv iota. erewrite bind_eq by (by apply (open_read_run _ old d2)). cbv iota.
  mrun. set (s2 := set_h_fds _ _). assert (C1 : contents new s2 = d1) by (unfold contents; cbn; by rewrite Hd1).
  assert (C2 : contents old s2 = d2) by (unfold contents; cbn; by rewrite Hd2). rewrite C1, C2, (proj2 (Z.eqb_neq _ _)) by done. cbn [negb].
  eexists 0, s2. split; [done|]. rewrite bool_decide_eq_false_2; [done|]. intros ->. apply Hl, zlen_rev.
Qed.

(** [int fileSize] is negative for a file of 2 to 4 GB: no step is taken and the files are
    said to be reversed whatever they hold. *)
Lemma reversed_big s new old d1 d2 : h_files s !! new = Some d1 -> h_files s !! old = Some d2 ->
  readable new = true -> readable old = true -> zlen d1 = zlen d2 -> 2 ^ 31 <= zlen d1 < 2 ^ 32 ->
  exists s', reversed readable junk new old s = Ret 1 s'.
Proof.
  intros Hd1 Hd2 Hr1 Hr2 Hl Hn. unfold reversed. erewrite bind_eq by (by apply (open_read_run s new d1)). cbv iota.
  erewrite bind_eq by (by apply (open_read_run _ old d2)). cbv iota.
  cbn [set_h_fds h_fds h_files h_dir h_tty]. rewrite <-app_assoc, length_app. cbn [length app]. rewrite Nat.add_1_r.
  set (s2 := two (h_files s) (h_dir s) (h_fds s) new 0 old 0 (h_tty s)).
  change (set_h_fds (h_fds s ++ [(new, 0); (old, 0)]) (set_h_fds (h_fds s ++ [(new, 0)]) s)) with s2.
  mrun. assert (C1 : contents new s2 = d1) by (unfold contents; cbn; by rewrite Hd1). assert (C2 : contents old s2 = d2) by (unfold contents; cbn; by rewrite Hd2).
  rewrite C1, C2, <-Hl, Z.eqb_refl. cbn [negb]. cbv zeta. set (n := s32 (zlen d1)).
  assert (Hneg : n < 0) by (unfold n, s32, u32; destruct (Z.ltb_spec (zlen d1 mod 2 ^ 32) (2 ^ 31)); lia).
  rewrite (proj2 (compare_step_ok n) Hneg), Z.quot_1_r, Z.mul_1_r, Z.sub_diag. replace (Z.to_nat n) with 0%nat by lia. cbn [compare_steps].
  unfold s2. destruct (two_seek_end (h_files s) (h_dir s) (h_fds s) new old 0 0 (h_tty s) (- 1) d1) as [r0 E]; [by rewrite Hd1|].
  erewrite bind_eq by exact E. mrun. set (o1 := if _ <? 0 then _ else _).
  destruct (two_seek (h_files s) (h_dir s) (h_fds s) new old o1 0 (h_tty s) 0) as [r3 E4]. erewrite bind_eq by exact E4. cbn [Z.ltb Z.compare].
  change (s32 0) with 0. destruct (two_read1 (h_files s) (h_dir s) (h_fds s) new old 0 0 (h_tty s) (junk (Z.to_nat 1)) 0 d1) as [E5 _];
    [by rewrite Hd1|lia|lia|lia|]. erewrite bind_eq by exact E5.
  destruct (two_read2 (h_files s) (h_dir s) (h_fds s) new old (0 + 0) 0 (h_tty s) (junk (Z.to_nat 1)) 0 d2) as [E6 _];
    [by rewrite Hd2|lia|lia|lia|]. erewrite bind_eq by exact E6. by eexists.
Qed.
End Main.

(** ** A host with one file *)

Definition demo_host (d : list Z) : host := Host {[ codes "dir/f" := d ]} false [] [].
Definition zeros (k : nat) : list Z := replicate k 0.
Lemma zeros_len k : length (zeros k) = k.
Proof. apply length_replicate. Qed.
Lemma q1_reverses_witness : exists r s', q1_main (fun _ => true) (fun _ => true) true zeros [codes "dir/f"] (demo_host [1; 2; 3; 4; 5]) = Ret r s' /\
  h_files s' !! codes "Assignment/f" = Some [5; 4; 3; 2; 1].
Proof.
  pose proof (q1_reverses (fun _ => true) (fun _ => true) true zeros zeros_len (demo_host [1; 2; 3; 4; 5]) (codes "dir/") (codes "f") [1; 2; 3; 4; 5]) as H.
  destruct (proj1 (wp_run _ _ _) (H ltac:(right; exists (codes "dir"); reflexivity) ltac:(apply (bool_decide_unpack _); vm_compute; exact I) eq_refl
    eq_refl eq_refl eq_refl eq_refl eq_refl ltac:(discriminate))) as (r & s' & E & _ & Hf).
  exists r, s'. split; [exact E|]. rewrite Hf. reflexivity.
Defined.
Lemma q2_checks_witness : let s := Host (<[codes "a" := [3; 2; 1]]> {[ codes "b" := [1; 2; 3] ]}) true [] [] in
  exists r s', reversed (fun _ => true) zeros (codes "a") (codes "b") s = Ret r s' /\ r = 1.
Proof.
  intros s. destruct (proj1 (wp_run _ _ _) (q2_checks (fun _ => true) (fun _ => true) zeros zeros_len s (codes "a") (codes "b") [3; 2; 1] [1; 2; 3]
    eq_refl eq_refl eq_refl eq_refl eq_refl)) as (r & s' & E & Hr & _).
  exists r, s'. split; [exact E|]. rewrite Hr. reflexivity.
Defined.
