(* ===== verification/Umalloc.v ===== *)
(** * The user-level allocator: umalloc.c

    Kernighan and Ritchie's [malloc] and [free]: a circular list of free blocks in address
    order, threaded through their headers. Memory is the process's bytes (CString.v); an
    access outside [0, brk) is a page fault, which kills the process. *)
From S2P Require Import Prelude CString Kalloc.

(** [sizeof(Header)]: a pointer and a [uint], 4 bytes each. *)
Definition HDR : Z := 8.

Record heap := Heap {
  hp_mem : mem;
  hp_freep : Z;
  hp_brk : Z        (* the process's sz *)
}.
Definition set_hp_mem (m : mem) (h : heap) : heap := Heap m (hp_freep h) (hp_brk h).
Definition set_hp_freep (p : Z) (h : heap) : heap := Heap (hp_mem h) p (hp_brk h).
Definition set_hp_brk (b : Z) (h : heap) : heap := Heap (hp_mem h) (hp_freep h) b.

(** A word of the process's memory. *)
Definition ldw (a : Z) : M heap Z := fun h =>
  if (0 <=? a) && (a + 4 <=? hp_brk h) then Ret (ld32 (hp_mem h) a) h else Panic "page fault".
Definition stw (a v : Z) : M heap unit := fun h =>
  if (0 <=? a) && (a + 4 <=? hp_brk h) then Ret tt (set_hp_mem (st32 (hp_mem h) a v) h) else Panic "page fault".
Definition nofuel {A} : M heap A := fun _ => NoFuel.

(** [p->s.ptr], [p->s.size] and [p + n]. *)
Definition hptr (p : Z) : M heap Z := ldw p.
Definition hsize (p : Z) : M heap Z := ldw (p + 4).
Definition set_hptr (p v : Z) : M heap unit := stw p v.
Definition set_hsize (p v : Z) : M heap unit := stw (p + 4) v.
Definition padd (p n : Z) : Z := u32 (p + HDR * n).

(** A bound on the turns of a loop that visits headers at most twice. *)
Definition turns (h : heap) : nat := S (S (2 * Z.to_nat (hp_brk h / HDR))).

(** The loop of [free]: [p] runs round the list until [bp] belongs between it and its
    successor. *)
Fixpoint free_scan (fuel : nat) (bp p : Z) : M heap Z :=
  let! next := hptr p in
  if (p <? bp) && (bp <? next) then ret p
  else if (next <=? p) && ((p <? bp) || (bp <? next)) then ret p
  else match fuel with O => nofuel | S fuel' => free_scan fuel' bp next end.

(** Block [bp] joins the free block after it, or points to the next free block. *)
Definition join_next (bp p : Z) : M heap unit :=
  let! bsize := hsize bp in
  let! next := hptr p in
  if padd bp bsize =? next then
    let! nsize := hsize next in
    set_hsize bp (bsize + nsize) ;;;
    let! next := hptr p in
    let! nn := hptr next in
    set_hptr bp nn
  else set_hptr bp next.
(** The free block before it joins it, or points to it. *)
Definition join_prev (bp p : Z) : M heap unit :=
  let! psize := hsize p in
  if padd p psize =? bp then
    let! bsize := hsize bp in
    set_hsize p (psize + bsize) ;;;
    let! bnext := hptr bp in
    set_hptr p bnext
  else set_hptr p bp.
Definition free (ap : Z) : M heap unit :=
  let bp := padd ap (-1) in
  let! f := gets turns in
  let! p := gets hp_freep in
  let! p := free_scan f bp p in
  join_next bp p ;;;
  join_prev bp p ;;;
  modify (set_hp_freep p).

(** The system call: sys_sbrk and growproc with the tests of allocuvm and deallocuvm;
    [grant sz n] says whether the kernel finds the pages. What new pages hold does not
    matter here. [n] is an [int] for the kernel. *)
Definition sbrk (grant : Z -> Z -> bool) (n : Z) : M heap Z := fun h =>
  let n := s32 n in
  let sz := hp_brk h in
  let newsz := u32 (sz + n) in
  let sz' :=
    if 0 <? n then
      if KERNBASE <=? newsz then 0 else if newsz <? sz then sz else if grant sz n then newsz else 0
    else if n <? 0 then if sz <=? newsz then sz else newsz
    else sz in
  if negb (n =? 0) && (sz' =? 0) then Ret (u32 (-1)) h else Ret sz (set_hp_brk sz' h).

Section Malloc.
(** [&base], in the program's data; what the kernel answers to [sbrk]. *)
Variable base : Z.
Variable grant : Z -> Z -> bool.

Definition morecore (nu : Z) : M heap Z :=
  let nu := if nu <? 4096 then 4096 else nu in
  let! p := sbrk grant (u32 (nu * HDR)) in
  if p =? u32 (-1) then ret 0
  else
    set_hsize p nu ;;;
    free (padd p 1) ;;;
    gets hp_freep.

(** Free block [p], large enough, is unlinked or gives its tail away. *)
Definition malloc_take (nunits prevp p : Z) : M heap Z :=
  let! size := hsize p in
  let! p :=
    if size =? nunits then
      let! next := hptr p in
      set_hptr prevp next ;;; ret p
    else
      set_hsize p (size - nunits) ;;;
      let! rest := hsize p in
      let q := padd p rest in
      set_hsize q nunits ;;; ret q in
  modify (set_hp_freep prevp) ;;;
  ret (padd p 1).
(** The loop of [malloc], with the two assignments of its step at the end. *)
Fixpoint malloc_loop (fuel : nat) (nunits prevp p : Z) : M heap Z :=
  let! size := hsize p in
  if nunits <=? size then malloc_take nunits prevp p
  else
    let! freep := gets hp_freep in
    let! p' := if p =? freep then morecore nunits else ret p in
    if (p =? freep) && (p' =? 0) then ret 0
    else match fuel with
         | O => nofuel
         | S fuel' => let! next := hptr p' in malloc_loop fuel' nunits p' next
         end.

Definition units (nbytes : Z) : Z := u32 (u32 (nbytes + HDR - 1) / HDR + 1).

Definition malloc (nbytes : Z) : M heap Z :=
  let nunits := units nbytes in
  let! freep := gets hp_freep in
  let! prevp :=
    if freep =? 0 then
      set_hptr base base ;;;
      modify (set_hp_freep base) ;;;
      set_hsize base 0 ;;;
      ret base
    else ret freep in
  let! f := gets turns in
  let! p := hptr prevp in
  malloc_loop f nunits prevp p.
End Malloc.

(** A program with 4096 bytes of code and data, [base] at 4000. *)
Definition demo_heap : heap := Heap (fun _ => 0) 0 4096.
Definition always (_ _ : Z) : bool := true.
Definition runs {A} (m : M heap A) : option A := match m demo_heap with Ret a _ => Some a | _ => None end.

Example malloc_demo :
  runs (let! a := malloc 4000 always 100 in let! b := malloc 4000 always 1 in
        let! _ := free a in let! c := malloc 4000 always 104 in ret (a, b, c)) =
  Some (36760, 36744, 36760).
Proof. vm_compute. reflexivity. Qed.
(** [nbytes + sizeof(Header) - 1] wraps round: a request for 2^32 - 1 bytes is met with
    a block that has no bytes after its header. *)
Example malloc_wraps :
  runs (let! a := malloc 4000 always (2 ^ 32 - 1) in let! b := malloc 4000 always 1 in ret (a, b)) =
  Some (36864, 36848).
Proof. vm_compute. reflexivity. Qed.
