(* ===== verification/UmallocSpec.v ===== *)
(** * The allocator hands out disjoint memory

    The heap as a tiling of the memory obtained from [sbrk] by blocks, free or live;
    [malloc] and [free] against it. *)
From stdpp Require Import sorting.
From S2P Require Import Prelude CString Kalloc Umalloc.

(** ** Blocks *)

(** A block: the address of its header, its size in units, whether it is free. *)
Record block := Block { b_addr : Z; b_units : Z; b_free : bool }.
Definition b_end (b : block) : Z := b_addr b + HDR * b_units b.
Ltac hlia := unfold b_end, HDR, KERNBASE in *; cbn [b_addr b_units] in *; lia.
(** The blocks of [T] follow one another from [lo] to [hi]. *)
Fixpoint tiles (lo : Z) (T : list block) (hi : Z) : Prop :=
  match T with
  | [] => lo = hi
  | b :: T => b_addr b = lo /\ 1 <= b_units b /\ tiles (b_end b) T hi
  end.
(** No two free blocks are adjacent; [prev] tells whether the block before [T] is free. *)
Fixpoint coalesced (prev : bool) (T : list block) : Prop :=
  match T with
  | [] => True
  | b :: T => prev && b_free b = false /\ coalesced (b_free b) T
  end.
Definition last_free (prev : bool) (T : list block) : bool := from_option b_free prev (last T).
Definition frees (T : list block) : list Z := b_addr <$> filter (fun b => b_free b = true) T.
Definition live (T : list block) : list block := filter (fun b => b_free b = false) T.

Lemma tiles_app T1 : forall lo T2 hi, tiles lo (T1 ++ T2) hi <-> exists mid, tiles lo T1 mid /\ tiles mid T2 hi.
Proof.
  induction T1 as [|b T1 IH]; intros lo T2 hi; cbn [app tiles].
  - split; [intros H; by exists lo|by intros (mid & -> & H)].
  - rewrite IH. naive_solver.
Qed.
Lemma tiles_le T : forall lo hi, tiles lo T hi -> lo <= hi.
Proof. induction T as [|b T IH]; cbn [tiles]; intros lo hi; [lia|]. unfold b_end, HDR. intros (<- & H & Ht). apply IH in Ht. lia. Qed.
Lemma tiles_in T : forall lo hi b, tiles lo T hi -> b ∈ T -> lo <= b_addr b /\ 1 <= b_units b /\ b_end b <= hi.
Proof.
  induction T as [|c T IH]; intros lo hi b; cbn [tiles]; [by intros _ ?%elem_of_nil|].
  intros (<- & H & Ht) [->|Hb]%elem_of_cons.
  - pose proof (tiles_le _ _ _ Ht). lia.
  - specialize (IH _ _ _ Ht Hb). hlia.
Qed.
Lemma frees_app T1 T2 : frees (T1 ++ T2) = frees T1 ++ frees T2.
Proof. unfold frees. by rewrite filter_app, fmap_app. Qed.
Lemma frees_cons b T : frees (b :: T) = if b_free b then b_addr b :: frees T else frees T.
Proof. unfold frees. rewrite filter_cons. by destruct (b_free b). Qed.
Lemma live_app T1 T2 : live (T1 ++ T2) = live T1 ++ live T2.
Proof. apply filter_app. Qed.
Lemma live_cons b T : live (b :: T) = if b_free b then live T else b :: live T.
Proof. unfold live. rewrite filter_cons. by destruct (b_free b). Qed.
Lemma frees_in a T : a ∈ frees T -> exists b, b ∈ T /\ b_free b = true /\ b_addr b = a.
Proof. unfold frees. intros (b & -> & H)%list_elem_of_fmap. apply list_elem_of_filter in H as [H1 H2]. by exists b. Qed.
Lemma frees_bounds T lo hi a : tiles lo T hi -> a ∈ frees T -> lo <= a /\ a + HDR <= hi.
Proof. intros Ht (b & Hb & _ & <-)%frees_in. pose proof (tiles_in _ _ _ _ Ht Hb). hlia. Qed.
Lemma coalesced_app T1 : forall p T2, coalesced p (T1 ++ T2) <-> coalesced p T1 /\ coalesced (last_free p T1) T2.
Proof.
  induction T1 as [|b T1 IH]; intros p T2; cbn [app coalesced]; [unfold last_free; simpl; tauto|].
  rewrite IH. replace (last_free p (b :: T1)) with (last_free (b_free b) T1); [tauto|].
  unfold last_free. destruct T1 as [|c T1] using rev_ind; [done|]. by rewrite app_comm_cons, !last_snoc.
Qed.
Lemma coalesced_false p T : coalesced p T -> coalesced false T.
Proof. destruct T; simpl; tauto. Qed.

(** ** The free list in memory *)

(** Each node of [N] points to the next one and the last to [e]. *)
Fixpoint linked (m : mem) (N : list Z) (e : Z) : Prop :=
  match N with
  | [] => True
  | p :: N => ld32 m p = hd e N /\ linked m N e
  end.
Lemma linked_app m N1 : forall N2 e, linked m (N1 ++ N2) e <-> linked m N1 (hd e N2) /\ linked m N2 e.
Proof.
  induction N1 as [|p N1 IH]; intros N2 e; cbn [app linked]; [tauto|].
  rewrite IH. replace (hd e (N1 ++ N2)) with (hd (hd e N2) N1) by by destruct N1. tauto.
Qed.
Lemma linked_ext m m' N e : (forall p, p ∈ N -> ld32 m' p = ld32 m p) -> linked m N e -> linked m' N e.
Proof.
  revert e. induction N as [|p N IH]; intros e H; cbn [linked]; [done|]. intros [H1 H2].
  split; [rewrite H by set_solver; done|]. apply IH; [|done]. intros q Hq. apply H. set_solver.
Qed.
(** Distinct nodes have distinct successors. *)
Lemma linked_succ m N e : linked m N e -> ld32 m <$> N = tail (N ++ [e]).
Proof.
  revert e. induction N as [|p N IH]; intros e; cbn [linked]; [done|]. intros [H1 H2].
  rewrite fmap_cons, H1, (IH _ H2). by destruct N.
Qed.
Lemma linked_inj m N e p q : linked m N e -> NoDup (tail N ++ [e]) -> p ∈ N -> q ∈ N ->
  ld32 m p = ld32 m q -> p = q.
Proof.
  intros HL Hn Hp Hq E. apply linked_succ in HL. destruct N as [|x N]; [by apply elem_of_nil in Hp|].
  change (tail ((x :: N) ++ [e])) with (N ++ [e]) in HL. cbn [tail] in Hn.
  apply list_elem_of_lookup in Hp as [i Hi], Hq as [j Hj].
  assert (i = j) as ->; [|congruence]. eapply NoDup_lookup; [exact Hn|..]; rewrite <-HL, list_lookup_fmap.
  - by rewrite Hi.
  - rewrite Hj. simpl. by rewrite E.
Qed.

(** ** Running the accesses *)
Definition mapped (h : heap) (p : Z) : Prop := 0 <= p /\ p + HDR <= hp_brk h.
Section Run.
Context {A : Type}.
Implicit Types k : Z -> M heap A.
Lemma run_hptr p k h : mapped h p -> bind (hptr p) k h = k (ld32 (hp_mem h) p) h.
Proof. unfold mapped, HDR. intros H. apply bind_eq. unfold hptr, ldw. by rewrite !(proj2 (Z.leb_le _ _)) by lia. Qed.
Lemma run_hsize p k h : mapped h p -> bind (hsize p) k h = k (ld32 (hp_mem h) (p + 4)) h.
Proof. unfold mapped, HDR. intros H. apply bind_eq. unfold hsize, ldw. by rewrite !(proj2 (Z.leb_le _ _)) by lia. Qed.
Lemma set_hptr_eq p v h : mapped h p -> set_hptr p v h = Ret tt (set_hp_mem (st32 (hp_mem h) p v) h).
Proof. unfold mapped, HDR. intros H. unfold set_hptr, stw. by rewrite !(proj2 (Z.leb_le _ _)) by lia. Qed.
Lemma set_hsize_eq p v h : mapped h p -> set_hsize p v h = Ret tt (set_hp_mem (st32 (hp_mem h) (p + 4) v) h).
Proof. unfold mapped, HDR. intros H. unfold set_hsize, stw. by rewrite !(proj2 (Z.leb_le _ _)) by lia. Qed.
Lemma run_set_hptr p v (k : unit -> M heap A) h : mapped h p ->
  bind (set_hptr p v) k h = k tt (set_hp_mem (st32 (hp_mem h) p v) h).
Proof. intros H. apply bind_eq. by apply set_hptr_eq. Qed.
Lemma run_set_hsize p v (k : unit -> M heap A) h : mapped h p ->
  bind (set_hsize p v) k h = k tt (set_hp_mem (st32 (hp_mem h) (p + 4) v) h).
Proof. intros H. apply bind_eq. by apply set_hsize_eq. Qed.
End Run.
Lemma padd_small p n : 0 <= p + HDR * n < 2 ^ 32 -> padd p n = p + HDR * n.
Proof. apply u32_small. Qed.

(** ** The place of a block in the free list *)
Section Scan.
Variables (base bp : Z) (h : heap).
Hypothesis base_lt : base < bp.

(** From a node below [bp]. *)
Lemma free_scan_up N2 : Forall (fun q => bp < q) N2 -> forall N1 fuel p,
  linked (hp_mem h) (p :: N1 ++ N2) base -> Forall (mapped h) (p :: N1) -> StronglySorted Z.lt (p :: N1) ->
  Forall (fun q => base <= q < bp) (p :: N1) -> (length N1 <= fuel)%nat ->
  free_scan fuel bp p h = Ret (List.last (p :: N1) 0) h.
Proof.
  intros H2. induction N1 as [|q N1 IH]; intros fuel p [E HL] HM HS HF Hf;
    apply Forall_cons in HM as [Hm HM]; apply Forall_cons in HF as [Hp HF].
  - destruct fuel as [|fuel]; cbn [free_scan]; rewrite run_hptr, E by done; cbn [app hd];
      (destruct N2 as [|q N2]; cbn [hd];
       [destruct (Z.ltb_spec bp base); [lia|]; rewrite andb_false_r, orb_false_r, (proj2 (Z.leb_le _ _)), (proj2 (Z.ltb_lt _ _)) by lia; done
       |apply Forall_cons in H2 as [? _]; rewrite !(proj2 (Z.ltb_lt _ _)) by lia; done]).
  - apply StronglySorted_inv in HS as [HS HS']. apply Forall_cons in HS' as [Hpq _].
    pose proof HF as HF'. apply Forall_cons in HF' as [Hq _].
    destruct fuel as [|fuel]; cbn [free_scan length] in *; [lia|]. rewrite run_hptr, E by done. cbn [app hd].
    rewrite (proj2 (Z.ltb_ge bp q)), (proj2 (Z.leb_gt q p)), andb_false_r by lia. cbn [andb].
    change (List.last (p :: q :: N1) 0) with (List.last (q :: N1) 0).
    apply IH; [exact HL|done..|lia].
Qed.
(** From a node above it. *)
Lemma free_scan_down N1 N2 : linked (hp_mem h) ((base :: N1) ++ N2) base ->
  Forall (mapped h) (base :: N1) -> StronglySorted Z.lt (base :: N1) ->
  Forall (fun q => base <= q < bp) (base :: N1) -> Forall (fun q => bp < q) N2 ->
  forall N fuel p N0, N2 = N0 ++ p :: N -> Forall (mapped h) (p :: N) -> StronglySorted Z.lt (p :: N) ->
    (length N + S (length N1) <= fuel)%nat -> free_scan fuel bp p h = Ret (List.last (base :: N1) 0) h.
Proof.
  intros HL HM1 HS1 H1 H2. assert (HL2 : linked (hp_mem h) N2 base).
  { rewrite linked_app in HL. tauto. }
  induction N as [|q N IH]; intros fuel p N0 E HM HS Hf; subst N2; rewrite linked_app in HL2; destruct HL2 as [_ [E HL2]];
    apply Forall_cons in HM as [Hm HM]; pose proof H2 as [_ [Hp HN]%Forall_cons]%Forall_app.
  all: destruct fuel as [|fuel]; cbn [free_scan length] in *; [lia|]; rewrite run_hptr, E by done; cbn [hd];
    rewrite (proj2 (Z.ltb_ge p bp)) by lia; cbn [andb orb].
  - rewrite (proj2 (Z.ltb_ge bp base)), andb_false_r by lia.
    by eapply free_scan_up; [exact H2|exact HL|done..|lia].
  - apply StronglySorted_inv in HS as [HS HS']. apply Forall_cons in HS' as [Hpq _].
    rewrite (proj2 (Z.leb_gt q p)) by lia. cbn [andb].
    apply IH with (N0 := N0 ++ [p]); [by rewrite <-(assoc_L (++))|done..|lia].
Qed.
Lemma free_scan_ok N1 N2 fuel p : linked (hp_mem h) (base :: N1 ++ N2) base ->
  Forall (mapped h) (base :: N1 ++ N2) -> StronglySorted Z.lt (base :: N1 ++ N2) ->
  Forall (fun q => q < bp) N1 -> Forall (fun q => bp < q) N2 -> p ∈ base :: N1 ++ N2 ->
  (S (length N1 + length N2) <= fuel)%nat -> free_scan fuel bp p h = Ret (List.last (base :: N1) 0) h.
Proof.
  intros HL HM HS H1 H2 Hp Hf. rewrite app_comm_cons in *.
  assert (HS1 : StronglySorted Z.lt (base :: N1)) by (eapply StronglySorted_app_1_l; exact HS).
  assert (HS2 : StronglySorted Z.lt N2) by (eapply StronglySorted_app_1_r; exact HS).
  apply Forall_app in HM as [HM1 HM2].
  assert (HB : Forall (fun q => base <= q < bp) (base :: N1)).
  { apply Forall_cons. split; [lia|]. apply StronglySorted_inv in HS1 as [_ HS1]. rewrite Forall_forall in *.
    intros q Hq. specialize (HS1 q Hq). specialize (H1 q Hq). lia. }
  apply elem_of_app in Hp as [Hp|Hp]; apply list_elem_of_split in Hp as (L1 & L2 & E).
  - rewrite E. transitivity (Ret (S := heap) (List.last (p :: L2) 0) h).
    + eapply free_scan_up; [exact H2|..].
      * rewrite E, <-(assoc_L (++)), linked_app in HL. apply HL.
      * rewrite E in HM1. by apply Forall_app in HM1 as [_ ?].
      * rewrite E in HS1. by apply StronglySorted_app_1_r in HS1.
      * rewrite E in HB. by apply Forall_app in HB as [_ ?].
      * apply (f_equal length) in E. rewrite length_app in E. simpl in E. lia.
    + f_equal. clear. induction L1 as [|x L1 IH]; [done|]. rewrite IH. cbn [app]. by destruct L1.
  - eapply free_scan_down; [exact HL|done..|exact E| | |].
    + rewrite E in HM2. by apply Forall_app in HM2 as [_ ?].
    + rewrite E in HS2. by apply StronglySorted_app_1_r in HS2.
    + apply (f_equal length) in E. rewrite length_app in E. simpl in E. lia.
Qed.
End Scan.

(** ** The invariant *)
Section Alloc.
(** [&base] lies below the first byte obtained from [sbrk]. *)
Variables base lo : Z.
Hypothesis base_ok : 0 < base /\ base + HDR <= lo.

Definition nodes (T : list block) : list Z := base :: frees T.
Definition sized (m : mem) (T : list block) : Prop := forall b, b ∈ T -> ld32 m (b_addr b + 4) = b_units b.
(** The headers describe the blocks [T]. *)
Record rep (m : mem) (T : list block) : Prop := {
  rp_link : linked m (nodes T) base;
  rp_base : ld32 m (base + 4) = 0;
  rp_size : sized m T
}.
Record heap_ok (T : list block) (h : heap) : Prop := {
  ok_tiles : tiles lo T (hp_brk h);
  ok_coal : coalesced false T;
  ok_brk : hp_brk h < KERNBASE;
  ok_rep : (hp_freep h = 0 /\ T = []) \/ (hp_freep h ∈ nodes T /\ rep (hp_mem h) T)
}.

Lemma nodes_sorted T hi : tiles lo T hi -> StronglySorted Z.lt (nodes T).
Proof.
  intros Ht. assert (H : forall T lo, tiles lo T hi -> StronglySorted Z.lt (frees T)).
  { clear. induction T as [|b T IH]; intros lo; cbn [tiles]; [constructor|]. intros (<- & Hb & Ht). rewrite frees_cons.
    destruct (b_free b); [|by eapply IH]. constructor; [by eapply IH|]. apply Forall_forall. intros a Ha.
    pose proof (frees_bounds _ _ _ _ Ht Ha). hlia. }
  constructor; [by eapply H|]. apply Forall_forall. intros a Ha. pose proof (frees_bounds _ _ _ _ Ht Ha). hlia.
Qed.
Lemma nodes_nodup T hi : tiles lo T hi -> NoDup (nodes T).
Proof.
  intros Ht. pose proof (nodes_sorted _ _ Ht) as HS. induction HS as [|a l _ IH HF]; constructor; [|done].
  intros Ha. rewrite Forall_forall in HF. specialize (HF _ Ha). lia.
Qed.
Lemma nodes_mapped T h : tiles lo T (hp_brk h) -> Forall (mapped h) (nodes T).
Proof.
  intros Ht. pose proof (tiles_le _ _ _ Ht). apply Forall_forall. intros a [->|Ha]%elem_of_cons.
  - unfold mapped. lia.
  - pose proof (frees_bounds _ _ _ _ Ht Ha). unfold mapped in *. hlia.
Qed.
Lemma block_mapped T h b lo' : tiles lo' T (hp_brk h) -> 0 <= lo' -> b ∈ T -> mapped h (b_addr b).
Proof. intros Ht Hlo Hb. pose proof (tiles_in _ _ _ _ Ht Hb). unfold mapped in *. hlia. Qed.
Lemma frees_length T : forall lo hi, tiles lo T hi -> HDR * Z.of_nat (length (frees T)) <= hi - lo.
Proof.
  induction T as [|b T IH]; intros lo' hi; cbn [tiles]; [simpl; unfold HDR; lia|]. intros (<- & Hb & Ht).
  specialize (IH _ _ Ht). rewrite frees_cons. unfold b_end, HDR in *. destruct (b_free b); cbn [length]; lia.
Qed.
Lemma turns_enough T h : tiles lo T (hp_brk h) -> (2 * length (nodes T) <= turns h)%nat.
Proof.
  intros Ht. pose proof (frees_length _ _ _ Ht). unfold turns, nodes, HDR in *. cbn [length].
  assert (Z.of_nat (length (frees T)) <= hp_brk h / 8); [|lia].
  apply Z.div_le_lower_bound; lia.
Qed.

(** Where a block's neighbours in the free list are. *)
Lemma split_nodes T1 b T2 hi : tiles lo (T1 ++ b :: T2) hi ->
  Forall (fun q => base < q < b_addr b) (frees T1) /\ Forall (fun q => b_addr b < q) (frees T2) /\
  lo <= b_addr b /\ 1 <= b_units b /\ b_end b <= hi.
Proof.
  intros (mid & H1 & (<- & Hb & H2))%tiles_app. pose proof (tiles_le _ _ _ H1). pose proof (tiles_le _ _ _ H2).
  split; [|split; [|lia]]; apply Forall_forall; intros q Hq.
  - pose proof (frees_bounds _ _ _ _ H1 Hq). hlia.
  - pose proof (frees_bounds _ _ _ _ H2 Hq). hlia.
Qed.
(** The block after [b] starts where [b] ends: it is free exactly when the free list goes
    on there. *)
Lemma next_adjacent b T2 lo' hi : tiles lo' (b :: T2) hi -> base < lo' ->
  b_end b = hd base (frees T2) <-> exists c T3, T2 = c :: T3 /\ b_free c = true.
Proof.
  cbn [tiles]. intros (<- & Hb & H2) Hlo. destruct T2 as [|c T3].
  - unfold frees. simpl. split; [|by intros (? & ? & [=] & _)]. unfold b_end, HDR. lia.
  - cbn [tiles] in H2. destruct H2 as (Hc & Hc1 & H3). rewrite frees_cons. destruct (b_free c) eqn:Hf.
    + split; [intros _; by exists c, T3|done].
    + split; [|by intros (? & ? & [= <- <-] & ?); congruence]. intros E. exfalso.
      destruct (frees T3) as [|y l] eqn:El; cbn [hd] in E; [hlia|].
      assert (Hy : y ∈ frees T3) by (rewrite El; by left). pose proof (frees_bounds _ _ _ _ H3 Hy). hlia.
Qed.
Lemma last_app_ne {A} (l1 l2 : list A) d : l2 <> [] -> List.last (l1 ++ l2) d = List.last l2 d.
Proof. intros H. destruct (exists_last H) as (l & x & ->). by rewrite (assoc_L (++)), !List.last_last. Qed.
(** The free list node before [b], and whether [b] starts where its block ends. *)
Lemma prev_adjacent m T1 lo' hi : tiles lo' T1 hi -> base + HDR <= lo' -> ld32 m (base + 4) = 0 -> sized m T1 ->
  let x := List.last (nodes T1) 0 in
  (last_free false T1 = true -> exists T0 c, T1 = T0 ++ [c] /\ b_free c = true /\ x = b_addr c) /\
  (last_free false T1 = false -> 0 <= ld32 m (x + 4) /\ x + HDR * ld32 m (x + 4) < hi).
Proof.
  intros Ht Hlo RB RS x. destruct T1 as [|c T0 _] using rev_ind.
  - split; [done|]. intros _. subst x. cbn. rewrite RB. cbn [tiles] in Ht. hlia.
  - unfold last_free. rewrite last_snoc. cbn [from_option]. split.
    + intros Hc. exists T0, c. split; [done|]. split; [done|]. subst x. unfold nodes. rewrite frees_app, frees_cons, Hc.
      change (base :: frees T0 ++ b_addr c :: frees []) with ((base :: frees T0) ++ [b_addr c]). by rewrite List.last_last.
    + intros Hc. apply tiles_app in Ht as (mid & H1 & H2). cbn [tiles] in H2. destruct H2 as (Ec & Hc1 & Ee).
      assert (Hx : x ∈ nodes T0).
      { subst x. assert (En : nodes (T0 ++ [c]) = nodes T0).
        { unfold nodes. rewrite frees_app, frees_cons, Hc. by rewrite app_nil_r. }
        rewrite En. destruct (exists_last (l := nodes T0)) as (l & z & E); [done|]. rewrite E, List.last_last. set_solver. }
      apply elem_of_cons in Hx as [->|Hx].
      * rewrite RB. pose proof (tiles_le _ _ _ H1). hlia.
      * apply frees_in in Hx as (d & Hd & _ & <-). rewrite RS by set_solver.
        pose proof (tiles_in _ _ _ _ H1 Hd) as (_ & ? & Hd'). hlia.
Qed.

(** ** Writing headers *)
(** [m'] differs from [m] in the header at [a] at most. *)
Definition header_only (a : Z) (m m' : mem) : Prop := forall y, y < a \/ a + HDR <= y -> m' y = m y.
Lemma header_word a m m' p : header_only a m m' -> p + 4 <= a \/ a + HDR <= p -> ld32 m' p = ld32 m p.
Proof. intros H Hp. unfold ld32, HDR in *. rewrite !H by (unfold HDR; lia). done. Qed.
Lemma header_refl a m : header_only a m m.
Proof. by intros y _. Qed.
Lemma header_trans a m1 m2 m3 : header_only a m1 m2 -> header_only a m2 m3 -> header_only a m1 m3.
Proof. intros H1 H2 y Hy. by rewrite H2, H1. Qed.
Lemma header_ptr a v m : header_only a m (st32 m a v).
Proof. intros y Hy. unfold HDR in *. apply st32_other. lia. Qed.
Lemma header_size a v m : header_only a m (st32 m (a + 4) v).
Proof. intros y Hy. unfold HDR in *. apply st32_other. lia. Qed.
Lemma sized_header a m m' lo' T hi : header_only a m m' -> tiles lo' T hi -> a + HDR <= lo' \/ hi <= a ->
  sized m T -> sized m' T.
Proof.
  intros Hh Ht Ha Hs b Hb. pose proof (tiles_in _ _ _ _ Ht Hb). rewrite <-(Hs b Hb). unfold b_end, HDR in *.
  apply (header_word a); [done|]. unfold HDR. lia.
Qed.
Lemma linked_header a m m' lo' T hi e : header_only a m m' -> tiles lo' T hi -> a + HDR <= lo' \/ hi <= a ->
  linked m (frees T) e -> linked m' (frees T) e.
Proof.
  intros Hh Ht Ha. apply linked_ext. intros p Hp. pose proof (frees_bounds _ _ _ _ Ht Hp). unfold HDR in *.
  apply (header_word a); [done|]. unfold HDR. lia.
Qed.

Lemma next_small T lo' hi : tiles lo' T hi -> lo <= lo' -> hi < KERNBASE -> u32 (hd base (frees T)) = hd base (frees T).
Proof.
  intros Ht Hlo Hk. pose proof base_ok. pose proof (tiles_le _ _ _ Ht). apply u32_small. unfold KERNBASE, HDR in *.
  destruct (frees T) as [|y l] eqn:El; cbn [hd]; [lia|].
  assert (Hy : y ∈ frees T) by (rewrite El; by left). pose proof (frees_bounds _ _ _ _ Ht Hy). hlia.
Qed.
(** Writing a block's two header words, with the successor the free list has there. *)
Lemma write_head m m' b T hi : tiles (b_addr b) (b :: T) hi -> lo <= b_addr b -> hi < KERNBASE ->
  header_only (b_addr b) m m' -> ld32 m' (b_addr b) = u32 (hd base (frees T)) -> ld32 m' (b_addr b + 4) = u32 (b_units b) ->
  sized m T -> linked m (frees T) base -> sized m' (b :: T) /\ linked m' (b_addr b :: frees T) base.
Proof.
  intros Ht Hlo Hk Hh Ep Es Hs Hl. pose proof Ht as (_ & Hb1 & Ht2). pose proof base_ok.
  pose proof (tiles_le _ _ _ Ht2). assert (b_addr b + HDR <= b_end b) by (hlia). split.
  - intros d [->|Hd]%elem_of_cons.
    + rewrite Es. apply u32_small. hlia.
    + eapply (sized_header (b_addr b)); [exact Hh|exact Ht2|lia|done..].
  - split; [rewrite Ep; eapply next_small; [exact Ht2|hlia|done]|].
    eapply (linked_header (b_addr b)); [exact Hh|exact Ht2|lia|done].
Qed.

Lemma join_next_ok h b T2 x : tiles (b_addr b) (b :: T2) (hp_brk h) -> hp_brk h < KERNBASE -> lo <= b_addr b ->
  coalesced false T2 -> sized (hp_mem h) (b :: T2) -> linked (hp_mem h) (frees T2) base ->
  mapped h x -> x + HDR <= b_addr b -> ld32 (hp_mem h) x = hd base (frees T2) ->
  exists m' b' T2', join_next (b_addr b) x h = Ret tt (set_hp_mem m' h) /\ header_only (b_addr b) (hp_mem h) m' /\
    b_addr b' = b_addr b /\ b_free b' = true /\ b_end b <= b_end b' /\ tiles (b_addr b) (b' :: T2') (hp_brk h) /\
    coalesced true T2' /\ sized m' (b' :: T2') /\ linked m' (b_addr b :: frees T2') base /\ live T2' = live T2 /\
    (length T2' <= length T2)%nat.
Proof.
  intros Ht Hk Hlo Hc Hs Hl Hx Hxb Ex. pose proof base_ok as Hb0. pose proof Ht as (_ & Hb1 & Ht2).
  pose proof (block_mapped _ h b _ Ht ltac:(hlia) ltac:(by left)) as Hmb.
  pose proof (tiles_le _ _ _ Ht2) as Hend. assert (Hab : b_addr b + HDR <= b_end b) by (hlia).
  unfold join_next. rewrite run_hsize, run_hptr, Ex, (Hs b) by (done || by left).
  replace (padd (b_addr b) (b_units b)) with (b_end b) by (symmetry; apply padd_small; unfold mapped in *; hlia).
  pose proof (next_adjacent b T2 _ _ Ht ltac:(hlia)) as Hadj.
  assert (Hs2 : sized (hp_mem h) T2) by (intros d Hd; apply Hs; by right).
  destruct (Z.eqb_spec (b_end b) (hd base (frees T2))) as [E|E].
  - apply Hadj in E as (c & T3 & -> & Hf). cbn [tiles] in Ht2. destruct Ht2 as (Ec & Hc1 & Ht3).
    rewrite frees_cons, Hf in *. cbn [hd] in *. destruct Hl as [Ln Hl]. pose proof (tiles_le _ _ _ Ht3) as Hec.
    pose proof (block_mapped _ h c _ Ht ltac:(hlia) ltac:(set_solver)) as Hmc.
    rewrite run_hsize, (Hs c) by (done || set_solver). rewrite run_set_hsize by done.
    pose proof (header_size (b_addr b) (b_units b + b_units c) (hp_mem h)) as H1.
    set (m1 := st32 (hp_mem h) (b_addr b + 4) _) in *.
    rewrite run_hptr by done. cbn [set_hp_mem hp_mem]. rewrite (header_word _ _ _ _ H1), Ex by (hlia).
    rewrite run_hptr by done. cbn [set_hp_mem hp_mem]. rewrite (header_word _ _ _ _ H1), Ln by lia.
    rewrite set_hptr_eq by done. cbn [set_hp_mem hp_mem].
    pose proof (header_trans _ _ _ _ H1 (header_ptr (b_addr b) (hd base (frees T3)) m1)) as H2.
    set (m2 := st32 m1 (b_addr b) _) in *. set (b' := Block (b_addr b) (b_units b + b_units c) true).
    assert (Het : b_end b' = b_end c) by (unfold b', b_end, HDR in *; cbn [b_addr b_units]; lia).
    assert (Ht' : tiles (b_addr b) (b' :: T3) (hp_brk h)) by (split; [done|split; [cbn; lia|by rewrite Het]]).
    destruct (write_head (hp_mem h) m2 b' T3 _ Ht' Hlo Hk H2) as [W1 W2];
      [by unfold m2; rewrite ld32_st32_eq|unfold m2, m1; rewrite ld32_st32_ne, ld32_st32_eq by (cbn; lia); done|
       intros d Hd; apply Hs; set_solver|done|].
    exists m2, b', T3. split; [done|]. split; [done|]. split; [done|]. split; [done|].
    split; [rewrite Het; hlia|]. split; [done|].
    split; [cbn [coalesced] in Hc; rewrite Hf in Hc; tauto|]. split; [done|]. split; [done|].
    split; [by rewrite live_cons, Hf|simpl; lia].
  - rewrite set_hptr_eq by done. pose proof (header_ptr (b_addr b) (hd base (frees T2)) (hp_mem h)) as H2.
    set (m2 := st32 (hp_mem h) (b_addr b) _) in *. set (b' := Block (b_addr b) (b_units b) true).
    destruct (write_head (hp_mem h) m2 b' T2 _ Ht Hlo Hk H2) as [W1 W2];
      [by unfold m2; rewrite ld32_st32_eq| |done|done|].
    { unfold m2. change (b_addr b') with (b_addr b). change (b_units b') with (b_units b).
      rewrite ld32_st32_ne, Hs by first [lia|by left]. symmetry. apply u32_small. hlia. }
    exists m2, b', T2. split; [done|]. split; [done|]. split; [done|]. split; [done|]. split; [done|].
    split; [done|]. split; [|done]. destruct T2 as [|c T3]; [done|]. cbn [coalesced] in *. split; [|tauto].
    destruct (b_free c) eqn:Hf; [|done]. exfalso. apply E, Hadj. by exists c, T3.
Qed.

(** The last node of [N] is given another successor. *)
Lemma relink m m' N0 x y e : linked m (N0 ++ [x]) y -> header_only x m m' -> Forall (fun p => p + HDR <= x) N0 ->
  ld32 m' x = e -> linked m' (N0 ++ [x]) e.
Proof.
  intros HL Hh HF Ex. rewrite linked_app in *. destruct HL as [HL _]. split; [|by split].
  eapply linked_ext; [|exact HL]. intros p Hp. rewrite Forall_forall in HF. specialize (HF p Hp).
  apply (header_word _ _ _ _ Hh). hlia.
Qed.
Lemma nodes_app T1 T2 : nodes (T1 ++ T2) = nodes T1 ++ frees T2.
Proof. unfold nodes. by rewrite frees_app. Qed.
(** The last node of [T1] and those before it. *)
Lemma last_node T1 hi : tiles lo T1 hi -> exists N0, nodes T1 = N0 ++ [List.last (nodes T1) 0] /\
  Forall (fun p => p + HDR <= List.last (nodes T1) 0) N0 /\ base <= List.last (nodes T1) 0 /\
  List.last (nodes T1) 0 + HDR <= hi /\
  forall d, d ∈ T1 -> b_addr d + HDR <= List.last (nodes T1) 0 \/ List.last (nodes T1) 0 <= b_addr d.
Proof.
  intros Ht. pose proof base_ok as Hb. pose proof (tiles_le _ _ _ Ht) as Hlo.
  destruct (exists_last (l := nodes T1)) as (N0 & x & E); [done|]. rewrite E, List.last_last. exists N0. split; [done|].
  assert (Hx : x = base /\ N0 = [] \/ exists T0 c T3, T1 = T0 ++ c :: T3 /\ b_free c = true /\ b_addr c = x /\ N0 = nodes T0).
  { destruct (decide (N0 = [])) as [->|Hn].
    - unfold nodes in E. injection E as Ex _. by left.
    - right. assert (Hfr : exists F, frees T1 = F ++ [x] /\ N0 = base :: F).
      { destruct N0 as [|n N0]; [done|]. unfold nodes in E. injection E as <- E. by exists N0. }
      destruct Hfr as (F & EF & ->). clear -EF. revert F EF. induction T1 as [|c T1 IH] using rev_ind; intros F EF; [by destruct F|].
      rewrite frees_app, frees_cons in EF. destruct (b_free c) eqn:Hf.
      + apply app_inj_tail in EF as [<- <-]. by exists T1, c, [].
      + rewrite app_nil_r in EF. destruct (IH _ EF) as (T0 & d & T3 & -> & Hd & Ha & En). exists T0, d, (T3 ++ [c]).
        by rewrite <-(assoc_L (++)). }
  destruct Hx as [[-> ->]|(T0 & c & T3 & -> & Hf & <- & ->)].
  - split; [constructor|]. split; [lia|]. split; [hlia|]. intros d Hd. pose proof (tiles_in _ _ _ _ Ht Hd). hlia.
  - pose proof (tiles_in _ _ _ c Ht ltac:(set_solver)) as Hc. apply tiles_app in Ht as (mid & H0 & H3). cbn [tiles] in H3.
    destruct H3 as (Ec & Hc1 & H3). split; [|split; [hlia|split; [hlia|]]].
    + apply Forall_forall. intros p [->|Hp]%elem_of_cons; [pose proof (tiles_le _ _ _ H0); hlia|].
      pose proof (frees_bounds _ _ _ _ H0 Hp). hlia.
    + intros d [Hd|[->|Hd]%elem_of_cons]%elem_of_app; [pose proof (tiles_in _ _ _ _ H0 Hd)|lia|pose proof (tiles_in _ _ _ _ H3 Hd)]; hlia.
Qed.

Lemma join_prev_ok h T1 b T2 y : tiles lo (T1 ++ b :: T2) (hp_brk h) -> hp_brk h < KERNBASE ->
  coalesced false T1 -> coalesced true T2 -> b_free b = true ->
  linked (hp_mem h) (nodes T1) y -> ld32 (hp_mem h) (base + 4) = 0 -> sized (hp_mem h) (T1 ++ b :: T2) ->
  linked (hp_mem h) (b_addr b :: frees T2) base ->
  let x := List.last (nodes T1) 0 in
  exists m' T', join_prev (b_addr b) x h = Ret tt (set_hp_mem m' h) /\ header_only x (hp_mem h) m' /\
    tiles lo T' (hp_brk h) /\ coalesced false T' /\ rep m' T' /\ live T' = live T1 ++ live T2 /\ x ∈ nodes T' /\
    (length T' <= length (T1 ++ b :: T2))%nat /\ exists c, c ∈ T' /\ b_free c = true /\ b_addr c <= b_addr b /\ b_end b <= b_end c.
Proof.
  intros Ht Hk Hc1 Hc2 Hf HL RB HS HL2 x. pose proof base_ok as Hb0.
  assert (HS1 : sized (hp_mem h) T1) by (intros d Hd; apply HS; set_solver).
  assert (HS2 : sized (hp_mem h) T2) by (intros d Hd; apply HS; set_solver).
  pose proof Ht as (mid & H1 & H2)%tiles_app. pose proof H2 as (Eb & Hb1 & H3). pose proof (tiles_le _ _ _ H3) as Hhi.
  destruct (last_node T1 mid H1) as (N0 & EN & FN & Hbx & Hxm & Hsep). fold x in EN, FN, Hbx, Hxm, Hsep.
  destruct (prev_adjacent (hp_mem h) T1 lo mid H1 ltac:(lia) RB HS1) as [Pt Pf]. fold x in Pt, Pf.
  assert (Hmx : mapped h x) by (unfold mapped; hlia). unfold join_prev. rewrite run_hsize by done.
  assert (Hxs : base = x \/ base + HDR <= x) by (destruct N0 as [|n N0]; [injection EN; auto|
    injection EN as <- _; apply Forall_cons in FN as [? _]; auto]).
  destruct (last_free false T1) eqn:Hl.
  - destruct (Pt eq_refl) as (T0 & c & -> & Hfc & Exc). clear Pt Pf.
    rewrite Exc, (HS1 c) by set_solver. pose proof H1 as (m0 & H0 & (Ec & Hu & Ecm))%tiles_app. cbn in Ecm.
    pose proof (tiles_le _ _ _ H0) as Hlo0.
    replace (padd (b_addr c) (b_units c)) with (b_addr b) by (symmetry; unfold padd; rewrite u32_small; hlia).
    rewrite Z.eqb_refl, run_hsize, (HS b) by (set_solver || (unfold mapped; hlia)). rewrite run_set_hsize by (by rewrite <-Exc).
    pose proof (header_size (b_addr c) (b_units c + b_units b) (hp_mem h)) as Hh1.
    set (m1 := st32 (hp_mem h) (b_addr c + 4) _) in *. rewrite run_hptr by (unfold mapped; cbn; hlia).
    cbn [set_hp_mem hp_mem]. rewrite (header_word _ _ _ _ Hh1), (proj1 HL2) by hlia.
    rewrite set_hptr_eq by (by rewrite <-Exc). cbn [set_hp_mem hp_mem].
    pose proof (header_trans _ _ _ _ Hh1 (header_ptr (b_addr c) (hd base (frees T2)) m1)) as Hh2.
    set (m2 := st32 m1 (b_addr c) _) in *. set (c' := Block (b_addr c) (b_units c + b_units b) true).
    assert (Ee : b_end c' = b_end b) by (unfold c'; hlia).
    assert (Htc : tiles (b_addr c') (c' :: T2) (hp_brk h)) by (split; [done|split; [cbn; lia|by rewrite Ee]]).
    destruct (write_head (hp_mem h) m2 c' T2 _ Htc ltac:(unfold c'; hlia) Hk Hh2) as [W1 W2];
      [by unfold m2; rewrite ld32_st32_eq|unfold m2, m1; rewrite ld32_st32_ne, ld32_st32_eq by (cbn; lia); done|done|apply HL2|].
    exists m2, (T0 ++ c' :: T2). split; [done|]. split; [done|].
    assert (EN' : N0 = nodes T0).
    { rewrite nodes_app, frees_cons, Hfc, Exc in EN. by apply app_inj_tail in EN as [-> _]. }
    rewrite coalesced_app in Hc1. destruct Hc1 as [Hc0 [Hc1 _]].
    split; [|split; [|split; [split|split; [|split]]]].
    + apply tiles_app. exists m0. split; [done|]. rewrite <-Ec. done.
    + rewrite coalesced_app. split; [done|]. split; [by rewrite Hfc in Hc1|done].
    + rewrite nodes_app, frees_cons. cbn [c' b_free]. rewrite linked_app. split; [|done]. cbn [hd].
      rewrite nodes_app, frees_cons, Hfc, linked_app in HL. eapply linked_ext; [|apply HL]. intros p Hp.
      rewrite EN', Forall_forall in FN. specialize (FN p Hp). apply (header_word _ _ _ _ Hh2). rewrite <-Exc. hlia.
    + rewrite (header_word _ _ _ _ Hh2); [done|]. rewrite <-Exc. hlia.
    + intros d [Hd|Hd]%elem_of_app; [|by apply W1]. eapply (sized_header (b_addr c)); [exact Hh2|exact H0|hlia| |done].
      intros d' Hd'. apply HS1. set_solver.
    + rewrite !live_app, !live_cons, Hfc. cbn [c' b_free]. by rewrite app_nil_r.
    + rewrite nodes_app, frees_cons. cbn [c' b_free]. set_solver.
    + split; [rewrite !length_app; simpl; lia|]. exists c'. split; [set_solver|]. split; [done|]. split; [unfold c'; hlia|]. rewrite Ee. lia.
  - specialize (Pf eq_refl). clear Pt. rewrite (proj2 (Z.eqb_neq _ _)) by (unfold padd; rewrite u32_small; hlia).
    rewrite set_hptr_eq by done. pose proof (header_ptr x (b_addr b) (hp_mem h)) as Hh.
    assert (Hsz : forall p, p + 4 <= x \/ x + 4 <= p -> ld32 (st32 (hp_mem h) x (b_addr b)) p = ld32 (hp_mem h) p)
      by (intros p Hp; apply ld32_st32_ne; lia).
    assert (Ex : ld32 (st32 (hp_mem h) x (b_addr b)) x = b_addr b) by (rewrite ld32_st32_eq; apply u32_small; hlia).
    set (m2 := st32 (hp_mem h) x _) in *. exists m2, (T1 ++ b :: T2). split; [done|]. split; [done|]. split; [done|].
    split; [|split; [split|split; [|split]]].
    + rewrite coalesced_app, Hl. split; [done|]. cbn [coalesced]. by rewrite Hf.
    + rewrite nodes_app, frees_cons, Hf, EN, <-(assoc_L (++)), linked_app. rewrite EN in HL.
      rewrite linked_app in HL. split; [|split; [done|]].
      * eapply linked_ext; [|apply HL]. intros p Hp. apply Hsz. rewrite Forall_forall in FN. specialize (FN p Hp). hlia.
      * eapply linked_ext; [|exact HL2]. intros p [->|Hp]%elem_of_cons; apply Hsz; [hlia|].
        pose proof (frees_bounds _ _ _ _ H3 Hp). hlia.
    + rewrite Hsz; [done|]. hlia.
    + intros d Hd. rewrite Hsz; [by apply HS|].
      apply elem_of_app in Hd as [Hd|Hd]; [destruct (Hsep d Hd); hlia|]. pose proof (tiles_in _ _ _ _ H2 Hd). hlia.
    + by rewrite live_app, live_cons, Hf.
    + rewrite nodes_app, EN. set_solver.
    + split; [done|]. exists b. split; [set_solver|]. split; [done|]. lia.
Qed.
(** What is in a live block is not in a header of the free list. *)
Lemma payload_sep T hi d p y : tiles lo T hi -> d ∈ live T -> p ∈ nodes T -> b_addr d + HDR <= y < b_end d ->
  y < p \/ p + HDR <= y.
Proof.
  intros Ht Hd Hp Hy. apply list_elem_of_filter in Hd as [Hf Hd]. apply list_elem_of_split in Hd as (L1 & L2 & ->).
  destruct (split_nodes _ _ _ _ Ht) as (F1 & F2 & Hb). pose proof base_ok. rewrite nodes_app, frees_cons, Hf in Hp.
  apply tiles_app in Ht as (mid & H1 & (<- & Hd1 & H2)).
  apply elem_of_app in Hp as [[->|Hp]%elem_of_cons|Hp]; [hlia|pose proof (frees_bounds _ _ _ _ H1 Hp)|pose proof (frees_bounds _ _ _ _ H2 Hp)]; hlia.
Qed.
Lemma live_in T b : b ∈ live T -> b ∈ T /\ b_free b = false.
Proof. intros [H1 H2]%list_elem_of_filter. done. Qed.
(** [m'] holds in the blocks [L] what [m] does. *)
Definition keeps (L : list block) (m m' : mem) : Prop :=
  forall d y, d ∈ L -> b_addr d + HDR <= y < b_end d -> m' y = m y.

Lemma free_block T1 b T2 h : heap_ok (T1 ++ b :: T2) h -> b_free b = false ->
  exists h' T', free (b_addr b + HDR) h = Ret tt h' /\ heap_ok T' h' /\ hp_brk h' = hp_brk h /\
    live T' = live T1 ++ live T2 /\ hp_freep h' ∈ nodes T' /\ keeps (live T1 ++ live T2) (hp_mem h) (hp_mem h') /\
    (length T' <= length (T1 ++ b :: T2))%nat /\ exists c, c ∈ T' /\ b_free c = true /\ b_addr c <= b_addr b /\ b_end b <= b_end c.
Proof.
  intros [Ht Hc Hk [[_ E]|[Hp [RL RB RS]]]] Hf; [by destruct T1|]. pose proof base_ok as Hb0.
  destruct (split_nodes _ _ _ _ Ht) as (F1 & F2 & Hlo & Hb1 & Hhi).
  pose proof Ht as (mid & H1 & H2)%tiles_app. pose proof H2 as (<- & _ & H3).
  pose proof (turns_enough _ _ Ht) as Hturn.
  assert (En : nodes (T1 ++ b :: T2) = base :: frees T1 ++ frees T2) by (rewrite nodes_app, frees_cons, Hf; done).
  unfold free. replace (padd (b_addr b + HDR) (-1)) with (b_addr b) by (symmetry; unfold padd; rewrite u32_small; hlia).
  mrun. unfold bind at 1. rewrite (free_scan_ok base (b_addr b) h) with (N1 := frees T1) (N2 := frees T2).
  2: hlia. 2: by rewrite <-En. 2: rewrite <-En; by apply nodes_mapped. 2: rewrite <-En; by eapply nodes_sorted.
  2: { eapply Forall_impl; [exact F1|]. cbn. intros q Hq. lia. } 2: done. 2: by rewrite <-En.
  2: { rewrite En in Hturn. cbn [length] in Hturn. rewrite length_app in Hturn. lia. }
  change (base :: frees T1) with (nodes T1). set (x := List.last (nodes T1) 0).
  destruct (last_node T1 _ H1) as (N0 & EN & _ & Hbx & Hxm & _). fold x in EN, Hbx, Hxm.
  change (base :: frees T1 ++ frees T2) with (nodes T1 ++ frees T2) in En. rewrite En, linked_app in RL.
  rewrite coalesced_app in Hc. cbn [coalesced] in Hc. rewrite Hf in Hc.
  assert (Hmx : mapped h x) by (unfold mapped; hlia).
  destruct (join_next_ok h b T2 x) as (m1 & b' & T2' & E1 & Hh1 & Ea & Hf' & He & Ht1 & Hc1 & HS1 & HL1 & Hlv & Hlen1); try tauto; try lia.
  { intros d Hd. apply RS. set_solver. }
  { rewrite EN, linked_app in RL. apply RL. }
  unfold bind at 1. rewrite E1, <-Ea.
  destruct (join_prev_ok (set_hp_mem m1 h) T1 b' T2' (hd base (frees T2))) as
    (m2 & T' & E2 & Hh2 & Ht2 & Hc2 & HR & Hlv' & Hx & Hlen2 & c & Hcin & Hcf & Hca & Hce); cbn [set_hp_mem hp_mem hp_brk]; try tauto.
  { apply tiles_app. exists (b_addr b). split; [done|]. done. }
  { eapply linked_ext; [|apply RL]. intros p Hp'. apply (header_word _ _ _ _ Hh1). unfold nodes in Hp'.
    apply elem_of_cons in Hp' as [->|Hp']; [hlia|]. pose proof (frees_bounds _ _ _ _ H1 Hp'). hlia. }
  { rewrite (header_word _ _ _ _ Hh1) by hlia. done. }
  { intros d [Hd|Hd]%elem_of_app; [|by apply HS1]. eapply (sized_header (b_addr b)); [exact Hh1|exact H1|lia| |done].
    intros d' Hd'. apply RS. set_solver. }
  { by rewrite Ea. }
  fold x in E2, Hh2, Hx. unfold bind. rewrite E2.
  eexists _, T'. split; [reflexivity|]. cbn [set_hp_mem set_hp_freep hp_mem hp_freep hp_brk].
  split; [split; [done..|by right]|]. split; [done|]. split; [by rewrite Hlv', Hlv|]. split; [done|].
  split; [|split; [rewrite length_app in *; simpl in *; lia|exists c; split; [done|split; [done|lia]]]].
  intros d y Hd Hy. assert (Hxn : x ∈ nodes (T1 ++ b :: T2)) by (rewrite En, EN; set_solver).
  rewrite Hh2, Hh1; [done| |].
  - apply elem_of_app in Hd as [Hd|Hd]; apply live_in in Hd as [Hd _];
      [pose proof (tiles_in _ _ _ _ H1 Hd)|pose proof (tiles_in _ _ _ _ H3 Hd)]; hlia.
  - eapply payload_sep; [exact Ht| |exact Hxn|exact Hy]. rewrite live_app, live_cons, Hf. set_solver.
Qed.

(** ** The search of [malloc] *)
Section Search.
Variable grant : Z -> Z -> bool.
Lemma malloc_search fp n h : hp_freep h = fp -> forall rest prev fuel, linked (hp_mem h) (prev :: rest) fp ->
  Forall (mapped h) (rest ++ [fp]) -> fp ∉ rest -> (length rest <= fuel)%nat ->
  (exists pq q, pq ∈ prev :: rest /\ q ∈ rest ++ [fp] /\ ld32 (hp_mem h) pq = q /\ n <= ld32 (hp_mem h) (q + 4) /\
     malloc_loop grant fuel n prev (hd fp rest) h = malloc_take n pq q h) \/
  ((forall q, q ∈ rest ++ [fp] -> ld32 (hp_mem h) (q + 4) < n) /\
   malloc_loop grant fuel n prev (hd fp rest) h =
     (let! p' := morecore grant n in
      if p' =? 0 then ret 0
      else match (fuel - length rest)%nat with
           | O => nofuel
           | S fuel' => let! next := hptr p' in malloc_loop grant fuel' n p' next
           end) h).
Proof.
  intros Hfp. induction rest as [|q rest IH]; intros prev fuel HL HM Hn Hf; cbn [app hd length] in *.
  - apply Forall_cons in HM as [Hm _]. destruct HL as [E _]. cbn [hd] in E.
    destruct (Z.leb_spec n (ld32 (hp_mem h) (fp + 4))) as [Hs|Hs].
    + left. exists prev, fp. split; [set_solver|]. split; [set_solver|]. split; [done|]. split; [done|].
      destruct fuel; cbn [malloc_loop]; rewrite run_hsize, (proj2 (Z.leb_le _ _)) by done; done.
    + right. split; [set_solver|]. rewrite Nat.sub_0_r.
      destruct fuel; cbn [malloc_loop]; rewrite run_hsize, (proj2 (Z.leb_gt _ _)) by done; mrun; by rewrite Hfp, Z.eqb_refl.
  - apply Forall_cons in HM as [Hm HM]. destruct HL as [E HL]. cbn [hd] in E.
    destruct (Z.leb_spec n (ld32 (hp_mem h) (q + 4))) as [Hs|Hs].
    + left. exists prev, q. split; [set_solver|]. split; [set_solver|]. split; [done|]. split; [done|].
      destruct fuel; cbn [malloc_loop]; rewrite run_hsize, (proj2 (Z.leb_le _ _)) by done; done.
    + destruct fuel as [|fuel]; [lia|].
      assert (El : malloc_loop grant (S fuel) n prev q h = malloc_loop grant fuel n q (hd fp rest) h).
      { cbn [malloc_loop]. rewrite run_hsize, (proj2 (Z.leb_gt _ _)) by done. mrun. rewrite Hfp.
        rewrite (proj2 (Z.eqb_neq q fp)) by set_solver. mrun. cbn [andb]. by rewrite run_hptr, (proj1 HL) by done. }
      rewrite El. destruct (IH q fuel HL HM ltac:(set_solver) ltac:(lia)) as [(pq & q' & H1 & H2 & H3 & H4 & H5)|[H1 H2]].
      * left. exists pq, q'. split; [set_solver|]. split; [set_solver|]. done.
      * right. split; [set_solver|done].
Qed.
End Search.

(** The free list from any of its nodes on. *)
Lemma rotate m T fp : linked m (nodes T) base -> fp ∈ nodes T ->
  exists rest, linked m (fp :: rest) fp /\ fp :: rest ≡ₚ nodes T.
Proof.
  intros HL (N1 & N2 & E)%list_elem_of_split. exists (N2 ++ N1). rewrite E in *. split.
  - rewrite app_comm_cons, linked_app in *. destruct HL as [HL1 HL2]. split; [|done].
    destruct N1 as [|x N1]; [|injection E as <- _]; [by injection E as <- _|done].
  - rewrite (Permutation_app_comm N1). done.
Qed.

(** ** What [malloc] does with the block found *)
Lemma exact_ok T1 b T2 pq h : heap_ok (T1 ++ b :: T2) h -> rep (hp_mem h) (T1 ++ b :: T2) -> b_free b = true ->
  pq ∈ nodes (T1 ++ b :: T2) -> ld32 (hp_mem h) pq = b_addr b ->
  let m' := st32 (hp_mem h) pq (hd base (frees T2)) in
  mapped h pq /\ ld32 (hp_mem h) (b_addr b) = hd base (frees T2) /\
  heap_ok (T1 ++ Block (b_addr b) (b_units b) false :: T2) (set_hp_freep pq (set_hp_mem m' h)) /\
  keeps (live T1 ++ live T2) (hp_mem h) m'.
Proof.
  intros [Ht Hc Hk _] [RL RB RS] Hf Hpq Epq m'. pose proof base_ok as Hb0. set (c := Block _ _ false).
  pose proof (nodes_mapped _ _ Ht) as HM. pose proof HM as Hmp. rewrite Forall_forall in Hmp. specialize (Hmp pq Hpq).
  pose proof Ht as (mid & H1 & H2)%tiles_app. pose proof H2 as (<- & Hb1 & H3). destruct (last_node T1 _ H1) as (N0 & EN & FN & Hbx & Hxm & Hsep).
  set (x := List.last (nodes T1) 0) in *. pose proof (nodes_nodup _ _ Ht) as HN.
  assert (En : nodes (T1 ++ b :: T2) = nodes T1 ++ b_addr b :: frees T2) by (by rewrite nodes_app, frees_cons, Hf).
  pose proof RL as RL'. rewrite En, linked_app in RL'. destruct RL' as [HL1 [HL2 HL3]]. cbn [hd] in HL1.
  assert (Ex : ld32 (hp_mem h) x = b_addr b) by (rewrite EN, linked_app in HL1; apply HL1).
  assert (Hxn : x ∈ nodes (T1 ++ b :: T2)) by (rewrite En, EN; set_solver).
  assert (pq = x) as ->.
  { eapply linked_inj; [exact RL| |exact Hpq|exact Hxn|congruence]. unfold nodes in *. cbn [tail].
    by rewrite <-Permutation_cons_append. }
  assert (Hh : header_only x (hp_mem h) m') by apply header_ptr.
  pose proof (tiles_le _ _ _ H1) as Hlo1. pose proof (tiles_le _ _ _ H3) as Hhi.
  split; [done|]. split; [done|]. split; [|].
  - split; cbn [set_hp_mem set_hp_freep hp_mem hp_freep hp_brk].
    + apply tiles_app. exists (b_addr b). split; [done|]. split; [done|]. split; [done|]. done.
    + rewrite coalesced_app in *. cbn [coalesced c b_free] in *. rewrite andb_false_r. destruct Hc as (? & _ & Hc2).
      split; [done|]. split; [done|]. by apply coalesced_false in Hc2.
    + done.
    + right. split; [rewrite nodes_app, EN; set_solver|]. split.
      * rewrite nodes_app, frees_cons. cbn [c b_free]. rewrite linked_app. split.
        -- rewrite EN. eapply relink; [by rewrite EN in HL1|exact Hh|exact FN|]. unfold m'. rewrite ld32_st32_eq.
           eapply next_small; [exact H3|hlia|done].
        -- eapply (linked_header x); [exact Hh|exact H3|hlia|done].
      * unfold m'. rewrite ld32_st32_ne; [done|]. destruct N0 as [|z N0].
        -- injection EN as ->. lia.
        -- injection EN as <- EN. apply Forall_cons in FN as [? _]. hlia.
      * intros d Hd. unfold m'. rewrite ld32_st32_ne.
        -- apply elem_of_app in Hd as [Hd|[->|Hd]%elem_of_cons]; [apply RS; set_solver|apply (RS b); set_solver|apply RS; set_solver].
        -- apply elem_of_app in Hd as [Hd|[->|Hd]%elem_of_cons]; [destruct (Hsep d Hd); hlia|unfold c; hlia|].
           pose proof (tiles_in _ _ _ _ H3 Hd). hlia.
  - intros d y Hd Hy. apply Hh. eapply payload_sep; [exact Ht| |exact Hxn|exact Hy]. rewrite live_app, live_cons, Hf. done.
Qed.
Lemma split_ok T1 b T2 n pq h : heap_ok (T1 ++ b :: T2) h -> rep (hp_mem h) (T1 ++ b :: T2) -> b_free b = true ->
  1 <= n < b_units b -> pq ∈ nodes (T1 ++ b :: T2) ->
  let q := b_addr b + HDR * (b_units b - n) in
  let m' := st32 (st32 (hp_mem h) (b_addr b + 4) (b_units b - n)) (q + 4) n in
  heap_ok (T1 ++ Block (b_addr b) (b_units b - n) true :: Block q n false :: T2) (set_hp_freep pq (set_hp_mem m' h)) /\
  keeps (live T1 ++ live T2) (hp_mem h) m'.
Proof.
  intros [Ht Hc Hk _] [RL RB RS] Hf Hn Hpq q m'. pose proof base_ok as Hb0.
  pose proof Ht as (mid & H1 & H2)%tiles_app. pose proof H2 as (<- & Hb1 & H3).
  pose proof (tiles_le _ _ _ H1) as Hlo1. pose proof (tiles_le _ _ _ H3) as Hhi.
  set (b' := Block (b_addr b) _ true). set (c := Block q n false).
  assert (Hout : forall y, (y < b_addr b + 4 \/ b_addr b + HDR <= y) -> (y < q + 4 \/ q + HDR <= y) -> m' y = hp_mem h y).
  { intros y Hy1 Hy2. unfold m'. rewrite !st32_other by hlia. done. }
  assert (Hw : forall p, p + 4 <= b_addr b + 4 \/ b_addr b + HDR <= p -> p + 4 <= q + 4 \/ q + HDR <= p -> ld32 m' p = ld32 (hp_mem h) p).
  { intros p Hp1 Hp2. unfold ld32. rewrite !Hout by hlia. done. }
  assert (En : nodes (T1 ++ b' :: c :: T2) = nodes (T1 ++ b :: T2)) by (rewrite !nodes_app, !frees_cons, Hf; done).
  assert (Hq : q = b_end b - HDR * n) by (unfold q; hlia). split.
  - split; cbn [set_hp_mem set_hp_freep hp_mem hp_freep hp_brk].
    + apply tiles_app. exists (b_addr b). split; [done|]. split; [done|]. split; [cbn; lia|]. split; [unfold b', c, q; hlia|].
      split; [cbn; lia|]. replace (b_end c) with (b_end b); [done|]. unfold c, q. hlia.
    + rewrite coalesced_app in *. cbn [coalesced b' c b_free] in *. rewrite Hf in Hc. destruct Hc as (? & ? & Hc2).
      split; [done|]. split; [done|]. split; [done|]. by apply coalesced_false in Hc2.
    + done.
    + right. rewrite En. split; [done|]. split.
      * rewrite En. eapply linked_ext; [|exact RL]. intros p Hp. rewrite nodes_app, frees_cons, Hf in Hp.
        apply elem_of_app in Hp as [[->|Hp]%elem_of_cons|[->|Hp]%elem_of_cons]; [|pose proof (frees_bounds _ _ _ _ H1 Hp)|
          |pose proof (frees_bounds _ _ _ _ H3 Hp)]; apply Hw; unfold q; hlia.
      * rewrite Hw; [done|hlia|unfold q; hlia].
      * intros d Hd. apply elem_of_app in Hd as [Hd|[->|[->|Hd]%elem_of_cons]%elem_of_cons].
        -- pose proof (tiles_in _ _ _ _ H1 Hd). rewrite Hw; [apply RS; set_solver|unfold q; hlia..].
        -- cbn [b' b_addr b_units]. unfold m'. rewrite ld32_st32_ne, ld32_st32_eq by (unfold q; hlia). apply u32_small. hlia.
        -- cbn [c b_addr b_units]. unfold m'. rewrite ld32_st32_eq. apply u32_small. hlia.
        -- pose proof (tiles_in _ _ _ _ H3 Hd). rewrite Hw; [apply RS; set_solver|unfold q; hlia..].
  - intros d y Hd Hy. apply elem_of_app in Hd as [Hd|Hd]; apply live_in in Hd as [Hd _];
      [pose proof (tiles_in _ _ _ _ H1 Hd)|pose proof (tiles_in _ _ _ _ H3 Hd)]; apply Hout; unfold q; hlia.
Qed.

Lemma block_take_ok T1 b T2 n pq h : heap_ok (T1 ++ b :: T2) h -> rep (hp_mem h) (T1 ++ b :: T2) -> b_free b = true ->
  1 <= n <= b_units b -> pq ∈ nodes (T1 ++ b :: T2) -> ld32 (hp_mem h) pq = b_addr b ->
  exists h' T' c, malloc_take n pq (b_addr b) h = Ret (b_addr c + HDR) h' /\ heap_ok T' h' /\ hp_brk h' = hp_brk h /\
    b_free c = false /\ b_units c = n /\ live T' = live T1 ++ c :: live T2 /\ hp_freep h' = pq /\
    keeps (live T1 ++ live T2) (hp_mem h) (hp_mem h').
Proof.
  intros Hok HR Hf Hn Hpq Epq. pose proof Hok as [Ht _ Hk _]. pose proof HR as [_ _ RS]. pose proof base_ok as Hb0.
  destruct (split_nodes _ _ _ _ Ht) as (_ & _ & Hlo & Hb1 & Hhi).
  assert (Hm : mapped h (b_addr b)) by (unfold mapped; hlia).
  unfold malloc_take. rewrite run_hsize, (RS b) by (done || set_solver).
  destruct (Z.eqb_spec (b_units b) n) as [En|En].
  - destruct (exact_ok T1 b T2 pq h Hok HR Hf Hpq Epq) as (Hmq & En' & Hok' & Hkeep).
    rewrite run_bind_bind, run_hptr, En', run_bind_bind, run_set_hptr by done. mrun.
    eexists _, _, (Block (b_addr b) n false). rewrite <-En at 2. unfold ret.
    split; [unfold padd; rewrite u32_small by hlia; cbn [b_addr]; do 2 f_equal; hlia|].
    split; [exact Hok'|]. cbn [set_hp_freep set_hp_mem hp_brk hp_freep hp_mem b_free b_units].
    split; [done|]. split; [done|]. split; [done|]. rewrite live_app, live_cons. cbn [b_free]. by rewrite En.
  - destruct (split_ok T1 b T2 n pq h Hok HR Hf ltac:(lia) Hpq) as (Hok' & Hkeep).
    rewrite run_bind_bind, run_set_hsize, run_bind_bind, run_hsize by done. cbn [set_hp_mem hp_mem].
    rewrite ld32_st32_eq, u32_small by hlia. cbv zeta.
    replace (padd (b_addr b) (b_units b - n)) with (b_addr b + HDR * (b_units b - n)) by (symmetry; unfold padd; apply u32_small; hlia).
    set (q := b_addr b + HDR * (b_units b - n)) in *.
    rewrite run_bind_bind, run_set_hsize by (unfold mapped, q; cbn; hlia). mrun.
    eexists _, _, (Block q n false). unfold ret.
    split; [unfold padd; rewrite u32_small by (unfold q; hlia); cbn [b_addr]; do 2 f_equal; hlia|].
    split; [exact Hok'|]. cbn [set_hp_freep set_hp_mem hp_brk hp_freep hp_mem b_free b_units].
    split; [done|]. split; [done|]. split; [done|]. rewrite live_app, !live_cons. done.
Qed.

(** ** [sbrk], [morecore], [malloc] *)
Lemma node_pos T p hi : tiles lo T hi -> p ∈ nodes T -> 0 < p.
Proof. intros Ht [->|Hp]%elem_of_cons; pose proof base_ok; [lia|]. pose proof (frees_bounds _ _ _ _ Ht Hp). hlia. Qed.
Lemma ok_started T h : heap_ok T h -> hp_freep h <> 0 -> hp_freep h ∈ nodes T /\ rep (hp_mem h) T.
Proof. intros [_ _ _ [[E _]|H]] Hf; [done|exact H]. Qed.
Lemma length_blocks T : length T = (length (frees T) + length (live T))%nat.
Proof.
  induction T as [|b T IH]; [done|]. rewrite frees_cons, live_cons. destruct (b_free b); cbn [length]; lia.
Qed.
(** The kernel turns the request down. *)
Definition refused (grant : Z -> Z -> bool) (n : Z) (h : heap) : Prop :=
  KERNBASE <= hp_brk h + HDR * Z.max 4096 n \/ grant (hp_brk h) (HDR * Z.max 4096 n) = false.
Lemma sbrk_ok grant n h : 0 < n < 2 ^ 31 -> 0 <= hp_brk h < KERNBASE ->
  sbrk grant n h = if (KERNBASE <=? hp_brk h + n) || negb (grant (hp_brk h) n) then Ret (u32 (-1)) h
                   else Ret (hp_brk h) (set_hp_brk (hp_brk h + n) h).
Proof.
  intros Hn Hb. unfold sbrk. cbv zeta. rewrite s32_small by lia. rewrite (u32_small (hp_brk h + n)) by hlia.
  rewrite (proj2 (Z.ltb_lt 0 n)), (proj2 (Z.eqb_neq n 0)), (proj2 (Z.ltb_ge (hp_brk h + n) (hp_brk h))) by lia. cbn [negb andb].
  destruct (Z.leb_spec KERNBASE (hp_brk h + n)); [done|]. cbn [orb]. destruct (grant _ _); cbn [negb]; [|done].
  by rewrite (proj2 (Z.eqb_neq _ 0)) by lia.
Qed.
Lemma morecore_ok grant T n h : heap_ok T h -> hp_freep h <> 0 -> 1 <= n -> HDR * n < 2 ^ 31 ->
  (refused grant n h /\ morecore grant n h = Ret 0 h) \/
  exists h' T', morecore grant n h = Ret (hp_freep h') h' /\ heap_ok T' h' /\ live T' = live T /\ hp_freep h' <> 0 /\
    keeps (live T) (hp_mem h) (hp_mem h') /\ (length (frees T') <= S (length (frees T)))%nat /\
    exists c, c ∈ T' /\ b_free c = true /\ n <= b_units c.
Proof.
  intros Hok Hfp Hn Hn2. destruct (ok_started _ _ Hok Hfp) as [Hin [RL RB RS]]. destruct Hok as [Ht Hc Hk _].
  pose proof (tiles_le _ _ _ Ht) as Hlo. pose proof base_ok as Hb0.
  unfold morecore, refused. replace (if n <? 4096 then 4096 else n) with (Z.max 4096 n) by (destruct (Z.ltb_spec n 4096); lia).
  set (nu := Z.max 4096 n) in *. rewrite (Z.mul_comm nu), (u32_small (HDR * nu)) by hlia.
  pose proof (sbrk_ok grant (HDR * nu) h ltac:(hlia) ltac:(hlia)) as Es.
  destruct (Z.leb_spec KERNBASE (hp_brk h + HDR * nu)) as [Hr|Hr]; cbn [orb] in Es;
    [left; split; [by left|]; by rewrite (bind_eq _ _ _ _ _ Es)|].
  destruct (grant _ _) eqn:Hg; cbn [negb] in Es; [|left; split; [by right|]; by rewrite (bind_eq _ _ _ _ _ Es)]. right.
  rewrite (bind_eq _ _ _ _ _ Es). rewrite (proj2 (Z.eqb_neq (hp_brk h) _)) by (change (u32 (-1)) with 4294967295; hlia).
  set (h1 := set_hp_brk (hp_brk h + HDR * nu) h). assert (Hm1 : mapped h1 (hp_brk h)) by (unfold mapped, h1; cbn; hlia).
  rewrite run_set_hsize by done. set (b := Block (hp_brk h) nu false). set (h2 := set_hp_mem _ h1).
  pose proof (header_size (hp_brk h) nu (hp_mem h)) as Hh. change (st32 _ (hp_brk h + 4) nu) with (hp_mem h2) in Hh.
  assert (Hok2 : heap_ok (T ++ [b]) h2).
  { split.
    - apply tiles_app. exists (hp_brk h). split; [done|]. split; [done|]. split; [cbn; lia|]. unfold h2, h1, b. cbn. hlia.
    - rewrite coalesced_app. split; [done|]. cbn. by rewrite andb_false_r.
    - unfold h2, h1. cbn. lia.
    - right. rewrite nodes_app. change (frees [b]) with (@nil Z). rewrite app_nil_r. split; [done|]. split.
      + rewrite nodes_app. change (frees [b]) with (@nil Z). rewrite app_nil_r. eapply linked_ext; [|exact RL]. intros p Hp.
        apply (header_word _ _ _ _ Hh). apply elem_of_cons in Hp as [->|Hp]; [hlia|]. pose proof (frees_bounds _ _ _ _ Ht Hp). hlia.
      + rewrite (header_word _ _ _ _ Hh); [done|hlia].
      + intros d [Hd|Hd]%elem_of_app.
        * eapply (sized_header (hp_brk h)); [exact Hh|exact Ht|lia|exact RS|done].
        * apply list_elem_of_singleton in Hd as ->. unfold h2. cbn. rewrite ld32_st32_eq. apply u32_small. hlia. }
  destruct (free_block T b [] h2 Hok2 eq_refl) as (h' & T' & E & Hok' & Hbrk & Hlv & Hin' & Hkp & Hlen & c & Hc1 & Hc2 & Hc3 & Hc4).
  exists h', T'. replace (padd (hp_brk h) 1) with (b_addr b + HDR) by (symmetry; unfold padd; rewrite u32_small; unfold b; hlia).
  unfold bind. rewrite E. split; [done|]. split; [done|]. split; [by rewrite Hlv, app_nil_r|].
  split; [pose proof (node_pos _ _ _ (ok_tiles _ _ Hok') Hin'); lia|]. split; [|split].
  - intros d y Hd Hy. rewrite (Hkp d y); [|by rewrite app_nil_r|done]. apply Hh. apply live_in in Hd as [Hd _].
    pose proof (tiles_in _ _ _ _ Ht Hd). hlia.
  - rewrite length_app, (length_blocks T'), (length_blocks T), Hlv, app_nil_r in Hlen. simpl in Hlen. lia.
  - exists c. split; [done|]. split; [done|]. unfold b in *. hlia.
Qed.

Lemma units_ok nbytes : 0 <= nbytes < 2 ^ 31 - 16 -> 1 <= units nbytes /\ nbytes <= HDR * (units nbytes - 1) /\ HDR * units nbytes < 2 ^ 31.
Proof. intros H. unfold units, HDR. rewrite (u32_small (nbytes + 8 - 1)) by lia. rewrite u32_small; lia. Qed.

(** The first call sets up the empty list. *)
Definition started (h : heap) : heap :=
  if hp_freep h =? 0 then set_hp_mem (st32 (st32 (hp_mem h) base base) (base + 4) 0) (set_hp_freep base h) else h.
Lemma started_ok T h : heap_ok T h -> heap_ok T (started h) /\ hp_freep (started h) <> 0 /\ hp_brk (started h) = hp_brk h /\
  keeps (live T) (hp_mem h) (hp_mem (started h)).
Proof.
  intros Hok. pose proof base_ok as Hb0. unfold started. destruct (Z.eqb_spec (hp_freep h) 0) as [E|E]; [|done].
  destruct Hok as [Ht Hc Hk [[_ ->]|[Hin _]]]; [|pose proof (node_pos _ _ _ Ht Hin); lia].
  cbn [set_hp_mem set_hp_freep hp_mem hp_freep hp_brk]. split; [|split; [cbn; lia|split; [done|by intros d y Hd%elem_of_nil]]].
  split; [done..|right]. split; [by left|]. cbn in Ht. split.
  - cbn. split; [|done]. rewrite ld32_st32_ne, ld32_st32_eq by lia. apply u32_small. hlia.
  - cbn [set_hp_mem hp_mem]. by rewrite ld32_st32_eq.
  - by intros b ?%elem_of_nil.
Qed.
Lemma malloc_started grant T nbytes h : heap_ok T h ->
  malloc base grant nbytes h =
  (let! p := hptr (hp_freep (started h)) in
   malloc_loop grant (turns (started h)) (units nbytes) (hp_freep (started h)) p) (started h).
Proof.
  intros [Ht _ _ _]. pose proof base_ok as Hb0. pose proof (tiles_le _ _ _ Ht). unfold malloc, started. mrun.
  destruct (Z.eqb_spec (hp_freep h) 0) as [E|E]; mrun; [|done].
  assert (Hm : mapped h base) by (unfold mapped; hlia). rewrite run_set_hptr by done. mrun.
  rewrite run_set_hsize by done. mrun. done.
Qed.
(** One turn round the list from [freep], when it has a block for the request. *)
Lemma search_found grant T n h : heap_ok T h -> hp_freep h <> 0 -> 1 <= n ->
  exists rest, S (length rest) = length (nodes T) /\ ld32 (hp_mem h) (hp_freep h) = hd (hp_freep h) rest /\
    forall fuel, (length rest <= fuel)%nat ->
    (exists h' T' c, malloc_loop grant fuel n (hp_freep h) (hd (hp_freep h) rest) h = Ret (b_addr c + HDR) h' /\
       heap_ok T' h' /\ hp_brk h' = hp_brk h /\ b_units c = n /\ live T' ≡ₚ c :: live T /\
       keeps (live T) (hp_mem h) (hp_mem h')) \/
    ((forall b, b ∈ T -> b_free b = true -> b_units b < n) /\
     malloc_loop grant fuel n (hp_freep h) (hd (hp_freep h) rest) h =
       (let! p' := morecore grant n in
        if p' =? 0 then ret 0
        else match (fuel - length rest)%nat with
             | O => nofuel
             | S fuel' => let! next := hptr p' in malloc_loop grant fuel' n p' next
             end) h).
Proof.
  intros Hok Hfp Hn. destruct (ok_started _ _ Hok Hfp) as [Hin HR]. pose proof HR as [RL RB RS]. pose proof (ok_tiles _ _ Hok) as Ht.
  destruct (rotate _ _ _ RL Hin) as (rest & HL & HP). pose proof (nodes_nodup _ _ Ht) as HN. rewrite <-HP in HN.
  apply NoDup_cons in HN as [Hni _]. exists rest. split; [by rewrite <-HP|]. split; [apply HL|]. intros fuel Hf.
  assert (Hel : forall q, q ∈ rest ++ [hp_freep h] <-> q ∈ nodes T) by (intros q; rewrite <-HP; set_solver).
  destruct (malloc_search grant (hp_freep h) n h eq_refl rest (hp_freep h) fuel HL) as [(pq & q & Hpq & Hq & Epq & Hs & E)|[Hs E]]; [|done|done| |].
  - apply Forall_forall. intros q Hq. apply Hel in Hq. pose proof (nodes_mapped _ _ Ht) as HM. rewrite Forall_forall in HM. by apply HM.
  - left. rewrite E. clear E. apply Hel in Hq. rewrite HP in Hpq. apply elem_of_cons in Hq as [->|Hq]; [lia|].
    apply frees_in in Hq as (b & Hb & Hfb & <-). rewrite (RS b Hb) in Hs. apply list_elem_of_split in Hb as (T1 & T2 & ->).
    destruct (block_take_ok T1 b T2 n pq h) as (h' & T' & c & E & Hok' & Hbrk & Hfc & Huc & Hlv & _ & Hk); [done..|lia|done|done|].
    exists h', T', c. rewrite live_app, live_cons, Hfb. split; [done|]. split; [done|]. split; [done|]. split; [done|].
    split; [rewrite Hlv; by rewrite Permutation_middle|done].
  - right. split; [|done]. intros b Hb Hfb. rewrite <-(RS b Hb). apply Hs, Hel. right. unfold frees.
    apply list_elem_of_fmap. exists b. split; [done|]. by apply list_elem_of_filter.
Qed.
Lemma malloc_ok grant T h nbytes : heap_ok T h -> 0 <= nbytes < 2 ^ 31 - 16 ->
  exists r h' T', malloc base grant nbytes h = Ret r h' /\ heap_ok T' h' /\ keeps (live T) (hp_mem h) (hp_mem h') /\
    ((r = 0 /\ live T' = live T /\ refused grant (units nbytes) h /\
      forall b, b ∈ T -> b_free b = true -> b_units b < units nbytes) \/
     exists c, r = b_addr c + HDR /\ b_units c = units nbytes /\ live T' ≡ₚ c :: live T).
Proof.
  intros Hok Hnb. destruct (units_ok nbytes Hnb) as (Hn1 & _ & Hn2). rewrite (malloc_started grant T) by done.
  destruct (started_ok _ _ Hok) as (Hok0 & Hfp0 & Hbrk0 & Hk0). set (h0 := started h) in *. set (n := units nbytes) in *.
  destruct (search_found grant T n h0 Hok0 Hfp0 Hn1) as (rest & Hlen & Eh & Hs).
  pose proof (turns_enough _ _ (ok_tiles _ _ Hok0)) as Htn. destruct (ok_started _ _ Hok0 Hfp0) as [Hin0 _].
  pose proof (nodes_mapped _ _ (ok_tiles _ _ Hok0)) as HM. rewrite Forall_forall in HM.
  rewrite run_hptr, Eh by (by apply HM).
  destruct (Hs (turns h0) ltac:(lia)) as [(h' & T' & c & E & Hok' & _ & Hu & Hlv & Hk)|[Hsm E]]; rewrite E; clear E Hs.
  { exists (b_addr c + HDR), h', T'. split; [done|]. split; [done|]. split; [intros d y Hd Hy; by rewrite (Hk d), (Hk0 d)|].
    right. by exists c. }
  destruct (morecore_ok grant T n h0 Hok0 Hfp0 Hn1 Hn2) as [[Hr E]|(h1 & T1 & E & Hok1 & Hlv1 & Hfp1 & Hk1 & Hl1 & cc & Hcc & Hfc & Hcn)];
    rewrite (bind_eq _ _ _ _ _ E).
  { exists 0, h0, T. split; [done|]. split; [done|]. split; [done|]. left. split; [done|]. split; [done|]. split; [|done].
    unfold refused in *. by rewrite Hbrk0 in Hr. }
  rewrite (proj2 (Z.eqb_neq _ 0)) by done.
  destruct (search_found grant T1 n h1 Hok1 Hfp1 Hn1) as (rest1 & Hlen1 & Eh1 & Hs1).
  unfold nodes in Hlen, Hlen1, Htn. cbn [length] in Hlen, Hlen1, Htn.
  destruct (turns h0 - length rest)%nat as [|fuel'] eqn:Ef; [lia|].
  pose proof (nodes_mapped _ _ (ok_tiles _ _ Hok1)) as HM1. rewrite Forall_forall in HM1.
  rewrite run_hptr, Eh1 by (apply HM1, (ok_started _ _ Hok1 Hfp1)).
  destruct (Hs1 fuel' ltac:(lia)) as [(h' & T' & c & E' & Hok' & _ & Hu & Hlv & Hk)|[Hsm1 _]]; [|specialize (Hsm1 cc Hcc Hfc); lia].
  rewrite E'. exists (b_addr c + HDR), h', T'. split; [done|]. split; [done|]. rewrite Hlv1 in *.
  split; [intros d y Hd Hy; by rewrite (Hk d), (Hk1 d), (Hk0 d)|]. right. by exists c.
Qed.

(** ** A program that uses the allocator *)
Lemma tiles_sep T : forall lo hi b c, tiles lo T hi -> b ∈ T -> c ∈ T -> b = c \/ b_end b <= b_addr c \/ b_end c <= b_addr b.
Proof.
  induction T as [|d T IH]; intros lo' hi b c; cbn [tiles]; [by intros _ ?%elem_of_nil|].
  intros (_ & _ & Ht) [->|Hb]%elem_of_cons [->|Hc]%elem_of_cons; [by left| | |by eapply IH];
    right; [pose proof (tiles_in _ _ _ _ Ht Hc)|pose proof (tiles_in _ _ _ _ Ht Hb)]; lia.
Qed.
Lemma tiles_nodup T : forall lo hi, tiles lo T hi -> NoDup T.
Proof.
  induction T as [|d T IH]; intros lo' hi; cbn [tiles]; [constructor|]. intros (E & H & Ht). constructor; [|by eapply IH].
  intros Hd. pose proof (tiles_in _ _ _ _ Ht Hd). hlia.
Qed.
Lemma tiles_aligned T : forall lo hi b, tiles lo T hi -> b ∈ T -> (b_addr b - lo) mod HDR = 0.
Proof.
  induction T as [|d T IH]; intros lo' hi b; cbn [tiles]; [by intros _ ?%elem_of_nil|].
  intros (<- & _ & Ht) [->|Hb]%elem_of_cons; [by rewrite Z.sub_diag|]. specialize (IH _ _ _ Ht Hb). hlia.
Qed.
(** Writing into a live block leaves the headers alone. *)
Lemma write_ok T h d a v : heap_ok T h -> d ∈ live T -> b_addr d + HDR <= a < b_end d ->
  heap_ok T (set_hp_mem (upd (hp_mem h) a v) h).
Proof.
  intros [Ht Hc Hk Hr] Hd Ha. split; [done..|]. destruct Hr as [Hr|[Hin [RL RB RS]]]; [by left|right].
  assert (Hw : forall p, a < p \/ p + 4 <= a -> ld32 (upd (hp_mem h) a v) p = ld32 (hp_mem h) p).
  { intros p Hp. unfold ld32. rewrite !upd_ne by lia. done. }
  pose proof (live_in _ _ Hd) as [HdT _]. split; [done|]. cbn [set_hp_mem hp_mem]. split.
  - eapply linked_ext; [|exact RL]. intros p Hp. apply Hw. destruct (payload_sep _ _ _ _ _ Ht Hd Hp Ha); hlia.
  - rewrite Hw; [done|]. destruct (payload_sep _ _ _ base _ Ht Hd ltac:(by left) Ha); hlia.
  - intros b Hb. rewrite Hw; [by apply RS|]. destruct (tiles_sep _ _ _ _ _ Ht HdT Hb) as [<-|Hs]; [hlia|].
    pose proof (tiles_in _ _ _ _ Ht Hb). hlia.
Qed.

(** The program's objects: the pointers it got from [malloc] and has not freed, with the
    sizes it asked for. It writes to its objects only. *)
Inductive client : heap -> list (Z * Z) -> Prop :=
| cl_start m : lo < KERNBASE -> client (Heap m 0 lo) []
| cl_malloc h L grant n r h' : client h L -> 0 <= n < 2 ^ 31 - 16 -> malloc base grant n h = Ret r h' ->
    client h' (if r =? 0 then L else (r, n) :: L)
| cl_free h L1 p n L2 h' : client h (L1 ++ (p, n) :: L2) -> free p h = Ret tt h' -> client h' (L1 ++ L2)
| cl_write h L p n a v : client h L -> (p, n) ∈ L -> p <= a < p + n ->
    client (set_hp_mem (upd (hp_mem h) a v) h) L.
Definition object_of (o : Z * Z) (b : block) : Prop := o.1 = b_addr b + HDR /\ o.2 <= HDR * (b_units b - 1).
Definition owns (T : list block) (L : list (Z * Z)) : Prop := exists B, live T ≡ₚ B /\ Forall2 object_of L B.
(** The objects [L] hold in [h'] what they hold in [h]. *)
Definition same (L : list (Z * Z)) (h h' : heap) : Prop :=
  forall p n a, (p, n) ∈ L -> p <= a < p + n -> hp_mem h' a = hp_mem h a.

Lemma owns_in T L p n : owns T L -> (p, n) ∈ L -> exists b, b ∈ live T /\ object_of (p, n) b.
Proof.
  intros (B & HP & HF) [i Hi]%list_elem_of_lookup. destruct (Forall2_lookup_l _ _ _ _ _ HF Hi) as (b & Hb & Ho).
  exists b. split; [|done]. rewrite HP. by eapply list_elem_of_lookup_2.
Qed.
Lemma keeps_same T L h h' : owns T L -> keeps (live T) (hp_mem h) (hp_mem h') -> same L h h'.
Proof. intros Ho Hk p n a Hp Ha. destruct (owns_in _ _ _ _ Ho Hp) as (b & Hb & E1 & E2). apply (Hk b); [done|]. cbn in *. hlia. Qed.
Lemma owns_split T L1 p n L2 : owns T (L1 ++ (p, n) :: L2) -> exists T1 b T2, T = T1 ++ b :: T2 /\ b_free b = false /\
  p = b_addr b + HDR /\ forall T', live T' = live T1 ++ live T2 -> owns T' (L1 ++ L2).
Proof.
  intros (B & HP & (B1 & B2' & HF1 & (b & B2 & [Hp Hn] & HF2 & ->)%Forall2_cons_inv_l & ->)%Forall2_app_inv_l).
  assert (Hb : b ∈ live T) by (rewrite HP; set_solver). apply live_in in Hb as [(T1 & T2 & ->)%list_elem_of_split Hf].
  exists T1, b, T2. split; [done|]. split; [done|]. split; [done|]. intros T' E. exists (B1 ++ B2). split; [|by apply Forall2_app].
  rewrite E. rewrite live_app, live_cons, Hf, <-!Permutation_middle in HP. by apply (inj (cons b)) in HP.
Qed.
Lemma malloc_client T h L grant n : heap_ok T h -> owns T L -> 0 <= n < 2 ^ 31 - 16 ->
  exists r h' T', malloc base grant n h = Ret r h' /\ heap_ok T' h' /\ owns T' (if r =? 0 then L else (r, n) :: L) /\
    same L h h' /\ (r = 0 -> refused grant (units n) h).
Proof.
  intros Hok Ho Hn. destruct (malloc_ok grant T h n Hok Hn) as (r & h' & T' & E & Hok' & Hk & Hr).
  exists r, h', T'. split; [done|]. split; [done|]. split; [|split; [by eapply keeps_same|]].
  - destruct Hr as [(-> & Hl & _)|(c & -> & Hu & Hl)]; [by rewrite Z.eqb_refl; unfold owns; rewrite Hl|].
    assert (Hc : c ∈ T') by (apply live_in; rewrite Hl; by left). pose proof (tiles_in _ _ _ _ (ok_tiles _ _ Hok') Hc).
    rewrite (proj2 (Z.eqb_neq _ 0)) by (pose proof base_ok; hlia). destruct Ho as (B & HP & HF). exists (c :: B).
    split; [by rewrite Hl, HP|]. constructor; [|done]. split; [done|]. rewrite Hu. apply units_ok. done.
  - intros ->. destruct Hr as [(_ & _ & Hr & _)|(c & E0 & _ & Hl)]; [done|]. exfalso.
    assert (Hc : c ∈ T') by (apply live_in; rewrite Hl; by left). pose proof (tiles_in _ _ _ _ (ok_tiles _ _ Hok') Hc).
    pose proof base_ok. hlia.
Qed.
Lemma free_client T h L1 p n L2 : heap_ok T h -> owns T (L1 ++ (p, n) :: L2) ->
  exists h' T', free p h = Ret tt h' /\ heap_ok T' h' /\ owns T' (L1 ++ L2) /\ same (L1 ++ L2) h h'.
Proof.
  intros Hok Ho. destruct (owns_split _ _ _ _ _ Ho) as (T1 & b & T2 & -> & Hf & -> & HT).
  destruct (free_block T1 b T2 h Hok Hf) as (h' & T' & E & Hok' & _ & Hlv & _ & Hk & _).
  exists h', T'. split; [done|]. split; [done|]. split; [by apply HT|]. eapply keeps_same; [by apply HT|by rewrite Hlv].
Qed.
Lemma client_inv h L : client h L -> exists T, heap_ok T h /\ owns T L.
Proof.
  induction 1 as [m Hlo|h L grant n r h' _ (T & Hok & Ho) Hn E|h L1 p n L2 h' _ (T & Hok & Ho) E|h L p n a v _ (T & Hok & Ho) Hp Ha].
  - exists []. split; [split; [done..|by left]|]. by exists [].
  - destruct (malloc_client T h L grant n Hok Ho Hn) as (r' & h1 & T' & E' & Hok' & Ho' & _). rewrite E in E'.
    injection E' as <- <-. by exists T'.
  - destruct (free_client T h L1 p n L2 Hok Ho) as (h1 & T' & E' & Hok' & Ho' & _). rewrite E in E'. injection E' as <-. by exists T'.
  - destruct (owns_in _ _ _ _ Ho Hp) as (b & Hb & E1 & E2). exists T. split; [|done]. eapply write_ok; [done|done|].
    cbn in *. hlia.
Qed.

(** C17: whatever a program does with the allocator, as long as it asks for less than
    2^31 - 16 bytes at a time, frees only pointers it got and writes only inside its objects
    (larger requests are not covered: there [malloc] can wrap around or fault, see
    [malloc_wraps] in Umalloc): the memory above [lo] is tiled by free and live
    blocks with no two free ones adjacent; the objects are inside the process, aligned, and
    pairwise disjoint; [malloc] and [free] return, without a page fault, and leave the
    other objects' bytes alone; and [malloc] returns 0 only when the kernel refuses memory. *)
Theorem umalloc_sound h L : client h L ->
  (exists T, tiles lo T (hp_brk h) /\ coalesced false T /\ owns T L) /\
  (forall i p n, L !! i = Some (p, n) -> lo + HDR <= p /\ p + n <= hp_brk h /\ (p - lo) mod HDR = 0 /\
     forall j q k, L !! j = Some (q, k) -> i <> j -> p + n <= q \/ q + k <= p) /\
  (forall grant n, 0 <= n < 2 ^ 31 - 16 -> exists r h', malloc base grant n h = Ret r h' /\ same L h h' /\
     (r = 0 -> refused grant (units n) h)) /\
  (forall L1 p n L2, L = L1 ++ (p, n) :: L2 -> exists h', free p h = Ret tt h' /\ same (L1 ++ L2) h h').
Proof.
  intros Hc. destruct (client_inv _ _ Hc) as (T & Hok & Ho). pose proof (ok_tiles _ _ Hok) as Ht.
  split; [exists T; split; [done|split; [apply Hok|done]]|]. split; [|split].
  - intros i p n Hi. destruct Ho as (B & HP & HF). destruct (Forall2_lookup_l _ _ _ _ _ HF Hi) as (b & Hb & E1 & E2). cbn in E1, E2.
    assert (HbT : b ∈ T) by (apply live_in; rewrite HP; by eapply list_elem_of_lookup_2).
    pose proof (tiles_in _ _ _ _ Ht HbT). split; [lia|]. split; [hlia|].
    split; [pose proof (tiles_aligned _ _ _ _ Ht HbT); hlia|]. intros j q k Hj Hij.
    destruct (Forall2_lookup_l _ _ _ _ _ HF Hj) as (c & Hcj & E3 & E4). cbn in E3, E4.
    assert (HcT : c ∈ T) by (apply live_in; rewrite HP; by eapply list_elem_of_lookup_2).
    destruct (tiles_sep _ _ _ _ _ Ht HbT HcT) as [->|Hs]; [|hlia]. exfalso. apply Hij.
    assert (HN : NoDup B) by (rewrite <-HP; apply NoDup_filter; by eapply tiles_nodup). by eapply NoDup_lookup.
  - intros grant n Hn. destruct (malloc_client T h L grant n Hok Ho Hn) as (r & h' & _ & E & _ & _ & Hs). eauto.
  - intros L1 p n L2 ->. destruct (free_client T h L1 p n L2 Hok Ho) as (h' & _ & E & _ & _ & Hs). eauto.
Qed.
End Alloc.

(** ** A run: two objects, the first is freed *)
Definition heap_of {A} (r : res heap A) : heap := match r with Ret _ h => h | _ => demo_heap end.
Definition run1 : heap := heap_of (malloc 4000 always 100 demo_heap).
Definition run2 : heap := heap_of (malloc 4000 always 1 run1).
Definition run3 : heap := heap_of (free 36760 run2).
Lemma umalloc_sound_witness : client 4000 4096 run3 [(36744, 1)] /\
  exists r h', malloc 4000 always 104 run3 = Ret r h' /\ same [(36744, 1)] run3 h'.
Proof.
  assert (C : client 4000 4096 run3 [(36744, 1)]).
  { apply (cl_free 4000 4096 run2 [(36744, 1)] 36760 100 []); [|vm_compute; reflexivity].
    apply (cl_malloc 4000 4096 run1 [(36760, 100)] always 1 36744); [|lia|vm_compute; reflexivity].
    apply (cl_malloc 4000 4096 demo_heap [] always 100 36760); [|lia|vm_compute; reflexivity].
    apply cl_start. unfold KERNBASE. lia. }
  split; [exact C|].
  destruct (umalloc_sound 4000 4096 ltac:(unfold HDR; lia) run3 _ C) as (_ & _ & Hm & _).
  destruct (Hm always 104 ltac:(lia)) as (r & h' & E & Hs & _). exists r, h'. split; [exact E|exact Hs].
Defined.
