(* ===== verification/Mkfs.v ===== *)
(** * The file-system image: mkfs.c

    The program that builds the disk the kernel boots from. The image file is the list of
    its sectors; a failed [read] or [assert] ends the program. The files to copy are the
    names on the command line with what the [read]s of each return, or [None] when it
    cannot be opened. *)
From S2P Require Import Prelude Param Iface Sleeplock CString Fs.

Definition NINODES : Z := 200.
Definition nbitmap : Z := FSSIZE / (BSIZE * 8) + 1.
Definition ninodeblocks : Z := NINODES / IPB + 1.
Definition nlog : Z := LOGSIZE.
Definition nmeta : Z := 2 + nlog + ninodeblocks + nbitmap.
Definition nblocks : Z := FSSIZE - nmeta.

(** The [ushort] and [uint] whose bytes in memory are [x] in Intel byte order; the host is
    little-endian too. *)
Definition xshort (x : Z) : Z := u8 x + 256 * u8 (Z.shiftr x 8).
Definition xint (x : Z) : Z :=
  u8 x + 256 * u8 (Z.shiftr x 8) + 65536 * u8 (Z.shiftr x 16) + 16777216 * u8 (Z.shiftr x 24).

Record mk := Mk {
  mk_img : list block;
  mk_freeinode : Z;
  mk_freeblock : Z
}.
Definition set_mk_img (v : list block) (s : mk) : mk := Mk v (mk_freeinode s) (mk_freeblock s).
Definition set_mk_freeinode (v : Z) (s : mk) : mk := Mk (mk_img s) v (mk_freeblock s).
Definition set_mk_freeblock (v : Z) (s : mk) : mk := Mk (mk_img s) (mk_freeinode s) v.

Definition sb : superblock :=
  SuperBlock (xint FSSIZE) (xint nblocks) (xint NINODES) (xint nlog) (xint 2) (xint (2 + nlog))
    (xint (2 + nlog + ninodeblocks)).
(** [memmove(buf, &sb, sizeof(sb))] *)
Definition sb_block : block :=
  put32 (put32 (put32 (put32 (put32 (put32 (put32 zero_block 0 (sb_size sb)) 4 (sb_nblocks sb))
    8 (sb_ninodes sb)) 12 (sb_nlog sb)) 16 (sb_logstart sb)) 20 (sb_inodestart sb)) 24 (sb_bmapstart sb).

(** A write past the end of the file makes it longer; a read there returns too little. *)
Definition wsect (sec : Z) (buf : block) : M mk unit :=
  modify (fun s =>
    let k := Z.to_nat sec in
    let img := mk_img s in
    set_mk_img (if (k <? length img)%nat then <[k := buf]> img
                else img ++ replicate (k - length img) zero_block ++ [buf]) s).
Definition rsect (sec : Z) : M mk block := fun s =>
  match mk_img s !! Z.to_nat sec with Some b => Ret b s | None => Panic "read" end.

Definition winode (inum : Z) (ip : dinode) : M mk unit :=
  let bn := IBLOCK inum sb in
  let! buf := rsect bn in
  wsect bn (dinode_put ip buf (ioff inum)).
Definition rinode (inum : Z) : M mk dinode :=
  let! buf := rsect (IBLOCK inum sb) in
  ret (dinode_get buf (ioff inum)).

Definition ialloc (type : Z) : M mk Z :=
  let! inum := gets mk_freeinode in
  modify (set_mk_freeinode (inum + 1)) ;;;
  winode inum (Dinode (xshort type) 0 0 (xshort 1) (xint 0) (replicate 13 0)) ;;;
  ret inum.

(** The [i]s from [used - k] to [used - 1]. *)
Fixpoint set_bits (k : nat) (used : Z) (buf : block) : block :=
  match k with
  | O => buf
  | S k' => set_bits k' used (set_bit buf (used - Z.of_nat k))
  end.
Definition balloc (used : Z) : M mk unit :=
  if negb (used <? BSIZE * 8) then panic "assert"
  else wsect (sb_bmapstart sb) (set_bits (Z.to_nat used) used zero_block).

(** [freeblock++] *)
Definition new_block : M mk Z :=
  let! b := gets mk_freeblock in
  modify (set_mk_freeblock (b + 1)) ;;;
  ret b.
(** The block [x] of byte block [fbn] of the file, allocated when it is not there. *)
Definition fblock (din : dinode) (fbn : Z) : M mk (dinode * Z) :=
  if fbn <? NDIRECT then
    let! din :=
      if xint (znth (d_addrs din) fbn) =? 0 then
        let! b := new_block in ret (set_d_addrs (zupd (d_addrs din) fbn (xint b)) din)
      else ret din in
    ret (din, xint (znth (d_addrs din) fbn))
  else
    let! din :=
      if xint (znth (d_addrs din) NDIRECT) =? 0 then
        let! b := new_block in ret (set_d_addrs (zupd (d_addrs din) NDIRECT (xint b)) din)
      else ret din in
    let! indirect := rsect (xint (znth (d_addrs din) NDIRECT)) in
    let! indirect :=
      if get32 indirect (4 * (fbn - NDIRECT)) =? 0 then
        let! b := new_block in
        let indirect := put32 indirect (4 * (fbn - NDIRECT)) (xint b) in
        wsect (xint (znth (d_addrs din) NDIRECT)) indirect ;;; ret indirect
      else ret indirect in
    ret (din, xint (get32 indirect (4 * (fbn - NDIRECT)))).
Fixpoint iappend_loop (fuel : nat) (din : dinode) (off : Z) (p : list Z) : M mk (dinode * Z) :=
  match p, fuel with
  | [], _ => ret (din, off)
  | _, O => fun _ => NoFuel
  | _, S fuel' =>
    let fbn := off / BSIZE in
    if negb (fbn <? MAXFILE) then panic "assert"
    else
    let! (din, x) := fblock din fbn in
    let n1 := Z.min (zlen p) ((fbn + 1) * BSIZE - off) in
    let! buf := rsect x in
    wsect x (splice buf (Z.to_nat (off - fbn * BSIZE)) (take (Z.to_nat n1) p)) ;;;
    iappend_loop fuel' din (off + n1) (drop (Z.to_nat n1) p)
  end.
Definition iappend (inum : Z) (p : list Z) : M mk unit :=
  let! din := rinode inum in
  let! (din, off) := iappend_loop (length p) din (xint (d_size din)) p in
  winode inum (set_d_size (xint off) din).

Fixpoint append_all (inum : Z) (chunks : list (list Z)) : M mk unit :=
  match chunks with
  | [] => ret tt
  | c :: chunks => iappend inum c ;;; append_all inum chunks
  end.
(** One turn of the loop over the arguments. *)
Definition add_file (rootino : Z) (name : list Z) (file : option (list (list Z))) : M mk unit :=
  if existsb (Z.eqb slash) name then panic "assert"
  else
  match file with
  | None => panic "open"
  | Some chunks =>
    let name := match name with c :: rest => if c =? 95 then rest else name | [] => [] end in
    let! inum := ialloc T_FILE in
    iappend rootino (dirent_bytes (Dirent (xshort inum) (strncpy_name (Z.to_nat DIRSIZ) name))) ;;;
    append_all inum chunks
  end.
Fixpoint add_files (rootino : Z) (files : list (list Z * option (list (list Z)))) : M mk unit :=
  match files with
  | [] => ret tt
  | (name, file) :: files => add_file rootino name file ;;; add_files rootino files
  end.
(** [for(i = 0; i < FSSIZE; i++) wsect(i, zeroes);] with [k] turns to go. *)
Fixpoint zero_all (k : nat) (i : Z) : M mk unit :=
  match k with O => ret tt | S k' => wsect i zero_block ;;; zero_all k' (i + 1) end.
Definition main (files : list (list Z * option (list (list Z)))) : M mk unit :=
  modify (set_mk_freeblock nmeta) ;;;
  zero_all (Z.to_nat FSSIZE) 0 ;;;
  wsect 1 sb_block ;;;
  let! rootino := ialloc T_DIR in
  if negb (rootino =? ROOTINO) then panic "assert"
  else
  iappend rootino (dirent_bytes (Dirent (xshort rootino) (46 :: replicate 13 0))) ;;;
  iappend rootino (dirent_bytes (Dirent (xshort rootino) (46 :: 46 :: replicate 12 0))) ;;;
  add_files rootino files ;;;
  let! din := rinode rootino in
  let off := xint (d_size din) in
  let off := (off / BSIZE + 1) * BSIZE in
  winode rootino (set_d_size (xint off) din) ;;;
  let! b := gets mk_freeblock in
  balloc b.
(** The image file is new and empty, and no inode is taken. *)
Definition mk0 : mk := Mk [] 1 0.
