(* ===== verification/MkfsSpec.v ===== *)
(** * The image mkfs writes

    Appending to a file of the image: its bytes, the blocks it owns, and the blocks of the
    other files. *)
From stdpp Require Import list_numbers.
From S2P Require Import Prelude Param Iface Sleeplock CString Fs FsBlock FsPath FsInode FsRead Mkfs.

Lemma xint_small x : 0 <= x < 2 ^ 32 -> xint x = x.
Proof. intros H. unfold xint, u8. rewrite !Z.shiftr_div_pow2 by lia. lia. Qed.
Lemma xshort_small x : 0 <= x < 2 ^ 16 -> xshort x = x.
Proof. intros H. unfold xshort, u8. rewrite !Z.shiftr_div_pow2 by lia. lia. Qed.
Lemma sb_eq : sb = SuperBlock 1000 941 200 30 2 32 58.
Proof. reflexivity. Qed.
Lemma nmeta_eq : nmeta = 59.
Proof. reflexivity. Qed.
Ltac klia := unfold MAXFILE, NINDIRECT, NDIRECT, BSIZE, FSSIZE in *; rewrite ?nmeta_eq in *; lia.

(** ** The blocks and the bytes of an inode *)

Definition nblk (d : dinode) : Z := (d_size d + BSIZE - 1) / BSIZE.
(** The data blocks in order, then the indirect block. *)
Definition owned (v : Z -> block) (d : dinode) : list Z :=
  (addr_of v d <$> seqZ 0 (nblk d)) ++
  (if NDIRECT * BSIZE <? d_size d then [znth (d_addrs d) NDIRECT] else []).
Definition content (v : Z -> block) (d : dinode) : list Z := file_bytes (Z.to_nat (d_size d)) v d 0.
(** Nothing is allocated past the end. *)
Record tidy (v : Z -> block) (d : dinode) : Prop := {
  ti_size : 0 <= d_size d <= MAXFILE * BSIZE;
  ti_len : length (d_addrs d) = 13%nat;
  ti_direct bn : nblk d <= bn < NDIRECT -> znth (d_addrs d) bn = 0;
  ti_noind : d_size d <= NDIRECT * BSIZE -> znth (d_addrs d) NDIRECT = 0;
  ti_ind bn : NDIRECT * BSIZE < d_size d -> nblk d <= bn < MAXFILE -> NDIRECT <= bn ->
    get32 (v (znth (d_addrs d) NDIRECT)) (4 * (bn - NDIRECT)) = 0
}.

Lemma owned_data v d bn : 0 <= bn < nblk d -> addr_of v d bn ∈ owned v d.
Proof. intros H. apply elem_of_app. left. apply list_elem_of_fmap. exists bn. split; [done|]. apply elem_of_seqZ. lia. Qed.
Lemma owned_ind v d : NDIRECT * BSIZE < d_size d -> znth (d_addrs d) NDIRECT ∈ owned v d.
Proof. intros H. apply elem_of_app. right. rewrite (proj2 (Z.ltb_lt _ _)) by done. by left. Qed.
Lemma nblk_ind d bn : 0 <= d_size d -> NDIRECT <= bn < nblk d -> NDIRECT * BSIZE < d_size d.
Proof. unfold nblk. klia. Qed.
Lemma owned_inj v d bn bm : NoDup (owned v d) -> 0 <= bn < nblk d -> 0 <= bm < nblk d -> addr_of v d bn = addr_of v d bm -> bn = bm.
Proof.
  intros [HN _]%NoDup_app Hn Hm E. assert (Z.to_nat bn = Z.to_nat bm); [|lia].
  apply (NoDup_lookup _ _ _ (addr_of v d bn) HN); rewrite list_lookup_fmap, lookup_seqZ_lt by lia; simpl; rewrite Z2Nat.id by lia.
  - done.
  - by rewrite E.
Qed.
Lemma owned_not_ind v d bn : NoDup (owned v d) -> NDIRECT * BSIZE < d_size d -> 0 <= bn < nblk d ->
  addr_of v d bn <> znth (d_addrs d) NDIRECT.
Proof.
  intros [_ [HN _]]%NoDup_app Hs Hn E. apply (HN (addr_of v d bn)).
  - apply list_elem_of_fmap. exists bn. split; [done|]. apply elem_of_seqZ. lia.
  - rewrite (proj2 (Z.ltb_lt _ _)) by done. rewrite E. by left.
Qed.
Lemma file_bytes_ext n v v' d d' off : (forall k, off <= k < off + Z.of_nat n -> file_byte v' d' k = file_byte v d k) ->
  file_bytes n v' d' off = file_bytes n v d off.
Proof.
  revert off. induction n as [|n IH]; intros off H; [done|]. cbn [file_bytes]. rewrite H by lia. f_equal. apply IH. intros k Hk. apply H. lia.
Qed.
(** An inode depends only on the blocks it owns. *)
Lemma owned_frame v v' d : 0 <= d_size d -> (forall b, b ∈ owned v d -> v' b = v b) ->
  (forall bn, 0 <= bn < nblk d -> addr_of v' d bn = addr_of v d bn) /\ owned v' d = owned v d /\ content v' d = content v d /\
  (tidy v d -> tidy v' d).
Proof.
  intros Hs H.
  assert (Hind : NDIRECT * BSIZE < d_size d -> v' (znth (d_addrs d) NDIRECT) = v (znth (d_addrs d) NDIRECT)) by (intros; by apply H, owned_ind).
  assert (Ha : forall bn, 0 <= bn < nblk d -> addr_of v' d bn = addr_of v d bn).
  { intros bn Hn. unfold addr_of. destruct (Z.ltb_spec bn NDIRECT); [done|]. rewrite Hind; [done|]. apply (nblk_ind d bn); [done|lia]. }
  split; [done|]. split; [|split].
  - unfold owned. f_equal. apply list_fmap_ext. intros i bn Hi. apply lookup_seqZ in Hi as [-> Hi]. apply Ha. lia.
  - apply file_bytes_ext. intros k Hk. assert (Hb : 0 <= k / BSIZE < nblk d) by (unfold nblk; klia).
    unfold file_byte. rewrite Ha by done. by rewrite H by (by apply owned_data).
  - intros [T1 T2 T3 T4 T5]. split; try done. intros bn Hi Hb Hn. rewrite Hind by done. by apply T5.
Qed.

(** The last block is zero after the end of the file. *)
Definition tail_zero (v : Z -> block) (d : dinode) : Prop :=
  forall k, d_size d <= k < nblk d * BSIZE -> file_byte v d k = 0.
Lemma tail_frame v v' d : 0 <= d_size d -> (forall b, b ∈ owned v d -> v' b = v b) -> tail_zero v d -> tail_zero v' d.
Proof.
  intros Hs H HT k Hk. assert (Hb : 0 <= k / BSIZE < nblk d) by (unfold nblk in *; klia).
  destruct (owned_frame v v' d Hs H) as (Ha & _). rewrite <-(HT k Hk). unfold file_byte. rewrite Ha by done.
  by rewrite H by (by apply owned_data).
Qed.

(** ** One more piece of a file *)

(** What finding, or allocating, the block [x] of byte [off] has done: the blocks from
    [fb] to [fb1 - 1] are new. *)
Record found (v : Z -> block) (d : dinode) (off n fb : Z) (v1 : Z -> block) (d' : dinode) (x fb1 : Z) : Prop := {
  fo_addr bn : 0 <= bn < nblk d -> addr_of v1 d' bn = addr_of v d bn /\ v1 (addr_of v d bn) = v (addr_of v d bn);
  fo_x : addr_of v1 d' (off / BSIZE) = x;
  fo_fb : fb <= fb1;
  fo_owned : owned v1 (set_d_size (off + n) d') ≡ₚ owned v d ++ seqZ fb (fb1 - fb);
  fo_tidy : tidy v1 (set_d_size (off + n) d');
  fo_other b : b < fb -> b ∉ owned v d -> v1 b = v b;
  fo_free b : fb1 <= b -> v1 b = v b;
  fo_new : off mod BSIZE = 0 -> v1 x = zero_block
}.
Lemma owned_nodup_ext v d fb m : NoDup (owned v d) -> Forall (fun b => b < fb) (owned v d) -> NoDup (owned v d ++ seqZ fb m).
Proof.
  intros HN HF. apply NoDup_app. split; [done|]. split; [|apply NoDup_seqZ]. intros b Hb Hs%elem_of_seqZ.
  rewrite Forall_forall in HF. specialize (HF b Hb). lia.
Qed.
Lemma take_splice (l c : list Z) o : (o + length c <= length l)%nat -> take (length c) (drop o (splice l o c)) = c.
Proof.
  intros H. unfold splice. rewrite drop_app_length' by (rewrite length_take; lia). by rewrite take_app_length.
Qed.
Lemma znth_zero i : znth zero_block i = 0.
Proof.
  unfold znth, zero_block. case_match; [done|]. rewrite nth_lookup.
  destruct (replicate _ 0 !! _) as [x|] eqn:E; [|done]. by apply lookup_replicate_1 in E as [-> _].
Qed.
Lemma znth_splice_before (l c : list Z) o k : (o + length c <= length l)%nat -> 0 <= k < Z.of_nat o -> znth (splice l o c) k = znth l k.
Proof.
  intros H Hk. unfold znth. destruct (Z.ltb_spec k 0); [lia|]. rewrite !nth_lookup. by rewrite lookup_splice_out by lia.
Qed.

Lemma znth_splice_after (l c : list Z) o k : (o + length c <= length l)%nat -> Z.of_nat o + zlen c <= k -> znth (splice l o c) k = znth l k.
Proof.
  unfold zlen. intros H Hk. unfold znth. destruct (Z.ltb_spec k 0); [lia|]. rewrite !nth_lookup. by rewrite lookup_splice_out by lia.
Qed.
Lemma append_piece v d off c fb v1 d' x fb1 : d_size d = off -> tidy v d -> NoDup (owned v d) ->
  Forall (fun b => b < fb) (owned v d) -> c <> [] -> off mod BSIZE + zlen c <= BSIZE -> zlen (v1 x) = BSIZE ->
  found v d off (zlen c) fb v1 d' x fb1 ->
  let v2 := fun b => if b =? x then splice (v1 x) (Z.to_nat (off mod BSIZE)) c else v1 b in
  let d2 := set_d_size (off + zlen c) d' in
  owned v2 d2 = owned v1 d2 /\ tidy v2 d2 /\ content v2 d2 = content v d ++ c /\ x ∈ owned v1 d2 /\ NoDup (owned v1 d2) /\
  (tail_zero v d -> tail_zero v2 d2).
Proof.
  intros Hsz HT HN HF Hc Hfit Hlx [FA FX Ffb FO FT FB FF FN] v2 d2. pose proof (ti_size _ _ HT) as Hs0.
  assert (Hc1 : 1 <= zlen c) by (destruct c; [done|]; unfold zlen; simpl; lia). pose proof (ti_size _ _ FT) as Hs2. cbn [set_d_size d_size] in Hs2.
  assert (Hn2 : nblk d2 = off / BSIZE + 1) by (unfold nblk, d2; cbn [set_d_size d_size]; klia).
  assert (Hnd : nblk d <= nblk d2 /\ off / BSIZE <= nblk d) by (rewrite Hn2; unfold nblk; rewrite Hsz; klia).
  assert (HN2 : NoDup (owned v1 d2)) by (unfold d2; rewrite FO; by apply owned_nodup_ext).
  assert (FX2 : addr_of v1 d2 (off / BSIZE) = x) by exact FX.
  assert (FA2 : forall bn, 0 <= bn < nblk d -> addr_of v1 d2 bn = addr_of v d bn /\ v1 (addr_of v d bn) = v (addr_of v d bn)) by exact FA.
  assert (Hx : x ∈ owned v1 d2) by (rewrite <-FX2; apply owned_data; rewrite Hn2; klia).
  assert (Hxi : NDIRECT * BSIZE < d_size d2 -> x <> znth (d_addrs d2) NDIRECT).
  { intros Hi. rewrite <-FX2. apply owned_not_ind; [done|done|]. rewrite Hn2. klia. }
  assert (Hv2i : NDIRECT * BSIZE < d_size d2 -> v2 (znth (d_addrs d2) NDIRECT) = v1 (znth (d_addrs d2) NDIRECT)).
  { intros Hi. unfold v2. rewrite (proj2 (Z.eqb_neq _ _)); [done|]. intros E. by apply Hxi. }
  assert (HA : forall bn, 0 <= bn < nblk d2 -> addr_of v2 d2 bn = addr_of v1 d2 bn).
  { intros bn Hb. unfold addr_of. destruct (Z.ltb_spec bn NDIRECT); [done|]. rewrite Hv2i; [done|].
    apply (nblk_ind d2 bn); [cbn; lia|lia]. }
  split; [|split; [|split; [|split; [done|split; [done|]]]]].
  - unfold owned. f_equal. apply list_fmap_ext. intros i bn Hi. apply lookup_seqZ in Hi as [-> Hi]. apply HA. lia.
  - destruct FT as [T1 T2 T3 T4 T5]. split; try done. intros bn Hi Hb Hn. rewrite Hv2i by done. by apply T5.
  - unfold content. replace (Z.to_nat (d_size d2)) with (Z.to_nat off + length c)%nat by (cbn; unfold zlen; lia).
    rewrite file_bytes_app, Hsz. f_equal.
    + apply file_bytes_ext. intros k Hk. assert (Hb : 0 <= k / BSIZE < nblk d) by (unfold nblk; rewrite Hsz; klia).
      unfold file_byte. rewrite HA by lia. destruct (FA2 _ Hb) as [-> Ev].
      unfold v2. destruct (Z.eqb_spec (addr_of v d (k / BSIZE)) x) as [E|E]; [|by rewrite Ev].
      rewrite <-E, Ev. apply znth_splice_before; [rewrite <-Ev, E; unfold zlen in *; klia|].
      assert (k / BSIZE = off / BSIZE); [|klia]. apply (owned_inj v1 d2); [done|lia|rewrite Hn2; klia|].
      by rewrite (proj1 (FA2 _ Hb)), FX2.
    + rewrite Z.add_0_l, Z2Nat.id by lia. rewrite file_bytes_block by (unfold zlen in *; klia).
      rewrite HA by (rewrite Hn2; klia). rewrite FX2.
      unfold v2. rewrite Z.eqb_refl. set (l := splice _ _ _).
      rewrite <-(take_drop_znth l (off mod BSIZE) (length c)).
      * unfold l. apply take_splice. unfold zlen in *. klia.
      * klia.
      * unfold l, zlen in *. rewrite length_splice; klia.
  - intros Htl k Hk. rewrite Hn2 in Hk. unfold d2 in Hk. cbn [set_d_size d_size] in Hk.
    assert (Ek : k / BSIZE = off / BSIZE) by klia. unfold file_byte. rewrite Ek, HA, FX2 by (rewrite Hn2; klia).
    unfold v2. rewrite Z.eqb_refl, znth_splice_after by (unfold zlen in *; klia).
    destruct (decide (off mod BSIZE = 0)) as [Hm|Hm]; [by rewrite FN, znth_zero|].
    assert (Hb : 0 <= off / BSIZE < nblk d) by (unfold nblk; rewrite Hsz; klia).
    rewrite <-FX2. destruct (FA2 _ Hb) as [-> ->]. rewrite <-Ek. apply (Htl k). unfold nblk. rewrite Hsz. klia.
Qed.

(** ** The image as a map of blocks *)

Definition byte (c : Z) : Prop := 0 <= c < 256.
Definition bok (b : block) : Prop := block_ok b /\ Forall byte b.
Definition view (s : mk) (k : Z) : block := nth (Z.to_nat k) (mk_img s) zero_block.
Definition put (k : Z) (b : block) (s : mk) : mk := set_mk_img (<[Z.to_nat k := b]> (mk_img s)) s.
Record disk_ok (s : mk) : Prop := {
  dk_len : length (mk_img s) = Z.to_nat FSSIZE;
  dk_fb : nmeta <= mk_freeblock s <= FSSIZE;
  dk_block k : bok (view s k);
  dk_free k : mk_freeblock s <= k -> view s k = zero_block
}.

Lemma image_put s x b k : length (mk_img s) = Z.to_nat FSSIZE -> 0 < x < FSSIZE -> view (put x b s) k = if k =? x then b else view s k.
Proof.
  intros Hl Hx. unfold view, put. cbn [set_mk_img mk_img]. destruct (Z.eqb_spec k x) as [->|Hne].
  - apply nth_insert_eq. klia.
  - apply nth_insert_ne. klia.
Qed.
Lemma length_put s x b : length (mk_img (put x b s)) = length (mk_img s).
Proof. apply length_insert. Qed.
Lemma rsect_eq s k : length (mk_img s) = Z.to_nat FSSIZE -> 0 <= k < FSSIZE -> rsect k s = Ret (view s k) s.
Proof.
  intros Hl Hk. unfold rsect, view. destruct (lookup_lt_is_Some_2 (mk_img s) (Z.to_nat k)) as [b Hb]; [klia|].
  by rewrite Hb, (nth_lookup_Some _ _ _ _ Hb).
Qed.
Lemma wsect_eq s k b : length (mk_img s) = Z.to_nat FSSIZE -> 0 <= k < FSSIZE -> wsect k b s = Ret tt (put k b s).
Proof. intros Hl Hk. unfold wsect, modify, put. by rewrite (proj2 (Nat.ltb_lt _ _)) by klia. Qed.
Lemma byte_u8 x : byte (u8 x).
Proof. apply u8_range. Qed.
Lemma zupd_bytes b i x : Forall byte b -> byte x -> Forall byte (zupd b i x).
Proof. intros Hb Hx. unfold zupd. case_match; [done|]. by apply Forall_insert. Qed.
Lemma put16_bytes b o x : Forall byte b -> Forall byte (put16 b o x).
Proof. intros. unfold put16. by repeat apply zupd_bytes; try apply byte_u8. Qed.
Lemma put32_bytes b o x : Forall byte b -> Forall byte (put32 b o x).
Proof. intros. unfold put32. by repeat apply put16_bytes. Qed.
Lemma put32_bok b o x : bok b -> bok (put32 b o x).
Proof. intros [H1 H2]. split; [unfold block_ok; by rewrite zlen_put32|by apply put32_bytes]. Qed.
Lemma get32_zero o : get32 zero_block o = 0.
Proof. unfold get32, get16. by rewrite !znth_zero. Qed.
Lemma zero_bok : bok zero_block.
Proof. split; [done|]. unfold zero_block. apply Forall_replicate. unfold byte. lia. Qed.
Lemma splice_bok b o c : bok b -> Forall byte c -> (o + length c <= length b)%nat -> bok (splice b o c).
Proof.
  intros [H1 H2] Hc Hl. split; [unfold block_ok, zlen; rewrite length_splice by done; exact H1|].
  unfold splice. rewrite !Forall_app. split; [by apply Forall_take|]. split; [done|by apply Forall_drop].
Qed.
Lemma bok_len b : bok b -> zlen b = BSIZE.
Proof. by intros [H _]. Qed.

(** The blocks a file of [n] bytes owns. *)
Definition cost (n : Z) : Z := (n + BSIZE - 1) / BSIZE + (if NDIRECT * BSIZE <? n then 1 else 0).

Lemma owned_grow v v1 d0 d2 : 0 <= nblk d0 -> nblk d2 = nblk d0 + 1 ->
  (forall bn, 0 <= bn < nblk d0 -> addr_of v1 d2 bn = addr_of v d0 bn) ->
  addr_of v d0 <$> seqZ 0 (nblk d0) = addr_of v1 d2 <$> seqZ 0 (nblk d0) /\
  addr_of v1 d2 <$> seqZ 0 (nblk d2) = (addr_of v1 d2 <$> seqZ 0 (nblk d0)) ++ [addr_of v1 d2 (nblk d0)].
Proof.
  intros H0 H2 HA. split.
  - apply list_fmap_ext. intros i bn Hi. apply lookup_seqZ in Hi as [-> Hi]. symmetry. apply HA. lia.
  - rewrite H2, seqZ_app, fmap_app by lia. done.
Qed.

Section Fblock.
Variables (s : mk) (d : dinode) (off n : Z).
Let fb := mk_freeblock s.
Let d0 := set_d_size off d.
Hypothesis s_ok : disk_ok s.
Hypothesis d_tidy : tidy (view s) d0.
Hypothesis d_nodup : NoDup (owned (view s) d0).
Hypothesis d_range : Forall (fun b => nmeta <= b < fb) (owned (view s) d0).
Hypothesis n_ok : 1 <= n /\ off mod BSIZE + n <= BSIZE /\ off + n <= MAXFILE * BSIZE.
Hypothesis room : fb + cost (off + n) - cost off <= FSSIZE.

Definition fblock_post (d' : dinode) (x : Z) (s1 : mk) : Prop :=
  found (view s) d0 off n fb (view s1) d' x (mk_freeblock s1) /\ disk_ok s1 /\ mk_freeblock s1 = fb + cost (off + n) - cost off /\
  mk_freeinode s1 = mk_freeinode s /\ nmeta <= x < mk_freeblock s1 /\ d' = set_d_addrs (d_addrs d') d.

Lemma off_ok : 0 <= off <= MAXFILE * BSIZE.
Proof. apply (ti_size _ _ d_tidy). Qed.
Lemma owned_in bn : 0 <= bn < nblk d0 -> nmeta <= addr_of (view s) d0 bn < fb.
Proof. intros H. rewrite Forall_forall in d_range. apply d_range. by apply owned_data. Qed.
Lemma ind_in : NDIRECT * BSIZE < off -> nmeta <= znth (d_addrs d) NDIRECT < fb.
Proof. intros H. rewrite Forall_forall in d_range. apply (d_range (znth (d_addrs d0) NDIRECT)). by apply owned_ind. Qed.
Lemma set_addrs_id : set_d_addrs (d_addrs d) d = d.
Proof. by destruct d. Qed.

(** The block is there. *)
Lemma fblock_old : off mod BSIZE <> 0 -> exists x, fblock d (off / BSIZE) s = Ret (d, x) s /\ fblock_post d x s.
Proof.
  intros Hm. pose proof off_ok as Ho. pose proof (dk_fb _ s_ok) as Hfb. fold fb in Hfb.
  assert (Hn0 : nblk d0 = off / BSIZE + 1) by (unfold nblk, d0; cbn [set_d_size d_size]; klia).
  assert (Hn2 : nblk (set_d_size (off + n) d) = nblk d0) by (rewrite Hn0; unfold nblk; cbn [set_d_size d_size]; klia).
  pose proof (owned_in (off / BSIZE) ltac:(rewrite Hn0; klia)) as Hx.
  assert (Hc : cost (off + n) = cost off).
  { unfold cost. destruct (Z.ltb_spec (NDIRECT * BSIZE) (off + n)), (Z.ltb_spec (NDIRECT * BSIZE) off); klia. }
  exists (addr_of (view s) d0 (off / BSIZE)). split.
  - unfold fblock, addr_of in *. cbn [d0 set_d_size d_addrs] in *. destruct (Z.ltb_spec (off / BSIZE) NDIRECT) as [Hd|Hd].
    + rewrite xint_small, (proj2 (Z.eqb_neq _ 0)) by klia. mrun. unfold ret. by rewrite xint_small by klia.
    + pose proof (ind_in ltac:(klia)) as Hi. rewrite xint_small, (proj2 (Z.eqb_neq _ 0)) by klia. mrun.
      rewrite xint_small by klia. erewrite bind_eq by (apply rsect_eq; [apply s_ok|klia]).
      rewrite (proj2 (Z.eqb_neq _ 0)) by klia. mrun. unfold ret. by rewrite xint_small by klia.
  - split; [|split; [done|split; [lia|split; [done|split; [lia|symmetry; apply set_addrs_id]]]]].
    split; try done.
    + fold fb. rewrite Z.sub_diag, seqZ_nil, app_nil_r by lia. unfold owned. rewrite Hn2. unfold d0.
      cbn [set_d_size d_size d_addrs]. replace (NDIRECT * BSIZE <? off + n) with (NDIRECT * BSIZE <? off); [done|].
      destruct (Z.ltb_spec (NDIRECT * BSIZE) (off + n)), (Z.ltb_spec (NDIRECT * BSIZE) off); klia.
    + destruct d_tidy as [T1 T2 T3 T4 T5]. unfold d0 in T1, T2, T3, T4, T5. cbn [set_d_size d_size d_addrs] in *.
      split; cbn [set_d_size d_size d_addrs]; rewrite ?Hn2; try done; [klia| |].
      * intros Hi. apply T4. klia.
      * intros bn Hi Hb Hd. apply T5; [klia|done|done].
Qed.

(** [freeblock++]. *)
Lemma free_zero b : fb <= b -> view s b = zero_block.
Proof. apply (dk_free _ s_ok). Qed.
Lemma disk_ok_more s1 : mk_img s1 = mk_img s -> fb <= mk_freeblock s1 <= FSSIZE -> disk_ok s1.
Proof.
  destruct s_ok as [H1 H2 H3 H4]. fold fb in H2, H4. intros E Hb. split; unfold view; rewrite ?E; try done; [lia|].
  intros k Hk. apply H4. lia.
Qed.
(** The new blocks of an inode are not the indirect block it has. *)
Lemma data_not_ind bn : NDIRECT * BSIZE < off -> 0 <= bn < nblk d0 -> addr_of (view s) d0 bn <> znth (d_addrs d) NDIRECT.
Proof. intros H. by apply (owned_not_ind (view s) d0). Qed.

Lemma fblock_direct : off mod BSIZE = 0 -> off / BSIZE < NDIRECT ->
  exists d' x s1, fblock d (off / BSIZE) s = Ret (d', x) s1 /\ fblock_post d' x s1.
Proof.
  intros Hm Hd. pose proof off_ok as Ho. pose proof (dk_fb _ s_ok) as Hfb. fold fb in Hfb.
  destruct d_tidy as [T1 T2 T3 T4 T5]. unfold d0 in T2, T3, T4, T5. cbn [set_d_size d_size d_addrs] in T2, T3, T4, T5.
  assert (Hn0 : nblk d0 = off / BSIZE) by (unfold nblk, d0; cbn [set_d_size d_size]; klia).
  set (d' := set_d_addrs (zupd (d_addrs d) (off / BSIZE) fb) d). set (d2 := set_d_size (off + n) d').
  assert (Hn2 : nblk d2 = nblk d0 + 1) by (rewrite Hn0; unfold nblk, d2; cbn [set_d_size d_size]; klia).
  assert (Hc : cost (off + n) = cost off + 1).
  { unfold cost. destruct (Z.ltb_spec (NDIRECT * BSIZE) (off + n)), (Z.ltb_spec (NDIRECT * BSIZE) off); klia. }
  assert (Hz : forall bn, znth (zupd (d_addrs d) (off / BSIZE) fb) bn = if off / BSIZE =? bn then fb else znth (d_addrs d) bn).
  { intros bn. apply znth_zupd. unfold zlen. klia. }
  exists d', fb, (set_mk_freeblock (fb + 1) s). split.
  - unfold fblock. rewrite (proj2 (Z.ltb_lt _ _)) by done. fold (nblk (set_d_size off d)) in T3. fold d0 in T3.
    rewrite T3, xint_small, Z.eqb_refl by klia. unfold new_block. mrun. fold fb. rewrite (xint_small fb) by klia.
    fold d'. cbn [d' set_d_addrs d_addrs]. rewrite Hz, Z.eqb_refl, xint_small by klia. done.
  - assert (HA : forall bn, 0 <= bn < nblk d0 -> addr_of (view s) d2 bn = addr_of (view s) d0 bn).
    { intros bn Hb. unfold addr_of, d2, d', d0. cbn [set_d_size set_d_addrs d_addrs]. rewrite (proj2 (Z.ltb_lt _ _)) by klia.
      rewrite Hz. destruct (Z.eqb_spec (off / BSIZE) bn); [klia|done]. }
    assert (HX : addr_of (view s) d2 (off / BSIZE) = fb).
    { unfold addr_of, d2, d'. cbn [set_d_size set_d_addrs d_addrs]. by rewrite (proj2 (Z.ltb_lt _ _)), Hz, Z.eqb_refl by done. }
    split; [|split; [apply disk_ok_more; [done|cbn; klia]|split; [cbn; lia|split; [done|split; [cbn; lia|done]]]]].
    split; try done; [intros bn Hb; split; [by apply HA|done]|cbn; lia| | |intros _; change (view (set_mk_freeblock (fb + 1) s)) with (view s); apply free_zero; lia].
    + cbn [set_mk_freeblock mk_freeblock]. replace (fb + 1 - fb) with 1 by lia. change (view (set_mk_freeblock (fb + 1) s)) with (view s).
      fold d2. destruct (owned_grow (view s) (view s) d0 d2 ltac:(rewrite Hn0; klia) Hn2 HA) as [E1 E2]. unfold owned.
      rewrite E2, <-E1, Hn0, HX. unfold d2, d0. cbn [set_d_size d_size].
      rewrite !(proj2 (Z.ltb_ge _ _)) by klia. by rewrite !app_nil_r.
    + change (view (set_mk_freeblock (fb + 1) s)) with (view s). fold d2. split; unfold d2; cbn [set_d_size d_size d' set_d_addrs d_addrs]; fold d' d2; try done.
      * klia.
      * by rewrite length_zupd.
      * intros bn Hb. rewrite Hz. rewrite (proj2 (Z.eqb_neq _ _)) by klia. apply T3. fold d0. klia.
      * intros _. rewrite Hz, (proj2 (Z.eqb_neq _ _)) by klia. apply T4. klia.
      * klia.
Qed.

(** The first block past the direct ones: the indirect block and the data block. *)
Lemma fblock_first : off = NDIRECT * BSIZE ->
  exists d' x s1, fblock d (off / BSIZE) s = Ret (d', x) s1 /\ fblock_post d' x s1.
Proof.
  intros Hd. pose proof (dk_fb _ s_ok) as Hfb. fold fb in Hfb. pose proof (dk_len _ s_ok) as Hl.
  assert (Ho : off / BSIZE = 12) by (rewrite Hd; done).
  destruct d_tidy as [T1 T2 T3 T4 T5]. unfold d0 in T2, T3, T4, T5. cbn [set_d_size d_size d_addrs] in T2, T3, T4, T5.
  assert (Hn0 : nblk d0 = 12) by (unfold nblk, d0; cbn [set_d_size d_size]; klia).
  set (d' := set_d_addrs (zupd (d_addrs d) NDIRECT fb) d). set (d2 := set_d_size (off + n) d').
  assert (Hn2 : nblk d2 = nblk d0 + 1) by (rewrite Hn0; unfold nblk, d2; cbn [set_d_size d_size]; klia).
  assert (Hc : cost (off + n) = cost off + 2).
  { unfold cost. destruct (Z.ltb_spec (NDIRECT * BSIZE) (off + n)), (Z.ltb_spec (NDIRECT * BSIZE) off); klia. }
  assert (Hz : forall bn, znth (zupd (d_addrs d) NDIRECT fb) bn = if NDIRECT =? bn then fb else znth (d_addrs d) bn).
  { intros bn. apply znth_zupd. unfold zlen. klia. }
  set (ind := put32 zero_block 0 (fb + 1)).
  assert (Hg : get32 ind 0 = fb + 1) by (unfold ind; rewrite get32_put32_eq; [apply u32_small; klia|lia|done]).
  set (s1 := put fb ind (set_mk_freeblock (fb + 2) s)).
  assert (V1 : forall k, view s1 k = if k =? fb then ind else view s k) by (intros k; unfold s1; rewrite image_put; [done|exact Hl|klia]).
  exists d', (fb + 1), s1. split.
  - unfold fblock. rewrite Ho. change (12 <? NDIRECT) with false. change (4 * (12 - NDIRECT)) with 0.
    rewrite T4, xint_small, Z.eqb_refl by klia. unfold new_block. mrun. fold fb. rewrite (xint_small fb) by klia. fold d'.
    cbn [d' set_d_addrs d_addrs]. rewrite Hz, Z.eqb_refl, (xint_small fb) by klia. fold d'.
    erewrite bind_eq by (apply rsect_eq; [exact Hl|klia]). change (view (set_mk_freeblock (fb + 1) s)) with (view s).
    rewrite (free_zero fb) by lia. change (get32 zero_block 0 =? 0) with true. mrun. mrun.
    cbn [mk_freeblock set_mk_freeblock]. rewrite (xint_small (fb + 1)) by klia. fold ind.
    erewrite bind_eq by (apply wsect_eq; [exact Hl|klia]). mrun. rewrite Hg, xint_small by klia.
    replace (fb + 1 + 1) with (fb + 2) by lia. done.
  - assert (HA : forall bn, 0 <= bn < nblk d0 -> addr_of (view s1) d2 bn = addr_of (view s) d0 bn).
    { intros bn Hb. unfold addr_of, d2, d', d0. cbn [set_d_size set_d_addrs d_addrs]. rewrite (proj2 (Z.ltb_lt _ _)) by klia.
      rewrite Hz. destruct (Z.eqb_spec NDIRECT bn); [klia|done]. }
    assert (HX : addr_of (view s1) d2 12 = fb + 1).
    { unfold addr_of, d2, d'. cbn [set_d_size set_d_addrs d_addrs]. change (12 <? NDIRECT) with false. cbv iota.
      rewrite Hz, Z.eqb_refl, V1, Z.eqb_refl. exact Hg. }
    assert (Hout : forall b, b <> fb -> view s1 b = view s b) by (intros b Hb; rewrite V1; by rewrite (proj2 (Z.eqb_neq _ _))).
    split; [|split; [|split; [cbn; lia|split; [done|split; [cbn; lia|done]]]]].
    + split.
      * intros bn Hb. split; [by apply HA|]. apply Hout. pose proof (owned_in bn Hb). lia.
      * rewrite Ho. exact HX.
      * cbn. lia.
      * fold d2. cbn [s1 put set_mk_img set_mk_freeblock mk_freeblock]. replace (fb + 2 - fb) with 2 by lia.
        destruct (owned_grow (view s) (view s1) d0 d2 ltac:(lia) Hn2 HA) as [E1 E2]. unfold owned.
        rewrite E2, <-E1, Hn0, HX. unfold d2, d0, d'. cbn [set_d_size set_d_addrs d_size d_addrs].
        rewrite (proj2 (Z.ltb_ge _ off)), (proj2 (Z.ltb_lt _ (off + n))) by klia. rewrite Hz, Z.eqb_refl, app_nil_r.
        rewrite <-(assoc_L (++)). apply Permutation_app_head. rewrite !seqZ_cons, seqZ_nil by lia. apply Permutation_swap.
      * fold d2. split; unfold d2; cbn [set_d_size d_size d' set_d_addrs d_addrs]; fold d' d2.
        -- klia.
        -- by rewrite length_zupd.
        -- intros bn Hb. klia.
        -- klia.
        -- intros bn _ Hb Hb'. rewrite Hz, Z.eqb_refl, V1, Z.eqb_refl. unfold ind.
           rewrite get32_put32_ne; [|lia|done|klia]. by rewrite get32_zero.
      * intros b Hb _. apply Hout. lia.
      * intros b Hb. apply Hout. cbn in Hb. lia.
      * intros _. rewrite Hout by lia. apply free_zero. lia.
    + split; [unfold s1; rewrite length_put; exact Hl|cbn; klia| |].
      * intros k. rewrite V1. destruct (k =? fb); [|apply s_ok]. apply put32_bok, zero_bok.
      * intros k Hk. cbn in Hk. rewrite Hout by lia. apply free_zero. lia.
Qed.

(** A later one: an entry of the indirect block. *)
Lemma fblock_indirect : off mod BSIZE = 0 -> NDIRECT < off / BSIZE ->
  exists d' x s1, fblock d (off / BSIZE) s = Ret (d', x) s1 /\ fblock_post d' x s1.
Proof.
  intros Hm Hd. pose proof off_ok as Ho. pose proof (dk_fb _ s_ok) as Hfb. fold fb in Hfb. pose proof (dk_len _ s_ok) as Hl.
  destruct d_tidy as [T1 T2 T3 T4 T5]. unfold d0 in T2, T3, T4, T5. cbn [set_d_size d_size d_addrs] in T2, T3, T4, T5.
  assert (Hn0 : nblk d0 = off / BSIZE) by (unfold nblk, d0; cbn [set_d_size d_size]; klia).
  set (d2 := set_d_size (off + n) d).
  assert (Hn2 : nblk d2 = nblk d0 + 1) by (rewrite Hn0; unfold nblk, d2; cbn [set_d_size d_size]; klia).
  assert (Hc : cost (off + n) = cost off + 1).
  { unfold cost. destruct (Z.ltb_spec (NDIRECT * BSIZE) (off + n)), (Z.ltb_spec (NDIRECT * BSIZE) off); klia. }
  pose proof (ind_in ltac:(klia)) as Hi. set (a := znth (d_addrs d) NDIRECT) in *. set (e := 4 * (off / BSIZE - NDIRECT)).
  pose proof (bok_len _ (dk_block _ s_ok a)) as Hbl. assert (He : 0 <= e /\ e + 4 <= BSIZE) by (unfold e; klia).
  set (ind := put32 (view s a) e fb).
  assert (Hg : get32 ind e = fb) by (unfold ind; rewrite get32_put32_eq; [apply u32_small; klia|lia|lia]).
  set (s1 := put a ind (set_mk_freeblock (fb + 1) s)).
  assert (V1 : forall k, view s1 k = if k =? a then ind else view s k) by (intros k; unfold s1; rewrite image_put; [done|exact Hl|klia]).
  exists d, fb, s1. split.
  - unfold fblock. rewrite (proj2 (Z.ltb_ge _ _)) by klia. fold a e. rewrite (xint_small a), (proj2 (Z.eqb_neq a 0)) by klia. mrun.
    fold a. rewrite (xint_small a) by klia. erewrite bind_eq by (apply rsect_eq; [exact Hl|klia]).
    replace (get32 (view s a) e) with 0 by (symmetry; apply T5; fold d0; klia). cbn [Z.eqb]. unfold new_block. mrun. mrun. fold fb. rewrite (xint_small fb) by klia. fold ind.
    erewrite bind_eq by (apply wsect_eq; [exact Hl|klia]). mrun. by rewrite Hg, xint_small by klia.
  - assert (Hout : forall b, b <> a -> view s1 b = view s b) by (intros b Hb; rewrite V1; by rewrite (proj2 (Z.eqb_neq _ _))).
    assert (HA : forall bn, 0 <= bn < nblk d0 -> addr_of (view s1) d2 bn = addr_of (view s) d0 bn).
    { intros bn Hb. unfold addr_of, d2, d0. cbn [set_d_size d_addrs]. destruct (Z.ltb_spec bn NDIRECT); [done|]. fold a.
      rewrite V1, Z.eqb_refl. unfold ind. apply get32_put32_ne; unfold e; klia. }
    assert (HX : addr_of (view s1) d2 (off / BSIZE) = fb).
    { unfold addr_of, d2. cbn [set_d_size d_addrs]. rewrite (proj2 (Z.ltb_ge _ _)) by klia. fold a e. by rewrite V1, Z.eqb_refl. }
    split; [|split; [|split; [cbn; lia|split; [done|split; [cbn; lia|symmetry; apply set_addrs_id]]]]].
    + split.
      * intros bn Hb. split; [by apply HA|]. apply Hout. apply data_not_ind; [klia|done].
      * exact HX.
      * cbn. lia.
      * fold d2. cbn [s1 put set_mk_img set_mk_freeblock mk_freeblock]. replace (fb + 1 - fb) with 1 by lia.
        destruct (owned_grow (view s) (view s1) d0 d2 ltac:(lia) Hn2 HA) as [E1 E2]. unfold owned.
        rewrite E2, <-E1, Hn0, HX. unfold d2, d0. cbn [set_d_size d_size d_addrs].
        rewrite !(proj2 (Z.ltb_lt _ _)) by klia. rewrite <-!(assoc_L (++)). apply Permutation_app_head. apply Permutation_swap.
      * fold d2. split; unfold d2; cbn [set_d_size d_size d_addrs]; fold d2; fold a; try done.
        -- klia.
        -- intros bn Hb. klia.
        -- klia.
        -- intros bn _ Hb Hb'. rewrite V1, Z.eqb_refl. unfold ind. rewrite get32_put32_ne by (unfold e; klia).
           apply T5; [klia|fold d0; klia|done].
      * intros b _ Hb. apply Hout. intros ->. apply Hb. apply (owned_ind (view s) d0). cbn. klia.
      * intros b Hb. apply Hout. cbn in Hb. lia.
      * intros _. rewrite Hout by lia. apply free_zero. lia.
    + split; [unfold s1; rewrite length_put; exact Hl|cbn; klia| |].
      * intros k. rewrite V1. destruct (k =? a); [|apply s_ok]. apply put32_bok, s_ok.
      * intros k Hk. cbn in Hk. rewrite Hout by lia. apply free_zero. lia.
Qed.
Lemma fblock_ok : exists d' x s1, fblock d (off / BSIZE) s = Ret (d', x) s1 /\ fblock_post d' x s1.
Proof.
  destruct (decide (off mod BSIZE = 0)) as [Hm|Hm]; [|destruct (fblock_old Hm) as (x & H); eauto].
  destruct (decide (off / BSIZE < NDIRECT)); [by apply fblock_direct|].
  destruct (decide (off = NDIRECT * BSIZE)); [by apply fblock_first|]. apply fblock_indirect; klia.
Qed.
End Fblock.

(** ** [iappend] *)

(** An inode whose blocks are in use and distinct. *)
Record ready (s : mk) (d : dinode) : Prop := {
  rd_disk : disk_ok s;
  rd_tidy : tidy (view s) d;
  rd_nodup : NoDup (owned (view s) d);
  rd_range : Forall (fun b => nmeta <= b < mk_freeblock s) (owned (view s) d)
}.
(** [c] has been appended to the file of [d], which is now [d2]. *)
Record appended (s : mk) (d : dinode) (c : list Z) (s' : mk) (d2 : dinode) : Prop := {
  ap_disk : disk_ok s';
  ap_fb : mk_freeblock s' = mk_freeblock s + cost (d_size d + zlen c) - cost (d_size d);
  ap_ino : mk_freeinode s' = mk_freeinode s;
  ap_d : d2 = set_d_size (d_size d + zlen c) (set_d_addrs (d_addrs d2) d);
  ap_tidy : tidy (view s') d2;
  ap_owned : owned (view s') d2 ≡ₚ owned (view s) d ++ seqZ (mk_freeblock s) (mk_freeblock s' - mk_freeblock s);
  ap_content : content (view s') d2 = content (view s) d ++ c;
  ap_other b : b < mk_freeblock s -> b ∉ owned (view s) d -> view s' b = view s b;
  ap_tail : tail_zero (view s) d -> tail_zero (view s') d2
}.
Lemma cost_mono n m : 0 <= n <= m -> cost n <= cost m.
Proof. unfold cost. intros H. destruct (Z.ltb_spec (NDIRECT * BSIZE) n), (Z.ltb_spec (NDIRECT * BSIZE) m); klia. Qed.
Lemma appended_ready s d c s' d2 : ready s d -> appended s d c s' d2 -> ready s' d2.
Proof.
  intros [R1 R2 R3 R4] [A1 A2 A3 A4 A5 A6 A7 A8 A9]. pose proof (dk_fb _ R1). pose proof (ti_size _ _ R2). pose proof (ti_size _ _ A5) as H5.
  rewrite A4 in H5. cbn in H5. pose proof (cost_mono (d_size d) (d_size d + zlen c) ltac:(unfold zlen in *; lia)). split; [done|done| |].
  - rewrite A6. apply owned_nodup_ext; [done|]. eapply Forall_impl; [exact R4|]. cbn. lia.
  - rewrite A6. apply Forall_app. split; [eapply Forall_impl; [exact R4|]; cbn; lia|]. apply Forall_forall.
    intros b Hb%elem_of_seqZ. lia.
Qed.
Lemma appended_refl s d : ready s d -> appended s d [] s d.
Proof.
  intros [R1 R2 R3 R4]. split; try done; change (zlen []) with 0; rewrite ?Z.add_0_r.
  - lia.
  - by destruct d.
  - by rewrite Z.sub_diag, seqZ_nil, app_nil_r by lia.
  - by rewrite app_nil_r.
Qed.
Lemma appended_trans s d c1 s1 d1 c2 s2 d2 : ready s d -> appended s d c1 s1 d1 -> appended s1 d1 c2 s2 d2 -> appended s d (c1 ++ c2) s2 d2.
Proof.
  intros R A B. pose proof (appended_ready _ _ _ _ _ R A) as R1. pose proof (appended_ready _ _ _ _ _ R1 B) as R2.
  destruct A as [A1 A2 A3 A4 A5 A6 A7 A8 A9], B as [B1 B2 B3 B4 B5 B6 B7 B8 B9].
  assert (E1 : d_size d1 = d_size d + zlen c1) by (rewrite A4; done).
  assert (Ec : d_size d + zlen (c1 ++ c2) = d_size d1 + zlen c2) by (unfold zlen in *; rewrite length_app; lia).
  pose proof (ti_size _ _ (rd_tidy _ _ R)). pose proof (ti_size _ _ A5). pose proof (ti_size _ _ B5) as H2. rewrite B4 in H2. cbn in H2. rewrite <-E1 in A2.
  pose proof (cost_mono (d_size d) (d_size d1) ltac:(unfold zlen in *; lia)). pose proof (cost_mono (d_size d1) (d_size d1 + zlen c2) ltac:(unfold zlen in *; lia)).
  assert (HL : mk_freeblock s <= mk_freeblock s1 <= mk_freeblock s2) by lia.
  split; try done; rewrite ?Ec.
  - lia.
  - congruence.
  - rewrite B4 at 1. rewrite A4 at 2. cbn. done.
  - rewrite B6, A6, <-(assoc_L (++)). apply Permutation_app_head.
    replace (mk_freeblock s2 - mk_freeblock s) with ((mk_freeblock s1 - mk_freeblock s) + (mk_freeblock s2 - mk_freeblock s1)) by lia.
    rewrite seqZ_app by lia. by replace (mk_freeblock s + (mk_freeblock s1 - mk_freeblock s)) with (mk_freeblock s1) by lia.
  - by rewrite B7, A7, <-(assoc_L (++)).
  - intros b Hb Hn. rewrite B8, A8; [done|done|done|lia|]. rewrite A6, elem_of_app, elem_of_seqZ. intros [?|?]; [done|lia].
  - auto.
Qed.

Lemma iappend_piece s d off c : ready s (set_d_size off d) -> c <> [] -> Forall byte c -> off mod BSIZE + zlen c <= BSIZE ->
  off + zlen c <= MAXFILE * BSIZE -> mk_freeblock s + cost (off + zlen c) - cost off <= FSSIZE ->
  exists d' x s1, fblock d (off / BSIZE) s = Ret (d', x) s1 /\ length (mk_img s1) = Z.to_nat FSSIZE /\ 0 < x < FSSIZE /\
    appended s (set_d_size off d) c (put x (splice (view s1 x) (Z.to_nat (off mod BSIZE)) c) s1) (set_d_size (off + zlen c) d').
Proof.
  intros R Hc Hb Hfit Hmax Hroom. pose proof R as [R1 R2 R3 R4]. assert (Hc1 : 1 <= zlen c) by (destruct c; [done|]; unfold zlen; simpl; lia).
  destruct (fblock_ok s d off (zlen c)) as (d' & x & s1 & E & F & D1 & Efb & Eino & Hx & Ed); [done..|].
  pose proof (dk_fb _ D1). assert (Hx' : 0 < x < FSSIZE) by klia. exists d', x, s1. split; [done|]. split; [apply D1|]. split; [done|].
  set (b := splice _ _ c). pose proof (dk_block _ D1 x) as Hbx.
  assert (Hbl : (Z.to_nat (off mod BSIZE) + length c <= length (view s1 x))%nat).
  { pose proof (bok_len _ Hbx) as Hl. unfold zlen in *. klia. }
  assert (V : forall k, view (put x b s1) k = if k =? x then b else view s1 k) by (intros k; apply image_put; [apply D1|done]).
  destruct (append_piece (view s) (set_d_size off d) off c (mk_freeblock s) (view s1) d' x (mk_freeblock s1)) as (P1 & P2 & P3 & P4 & P5 & P6); try done.
  { eapply Forall_impl; [exact R4|]. cbn. lia. }
  { by apply bok_len. }
  fold b in P1, P2, P3. set (d2 := set_d_size (off + zlen c) d') in *.
  assert (VV : forall k, view (put x b s1) k = (fun b0 => if b0 =? x then b else view s1 b0) k) by (intros k; apply V).
  pose proof (ti_size _ _ P2) as Hs2.
  destruct (owned_frame _ (view (put x b s1)) d2 (proj1 Hs2) (fun k _ => VV k)) as (_ & O1 & O2 & O3).
  pose proof F as [FA FX Ffb FO FT FB FF FN]. split.
  - split; [rewrite length_put; apply D1|apply D1| |].
    + intros k. rewrite V. destruct (k =? x); [|apply D1]. by apply splice_bok.
    + intros k Hk. rewrite V. cbn in Hk. rewrite (proj2 (Z.eqb_neq k x)) by lia. by apply D1.
  - cbn. done.
  - done.
  - unfold d2. rewrite Ed. done.
  - by apply O3.
  - rewrite O1, P1. exact FO.
  - by rewrite O2.
  - intros k Hk Hn. rewrite V. destruct (Z.eqb_spec k x) as [->|Hne]; [|by apply FB]. exfalso.
    unfold d2 in P4. rewrite FO in P4. apply elem_of_app in P4 as [?|Hq%elem_of_seqZ]; [done|lia].
  - intros Htl. eapply tail_frame; [lia|intros k _; apply VV|by apply P6].
Qed.
Lemma iappend_loop_ok : forall fuel p d off s, ready s (set_d_size off d) -> Forall byte p -> off + zlen p <= MAXFILE * BSIZE ->
  mk_freeblock s + cost (off + zlen p) - cost off <= FSSIZE -> (length p <= fuel)%nat ->
  exists d' s', iappend_loop fuel d off p s = Ret (d', off + zlen p) s' /\
    appended s (set_d_size off d) p s' (set_d_size (off + zlen p) d').
Proof.
  induction fuel as [|fuel IH]; intros p d off s R Hb Hmax Hroom Hf; (destruct p as [|y p0];
    [exists d, s; split; [cbn [iappend_loop]; unfold ret; by rewrite Z.add_0_r|rewrite Z.add_0_r; by apply appended_refl]|]); [simpl in Hf; lia|].
  set (p := y :: p0) in *. pose proof (ti_size _ _ (rd_tidy _ _ R)) as Ho. cbn [set_d_size d_size] in Ho.
  assert (Hp1 : 1 <= zlen p) by (unfold p, zlen; simpl; lia).
  set (n1 := Z.min (zlen p) ((off / BSIZE + 1) * BSIZE - off)). set (c := take (Z.to_nat n1) p).
  assert (Hn1 : 1 <= n1 <= zlen p) by (unfold n1; klia).
  assert (Hlc : zlen c = n1) by (unfold c, zlen in *; rewrite length_take; lia).
  assert (Hc : c <> []) by (intros E; rewrite E in Hlc; unfold zlen in Hlc; simpl in Hlc; lia).
  pose proof (cost_mono (off + n1) (off + zlen p) ltac:(lia)) as Hcm.
  destruct (iappend_piece s d off c) as (d1 & x & s1 & E1 & Hl1 & Hx & A1); [done|done|by apply Forall_take|rewrite Hlc; unfold n1; klia|lia|rewrite Hlc; lia|].
  rewrite Hlc in A1. set (s2 := put x _ s1) in A1. pose proof (appended_ready _ _ _ _ _ R A1) as R1. pose proof (ap_fb _ _ _ _ _ A1) as Efb.
  cbn [set_d_size d_size] in Efb. rewrite Hlc in Efb. set (q := drop (Z.to_nat n1) p).
  assert (Hlq : zlen q = zlen p - n1) by (unfold q, zlen in *; rewrite length_drop; lia).
  destruct (IH q d1 (off + n1) s2) as (d' & s' & E & A); [done|by apply Forall_drop|lia|rewrite Hlq, Efb; replace (off + n1 + (zlen p - n1)) with (off + zlen p) by lia; lia|
    unfold zlen in *; lia|].
  assert (Epq : p = c ++ q) by (symmetry; apply take_drop).
  exists d', s'. replace (off + zlen p) with (off + n1 + zlen q) by lia. split.
  - rewrite <-E. unfold p at 1. cbn [iappend_loop]. fold p. rewrite (proj2 (Z.ltb_lt _ _)) by klia. cbn [negb]. cbv zeta.
    erewrite bind_eq by exact E1. cbv beta iota. erewrite bind_eq by (apply rsect_eq; [done|lia]).
    erewrite bind_eq by (apply wsect_eq; [done|lia]). fold n1 c q. unfold s2. by replace (off - off / BSIZE * BSIZE) with (off mod BSIZE) by klia.
  - rewrite Epq at 1. eapply appended_trans; [exact R|exact A1|exact A].
Qed.
