(* ===== verification/MkfsImage.v ===== *)
(** * The whole image

    The inodes of the image and their contents after each step of mkfs.c, the finished
    image, and the kernel reading from it. *)
From stdpp Require Import list_numbers.
From S2P Require Import Prelude Param Iface Sleeplock CString Fs FsBlock FsPath FsInode FsRead Mkfs MkfsSpec.

(** The inode [i] of the image. *)
Definition ino (v : Z -> block) (i : Z) : dinode := dinode_get (v (IBLOCK i sb)) (ioff i).
Definition MAXINO : Z := 208.     (* what 26 inode blocks hold *)
Lemma iblock_range i : 0 <= i < MAXINO -> 32 <= IBLOCK i sb < 58.
Proof. unfold IBLOCK, IPB, BSIZE, MAXINO. rewrite sb_eq. cbn [sb_inodestart]. lia. Qed.
Lemma ioff_range i : 0 <= ioff i /\ ioff i + 64 <= BSIZE.
Proof. unfold ioff, IPB, BSIZE. lia. Qed.
Lemma slot_ne i j : i <> j -> IBLOCK i sb = IBLOCK j sb -> ioff j + 64 <= ioff i \/ ioff i + 64 <= ioff j.
Proof. unfold IBLOCK, ioff, IPB, BSIZE. lia. Qed.

(** What [i] is: its type, one link, and its bytes. *)
Record has (v : Z -> block) (i type : Z) (bytes : list Z) : Prop := {
  ha_type : d_type (ino v i) = type;
  ha_dev : d_major (ino v i) = 0 /\ d_minor (ino v i) = 0;
  ha_nlink : d_nlink (ino v i) = 1;
  ha_size : d_size (ino v i) = zlen bytes;
  ha_content : content v (ino v i) = bytes;
  ha_tidy : tidy v (ino v i);
  ha_tail : tail_zero v (ino v i)
}.
Definition total (L : list (Z * list Z)) : Z := foldr (fun e n => cost (zlen e.2) + n) 0 L.
Definition all_owned (v : Z -> block) (n : Z) : list Z := concat ((fun i => owned v (ino v i)) <$> seqZ 1 n).
(** The image holds the inodes [L], numbered from 1, and nothing else. *)
Record built (s : mk) (L : list (Z * list Z)) : Prop := {
  bu_disk : disk_ok s;
  bu_n : mk_freeinode s = zlen L + 1;
  bu_max : zlen L < MAXINO;
  bu_has k type bytes : L !! k = Some (type, bytes) -> has (view s) (Z.of_nat k + 1) type bytes /\ 0 <= type < 2 ^ 15;
  bu_fb : mk_freeblock s = nmeta + total L;
  bu_blocks : all_owned (view s) (zlen L) ≡ₚ seqZ nmeta (total L);
  bu_none i : 0 <= i < MAXINO -> ~ 1 <= i <= zlen L -> ino (view s) i = dinode0;
  bu_super : view s 1 = sb_block;
  bu_meta b : 0 <= b < 32 \/ b = 58 -> b <> 1 -> view s b = zero_block
}.

Lemma cost_nonneg n : 0 <= n -> 0 <= cost n.
Proof. intros H. unfold cost. case_match; klia. Qed.
Lemma total_cons e L : total (e :: L) = cost (zlen e.2) + total L.
Proof. done. Qed.
Lemma total_nonneg L : 0 <= total L.
Proof. induction L as [|e L IH]; [done|]. rewrite total_cons. pose proof (cost_nonneg (zlen e.2) ltac:(unfold zlen; lia)). lia. Qed.
Lemma total_app (L1 L2 : list (Z * list Z)) : total (L1 ++ L2) = total L1 + total L2.
Proof. induction L1 as [|e L1 IH]; [done|]. rewrite <-app_comm_cons, !total_cons, IH. lia. Qed.

(** The inode's blocks among those of all the inodes. *)
Lemma all_owned_split v n i : 1 <= i <= n ->
  all_owned v n = all_owned v (i - 1) ++ owned v (ino v i) ++ concat ((fun j => owned v (ino v j)) <$> seqZ (i + 1) (n - i)).
Proof.
  intros H. unfold all_owned. assert (E : seqZ 1 n = seqZ 1 (i - 1) ++ i :: seqZ (i + 1) (n - i)).
  { replace n with ((i - 1) + (1 + (n - i))) at 1 by lia. rewrite (seqZ_app 1 (i - 1)) by lia. f_equal.
    replace (1 + (i - 1)) with i by lia. rewrite seqZ_cons by lia. f_equal. f_equal; lia. }
  by rewrite E, fmap_app, concat_app, fmap_cons.
Qed.
Section Built.
Variables (s : mk) (L : list (Z * list Z)).
Hypothesis B : built s L.

Lemma built_nodup : NoDup (all_owned (view s) (zlen L)).
Proof. rewrite (bu_blocks _ _ B). apply NoDup_seqZ. Qed.
Lemma built_range i b : 1 <= i <= zlen L -> b ∈ owned (view s) (ino (view s) i) -> nmeta <= b < mk_freeblock s.
Proof.
  intros Hi Hb. assert (Ha : b ∈ all_owned (view s) (zlen L)) by (rewrite (all_owned_split _ _ i Hi); set_solver).
  rewrite (bu_blocks _ _ B), elem_of_seqZ in Ha. rewrite (bu_fb _ _ B). lia.
Qed.
Lemma built_disjoint i j b : 1 <= i <= zlen L -> 1 <= j <= zlen L -> b ∈ owned (view s) (ino (view s) i) ->
  b ∈ owned (view s) (ino (view s) j) -> i = j.
Proof.
  intros Hi Hj Hbi Hbj. destruct (decide (i = j)) as [|Hne]; [done|]. exfalso. pose proof built_nodup as HN.
  rewrite (all_owned_split _ _ i Hi) in HN. apply NoDup_app in HN as (_ & H1 & HN). apply NoDup_app in HN as (_ & H2 & _).
  destruct (decide (j < i)).
  - apply (H1 b); [|set_solver]. unfold all_owned. apply list_elem_of_In, in_concat. exists (owned (view s) (ino (view s) j)).
    split; [|by apply list_elem_of_In]. apply list_elem_of_In, list_elem_of_fmap. exists j. split; [done|]. apply elem_of_seqZ. lia.
  - apply (H2 b); [done|]. apply list_elem_of_In, in_concat. exists (owned (view s) (ino (view s) j)).
    split; [|by apply list_elem_of_In]. apply list_elem_of_In, list_elem_of_fmap. exists j. split; [done|]. apply elem_of_seqZ. lia.
Qed.
Lemma built_entry i : 1 <= i <= zlen L -> exists ty bytes, L !! Z.to_nat (i - 1) = Some (ty, bytes) /\ has (view s) i ty bytes /\ 0 <= ty < 2 ^ 15.
Proof.
  intros Hi. destruct (lookup_lt_is_Some_2 L (Z.to_nat (i - 1))) as [[ty bytes] E]; [unfold zlen in Hi; lia|].
  destruct (bu_has _ _ B _ _ _ E) as [Hh Ht]. rewrite Z2Nat.id in Hh by lia. replace (i - 1 + 1) with i in Hh by lia. eauto.
Qed.
Lemma built_ready i : 1 <= i <= zlen L -> ready s (ino (view s) i).
Proof.
  intros Hi. destruct (built_entry i Hi) as (ty & bytes & _ & Hh & _). split; [apply B|apply Hh| |].
  - pose proof built_nodup as HN. rewrite (all_owned_split _ _ i Hi) in HN. apply NoDup_app in HN as (_ & _ & HN).
    by apply NoDup_app in HN as [HN _].
  - apply Forall_forall. intros b. by apply built_range.
Qed.
End Built.

(** Block numbers fit the fields of an inode. *)
Lemma ready_dinode_ok s d : ready s d -> - 2 ^ 15 <= d_type d < 2 ^ 15 -> d_major d = 0 -> d_minor d = 0 -> d_nlink d = 1 -> dinode_ok d.
Proof.
  intros [R1 [T1 T2 T3 T4 T5] R3 R4] H1 H2 H3 H4. split; rewrite ?H2, ?H3, ?H4; try done; [klia|].
  rewrite Forall_forall in R4. pose proof (dk_fb _ R1). apply Forall_lookup. intros k a Ha.
  assert (Ea : znth (d_addrs d) (Z.of_nat k) = a) by (apply znth_lookup; [lia|by rewrite Nat2Z.id]).
  pose proof (lookup_lt_Some _ _ _ Ha) as Hk. rewrite T2 in Hk. rewrite <-Ea.
  destruct (decide (k = 12%nat)) as [->|Hne].
  - destruct (decide (d_size d <= NDIRECT * BSIZE)) as [Hs|Hs].
    + change (Z.of_nat 12) with NDIRECT. rewrite T4; klia.
    + pose proof (R4 _ (owned_ind (view s) d ltac:(lia))). change (Z.of_nat 12) with NDIRECT. klia.
  - destruct (decide (Z.of_nat k < nblk d)) as [Hb|Hb].
    + pose proof (R4 _ (owned_data (view s) d (Z.of_nat k) ltac:(lia))) as Hr. unfold addr_of in Hr.
      rewrite (proj2 (Z.ltb_lt _ _)) in Hr by klia. klia.
    + rewrite T3 by klia. klia.
Qed.

(** ** Writing an inode *)

Lemma put_addrs_bytes l b o : Forall byte b -> Forall byte (put_addrs b o l).
Proof. revert b o. induction l as [|a l IH]; intros b o Hb; [done|]. cbn [put_addrs]. by apply IH, put32_bytes. Qed.
Lemma dinode_put_bok d b o : bok b -> bok (dinode_put d b o).
Proof.
  intros [H1 H2]. split; [unfold block_ok; by rewrite dinode_put_zlen|]. unfold dinode_put.
  by apply put_addrs_bytes, put32_bytes, put16_bytes, put16_bytes, put16_bytes, put16_bytes.
Qed.
(** Only the slot of [i] changes. *)
Record wrote (s : mk) (i : Z) (d : dinode) (s' : mk) : Prop := {
  wr_disk : disk_ok s';
  wr_fb : mk_freeblock s' = mk_freeblock s;
  wr_fi : mk_freeinode s' = mk_freeinode s;
  wr_ino j : 0 <= j < MAXINO -> ino (view s') j = if j =? i then d else ino (view s) j;
  wr_other b : ~ 32 <= b < 58 -> view s' b = view s b
}.
Lemma winode_ok s i d : disk_ok s -> 0 <= i < MAXINO -> dinode_ok d -> exists s', winode i d s = Ret tt s' /\ wrote s i d s'.
Proof.
  intros D Hi Hd. pose proof (iblock_range i Hi) as Hb. pose proof (ioff_range i) as Ho.
  pose proof (dk_block _ D (IBLOCK i sb)) as Hbk. pose proof (bok_len _ Hbk) as Hl.
  set (b := dinode_put d (view s (IBLOCK i sb)) (ioff i)). exists (put (IBLOCK i sb) b s).
  assert (V : forall k, view (put (IBLOCK i sb) b s) k = if k =? IBLOCK i sb then b else view s k)
    by (intros k; apply image_put; [apply D|klia]). split; [|split].
  - unfold winode. erewrite bind_eq by (apply rsect_eq; [apply D|klia]). apply wsect_eq; [apply D|klia].
  - pose proof (dk_fb _ D). split; [rewrite length_put; apply D|done| |].
    + intros k. rewrite V. destruct (k =? _); [by apply dinode_put_bok|apply D].
    + intros k Hk. cbn in Hk. rewrite V, (proj2 (Z.eqb_neq _ _)) by klia. by apply D.
  - done.
  - done.
  - intros j Hj. unfold ino. rewrite V. destruct (Z.eqb_spec j i) as [->|Hne].
    + rewrite Z.eqb_refl. apply dinode_get_put; [done|lia|lia].
    + destruct (Z.eqb_spec (IBLOCK j sb) (IBLOCK i sb)) as [E|E]; [|done]. rewrite E.
      apply dinode_get_frame. intros k Hk. apply dinode_put_frame; [apply Hd|lia|lia|].
      pose proof (slot_ne i j ltac:(done) ltac:(done)). lia.
  - intros k Hk. by rewrite V, (proj2 (Z.eqb_neq _ _)) by lia.
Qed.
Lemma rinode_eq s i : disk_ok s -> 0 <= i < MAXINO -> rinode i s = Ret (ino (view s) i) s.
Proof. intros D Hi. pose proof (iblock_range i Hi). unfold rinode. by erewrite bind_eq by (apply rsect_eq; [apply D|klia]). Qed.

(** The bytes of a file depend on its inode and on the blocks it owns. *)
Lemma has_frame v v' i ty bytes : has v i ty bytes -> ino v' i = ino v i -> (forall b, b ∈ owned v (ino v i) -> v' b = v b) ->
  has v' i ty bytes /\ owned v' (ino v' i) = owned v (ino v i).
Proof.
  intros [H1 H2 H3 H4 H5 H6 H7] E Hb. pose proof (proj1 (ti_size _ _ H6)) as Hs.
  destruct (owned_frame _ _ _ Hs Hb) as (_ & O1 & O2 & O3). split; [|by rewrite E].
  split; rewrite ?E; try done; [by rewrite O2|auto|by apply (tail_frame v v')].
Qed.
Lemma built_dinode_ok s L i : built s L -> 1 <= i <= zlen L -> dinode_ok (ino (view s) i).
Proof.
  intros B Hi. destruct (built_entry s L B i Hi) as (ty & bytes & _ & [H1 [H2 H3] H4 _ _ _ _] & Ht).
  apply (ready_dinode_ok s); [by apply (built_ready s L)|rewrite H1; lia|done|done|done].
Qed.

Lemma all_owned_ext v v' n : (forall i, 1 <= i <= n -> owned v' (ino v' i) = owned v (ino v i)) -> all_owned v' n = all_owned v n.
Proof.
  intros H. unfold all_owned. f_equal. apply list_fmap_ext. intros k i Hi. apply lookup_seqZ in Hi as [-> Hi]. apply H. lia.
Qed.
Lemma all_owned_snoc v n : 0 <= n -> all_owned v (n + 1) = all_owned v n ++ owned v (ino v (n + 1)).
Proof.
  intros H. unfold all_owned. rewrite seqZ_app, fmap_app, concat_app by lia. f_equal.
  replace (1 + n) with (n + 1) by lia. cbn. apply app_nil_r.
Qed.
Lemma total_insert (L : list (Z * list Z)) k e e' : L !! k = Some e -> total (<[k:=e']> L) = total L + cost (zlen e'.2) - cost (zlen e.2).
Proof.
  revert k. induction L as [|e0 L IH]; intros [|k] H; try done; cbn in H.
  - simplify_eq. change (<[0%nat := e']> (e :: L)) with (e' :: L). rewrite !total_cons. lia.
  - change (<[S k := e']> (e0 :: L)) with (e0 :: <[k := e']> L). rewrite !total_cons, (IH k) by done. lia.
Qed.
Lemma zlen_insert {A} k (e : A) L : zlen (<[k := e]> L) = zlen L.
Proof. unfold zlen. by rewrite length_insert. Qed.
Lemma zlen_snoc {A} (e : A) L : zlen (L ++ [e]) = zlen L + 1.
Proof. unfold zlen. rewrite length_app. simpl. lia. Qed.

(** ** [ialloc] *)

Definition new_dinode (ty : Z) : dinode := Dinode ty 0 0 1 0 (replicate 13 0).
Lemma znth_zeros n k : znth (replicate n 0) k = 0.
Proof.
  unfold znth. case_match; [done|]. rewrite nth_lookup. destruct (replicate n 0 !! _) eqn:E; [|done].
  by apply lookup_replicate in E as [-> _].
Qed.
Lemma new_dinode_ok ty : 0 <= ty < 2 ^ 15 -> dinode_ok (new_dinode ty).
Proof. intros H. split; cbn; try lia. by repeat constructor. Qed.
Lemma new_has v i ty : ino v i = new_dinode ty -> has v i ty [] /\ owned v (ino v i) = [].
Proof.
  intros E. split; [|by rewrite E]. split; rewrite E; try done.
  - split; cbn [new_dinode d_size d_addrs]; try done; intros; try apply znth_zeros; klia.
  - intros k. change (nblk (new_dinode ty)) with 0. cbn. lia.
Qed.
Lemma ialloc_built s L ty : built s L -> zlen L + 1 < MAXINO -> 0 <= ty < 2 ^ 15 ->
  exists s', ialloc ty s = Ret (zlen L + 1) s' /\ built s' (L ++ [(ty, [])]).
Proof.
  intros B HL Hty. pose proof B as [D Hn Hmax Hh Hfb Hbl Hnone Hsup Hm]. assert (H0 : 0 <= zlen L) by (unfold zlen; lia).
  set (i := zlen L + 1) in *. set (s1 := set_mk_freeinode (i + 1) s).
  assert (D1 : disk_ok s1) by (destruct D; by split).
  destruct (winode_ok s1 i (new_dinode ty) D1 ltac:(lia) (new_dinode_ok ty Hty)) as (s' & E & [W1 W2 W3 W4 W5]).
  exists s'. split.
  { unfold ialloc. mrun. rewrite Hn. fold s1. rewrite (xshort_small ty) by lia. change (xshort 1) with 1. change (xint 0) with 0.
    fold (new_dinode ty). erewrite bind_eq by exact E. done. }
  change (view s1) with (view s) in *.
  assert (F : forall j, 1 <= j <= zlen L -> exists t bs, L !! Z.to_nat (j - 1) = Some (t, bs) /\ has (view s') j t bs /\ 0 <= t < 2 ^ 15 /\
    owned (view s') (ino (view s') j) = owned (view s) (ino (view s) j)).
  { intros j Hj. destruct (built_entry s L B j Hj) as (t & bs & El & Hhj & Ht). exists t, bs.
    destruct (has_frame (view s) (view s') j t bs Hhj) as [??]; [|intros b Hb|done].
    - rewrite W4 by lia. by rewrite (proj2 (Z.eqb_neq _ _)) by lia.
    - pose proof (built_range s L B j b Hj Hb). apply W5. klia. }
  destruct (new_has (view s') i ty) as [Hnew Onew]; [rewrite W4, Z.eqb_refl by lia; done|].
  split; rewrite ?zlen_snoc; try done.
  - intros k t bs Hk. apply lookup_snoc_Some in Hk as [[Hk El]|[-> Ee]].
    + destruct (F (Z.of_nat k + 1)) as (t' & bs' & El' & ? & ? & _); [unfold zlen; lia|].
      replace (Z.to_nat (Z.of_nat k + 1 - 1)) with k in El' by lia. simplify_eq. done.
    + simplify_eq. done.
  - rewrite W2, total_app. cbn -[total]. rewrite Hfb. change (total [(ty, [])]) with 0. lia.
  - rewrite all_owned_snoc by done. fold i. rewrite Onew, app_nil_r, total_app. change (total [(ty, [])]) with 0.
    rewrite Z.add_0_r, (all_owned_ext (view s) (view s')); [done|]. intros j Hj. by destruct (F j Hj) as (?&?&?&?&?&?).
  - intros j Hj Hnj. rewrite W4 by done. rewrite (proj2 (Z.eqb_neq _ _)) by lia. apply Hnone; lia.
  - rewrite W5 by lia. done.
  - intros b Hb Hb1. rewrite W5 by lia. by apply Hm.
Qed.

(** ** [iappend] *)

(** Appending to a file is [appended] with the inode written back. *)
Lemma iappend_ok s L k ty bytes p : built s L -> L !! k = Some (ty, bytes) -> Forall byte p ->
  zlen bytes + zlen p <= MAXFILE * BSIZE -> mk_freeblock s + cost (zlen bytes + zlen p) - cost (zlen bytes) <= FSSIZE ->
  let i := Z.of_nat k + 1 in
  exists s1 d2 s', iappend i p s = Ret tt s' /\ appended s (ino (view s) i) p s1 d2 /\ wrote s1 i d2 s' /\ dinode_ok d2.
Proof.
  intros B Ek Hp Hmax Hroom i. pose proof B as [D Hn Hm Hh Hfb Hbl Hnone Hsup Hmeta].
  assert (Hi : 1 <= i <= zlen L) by (apply lookup_lt_Some in Ek; unfold i, zlen; lia).
  destruct (Hh _ _ _ Ek) as [[H1 [H2 H3] H4 H5 H6 H7 H8] Hty]. fold i in H1, H2, H3, H4, H5, H6, H7, H8.
  set (d := ino (view s) i) in *. pose proof (ti_size _ _ H7) as Hs.
  assert (Ed : set_d_size (d_size d) d = d) by (by destruct d).
  pose proof (built_ready s L B i Hi) as R. fold d in R.
  destruct (iappend_loop_ok (length p) p d (d_size d) s) as (d' & s1 & El & A); rewrite ?Ed, ?H5 in *; try done.
  assert (R2 := appended_ready _ _ _ _ _ R A).
  pose proof (ap_d _ _ _ _ _ A) as Ed2. set (d2 := set_d_size _ d') in *. cbn in Ed2.
  assert (Ok2 : dinode_ok d2).
  { apply (ready_dinode_ok s1); [done|rewrite Ed2; cbn [set_d_size set_d_addrs d_type d_major d_minor d_nlink]..]; rewrite ?H1; done || lia. }
  assert (D1 : disk_ok s1) by apply A.
  destruct (winode_ok s1 i d2 D1 ltac:(lia) Ok2) as (s' & Ew & W). exists s1, d2, s'.
  split; [|done]. unfold iappend. erewrite bind_eq by (apply rinode_eq; [done|lia]). fold d.
  rewrite H5, xint_small by klia. erewrite bind_eq by exact El. cbv beta iota.
  rewrite xint_small by (unfold zlen in *; klia). exact Ew.
Qed.

Lemma iappend_built s L k ty bytes p : built s L -> L !! k = Some (ty, bytes) -> Forall byte p ->
  zlen bytes + zlen p <= MAXFILE * BSIZE -> mk_freeblock s + cost (zlen bytes + zlen p) - cost (zlen bytes) <= FSSIZE ->
  exists s', iappend (Z.of_nat k + 1) p s = Ret tt s' /\ built s' (<[k := (ty, bytes ++ p)]> L).
Proof.
  intros B Ek Hp Hmax Hroom. destruct (iappend_ok s L k ty bytes p) as (s1 & d2 & s' & E & A & W & Ok2); [done..|].
  exists s'. split; [done|]. clear E. pose proof B as [D Hn Hm Hh Hfb Hbl Hnone Hsup Hmeta].
  set (i := Z.of_nat k + 1) in *. assert (Hi : 1 <= i <= zlen L) by (apply lookup_lt_Some in Ek; unfold i, zlen; lia).
  destruct (Hh _ _ _ Ek) as [Hhi Hty]. fold i in Hhi. pose proof Hhi as [H1 [H2 H3] H4 H5 H6 H7 H8].
  set (d := ino (view s) i) in *. pose proof (built_ready s L B i Hi) as R. fold d in R.
  pose proof (appended_ready _ _ _ _ _ R A) as R2. destruct A as [A1 A2 A3 A4 A5 A6 A7 A8 A9], W as [W1 W2 W3 W4 W5].
  assert (Hlp : zlen (bytes ++ p) = zlen bytes + zlen p) by (unfold zlen; rewrite length_app; lia).
  assert (Hfb1 : mk_freeblock s <= mk_freeblock s1).
  { rewrite A2, H5. pose proof (cost_mono (zlen bytes) (zlen bytes + zlen p) ltac:(unfold zlen; lia)). lia. }
  (* blocks that are neither [i]'s nor inodes' *)
  assert (Fb : forall b, b < mk_freeblock s -> b ∉ owned (view s) d -> view s1 b = view s b) by exact A8.
  assert (Fi : forall j, 0 <= j < MAXINO -> ino (view s1) j = ino (view s) j).
  { intros j Hj. unfold ino. pose proof (iblock_range j Hj). rewrite Fb; [done|pose proof (dk_fb _ D); klia|].
    intros Ho. pose proof (built_range s L B i _ Hi Ho). klia. }
  assert (Fm : forall b, 0 <= b < nmeta -> ~ 32 <= b < 58 -> view s' b = view s b).
  { intros b Hb Hb'. rewrite W5 by done. apply Fb; [pose proof (dk_fb _ D); lia|]. intros Ho. pose proof (built_range s L B i _ Hi Ho). lia. }
  assert (Fj : forall j, 1 <= j <= zlen L -> j <> i -> exists t bs, L !! Z.to_nat (j - 1) = Some (t, bs) /\ has (view s') j t bs /\ 0 <= t < 2 ^ 15 /\
    owned (view s') (ino (view s') j) = owned (view s) (ino (view s) j)).
  { intros j Hj Hne. destruct (built_entry s L B j Hj) as (t & bs & El & Hhj & Ht). exists t, bs.
    destruct (has_frame (view s) (view s') j t bs Hhj) as [??]; [|intros b Hb|done].
    - rewrite W4 by lia. rewrite (proj2 (Z.eqb_neq _ _)) by lia. apply Fi. lia.
    - pose proof (built_range s L B j b Hj Hb). rewrite W5 by klia. apply Fb; [lia|]. intros Ho.
      apply Hne. by apply (built_disjoint s L B j i b). }
  assert (Ei : ino (view s') i = d2) by (by rewrite W4, Z.eqb_refl by lia).
  assert (Fo : forall b, b ∈ owned (view s1) d2 -> view s' b = view s1 b).
  { intros b Hb. apply W5. pose proof (rd_range _ _ R2) as Hr. rewrite Forall_forall in Hr. specialize (Hr b Hb). klia. }
  destruct (owned_frame _ _ _ (proj1 (ti_size _ _ A5)) Fo) as (_ & O1 & O2 & O3).
  assert (Hnew : has (view s') i ty (bytes ++ p)).
  { split; rewrite ?Ei; try (rewrite A4; done); [rewrite A4; cbn [set_d_size d_size]; lia|by rewrite O2, A7, H6|by apply O3|].
    apply (tail_frame (view s1)); [apply (proj1 (ti_size _ _ A5))|done|by apply A9]. }
  split; rewrite ?zlen_insert; try done.
  - by rewrite W3, A3.
  - intros k' t bs [[<- Ee]|[Hne El]]%list_lookup_insert_Some.
    + destruct Ee as [Ee _]. simplify_eq. done.
    + assert (Hj : 1 <= Z.of_nat k' + 1 <= zlen L) by (apply lookup_lt_Some in El; unfold zlen; lia).
      destruct (Fj (Z.of_nat k' + 1) Hj ltac:(unfold i; lia)) as (t' & bs' & El' & ? & ? & _).
      replace (Z.to_nat (Z.of_nat k' + 1 - 1)) with k' in El' by lia. simplify_eq. done.
  - rewrite W2, A2, (total_insert _ _ _ _ Ek), Hfb, H5. cbn [snd]. rewrite Hlp. lia.
  - rewrite (total_insert _ _ _ _ Ek). cbn [snd]. rewrite Hlp. set (c := cost (zlen bytes + zlen p) - cost (zlen bytes)).
    assert (Hc : 0 <= c) by (unfold c; rewrite A2, H5 in Hfb1; lia).
    replace (total L + cost (zlen bytes + zlen p) - cost (zlen bytes)) with (total L + c) by (unfold c; lia).
    rewrite seqZ_app by (done || apply total_nonneg). rewrite <-Hbl, (all_owned_split _ _ i Hi), (all_owned_split (view s) _ i Hi).
    rewrite (all_owned_ext (view s) (view s')) by (intros j Hj; destruct (Fj j) as (?&?&?&?&?&?); [lia|lia|done]).
    replace ((λ j, owned (view s') (ino (view s') j)) <$> seqZ (i + 1) (zlen L - i)) with ((λ j, owned (view s) (ino (view s) j)) <$> seqZ (i + 1) (zlen L - i)).
    2:{ apply list_fmap_ext. intros q j Hq. apply lookup_seqZ in Hq as [-> Hq]. destruct (Fj (i + 1 + Z.of_nat q)) as (?&?&?&?&?&?); [lia|lia|done]. }
    rewrite Ei, O1, A6. fold d. replace (mk_freeblock s1 - mk_freeblock s) with c by (unfold c; rewrite A2, H5; lia).
    rewrite Hfb. solve_Permutation.
  - intros j Hj Hnj. rewrite W4 by done. rewrite (proj2 (Z.eqb_neq _ _)) by lia. rewrite Fi by lia. by apply Hnone.
  - rewrite Fm by klia. done.
  - intros b Hb Hb1. rewrite Fm by klia. by apply Hmeta.
Qed.

(** With the room that is left as a bound on the contents after the step. *)
Lemma iappend_step s L k ty bytes p : built s L -> L !! k = Some (ty, bytes) -> Forall byte p ->
  zlen (bytes ++ p) <= MAXFILE * BSIZE -> total (<[k := (ty, bytes ++ p)]> L) <= nblocks ->
  exists s', iappend (Z.of_nat k + 1) p s = Ret tt s' /\ built s' (<[k := (ty, bytes ++ p)]> L).
Proof.
  intros B Ek Hp Hmax Hroom. assert (Hlp : zlen (bytes ++ p) = zlen bytes + zlen p) by (unfold zlen; rewrite length_app; lia).
  rewrite (total_insert _ _ _ _ Ek) in Hroom. cbn [snd] in Hroom. rewrite Hlp in *.
  apply iappend_built; [done..|]. rewrite (bu_fb _ _ B). unfold nblocks in Hroom. lia.
Qed.
Lemma append_all_built i k : i = Z.of_nat k + 1 -> forall chunks s L ty bytes, built s L -> L !! k = Some (ty, bytes) -> Forall (Forall byte) chunks ->
  zlen (bytes ++ concat chunks) <= MAXFILE * BSIZE -> total (<[k := (ty, bytes ++ concat chunks)]> L) <= nblocks ->
  exists s', append_all i chunks s = Ret tt s' /\ built s' (<[k := (ty, bytes ++ concat chunks)]> L).
Proof.
  intros ->. induction chunks as [|c chunks IH]; intros s L ty bytes B Ek Hc Hmax Hroom.
  - exists s. split; [done|]. cbn. by rewrite app_nil_r, list_insert_id.
  - inversion Hc as [|? ? Hc1 Hc2]; subst. cbn [concat] in *. rewrite (assoc_L (++)) in *.
    assert (Hk : (k < length L)%nat) by (by eapply lookup_lt_Some).
    assert (Hmono : total (<[k := (ty, bytes ++ c)]> L) <= total (<[k := (ty, (bytes ++ c) ++ concat chunks)]> L)).
    { rewrite !(total_insert _ _ _ _ Ek). cbn [snd]. pose proof (cost_mono (zlen (bytes ++ c)) (zlen ((bytes ++ c) ++ concat chunks))
        ltac:(unfold zlen; rewrite (length_app (bytes ++ c)); lia)). lia. }
    destruct (iappend_step s L k ty bytes c) as (s1 & E1 & B1); try done; [unfold zlen in *; rewrite (length_app (bytes ++ c)) in Hmax; lia|lia|].
    destruct (IH s1 _ ty (bytes ++ c) B1) as (s2 & E2 & B2); try done; [by rewrite list_lookup_insert_eq|by rewrite list_insert_insert_eq|].
    rewrite list_insert_insert_eq in B2. exists s2. split; [|done]. cbn [append_all]. by erewrite bind_eq by exact E1.
Qed.
