(* ===== verification/MkfsDisk.v ===== *)
(** * The disk the kernel boots from

    mkfs.c from the empty image to the free map, and the kernel's view of what it wrote. *)
From stdpp Require Import list_numbers.
From S2P Require Import Prelude Param Iface Sleeplock CString Fs FsBlock FsPath FsInode FsRead.
From S2P Require Import Mkfs MkfsSpec MkfsImage.

(** ** The files on the command line *)

Definition names_chunks : Type := list (list Z * list (list Z)).
(** A leading [_] is left out. *)
Definition file_name (name : list Z) : list Z :=
  match name with c :: rest => if c =? 95 then rest else name | [] => [] end.
Definition entry (inum : Z) (name : list Z) : list Z := dirent_bytes (Dirent inum (strncpy_name (Z.to_nat DIRSIZ) name)).
(** The entries of the files, numbered from [inum], and the files themselves. *)
Fixpoint entries (inum : Z) (files : names_chunks) : list Z :=
  match files with [] => [] | (name, _) :: files => entry inum (file_name name) ++ entries (inum + 1) files end.
Definition root_bytes (files : names_chunks) : list Z := entry 1 [46] ++ entry 1 [46; 46] ++ entries 2 files.
Definition image_of (files : names_chunks) : list (Z * list Z) :=
  (T_DIR, root_bytes files) :: ((fun f => (T_FILE, concat f.2)) <$> files).
(** What [open] and [read] give mkfs. *)
Definition opened (files : names_chunks) : list (list Z * option (list (list Z))) := (fun f => (f.1, Some f.2)) <$> files.
(** Names without a slash, bytes, and files the format can hold. *)
Definition file_ok (f : list Z * list (list Z)) : Prop :=
  Forall byte f.1 /\ existsb (Z.eqb slash) f.1 = false /\ Forall (Forall byte) f.2 /\ zlen (concat f.2) <= MAXFILE * BSIZE.

Lemma strncpy_bytes n name : Forall byte name -> Forall byte (strncpy_name n name) /\ length (strncpy_name n name) = n.
Proof.
  assert (Z0 : byte 0) by (unfold byte; lia). revert name. induction n as [|n IH]; intros [|c name] H; cbn [strncpy_name]; try done.
  - split; [by apply Forall_replicate|by rewrite length_replicate].
  - inversion H; subst. destruct (c =? 0).
    + change (0 :: replicate n 0) with (replicate (S n) 0). split; [by apply Forall_replicate|by rewrite length_replicate].
    + destruct (IH name) as [H4 H5]; [done|]. split; [by constructor|]. cbn. by rewrite H5.
Qed.
Lemma entry_bytes inum name : Forall byte name -> Forall byte (entry inum name) /\ zlen (entry inum name) = DIRENT.
Proof.
  intros H. destruct (strncpy_bytes (Z.to_nat DIRSIZ) name H) as [H1 H2]. unfold entry, dirent_bytes. cbn [de_inum de_name]. split.
  - apply Forall_app. split; [apply put16_bytes; do 2 (constructor; [unfold byte; lia|]); constructor|done].
  - unfold zlen. rewrite length_app, H2. pose proof (zlen_put16 [0; 0] 0 inum) as Hz. unfold zlen in Hz. unfold DIRENT, DIRSIZ in *. cbn [length] in Hz. lia.
Qed.
Lemma file_name_bytes name : Forall byte name -> Forall byte (file_name name).
Proof. intros H. destruct H as [|c rest Hc Hr]; [constructor|]. unfold file_name. case_match; [done|by constructor]. Qed.
Lemma entries_zlen inum files : Forall (fun f => Forall byte f.1) files -> zlen (entries inum files) = DIRENT * zlen files.
Proof.
  intros H. revert inum. induction H as [|[name ch] files Hn _ IH]; intros inum; [done|]. cbn [entries].
  pose proof (entry_bytes inum _ (file_name_bytes name Hn)) as [_ He]. specialize (IH (inum + 1)). unfold zlen in *. rewrite length_app. cbn [length]. lia.
Qed.

(** ** One more file *)

Lemma total_cons_snoc (L : list (Z * list Z)) r e : total (r :: L ++ [e]) = cost (zlen r.2) + total L + cost (zlen e.2).
Proof. rewrite total_cons, total_app, total_cons. change (total []) with 0. lia. Qed.
Lemma snoc_last {A} (r x : A) M : (r :: M ++ [x]) !! S (length M) = Some x.
Proof. change ((M ++ [x]) !! length M = Some x). by rewrite lookup_app_r, Nat.sub_diag by lia. Qed.
Lemma snoc_insert {A} (r x y : A) M : <[S (length M) := y]> (r :: M ++ [x]) = r :: M ++ [y].
Proof. change (r :: <[length M := y]> (M ++ [x]) = r :: M ++ [y]). by rewrite insert_app_r_alt, Nat.sub_diag by lia. Qed.
Lemma add_file_built s rb M name chunks : built s ((T_DIR, rb) :: M) -> file_ok (name, chunks) -> zlen M + 2 < MAXINO ->
  zlen rb + DIRENT <= MAXFILE * BSIZE ->
  let L' := (T_DIR, rb ++ entry (zlen M + 2) (file_name name)) :: M ++ [(T_FILE, concat chunks)] in
  total L' <= nblocks -> exists s', add_file ROOTINO name (Some chunks) s = Ret tt s' /\ built s' L'.
Proof.
  intros B (Hn & Hs & Hc & Hsz) HM Hrb L' Hroom. cbn [fst snd] in *.
  destruct (entry_bytes (zlen M + 2) (file_name name)) as [Eb El]; [by apply file_name_bytes|]. set (e := entry _ _) in *.
  assert (H0 : 0 <= zlen M) by (unfold zlen; lia).
  assert (Hl1 : zlen ((T_DIR, rb) :: M) = zlen M + 1) by (unfold zlen; simpl; lia).
  assert (Hle : zlen (rb ++ e) = zlen rb + DIRENT) by (unfold zlen in *; rewrite length_app; lia).
  destruct (ialloc_built s _ T_FILE B) as (s1 & E1 & B1); [lia|done|]. rewrite Hl1 in E1. cbn [app] in B1.
  unfold L' in Hroom. rewrite total_cons_snoc in Hroom. cbn [snd] in Hroom.
  assert (Hc0 : 0 <= cost (zlen (concat chunks))) by (apply cost_nonneg; unfold zlen; lia).
  destruct (iappend_step s1 _ 0 T_DIR rb e B1) as (s2 & E2 & B2); [done|done|lia|
    change (<[0%nat := ?x]> (?y :: ?l)) with (x :: l); rewrite total_cons_snoc; cbn [snd]; change (cost (zlen [])) with 0; lia|].
  change (<[0%nat := ?x]> (?y :: ?l)) with (x :: l) in B2.
  destruct (append_all_built (zlen M + 2) (S (length M)) ltac:(unfold zlen; lia) chunks s2 _ T_FILE [] B2) as (s3 & E3 & B3); try done.
  - apply snoc_last.
  - rewrite snoc_insert, total_cons_snoc. cbn [snd app]. lia.
  - rewrite snoc_insert in B3. exists s3. split; [|done].
    unfold add_file. rewrite Hs. fold (file_name name). erewrite bind_eq by exact E1. cbv beta.
    rewrite xshort_small by (unfold MAXINO in *; lia). replace (zlen M + 1 + 1) with (zlen M + 2) by lia. fold (entry (zlen M + 2) (file_name name)).
    fold e. change ROOTINO with (Z.of_nat 0 + 1). by erewrite bind_eq by exact E2.
Qed.

Lemma add_files_built files : forall s rb M, built s ((T_DIR, rb) :: M) -> Forall file_ok files -> zlen M + zlen files + 1 < MAXINO ->
  zlen rb + DIRENT * zlen files <= MAXFILE * BSIZE ->
  let L' := (T_DIR, rb ++ entries (zlen M + 2) files) :: M ++ ((fun f => (T_FILE, concat f.2)) <$> files) in
  total L' <= nblocks -> exists s', add_files ROOTINO (opened files) s = Ret tt s' /\ built s' L'.
Proof.
  induction files as [|[name chunks] files IH]; intros s rb M B HF HM Hrb L' Hroom; unfold L' in *; clear L'.
  - exists s. split; [done|]. cbn. by rewrite !app_nil_r.
  - inversion HF as [|? ? Hf HF']; subst. cbn [entries fmap list_fmap snd] in *. set (e := entry (zlen M + 2) (file_name name)) in *.
    assert (Hbytes : forall l, Forall file_ok l -> Forall (fun f : list Z * list (list Z) => Forall byte f.1) l)
      by (intros l Hl; eapply Forall_impl; [exact Hl|]; by intros f (? & _)).
    destruct (entry_bytes (zlen M + 2) (file_name name)) as [_ Hle]; [by apply file_name_bytes, Hf|]. fold e in Hle.
    pose proof (entries_zlen (zlen M + 2 + 1) files (Hbytes _ HF')) as Hes.
    assert (Hz : zlen ((name, chunks) :: files) = zlen files + 1) by (unfold zlen; cbn [length]; lia).
    assert (Hz0 : 0 <= zlen files /\ 0 <= zlen rb /\ 0 <= zlen M) by (unfold zlen; lia). rewrite Hz in *.
    set (M1 := M ++ [(T_FILE, concat chunks)]). assert (HM1 : zlen M1 = zlen M + 1) by (unfold M1, zlen; rewrite length_app; simpl; lia).
    rewrite (assoc_L (++) rb), (cons_middle _ M), (assoc_L (++) M) in *. fold M1 in Hroom |- *.
    replace (zlen M + 2 + 1) with (zlen M1 + 2) in * by lia.
    assert (Hmono : total ((T_DIR, rb ++ e) :: M1) <= nblocks).
    { rewrite total_cons, total_app in Hroom. rewrite total_cons. cbn [snd] in *. pose proof (total_nonneg ((fun f => (T_FILE, concat f.2)) <$> files)).
      pose proof (cost_mono (zlen (rb ++ e)) (zlen ((rb ++ e) ++ entries (zlen M1 + 2) files))) as Hc. unfold zlen in *.
      rewrite !(length_app (rb ++ e)) in *. lia. }
    destruct (add_file_built s rb M name chunks B Hf) as (s1 & E1 & B1); [lia|unfold DIRENT in *; lia|done|].
    destruct (IH s1 (rb ++ e) M1 B1 HF') as (s2 & E2 & B2); [lia|unfold zlen, DIRENT in *; rewrite length_app; lia|done|].
    exists s2. split; [|exact B2]. cbn [opened add_files fmap list_fmap fst snd]. by erewrite bind_eq by exact E1.
Qed.

(** ** From the empty image *)

Lemma zero_all_run k : forall i s, mk_img s = replicate i zero_block -> zero_all k (Z.of_nat i) s = Ret tt (set_mk_img (replicate (i + k) zero_block) s).
Proof.
  induction k as [|k IH]; intros i s E; cbn [zero_all].
  - rewrite Nat.add_0_r, <-E. by destruct s.
  - erewrite bind_eq.
    2:{ unfold wsect, modify. rewrite Nat2Z.id, E, length_replicate, Nat.ltb_irrefl, Nat.sub_diag. reflexivity. }
    cbv beta. replace (Z.of_nat i + 1) with (Z.of_nat (S i)) by lia. rewrite IH; cbn [set_mk_img mk_img].
    + unfold set_mk_img. cbn [mk_freeinode mk_freeblock]. by rewrite Nat.add_succ_r.
    + by rewrite replicate_S_end.
Qed.
Lemma dinode_get_zero o : dinode_get zero_block o = dinode0.
Proof. unfold dinode_get, gets16, dinode0. rewrite !get32_zero. unfold get16. rewrite !znth_zero. cbn [get_addrs]. by rewrite !get32_zero. Qed.
Definition blank : mk := put 1 sb_block (Mk (replicate (Z.to_nat FSSIZE) zero_block) 1 nmeta).
Lemma blank_view k : view blank k = if k =? 1 then sb_block else zero_block.
Proof.
  unfold blank. rewrite image_put by (done || klia). case_match; [done|]. unfold view. cbn [mk_img]. rewrite nth_lookup.
  destruct (replicate _ _ !! _) eqn:E; [|done]. by apply lookup_replicate in E as [-> _].
Qed.
Lemma sb_bok : bok sb_block.
Proof. unfold sb_block. repeat apply put32_bok. apply zero_bok. Qed.
Lemma blank_built : built blank [].
Proof.
  split; try done.
  - split; [done|done| |].
    + intros k. rewrite blank_view. case_match; [apply sb_bok|apply zero_bok].
    + intros k Hk. rewrite blank_view, (proj2 (Z.eqb_neq _ _)); [done|]. cbn in Hk. klia.
  - intros i Hi _. pose proof (iblock_range i Hi). unfold ino. rewrite blank_view, (proj2 (Z.eqb_neq _ _)) by lia. apply dinode_get_zero.
  - intros b _ Hb. by rewrite blank_view, (proj2 (Z.eqb_neq _ _)).
Qed.
(** The root directory with its own two entries. *)
Lemma root_built : exists s, built s [(T_DIR, entry 1 [46] ++ entry 1 [46; 46])] /\
  forall (k : Z -> M mk unit),
  (modify (set_mk_freeblock nmeta) ;;; zero_all (Z.to_nat FSSIZE) 0 ;;; wsect 1 sb_block ;;;
   let! rootino := ialloc T_DIR in
   if negb (rootino =? ROOTINO) then panic "assert"
   else iappend rootino (dirent_bytes (Dirent (xshort rootino) (46 :: replicate 13 0))) ;;;
        iappend rootino (dirent_bytes (Dirent (xshort rootino) (46 :: 46 :: replicate 12 0))) ;;; k rootino) mk0 = k ROOTINO s.
Proof.
  destruct (ialloc_built blank [] T_DIR blank_built) as (s1 & E1 & B1); [done|done|].
  assert (B46 : Forall byte [46]) by (repeat constructor; done). assert (B4646 : Forall byte [46; 46]) by (repeat constructor; done).
  destruct (iappend_step s1 _ 0 T_DIR [] (entry 1 [46]) B1) as (s2 & E2 & B2); [done|by apply entry_bytes|done|done|].
  destruct (iappend_step s2 _ 0 T_DIR (entry 1 [46]) (entry 1 [46; 46]) B2) as (s3 & E3 & B3); [done|by apply entry_bytes|done|done|].
  exists s3. split; [exact B3|]. intros k. mrun.
  erewrite bind_eq by (apply (zero_all_run (Z.to_nat FSSIZE) 0); reflexivity). cbv beta.
  erewrite bind_eq by (apply wsect_eq; [reflexivity|klia]). cbv beta.
  change (put 1 sb_block _) with blank. erewrite bind_eq by exact E1. cbv beta. change (zlen (@nil (Z * list Z)) + 1) with ROOTINO.
  change (negb (ROOTINO =? ROOTINO)) with false. cbv iota.
  erewrite bind_eq by exact E2. cbv beta. by erewrite bind_eq by exact E3.
Qed.

(** ** What is on the disk *)

Lemma file_bytes_slice n v d off N : (off + n <= N)%nat -> file_bytes n v d (Z.of_nat off) = take n (drop off (file_bytes N v d 0)).
Proof.
  intros H. replace N with (off + (n + (N - off - n)))%nat by lia. rewrite !file_bytes_app, Z.add_0_l.
  rewrite drop_app_length' by (by rewrite length_file_bytes). by rewrite take_app_length' by (by rewrite length_file_bytes).
Qed.
Lemma entry_of inum name : 0 <= inum < 2 ^ 16 -> Forall byte name ->
  dirent_of (entry inum name) = Dirent inum (strncpy_name (Z.to_nat DIRSIZ) name).
Proof.
  intros Hi Hn. unfold dirent_of, entry, dirent_bytes. cbn [de_inum de_name].
  set (n := strncpy_name _ name). assert (Hl : length n = Z.to_nat DIRSIZ) by (by apply strncpy_bytes).
  change (put16 [0; 0] 0 inum) with [u8 inum; u8 (inum / 256)]. f_equal.
  - change (u8 inum + 256 * u8 (inum / 256) = inum). unfold u8. lia.
  - change (drop 2 ([u8 inum; u8 (inum / 256)] ++ n)) with n. apply take_ge. lia.
Qed.
Lemma entries_slice files : forall inum k f, Forall (fun f => Forall byte f.1) files -> files !! k = Some f ->
  take (Z.to_nat DIRENT) (drop (Z.to_nat DIRENT * k) (entries inum files)) = entry (inum + Z.of_nat k) (file_name f.1).
Proof.
  induction files as [|[name ch] files IH]; intros inum k f HF E; [done|]. inversion HF as [|? ? H1 H2]; subst. cbn [entries].
  destruct (entry_bytes inum (file_name name) (file_name_bytes _ H1)) as [_ Hl].
  assert (Hn : length (entry inum (file_name name)) = Z.to_nat DIRENT) by (unfold zlen in Hl; lia). destruct k as [|k]; cbn in E.
  - simplify_eq. rewrite Nat.mul_0_r, Z.add_0_r. rewrite drop_0. by apply take_app_length'.
  - rewrite Nat.mul_succ_r, Nat.add_comm, <-drop_drop, drop_app_length' by done. rewrite (IH (inum + 1) k f) by done. f_equal. lia.
Qed.
Lemma entry_lookup files k e : Forall (fun f => Forall byte f.1) files ->
  (k = 0%nat /\ e = (1, [46]) \/ k = 1%nat /\ e = (1, [46; 46]) \/
   exists f, files !! (k - 2)%nat = Some f /\ (2 <= k)%nat /\ e = (Z.of_nat k, file_name f.1)) ->
  take (Z.to_nat DIRENT) (drop (Z.to_nat DIRENT * k) (root_bytes files)) = entry e.1 e.2.
Proof.
  intros HF [[-> ->]|[[-> ->]|(f & E & Hk & ->)]]; [reflexivity..|]. unfold root_bytes.
  replace k with (2 + (k - 2))%nat at 1 by lia. rewrite Nat.mul_add_distr_l, <-drop_drop.
  change (drop (Z.to_nat DIRENT * 2) (entry 1 [46] ++ entry 1 [46; 46] ++ entries 2 files)) with (entries 2 files).
  rewrite (entries_slice _ _ _ f) by done. cbn [fst snd]. f_equal. lia.
Qed.

Definition entries_per_block : Z := BSIZE / DIRENT.
(** The disk [v] holds [files]. *)
Record image (v : Z -> block) (files : names_chunks) : Prop := {
  im_super : sb_of_block (v 1) = SuperBlock 1000 941 200 30 2 32 58;
  im_log b : 0 <= b < 32 -> b <> 1 -> v b = zero_block;
  im_root : d_type (ino v ROOTINO) = T_DIR /\ d_nlink (ino v ROOTINO) = 1 /\
    d_size (ino v ROOTINO) = (DIRENT * (zlen files + 2) / BSIZE + 1) * BSIZE;
  im_dots : dir_at v (ino v ROOTINO) 0 = Dirent ROOTINO (46 :: replicate 13 0) /\
    dir_at v (ino v ROOTINO) DIRENT = Dirent ROOTINO (46 :: 46 :: replicate 12 0);
  im_file k name chunks : files !! k = Some (name, chunks) ->
    let i := Z.of_nat k + 2 in
    dir_at v (ino v ROOTINO) (DIRENT * i) = Dirent i (strncpy_name (Z.to_nat DIRSIZ) (file_name name)) /\
    d_type (ino v i) = T_FILE /\ d_nlink (ino v i) = 1 /\ d_size (ino v i) = zlen (concat chunks) /\
    mapped v (ino v i) /\ content v (ino v i) = concat chunks;
  im_dir : mapped_to (DIRENT * (zlen files + 2)) v (ino v ROOTINO);
  im_mapped : mapped v (ino v ROOTINO) <-> (zlen files + 2) mod entries_per_block <> 0;
  im_rest off : (zlen files + 2) mod entries_per_block <> 0 -> dir_off (ino v ROOTINO) (DIRENT * (zlen files + 2)) off ->
    de_inum (dir_at v (ino v ROOTINO) off) = 0;
  im_none i : zlen files + 2 <= i < NINODES -> d_type (ino v i) = 0;
  im_blocks : (zlen files + 2) mod entries_per_block <> 0 -> all_owned v (zlen files + 1) ≡ₚ seqZ nmeta (total (image_of files));
  im_used b : 0 <= b < FSSIZE -> used v sb b = (b <? nmeta + total (image_of files))
}.

Lemma set_bits_spec k : forall used buf j, Z.of_nat k <= used <= 8 * zlen buf ->
  zlen (set_bits k used buf) = zlen buf /\
  get_bit (set_bits k used buf) j = (used - Z.of_nat k <=? j) && (j <? used) || get_bit buf j.
Proof.
  induction k as [|k IH]; intros used buf j H; cbn [set_bits].
  - split; [done|].
    destruct (Z.leb_spec (used - Z.of_nat 0) j), (Z.ltb_spec j used); done || lia.
  - assert (Hz : zlen (set_bit buf (used - Z.of_nat (S k))) = zlen buf) by (unfold set_bit; apply zlen_zupd).
    destruct (IH used (set_bit buf (used - Z.of_nat (S k))) j) as [H1 H2]; [lia|]. split; [lia|]. rewrite H2, get_set_bit by lia.
    destruct (get_bit buf j); [by rewrite !orb_true_r|rewrite !orb_false_r].
    destruct (Z.eqb_spec (used - Z.of_nat (S k)) j), (Z.leb_spec (used - Z.of_nat k) j), (Z.leb_spec (used - Z.of_nat (S k)) j), (Z.ltb_spec j used); done || lia.
Qed.
Lemma byte_lor x y : byte x -> byte y -> byte (Z.lor x y).
Proof.
  unfold byte. intros [Hx0 Hx] [Hy0 Hy]. assert (H0 : 0 <= Z.lor x y) by (by apply Z.lor_nonneg). split; [done|].
  destruct (decide (Z.lor x y = 0)) as [E|E]; [by rewrite E|]. change 256 with (2 ^ 8). apply Z.log2_lt_pow2; [lia|].
  rewrite Z.log2_lor by done. pose proof (Z.log2_le_mono x 255 ltac:(lia)) as Lx. pose proof (Z.log2_le_mono y 255 ltac:(lia)) as Ly.
  change (Z.log2 255) with 7 in Lx, Ly. lia.
Qed.
Lemma set_bits_bok k : forall used buf, bok buf -> bok (set_bits k used buf).
Proof.
  induction k as [|k IH]; intros used buf [H1 H2]; [done|]. cbn [set_bits]. apply IH. split; [by apply block_ok_set|].
  apply zupd_bytes; [done|]. apply byte_lor; [by apply znth_range|]. rewrite Z.shiftl_1_l.
  pose proof (Z.mod_pos_bound (used - Z.of_nat (S k)) 8 ltac:(lia)) as Hm. unfold byte. change 256 with (2 ^ 8).
  split; [by apply Z.pow_nonneg|apply Z.pow_lt_mono_r; lia].
Qed.
Lemma put_meta_ok s x b : disk_ok s -> 0 < x < nmeta -> bok b -> disk_ok (put x b s).
Proof.
  intros [H1 H2 H3 H4] Hx Hb. assert (Hx' : 0 < x < FSSIZE) by klia. split.
  - by rewrite length_put.
  - done.
  - intros k. rewrite image_put by done. case_match; [done|apply H3].
  - intros k Hk. rewrite image_put by done. change (mk_freeblock (put x b s)) with (mk_freeblock s) in Hk.
    rewrite (proj2 (Z.eqb_neq k x)) by lia. by apply H4.
Qed.
Lemma get_bit_zero j : get_bit zero_block j = false.
Proof. unfold get_bit. by rewrite znth_zero, Z.bits_0. Qed.

Definition root_size (files : names_chunks) : Z := (DIRENT * (zlen files + 2) / BSIZE + 1) * BSIZE.
Definition files_ok (files : names_chunks) : Prop :=
  Forall file_ok files /\ zlen files + 2 <= NINODES /\ total (image_of files) <= nblocks.
Lemma names_ok files : Forall file_ok files -> Forall (fun f : list Z * list (list Z) => Forall byte f.1) files.
Proof. intros H. eapply Forall_impl; [exact H|]. by intros f (? & _). Qed.
Lemma root_zlen files : Forall file_ok files -> zlen (root_bytes files) = DIRENT * (zlen files + 2).
Proof.
  intros H. pose proof (entries_zlen 2 files (names_ok _ H)) as He. unfold root_bytes.
  assert (Hd : length (entry 1 [46]) = 16%nat /\ length (entry 1 [46; 46]) = 16%nat) by done.
  unfold zlen, DIRENT in *. rewrite !length_app. lia.
Qed.
(** The end of [main]: the inode of the root with its size rounded up, then the free map. *)
Lemma main_steps files : files_ok files -> exists s3 s4 s5, main (opened files) mk0 = Ret tt s5 /\ disk_ok s5 /\ built s3 (image_of files) /\
  wrote s3 ROOTINO (set_d_size (root_size files) (ino (view s3) ROOTINO)) s4 /\
  forall b, view s5 b = if b =? 58 then set_bits (Z.to_nat (mk_freeblock s4)) (mk_freeblock s4) zero_block else view s4 b.
Proof.
  intros (HF & Hn & Hroom). destruct root_built as (s2 & B2 & E2). assert (H0 : 0 <= zlen files) by (unfold zlen; lia).
  destruct (add_files_built files s2 _ [] B2 HF) as (s3 & E3 & B3).
  { change (zlen (@nil (Z * list Z))) with 0. unfold MAXINO, NINODES in *. lia. }
  { change (zlen (entry 1 [46] ++ entry 1 [46; 46])) with 32. unfold DIRENT, NINODES, MAXFILE, NDIRECT, NINDIRECT, BSIZE in *. lia. }
  { rewrite <-(assoc_L (++)). exact Hroom. }
  rewrite <-(assoc_L (++)) in B3. change (zlen (@nil (Z * list Z)) + 2) with 2 in B3. cbn [app] in B3. change (_ :: _) with (image_of files) in B3.
  pose proof (root_zlen files HF) as Hr. destruct (bu_has _ _ B3 0%nat T_DIR (root_bytes files) eq_refl) as [Hh _].
  change (Z.of_nat 0 + 1) with ROOTINO in Hh. pose proof (ha_size _ _ _ _ Hh) as Hs. rewrite Hr in Hs.
  assert (Hrs : 0 <= root_size files < 2 ^ 32) by (unfold root_size, DIRENT, BSIZE, NINODES in *; lia).
  assert (Hi : 0 <= ROOTINO < MAXINO) by done.
  assert (Hd : dinode_ok (ino (view s3) ROOTINO)).
  { apply (built_dinode_ok s3 (image_of files)); [done|]. unfold image_of, zlen, ROOTINO. cbn [length]. lia. }
  set (d := ino (view s3) ROOTINO) in *.
  destruct (winode_ok s3 ROOTINO (set_d_size (root_size files) d) (bu_disk _ _ B3) Hi) as (s4 & E4 & W4); [destruct Hd; by split|].
  pose proof (dk_fb _ (wr_disk _ _ _ _ W4)) as Hfb. exists s3, s4, (put 58 (set_bits (Z.to_nat (mk_freeblock s4)) (mk_freeblock s4) zero_block) s4).
  split; [|split; [apply put_meta_ok; [apply W4|done|apply set_bits_bok, zero_bok]|split; [done|split; [done|intros b; apply image_put; [apply W4|done]]]]].
  unfold main. rewrite (E2 (fun rootino => _)). cbv beta. erewrite bind_eq by exact E3. cbv beta.
  erewrite bind_eq by (apply rinode_eq; [apply B3|done]). cbv beta zeta. fold d. rewrite Hs.
  rewrite (xint_small (DIRENT * _)) by (unfold DIRENT, NINODES in *; lia). fold (root_size files). rewrite (xint_small (root_size files)) by done.
  erewrite bind_eq by exact E4. mrun. unfold balloc. rewrite (proj2 (Z.ltb_lt _ _)) by klia. cbn [negb].
  change (sb_bmapstart sb) with 58. apply wsect_eq; [apply W4|klia].
Qed.

(** An inode whose blocks are data blocks of the disk is mapped. *)
Lemma mapped_of v d : 0 <= d_size d <= MAXFILE * BSIZE -> Forall (fun b => nmeta <= b < FSSIZE) (owned v d) -> mapped v d.
Proof.
  intros Hs HF. rewrite Forall_forall in HF. split; [lia|]. intros bn H0 Hb.
  assert (Hn : 0 <= bn < nblk d) by (unfold nblk; klia). unfold disk_addr. split.
  - pose proof (HF _ (owned_data v d bn Hn)). klia.
  - intros Hi. pose proof (HF _ (owned_ind v d (nblk_ind d bn (proj1 Hs) (conj Hi (proj2 Hn))))). klia.
Qed.
Lemma file_byte_direct v v' d d' k : 0 <= k / BSIZE < NDIRECT -> d_addrs d' = d_addrs d ->
  v' (znth (d_addrs d) (k / BSIZE)) = v (znth (d_addrs d) (k / BSIZE)) -> file_byte v' d' k = file_byte v d k.
Proof. intros H E Ev. unfold file_byte, addr_of. rewrite (proj2 (Z.ltb_lt _ _)) by lia. by rewrite E, Ev. Qed.

Section Final.
Variables (files : names_chunks) (s3 s4 : mk) (v : Z -> block).
Hypothesis F : files_ok files.
Hypothesis B : built s3 (image_of files).
Hypothesis W : wrote s3 ROOTINO (set_d_size (root_size files) (ino (view s3) ROOTINO)) s4.
Hypothesis V : forall b, v b = if b =? 58 then set_bits (Z.to_nat (mk_freeblock s4)) (mk_freeblock s4) zero_block else view s4 b.

Let d3 := ino (view s3) ROOTINO.
Let d := ino v ROOTINO.
Let gap := (zlen files + 2) mod entries_per_block = 0.

Lemma n_range : 0 <= zlen files <= 198.
Proof. destruct F as (_ & H & _). unfold NINODES, zlen in *. lia. Qed.
Lemma image_zlen : zlen (image_of files) = zlen files + 1.
Proof. unfold image_of, zlen. cbn [length]. rewrite length_fmap. lia. Qed.
Lemma final_other b : ~ 32 <= b <= 58 -> v b = view s3 b.
Proof. intros H. rewrite V, (proj2 (Z.eqb_neq _ _)) by lia. apply (wr_other _ _ _ _ W). lia. Qed.
Lemma final_ino i : 0 <= i < MAXINO -> ino v i = if i =? ROOTINO then set_d_size (root_size files) d3 else ino (view s3) i.
Proof.
  intros Hi. pose proof (iblock_range i Hi). unfold ino at 1. rewrite V, (proj2 (Z.eqb_neq _ _)) by lia. apply (wr_ino _ _ _ _ W i Hi).
Qed.
Lemma root_d : d = set_d_size (root_size files) d3.
Proof. unfold d. by rewrite final_ino. Qed.
Lemma root_has : has (view s3) ROOTINO T_DIR (root_bytes files).
Proof. apply (bu_has _ _ B 0%nat T_DIR (root_bytes files) eq_refl). Qed.
Lemma d3_size : d_size d3 = DIRENT * (zlen files + 2).
Proof. unfold d3. rewrite (ha_size _ _ _ _ root_has). apply root_zlen, F. Qed.
Lemma d3_nblk : 1 <= nblk d3 <= 7 /\ nblk d3 = (DIRENT * (zlen files + 2) + 511) / 512.
Proof. pose proof n_range. unfold nblk. rewrite d3_size. unfold DIRENT, BSIZE. lia. Qed.
(** The blocks of the root directory are as they were. *)
Lemma d3_owned b : b ∈ owned (view s3) d3 -> nmeta <= b < FSSIZE /\ v b = view s3 b.
Proof.
  intros Hb. pose proof n_range. pose proof (built_range _ _ B ROOTINO b ltac:(rewrite image_zlen; unfold ROOTINO; lia) Hb) as Hr.
  pose proof (dk_fb _ (bu_disk _ _ B)). split; [lia|]. apply final_other. klia.
Qed.
Lemma root_byte k : 0 <= k < nblk d3 * BSIZE -> file_byte v d k = file_byte (view s3) d3 k.
Proof.
  intros Hk. destruct d3_nblk as [Hn _]. assert (Hb : 0 <= k / BSIZE < nblk d3) by klia. assert (Hd : 0 <= k / BSIZE < NDIRECT) by klia.
  apply file_byte_direct; [done|by rewrite root_d|]. pose proof (owned_data (view s3) d3 _ Hb) as Ho. unfold addr_of in Ho.
  rewrite (proj2 (Z.ltb_lt _ _)) in Ho by lia. by apply d3_owned.
Qed.
Lemma root_entry k e : (k = 0%nat /\ e = (1, [46]) \/ k = 1%nat /\ e = (1, [46; 46]) \/
   exists f, files !! (k - 2)%nat = Some f /\ (2 <= k)%nat /\ e = (Z.of_nat k, file_name f.1)) ->
  dir_at v d (DIRENT * Z.of_nat k) = Dirent e.1 (strncpy_name (Z.to_nat DIRSIZ) e.2).
Proof.
  intros Hk. pose proof n_range. pose proof (names_ok _ (proj1 F)) as HN.
  assert (Hk2 : (k < length files + 2)%nat /\ 0 <= e.1 < 2 ^ 16 /\ Forall byte e.2).
  { destruct Hk as [[-> ->]|[[-> ->]|(f & E & Hk & ->)]]; [split; [lia|split; [done|repeat constructor; done]]..|].
    pose proof (lookup_lt_Some _ _ _ E). rewrite Forall_lookup in HN. split; [lia|]. unfold zlen in *. cbn [fst snd]. split; [lia|].
    apply file_name_bytes. by apply (HN _ _ E). }
  destruct Hk2 as (Hk2 & He1 & He2). rewrite <-(entry_of e.1 e.2) by done. unfold dir_at. f_equal.
  rewrite <-(entry_lookup files k e HN Hk). rewrite <-(ha_content _ _ _ _ root_has). unfold content. fold d3.
  replace (DIRENT * Z.of_nat k) with (Z.of_nat (Z.to_nat DIRENT * k)) by (unfold DIRENT; lia).
  assert (Hsz : (Z.to_nat DIRENT * k + Z.to_nat DIRENT <= Z.to_nat (d_size d3))%nat) by (rewrite d3_size; unfold DIRENT, zlen; lia).
  rewrite <-(file_bytes_slice _ _ _ _ _ Hsz). apply file_bytes_ext. intros j Hj. apply root_byte.
  unfold nblk. klia.
Qed.
Lemma root_rest off : ~ gap -> dir_off d (DIRENT * (zlen files + 2)) off -> de_inum (dir_at v d off) = 0.
Proof.
  intros Hg (H1 & H2 & _). rewrite root_d in H2. cbn [set_d_size d_size] in H2. destruct d3_nblk as [Hn En]. pose proof n_range.
  assert (Hz : forall j, off <= j < off + DIRENT -> file_byte v d j = 0).
  { intros j Hj. assert (Hb : 0 <= j < nblk d3 * BSIZE).
    { rewrite En. unfold root_size, DIRENT, BSIZE in *. change ((zlen files + 2) mod 32 <> 0) in Hg. lia. }
    rewrite root_byte by done. apply (ha_tail _ _ _ _ root_has). fold d3. rewrite d3_size. split; [lia|apply Hb]. }
  unfold dir_at, dirent_of. cbn [de_inum]. change (Z.to_nat DIRENT) with 16%nat. cbn [file_bytes].
  rewrite (Hz off), (Hz (off + 1)) by (unfold DIRENT; lia). done.
Qed.

(** The files. *)
Lemma final_has k name chunks : files !! k = Some (name, chunks) -> let i := Z.of_nat k + 2 in
  has v i T_FILE (concat chunks) /\ owned v (ino v i) = owned (view s3) (ino (view s3) i) /\ mapped v (ino v i).
Proof.
  intros Hk i. pose proof n_range. pose proof (lookup_lt_Some _ _ _ Hk) as Hkl. assert (Hi : 2 <= i <= zlen files + 1) by (unfold i, zlen; lia).
  assert (Hl : image_of files !! S k = Some (T_FILE, concat chunks)).
  { change (((fun f : list Z * list (list Z) => (T_FILE, concat f.2)) <$> files) !! k = Some (T_FILE, concat chunks)).
    rewrite list_lookup_fmap. exact (f_equal (fmap (fun f : list Z * list (list Z) => (T_FILE, concat f.2))) Hk). }
  destruct (bu_has _ _ B _ _ _ Hl) as [Hh _]. replace (Z.of_nat (S k) + 1) with i in Hh by lia.
  assert (Hr : forall b, b ∈ owned (view s3) (ino (view s3) i) -> nmeta <= b < FSSIZE).
  { intros b Hb. pose proof (built_range _ _ B i b ltac:(rewrite image_zlen; lia) Hb). pose proof (dk_fb _ (bu_disk _ _ B)). lia. }
  destruct (has_frame (view s3) v i T_FILE (concat chunks) Hh) as [Hh' Ho].
  - rewrite final_ino by (unfold MAXINO; lia). rewrite (proj2 (Z.eqb_neq _ _)); [done|]. unfold ROOTINO. lia.
  - intros b Hb. apply final_other. specialize (Hr b Hb). klia.
  - split; [done|split; [done|]]. apply mapped_of; [apply (ti_size _ _ (ha_tidy _ _ _ _ Hh'))|]. rewrite Ho. by apply Forall_forall.
Qed.
Lemma root_entries : mapped_to (DIRENT * (zlen files + 2)) v d.
Proof.
  pose proof n_range. destruct d3_nblk as [Hn En]. rewrite root_d. split.
  - cbn [set_d_size d_size]. unfold root_size, DIRENT. klia.
  - cbn [set_d_size d_size d_addrs]. intros bn H0 Hb. assert (Hbn : 0 <= bn < nblk d3) by (unfold root_size, DIRENT, BSIZE in *; lia).
    split; [|klia]. pose proof (d3_owned _ (owned_data (view s3) d3 bn Hbn)) as [Ho _].
    unfold addr_of, disk_addr in *. cbn [set_d_size d_addrs]. rewrite (proj2 (Z.ltb_lt bn NDIRECT)) in * by klia. klia.
Qed.
Lemma root_mapped : mapped v d <-> ~ gap.
Proof.
  pose proof n_range. destruct d3_nblk as [Hn En]. pose proof (ti_direct _ _ (ha_tidy _ _ _ _ root_has)) as Htd. fold d3 in Htd. rewrite root_d. split.
  - intros [_ Hm] Hg. unfold gap in Hg. change ((zlen files + 2) mod 32 = 0) in Hg.
    destruct (Hm (nblk d3)) as [Ha _]; [lia|cbn [set_d_size d_size]; unfold root_size, DIRENT, BSIZE in *; lia|].
    unfold addr_of, disk_addr in Ha. cbn [set_d_size d_addrs] in Ha. rewrite (proj2 (Z.ltb_lt _ _)), Htd in Ha by klia. lia.
  - intros Hg. unfold gap in Hg. change ((zlen files + 2) mod 32 <> 0) in Hg. split.
    + cbn [set_d_size d_size]. unfold root_size, DIRENT. klia.
    + cbn [set_d_size d_size d_addrs]. intros bn H0 Hb. assert (Hbn : 0 <= bn < nblk d3) by (unfold root_size, DIRENT, BSIZE in *; lia).
      split; [|klia]. pose proof (d3_owned _ (owned_data (view s3) d3 bn Hbn)) as [Ho _].
      unfold addr_of, disk_addr in *. cbn [set_d_size d_addrs]. rewrite (proj2 (Z.ltb_lt bn NDIRECT)) in * by klia. klia.
Qed.
Lemma final_blocks : ~ gap -> all_owned v (zlen files + 1) ≡ₚ seqZ nmeta (total (image_of files)).
Proof.
  intros Hg. unfold gap in Hg. change ((zlen files + 2) mod 32 <> 0) in Hg. rewrite <-(bu_blocks _ _ B), image_zlen.
  rewrite (all_owned_ext (view s3) v); [done|]. intros i Hi. destruct (decide (i = ROOTINO)) as [->|Hne].
  - fold d d3. pose proof n_range. destruct d3_nblk as [Hn En]. rewrite root_d. unfold owned. rewrite d3_size. cbn [set_d_size d_size d_addrs].
    rewrite !(proj2 (Z.ltb_ge _ _)) by (unfold root_size, DIRENT; klia). rewrite !app_nil_r.
    replace (nblk (set_d_size (root_size files) d3)) with (nblk d3).
    + apply list_fmap_ext. intros j bn Hj. apply lookup_seqZ in Hj as [-> Hj]. unfold addr_of. cbn [set_d_size d_addrs].
      by rewrite !(proj2 (Z.ltb_lt _ _)) by klia.
    + rewrite En. unfold nblk. cbn [set_d_size d_size]. unfold root_size, DIRENT, BSIZE. lia.
  - unfold ROOTINO in Hne. destruct (lookup_lt_is_Some_2 files (Z.to_nat (i - 2))) as [[name chunks] E]; [unfold zlen in Hi; lia|].
    destruct (final_has _ _ _ E) as (_ & Ho & _). by replace (Z.of_nat (Z.to_nat (i - 2)) + 2) with i in Ho by lia.
Qed.
Lemma final_used b : 0 <= b < FSSIZE -> used v sb b = (b <? nmeta + total (image_of files)).
Proof.
  intros Hb. unfold used. assert (Eb : BBLOCK b sb = 58 /\ b mod BPB = b).
  { rewrite sb_eq. unfold BBLOCK, BPB, BSIZE, FSSIZE in *. cbn [sb_bmapstart]. lia. }
  destruct Eb as [-> ->]. rewrite V, Z.eqb_refl. pose proof (dk_fb _ (wr_disk _ _ _ _ W)) as Hf.
  rewrite <-(bu_fb _ _ B), <-(wr_fb _ _ _ _ W).
  destruct (set_bits_spec (Z.to_nat (mk_freeblock s4)) (mk_freeblock s4) zero_block b) as [_ ->].
  { change (zlen zero_block) with 512. klia. }
  rewrite get_bit_zero, orb_false_r. replace (mk_freeblock s4 - _) with 0 by klia. by rewrite (proj2 (Z.leb_le _ _)) by lia.
Qed.
Lemma final_image : image v files.
Proof.
  pose proof n_range as Hn. split.
  - rewrite final_other, (bu_super _ _ B) by lia. reflexivity.
  - intros b Hb Hb1. rewrite final_other by lia. apply (bu_meta _ _ B); [by left|done].
  - fold d. rewrite root_d. cbn [set_d_size d_type d_nlink d_size]. pose proof root_has as [H1 _ H2 _ _ _ _]. done.
  - fold d. split; [apply (root_entry 0 (1, [46])); by left|apply (root_entry 1 (1, [46; 46])); right; by left].
  - intros k name chunks Hk i. destruct (final_has k name chunks Hk) as ([H1 H2 H3 H4 H5 H6 H7] & _ & Hm). split; [|done].
    pose proof (root_entry (k + 2) (Z.of_nat (k + 2), file_name name)) as Hr. cbn [fst snd] in Hr.
    replace (Z.of_nat (k + 2)) with i in Hr by lia. apply Hr. right. right. exists (name, chunks).
    replace (k + 2 - 2)%nat with k by lia. split; [done|split; [lia|done]].
  - apply root_entries.
  - apply root_mapped.
  - apply root_rest.
  - intros i Hi. unfold NINODES in Hi. rewrite final_ino by (unfold MAXINO; lia). rewrite (proj2 (Z.eqb_neq _ _)) by (unfold ROOTINO; lia).
    rewrite (bu_none _ _ B i); [done|unfold MAXINO; lia|rewrite image_zlen; lia].
  - apply final_blocks.
  - apply final_used.
Qed.
End Final.

Lemma mkfs_run files : files_ok files -> exists s, main (opened files) mk0 = Ret tt s /\ disk_ok s /\ image (view s) files.
Proof.
  intros F. destruct (main_steps files F) as (s3 & s4 & s5 & E & D & B & W & V). exists s5. split; [done|]. split; [done|].
  by apply (final_image files s3 s4).
Qed.

(** C11: [mkfs] writes the disk the kernel expects. For at most 198 files with slash-free
    names, of at most [MAXFILE] blocks each and 941 blocks in all, the program ends with 1000 blocks of 512 bytes; the
    superblock is the layout's, the log is empty, inode 1 is the root directory with [.],
    [..] and one entry per file (a leading [_] dropped, 14 bytes of the name kept), file [k] is inode [k + 2] with one link and the
    bytes read, in blocks the kernel can map; the other inodes are free, the free map says
    which blocks are in use, and every one of them belongs to one file. The root directory
    is padded with free entries, except that a directory that fills its last block ends in
    a block that is not allocated. *)
Theorem mkfs_image files : files_ok files -> exists s, main (opened files) mk0 = Ret tt s /\ disk_ok s /\ image (view s) files.
Proof. apply mkfs_run. Qed.

(** Two files: "_cat" of two reads, which has to be in inode 2 as "cat", and an empty "x". *)
Definition demo_files : names_chunks := [([95; 99; 97; 116], [replicate 512 7; [1; 2; 3]]); ([120], [])].
Lemma demo_files_ok : files_ok demo_files.
Proof.
  split; [|split; [done|by vm_compute]]. repeat (apply Forall_cons; split); try apply Forall_nil_2;
    (split; [apply (bool_decide_unpack _); by vm_compute|split; [done|split; [|by vm_compute]]]);
    apply (bool_decide_unpack _); by vm_compute.
Qed.
Lemma mkfs_image_witness : files_ok demo_files /\ exists s, main (opened demo_files) mk0 = Ret tt s /\
  content (view s) (ino (view s) 2) = replicate 512 7 ++ [1; 2; 3] /\ used (view s) sb 62 = false.
Proof.
  split; [exact demo_files_ok|]. destruct (mkfs_image demo_files demo_files_ok) as (s & E & _ & I). exists s. split; [exact E|].
  split; [apply (im_file _ _ I 0 _ _ eq_refl)|]. rewrite (im_used _ _ I) by (unfold FSSIZE; lia). by vm_compute.
Defined.
