(* ===== verification/MkfsKernel.v ===== *)
(** * The kernel on the disk of mkfs

    What mkfs.c writes, fs.c reads: [dirlookup] of a file's name in the root directory
    finds its inode, and [readi] of that inode returns the file's bytes. *)
From S2P Require Import Prelude Param Iface Sleeplock Ide Bio Log LogSpec LogCrash LogTxn LogBio.
From S2P Require Import CString Fs FsBlock FsPath FsInode FsRead FsDemo Mkfs MkfsSpec MkfsImage MkfsDisk.

Lemma name_str_strncpy name : name_str (strncpy_name (Z.to_nat DIRSIZ) name) = name_str name.
Proof.
  unfold name_str. generalize (Z.to_nat DIRSIZ) as n. intros n. revert name. induction n as [|n IH]; intros [|c name]; try done.
  cbn [strncpy_name take]. destruct (Z.eqb_spec c 0) as [->|Hc]; [done|]. cbn [take until_nul].
  rewrite (proj2 (Z.eqb_neq _ _)) by done. by rewrite IH.
Qed.

(** The names in the directory before file [k] are others. *)
Definition fresh_name (files : names_chunks) (k : nat) (name : list Z) : Prop :=
  name_str (file_name name) <> [46] /\ name_str (file_name name) <> [46; 46] /\
  forall j n ch, (j < k)%nat -> files !! j = Some (n, ch) -> name_str (file_name n) <> name_str (file_name name).

Section Kernel.
Context {T : Type} `{HP : ProcIface T} `{HO : TxnOps T} `{HL : !TxnLaws T} `{HD : DevSw T}.
Implicit Types s : fs T.

(** The state of a kernel in a transaction on the disk [v]: inode [dp] of the cache is the root. *)
Record on_disk (v : Z -> block) s (dp : nat) : Prop := {
  od_ok : t_ok (f_txn s) ∅;
  od_quota : (0 < t_quota (f_txn s))%nat;
  od_lock : f_lock s = false;
  od_view b : fview s b = v b;
  od_byte b : Forall byte (v b);
  od_dev : in_dev (inode_at s dp) = ROOTDEV;
  od_root : in_d (inode_at s dp) = ino v ROOTINO
}.
Lemma image_root_dir v files s dp : image v files -> on_disk v s dp -> root_dir_to (DIRENT * (zlen files + 2)) s dp.
Proof.
  intros I O. pose proof (im_root _ _ I) as (H1 & _ & H3). split; [apply O|]. rewrite (od_root _ _ _ O). split; [done|].
  split; [apply (mapped_to_view _ v); [intros k; apply (od_view _ _ _ O)|by apply (im_dir _ _ I)]|]. rewrite H3. unfold DIRENT, BSIZE, zlen. lia.
Qed.
Lemma image_match v files s dp k name chunks off : image v files -> on_disk v s dp ->
  files !! k = Some (name, chunks) -> fresh_name files k name -> dir_off (ino v ROOTINO) 0 off ->
  dir_match (fview s) (ino v ROOTINO) (file_name name) off -> DIRENT * (Z.of_nat k + 2) <= off.
Proof.
  intros I O Hk (N1 & N2 & N3) (H1 & H2 & H3) [M1 M2]. rewrite !(dir_at_view v) in M1, M2 by apply (od_view _ _ _ O).
  destruct (Z.le_gt_cases (DIRENT * (Z.of_nat k + 2)) off) as [Hle|Hlt]; [done|]. exfalso.
  destruct (im_dots _ _ I) as [D0 D1]. set (j := Z.to_nat (off / DIRENT)). assert (Ej : off = DIRENT * Z.of_nat j) by (unfold j, DIRENT in *; lia).
  destruct (decide (j = 0%nat)) as [E|Hj0]; [rewrite Ej, E, Z.mul_0_r, D0 in M2; by apply N1|].
  destruct (decide (j = 1%nat)) as [E|Hj1]; [rewrite Ej, E, Z.mul_1_r, D1 in M2; by apply N2|].
  assert (Hjk : (j - 2 < k)%nat) by (unfold DIRENT in *; lia). pose proof (lookup_lt_Some _ _ _ Hk) as Hkl.
  destruct (lookup_lt_is_Some_2 files (j - 2)%nat) as [[n ch] En]; [lia|].
  destruct (im_file _ _ I _ _ _ En) as [Da _]. assert (Eo : DIRENT * (Z.of_nat (j - 2) + 2) = off) by (unfold DIRENT in *; lia).
  rewrite Eo in Da. rewrite Da in M2. cbn [de_name] in M2. rewrite name_str_strncpy in M2. by apply (N3 _ _ _ Hjk En).
Qed.

End Kernel.

(** ** A machine with that disk *)

Fixpoint disk_of (i : Z) (img : list block) : disk_hist (Z * Z) :=
  match img with [] => [] | b :: img => ((ROOTDEV, i), b) :: disk_of (i + 1) img end.
Lemma disk_of_block img : forall i k, hist_block (omap root_write (disk_of i img)) k =
  if k <? i then zero_block else nth (Z.to_nat (k - i)) img zero_block.
Proof.
  induction img as [|b img IH]; intros i k.
  - cbn. destruct (k <? i); [done|]. by destruct (Z.to_nat (k - i)).
  - cbn [disk_of]. change (omap root_write (((ROOTDEV, i), b) :: disk_of (i + 1) img)) with ((i, b) :: omap root_write (disk_of (i + 1) img)).
    cbn [hist_block]. destruct (decide (i = k)) as [->|Hne].
    + rewrite Z.ltb_irrefl, Z.sub_diag. done.
    + rewrite IH. destruct (Z.ltb_spec k (i + 1)), (Z.ltb_spec k i); try (done || lia).
      replace (Z.to_nat (k - i)) with (S (Z.to_nat (k - (i + 1)))) by lia. done.
Qed.
Lemma disk_of_ok img i : Forall block_ok img -> Forall (fun e => block_ok e.2) (disk_of i img).
Proof. intros H. revert i. induction H; intros i; constructor; auto. Qed.
(** The buffer cache is empty, the log is initialised, and the root inode is in the cache. *)
Lemma boot_exists m files : disk_ok m -> image (view m) files -> exists s : fs (log (bio lone_proc)), on_disk (view m) s 0 /\
  f_inodes s = [Inode ROOTDEV ROOTINO 1 initsleeplock true (ino (view m) ROOTINO); inode0].
Proof.
  intros D I. assert (Hok : Forall block_ok (mk_img m)).
  { apply Forall_lookup. intros i b Hb. pose proof (dk_block _ D (Z.of_nat i)) as [H _]. unfold view in H.
    by rewrite Nat2Z.id, (nth_lookup_Some _ _ _ _ Hb) in H. }
  destruct (binit_ok (P := lone_proc) (7, false) (disk_of 0 (mk_img m))) as (c & _ & Hc & Hh & Hp); [by apply disk_of_ok|].
  change (bio_hist c) with (blk_hist c) in Hh. change (bio_ok c ∅) with (blk_ok c ∅) in Hc. change (bio_pin c) with (blk_pin c) in Hp.
  assert (V : forall k, 0 <= k -> hist_block (blk_hist c) k = view m k).
  { intros k Hk. rewrite Hh, disk_of_block, (proj2 (Z.ltb_ge _ _)) by lia. unfold view. by rewrite Z.sub_0_r. }
  set (l := [Inode ROOTDEV ROOTINO 1 initsleeplock true (ino (view m) ROOTINO); inode0]).
  exists (Fs (fresh_log c) false l demo_sb 0%nat). split; [|done].
  split; try done.
  - exists []. rewrite fmap_empty. split; [|split; [done|]].
    + apply fresh_inv; [done|done|]. rewrite V by done. by apply (im_log _ _ I).
    + split; intros; by rewrite ?lookup_empty in *.
  - change (t_quota (f_txn _)) with 29%nat. lia.
  - intros b. assert (Eb : fview (Fs (fresh_log c) false l demo_sb 0%nat) b = hist_block (blk_hist c) b).
    { unfold fview. simpl. apply (blk_idle c b Hc). rewrite Hp. set_solver. }
    rewrite Eb. destruct (Z.ltb_spec b 0) as [Hb|Hb]; [|by apply V].
    rewrite Hh, disk_of_block, (proj2 (Z.ltb_lt _ _)) by done.
    unfold view. replace (Z.to_nat b) with (Z.to_nat 0) by lia. symmetry. by apply (im_log _ _ I 0).
  - intros b. apply (dk_block _ D).
Qed.

#[local] Instance no_devices : DevSw (log (bio lone_proc)) := {|
  dev_read := fun _ => None; dev_write := fun _ => None |}.
