(* ===== verification/Gosh.v ===== *)
(** * The Linux shell: the text of commands and the history

    A2/stringers.c, takeInput.c, history.c and the parsing in commands.c. Strings are their
    bytes without the NUL, and [strtok] called until it returns NULL is the list of its
    tokens. [None] is an access outside of an array or through NULL. *)
From S2P Require Import Prelude CString Printf.

(** ** stringers.c *)

(** C's [isspace]. *)
Definition isspace (c : Z) : bool := (9 <=? c) && (c <=? 13) || (c =? 32).
Fixpoint trim_front (str : list Z) : list Z :=
  match str with
  | c :: rest => if isspace c then trim_front rest else str
  | [] => []
  end.
(** [while (end > str && isspace( *end)) end--;] from offset [k] *)
Fixpoint trim_end (k : nat) (str : list Z) : nat :=
  match k with
  | O => O
  | S k' => if isspace (znth str (Z.of_nat k)) then trim_end k' str else k
  end.
Definition trim (str : list Z) : list Z :=
  let str := trim_front str in
  match str with
  | [] => []
  | _ => take (S (trim_end (length str - 1) str)) str
  end.

(** C's [strtok] until NULL: the runs of bytes that are not delimiters; [cur] is the run
    read so far. *)
Fixpoint strtok_from (delim : list Z) (cur s : list Z) : list (list Z) :=
  match s with
  | [] => match cur with [] => [] | _ => [cur] end
  | c :: s =>
    if existsb (Z.eqb c) delim then
      match cur with [] => strtok_from delim [] s | _ => cur :: strtok_from delim [] s end
    else strtok_from delim (cur ++ [c]) s
  end.
Definition strtok (delim s : list Z) : list (list Z) := strtok_from delim [] s.
Definition str_eq (a b : list Z) : bool := bool_decide (a = b).
(** C's [atoi] of a string of digits with an optional sign. *)
Fixpoint atoi_digits (l : list Z) (n : Z) : Z :=
  match l with
  | c :: l => if (48 <=? c) && (c <=? 57) then atoi_digits l (n * 10 + (c - 48)) else n
  | [] => n
  end.
Definition atoi (s : list Z) : Z :=
  match trim_front s with
  | 45 :: l => - atoi_digits l 0
  | 43 :: l => atoi_digits l 0
  | l => atoi_digits l 0
  end.

(** ** commands.c: lines and words *)

Fixpoint countPipes (commands : list Z) : Z :=
  match commands with [] => 0 | c :: l => (if c =? 124 then 1 else 0) + countPipes l end.
(** [calloc(1000, 1)] holds 125 pointers. *)
Definition PTRS : Z := 125.
Definition tokenizeCommands (allCommandsString : list Z) : option (list (list Z)) :=
  let commands := filter (fun actual => actual <> []) (trim <$> strtok (codes ";") allCommandsString) in
  if zlen commands <=? PTRS then Some commands else None.

(** The words and files of one command while it is read. *)
Record words := Words {
  wd_args : list (list Z);
  wd_inp : list Z;
  wd_outp : list Z;
  wd_append : list Z;
  wd_hasInput : bool;
  wd_hasOutput : bool;
  wd_hasAppend : bool
}.
Definition words0 : words := Words [] [] [] [] false false false.
(** One turn of the loop over the tokens. *)
Definition word_step (w : words) (arg : list Z) : words :=
  let '(Words args inp outp append hi ho ha) := w in
  if str_eq arg [60] then Words args inp outp append true ho ha
  else if hi then Words args arg outp append false ho ha
  else if str_eq arg [62] then Words args inp outp append hi true ha
  else if ho then Words args inp arg append hi false ha
  else if str_eq arg [62; 62] then Words args inp outp append hi ho true
  else if ha then Words args inp outp arg hi ho false
  else Words (args ++ [arg]) inp outp append hi ho ha.
Definition read_words (command : list Z) : words := foldl word_step words0 (strtok [9; 32] command).

(** [&] is removed where it first occurs. *)
Fixpoint remove_amp (args : list (list Z)) : list (list Z) * bool :=
  match args with
  | [] => ([], false)
  | a :: args => if str_eq a [38] then (args, true) else let (l, b) := remove_amp args in (a :: l, b)
  end.
(** The loop that removes redirections from the arguments, at index [i] with [k] turns to
    go at most; [None] when it stores before the array. *)
Fixpoint remove_redirs (k : nat) (i : nat) (args : list (list Z)) : option (list (list Z)) :=
  match k with
  | O => Some args
  | S k' =>
    match args !! i with
    | None => Some args
    | Some a =>
      if str_eq a [60] || str_eq a [62; 62] || str_eq a [62] then
        if (length args <? 2)%nat then None
        else remove_redirs k' (S i) (take (length args - 2) (take i args ++ drop (i + 2) args))
      else remove_redirs k' (S i) args
    end
  end.
Record parsed := Parsed {
  pr_cmd : option (list Z);             (* args[0], before [&] is removed *)
  pr_args : list (list Z);
  pr_background : bool;
  pr_inp : list Z;
  pr_outp : list Z;
  pr_append : list Z
}.
Definition parse_command (command : list Z) : option parsed :=
  let w := read_words command in
  if negb (zlen (wd_args w) <? PTRS) then None
  else
  let args := trim <$> wd_args w in
  let cmd := head args in
  let (args, isBackgroundJob) := remove_amp args in
  args ← remove_redirs (length args) 0 args;
  Some (Parsed cmd args isBackgroundJob (wd_inp w) (wd_outp w) (wd_append w)).

(** ** history.c *)

Definition maxStored : Z := 20.
(** [commandHistory] up to [storedCount], and the bytes of the history file ([None]: it
    cannot be opened). *)
Record history := History { hi_cmds : list (list Z); hi_file : option (list Z) }.
Definition writeStored (h : history) : history :=
  match hi_file h with
  | None => h
  | Some _ => History (hi_cmds h) (Some (hi_cmds h ≫= fun c => c ++ [10]))
  end.
Definition addNewCommand (cmd : list Z) (h : history) : history :=
  let cmds := hi_cmds h in
  if bool_decide (last cmds = Some cmd) then h
  else if zlen cmds <? maxStored then writeStored (History (cmds ++ [cmd]) (hi_file h))
  else writeStored (History (drop 1 cmds ++ [cmd]) (hi_file h)).
(** [buf] is 1000 bytes; without a NUL among them [strtok] runs on past its end. The file is
    created when it is not there, so a failure leaves the history empty. *)
Definition retrieveStored (h : history) : option history :=
  match hi_file h with
  | None => Some h
  | Some file =>
    let buf := take 1000 file in
    if 1000 <=? zlen (until_nul buf) then None
    else
    let cmds := filter (fun c => c <> []) (trim <$> strtok [10] (until_nul buf)) in
    if zlen cmds <=? maxStored then Some (History cmds (hi_file h)) else None
  end.
(** The lines printed by [printHistory(n)]. *)
Definition printHistory (n : Z) (h : history) : list Z :=
  let storedCount := zlen (hi_cmds h) in
  let lim := Z.max (storedCount - n) 0 in
  drop (Z.to_nat lim) (hi_cmds h) ≫= fun c => c ++ [10].
(** The offset that [handleArrows] computes from the third byte of each arrow. *)
Fixpoint arrow_offset (command : list Z) : Z :=
  match command with
  | _ :: _ :: c :: rest => (if c =? 65 then 1 else -1) + arrow_offset rest
  | _ => 0
  end.

(** ** takeInput.c *)

(** A line of input without its newline, into [calloc(1, 100)]: the history and the
    commands. *)
Definition takeInput (line : list Z) (h : history) : option (list (list Z) * history) :=
  if negb (zlen line <? 100) then None
  else if zlen line =? 0 then Some ([], h)
  else
  let x := until_nul line in
  let h := match x with 27 :: _ => h | _ => addNewCommand x h end in
  commands ← tokenizeCommands x; Some (commands, h).
