(* ===== verification/GoshSpec.v ===== *)
(** * The Linux shell reads what was written

    [strtok] against splitting, the parser of commands against their syntax, and the
    history against the sequence of the commands typed, across restarts. *)
From S2P Require Import Prelude CString Printf Gosh.

(** ** Splitting *)

(** The fields of [s] between delimiters. *)
Fixpoint split_on (delim s : list Z) : list (list Z) :=
  match s with
  | [] => [[]]
  | c :: s =>
    if existsb (Z.eqb c) delim then [] :: split_on delim s
    else match split_on delim s with f :: fs => (c :: f) :: fs | [] => [[c]] end
  end.
Definition nonempty (l : list (list Z)) : list (list Z) := filter (fun f => f <> []) l.
Lemma split_on_cons delim s : exists f fs, split_on delim s = f :: fs.
Proof. destruct s as [|c s]; cbn [split_on]; [by eexists _, _|]. destruct (existsb _ _); [by eexists _, _|]. destruct (split_on delim s); by eexists _, _. Qed.
Lemma strtok_from_spec delim s : forall cur, strtok_from delim cur s =
  match split_on delim s with f :: fs => nonempty ((cur ++ f) :: fs) | [] => [] end.
Proof.
  induction s as [|c s IH]; intros cur; cbn [strtok_from split_on].
  - unfold nonempty. rewrite app_nil_r. by destruct cur.
  - destruct (split_on_cons delim s) as (f & fs & E). destruct (existsb (Z.eqb c) delim).
    + rewrite app_nil_r. destruct cur as [|x cur]; rewrite IH, E; done.
    + rewrite IH, E. by rewrite <-(assoc_L (++)).
Qed.
Lemma strtok_split delim s : strtok delim s = nonempty (split_on delim s).
Proof. unfold strtok. rewrite strtok_from_spec. destruct (split_on_cons delim s) as (f & fs & ->). done. Qed.

Definition avoids (delim w : list Z) : Prop := Forall (fun c => existsb (Z.eqb c) delim = false) w.
Lemma strtok_from_word delim w s : avoids delim w -> forall cur, strtok_from delim cur (w ++ s) = strtok_from delim (cur ++ w) s.
Proof.
  induction 1 as [|c w Hc _ IH]; intros cur; [by rewrite app_nil_r|]. cbn [app strtok_from]. rewrite Hc, IH. by rewrite <-(assoc_L (++)).
Qed.
(** Words, each followed by a delimiter. *)
Lemma strtok_words delim d ws : existsb (Z.eqb d) delim = true -> Forall (fun w => w <> [] /\ avoids delim w) ws ->
  strtok delim (ws ≫= fun w => w ++ [d]) = ws.
Proof.
  intros Hd H. unfold strtok. induction H as [|w ws [Hne Hw] _ IH]; [done|]. cbn [mbind list_bind]. rewrite <-(assoc_L (++)), strtok_from_word by done.
  cbn [app strtok_from]. rewrite Hd. destruct w as [|c w]; [done|]. cbn [app]. f_equal. exact IH.
Qed.

Lemma nonempty_id l : Forall (fun f => f <> []) l -> filter (fun f : list Z => f <> []) l = l.
Proof. induction 1 as [|f l Hf _ IH]; [done|]. cbn [filter list_filter]. rewrite decide_True by done. f_equal. exact IH. Qed.

(** ** Trimming *)

Definition trimmed (s : list Z) : Prop :=
  match s with [] => True | c :: _ => isspace c = false /\ isspace (List.last s 0) = false end.
Lemma trim_front_spec s : exists pre, s = pre ++ trim_front s /\ Forall (fun c => isspace c = true) pre /\
  match trim_front s with [] => True | c :: _ => isspace c = false end.
Proof.
  induction s as [|c s (pre & E & Hp & Ht)]; [by exists []|]. cbn [trim_front]. destruct (isspace c) eqn:Ec.
  - exists (c :: pre). split; [cbn; by rewrite <-E|]. split; [by constructor|done].
  - exists []. by rewrite Ec.
Qed.
Lemma trim_end_spec k s : (k < length s)%nat -> isspace (znth s 0) = false ->
  (trim_end k s <= k)%nat /\ isspace (znth s (Z.of_nat (trim_end k s))) = false /\
  forall j, (trim_end k s < j <= k)%nat -> isspace (znth s (Z.of_nat j)) = true.
Proof.
  induction k as [|k IH]; intros Hk H0; cbn [trim_end]; [split; [done|split; [done|lia]]|].
  destruct (isspace (znth s (Z.of_nat (S k)))) eqn:E; [|split; [done|split; [done|lia]]].
  destruct (IH ltac:(lia) H0) as (H1 & H2 & H3). split; [lia|]. split; [done|]. intros j Hj.
  destruct (decide (j = S k)) as [->|]; [done|apply H3; lia].
Qed.
(** [trim] takes away white space at both ends and nothing else. *)
Lemma trim_spec s : exists pre post, s = pre ++ trim s ++ post /\ Forall (fun c => isspace c = true) pre /\
  Forall (fun c => isspace c = true) post /\ trimmed (trim s).
Proof.
  destruct (trim_front_spec s) as (pre & E & Hp & Ht). unfold trim. destruct (trim_front s) as [|c t] eqn:Et.
  - exists pre, []. rewrite app_nil_r in E. by rewrite !app_nil_r.
  - set (l := c :: t) in *. change (isspace (znth l 0) = false) in Ht. set (e := trim_end (length l - 1) l).
    assert (Hll : length l = S (length t)) by done.
    destruct (trim_end_spec (length l - 1) l) as (H1 & H2 & H3); [lia|done|]. fold e in H1, H2, H3.
    exists pre, (drop (S e) l). rewrite take_drop. split; [done|]. split; [done|]. split.
    + apply Forall_lookup. intros i x Hx. rewrite lookup_drop in Hx. pose proof (lookup_lt_Some _ _ _ Hx).
      specialize (H3 (S e + i)%nat ltac:(lia)). rewrite (znth_lookup l _ x) in H3 by (rewrite ?Nat2Z.id; done || lia). done.
    + unfold l. cbn [take]. split; [done|]. change (c :: take e t) with (take (S e) l).
      destruct (lookup_lt_is_Some_2 l e ltac:(lia)) as [y Hy]. rewrite (take_S_r l e y Hy), last_last.
      by rewrite (znth_lookup l _ y) in H2 by (rewrite ?Nat2Z.id; done || lia).
Qed.
Lemma trim_id s : trimmed s -> trim s = s.
Proof.
  intros H. unfold trim. destruct s as [|c t]; [done|]. destruct H as [Hc Hl]. cbn [trim_front]. rewrite Hc. set (l := c :: t) in *.
  assert (E : trim_end (length l - 1) l = (length l - 1)%nat).
  { destruct (length l - 1)%nat as [|k] eqn:Ek; [done|]. cbn [trim_end].
    assert (Hz : znth l (Z.of_nat (S k)) = List.last l 0).
    { destruct l as [|y r _] eqn:El using rev_ind; [done|]. rewrite length_app in Ek. cbn in Ek. rewrite last_last.
      apply znth_lookup; [lia|]. rewrite Nat2Z.id, lookup_app_r by lia. by replace (S k - length r)%nat with 0%nat by lia. }
    by rewrite Hz, Hl. }
  rewrite E. unfold l. cbn [length]. rewrite Nat.sub_succ, Nat.sub_0_r. by apply take_ge.
Qed.

(** ** Lines, commands and words *)

Fixpoint join (d : Z) (ws : list (list Z)) : list Z :=
  match ws with
  | [] => []
  | [w] => w
  | w :: ws => w ++ d :: join d ws
  end.
Lemma join_cons d w w2 ws : join d (w :: w2 :: ws) = w ++ d :: join d (w2 :: ws).
Proof. done. Qed.
Lemma strtok_join delim d ws : existsb (Z.eqb d) delim = true -> Forall (fun w => w <> [] /\ avoids delim w) ws -> strtok delim (join d ws) = ws.
Proof.
  intros Hd H. unfold strtok. induction H as [|w ws [Hne Hw] H IH]; [done|]. destruct ws as [|w2 ws].
  - cbn [join]. rewrite <-(app_nil_r w) at 1. rewrite strtok_from_word by done. cbn. by destruct w.
  - rewrite join_cons, strtok_from_word by done. cbn [app strtok_from]. rewrite Hd. destruct w as [|c w]; [done|]. f_equal. exact IH.
Qed.
Lemma join_trimmed d ws : Forall (fun w => w <> [] /\ trimmed w) ws -> trimmed (join d ws).
Proof.
  intros H. assert (Hlast : ws <> [] -> isspace (List.last (join d ws) 0) = false /\ join d ws <> []).
  { intros Hne. induction H as [|w ws [Hw1 Hw2] H IH]; [done|]. destruct ws as [|w2 ws].
    - cbn [join]. destruct w; [done|]. split; [apply Hw2|done].
    - rewrite join_cons. destruct IH as [IH1 IH2]; [done|]. split; [|by destruct w].
      destruct (join d (w2 :: ws)) as [|x r _] using rev_ind; [done|]. rewrite app_comm_cons, (assoc_L (++)), last_last. by rewrite last_last in IH1. }
  destruct H as [|w ws [Hw1 Hw2] H]; [done|]. destruct (Hlast ltac:(done)) as [L1 L2].
  assert (Hc : exists c r, w = c :: r /\ isspace c = false) by (destruct w as [|c r]; [done|]; exists c, r; split; [done|apply Hw2]).
  destruct Hc as (c & r & -> & Hc). destruct ws as [|w2 ws]; [done|]. rewrite join_cons in *. cbn [app trimmed]. by split.
Qed.
Lemma Forall_join (P : Z -> Prop) d ws : P d -> Forall (Forall P) ws -> Forall P (join d ws).
Proof.
  intros Hd H. induction H as [|w ws Hw H IH]; [constructor|]. destruct ws as [|w2 ws]; [done|]. rewrite join_cons. apply Forall_app. split; [done|].
  by constructor.
Qed.

(** The syntax of a command: arguments and redirections in any order. *)
Inductive item :=
| IArg (w : list Z)
| IIn (file : list Z)
| IOut (file : list Z)
| IAppend (file : list Z).
Definition item_words (i : item) : list (list Z) :=
  match i with IArg w => [w] | IIn f => [[60]; f] | IOut f => [[62]; f] | IAppend f => [[62; 62]; f] end.
Definition item_word (i : item) : list Z := match i with IArg w => w | IIn f => f | IOut f => f | IAppend f => f end.
(** No space, tab, semicolon or pipe in it, and not an operator; other white space is part
    of the word. *)
Definition plain (w : list Z) : Prop :=
  w <> [] /\ Forall (fun c => c <> 9 /\ c <> 32 /\ c <> 59 /\ c <> 124) w /\ w <> [60] /\ w <> [62] /\ w <> [62; 62].
Definition render (items : list item) : list Z := join 32 (items ≫= item_words).
(** The arguments, trimmed. *)
Definition args_of (items : list item) : list (list Z) := items ≫= fun i => match i with IArg w => [trim w] | _ => [] end.
(** The last redirection of each kind counts. *)
Definition last_of (f : item -> option (list Z)) (items : list item) : list Z := foldl (fun acc i => default acc (f i)) [] items.
(** The first [&] runs the command in the background and is no argument. *)
Definition without_amp (args : list (list Z)) : list (list Z) * bool :=
  match list_find (eq [38]) args with
  | Some (i, _) => (delete i args, true)
  | None => (args, false)
  end.
(** An argument that is an operator once it is trimmed is dropped with the one after it,
    and the argument after these is kept, whatever it is. *)
Definition is_sign (w : list Z) : bool := bool_decide (w ∈ [[60]; [62]; [62; 62]]).
Fixpoint without_signs (args : list (list Z)) : list (list Z) :=
  match args with
  | [] => []
  | a :: l =>
    if is_sign a then match l with _ :: b :: l => b :: without_signs l | _ => [] end
    else a :: without_signs l
  end.
Definition meaning (items : list item) : parsed :=
  Parsed (head (args_of items)) (without_signs (without_amp (args_of items)).1) (without_amp (args_of items)).2
    (last_of (fun i => match i with IIn f => Some f | _ => None end) items)
    (last_of (fun i => match i with IOut f => Some f | _ => None end) items)
    (last_of (fun i => match i with IAppend f => Some f | _ => None end) items).

Lemma plain_avoids w : plain w -> avoids [9; 32] w.
Proof.
  intros (_ & Hw & _). eapply Forall_impl; [exact Hw|]. intros c (H1 & H2 & _). cbn. lia.
Qed.
Lemma operator_word w : w = [60] \/ w = [62] \/ w = [62; 62] -> w <> [] /\ avoids [9; 32] w /\ Forall (fun c => c <> 59 /\ c <> 124) w.
Proof. intros [->|[->| ->]]; (split; [done|split; [by repeat constructor|repeat constructor; done]]). Qed.
Lemma item_words_ok i : plain (item_word i) -> Forall (fun w => w <> [] /\ avoids [9; 32] w /\ Forall (fun c => c <> 59 /\ c <> 124) w) (item_words i).
Proof.
  intros H. assert (Hw : forall w, plain w -> w <> [] /\ avoids [9; 32] w /\ Forall (fun c => c <> 59 /\ c <> 124) w).
  { intros w Hp. split; [apply Hp|]. split; [by apply plain_avoids|].
    eapply Forall_impl; [apply Hp|]. naive_solver. }
  destruct i; cbn [item_words item_word] in *; repeat (apply Forall_cons; split); try apply Forall_nil_2; try (by apply Hw); apply operator_word; naive_solver.
Qed.

Lemma str_eq_no a b : a <> b -> str_eq a b = false.
Proof. apply bool_decide_eq_false_2. Qed.
Lemma str_eq_yes a : str_eq a a = true.
Proof. by apply bool_decide_eq_true_2. Qed.
Definition item_effect (w : words) (i : item) : words :=
  match i with
  | IArg a => Words (wd_args w ++ [a]) (wd_inp w) (wd_outp w) (wd_append w) false false false
  | IIn f => Words (wd_args w) f (wd_outp w) (wd_append w) false false false
  | IOut f => Words (wd_args w) (wd_inp w) f (wd_append w) false false false
  | IAppend f => Words (wd_args w) (wd_inp w) (wd_outp w) f false false false
  end.
Lemma item_step w i : plain (item_word i) -> wd_hasInput w = false -> wd_hasOutput w = false -> wd_hasAppend w = false ->
  foldl word_step w (item_words i) = item_effect w i.
Proof.
  destruct w as [args inp outp app hi ho ha]. cbn [wd_hasInput wd_hasOutput wd_hasAppend]. intros (_ & _ & H1 & H2 & H3) -> -> ->.
  destruct i; cbn [item_word] in *; cbn [item_words foldl word_step];
    repeat (first [rewrite str_eq_yes | match goal with |- context [str_eq ?a ?b] => rewrite (str_eq_no a b) by (done || discriminate) end]; cbn [word_step]); done.
Qed.
Lemma items_fold items : forall w, Forall (fun i => plain (item_word i)) items -> wd_hasInput w = false -> wd_hasOutput w = false -> wd_hasAppend w = false ->
  foldl word_step w (items ≫= item_words) = foldl item_effect w items /\ wd_hasInput (foldl item_effect w items) = false.
Proof.
  induction items as [|i items IH]; intros w H Hi Ho Ha; [done|]. inversion H as [|? ? H1 H2]; subst. cbn [mbind list_bind foldl].
  rewrite foldl_app, item_step by done. apply IH; [done|by destruct i..].
Qed.
Definition raw_args (items : list item) : list (list Z) := items ≫= fun i => match i with IArg w => [w] | _ => [] end.
Lemma raw_trim items : trim <$> raw_args items = args_of items.
Proof.
  unfold raw_args, args_of. induction items as [|i items IH]; [done|]. cbn [mbind list_bind]. rewrite fmap_app, IH. by destruct i.
Qed.
Lemma effect_words items : forall w, foldl item_effect w items =
  match items with
  | [] => w
  | _ => Words (wd_args w ++ raw_args items) (foldl (fun acc i => default acc (match i with IIn f => Some f | _ => None end)) (wd_inp w) items)
      (foldl (fun acc i => default acc (match i with IOut f => Some f | _ => None end)) (wd_outp w) items)
      (foldl (fun acc i => default acc (match i with IAppend f => Some f | _ => None end)) (wd_append w) items) false false false
  end.
Proof.
  induction items as [|i items IH]; intros w; [done|]. cbn [foldl]. rewrite IH. destruct items as [|i2 items].
  - unfold raw_args. destruct i; cbn; rewrite ?app_nil_r; done.
  - remember (i2 :: items) as l. destruct i; cbn [item_effect wd_args wd_inp wd_outp wd_append default]; unfold raw_args; cbn [mbind list_bind app]; by rewrite <-?(assoc_L (++)).
Qed.
Lemma remove_amp_spec args : remove_amp args = without_amp args.
Proof.
  unfold without_amp. induction args as [|a args IH]; [done|]. cbn [remove_amp list_find]. rewrite IH. unfold str_eq.
  destruct (decide ([38] = a)) as [<-|Hne]; [done|]. rewrite bool_decide_eq_false_2 by done.
  by destruct (list_find (eq [38]) args) as [[i w]|].
Qed.
Lemma sign_eq a : str_eq a [60] || str_eq a [62; 62] || str_eq a [62] = is_sign a.
Proof.
  apply eq_true_iff_eq. unfold str_eq, is_sign. rewrite !orb_true_iff, !bool_decide_eq_true, !elem_of_cons, elem_of_nil. tauto.
Qed.
Lemma remove_redirs_spec k : forall i args, (length args - i <= k)%nat -> (forall a, last (drop i args) = Some a -> is_sign a = false) ->
  remove_redirs k i args = Some (take i args ++ without_signs (drop i args)).
Proof.
  induction k as [|k IH]; intros i args Hk Hl; cbn [remove_redirs].
  - by rewrite drop_ge, take_ge, app_nil_r by lia.
  - destruct (args !! i) as [a|] eqn:E.
    2: { apply lookup_ge_None in E. by rewrite drop_ge, take_ge, app_nil_r by lia. }
    rewrite sign_eq. pose proof (lookup_lt_Some _ _ _ E) as Hi. rewrite (drop_S _ _ _ E) in *. cbn [without_signs].
    destruct (is_sign a) eqn:Es.
    + destruct (drop (S i) args) as [|f rest] eqn:Ed; [by rewrite (Hl a eq_refl) in Es|].
      assert (Hlen : length args = (S (S i) + length rest)%nat).
      { apply (f_equal length) in Ed. rewrite length_drop in Ed. simpl in Ed. lia. }
      rewrite (proj2 (Nat.ltb_ge _ _)) by lia. replace (drop (i + 2) args) with rest.
      2: { replace (i + 2)%nat with (S i + 1)%nat by lia. by rewrite <-drop_drop, Ed. }
      rewrite take_ge by (rewrite length_app, length_take; lia).
      assert (Hti : length (take i args) = i) by (rewrite length_take; lia).
      assert (Hdr : drop (S i) (take i args ++ rest) = drop 1 rest).
      { rewrite drop_app_ge by lia. f_equal. lia. }
      rewrite IH; [|rewrite length_app; lia|].
      * rewrite Hdr, take_app_ge by lia. replace (S i - length (take i args))%nat with 1%nat by lia.
        destruct rest as [|b rest]; simpl; [by rewrite !app_nil_r|]. rewrite drop_0. by rewrite <-(assoc_L (++)).
      * intros x. rewrite Hdr. destruct rest as [|b rest]; [done|]. simpl. rewrite drop_0. intros Hx. apply Hl.
        simpl. destruct rest; [done|]. exact Hx.
    + rewrite IH; [|lia|].
      * by rewrite (take_S_r _ _ _ E), <-(assoc_L (++)).
      * intros x Hx. apply Hl. destruct (drop (S i) args); [done|]. exact Hx.
Qed.

(** The arguments do not end in an operator. *)
Definition ends_well (items : list item) : Prop :=
  forall a, last (without_amp (args_of items)).1 = Some a -> is_sign a = false.
Lemma parse_render items : Forall (fun i => plain (item_word i)) items -> zlen (args_of items) < PTRS -> ends_well items ->
  parse_command (render items) = Some (meaning items).
Proof.
  intros H Hlen Hends. unfold parse_command, read_words, render.
  assert (Hw : Forall (fun w => w <> [] /\ avoids [9; 32] w) (items ≫= item_words)).
  { apply Forall_bind. eapply Forall_impl; [exact H|]. intros i Hi. eapply Forall_impl; [by apply item_words_ok|]. naive_solver. }
  rewrite strtok_join by done. rewrite (proj1 (items_fold items words0 H eq_refl eq_refl eq_refl)), effect_words.
  assert (E : match items with [] => words0 | _ => Words (wd_args words0 ++ raw_args items)
      (foldl (fun acc i => default acc (match i with IIn f => Some f | _ => None end)) (wd_inp words0) items)
      (foldl (fun acc i => default acc (match i with IOut f => Some f | _ => None end)) (wd_outp words0) items)
      (foldl (fun acc i => default acc (match i with IAppend f => Some f | _ => None end)) (wd_append words0) items) false false false end =
    Words (raw_args items) (pr_inp (meaning items)) (pr_outp (meaning items)) (pr_append (meaning items)) false false false).
  { by destruct items. }
  rewrite E. cbn [wd_args wd_inp wd_outp wd_append].
  assert (Hraw : zlen (raw_args items) = zlen (args_of items)) by (unfold zlen; by rewrite <-raw_trim, length_fmap).
  rewrite Hraw, (proj2 (Z.ltb_lt _ _)) by done. cbn [negb]. rewrite raw_trim, remove_amp_spec. unfold meaning.
  unfold ends_well in Hends. destruct (without_amp (args_of items)) as [args bg]. cbn [fst snd] in *.
  rewrite remove_redirs_spec; [done|lia|]. by rewrite drop_0.
Qed.
(** A line: commands between semicolons. *)
Definition good (items : list item) : Prop :=
  items <> [] /\ Forall (fun i => plain (item_word i)) items /\ zlen (args_of items) < PTRS /\ ends_well items /\ trimmed (render items).
Lemma item_words_nonempty items : items <> [] -> items ≫= item_words <> [].
Proof. destruct items as [|[]]; done. Qed.
Lemma render_ok items : good items -> render items <> [] /\ trimmed (render items) /\ Forall (fun c => c <> 59 /\ c <> 124) (render items).
Proof.
  intros (Hne & H & _ & _ & Ht). assert (Hw : Forall (fun w => w <> [] /\ avoids [9; 32] w /\ Forall (fun c => c <> 59 /\ c <> 124) w) (items ≫= item_words)).
  { apply Forall_bind. eapply Forall_impl; [exact H|]. intros i Hi. by apply item_words_ok. }
  split; [|split; [done|]].
  - unfold render. pose proof (item_words_nonempty _ Hne) as Hn. destruct (items ≫= item_words) as [|w ws]; [done|]. inversion Hw as [|? ? H1 _]; subst.
    destruct ws; [apply H1|]. rewrite join_cons. destruct H1 as [H1 _]. by destruct w.
  - apply Forall_join; [done|]. eapply Forall_impl; [exact Hw|]. naive_solver.
Qed.

(** C22: the shell's grammar. A line of at most 125 commands between semicolons, each of
    words and redirections between single spaces, is read back as those commands, and each
    command as its trimmed arguments in order without the first [&], whether there was an
    [&], and the last file of each kind of redirection. Words may hold white space other
    than spaces and tabs, so an argument can be an operator once it is trimmed: it is
    dropped with the argument after it (the arguments must not end in one). *)
Theorem line_roundtrip cmds : Forall good cmds -> zlen cmds <= PTRS ->
  tokenizeCommands (join 59 (render <$> cmds)) = Some (render <$> cmds) /\
  Forall (fun items => countPipes (render items) = 0 /\ parse_command (render items) = Some (meaning items)) cmds.
Proof.
  intros H Hlen. split.
  - assert (Hr : Forall (fun c => c <> [] /\ trimmed c /\ Forall (fun x => x <> 59 /\ x <> 124) c) (render <$> cmds)).
    { apply Forall_fmap. eapply Forall_impl; [exact H|]. intros items Hg. by apply render_ok. }
    unfold tokenizeCommands. rewrite strtok_join; [|done|].
    + assert (Ht : trim <$> (render <$> cmds) = render <$> cmds).
      { rewrite <-(list_fmap_id (render <$> cmds)) at 2. apply list_fmap_ext. intros i w Hw. cbn. apply trim_id. by apply (Forall_lookup_1 _ _ _ _ Hr Hw). }
      rewrite Ht, nonempty_id; [|eapply Forall_impl; [exact Hr|]; naive_solver].
      rewrite (proj2 (Z.leb_le _ _)); [done|]. unfold zlen in *. by rewrite length_fmap.
    + eapply Forall_impl; [exact Hr|]. intros c (Hc & _ & Hx). split; [done|]. eapply Forall_impl; [exact Hx|]. intros x [Hx1 _].
      change (codes ";") with [59]. cbn. by rewrite (proj2 (Z.eqb_neq _ _)).
  - eapply Forall_impl; [exact H|]. intros items Hg. split; [|by apply parse_render; apply Hg].
    destruct (render_ok items Hg) as (_ & _ & Hx). induction Hx as [|c l [_ Hc] _ IH]; [done|]. cbn [countPipes]. by rewrite (proj2 (Z.eqb_neq _ _)), IH.
Qed.
Definition demo_line : list (list item) :=
  [[IArg (codes "sort"); IIn (codes "in"); IArg [62; 13]; IArg (codes "x"); IArg (codes "-r"); IOut (codes "out"); IArg (codes "&")];
   [IArg (codes "jobs")]].
Lemma line_roundtrip_witness : tokenizeCommands (codes "sort < in >" ++ [13] ++ codes " x -r > out &;jobs") =
    Some [codes "sort < in >" ++ [13] ++ codes " x -r > out &"; codes "jobs"] /\
  parse_command (codes "sort < in >" ++ [13] ++ codes " x -r > out &") =
    Some (Parsed (Some (codes "sort")) [codes "sort"; codes "-r"] true (codes "in") (codes "out") []).
Proof.
  assert (G : Forall good demo_line).
  { repeat (apply Forall_cons; split); try apply Forall_nil_2;
      (split; [discriminate|split; [|split; [reflexivity|split; [intros a E; by injection E as <-|split; reflexivity]]]];
       repeat (apply Forall_cons; split); try apply Forall_nil_2;
       (split; [discriminate|split; [apply (bool_decide_unpack _); vm_compute; exact I|repeat split; discriminate]])). }
  destruct (line_roundtrip demo_line G ltac:(discriminate)) as [H1 H2]. split; [exact H1|].
  inversion H2 as [|? ? [_ H3] _]. exact H3.
Defined.

(** ** The history *)

(** Without adjacent repetitions, oldest first. *)
Definition squeeze (acc : list (list Z)) (c : list Z) : list (list Z) := if bool_decide (last acc = Some c) then acc else acc ++ [c].
Definition keep_last {A} (n : nat) (l : list A) : list A := drop (length l - n) l.
Lemma last_keep {A} n (l : list A) : n <> 0%nat -> last (keep_last n l) = last l.
Proof.
  intros Hn. unfold keep_last. destruct l as [|x l _] using rev_ind; [done|]. rewrite length_app. cbn [length].
  rewrite drop_app_le by lia. by rewrite !last_snoc.
Qed.
Lemma length_keep {A} n (l : list A) : length (keep_last n l) = (length l `min` n)%nat.
Proof. unfold keep_last. rewrite length_drop. lia. Qed.
Lemma keep_last_all {A} n (l : list A) : (length l <= n)%nat -> keep_last n l = l.
Proof. intros H. unfold keep_last. by replace (length l - n)%nat with 0%nat by lia. Qed.
Lemma keep_last_snoc {A} n (l : list A) x : keep_last (S n) (l ++ [x]) = keep_last n l ++ [x].
Proof. unfold keep_last. rewrite length_app. cbn [length]. rewrite drop_app_le by lia. do 2 f_equal. lia. Qed.
Lemma keep_last_drop {A} n (l : list A) : (n < length l)%nat -> drop 1 (keep_last (S n) l) = keep_last n l.
Proof. intros H. unfold keep_last. rewrite drop_drop. f_equal. lia. Qed.

Definition saved (h : history) : Prop := exists f, hi_file h = Some f /\ f = (hi_cmds h ≫= fun c => c ++ [10]).
Lemma add_spec l h c : hi_cmds h = keep_last 20 l -> hi_cmds (addNewCommand c h) = keep_last 20 (squeeze l c).
Proof.
  intros E. unfold addNewCommand, squeeze. rewrite E, last_keep by done.
  destruct (bool_decide_reflect (last l = Some c)) as [Hl|Hl]; [done|].
  assert (Hw : forall h', hi_cmds (writeStored h') = hi_cmds h') by (intros [cs [f|]]; done).
  destruct (Z.ltb_spec (zlen (keep_last 20 l)) maxStored) as [Hlt|Hge]; rewrite Hw; cbn [hi_cmds].
  - assert (Hs : (length l < 20)%nat) by (unfold zlen, maxStored in *; rewrite length_keep in Hlt; lia).
    rewrite (keep_last_all 20 l), (keep_last_all 20 (l ++ [c])) by (rewrite ?length_app; simpl; lia). done.
  - assert (Hs : (20 <= length l)%nat) by (unfold zlen, maxStored in *; rewrite length_keep in Hge; lia).
    rewrite (keep_last_snoc 19 l c). f_equal. by rewrite (keep_last_drop 19).
Qed.
Lemma add_saved c h : saved h -> saved (addNewCommand c h).
Proof.
  intros (f & Ef & E). unfold addNewCommand. destruct (bool_decide _); [by exists f|]. unfold saved, writeStored.
  destruct (zlen (hi_cmds h) <? maxStored); cbn [hi_file]; rewrite Ef; eexists; done.
Qed.
(** What reading the file gives back. *)
Lemma retrieve_saved h : saved h -> Forall (fun c => c <> [] /\ trimmed c /\ Forall (fun x => x <> 10 /\ x <> 0) c) (hi_cmds h) ->
  zlen (hi_cmds h) <= maxStored -> zlen (hi_cmds h ≫= fun c => c ++ [10]) < 1000 -> retrieveStored h = Some h.
Proof.
  destruct h as [cmds file]. cbn [saved hi_cmds]. intros (f & Ef & E) H Hn Hlen. cbn [hi_file hi_cmds] in *. subst file f. unfold retrieveStored. cbn [hi_file].
  set (text := cmds ≫= fun c => c ++ [10]) in *. rewrite take_ge by (unfold zlen in Hlen; lia).
  assert (Hz : until_nul text = text).
  { assert (Hnz : Forall (fun x => x <> 0) text).
    { unfold text. apply Forall_bind. eapply Forall_impl; [exact H|]. intros c (_ & _ & Hc). apply Forall_app. split; [|by repeat constructor].
      eapply Forall_impl; [exact Hc|]. naive_solver. }
    clear -Hnz. induction Hnz as [|x l Hx _ IH]; [done|]. cbn [until_nul]. by rewrite (proj2 (Z.eqb_neq _ _)), IH. }
  assert (Es : strtok [10] text = cmds).
  { apply strtok_words; [done|]. eapply Forall_impl; [exact H|]. intros c (Hc & _ & Hx). split; [done|]. eapply Forall_impl; [exact Hx|].
    intros x [Hx1 _]. cbn. by rewrite (proj2 (Z.eqb_neq _ _)). }
  assert (Ht : trim <$> cmds = cmds).
  { rewrite <-(list_fmap_id cmds) at 2. apply list_fmap_ext. intros i w Hw. cbn. apply trim_id. by apply (Forall_lookup_1 _ _ _ _ H Hw). }
  rewrite Hz, (proj2 (Z.leb_gt _ _)) by done. rewrite Es, Ht, nonempty_id; [|eapply Forall_impl; [exact H|]; naive_solver].
  by rewrite (proj2 (Z.leb_le _ _)).
Qed.
Lemma adds_spec cs : forall l h, hi_cmds h = keep_last 20 l -> saved h ->
  hi_cmds (foldl (fun h c => addNewCommand c h) h cs) = keep_last 20 (foldl squeeze l cs) /\ saved (foldl (fun h c => addNewCommand c h) h cs).
Proof.
  induction cs as [|c cs IH]; intros l h E S; [done|]. cbn [foldl]. apply IH; [by apply add_spec|by apply add_saved].
Qed.
(** No command follows itself. *)
Definition no_repeat (l : list (list Z)) : Prop := forall i c, l !! i = Some c -> l !! S i <> Some c.
Lemma squeeze_no_repeat l c : no_repeat l -> no_repeat (squeeze l c).
Proof.
  intros H. unfold squeeze. destruct (bool_decide_reflect (last l = Some c)) as [|Hl]; [done|]. intros i x Hx Hy.
  apply lookup_snoc_Some in Hx as [[Hi Hx]|[-> <-]], Hy as [[Hi' Hy]|[Hi' Hy]]; try lia; [by apply (H i x)|].
  subst x. apply Hl. rewrite last_lookup. by replace (pred (length l)) with i by lia.
Qed.
Lemma drop_no_repeat n l : no_repeat l -> no_repeat (drop n l).
Proof. intros H i c. rewrite !lookup_drop, Nat.add_succ_r. apply H. Qed.

Lemma squeezes_no_repeat cs : forall l, no_repeat l -> no_repeat (foldl squeeze l cs).
Proof. induction cs as [|c cs IH]; intros l Hl; [done|]. by apply IH, squeeze_no_repeat. Qed.
Lemma squeezes_Forall (P : list Z -> Prop) cs : Forall P cs -> forall l, Forall P l -> Forall P (foldl squeeze l cs).
Proof.
  induction 1 as [|c cs Hc _ IH]; intros l Hl; [done|]. apply IH. unfold squeeze. case_match; [done|]. apply Forall_app. split; [done|by constructor].
Qed.
(** C23: the history. From an empty history file, after any commands, the history is the last
    20 of them with immediate repetitions counted once; no entry repeats its predecessor;
    and when the commands are trimmed and the file stays below 1000 bytes, a new shell
    that reads the file has the same history. *)
Theorem history_spec cs : let h := foldl (fun h c => addNewCommand c h) (History [] (Some [])) cs in
  hi_cmds h = keep_last 20 (foldl squeeze [] cs) /\ no_repeat (hi_cmds h) /\ zlen (hi_cmds h) <= maxStored /\
  (Forall (fun c => c <> [] /\ trimmed c /\ Forall (fun x => x <> 10 /\ x <> 0) c) cs -> zlen (hi_cmds h ≫= fun c => c ++ [10]) < 1000 ->
   retrieveStored h = Some h).
Proof.
  intros h. destruct (adds_spec cs [] (History [] (Some [])) eq_refl) as [E S]; [by exists []|]. fold h in E, S.
  assert (Hn : zlen (hi_cmds h) <= maxStored) by (rewrite E; unfold zlen, maxStored; rewrite length_keep; lia).
  split; [done|]. split; [|split; [done|]].
  - rewrite E. by apply drop_no_repeat, squeezes_no_repeat.
  - intros Hc Hlen. apply retrieve_saved; [done| |done|done]. rewrite E. apply Forall_drop, squeezes_Forall; [done|constructor].
Qed.
Lemma history_spec_witness : let h := foldl (fun h c => addNewCommand c h) (History [] (Some [])) [codes "ls"; codes "ls"; codes "cd x"; codes "ls"] in
  hi_cmds h = [codes "ls"; codes "cd x"; codes "ls"] /\ retrieveStored h = Some h.
Proof.
  destruct (history_spec [codes "ls"; codes "ls"; codes "cd x"; codes "ls"]) as (H1 & _ & _ & H2). split; [exact H1|]. apply H2; [|reflexivity].
  repeat (apply Forall_cons; split); try apply Forall_nil_2;
    (split; [discriminate|split; [split; reflexivity|apply (bool_decide_unpack _); vm_compute; exact I]]).
Defined.
