(* ===== verification/GoshSys.v ===== *)
(** * The Linux shell: the host, directories, the prompt and process information

    A2/directory.c, prompt.c, sysData.c, print.c, pinfo.c and process.c, over the calls that
    the shell makes. A run follows one process: [Fork] answers 0 in the child. Consecutive
    [printf]s may be one [Print] with their bytes; when stdio really writes them is the host's
    business. *)
From Stdlib Require Import Decimal DecimalString DecimalZ.
From S2P Require Import Prelude CString Printf Gosh.

(** ** Outcomes *)

(** The code returns, ends the process, replaces it, touches memory outside of an array or
    through NULL, stores into another string of the same line (which is not followed
    further), or the bound of the model is used up. *)
Inductive gout (S A : Type) :=
| GDone (a : A) (s : S)
| GExit (status : Z) (s : S)
| GExec (file : list Z) (argv : list (list Z)) (s : S)
| GCrash (what : string)
| GStray
| GFuel.
Arguments GDone {S A}.
Arguments GExit {S A}.
Arguments GExec {S A}.
Arguments GCrash {S A}.
Arguments GStray {S A}.
Arguments GFuel {S A}.

Definition G (S A : Type) : Type := S -> gout S A.
Definition gret {S A} (a : A) : G S A := fun s => GDone a s.
Definition gbind {S A B} (m : G S A) (k : A -> G S B) : G S B := fun s =>
  match m s with
  | GDone a s' => k a s'
  | GExit n s' => GExit n s'
  | GExec p v s' => GExec p v s'
  | GCrash w => GCrash w
  | GStray => GStray
  | GFuel => GFuel
  end.
Definition gcrash {S A} (what : string) : G S A := fun _ => GCrash what.
Definition gstray {S A} : G S A := fun _ => GStray.
Definition gfuel {S A} : G S A := fun _ => GFuel.
Definition gexit {S A} (status : Z) : G S A := fun s => GExit status s.
Definition gget {S} : G S S := fun s => GDone s s.
Definition gmod {S} (f : S -> S) : G S unit := fun s => GDone tt (f s).
Definition gwhen {S} (b : bool) (m : G S unit) : G S unit := if b then m else gret tt.
(** An access that must succeed. *)
Definition gsome {S A} (what : string) (o : option A) : G S A := match o with Some a => gret a | None => gcrash what end.
Definition gcheck {S} (b : bool) (what : string) : G S unit := if b then gret tt else gcrash what.

Declare Scope gosh_scope.
Notation "'run!' x := m 'in' k" := (gbind m (fun x => k))
  (at level 10, x pattern, m at level 100, k at level 200,
   format "'[v' 'run!'  x  :=  m  'in' '/' k ']'") : gosh_scope.
Notation "m ;> k" := (gbind m (fun _ => k))
  (at level 199, right associativity, format "'[v' m ;> '/' k ']'") : gosh_scope.
#[global] Open Scope gosh_scope.

(** ** The host *)

(** The calls with a number as their answer. *)
Inductive call :=
| Fork
| Wait                                   (* wait(NULL) *)
| Kill (pid sig : Z)
| Setpgid (pid pgid : Z)
| Tcsetpgrp (pgid : Z)                   (* tcsetpgrp(0, pgid) *)
| Signal (sig : Z) (action : Z)
| Raise (sig : Z)
| Chdir (path : list Z)
| Putenv (var : list Z)
| Unsetenv (var : list Z)
| Sleep (n : Z)
| Usleep (n : Z)
| Tcsetattr (lflag : Z)                  (* tcsetattr(0, TCSANOW, ..) with this c_lflag *)
| Getchar
| Print (l : list Z)
| Perror (l : list Z).

Record stat := Stat { st_mode : Z; st_nlink : Z; st_size : Z; st_blocks : Z; st_mtime : Z }.

Class Host (T : Type) := {
  (** The bytes that [calloc] of so many really gives. *)
  calloc_size : Z -> Z;
  k_call : call -> T -> Z * T;
  k_dup : Z -> T -> Z * T;
  k_dup2 : Z -> Z -> T -> T;
  k_open : list Z -> Z -> T -> Z * T;
  k_close : Z -> T -> T;
  k_pipe : T -> option (Z * Z) * T;
  (** The count and the bytes stored. *)
  k_read : Z -> Z -> T -> (Z * list Z) * T;
  (** The pid and the status, or what the variable for it held before. *)
  k_waitpid : Z -> Z -> T -> (Z * Z) * T;
  k_getpgid : Z -> T -> Z;
  k_getpid : T -> Z;
  (** Whether [execvpe] finds and starts the program. *)
  k_exec : list Z -> list (list Z) -> T -> bool;
  k_getcwd : T -> list Z;                (* shorter than 1000; empty when it fails *)
  k_getenv : list Z -> T -> option (list Z);
  k_lstat : list Z -> T -> option stat;
  (** [scandir] with a filter and an order. *)
  k_scandir : list Z -> (list Z -> Z) -> (list Z -> list Z -> Z) -> T -> option (list (list Z));
  k_readlink : list Z -> T -> list Z;
  k_user : T -> list Z;
  k_group : T -> list Z;
  k_ctime : Z -> T -> list Z;
  k_clock : T -> Z;
  k_lflag : T -> Z;                      (* tcgetattr(0, ..): c_lflag *)
  k_fionread : T -> Z;
  (** The byte of [tt2] that is printed without having been set. *)
  k_junk : T -> Z
}.

(** ** The shell's state *)

Record gosh (T : Type) := GoshSt {
  go_history : history;
  pendingIDs : list Z;                   (* up to pendingCount *)
  pendingNames : list (list Z);
  foregroundProcId : Z;
  currDirectories : list (list Z);       (* up to currDirectoryPathLen *)
  homeDirPath : list (list Z);
  expectedHomeDir : list Z;
  currDirString : list Z;
  go_host : T
}.
Arguments GoshSt {T}.
Arguments go_history {T}.
Arguments pendingIDs {T}.
Arguments pendingNames {T}.
Arguments foregroundProcId {T}.
Arguments currDirectories {T}.
Arguments homeDirPath {T}.
Arguments expectedHomeDir {T}.
Arguments currDirString {T}.
Arguments go_host {T}.

Section Shell.
Context {T : Type}.
Definition set_history (v : history) (s : gosh T) : gosh T :=
  let '(GoshSt _ a b c d e f g h) := s in GoshSt v a b c d e f g h.
Definition set_jobs (ids : list Z) (names : list (list Z)) (s : gosh T) : gosh T :=
  let '(GoshSt a _ _ c d e f g h) := s in GoshSt a ids names c d e f g h.
Definition set_foreground (v : Z) (s : gosh T) : gosh T :=
  let '(GoshSt i a b _ d e f g h) := s in GoshSt i a b v d e f g h.
Definition set_curr (v : list (list Z)) (s : gosh T) : gosh T :=
  let '(GoshSt i a b c _ e f g h) := s in GoshSt i a b c v e f g h.
Definition set_home (path : list (list Z)) (s : gosh T) : gosh T :=
  let '(GoshSt i a b c d _ f g h) := s in GoshSt i a b c d path f g h.
Definition set_expected (v : list Z) (s : gosh T) : gosh T :=
  let '(GoshSt i a b c d e _ g h) := s in GoshSt i a b c d e v g h.
Definition set_cwd (v : list Z) (s : gosh T) : gosh T :=
  let '(GoshSt i a b c d e f _ h) := s in GoshSt i a b c d e f v h.
Definition set_host (v : T) (s : gosh T) : gosh T :=
  let '(GoshSt i a b c d e f g _) := s in GoshSt i a b c d e f g v.

Context `{Host T}.
Abbreviation SH := (G (gosh T)).

(** A call that changes the host, and a look at it. *)
Definition host {A} (f : T -> A * T) : SH A := fun s => let (a, t) := f (go_host s) in GDone a (set_host t s).
Definition sys (c : call) : SH Z := host (k_call c).
Definition look {A} (f : T -> A) : SH A := fun s => GDone (f (go_host s)) s.
Definition print (l : list Z) : SH unit := sys (Print l) ;> gret tt.
Definition perror (l : list Z) : SH unit := sys (Perror l) ;> gret tt.
Definition close (fd : Z) : SH unit := host (fun t => (tt, k_close fd t)).
Definition dup2 (a b : Z) : SH unit := host (fun t => (tt, k_dup2 a b t)).
(** What is in a zeroed buffer of [size] bytes after [read(fd, buf, n)], as a string. *)
Definition read_string (fd n size : Z) : SH (Z * list Z) :=
  run! (count, data) := host (k_read fd n) in
  if zlen data <? size then gret (count, until_nul data) else gcrash "read".
Definition O_RDONLY : Z := 0.

(** C's [%d]. *)
Definition dec (x : Z) : list Z := codes (NilZero.string_of_int (Z.to_int x)).
(** glibc's [%s]. *)
Definition fmt_s (o : option (list Z)) : list Z := default (codes "(null)") o.

(** ** print.c *)

Definition echo (str : list Z) (keepTrailingNewline : Z) : SH unit :=
  print str ;> gwhen (negb (keepTrailingNewline =? 0)) (print [10]).

(** ** directory.c: where we are *)

Definition updatePWD : SH unit := gmod (fun s => set_cwd (currDirectories s ≫= fun d => 47 :: d) s).
Fixpoint is_home (home curr : list (list Z)) : bool :=
  match home, curr with
  | [], _ => true
  | _ :: _, [] => false
  | h :: home, c :: curr => if negb (str_eq c h) then false else is_home home curr
  end.
Definition currDirIsHome (s : gosh T) : bool := is_home (homeDirPath s) (currDirectories s).
Definition pwd_text (printAbs : bool) (s : gosh T) : list Z :=
  if currDirIsHome s && negb printAbs then
    126 :: (drop (length (homeDirPath s)) (currDirectories s) ≫= fun d => 47 :: d)
  else currDirString s.
Definition printPWD (printNewline printAbs : bool) : SH unit :=
  run! s := gget in
  print (pwd_text printAbs s) ;>
  gwhen printNewline (print [10]).
Definition initDirSetup (updateHome : bool) : SH unit :=
  run! cwd := look k_getcwd in
  gwhen updateHome (gmod (set_expected cwd)) ;>
  let ptrs := strtok [47] cwd in
  gcheck (zlen ptrs <=? 100) "currDirectories" ;>
  gwhen updateHome (gmod (set_home ptrs)) ;>
  gmod (set_curr ptrs) ;>
  updatePWD.
Definition changeDirectory (newDir : list Z) : SH unit :=
  run! s := gget in
  run! newDir :=
    match newDir with
    | [] => sys (Chdir (expectedHomeDir s)) ;> gret (expectedHomeDir s)
    | c :: l =>
      if c =? 126 then
        let l := match l with 47 :: l' => l' | _ => l end in
        sys (Chdir (expectedHomeDir s)) ;> gret l
      else gret newDir
    end in
  match newDir with
  | [] => initDirSetup false
  | _ =>
    run! ret := sys (Chdir newDir) in
    if negb (ret =? 0) then perror (codes "Error changing directory") else initDirSetup false
  end.

(** ** directory.c: ls *)

Definition tolower (c : Z) : Z := if (65 <=? c) && (c <=? 90) then c + 32 else c.
Fixpoint strcasecmp (a b : list Z) : Z :=
  match a, b with
  | [], [] => 0
  | x :: _, [] => tolower x
  | [], y :: _ => - tolower y
  | x :: a, y :: b => if tolower x =? tolower y then strcasecmp a b else tolower x - tolower y
  end.
Definition skip_dot (l : list Z) : list Z := match l with 46 :: r => r | _ => l end.
Definition myCompare (a b : list Z) : Z := strcasecmp (skip_dot a) (skip_dot b).
Definition myFilter (a : list Z) : Z := zlen a.
(** [char str[len + 1]; sprintf(str, "%d", num); printf("%*s", len, str)] *)
Definition printnum (num len : Z) : SH unit :=
  let str := dec num in
  gcheck (zlen str <=? len) "str" ;>
  print (replicate (Z.to_nat (len - zlen str)) 32 ++ str).
(** [(int)(log10(x) + 1)]: the number of digits; for 0 and below the double is not a finite
    number, and x86 converts it to the smallest [int]. *)
Definition log10_digits (x : Z) : Z := if 0 <? x then zlen (dec x) else - 2 ^ 31.
Record widths := Widths { maxuname : Z; maxgname : Z; maxsize : Z; maxlink : Z; sizesum : Z }.
Definition skip_file (showHidden : bool) (file : list Z) : bool :=
  (zlen file =? 0) || (negb showHidden && (znth file 0 =? 46)).
(** The first loop of [longListPrint]; [None] when [lstat] failed. *)
Fixpoint long_widths (allFiles : list (list Z)) (showHidden : bool) (w : widths) : SH (option widths) :=
  match allFiles with
  | [] => gret (Some w)
  | file :: files =>
    if skip_file showHidden file then long_widths files showHidden w
    else
    run! st := look (k_lstat file) in
    match st with
    | None => perror file ;> gret None
    | Some st =>
      run! usrname := look k_user in
      run! groupname := look k_group in
      long_widths files showHidden
        (Widths (Z.max (maxuname w) (zlen usrname)) (Z.max (maxgname w) (zlen groupname))
           (Z.max (maxsize w) (log10_digits (s32 (st_size st)))) (Z.max (maxlink w) (log10_digits (st_nlink st)))
           (s32 (sizesum w + st_blocks st / 2)))
    end
  end.
Definition S_ISDIR (mode : Z) : bool := Z.land mode 61440 =? 16384.
(** [S_IRUSR] down to [S_IXOTH]. *)
Definition perms : list Z := [256; 128; 64; 32; 16; 8; 4; 2; 1].
Definition perm_letters (mode : Z) : list Z :=
  imap (fun i p => if negb (Z.land mode p =? 0) then nth (i mod 3) [114; 119; 120] 0 else 45) perms.
(** The time as printed from [tt2]: bytes 4 to 15 of [ctime], a byte that was never set,
    and NUL. *)
Definition time_text (time : list Z) (junk : Z) : list Z := until_nul (take 12 (drop 4 time) ++ [junk]).
Fixpoint long_lines (allFiles : list (list Z)) (showHidden : bool) (w : widths) : SH unit :=
  match allFiles with
  | [] => gret tt
  | file :: files =>
    if skip_file showHidden file then long_lines files showHidden w
    else
    run! st := look (k_lstat file) in
    match st with
    | None => perror file
    | Some st =>
      print (if S_ISDIR (st_mode st) then [100] else [45]) ;>
      print (perm_letters (st_mode st)) ;>
      print [32] ;>
      printnum (s32 (st_nlink st)) (maxlink w) ;>
      run! usrname := look k_user in
      run! groupname := look k_group in
      print (32 :: take (Z.to_nat (maxuname w)) usrname ++ 32 :: take (Z.to_nat (maxgname w)) groupname ++ [32]) ;>
      printnum (s32 (st_size st)) (maxsize w) ;>
      run! time := look (k_ctime (st_mtime st)) in
      run! junk := look k_junk in
      print (32 :: time_text time junk) ;>
      print (32 :: file ++ [10]) ;>
      long_lines files showHidden w
    end
  end.
Definition longListPrint (allFiles : list (list Z)) (showHidden : bool) : SH unit :=
  run! w := long_widths allFiles showHidden (Widths 0 0 0 0 0) in
  match w with
  | None => gret tt
  | Some w => print (codes "total " ++ dec (sizesum w) ++ [10]) ;> long_lines allFiles showHidden w
  end.
Fixpoint short_lines (output : list (list Z)) (showHidden : bool) : SH unit :=
  match output with
  | [] => gret tt
  | file :: files =>
    (if negb showHidden && (znth file 0 =? 46) then gret tt else print (file ++ [10])) ;>
    short_lines files showHidden
  end.
Definition ls (directory : list Z) (showHidden longListing : bool) : SH unit :=
  run! namelist := look (k_scandir directory myFilter myCompare) in
  match namelist with
  | None => perror (codes "scandir") ;> gexit 1
  | Some output =>
    gcheck (zlen output <=? 1000) "output" ;>
    sys (Chdir directory) ;>
    (if longListing then longListPrint output showHidden else short_lines output showHidden) ;>
    run! s := gget in
    sys (Chdir (currDirString s)) ;> gret tt
  end.

(** ** sysData.c, prompt.c *)

Definition printMachine : SH unit :=
  run! fd := host (k_open (codes "/proc/sys/kernel/hostname") O_RDONLY) in
  if fd <? 0 then gret tt
  else
  run! (len, name) := host (k_read fd 100) in
  gcheck (1 <=? len) "name" ;>
  print (until_nul (take (Z.to_nat (len - 1)) name)) ;>
  close fd.
Definition KNRM : list Z := 27 :: codes "[0m".
Definition KGRN : list Z := 27 :: codes "[32m".
Definition printWelcomeScreen : SH unit :=
  print (27 :: codes "[H" ++ 27 :: codes "[J") ;>
  print (codes "Welcome to " ++ KGRN ++ codes "GOSH!" ++ KNRM ++ codes " aka " ++ KGRN ++ codes "GO" ++ KNRM ++
         codes "rang's " ++ KGRN ++ codes "SH" ++ KNRM ++ codes "ell :)" ++ [10]).
Definition printPrompt : SH unit :=
  run! user := look k_user in
  print (KGRN ++ user ++ codes "@") ;>
  printMachine ;>
  print (codes ":") ;>
  printPWD true false ;>
  print (codes "$ " ++ KNRM).

(** ** pinfo.c *)

(** [char path[100] = "/proc/"; strcat(path, pid); strcat(path, rest);] *)
Definition proc_path (pid rest : list Z) : SH (list Z) :=
  let path := codes "/proc/" ++ pid ++ rest in
  gcheck (zlen path <? 100) "path" ;> gret path.
(** The third word of /proc/<pid>/stat. *)
Definition getProcStatus (pid : list Z) : SH (option (list Z)) :=
  run! path := proc_path pid (codes "/stat") in
  run! statfile := host (k_open path O_RDONLY) in
  if statfile <? 0 then gret None
  else
  run! (charsread, buf) := read_string statfile 10000 1000 in
  if charsread =? 0 then
    perror (codes "Couldn't read statfile") ;> print (codes "Path is " ++ path) ;> gret None
  else close statfile ;> gret (strtok [32] buf !! 2%nat).
Definition getProcStatusString (pid : list Z) : SH (option (list Z)) :=
  run! stat := getProcStatus pid in
  match stat with
  | None => gret None
  | Some stat =>
    let c := znth stat 0 in
    gret (Some (if c =? 82 then codes "Running"
                else if (c =? 83) || (c =? 68) then codes "Sleeping"
                else if (c =? 84) || (c =? 116) then codes "Stopped"
                else if c =? 90 then codes "Defunct/zombie"
                else codes "Unknown process status"))
  end.
Definition printPinfo (argCount : Z) (args : list (list Z)) : SH unit :=
  run! pid := look k_getpid in
  let pid_str := dec pid in
  let len := log10_digits pid in
  (* sprintf into calloc(len): one more byte than asked for *)
  gcheck (zlen (dec pid) + 1 <=? calloc_size len) "str" ;>
  let isSelf := negb (argCount =? 2) in
  let str := if isSelf then dec pid else nth 1 args [] in
  print (codes "PID:" ++ [9; 9; 9] ++ str ++ [10]) ;>
  run! status := getProcStatus pid_str in
  print (codes "Process status:" ++ [9; 9] ++ fmt_s status ++ [10]) ;>
  run! path := proc_path pid_str (codes "/statm") in
  run! statfile := host (k_open path O_RDONLY) in
  run! (_, buf) := read_string statfile 10000 1000 in
  print (codes "Memory:" ++ [9; 9; 9] ++ fmt_s (head (strtok [32] buf)) ++ [10]) ;>
  close statfile ;>
  run! path2 := proc_path str (codes "/exe") in
  run! link := look (k_readlink path2) in
  gcheck (zlen link <? 1000) "buf" ;>
  (if isSelf then
     print (codes "Executable path: " ++ [9]) ;> printPWD false false ;> print (codes "/a.out")
   else print (codes "Executable path: " ++ [9] ++ link)) ;>
  print [10].

(** ** process.c: /proc/interrupts and /proc/meminfo *)

(** The first [I] becomes NUL. *)
Fixpoint cut_I (line : list Z) : list Z :=
  match line with [] => [] | c :: l => if c =? 73 then 0 :: l else c :: cut_I l end.
Definition interruptPrint (doNotPrintFirstLine : Z) : SH unit :=
  run! fd := host (k_open (codes "/proc/interrupts") O_RDONLY) in
  run! (_, value) := read_string fd 10000 10000 in
  let lines := strtok [10] value in
  gwhen (doNotPrintFirstLine =? 0) (run! line := gsome "line" (head lines) in print (trim line ++ [10])) ;>
  run! line := gsome "line" (lines !! 2%nat) in
  gcheck (5 <=? zlen line) "line + 5" ;>
  print (trim (until_nul (drop 5 (cut_I line))) ++ [10]) ;>
  close fd.
Definition dirtyMemPrint : SH unit :=
  run! fd := host (k_open (codes "/proc/meminfo") O_RDONLY) in
  run! (_, value) := read_string fd 10000 10000 in
  run! ptr := gsome "ptr" (strtok [10] value !! 16%nat) in
  gcheck (6 <=? zlen ptr) "ptr + 6" ;>
  print (trim (drop 6 ptr) ++ [10]) ;>
  close fd.
End Shell.

#[global] Arguments gbind : simpl never.
#[global] Arguments gosh : clear implicits.
