(* ===== verification/GoshExec.v ===== *)
(** * The Linux shell: commands

    A2/commands.c, process.c, cronjob.c, nightswatch.c and main.c over the calls of GoshSys.
    [childTermination], the handler of SIGCHLD, is modelled as an operation between two
    others; that it can run in the middle of one is not modelled. *)
From S2P Require Import Prelude CString Printf Gosh GoshSys.

(** Signals and their actions. *)
Definition SIGKILL : Z := 9.
Definition SIGTERM : Z := 15.
Definition SIGCONT : Z := 18.
Definition SIGTTIN : Z := 21.
Definition SIGTTOU : Z := 22.
Definition SIGCHLD : Z := 17.
Definition SIGINT : Z := 2.
Definition SIGTSTP : Z := 20.
Definition SIG_DFL : Z := 0.
Definition SIG_IGN : Z := 1.
(** Handlers, by the functions of main.c. *)
Definition H_childTermination : Z := 2.
Definition H_sigintHandlerC : Z := 3.
Definition H_sigintHandlerZ : Z := 4.
Definition WNOHANG : Z := 1.
Definition WUNTRACED : Z := 2.
Definition WIFSTOPPED (st : Z) : bool := Z.land st 255 =? 127.
Definition WIFEXITED (st : Z) : bool := Z.land st 127 =? 0.
Definition WEXITSTATUS (st : Z) : Z := Z.land (Z.shiftr st 8) 255.
Definition O_TRUNC_FLAGS : Z := 577.     (* O_CREAT | O_WRONLY | O_TRUNC *)
Definition O_APPEND_FLAGS : Z := 1089.   (* O_CREAT | O_WRONLY | O_APPEND *)
(** [pendingIDs] and [pendingNames] have 100 places. *)
Definition JOBS : Z := 100.

Section Exec.
Context {T : Type} `{Host T}.
Abbreviation SH := (G (gosh T)).

(** ** The job table *)

(** [array[i] = ..] for an array of [n]: the code does not look at [i], and what a store
    outside of the array does is not followed. *)
Definition store_at (n i : Z) (array : string) : SH unit :=
  if (0 <=? i) && (i <? n) then gret tt else gcrash array.
(** [pendingNames[pendingCount] = name; pendingIDs[pendingCount] = id; pendingCount++;] *)
Definition add_job (id : Z) (name : list Z) : SH unit :=
  run! s := gget in
  store_at JOBS (zlen (pendingIDs s)) "pendingIDs" ;>
  gmod (set_jobs (pendingIDs s ++ [id]) (pendingNames s ++ [name])).
Definition clear_job (i : nat) : SH unit := gmod (fun s => set_jobs (<[i := 0]> (pendingIDs s)) (pendingNames s) s).

(** ** process.c *)

(** [None] is -1. *)
Definition execProcess (cmd : list Z) (args : list (list Z)) (isBackgroundJob : bool) : SH (option Z) :=
  run! child := sys Fork in
  if child =? -1 then perror (codes "Could not fork child") ;> gret None
  else if child =? 0 then
    sys (Setpgid 0 0) ;>
    run! found := look (k_exec cmd args) in
    if found then (fun s => GExec cmd args s) else perror (codes "Couldn't execute command") ;> gexit 0
  else
  (if negb isBackgroundJob then
     gmod (set_foreground child) ;>
     sys (Signal SIGTTIN SIG_IGN) ;>
     sys (Signal SIGTTOU SIG_IGN) ;>
     sys (Setpgid child 0) ;>
     run! g := look (k_getpgid child) in
     sys (Tcsetpgrp g) ;>
     run! (_, st) := host (k_waitpid child WUNTRACED) in
     run! g := look (k_getpgid 0) in
     sys (Tcsetpgrp g) ;>
     sys (Signal SIGTTIN SIG_DFL) ;>
     sys (Signal SIGTTOU SIG_DFL) ;>
     gwhen (WIFSTOPPED st) (add_job child cmd) ;>
     gmod (set_foreground 0)
   else
     sys (Setpgid child 0) ;>
     run! g := look (k_getpgid 0) in
     sys (Tcsetpgrp g) ;> gret tt) ;>
  gret (if isBackgroundJob then Some child else None).

(** ** nightswatch.c *)

Definition ICANON_ECHO : Z := 10.
Definition rawModeOn : SH unit := run! f := look k_lflag in sys (Tcsetattr (Z.ldiff f ICANON_ECHO)) ;> gret tt.
Definition rawModeGone : SH unit := run! f := look k_lflag in sys (Tcsetattr (Z.lor f ICANON_ECHO)) ;> gret tt.
Definition keyboardWasPressed : SH bool :=
  rawModeOn ;>
  run! bytesarewaitingforme := look k_fionread in
  rawModeGone ;>
  gret (0 <? bytesarewaitingforme).
Definition nights_print (dirty : bool) (c : Z) : SH Z :=
  if dirty then dirtyMemPrint ;> gret c else interruptPrint c ;> gret (c + 1).
(** [rounds] turns of the endless loop. *)
Fixpoint nights_loop (rounds : nat) (dirty : bool) (interval before c : Z) : SH unit :=
  match rounds with
  | O => gfuel
  | S rounds =>
    run! now := look k_clock in
    let msec := s32 (Z.quot ((now - before) * 1000) 1000000) in
    run! pressed := keyboardWasPressed in
    run! quit := (if pressed then run! ch := sys Getchar in gret (ch =? 113) else gret false) in
    if quit then print [10]
    else if interval <=? msec then
      run! before := look k_clock in
      run! c := nights_print dirty c in
      nights_loop rounds dirty interval before c
    else nights_loop rounds dirty interval before c
  end.
Definition nightsprint (rounds : nat) (dirty : bool) (interval : Z) : SH unit :=
  let interval := s32 (interval * 1000) in
  run! before := look k_clock in
  run! c := nights_print dirty 0 in
  nights_loop rounds dirty interval before c.

(** Running a command: the bytes that are free in memory after its NUL, whether it is the
    last entry of the history (the same bytes, not a copy), and its text. *)
Section Open.
Variable exec : Z -> bool -> list Z -> SH unit.
(** Turns of the loops that wait for time or for a key. *)
Variable rounds : nat.

(** ** cronjob.c *)

Fixpoint cron_loop (rounds : nat) (cmd : list Z) (interval time curr : Z) : SH unit :=
  match rounds with
  | O => gfuel
  | S rounds =>
    if curr <? time then
      let sleepTime := if time - curr <=? interval then time - curr else interval in
      sys (Sleep (u32 sleepTime)) ;>
      exec (999 - zlen cmd) false cmd ;>
      cron_loop rounds cmd interval time (curr + sleepTime)
    else gret tt
  end.
Definition cronJob (cmd : list Z) (interval time : Z) : SH unit :=
  run! f := sys Fork in
  if f =? 0 then cron_loop rounds cmd interval time 0 ;> gexit 0 else gret tt.
Record cron := Cron { cr_cmd : list Z; cr_interval : Z; cr_time : Z; need0 : bool; need1 : bool; need2 : bool }.
Definition cron_step (c : cron) (arg : list Z) : cron :=
  let '(Cron cmd interval time n0 n1 n2) := c in
  if str_eq arg (codes "-c") then Cron cmd interval time true n1 n2
  else if str_eq arg (codes "-t") then Cron cmd interval time false true n2
  else if str_eq arg (codes "-p") then Cron cmd interval time false n1 true
  else Cron (if n0 then cmd ++ arg ++ [32] else cmd) (if n1 then s32 (atoi arg) else interval)
         (if n2 then s32 (atoi arg) else time) n0 false false.
Definition cronjobParse (args : list (list Z)) : SH unit :=
  let c := foldl cron_step (Cron [] (-1) (-1) false false false) args in
  gcheck (zlen (cr_cmd c) <? 1000) "cmd" ;>
  if (zlen (cr_cmd c) =? 0) || (cr_interval c =? -1) || (cr_time c =? -1) then
    print (codes "Invalid format. Syntax: cronjob -c <cmd> -t <time> -p <period>")
  else cronJob (cr_cmd c) (cr_interval c) (cr_time c).

(** ** commands.c: pipes *)

(** [pipes[parity]] *)
Definition pipe_of (evenPipe oddPipe : Z * Z) (parity : bool) : Z * Z := if parity then oddPipe else evenPipe.
Fixpoint pipe_loop (k : nat) (allCmds : list (list Z)) (noOfCommands cmdIndex : Z) (evenPipe oddPipe : Z * Z) : SH unit :=
  match k with
  | O => gret tt
  | S k =>
    let parity := Z.odd cmdIndex in
    run! p := host k_pipe in
    match p with
    | None => perror (codes "Pipe couldn't init")
    | Some p =>
      let evenPipe := if parity then evenPipe else p in
      let oddPipe := if parity then p else oddPipe in
      let this := pipe_of evenPipe oddPipe parity in
      let other := pipe_of evenPipe oddPipe (negb parity) in
      run! pid := sys Fork in
      if pid <? 0 then perror (codes "Couldn't fork in handlePipelining")
      else if pid =? 0 then
        (if cmdIndex =? 0 then dup2 evenPipe.2 1
         else if cmdIndex =? noOfCommands - 1 then dup2 other.1 0
         else dup2 this.2 1 ;> dup2 other.1 0) ;>
        run! cmd := gsome "cmd" (allCmds !! Z.to_nat cmdIndex) in
        exec (999 - zlen cmd) false cmd ;>
        gexit 0
      else
        sys Wait ;>
        (if cmdIndex =? 0 then close evenPipe.2
         else if cmdIndex =? noOfCommands - 1 then close other.1
         else close this.2 ;> close other.1) ;>
        pipe_loop k allCmds noOfCommands (cmdIndex + 1) evenPipe oddPipe
    end
  end.
(** The copy of a command is made of 1000 bytes, whatever follows it in memory. *)
Definition handlePipelining (commands : list Z) (noOfCommands : Z) : SH unit :=
  let allCmds := strtok (codes "|") commands in
  gcheck (zlen allCmds <=? 400) "allCmds" ;>
  pipe_loop (Z.to_nat noOfCommands) allCmds noOfCommands 0 (0, 0) (0, 0).

(** ** commands.c: history by arrows *)

Definition handleArrows (command : list Z) : SH unit :=
  let l := zlen command in
  let offset := arrow_offset command in
  run! s := gget in
  let storedCount := zlen (hi_cmds (go_history s)) in
  if (offset <? 0) || (storedCount <? offset) then print (codes "Command doesn't exist")
  else
  (* commandHistory[storedCount] for the offset 0: NULL, or past the array *)
  run! command := gsome "commandHistory" (hi_cmds (go_history s) !! Z.to_nat (storedCount - offset)) in
  gcheck (zlen command + 1 <=? calloc_size (l + 1)) "cmd2" ;>
  printPrompt ;>
  print (command ++ [10]) ;>
  let added := negb (bool_decide (last (hi_cmds (go_history s)) = Some command)) in
  gmod (fun s => set_history (addNewCommand command (go_history s)) s) ;>
  exec (calloc_size (l + 1) - zlen command - 1) added command.

(** ** commands.c: built-in commands *)

Fixpoint ls_flags (arg : list Z) (f : bool * bool) : bool * bool :=
  match arg with
  | [] => f
  | c :: arg => ls_flags arg (if c =? 97 then (true, f.2) else if c =? 108 then (f.1, true) else f)
  end.
(** Directory, hidden files, long listing. *)
Definition ls_arg (o : list Z * (bool * bool)) (arg : list Z) : list Z * (bool * bool) :=
  match arg with
  | [] => o
  | c :: flags => if c =? 45 then (o.1, ls_flags flags o.2) else if str_eq [38] arg then o else (arg, o.2)
  end.
Definition run_ls (args : list (list Z)) : SH bool :=
  let '(dir, (hiddenShow, longlist)) := foldl ls_arg ([46], (false, false)) (drop 1 args) in
  ls dir hiddenShow longlist ;> gret true.
Definition run_cd (args : list (list Z)) : SH bool := changeDirectory (nth 1 args [126]) ;> gret true.
Definition run_echo (args : list (list Z)) : SH bool :=
  let finalArg := drop 1 args ≫= fun arg => arg ++ [32] in
  gcheck (zlen finalArg <? 1000) "finalArg" ;>
  echo finalArg (zlen finalArg) ;> gret true.
Definition run_history (args : list (list Z)) : SH bool :=
  let displayCount := if (length args =? 2)%nat then s32 (atoi (nth 1 args [])) else 10 in
  run! s := gget in
  print (printHistory displayCount (go_history s)) ;> gret true.
Fixpoint night_args (args : list (list Z)) (takeInterval : bool) (interval : Z) : SH unit :=
  match args with
  | [] => gret tt
  | arg :: args =>
    if str_eq arg (codes "-n") then night_args args true interval
    else if takeInterval then night_args args false (s32 (atoi arg))
    else (if interval =? -1 then print (codes "Did not specify interval")
          else nightsprint rounds (str_eq arg (codes "dirty")) interval) ;>
         night_args args takeInterval interval
  end.
Fixpoint jobs_lines (i : Z) (ids : list Z) (names : list (list Z)) : SH unit :=
  match ids, names with
  | id :: ids, name :: names =>
    (if id =? 0 then gret tt
     else
       run! status := getProcStatusString (dec id) in
       print (codes "[" ++ dec (i + 1) ++ codes "] " ++ fmt_s status ++ codes " " ++ name ++ codes " [" ++ dec id ++ codes "]" ++ [10])) ;>
    jobs_lines (i + 1) ids names
  | _, _ => gret tt
  end.
Definition usage (msg : list Z) : SH bool := print msg ;> gret false.
(** The pid of job number [jobn], when there is one. *)
Definition job_pid (jobn : Z) (s : gosh T) : option Z :=
  if (zlen (pendingIDs s) <? jobn) || (jobn <=? 0) then None
  else pid ← pendingIDs s !! Z.to_nat (jobn - 1); if pid =? 0 then None else Some pid.
(** [atoi(args[i])] as an [int] *)
Definition arg_int (args : list (list Z)) (i : nat) : Z := s32 (atoi (nth i args [])).
Definition run_kjob (args : list (list Z)) : SH bool :=
  if negb (length args =? 3)%nat then usage (codes "Error: usage kjob <jobNumber> <signalNumber>" ++ [10])
  else
  run! s := gget in
  match job_pid (arg_int args 1) s with
  | None => usage (codes "Invalid job id")
  | Some pid => sys (Kill pid (arg_int args 2)) ;> gret true
  end.
(** [strcat(var, "="); strcat(var, value)] writes over the text of the command: the value was
    there, and without a value one byte more is needed. *)
Definition run_setenv (room : Z) (p : parsed) : SH bool :=
  let args := pr_args p in
  if (length args <? 2)%nat || (3 <? length args)%nat then
    usage (codes "Invalid syntax! Should be: setenv " ++ [226; 128; 139] ++ codes " var [value]" ++ [10])
  else
  let redirected := negb (zlen (pr_inp p ++ pr_outp p ++ pr_append p) =? 0) in
  if (if (2 <? length args)%nat then redirected else room <? 1) then gstray
  else sys (Putenv (nth 1 args [] ++ [61] ++ nth 2 args [])) ;> gret true.
Definition run_unsetenv (args : list (list Z)) : SH bool :=
  if negb (length args =? 2)%nat then usage (codes "Invalid syntax! Should be: unsetenv" ++ [226; 128; 139] ++ codes " var" ++ [10])
  else sys (Unsetenv (nth 1 args [])) ;> gret true.
Definition run_getenv (args : list (list Z)) : SH bool :=
  if negb (length args =? 2)%nat then usage (codes "Invalid syntax! Should be: getenv " ++ [226; 128; 139] ++ codes "var" ++ [10])
  else
  let var := nth 1 args [] in
  run! ans := look (k_getenv var) in
  print (match ans with Some ans => ans | None => codes "var " ++ var ++ codes " not found" end ++ [10]) ;>
  gret true.
Definition run_fg (args : list (list Z)) : SH bool :=
  if negb (length args =? 2)%nat then usage (codes "Usage: fg <jobNumber>" ++ [10])
  else
  let jobn := arg_int args 1 in
  run! s := gget in
  match job_pid jobn s with
  | None => usage (codes "Invalid job number" ++ [10])
  | Some pid =>
    gmod (set_foreground pid) ;>
    sys (Signal SIGTTIN SIG_IGN) ;>
    sys (Signal SIGTTOU SIG_IGN) ;>
    sys (Tcsetpgrp pid) ;>
    sys (Kill pid SIGCONT) ;>
    run! (_, st) := host (k_waitpid pid WUNTRACED) in
    run! g := look (k_getpgid 0) in
    sys (Tcsetpgrp g) ;>
    sys (Signal SIGTTIN SIG_DFL) ;>
    sys (Signal SIGTTOU SIG_DFL) ;>
    clear_job (Z.to_nat (jobn - 1)) ;>
    gwhen (WIFSTOPPED st) (add_job pid (nth (Z.to_nat (jobn - 1)) (pendingNames s) [])) ;>
    gret true
  end.
Definition run_bg (args : list (list Z)) : SH bool :=
  if negb (length args =? 2)%nat then usage (codes "Usage: bg <jobNumber>" ++ [10])
  else
  run! s := gget in
  match job_pid (arg_int args 1) s with
  | None => usage (codes "Invalid job number" ++ [10])
  | Some pid => sys (Kill pid SIGTTIN) ;> sys (Kill pid SIGCONT) ;> gret true
  end.
Fixpoint overkill (ids : list Z) : SH unit :=
  match ids with
  | [] => gret tt
  | pid :: ids =>
    (if pid =? 0 then gret tt
     else
       sys (Kill pid SIGTERM) ;>
       sys (Usleep 1000) ;>
       host (k_waitpid pid WNOHANG) ;>
       sys (Kill pid SIGKILL) ;> gret tt) ;>
    overkill ids
  end.
(** The last branch: a program. [cmd2] is the copy of the whole command. *)
Definition run_program (cmd2 cmd : list Z) (p : parsed) : SH bool :=
  run! idOfChild := execProcess cmd (pr_args p) (pr_background p) in
  (match idOfChild with Some id => add_job id cmd2 | None => gret tt end) ;>
  gret true.
(** The chain of [strcmp]s; [true] when the code after it is reached. *)
Definition dispatch (room : Z) (cmd2 cmd : list Z) (p : parsed) : SH bool :=
  let args := pr_args p in
  let isc name := str_eq cmd (codes name) in
  if isc "ls" then run_ls args
  else if isc "quit" || isc "exit" || isc "q" then gexit 0
  else if isc "cd" then run_cd args
  else if isc "pwd" then printPWD true true ;> gret true
  else if isc "echo" then run_echo args
  else if isc "pinfo" then printPinfo (zlen args) args ;> gret true
  else if isc "history" then run_history args
  else if isc "nightswatch" then night_args (drop 1 args) false (-1) ;> gret true
  else if isc "jobs" then run! s := gget in jobs_lines 0 (pendingIDs s) (pendingNames s) ;> gret true
  else if isc "kjob" then run_kjob args
  else if isc "setenv" then run_setenv room p
  else if isc "unsetenv" then run_unsetenv args
  else if isc "getenv" then run_getenv args
  else if isc "fg" then run_fg args
  else if isc "bg" then run_bg args
  else if isc "overkill" then run! s := gget in overkill (pendingIDs s) ;> gret true
  else if isc "cronjob" then cronjobParse args ;> gret true
  else run_program cmd2 cmd p.

(** ** commands.c: one command *)

(** [if (path && strlen(path)) { fd = open(..); if (fd < 0) return; dup2(fd, std); }]; [None]
    is the return. *)
Definition redirect (path : list Z) (flags : Z) (msg : string) (std fd : Z) : SH (option Z) :=
  match path with
  | [] => gret (Some fd)
  | _ =>
    run! fd := host (k_open path flags) in
    if fd <? 0 then perror (codes msg) ;> gret None else dup2 fd std ;> gret (Some fd)
  end.
Definition restore (fd1 fd2 fdin fdout : Z) (p : parsed) : SH unit :=
  gwhen (0 <=? fd1) (close fd1) ;>
  gwhen (0 <=? fd2) (close fd2) ;>
  gwhen (negb (zlen (pr_inp p) =? 0)) (dup2 fdin 0) ;>
  gwhen (negb (zlen (pr_outp p) =? 0) || negb (zlen (pr_append p) =? 0)) (dup2 fdout 1).
(** After the words have been read; [true] when the end of the function is reached. *)
Definition exec_words (room : Z) (cmd2 : list Z) (p : parsed) : SH bool :=
  run! fdin := host (k_dup 0) in
  run! fdout := host (k_dup 1) in
  run! r := redirect (pr_inp p) O_RDONLY "Opening < file" 0 (-1) in
  match r with None => gret false | Some fd1 =>
  run! r := redirect (pr_outp p) O_TRUNC_FLAGS "Opening > file" 1 (-1) in
  match r with None => gret false | Some fd2 =>
  run! r := redirect (pr_append p) O_APPEND_FLAGS "Opening >> file" 1 fd2 in
  match r with None => gret false | Some fd2 =>
  run! cmd := gsome "cmd" (pr_cmd p) in
  run! b := dispatch room cmd2 cmd p in
  if negb b then gret false
  else
  restore fd1 fd2 fdin fdout p ;> gret true
  end end end.

(** What [strtok] and [trim] leave of the command as a string: its first word. *)
Fixpoint leading (delim s : list Z) : list Z :=
  match s with c :: s => if existsb (Z.eqb c) delim then c :: leading delim s else [] | [] => [] end.
Definition cut_end (w : list Z) : list Z :=
  match trim w with [] => w | t => take (length w - length (trim_front w) + length t) w end.
Definition first_word (command : list Z) : list Z :=
  leading [9; 32] command ++ match strtok [9; 32] command with w :: _ => cut_end w | [] => [] end.
Definition cut_last (h : history) : history :=
  match last (hi_cmds h) with
  | Some c => History (take (length (hi_cmds h) - 1) (hi_cmds h) ++ [first_word c]) (hi_file h)
  | None => h
  end.
Definition execCommand_body (room : Z) (in_history : bool) (command : list Z) : SH unit :=
  if znth command 0 =? 27 then handleArrows command
  else
  let cmdLength := zlen command in
  gcheck (cmdLength + 1 <=? calloc_size cmdLength) "cmd2" ;>
  let c := countPipes command in
  if negb (c =? 0) then handlePipelining command (c + 1)
  else
  run! p := gsome "args" (parse_command command) in
  gwhen in_history (gmod (fun s => set_history (cut_last (go_history s)) s)) ;>
  exec_words room command p ;> gret tt.
End Open.

(** [execCommand] reaches itself through arrows, pipes and [cronjob]; [fuel] bounds the
    depth. *)
Fixpoint execCommand (rounds : nat) (fuel : nat) (room : Z) (in_history : bool) (command : list Z) : SH unit :=
  match fuel with
  | O => gfuel
  | S fuel => execCommand_body (execCommand rounds fuel) rounds room in_history command
  end.

(** ** main.c *)

Definition sigintHandlerC : SH unit :=
  run! s := gget in
  run! me := look k_getpid in
  gwhen ((0 <? foregroundProcId s) && negb (foregroundProcId s =? me)) (sys (Raise SIGINT) ;> gret tt).
Definition sigintHandlerZ : SH unit :=
  run! s := gget in
  run! me := look k_getpid in
  gwhen ((0 <? foregroundProcId s) && negb (foregroundProcId s =? me)) (sys (Raise SIGTSTP) ;> gret tt).

(** Bytes up to a newline, into an array with [room] places left. *)
Fixpoint read_line (room : nat) : SH (list Z) :=
  run! c := sys Getchar in
  if c =? 10 then gret []
  else
  match room with
  | O => gcrash "s"
  | S room => run! l := read_line room in gret (u8 c :: l)
  end.
(** takeInput.c *)
Definition take_input : SH (Z * list (list Z)) :=
  printPrompt ;>
  run! line := read_line 100 in
  run! s := gget in
  run! (commands, h) := gsome "s" (takeInput line (go_history s)) in
  gmod (set_history h) ;>
  gret (zlen (until_nul line), commands).
Fixpoint exec_all (exec : Z -> bool -> list Z -> SH unit) (room : Z) (commands : list (list Z)) : SH unit :=
  match commands with
  | [] => gret tt
  | c :: commands => exec (match commands with [] => room | _ => 0 end) false c ;> exec_all exec room commands
  end.
Definition inputter (rounds fuel : nat) : SH unit :=
  gmod (set_foreground 0) ;>
  run! (len, commands) := take_input in
  exec_all (execCommand rounds fuel) (calloc_size 100 - len - 1) commands ;>
  gwhen (zlen commands =? 0) (print (codes "No command entered" ++ [10])).

Fixpoint forget_job (pid : Z) (ids : list Z) (names : list (list Z)) : list Z * option (list Z) :=
  match ids, names with
  | id :: ids, name :: names =>
    let (ids', naam) := forget_job pid ids names in
    if id =? pid then (0 :: ids', Some (default name naam)) else (id :: ids', naam)
  | ids, _ => (ids, None)
  end.
Definition childTermination : SH unit :=
  run! (pid, st) := host (k_waitpid (-1) WNOHANG) in
  if pid <=? 0 then gret tt
  else
  run! s := gget in
  let (ids, naam) := forget_job pid (pendingIDs s) (pendingNames s) in
  gmod (set_jobs ids (pendingNames s)) ;>
  run! naam := gsome "naam" naam in
  print (codes "JOBS: Process " ++ naam ++ codes " (" ++ dec pid ++ codes ") exited ") ;>
  (if WIFEXITED st && (WEXITSTATUS st =? 0) then print (codes "normally.")
   else print (codes "with nzec " ++ dec (WEXITSTATUS st) ++ codes ".")) ;>
  print [10] ;>
  printPrompt.

(** history.c [historySetup]: the file's name fits. *)
Definition historySetup : SH unit :=
  run! s := gget in
  gcheck (zlen (expectedHomeDir s ++ codes "/history.txt") <? 1000) "fileName" ;>
  run! h := gsome "commandHistory" (retrieveStored (go_history s)) in
  gmod (set_history h).
Definition initSetup : SH unit :=
  initDirSetup true ;>
  historySetup ;>
  sys (Signal SIGCHLD H_childTermination) ;>
  sys (Signal SIGINT H_sigintHandlerC) ;>
  sys (Signal SIGTSTP H_sigintHandlerZ) ;> gret tt.
Fixpoint main_loop (n rounds fuel : nat) : SH unit :=
  match n with
  | O => gfuel
  | S n => inputter rounds fuel ;> main_loop n rounds fuel
  end.
Definition main (n rounds fuel : nat) : SH unit := initSetup ;> printWelcomeScreen ;> main_loop n rounds fuel.
End Exec.
