(* ===== verification/GoshLaws.v ===== *)
(** * The Linux shell: what its steps keep

    The laws of the host's descriptors, the relation between two states of the shell that
    its code keeps (job numbers stay, open descriptors stay), and that the operations of
    GoshSys keep it. *)
From S2P Require Import Prelude CString Printf Gosh GoshSys.

(** ** The host's descriptors *)

(** The table of open descriptors under each call, and the processes waited for so far: those
    asked for and those answered. Calls that open descriptors may fail; [dup] of an open
    descriptor does only when as many are open as the process may have. *)
Class HostLaws (T O : Type) `{Host T} := {
  fdt : T -> gmap Z O;
  fd_limit : nat;
  waited : T -> list Z;
  waited_call c t : waited (k_call c t).2 = waited t;
  waited_read fd n t : waited (k_read fd n t).2 = waited t;
  waited_dup fd t : waited (k_dup fd t).2 = waited t;
  waited_dup2 a b t : waited (k_dup2 a b t) = waited t;
  waited_open path flags t : waited (k_open path flags t).2 = waited t;
  waited_close fd t : waited (k_close fd t) = waited t;
  waited_pipe t : waited (k_pipe t).2 = waited t;
  waited_waitpid pid o t : waited (k_waitpid pid o t).2 = pid :: (k_waitpid pid o t).1.1 :: waited t;
  fdt_negative fd t : fd < 0 -> fdt t !! fd = None;
  fdt_call c t : fdt (k_call c t).2 = fdt t;
  fdt_read fd n t : fdt (k_read fd n t).2 = fdt t;
  fdt_waitpid pid o t : fdt (k_waitpid pid o t).2 = fdt t;
  fdt_dup fd o t : fdt t !! fd = Some o ->
    (k_dup fd t).1 < 0 /\ (fd_limit <= size (fdt t))%nat /\ fdt (k_dup fd t).2 = fdt t \/
    0 <= (k_dup fd t).1 /\ fdt t !! (k_dup fd t).1 = None /\ fdt (k_dup fd t).2 = <[(k_dup fd t).1 := o]> (fdt t);
  fdt_dup_closed fd t : fdt t !! fd = None -> fdt (k_dup fd t).2 = fdt t;
  fdt_dup2_closed a b t : fdt t !! a = None -> fdt (k_dup2 a b t) = fdt t;
  fdt_dup2 a b o t : 0 <= b -> fdt t !! a = Some o -> fdt (k_dup2 a b t) = <[b := o]> (fdt t);
  fdt_open path flags t :
    (k_open path flags t).1 < 0 /\ fdt (k_open path flags t).2 = fdt t \/
    0 <= (k_open path flags t).1 /\ fdt t !! (k_open path flags t).1 = None /\
      exists o, fdt (k_open path flags t).2 = <[(k_open path flags t).1 := o]> (fdt t);
  fdt_close fd t : fdt (k_close fd t) = delete fd (fdt t);
  fdt_pipe t :
    match k_pipe t with
    | (None, t') => fdt t' = fdt t
    | (Some (a, b), t') => fdt t !! a = None /\ fdt t !! b = None /\
        exists o o', fdt t' = <[b := o']> (<[a := o]> (fdt t))
    end
}.

(** ** A judgement for outcomes *)

(** Runs that return relate their states by [R]; the bound runs out only if [F]. *)
Definition keeps {S A} (F : Prop) (R : S -> S -> Prop) (m : G S A) : Prop :=
  forall s, match m s with GDone _ s' => R s s' | GFuel => F | _ => True end.

Section Keeps.
Context {S : Type} (F : Prop) (R : S -> S -> Prop) `{!PreOrder R}.
Lemma keeps_ret {A} (a : A) : keeps F R (gret a).
Proof. intros s. cbn. reflexivity. Qed.
Lemma keeps_bind {A B} (m : G S A) (k : A -> G S B) : keeps F R m -> (forall a, keeps F R (k a)) -> keeps F R (gbind m k).
Proof.
  intros Hm Hk s. specialize (Hm s). unfold gbind. destruct (m s) as [a s1| | | | |]; try done. specialize (Hk a s1).
  destruct (k a s1) as [b s2| | | | |]; try done. by transitivity s1.
Qed.
Lemma keeps_get : keeps F R gget.
Proof. intros s. cbn. reflexivity. Qed.
Lemma keeps_crash {A} w : keeps F R (gcrash w : G S A).
Proof. done. Qed.
Lemma keeps_stray {A} : keeps F R (gstray : G S A).
Proof. done. Qed.
Lemma keeps_exit {A} n : keeps F R (gexit n : G S A).
Proof. done. Qed.
Lemma keeps_exec {A} p v : keeps F R ((fun s => GExec p v s) : G S A).
Proof. done. Qed.
Lemma keeps_when b m : keeps F R m -> keeps F R (gwhen b m).
Proof. intros Hm. destruct b; [exact Hm|apply keeps_ret]. Qed.
Lemma keeps_some {A} w (o : option A) : keeps F R (gsome w o).
Proof. destruct o; [apply keeps_ret|done]. Qed.
Lemma keeps_bind_some {A B} w (o : option A) (k : A -> G S B) : (forall a, o = Some a -> keeps F R (k a)) -> keeps F R (gbind (gsome w o) k).
Proof. intros Hk s. destruct o as [a|]; [by apply (Hk a)|done]. Qed.
Lemma keeps_check b w : keeps F R (gcheck b w).
Proof. destruct b; [apply keeps_ret|done]. Qed.
Lemma keeps_mod f : (forall s, R s (f s)) -> keeps F R (gmod f).
Proof. intros Hf s. exact (Hf s). Qed.
Lemma keeps_fuel {A} : F -> keeps F R (gfuel : G S A).
Proof. intros HF s. exact HF. Qed.
(** A process that never comes back keeps everything. *)
Definition never {A} (m : G S A) : Prop := forall s, match m s with GDone _ _ => False | _ => True end.
Lemma never_bind {A B} (m : G S A) (k : A -> G S B) : (forall a, never (k a)) -> never (gbind m k).
Proof. intros Hk s. unfold gbind. destruct (m s) as [a s1| | | | |]; try done. apply Hk. Qed.
Lemma never_exit {A} n : never (gexit n : G S A).
Proof. done. Qed.
Lemma keeps_never {A} (m : G S A) : F -> never m -> keeps F R m.
Proof. intros HF Hm s. specialize (Hm s). by destruct (m s). Qed.
Lemma keeps_impl {A} (F' : Prop) (R' : S -> S -> Prop) (m : G S A) :
  (F' -> F) -> (forall s s', R' s s' -> R s s') -> keeps F' R' m -> keeps F R m.
Proof. intros HF HR Hm s. specialize (Hm s). destruct (m s); naive_solver. Qed.
End Keeps.

(** The same of runs from states with [P]. *)
Definition keeps_at {S A} (P : S -> Prop) (F : Prop) (R : S -> S -> Prop) (m : G S A) : Prop :=
  forall s, P s -> match m s with GDone _ s' => R s s' | GFuel => F | _ => True end.
Section KeepsAt.
Context {S : Type} (P : S -> Prop) (F : Prop) (R : S -> S -> Prop) `{!PreOrder R}.
Hypothesis P_stable : forall s s', P s -> R s s' -> P s'.
Lemma keeps_at_of {A} (m : G S A) : keeps F R m -> keeps_at P F R m.
Proof. intros Hm s _. apply Hm. Qed.
Lemma keeps_at_bind {A B} (m : G S A) (k : A -> G S B) : keeps_at P F R m -> (forall a, keeps_at P F R (k a)) -> keeps_at P F R (gbind m k).
Proof.
  intros Hm Hk s Hs. specialize (Hm s Hs). unfold gbind. destruct (m s) as [a s1| | | | |]; try done. specialize (Hk a s1).
  destruct (k a s1) as [b s2| | | | |]; try (apply Hk; by eapply P_stable). transitivity s1; [done|]. apply Hk. by eapply P_stable.
Qed.
End KeepsAt.

Create HintDb gosh.
#[export] Hint Resolve keeps_ret keeps_get keeps_crash keeps_stray keeps_exit keeps_exec keeps_some keeps_check : gosh.

(** Descend through a body of code. *)
Ltac keep_step :=
  match goal with
  | |- forall _, _ => intros ?
  | |- keeps _ _ (gbind (gsome _ _) _) => apply keeps_bind_some; intros ? ?
  | |- keeps _ _ (gbind _ _) => apply keeps_bind; [solve [typeclasses eauto]| |intros ?]
  | |- keeps _ _ (gwhen _ _) => apply keeps_when
  | |- keeps _ _ (if ?b then _ else _) => destruct b eqn:?
  | |- keeps _ _ (match ?x with _ => _ end) => destruct x eqn:?
  end.
Ltac keep := repeat (first [solve [eauto 3 with gosh typeclass_instances] | progress cbv zeta | keep_step]).

(** ** What the shell keeps *)

Section Steady.
Context {T O : Type} `{HostLaws T O}.

Definition jobs_ok (s : gosh T) : Prop :=
  length (pendingNames s) = length (pendingIDs s) /\ zlen (pendingIDs s) <= 100.
(** A job number stands for the same process until it is cleared, for which that process
    must have been waited for; its name stays. *)
Record jobs_grow (s s' : gosh T) : Prop := {
  grow_ids i id : pendingIDs s !! i = Some id ->
    pendingIDs s' !! i = Some id \/ pendingIDs s' !! i = Some 0 /\ id ∈ waited (go_host s');
  grow_waited : waited (go_host s) ⊆ waited (go_host s');
  grow_names : pendingNames s `prefix_of` pendingNames s';
  grow_ok : jobs_ok s -> jobs_ok s'
}.
#[export] Instance jobs_grow_preorder : PreOrder jobs_grow.
Proof.
  split; [intros s; split; [by left|done|done|done]|]. intros s1 s2 s3 H1 H2. split.
  - intros i id Hi. destruct (grow_ids _ _ H1 i id Hi) as [H'|[H' Hw]]; [by apply (grow_ids _ _ H2)|].
    right. split; [|by apply (grow_waited _ _ H2)]. by destruct (grow_ids _ _ H2 _ _ H') as [H3|[H3 _]].
  - intros id Hid. by apply (grow_waited _ _ H2), (grow_waited _ _ H1).
  - transitivity (pendingNames s2); [apply H1|apply H2].
  - intros Hok. apply H2, H1, Hok.
Qed.
Definition fds (s : gosh T) : gmap Z O := fdt (go_host s).
(** Open descriptors outside of [X] stay what they are. *)
Definition fds_keep (X : list Z) (m m' : gmap Z O) : Prop := forall fd o, fd ∉ X -> m !! fd = Some o -> m' !! fd = Some o.
Definition steady (X : list Z) (s s' : gosh T) : Prop := jobs_grow s s' /\ fds_keep X (fds s) (fds s').
#[export] Instance steady_preorder X : PreOrder (steady X).
Proof.
  split; [intros s; split; [reflexivity|by intros ??]|]. intros s1 s2 s3 [J1 H1] [J2 H2].
  split; [by transitivity s2|]. intros fd o Hfd Ho. eauto.
Qed.
Lemma steady_mono X Y s s' : X ⊆ Y -> steady X s s' -> steady Y s s'.
Proof. intros HX [J HK]. split; [done|]. intros fd o Hfd. apply HK. by intros ?%HX. Qed.
Lemma steady_same X s s' : pendingIDs s' = pendingIDs s -> pendingNames s' = pendingNames s -> go_host s' = go_host s -> steady X s s'.
Proof.
  destruct s, s'. cbn. intros -> -> ->. split; [split; cbn; [by left|done|done|by unfold jobs_ok]|by intros ??].
Qed.
Lemma steady_host X s t : fds_keep X (fds s) (fdt t) -> waited (go_host s) ⊆ waited t -> steady X s (set_host t s).
Proof. destruct s. cbn. intros HK HW. split; [split; cbn; [by left|done|done|by unfold jobs_ok]|done]. Qed.

Context (F : Prop) (X : list Z).
Lemma keeps_host {A} (f : T -> A * T) : (forall t, fds_keep X (fdt t) (fdt (f t).2)) -> (forall t, waited t ⊆ waited (f t).2) ->
  keeps F (steady X) (host f).
Proof.
  intros Hf Hw s. unfold host. pose proof (steady_host X s (f (go_host s)).2 (Hf (go_host s)) (Hw (go_host s))) as HS.
  by destruct (f (go_host s)).
Qed.
Lemma keep_same m m' : m' = m -> fds_keep X m m'.
Proof. by intros -> ??. Qed.
Lemma keeps_sys c : keeps F (steady X) (sys c).
Proof. apply keeps_host; intros t; [apply keep_same, fdt_call|by rewrite waited_call]. Qed.
Lemma keeps_look {A} (f : T -> A) : keeps F (steady X) (look f).
Proof. intros s. unfold look. reflexivity. Qed.
Lemma keeps_read fd n : keeps F (steady X) (host (k_read fd n)).
Proof. apply keeps_host; intros t; [apply keep_same, fdt_read|by rewrite waited_read]. Qed.
Lemma keeps_waitpid pid o : keeps F (steady X) (host (k_waitpid pid o)).
Proof. apply keeps_host; intros t; [apply keep_same, fdt_waitpid|rewrite waited_waitpid; set_solver]. Qed.
Lemma keeps_close fd : fd ∈ X -> keeps F (steady X) (close fd).
Proof.
  intros Hx. apply keeps_host; [|intros t; cbn [snd]; by rewrite waited_close]. intros t. cbn [snd]. rewrite fdt_close. intros fd' o Hfd Ho. rewrite lookup_delete_ne by naive_solver. done.
Qed.
Lemma keeps_dup fd : keeps F (steady X) (host (k_dup fd)).
Proof.
  apply keeps_host; [|intros t; by rewrite waited_dup]. intros t.
  destruct (fdt t !! fd) as [o|] eqn:E; [|apply keep_same; by apply fdt_dup_closed].
  destruct (fdt_dup fd o t E) as [(_ & _ & ->)|(_ & Hn & ->)]; [by apply keep_same|]. intros x ox _ Hx. rewrite lookup_insert_ne; [done|congruence].
Qed.
Lemma keeps_dup2 a b : 0 <= b -> b ∈ X -> keeps F (steady X) (dup2 a b).
Proof.
  intros Hb HX. apply keeps_host; [|intros t; cbn [snd]; by rewrite waited_dup2]. intros t. cbn [snd]. destruct (fdt t !! a) as [o|] eqn:E; [|apply keep_same; by apply fdt_dup2_closed].
  rewrite (fdt_dup2 a b o) by done. intros x ox Hx Hox. rewrite lookup_insert_ne; [done|]. by intros <-.
Qed.
(** Code that opens a file may close it again. *)
Lemma keeps_open {A} path flags (k : Z -> G (gosh T) A) :
  (forall fd, keeps F (steady (fd :: X)) (k fd)) -> keeps F (steady X) (gbind (host (k_open path flags)) k).
Proof.
  intros Hk s. unfold gbind, host. pose proof (fdt_open path flags (go_host s)) as Ho. pose proof (waited_open path flags (go_host s)) as Hw.
  destruct (k_open path flags (go_host s)) as [fd t]. cbn [fst snd] in Ho, Hw. specialize (Hk fd (set_host t s)).
  destruct (k fd (set_host t s)) as [a s'| | | | |]; try done. destruct Hk as [J HK]. split.
  - transitivity (set_host t s); [apply (steady_host (fd :: X)); [|by rewrite Hw]; intros fd' o _ Hf; unfold fds in Hf|done].
    destruct Ho as [[_ ->]|(_ & Hn & o' & ->)]; [done|]. rewrite lookup_insert_ne by congruence. done.
  - intros fd' o Hfd Hf. assert (fd' <> fd).
    { intros ->. unfold fds in Hf. destruct Ho as [[Hneg _]|(_ & Hn & _)]; [by rewrite fdt_negative in Hf by done|congruence]. }
    apply HK; [by intros [->|?]%elem_of_cons|]. destruct s as [? ? ? ? ? ? ? ? t0]. unfold fds in *. cbn [go_host set_host] in *.
    destruct Ho as [[_ ->]|(_ & Hn & o' & ->)]; [done|]. by rewrite lookup_insert_ne.
Qed.
Lemma keeps_mod_same f : (forall s, pendingIDs (f s) = pendingIDs s /\ pendingNames (f s) = pendingNames s /\ go_host (f s) = go_host s) ->
  keeps F (steady X) (gmod f).
Proof. intros Hf s. destruct (Hf s) as (? & ? & ?). by apply steady_same. Qed.
End Steady.

Ltac keep_field := apply keeps_mod_same; intros []; done.
#[export] Hint Resolve keeps_dup keeps_sys keeps_look keeps_read keeps_waitpid : gosh.
#[export] Hint Extern 2 (keeps _ _ (close _)) => apply keeps_close; set_solver : gosh.
#[export] Hint Extern 2 (keeps _ (steady _) (gmod _)) => keep_field : gosh.

Ltac gkeep := repeat (first [solve [eauto 3 with gosh typeclass_instances] | progress cbv zeta
  | match goal with |- keeps _ _ (gbind (host (k_open _ _)) _) => apply keeps_open; intros ? end | keep_step]).

Section Calm.
Context {T O : Type} `{HostLaws T O} (F : Prop) (X : list Z).
Lemma keeps_print l : keeps F (steady X) (print l).
Proof. unfold print. gkeep. Qed.
Lemma keeps_perror l : keeps F (steady X) (perror l).
Proof. unfold perror. gkeep. Qed.
End Calm.
#[export] Hint Resolve keeps_print keeps_perror : gosh.

Section Sys.
Context {T O : Type} `{HostLaws T O} (F : Prop).
Lemma keeps_read_string X fd n size : keeps F (steady X) (read_string fd n size).
Proof. unfold read_string. gkeep. Qed.
Hint Resolve keeps_read_string : gosh.
Lemma keeps_echo X str k : keeps F (steady X) (echo str k).
Proof. unfold echo. gkeep. Qed.
Lemma keeps_updatePWD X : keeps F (steady X) updatePWD.
Proof. unfold updatePWD. gkeep. Qed.
Hint Resolve keeps_updatePWD : gosh.
Lemma keeps_printPWD X a b : keeps F (steady X) (printPWD a b).
Proof. unfold printPWD. gkeep. Qed.
Hint Resolve keeps_printPWD : gosh.
Lemma keeps_initDirSetup X b : keeps F (steady X) (initDirSetup b).
Proof. unfold initDirSetup. gkeep. Qed.
Hint Resolve keeps_initDirSetup : gosh.
Lemma keeps_changeDirectory X d : keeps F (steady X) (changeDirectory d).
Proof. unfold changeDirectory. gkeep. Qed.
Lemma keeps_printnum X n len : keeps F (steady X) (printnum n len).
Proof. unfold printnum. gkeep. Qed.
Hint Resolve keeps_printnum : gosh.
Lemma keeps_long_widths X files h : forall w, keeps F (steady X) (long_widths files h w).
Proof. induction files as [|file files IH]; intros w; cbn [long_widths]; gkeep. Qed.
Lemma keeps_long_lines X files h w : keeps F (steady X) (long_lines files h w).
Proof. induction files as [|file files IH]; cbn [long_lines]; gkeep. Qed.
Lemma keeps_short_lines X files h : keeps F (steady X) (short_lines files h).
Proof. induction files as [|file files IH]; cbn [short_lines]; gkeep. Qed.
Hint Resolve keeps_long_widths keeps_long_lines keeps_short_lines : gosh.
Lemma keeps_longListPrint X files h : keeps F (steady X) (longListPrint files h).
Proof. unfold longListPrint. gkeep. Qed.
Hint Resolve keeps_longListPrint : gosh.
Lemma keeps_ls X d h l : keeps F (steady X) (ls d h l).
Proof. unfold ls. gkeep. Qed.
Lemma keeps_printMachine X : keeps F (steady X) printMachine.
Proof. unfold printMachine. gkeep. Qed.
Hint Resolve keeps_printMachine : gosh.
Lemma keeps_printPrompt X : keeps F (steady X) printPrompt.
Proof. unfold printPrompt. gkeep. Qed.
Lemma keeps_printWelcomeScreen X : keeps F (steady X) printWelcomeScreen.
Proof. unfold printWelcomeScreen. gkeep. Qed.
Lemma keeps_proc_path X a b : keeps F (steady X) (proc_path a b).
Proof. unfold proc_path. gkeep. Qed.
Hint Resolve keeps_proc_path : gosh.
Lemma keeps_getProcStatus X pid : keeps F (steady X) (getProcStatus pid).
Proof. unfold getProcStatus. gkeep. Qed.
Hint Resolve keeps_getProcStatus : gosh.
Lemma keeps_getProcStatusString X pid : keeps F (steady X) (getProcStatusString pid).
Proof. unfold getProcStatusString. gkeep. Qed.
Lemma keeps_printPinfo X n args : keeps F (steady X) (printPinfo n args).
Proof. unfold printPinfo. gkeep. Qed.
Lemma keeps_interruptPrint X n : keeps F (steady X) (interruptPrint n).
Proof. unfold interruptPrint. gkeep. Qed.
Lemma keeps_dirtyMemPrint X : keeps F (steady X) dirtyMemPrint.
Proof. unfold dirtyMemPrint. gkeep. Qed.
End Sys.
#[export] Hint Resolve keeps_read_string keeps_echo keeps_updatePWD keeps_printPWD keeps_initDirSetup keeps_changeDirectory
  keeps_ls keeps_printPrompt keeps_printWelcomeScreen keeps_getProcStatusString keeps_printPinfo keeps_interruptPrint keeps_dirtyMemPrint : gosh.
