(* ===== verification/GoshDemo.v ===== *)
(** * A host for the Linux shell

    A small operating system with glibc's sizes of allocations: descriptors, files with
    their contents, and the answers that [fork], [waitpid] and the keyboard will give. *)
From S2P Require Import Prelude CString Printf Gosh GoshSys GoshExec GoshLaws.

(** What a descriptor is open on is named by a path. *)
Record demo := Demo {
  dm_fds : gmap nat (list Z);
  dm_files : list (list Z * list Z);
  dm_dirs : list (list Z);
  dm_cwd : list Z;
  dm_forks : list Z;
  dm_waits : list (Z * Z);
  dm_keys : list Z;
  dm_log : list call;
  dm_waited : list Z
}.
Definition dm_set_fds (v : gmap nat (list Z)) (t : demo) : demo :=
  Demo v (dm_files t) (dm_dirs t) (dm_cwd t) (dm_forks t) (dm_waits t) (dm_keys t) (dm_log t) (dm_waited t).
Definition dm_alloc (o : list Z) (t : demo) : Z * demo :=
  let n := fresh (dom (dm_fds t)) in (Z.of_nat n, dm_set_fds (<[n := o]> (dm_fds t)) t).
(** The limit on open descriptors. *)
Definition dm_limit : nat := 1024.
Definition dm_new (o : list Z) (t : demo) : Z * demo := if (dm_limit <=? size (dm_fds t))%nat then (-1, t) else dm_alloc o t.
Definition dm_fd (fd : Z) (t : demo) : option (list Z) := if fd <? 0 then None else dm_fds t !! Z.to_nat fd.
Definition dm_content (path : list Z) (t : demo) : list Z := default [] (snd <$> head (filter (fun f => f.1 = path) (dm_files t))).
Definition dm_call (c : call) (t : demo) : Z * demo :=
  let '(Demo fds files dirs cwd forks waits keys log waited) := t in
  let log := log ++ [c] in
  match c with
  | Fork => (nth 0 forks 1, Demo fds files dirs cwd (tail forks) waits keys log waited)
  | Getchar => (nth 0 keys 10, Demo fds files dirs cwd forks waits (tail keys) log waited)
  | Chdir path => if bool_decide (path ∈ dirs) then (0, Demo fds files dirs path forks waits keys log waited) else (-1, Demo fds files dirs cwd forks waits keys log waited)
  | _ => (0, Demo fds files dirs cwd forks waits keys log waited)
  end.
Definition dm_waitpid (pid o : Z) (t : demo) : (Z * Z) * demo :=
  let '(Demo fds files dirs cwd forks waits keys log waited) := t in
  let r := nth 0 waits (-1, 0) in (r, Demo fds files dirs cwd forks (tail waits) keys log (pid :: r.1 :: waited)).
#[export] Instance demo_host : Host demo := {|
  calloc_size := fun n => Z.max 24 ((n + 23) / 16 * 16 - 8);
  k_call := dm_call;
  k_dup := fun fd t => match dm_fd fd t with None => (-1, t) | Some o => dm_new o t end;
  k_dup2 := fun a b t => match dm_fd a t with None => t | Some o => if b <? 0 then t else dm_set_fds (<[Z.to_nat b := o]> (dm_fds t)) t end;
  k_open := fun path _ t => dm_new path t;
  k_close := fun fd t => if fd <? 0 then t else dm_set_fds (delete (Z.to_nat fd) (dm_fds t)) t;
  k_pipe := fun t => if (dm_limit <=? size (dm_fds t) + 1)%nat then (None, t) else
    let (a, t) := dm_alloc (codes "pipe") t in let (b, t) := dm_alloc (codes "pipe") t in (Some (a, b), t);
  k_read := fun fd n t => let l := take (Z.to_nat n) (default [] (o ← dm_fd fd t; Some (dm_content o t))) in ((zlen l, l), t);
  k_waitpid := dm_waitpid;
  k_exec := fun _ _ _ => true;
  k_getpgid := fun pid _ => if pid =? 0 then 100 else pid;
  k_getpid := fun _ => 100;
  k_getcwd := dm_cwd;
  k_getenv := fun _ _ => None;
  k_lstat := fun _ _ => None;
  k_scandir := fun _ _ _ _ => Some [];
  k_readlink := fun _ _ => [];
  k_user := fun _ => codes "me";
  k_group := fun _ => codes "us";
  k_ctime := fun _ _ => codes "Thu Jan  1 00:00:00 1970" ++ [10];
  k_clock := fun _ => 0;
  k_lflag := fun _ => 10;
  k_fionread := fun _ => 0;
  k_junk := fun _ => 0
|}.

Definition dm_table (t : demo) : gmap Z (list Z) := kmap Z.of_nat (dm_fds t).
Lemma dm_table_lookup fd t : dm_table t !! fd = dm_fd fd t.
Proof.
  unfold dm_table, dm_fd. destruct (Z.ltb_spec fd 0).
  - apply lookup_kmap_None; [apply _|]. lia.
  - rewrite <-(Z2Nat.id fd) at 1 by lia. apply lookup_kmap. apply _.
Qed.
Lemma dm_table_size t : size (dm_table t) = size (dm_fds t).
Proof.
  unfold dm_table. induction (dm_fds t) as [|i x m Hi IH] using map_ind; [done|].
  rewrite kmap_insert by apply _. rewrite !map_size_insert_None by (done || by rewrite lookup_kmap by apply _). by rewrite IH.
Qed.
Lemma dm_alloc_table o t : 0 <= (dm_alloc o t).1 /\ dm_table t !! (dm_alloc o t).1 = None /\
  dm_table (dm_alloc o t).2 = <[(dm_alloc o t).1 := o]> (dm_table t).
Proof.
  unfold dm_alloc. cbn [fst snd]. split; [lia|]. split.
  - unfold dm_table. rewrite lookup_kmap by apply _. apply not_elem_of_dom, is_fresh.
  - unfold dm_table, dm_set_fds. cbn [dm_fds]. apply kmap_insert. apply _.
Qed.
#[export] Instance demo_laws : HostLaws demo (list Z).
Proof.
  pose proof dm_table_size as Hsize.
  refine {| fdt := dm_table; fd_limit := dm_limit; waited := dm_waited |}.
  - intros [] []; try done. cbn. by case_bool_decide.
  - done.
  - intros fd t. cbn [k_dup demo_host]. unfold dm_new. destruct (dm_fd fd t); [|done]. by case_match.
  - intros a b t. cbn [k_dup2 demo_host]. destruct (dm_fd a t); [|done]. by case_match.
  - intros path flags t. cbn [k_open demo_host]. unfold dm_new. by case_match.
  - intros fd t. cbn [k_close demo_host]. by case_match.
  - intros t. cbn [k_pipe demo_host]. by case_match.
  - by intros ? ? [].
  - intros fd t Hfd. rewrite dm_table_lookup. unfold dm_fd. by rewrite (proj2 (Z.ltb_lt _ _)).
  - intros [] []; try done. cbn. by case_bool_decide.
  - done.
  - by intros ? ? [].
  - intros fd o t Ho. rewrite dm_table_lookup in Ho. cbn [k_dup demo_host]. rewrite Ho, Hsize. unfold dm_new.
    destruct (Nat.leb_spec dm_limit (size (dm_fds t))); [left; split; [done|by split]|right; apply dm_alloc_table].
  - intros fd t Ho. rewrite dm_table_lookup in Ho. cbn [k_dup demo_host]. by rewrite Ho.
  - intros a b t Ho. rewrite dm_table_lookup in Ho. cbn [k_dup2 demo_host]. by rewrite Ho.
  - intros a b o t Hb Ho. rewrite dm_table_lookup in Ho. cbn [k_dup2 demo_host]. rewrite Ho, (proj2 (Z.ltb_ge _ _)) by done.
    unfold dm_table, dm_set_fds. cbn [dm_fds]. rewrite kmap_insert by apply _. by rewrite Z2Nat.id.
  - intros path flags t. cbn [k_open demo_host]. unfold dm_new. destruct (dm_limit <=? _)%nat; [by left|]. right.
    destruct (dm_alloc_table path t) as (H1 & H2 & H3). split; [done|]. split; [done|]. by eexists.
  - intros fd t. cbn [k_close demo_host]. destruct (Z.ltb_spec fd 0).
    + symmetry. apply delete_id. rewrite dm_table_lookup. unfold dm_fd. by rewrite (proj2 (Z.ltb_lt _ _)).
    + unfold dm_table, dm_set_fds. cbn [dm_fds]. rewrite kmap_delete by apply _. by rewrite Z2Nat.id.
  - intros t. cbn [k_pipe demo_host]. destruct (dm_limit <=? _)%nat; [done|]. destruct (dm_alloc_table (codes "pipe") t) as (P1 & N1 & E1).
    destruct (dm_alloc (codes "pipe") t) as [a t1]. cbn [fst snd] in *.
    destruct (dm_alloc_table (codes "pipe") t1) as (P2 & N2 & E2). destruct (dm_alloc (codes "pipe") t1) as [b t2]. cbn [fst snd] in *.
    rewrite E1 in N2. apply lookup_insert_None in N2 as [N2 _]. split; [done|]. split; [done|]. eexists _, _. by rewrite E2, E1.
Defined.

(** A shell in /home/me with its terminal open, and one in which the home has been set. *)
Definition tty_fds : gmap nat (list Z) := <[0%nat := codes "tty"]> (<[1%nat := codes "tty"]> (<[2%nat := codes "tty"]> ∅)).
Definition demo_os (forks : list Z) (waits : list (Z * Z)) (keys : list Z) : demo :=
  Demo tty_fds [(codes "/proc/sys/kernel/hostname", codes "box" ++ [10])] [codes "/home/me"; codes "/tmp"; []] (codes "/home/me") forks waits keys [] [].
Definition demo_shell (forks : list Z) (waits : list (Z * Z)) (keys : list Z) : gosh demo :=
  GoshSt (History [] (Some [])) [] [] 0 [codes "home"; codes "me"] [codes "home"; codes "me"] (codes "/home/me") (codes "/home/me")
    (demo_os forks waits keys).
