(* ===== verification/GoshExecSpec.v ===== *)
(** * The Linux shell: jobs and descriptors

    What programs and built-in commands keep, and when a built-in command returns early. *)
From S2P Require Import Prelude CString Printf Gosh GoshSys GoshExec GoshLaws.

Section Commands.
Context {T O : Type} `{HostLaws T O} (F : Prop).

(** ** The job table *)

Lemma keeps_add_job X id name : keeps F (steady X) (add_job id name).
Proof.
  intros s. unfold add_job, gbind, gget, store_at. rewrite (proj2 (Z.leb_le _ _)) by (unfold zlen; lia). cbn [andb].
  destruct (Z.ltb_spec (zlen (pendingIDs s)) JOBS) as [Hl|]; [|done]. cbn.
  destruct s as [h ids names fg c hm e w t]. cbn in *. split; [|by intros ??]. split; cbn.
  - intros i x Hi. left. by apply lookup_app_l_Some.
  - done.
  - by eexists.
  - unfold jobs_ok, JOBS, zlen in *. cbn. rewrite !length_app. cbn. lia.
Qed.
(** A job may be cleared once its process has been waited for. *)
Definition job_waited (pid : Z) (i : nat) (s : gosh T) : Prop :=
  pid ∈ waited (go_host s) /\ (pendingIDs s !! i = Some pid \/ pendingIDs s !! i = Some 0).
Lemma job_waited_stable X pid i s s' : job_waited pid i s -> steady X s s' -> job_waited pid i s'.
Proof.
  intros [Hw Hi] [J _]. split; [by apply (grow_waited _ _ J)|].
  destruct Hi as [Hi|Hi]; destruct (grow_ids _ _ J _ _ Hi) as [?|[? _]]; auto.
Qed.
Lemma keeps_clear_job X pid i : keeps_at (job_waited pid i) F (steady X) (clear_job i).
Proof.
  intros s [Hw Hi]. cbn. destruct s as [h ids names fg c hm e w t]. cbn in *. split; [|by intros ??]. split; cbn; [|done|done|].
  - intros j x Hj. destruct (decide (i = j)) as [->|]; [|left; by rewrite list_lookup_insert_ne].
    rewrite list_lookup_insert_eq by (by eapply lookup_lt_Some). destruct Hi as [Hi|Hi]; rewrite Hi in Hj; injection Hj as <-; [by right|by left].
  - unfold jobs_ok, zlen. cbn. by rewrite length_insert.
Qed.
Lemma forget_length pid ids : forall names, length (forget_job pid ids names).1 = length ids.
Proof.
  induction ids as [|id ids IH]; intros [|name names]; cbn [forget_job fst]; try done. specialize (IH names).
  destruct (forget_job pid ids names) as [l o]. cbn [fst] in *. destruct (id =? pid); cbn [fst length]; by rewrite IH.
Qed.
(** The numbers of process [pid] are cleared and no other. *)
Lemma forget_spec pid ids : forall names i id, (length ids <= length names)%nat -> ids !! i = Some id ->
  (forget_job pid ids names).1 !! i = Some (if id =? pid then 0 else id).
Proof.
  induction ids as [|id0 ids IH]; intros [|name names] i id Hl Hi; cbn [length] in *; try (done || lia). cbn [forget_job].
  specialize (IH names). destruct (forget_job pid ids names) as [l o]. cbn [fst] in *.
  destruct i as [|i]; [injection Hi as ->; by destruct (id =? pid)|]. destruct (id0 =? pid); cbn [fst]; apply IH; (done || lia).
Qed.
Lemma forget_all pid ids names : (length ids <= length names)%nat ->
  (forget_job pid ids names).1 = (fun id => if id =? pid then 0 else id) <$> ids.
Proof.
  intros Hl. apply list_eq. intros i. rewrite list_lookup_fmap. destruct (ids !! i) as [id|] eqn:Hi; cbn.
  - by apply forget_spec.
  - apply lookup_ge_None_2. rewrite forget_length. by apply lookup_ge_None_1.
Qed.
Lemma forget_some pid ids : forall names i id, ids !! i = Some id ->
  (forget_job pid ids names).1 !! i = Some id \/ (forget_job pid ids names).1 !! i = Some 0 /\ id = pid.
Proof.
  induction ids as [|id0 ids IH]; intros [|name names] i id Hi; cbn [forget_job fst]; try (by left). specialize (IH names).
  destruct (forget_job pid ids names) as [l o]. cbn [fst] in *.
  destruct i as [|i]; [injection Hi as ->; destruct (Z.eqb_spec id pid); [by right|by left]|].
  destruct (id0 =? pid); cbn [fst]; by apply IH.
Qed.
Lemma forget_steady X pid s : pid ∈ waited (go_host s) ->
  steady X s (set_jobs (forget_job pid (pendingIDs s) (pendingNames s)).1 (pendingNames s) s).
Proof.
  intros Hw. pose proof (forget_length pid (pendingIDs s) (pendingNames s)) as H1. pose proof (forget_some pid (pendingIDs s) (pendingNames s)) as H2.
  destruct s as [h ids names fg c hm e w t]. cbn in *. split; [|by intros ??]. split; cbn; [|done|done|].
  - intros i id Hi. destruct (H2 i id Hi) as [?|[? ->]]; auto.
  - unfold jobs_ok, zlen. cbn. by rewrite H1.
Qed.

(** ** Pipes *)

Lemma keeps_pipe {A} X (k : option (Z * Z) -> G (gosh T) A) :
  (forall a b, keeps F (steady (a :: b :: X)) (k (Some (a, b)))) -> keeps F (steady X) (k None) ->
  keeps F (steady X) (gbind (host k_pipe) k).
Proof.
  intros Hs Hn s. unfold gbind, host. pose proof (fdt_pipe (go_host s)) as Hp. pose proof (waited_pipe (go_host s)) as Hw.
  destruct (k_pipe (go_host s)) as [[[a b]|] t]; cbn [snd] in Hw.
  - destruct Hp as (Ha & Hb & o & o' & Et). specialize (Hs a b (set_host t s)). destruct (k (Some (a, b)) (set_host t s)) as [r s'| | | | |]; try done.
    assert (HK : fds_keep X (fds s) (fdt t)).
    { intros fd x _ Hx. unfold fds in Hx. rewrite Et, !lookup_insert_ne by congruence. done. }
    destruct Hs as [J HK']. split; [transitivity (set_host t s); [apply (steady_host X _ _ HK); by rewrite Hw|done]|].
    intros fd x Hfd Hx. apply HK'; [|destruct s; by apply (HK fd x)]. unfold fds in Hx.
    intros [->|[->|?]%elem_of_cons]%elem_of_cons; congruence.
  - specialize (Hn (set_host t s)). destruct (k None (set_host t s)) as [r s'| | | | |]; try done.
    transitivity (set_host t s); [|done]. apply steady_host; [by apply keep_same|by rewrite Hw].
Qed.

(** ** Programs and built-in commands *)

Hint Resolve keeps_add_job : gosh.
Lemma keeps_execProcess X cmd args bg : keeps F (steady X) (execProcess cmd args bg).
Proof. unfold execProcess. gkeep. Qed.
Hint Resolve keeps_execProcess : gosh.
Lemma keeps_nights_print X d c : keeps F (steady X) (nights_print d c).
Proof. unfold nights_print. gkeep. Qed.
Lemma keeps_keyboard X : keeps F (steady X) keyboardWasPressed.
Proof. unfold keyboardWasPressed, rawModeOn, rawModeGone. gkeep. Qed.
Hint Resolve keeps_nights_print keeps_keyboard keeps_fuel : gosh.
Lemma keeps_nights_loop X rounds d : F -> forall i b c, keeps F (steady X) (nights_loop rounds d i b c).
Proof. intros HF. induction rounds as [|rounds IH]; intros i b c; cbn [nights_loop]; gkeep. Qed.
Hint Resolve keeps_nights_loop : gosh.
Lemma keeps_nightsprint X rounds d i : F -> keeps F (steady X) (nightsprint rounds d i).
Proof. intros HF. unfold nightsprint. gkeep. Qed.
Hint Resolve keeps_nightsprint : gosh.
Lemma keeps_night_args X rounds args : F -> forall t i, keeps F (steady X) (night_args rounds args t i).
Proof. intros HF. induction args as [|a args IH]; intros t i; cbn [night_args]; gkeep. Qed.
Lemma keeps_jobs_lines X ids : forall i names, keeps F (steady X) (jobs_lines i ids names).
Proof. induction ids as [|id ids IH]; intros i names; cbn [jobs_lines]; gkeep. Qed.
Lemma keeps_overkill X ids : keeps F (steady X) (overkill ids).
Proof. induction ids as [|id ids IH]; cbn [overkill]; gkeep. Qed.
Hint Resolve keeps_night_args keeps_jobs_lines keeps_overkill : gosh.

Section Open.
Context (exec : Z -> bool -> list Z -> G (gosh T) unit) (rounds : nat).
Lemma keeps_cronJob X cmd i t : F -> keeps F (steady X) (cronJob exec rounds cmd i t).
Proof.
  intros HF. apply keeps_bind; [apply _|gkeep|intros f]. destruct (f =? 0); [|gkeep].
  apply keeps_never; [done|]. apply never_bind. intros ?. apply never_exit.
Qed.
Hint Resolve keeps_cronJob : gosh.
Lemma keeps_cronjobParse X args : F -> keeps F (steady X) (cronjobParse exec rounds args).
Proof. intros HF. unfold cronjobParse. gkeep. Qed.
Hint Resolve keeps_cronjobParse : gosh.
(** The two commands whose loops wait: for a key, and for time to pass. *)
Definition waits (cmd : list Z) : Prop := cmd = codes "nightswatch" \/ cmd = codes "cronjob".
Lemma str_eq_true a b : str_eq a b = true -> a = b.
Proof. apply bool_decide_eq_true_1. Qed.
(** [fg] waits for the process of the number it clears. *)
Lemma keeps_run_fg X args : keeps F (steady X) (run_fg args).
Proof.
  unfold run_fg. destruct (negb _); [unfold usage; gkeep|]. cbv zeta. intros s. unfold gbind at 1, gget.
  destruct (job_pid (arg_int args 1) s) as [pid|] eqn:Ej; [|assert (Hu : keeps F (steady X) (usage (codes "Invalid job number" ++ [10]))) by (unfold usage; gkeep); apply Hu].
  set (i := Z.to_nat (arg_int args 1 - 1)).
  assert (Hi : pendingIDs s !! i = Some pid).
  { unfold job_pid in Ej. destruct (_ || _); [done|]. apply bind_Some in Ej as (x & Hx & Ej). by destruct (x =? 0); simplify_eq. }
  set (P (s : gosh T) := pendingIDs s !! i = Some pid \/ pendingIDs s !! i = Some 0).
  assert (PS : forall s s', P s -> steady X s s' -> P s').
  { intros s1 s2 HP [J _]. destruct HP as [Hp|Hp]; destruct (grow_ids _ _ J _ _ Hp) as [?|[? _]]; unfold P; auto. }
  cut (keeps_at P F (steady X) (gmod (set_foreground pid) ;>
    sys (Signal SIGTTIN SIG_IGN) ;> sys (Signal SIGTTOU SIG_IGN) ;> sys (Tcsetpgrp pid) ;> sys (Kill pid SIGCONT) ;>
    run! (_, st) := host (k_waitpid pid WUNTRACED) in
    run! g := look (k_getpgid 0) in
    sys (Tcsetpgrp g) ;> sys (Signal SIGTTIN SIG_DFL) ;> sys (Signal SIGTTOU SIG_DFL) ;>
    clear_job i ;>
    gwhen (WIFSTOPPED st) (add_job pid (nth i (pendingNames s) [])) ;>
    gret true)); [intros Hk; apply (Hk s); by left|].
  do 5 (apply keeps_at_bind; [apply _|exact PS|apply keeps_at_of; gkeep|intros _]).
  intros s1 HP. unfold gbind at 1, host at 1. pose proof (waited_waitpid pid WUNTRACED (go_host s1)) as Hw.
  pose proof (fdt_waitpid pid WUNTRACED (go_host s1)) as Hf. destruct (k_waitpid pid WUNTRACED (go_host s1)) as [[r st] t]. cbn [fst snd] in Hw, Hf.
  assert (H1 : steady X s1 (set_host t s1)) by (apply steady_host; [by apply keep_same|rewrite Hw; set_solver]).
  assert (HW : job_waited pid i (set_host t s1)).
  { split; [|by eapply PS]. destruct s1. cbn. rewrite Hw. by left. }
  match goal with |- match ?m ?s' with _ => _ end => assert (Hk : keeps_at (job_waited pid i) F (steady X) m) end.
  - do 4 (apply keeps_at_bind; [apply _|apply job_waited_stable|apply keeps_at_of; gkeep|intros ?]).
    apply keeps_at_bind; [apply _|apply job_waited_stable|apply keeps_clear_job|intros _]. apply keeps_at_of. gkeep.
  - specialize (Hk _ HW). match goal with |- match ?m ?s' with _ => _ end => destruct (m s'); try done end. by transitivity (set_host t s1).
Qed.
Hint Resolve keeps_run_fg : gosh.
Lemma keeps_dispatch X room cmd2 cmd p : (waits cmd -> F) -> keeps F (steady X) (dispatch exec rounds room cmd2 cmd p).
Proof.
  intros HF. unfold dispatch, run_ls, run_cd, run_echo, run_history, run_kjob, run_setenv, run_unsetenv, run_getenv, run_bg, run_program, usage.
  gkeep; match goal with E : str_eq _ _ = true |- _ => apply str_eq_true in E; subst; assert F by (apply HF; by (left + right)) end; gkeep.
Qed.

(** ** Early returns *)

(** The commands that report an error and return at once. *)
Definition no_job (jobn : Z) (s : gosh T) : bool := match job_pid jobn s with None => true | Some _ => false end.
Definition usage_error (cmd : list Z) (args : list (list Z)) (s : gosh T) : bool :=
  let isc name := str_eq cmd (codes name) in
  if isc "kjob" then negb (length args =? 3)%nat || no_job (arg_int args 1) s
  else if isc "setenv" then (length args <? 2)%nat || (3 <? length args)%nat
  else if isc "unsetenv" || isc "getenv" then negb (length args =? 2)%nat
  else if isc "fg" || isc "bg" then negb (length args =? 2)%nat || no_job (arg_int args 1) s
  else false.
Definition ends (v : bool) (m : G (gosh T) bool) (s : gosh T) : Prop := match m s with GDone b _ => b = v | _ => True end.
Lemma ends_then {A} (m : G (gosh T) A) b s : ends b (gbind m (fun _ => gret b)) s.
Proof. unfold ends, gbind. by destruct (m s). Qed.
Lemma ends_gbind {A} (m : G (gosh T) A) k b s : (forall a s', ends b (k a) s') -> ends b (gbind m k) s.
Proof. intros Hk. unfold ends, gbind. destruct (m s) as [a s1| | | | |]; try done. apply Hk. Qed.
Ltac end_step := first [apply ends_then | apply ends_gbind; intros ? ? | match goal with |- ends _ (match ?x with _ => _ end) _ => destruct x end].
Lemma ends_job (args : list (list Z)) (n : nat) jobn msg (k : gosh T -> Z -> G (gosh T) bool) msg' s : (forall s pid s', ends true (k s pid) s') ->
  ends (negb (negb (length args =? n)%nat || no_job jobn s))
    (if negb (length args =? n)%nat then usage msg else gbind gget (fun s => match job_pid jobn s with None => usage msg' | Some pid => k s pid end)) s.
Proof.
  intros Hk. destruct (length args =? n)%nat; cbn [negb orb]; [|apply ends_then]. unfold no_job, ends, gbind, gget.
  destruct (job_pid jobn s) as [pid|]; [apply Hk|apply ends_then].
Qed.
Lemma dispatch_ends room cmd2 cmd p s :
  ends (negb (usage_error cmd (pr_args p) s)) (dispatch exec rounds room cmd2 cmd p) s.
Proof.
  unfold dispatch, usage_error; cbv zeta.
  repeat match goal with |- context [str_eq ?c (codes ?n)] => is_var c;
    let E := fresh in destruct (str_eq c (codes n)) eqn:E; [apply str_eq_true in E; subst c|]; cbn [orb] end.
  all: repeat match goal with |- context [str_eq (codes ?a) (codes ?b)] =>
    let v := eval vm_compute in (str_eq (codes a) (codes b)) in change (str_eq (codes a) (codes b)) with v; cbn match; cbn [orb] end.
  all: cbn [negb].
  - apply (ends_job _ 3 _ _ (fun s pid => _)). intros. repeat end_step.
  - unfold run_setenv. destruct (_ || _); [apply ends_then|]. cbv zeta. match goal with |- ends _ (if ?b then _ else _) _ => destruct b end; [done|apply ends_then].
  - unfold run_unsetenv. destruct (length _ =? 2)%nat; apply ends_then.
  - unfold run_getenv. destruct (length _ =? 2)%nat; [|apply ends_then]. cbn [negb]. repeat end_step.
  - cbv beta zeta delta [run_fg]. apply (ends_job _ 2 _ _ (fun s pid => _)). intros. repeat end_step.
  - apply (ends_job _ 2 _ _ (fun s pid => _)). intros. repeat end_step.
  - unfold run_ls. destruct (foldl _ _ _) as [? [? ?]]. apply ends_then.
  - done.
  - done.
  - done.
  - apply ends_then.
  - apply ends_then.
  - unfold run_echo. repeat end_step.
  - apply ends_then.
  - unfold run_history. repeat end_step.
  - apply ends_then.
  - repeat end_step.
  - repeat end_step.
  - apply ends_then.
  - unfold run_program. repeat end_step.
Qed.
End Open.
End Commands.
#[export] Hint Resolve keeps_add_job keeps_dispatch keeps_fuel : gosh.
