(* ===== verification/GoshFds.v ===== *)
(** * The Linux shell: the descriptors of a command

    A command that is executed to its end leaves every descriptor as it was, and two more
    open: the copies of standard input and output are never closed. *)
From S2P Require Import Prelude CString Printf Gosh GoshSys GoshExec GoshLaws GoshDemo GoshExecSpec.

(** ** Redirections *)

Section Descriptors.
Context {T O : Type} `{HostLaws T O}.

Lemma gbind_done {S A B} (m : G S A) (k : A -> G S B) s b s' : gbind m k s = GDone b s' -> exists a s1, m s = GDone a s1 /\ k a s1 = GDone b s'.
Proof. unfold gbind. destruct (m s); naive_solver. Qed.
Lemma gbind_ret {S A B} (a : A) (k : A -> G S B) s : gbind (gret a) k s = k a s.
Proof. done. Qed.
(** Only the host changes. *)
Definition same_shell (s s' : gosh T) : Prop := s' = set_host (go_host s') s /\ waited (go_host s') = waited (go_host s).
Lemma fds_host (s : gosh T) t : fds (set_host t s) = fdt t.
Proof. by destruct s. Qed.
Lemma set_host_host (s : gosh T) t t' : set_host t' (set_host t s) = set_host t' s.
Proof. by destruct s. Qed.
Lemma same_trans s s1 s2 : same_shell s s1 -> same_shell s1 s2 -> same_shell s s2.
Proof. unfold same_shell. intros [E1 W1] [E2 W2]. split; [|by rewrite W2]. rewrite E2, E1, set_host_host. by destruct s. Qed.
Lemma same_refl s : same_shell s s.
Proof. by destruct s. Qed.
Lemma host_done {A} (f : T -> A * T) s a s' : (forall t, waited (f t).2 = waited t) -> host f s = GDone a s' ->
  (f (go_host s)).1 = a /\ same_shell s s' /\ fds s' = fdt (f (go_host s)).2.
Proof.
  intros Hw. specialize (Hw (go_host s)). unfold host, same_shell, fds. destruct (f (go_host s)) as [a0 t]. intros [= <- <-]. by destruct s.
Qed.
Lemma print_done l s a s' : perror l s = GDone a s' -> same_shell s s' /\ fds s' = fds s.
Proof.
  unfold perror. intros (x & s1 & H1 & H2)%gbind_done. injection H2 as _ <-. apply host_done in H1 as (_ & ? & E); [|intros; apply waited_call].
  split; [done|]. by rewrite E, fdt_call.
Qed.
(** [redirect] with standard descriptor [std]: nothing to do, or a new file put in its place,
    or a file that cannot be opened. *)
Lemma redirect_done path flags msg std fd s r s' : 0 <= std -> redirect path flags msg std fd s = GDone r s' ->
  same_shell s s' /\
  match r with
  | None => path <> [] /\ (k_open path flags (go_host s)).1 < 0 /\ fds s' = fds s
  | Some fd' => path = [] /\ fd' = fd /\ s' = s \/
      path <> [] /\ 0 <= fd' /\ fds s !! fd' = None /\ exists o, fds s' = <[std := o]> (<[fd' := o]> (fds s))
  end.
Proof.
  intros Hstd. unfold redirect. destruct path as [|c path].
  { intros [= <- <-]. split; [apply same_refl|]. by left. }
  intros (fd1 & s1 & H1 & H2)%gbind_done. apply host_done in H1 as (E1 & S1 & F1); [|intros; apply waited_open].
  pose proof (fdt_open (c :: path) flags (go_host s)) as Ho. rewrite E1 in Ho. destruct (Z.ltb_spec fd1 0) as [Hneg|Hpos].
  - apply gbind_done in H2 as (x & s2 & H2 & H3). injection H3 as <- <-. apply print_done in H2 as [S2 F2].
    split; [by eapply same_trans|]. split; [done|]. split; [by rewrite E1|]. rewrite F2, F1. by destruct Ho as [[_ ?]|(? & _)]; [|lia].
  - apply gbind_done in H2 as (x & s2 & H2 & H3). injection H3 as <- <-. unfold dup2 in H2. apply host_done in H2 as (_ & S2 & F2); [|intros; apply waited_dup2]. cbn [snd] in F2.
    split; [by eapply same_trans|]. right. destruct Ho as [[? _]|(_ & Hn & o & Eo)]; [lia|]. split; [done|]. split; [done|]. split; [done|].
    exists o. rewrite F2. assert (Ef : fdt (go_host s1) = <[fd1 := o]> (fdt (go_host s))) by (by rewrite <-Eo, <-F1).
    rewrite (fdt_dup2 fd1 std o) by (done || by rewrite Ef, lookup_insert_eq). by rewrite Ef.
Qed.
Lemma dup_done fd o s r s' : (size (fds s) < fd_limit)%nat -> fds s !! fd = Some o -> host (k_dup fd) s = GDone r s' ->
  same_shell s s' /\ 0 <= r /\ fds s !! r = None /\ fds s' = <[r := o]> (fds s).
Proof.
  intros Hl Ho (E & S1 & F1)%host_done; [|intros; apply waited_dup]. unfold fds in Hl.
  destruct (fdt_dup fd o (go_host s) Ho) as [(_ & Hge & _)|(H1 & H2 & H3)]; [lia|]. rewrite E in *. by rewrite F1.
Qed.

(** What redirections do to the table [m]. *)
Definition redirected (stds : list Z) (m m' : gmap Z O) : Prop :=
  fds_keep stds m m' /\ (forall fd, is_Some (m !! fd) -> is_Some (m' !! fd)) /\ (size m' <= size m + 2 * length stds)%nat.
Lemma size_insert_le (m : gmap Z O) i x : (size (<[i := x]> m) <= S (size m))%nat.
Proof. destruct (m !! i) eqn:E; [rewrite map_size_insert_Some by (by eexists); lia|by rewrite map_size_insert_None]. Qed.
Lemma redirect_table path flags msg std fd s fd' s' : 0 <= std -> redirect path flags msg std fd s = GDone (Some fd') s' ->
  same_shell s s' /\ redirected [std] (fds s) (fds s') /\
  (path = [] -> fd' = fd /\ fds s' = fds s) /\ (path <> [] -> 0 <= fd' /\ fds s !! fd' = None).
Proof.
  intros Hstd (S1 & [(-> & -> & ->)|(Hne & Hpos & Hn & o & Eo)])%redirect_done; [| |done].
  - split; [done|]. split; [split; [by intros ??|split; [done|simpl; lia]]|]. done.
  - split; [done|]. split; [|split; [by intros ->|done]]. rewrite Eo. split; [|split].
    + intros x ox Hx Hox. rewrite !lookup_insert_ne; [done|congruence|]. intros ->. apply Hx. by left.
    + intros x [ox Hox]. destruct (decide (x = std)) as [->|]; [rewrite lookup_insert_eq; by eexists|].
      rewrite !lookup_insert_ne by congruence. by eexists.
    + pose proof (size_insert_le (<[fd' := o]> (fds s)) std o). pose proof (size_insert_le (fds s) fd' o). simpl. lia.
Qed.
Lemma redirected_trans a b m1 m2 m3 : redirected a m1 m2 -> redirected b m2 m3 -> redirected (a ++ b) m1 m3.
Proof.
  intros (K1 & D1 & L1) (K2 & D2 & L2). split; [|split; [auto|rewrite length_app; lia]]. intros fd o Hfd Ho. apply K2; [|apply K1; [|done]]; intros ?; apply Hfd, elem_of_app; auto.
Qed.
Lemma redirected_none stds m m' fd : redirected stds m m' -> m' !! fd = None -> m !! fd = None.
Proof. intros (_ & HD & _) Hn. destruct (m !! fd) eqn:E; [|done]. destruct (HD fd) as [x Hx]; [by eexists|congruence]. Qed.

Lemma when_done b m s r s' : gwhen b m s = GDone r s' -> if b then m s = GDone r s' else s' = s :> gosh T.
Proof. destruct b; [done|]. by intros [= _ <-]. Qed.
Lemma close_done b fd s r s' : gwhen b (close fd) s = GDone r s' -> same_shell s s' /\ fds s' = if b then delete fd (fds s) else fds s.
Proof.
  intros Hw%when_done. destruct b; [|subst; split; [apply same_refl|done]]. unfold close in Hw. apply host_done in Hw as (_ & ? & E); [|intros; apply waited_close].
  split; [done|]. rewrite E. apply fdt_close.
Qed.
Lemma dup2_done b x y o s r s' : 0 <= y -> fds s !! x = Some o -> gwhen b (dup2 x y) s = GDone r s' ->
  same_shell s s' /\ fds s' = if b then <[y := o]> (fds s) else fds s.
Proof.
  intros Hy Hx Hw%when_done. destruct b; [|subst; split; [apply same_refl|done]]. unfold dup2 in Hw. apply host_done in Hw as (_ & ? & E); [|intros; apply waited_dup2].
  split; [done|]. rewrite E. by apply fdt_dup2.
Qed.
(** The end of [execCommand]: with the old input and output saved at [n0] and [n1], every
    descriptor of [m] is back. *)
Lemma restore_done fd1 fd2 n0 n1 p m o0 o1 s s' :
  m !! 0 = Some o0 -> m !! 1 = Some o1 -> m !! n0 = Some o0 -> m !! n1 = Some o1 -> n0 <> 0 -> n0 <> 1 -> n1 <> 0 -> n1 <> 1 ->
  fds_keep [0; 1] m (fds s) -> (pr_inp p = [] -> fds s !! 0 = Some o0) -> (pr_outp p = [] -> pr_append p = [] -> fds s !! 1 = Some o1) ->
  (0 <= fd1 -> m !! fd1 = None) -> (0 <= fd2 -> m !! fd2 = None) ->
  restore fd1 fd2 n0 n1 p s = GDone tt s' -> same_shell s s' /\ fds_keep [] m (fds s').
Proof.
  intros M0 M1 N0 N1 Hn0 Hn0' Hn1 Hn1' HK Hin Hout Hf1 Hf2 (? & s1 & R1 & (? & s2 & R2 & (? & s3 & R3 & R4)%gbind_done)%gbind_done)%gbind_done.
  apply close_done in R1 as [S1 F1], R2 as [S2 F2].
  assert (HC : forall fd o, m !! fd = Some o -> fds s2 !! fd = fds s !! fd).
  { intros fd o Ho. rewrite F2, F1. destruct (Z.leb_spec 0 fd1), (Z.leb_spec 0 fd2); rewrite ?lookup_delete_ne; try done;
      intros ->; first [specialize (Hf1 ltac:(lia)); congruence|specialize (Hf2 ltac:(lia)); congruence]. }
  assert (HN : forall n o, n <> 0 -> n <> 1 -> m !! n = Some o -> fds s2 !! n = Some o).
  { intros n o ? ? Ho. rewrite (HC n o Ho). apply HK; [|done]. intros [->|[->|[]%elem_of_nil]%elem_of_cons]%elem_of_cons; done. }
  apply (dup2_done _ _ _ o0) in R3 as [S3 F3]; [|lia|by apply HN].
  apply (dup2_done _ _ _ o1) in R4 as [S4 F4]; [|lia|rewrite F3; case_match; rewrite ?lookup_insert_ne by done; by apply HN].
  split; [do 3 (eapply same_trans; [eassumption|]); done|]. intros fd o _ Ho. rewrite F4, F3.
  assert (Z0 : (zlen (pr_inp p) =? 0) = bool_decide (pr_inp p = [])) by (by destruct (pr_inp p)).
  assert (Z1 : (negb (zlen (pr_outp p) =? 0) || negb (zlen (pr_append p) =? 0)) = negb (bool_decide (pr_outp p = [] /\ pr_append p = []))).
  { destruct (pr_outp p), (pr_append p); done. }
  rewrite Z0, Z1. destruct (decide (fd = 0)) as [->|]; [|destruct (decide (fd = 1)) as [->|]].
  - rewrite M0 in Ho. injection Ho as <-. repeat case_bool_decide; cbn [negb]; rewrite ?lookup_insert_ne, ?lookup_insert_eq by done; try done;
      rewrite (HC 0 o0 M0); by apply Hin.
  - rewrite M1 in Ho. injection Ho as <-. repeat case_bool_decide; cbn [negb]; rewrite ?lookup_insert_ne, ?lookup_insert_eq by done; try done;
      rewrite ?lookup_insert_ne, (HC 1 o1 M1) by done; apply Hout; naive_solver.
  - repeat case_bool_decide; cbn [negb]; rewrite ?lookup_insert_ne by done; by apply HN.
Qed.

Lemma same_usage cmd args s s' : same_shell s s' -> usage_error cmd args s' = usage_error cmd args s.
Proof. unfold same_shell. intros [-> _]. by destruct s. Qed.
Lemma same_grow s s' : same_shell s s' -> jobs_grow s s'.
Proof.
  unfold same_shell. destruct s as [? ? ? ? ? ? ? ? t], s' as [? ? ? ? ? ? ? ? t']. cbn. intros [[= -> -> -> -> -> -> -> ->] Hw].
  split; cbn; [by left|by rewrite Hw|done|done].
Qed.
Section Open.
Context (exec : Z -> bool -> list Z -> G (gosh T) unit) (rounds : nat).
Lemma dispatch_done X room cmd2 cmd p s b s' : dispatch exec rounds room cmd2 cmd p s = GDone b s' ->
  steady X s s' /\ b = negb (usage_error cmd (pr_args p) s).
Proof.
  intros E. pose proof (dispatch_ends exec rounds room cmd2 cmd p s) as Hb. unfold ends in Hb.
  assert (Hs : keeps True (steady X) (dispatch exec rounds room cmd2 cmd p)) by (apply keeps_dispatch; auto).
  specialize (Hs s). rewrite E in Hb, Hs. done.
Qed.
(** The two saved descriptors, and the table after the redirections. *)
Lemma saved_table o0 o1 n0 n1 s s1 s2 : (size (fds s) + 2 <= fd_limit)%nat -> fds s !! 0 = Some o0 -> fds s !! 1 = Some o1 ->
  host (k_dup 0) s = GDone n0 s1 -> host (k_dup 1) s1 = GDone n1 s2 ->
  same_shell s s2 /\ n0 <> n1 /\ n0 <> 0 /\ n0 <> 1 /\ n1 <> 0 /\ n1 <> 1 /\ fds s !! n0 = None /\ fds s !! n1 = None /\
  fds_keep [] (fds s) (fds s2) /\ fds s2 !! n0 = Some o0 /\ fds s2 !! n1 = Some o1 /\ size (fds s2) = (size (fds s) + 2)%nat.
Proof.
  intros Hl H0' H1' (S1 & P0 & N0 & F1)%(dup_done _ o0) D1; [|lia|done].
  assert (H1s : fds s1 !! 1 = Some o1) by (rewrite F1, lookup_insert_ne by congruence; done).
  apply (dup_done _ o1) in D1 as (S2 & P1 & N1 & F2); [|rewrite F1, map_size_insert_None by done; lia|done]. rewrite F1 in N1.
  assert (n0 <> n1) by (intros ->; by rewrite lookup_insert_eq in N1). rewrite lookup_insert_ne in N1 by done.
  split; [by eapply same_trans|]. do 5 (split; [congruence|]). split; [done|]. split; [done|].
  rewrite F2, F1. split; [|split; [by rewrite lookup_insert_ne, lookup_insert_eq|split; [by rewrite lookup_insert_eq|]]].
  2: { rewrite !map_size_insert_None; [lia|done|by rewrite lookup_insert_ne]. }
  intros fd o _ Ho. rewrite !lookup_insert_ne by congruence. done.
Qed.
Lemma fds_keep_mono X Y (m m' : gmap Z O) : X ⊆ Y -> fds_keep X m m' -> fds_keep Y m m'.
Proof. intros HX HK fd o Hfd. apply HK. by intros ?%HX. Qed.
Lemma fds_keep_trans X (m1 m2 m3 : gmap Z O) : fds_keep X m1 m2 -> fds_keep X m2 m3 -> fds_keep X m1 m3.
Proof. intros K1 K2 fd o Hfd Ho. eauto. Qed.

(** Opening one of the command's files fails, with the copies and the files before it open. *)
Definition open_failed (p : parsed) (m : gmap Z O) : Prop :=
  exists path flags t, path ∈ [pr_inp p; pr_outp p; pr_append p] /\ path <> [] /\ (size (fdt t) <= size m + 6)%nat /\
    (k_open path flags t).1 < 0.
Definition saved_copies (o0 o1 : O) (m m' : gmap Z O) : Prop :=
  exists n0 n1, n0 <> n1 /\ m !! n0 = None /\ m !! n1 = None /\ m' !! n0 = Some o0 /\ m' !! n1 = Some o1.
Lemma exec_words_done room cmd2 p s o0 o1 b s' : (size (fds s) + 2 <= fd_limit)%nat -> fds s !! 0 = Some o0 -> fds s !! 1 = Some o1 ->
  exec_words exec rounds room cmd2 p s = GDone b s' ->
  jobs_grow s s' /\
  (if b then usage_error (default [] (pr_cmd p)) (pr_args p) s = false /\ fds_keep [] (fds s) (fds s') /\ saved_copies o0 o1 (fds s) (fds s')
   else (open_failed p (fds s) \/ usage_error (default [] (pr_cmd p)) (pr_args p) s = true) /\ fds_keep [0; 1] (fds s) (fds s')).
Proof.
  intros Hl H0' H1' (n0 & s1 & D0 & (n1 & s2 & D1 & R)%gbind_done)%gbind_done.
  destruct (saved_table o0 o1 n0 n1 s s1 s2 Hl H0' H1' D0 D1) as (S2 & Hne & A0 & A1 & B0 & B1 & N0 & N1 & K2 & M0 & M1 & Hsz).
  pose proof (K2 0 o0 ltac:(by intros []%elem_of_nil) H0') as Z0. pose proof (K2 1 o1 ltac:(by intros []%elem_of_nil) H1') as Z1.
  assert (K2' : fds_keep [0; 1] (fds s) (fds s2)) by (eapply fds_keep_mono; [|done]; set_solver).
  apply gbind_done in R as ([fd1|] & s3 & R1 & R); cycle 1.
  { injection R as <- <-. apply redirect_done in R1 as (S3 & Hp & Hf & F3); [|done]. split; [eapply same_grow, same_trans; eauto|].
    split; [left; eexists _, _, _; (split; [|split; [exact Hp|split; [|exact Hf]]]); [set_solver|unfold fds in *; lia]|]. by rewrite F3. }
  apply redirect_table in R1 as (S3 & T3 & E3 & Q3); [|done]. assert (S3' := same_trans _ _ _ S2 S3).
  apply gbind_done in R as ([fd2|] & s4 & R2 & R); cycle 1.
  { injection R as <- <-. apply redirect_done in R2 as (S4 & Hp & Hf & F4); [|done]. split; [eapply same_grow, same_trans; eauto|].
    split; [left; eexists _, _, _; (split; [|split; [exact Hp|split; [|exact Hf]]]); [set_solver|destruct T3 as (_ & _ & L3); unfold fds in *; simpl in L3; lia]|]. rewrite F4. eapply fds_keep_trans; [done|]. eapply fds_keep_mono; [|apply T3]. set_solver. }
  apply redirect_table in R2 as (S4 & T4 & E4 & Q4); [|done]. assert (S4' := same_trans _ _ _ S3' S4).
  assert (T4' := redirected_trans _ _ _ _ _ T3 T4).
  apply gbind_done in R as ([fd3|] & s5 & R3 & R); cycle 1.
  { injection R as <- <-. apply redirect_done in R3 as (S5 & Hp & Hf & F5); [|done]. split; [eapply same_grow, same_trans; eauto|].
    split; [left; eexists _, _, _; (split; [|split; [exact Hp|split; [|exact Hf]]]); [set_solver|destruct T4' as (_ & _ & L4); unfold fds in *; simpl in L4; lia]|]. rewrite F5. eapply fds_keep_trans; [done|]. eapply fds_keep_mono; [|apply T4']. set_solver. }
  apply redirect_table in R3 as (S5 & T5 & E5 & Q5); [|done]. assert (S5' := same_trans _ _ _ S4' S5).
  assert (T5' := redirected_trans _ _ _ _ _ T4' T5). set (m := fds s2) in *.
  assert (K5 : fds_keep [0; 1] m (fds s5)) by (eapply fds_keep_mono; [|apply T5']; set_solver).
  apply gbind_done in R as (cmd & s6 & Rc & R). destruct (pr_cmd p) as [c|]; [|done]. injection Rc as <- <-. change (default [] (Some c)) with c.
  apply gbind_done in R as (e & s6 & R6 & R). apply (dispatch_done []) in R6 as [[J6 K6] Eb]. rewrite (same_usage _ _ _ _ S5') in Eb.
  assert (J : jobs_grow s s6) by (etransitivity; [by eapply same_grow|done]).
  destruct (usage_error c (pr_args p) s); subst e; cbn [negb] in R.
  { injection R as <- <-. split; [done|]. split; [by right|]. eapply fds_keep_trans; [done|]. eapply fds_keep_trans; [done|].
    eapply fds_keep_mono; [|exact K6]. set_solver. }
  apply gbind_done in R as ([] & s7 & R7 & R). injection R as <- <-.
  apply (restore_done fd1 fd3 n0 n1 p m o0 o1) in R7 as [S7 K7]; try done.
  - split; [etransitivity; [exact J|by apply same_grow]|]. split; [done|].
    assert (KN : forall n o, m !! n = Some o -> fds s7 !! n = Some o) by (intros n o Ho; apply K7; [by intros []%elem_of_nil|done]).
    split; [by eapply fds_keep_trans|]. exists n0, n1. do 3 (split; [done|]). split; by apply KN.
  - eapply fds_keep_trans; [exact K5|]. eapply fds_keep_mono; [|exact K6]. set_solver.
  - intros Hi. apply K6; [by intros []%elem_of_nil|]. destruct (E3 Hi) as [_ E3'].
    apply T5; [set_solver|]. apply T4; [set_solver|]. by rewrite E3'.
  - intros Ho Ha. apply K6; [by intros []%elem_of_nil|]. destruct (E4 Ho) as [_ E4']. destruct (E5 Ha) as [_ E5']. rewrite E5', E4'.
    apply T3; [set_solver|done].
  - intros Hf. destruct (decide (pr_inp p = [])) as [Hi|Hi]; [destruct (E3 Hi); lia|destruct (Q3 Hi) as [_ Q]; exact Q].
  - intros Hf. destruct (decide (pr_append p = [])) as [Ha|Ha].
    + destruct (E5 Ha) as [-> _]. destruct (decide (pr_outp p = [])) as [Ho|Ho]; [destruct (E4 Ho); lia|].
      eapply redirected_none; [exact T3|]. by apply Q4.
    + eapply redirected_none; [exact T4'|]. by apply Q5.
Qed.
(** The bound of the model is only used up by the two commands that wait. *)
Definition any (s s' : gosh T) : Prop := True.
Instance any_preorder : PreOrder any.
Proof. by split; [intros ?|intros ???]. Qed.
Lemma any_host {A} F (f : T -> A * T) : keeps F any (host f).
Proof. intros s. unfold host. by destruct (f (go_host s)). Qed.
Lemma exec_words_fuel room cmd2 p : keeps (waits (default [] (pr_cmd p))) any (exec_words exec rounds room cmd2 p).
Proof.
  unfold exec_words, restore, redirect, perror, sys, close, dup2. set (F := waits _).
  repeat (first [apply any_host|apply keeps_ret; apply _|apply keeps_when; [apply _|]|keep_step]).
  eapply (keeps_impl _ _ F (steady [])); [done|done|]. apply keeps_dispatch. unfold F. by rewrite H1.
Qed.
End Open.

(** The command as it is when its words are read. *)
Definition entered (in_history : bool) (s : gosh T) : gosh T := if in_history then set_history (cut_last (go_history s)) s else s.
Lemma entered_same in_history s : fds (entered in_history s) = fds s /\ (forall c a, usage_error c a (entered in_history s) = usage_error c a s) /\
  jobs_grow s (entered in_history s) /\ forall s', jobs_grow (entered in_history s) s' -> jobs_grow s s'.
Proof.
  destruct s, in_history; (split; [done|split; [done|split; [by split; [left| | |]|]]]); intros s' Hg; [|done]; split; apply Hg.
Qed.

End Descriptors.


(** A redirected usage error: the message and everything after it go to the file. *)
Example early_return_redirected : let s := demo_shell [] [] [] in
  match execCommand 0 1 0 false (codes "fg > out") s with
  | GDone _ s' => fds s' !! 1 = Some (codes "out")
  | _ => False
  end.
Proof. vm_compute. reflexivity. Qed.
(** [calloc(cmdLength, 1)] has no place for the NUL: 24 bytes are given for 24. *)
Example command_of_24_bytes : execCommand 0 1 0 false (codes "echo aaaaaaaaaaaaaaaaaaa") (demo_shell [] [] []) = GCrash "cmd2".
Proof. vm_compute. reflexivity. Qed.
(** A command that is only a redirection compares NULL. *)
Example only_redirection : execCommand 0 1 0 false (codes "> out") (demo_shell [] [] []) = GCrash "cmd".
Proof. vm_compute. reflexivity. Qed.
(** One up arrow after an up and a down arrow reads past the last command. *)
Example arrows_offset_zero : execCommand 0 1 0 false ([27; 91; 65] ++ [27; 91; 66]) (demo_shell [] [] []) = GCrash "commandHistory".
Proof. vm_compute. reflexivity. Qed.
