(* ===== verification/GoshJobs.v ===== *)
(** * The Linux shell: job numbers, and the directory it shows

    Everything the shell does keeps the numbers of its jobs; the prompt's path stands for
    the directory the shell was in when it last looked. *)
From S2P Require Import Prelude CString Printf Gosh GoshSpec GoshSys GoshExec GoshLaws GoshDemo GoshExecSpec GoshFds.

Section Jobs.
Context {T O : Type} `{HostLaws T O} (rounds : nat).

(** ** Pipelines and arrows *)

Section Open.
Context (exec : Z -> bool -> list Z -> G (gosh T) unit).
Hypothesis exec_keeps : forall X r h c, 0 ∈ X -> 1 ∈ X -> keeps True (steady X) (exec r h c).

Lemma pipe_of_in (X : list Z) e o b : e.1 ∈ X -> e.2 ∈ X -> o.1 ∈ X -> o.2 ∈ X -> (pipe_of e o b).1 ∈ X /\ (pipe_of e o b).2 ∈ X.
Proof. by destruct b. Qed.
Lemma keeps_pipe_loop cmds n k : forall X i e o, 0 ∈ X -> 1 ∈ X -> e.1 ∈ X -> e.2 ∈ X -> o.1 ∈ X -> o.2 ∈ X ->
  keeps True (steady X) (pipe_loop exec k cmds n i e o).
Proof.
  induction k as [|k IH]; intros X i e o HX0 HX1 He1 He2 Ho1 Ho2; cbn [pipe_loop]; [gkeep|].
  apply keeps_pipe; [intros a b|gkeep]. cbv zeta. set (Y := a :: b :: X).
  set (e' := if Z.odd i then e else (a, b)). set (o' := if Z.odd i then (a, b) else o).
  assert (HY : forall x, x ∈ X -> x ∈ Y) by (intros x Hx; by do 2 right).
  assert (HP : e'.1 ∈ Y /\ e'.2 ∈ Y /\ o'.1 ∈ Y /\ o'.2 ∈ Y).
  { unfold e', o', Y. destruct (Z.odd i); cbn; repeat split; auto using list_elem_of_here, list_elem_of_further. }
  destruct HP as (E1 & E2 & O1 & O2).
  destruct (pipe_of_in Y e' o' (Z.odd i) E1 E2 O1 O2) as [_ P2]. destruct (pipe_of_in Y e' o' (negb (Z.odd i)) E1 E2 O1 O2) as [Q1 _].
  apply keeps_bind; [apply _|gkeep|intros pid]. destruct (pid <? 0); [gkeep|]. destruct (pid =? 0).
  - apply keeps_never; [done|]. repeat (apply never_bind; intros ?). apply never_exit.
  - apply keeps_bind; [apply _|gkeep|intros _]. apply keeps_bind; [apply _| |intros _; apply IH; auto].
    destruct (i =? 0); [by apply keeps_close|]. destruct (i =? n - 1); [by apply keeps_close|].
    apply keeps_bind; [apply _|by apply keeps_close|intros _; by apply keeps_close].
Qed.
Lemma keeps_handlePipelining X c n : 0 ∈ X -> 1 ∈ X -> keeps True (steady X) (handlePipelining exec c n).
Proof. intros ? ?. unfold handlePipelining. cbv zeta. apply keeps_bind; [apply _|gkeep|intros _]. by apply keeps_pipe_loop. Qed.
Lemma keeps_handleArrows X c : 0 ∈ X -> 1 ∈ X -> keeps True (steady X) (handleArrows exec c).
Proof. intros ? ?. unfold handleArrows. gkeep. Qed.
(** A redirection: its descriptor may be closed by what follows. *)
Lemma keeps_redirect {A} X path flags msg std fd0 (k : option Z -> G (gosh T) A) : 0 <= std -> std ∈ X -> fd0 ∈ X \/ fd0 < 0 ->
  (forall fd, keeps True (steady (fd :: X)) (k (Some fd))) -> keeps True (steady X) (k None) ->
  keeps True (steady X) (gbind (redirect path flags msg std fd0) k).
Proof.
  intros Hstd HX Hfd0 Hs Hn s. unfold gbind. destruct (redirect path flags msg std fd0 s) as [[fd|] s1| | | | |] eqn:E; try done;
    apply redirect_done in E as [S1 E]; try done.
  - specialize (Hs fd s1). destruct (k (Some fd) s1) as [a s2| | | | |]; try done. destruct Hs as [J K].
    split; [etransitivity; [by apply same_grow|exact J]|]. intros x ox Hx Hox. destruct E as [(_ & -> & ->)|(_ & Hpos & Hnone & o & Eo)].
    + apply K; [|done]. intros [->|?]%elem_of_cons; [|done]. destruct Hfd0 as [|Hneg]; [done|]. unfold fds in Hox. by rewrite fdt_negative in Hox.
    + apply K; [intros [->|?]%elem_of_cons; [congruence|done]|]. rewrite Eo, !lookup_insert_ne; [done|congruence|]. by intros <-.
  - specialize (Hn s1). destruct (k None s1) as [a s2| | | | |]; try done. destruct Hn as [J K], E as (_ & _ & Ef).
    split; [etransitivity; [by apply same_grow|exact J]|]. by rewrite Ef in K.
Qed.
Lemma keeps_restore X fd1 fd2 a b p : 0 ∈ X -> 1 ∈ X -> fd1 ∈ X -> fd2 ∈ X -> keeps True (steady X) (restore fd1 fd2 a b p).
Proof. intros. unfold restore. repeat (first [by apply keeps_close|by apply keeps_dup2|apply keeps_when; [apply _|]|keep_step]). Qed.
Lemma keeps_exec_words X room cmd2 p : 0 ∈ X -> 1 ∈ X -> keeps True (steady X) (exec_words exec rounds room cmd2 p).
Proof.
  intros HX0 HX1. unfold exec_words. do 2 (apply keeps_bind; [apply _|gkeep|intros ?]).
  apply keeps_redirect; [done|done|by right|intros fd1|gkeep].
  apply keeps_redirect; [done|by right|by right|intros fd2|gkeep].
  apply keeps_redirect; [done|by do 2 right|left; by left|intros fd3|gkeep].
  gkeep. apply keeps_restore; set_solver.
Qed.
Lemma keeps_body X room h c : 0 ∈ X -> 1 ∈ X -> keeps True (steady X) (execCommand_body exec rounds room h c).
Proof.
  intros ? ?. unfold execCommand_body. destruct (_ =? 27); [by apply keeps_handleArrows|]. cbv zeta.
  apply keeps_bind; [apply _|gkeep|intros _]. destruct (negb _); [by apply keeps_handlePipelining|].
  apply keeps_bind_some. intros p _. apply keeps_bind; [apply _| |intros _].
  - apply keeps_when; [apply _|]. gkeep.
  - apply keeps_bind; [apply _|by apply keeps_exec_words|intros _; gkeep].
Qed.
End Open.
Lemma keeps_execCommand fuel : forall X room h c, 0 ∈ X -> 1 ∈ X -> keeps True (steady X) (execCommand rounds fuel room h c).
Proof. induction fuel as [|fuel IH]; intros X room h c HX0 HX1; cbn [execCommand]; [done|]. by apply keeps_body. Qed.

(** ** Turns of the shell *)

Lemma keeps_read_line X n : keeps True (steady X) (read_line n).
Proof. induction n as [|n IH]; cbn [read_line]; gkeep. Qed.
Hint Resolve keeps_read_line : gosh.
Lemma keeps_exec_all fuel X room cs : 0 ∈ X -> 1 ∈ X -> keeps True (steady X) (exec_all (execCommand rounds fuel) room cs).
Proof.
  intros ? ?. induction cs as [|c cs IH]; cbn [exec_all]; [gkeep|]. apply keeps_bind; [apply _|by apply keeps_execCommand|done].
Qed.
Lemma keeps_inputter fuel X : 0 ∈ X -> 1 ∈ X -> keeps True (steady X) (inputter rounds fuel).
Proof.
  intros ? ?. unfold inputter, take_input. apply keeps_bind; [apply _|gkeep|intros _]. apply keeps_bind; [apply _|gkeep|intros [len cs]].
  apply keeps_bind; [apply _|by apply keeps_exec_all|intros _; gkeep].
Qed.
(** What the report of a child's end does to the job table: nothing. *)
Definition same_ids (s s' : gosh T) : Prop := pendingIDs s' = pendingIDs s.
#[local] Instance same_ids_preorder : PreOrder same_ids.
Proof. split; [by intros ?|]. unfold same_ids. intros s1 s2 s3 ? ?. congruence. Qed.
Lemma same_ids_host {A} (f : T -> A * T) : keeps False same_ids (host f).
Proof. intros s. unfold host. destruct (f (go_host s)). by destruct s. Qed.
Lemma same_ids_print l : keeps False same_ids (print l).
Proof. unfold print, sys. apply keeps_bind; [apply _|apply same_ids_host|intros ?]. apply keeps_ret. apply _. Qed.
Lemma same_ids_mod f : (forall s, pendingIDs (f s) = pendingIDs s) -> keeps False same_ids (gmod f).
Proof. intros Hf s. exact (Hf s). Qed.
Hint Resolve same_ids_host same_ids_print : gosh.
Hint Extern 2 (keeps _ same_ids (gmod _)) => apply same_ids_mod; intros []; done : gosh.
Hint Extern 2 (keeps _ same_ids (look _)) => intros s; unfold look; reflexivity : gosh.
Lemma same_ids_printPrompt : keeps False same_ids printPrompt.
Proof. unfold printPrompt, printMachine, printPWD, updatePWD. keep. Qed.
Hint Resolve same_ids_printPrompt : gosh.
(** A child ends: the numbers of the process waited for are cleared, and no other. *)
Lemma childTermination_done X s s' : childTermination s = GDone tt s' ->
  steady X s s' /\ pendingIDs s' = let pid := (k_waitpid (-1) WNOHANG (go_host s)).1.1 in
    if pid <=? 0 then pendingIDs s else (forget_job pid (pendingIDs s) (pendingNames s)).1.
Proof.
  unfold childTermination. intros ([pid st] & s1 & E1 & E)%gbind_done. unfold host in E1.
  pose proof (waited_waitpid (-1) WNOHANG (go_host s)) as Hw. pose proof (fdt_waitpid (-1) WNOHANG (go_host s)) as Hf.
  destruct (k_waitpid (-1) WNOHANG (go_host s)) as [[r rst] t]. cbn [fst snd] in *. injection E1 as -> -> <-.
  assert (H1 : steady X s (set_host t s)) by (apply steady_host; [by apply keep_same|rewrite Hw; set_solver]).
  assert (Hp : pid ∈ waited (go_host (set_host t s))) by (destruct s; cbn; rewrite Hw; set_solver).
  destruct (Z.leb_spec pid 0) as [|Hpos]; [injection E as <-; split; [done|by destruct s]|].
  apply gbind_done in E as (s2 & s3 & E2 & E). injection E2 as <- <-.
  pose proof (forget_steady X pid _ Hp) as H2.
  replace (forget_job pid (pendingIDs s) (pendingNames s)) with (forget_job pid (pendingIDs (set_host t s)) (pendingNames (set_host t s))) by by destruct s.
  destruct (forget_job pid (pendingIDs (set_host t s)) (pendingNames (set_host t s))) as [ids naam]. cbn [fst] in *.
  apply gbind_done in E as (u & s4 & E3 & E). injection E3 as _ <-. set (s4 := set_jobs ids _ _) in *.
  match type of E with ?m s4 = _ => assert (H3 : keeps False (steady X) m) by gkeep; assert (H4 : keeps False same_ids m) by keep end.
  specialize (H3 s4). specialize (H4 s4). rewrite E in H3, H4. unfold same_ids in H4.
  split; [by transitivity (set_host t s); [|transitivity s4]|]. rewrite H4. unfold s4. by destruct s.
Qed.

(** The shell reads a line and executes its commands, or a child ends. *)
Inductive shell_step (fuel : nat) : gosh T -> gosh T -> Prop :=
| step_line s s' : inputter rounds fuel s = GDone tt s' -> shell_step fuel s s'
| step_child s s' : childTermination s = GDone tt s' -> shell_step fuel s s'.
Lemma shell_step_steady fuel s s' : shell_step fuel s s' -> steady [0; 1] s s'.
Proof.
  destruct 1 as [s s' E|s s' E].
  - pose proof (keeps_inputter fuel [0; 1] ltac:(by left) ltac:(right; by left) s) as Hk. by rewrite E in Hk.
  - by apply (childTermination_done [0; 1]) in E as [? _].
Qed.

(** C21: job numbers. Whatever lines are typed (built-in commands, programs, pipelines, arrows)
    and however children end in between, as long as each turn returns: a job number goes on
    standing for its process until it is cleared, which happens only to the number of a
    process the shell has waited for, and is never given to another one; the names stay with
    their numbers; no descriptor but the two standard ones is lost. When a child ends, the
    numbers of exactly that process are cleared. The code does not count the jobs against
    the 100 places it has for them: while turns return there are at most 100, and the 101st
    is stored outside the arrays, what follows is not said. *)
Theorem jobs_stable fuel s s' : rtc (shell_step fuel) s s' ->
  (forall i id, pendingIDs s !! i = Some id ->
     pendingIDs s' !! i = Some id \/ pendingIDs s' !! i = Some 0 /\ id ∈ waited (go_host s')) /\
  (pendingNames s `prefix_of` pendingNames s') /\ (jobs_ok s -> jobs_ok s') /\ fds_keep [0; 1] (fds s) (fds s') /\
  (forall s2, childTermination s' = GDone tt s2 ->
     let pid := (k_waitpid (-1) WNOHANG (go_host s')).1.1 in
     0 < pid -> jobs_ok s ->
     pendingIDs s2 = (fun id => if id =? pid then 0 else id) <$> pendingIDs s') /\
  (forall id name, JOBS <= zlen (pendingIDs s') -> add_job id name s' = GCrash "pendingIDs").
Proof.
  intros Hr. assert (Hs : steady [0; 1] s s').
  { induction Hr as [s|s1 s2 s3 H1 _ IH]; [done|]. transitivity s2; [by eapply shell_step_steady|done]. }
  destruct Hs as [[J1 JW J2 J3] K]. do 4 (split; [done|]). split.
  - intros s2 E pid Hpos [Hl _]%J3. apply (childTermination_done []) in E as [_ ->]. fold pid. cbv zeta.
    rewrite (proj2 (Z.leb_gt _ _)) by done. apply forget_all. by rewrite Hl.
  - intros id name Hfull. unfold add_job, gbind, gget, store_at. by rewrite (proj2 (Z.ltb_ge _ _)), andb_false_r.
Qed.
End Jobs.
(** "sleep 9 &" is typed, process 7 is job 1, and then it ends. *)
Definition after {T} (m : G (gosh T) unit) (s : gosh T) : gosh T := match m s with GDone _ s' => s' | _ => s end.
Lemma jobs_stable_witness :
  let s := demo_shell [7] [(7, 0)] (codes "sleep 9 &" ++ [10]) in
  let s1 := after (inputter 0 3) s in let s2 := after childTermination s1 in
  pendingIDs s = [] /\ pendingIDs s1 = [7] /\ pendingNames s1 = [codes "sleep 9 &"] /\
  pendingIDs s2 = (fun id => if id =? 7 then 0 else id) <$> [7] /\
  (exists names, pendingNames s1 = pendingNames s ++ names) /\ fds_keep [0; 1] (fds s) (fds s1).
Proof.
  intros s s1 s2.
  assert (Hr : rtc (shell_step 0 3) s s1) by (apply rtc_once, step_line; vm_compute; reflexivity).
  destruct (jobs_stable 0 3 s s1 Hr) as (_ & H2 & _ & H4 & H5 & _).
  split; [vm_compute; reflexivity|]. split; [vm_compute; reflexivity|]. split; [vm_compute; reflexivity|].
  split; [|by split]. etransitivity; [apply (H5 s2); [vm_compute; reflexivity|vm_compute; reflexivity|by split]|vm_compute; reflexivity].
Defined.

(** ** The directory shown *)

Section Dirs.
Context {T O : Type} `{HostLaws T O}.

(** A path as [getcwd] gives it: [/] or names after slashes. *)
Definition path_of (comps : list (list Z)) : list Z := match comps with [] => [47] | _ => comps ≫= fun c => 47 :: c end.
Definition component (c : list Z) : Prop := c <> [] /\ Forall (fun x => x <> 47) c.
Lemma component_avoids c : component c -> c <> [] /\ avoids [47] c.
Proof.
  intros [Hne Hc]. split; [done|]. eapply Forall_impl; [exact Hc|]. intros x Hx. cbn. by rewrite (proj2 (Z.eqb_neq _ _)).
Qed.
Lemma strtok_slashes comps : Forall component comps -> strtok [47] (path_of comps) = comps.
Proof.
  intros Hc. destruct comps as [|c comps]; [done|]. cbn [path_of mbind list_bind app]. unfold strtok. cbn [strtok_from existsb]. rewrite Z.eqb_refl. cbn [orb].
  assert (HT : forall cs cur, Forall component cs -> cur <> [] -> strtok_from [47] cur (cs ≫= fun c => 47 :: c) = cur :: cs).
  { induction cs as [|c' cs IH]; intros cur Hcs Hcur; cbn [mbind list_bind app strtok_from]; [by destruct cur|].
    inversion Hcs as [|? ? H1 H2]; subst. cbn [existsb]. rewrite Z.eqb_refl. cbn [orb]. destruct (component_avoids _ H1) as [Hne Ha].
    destruct cur; [done|]. f_equal. rewrite strtok_from_word by done. by apply IH. }
  inversion Hc as [|? ? H1 H2]; subst. destruct (component_avoids _ H1) as [Hne Ha]. rewrite strtok_from_word by done. by apply HT.
Qed.
Lemma is_home_prefix home : forall curr, is_home home curr = true <-> home `prefix_of` curr.
Proof.
  induction home as [|h home IH]; intros [|c curr]; cbn [is_home].
  - split; [|done]. intros _. apply prefix_nil.
  - split; [|done]. intros _. apply prefix_nil.
  - split; [done|]. by intros ?%prefix_nil_not.
  - destruct (bool_decide_reflect (c = h)) as [->|Hne]; unfold str_eq.
    + rewrite bool_decide_eq_true_2 by done. cbn [negb]. rewrite IH. split; [apply prefix_cons|apply prefix_cons_inv_2].
    + rewrite bool_decide_eq_false_2 by done. cbn [negb]. split; [done|]. intros Hp%prefix_cons_inv_1. congruence.
Qed.
Lemma initDirSetup_run b comps (s : gosh T) : Forall component comps -> zlen comps <= 100 -> k_getcwd (go_host s) = path_of comps ->
  exists s', initDirSetup b s = GDone tt s' /\ currDirectories s' = comps /\ currDirString s' = (comps ≫= fun c => 47 :: c) /\
    go_host s' = go_host s /\ homeDirPath s' = (if b then comps else homeDirPath s) /\
    expectedHomeDir s' = (if b then path_of comps else expectedHomeDir s).
Proof.
  intros Hc Hlen Hcwd. unfold initDirSetup, look, gcheck, updatePWD, gmod, gwhen, gbind. rewrite Hcwd, strtok_slashes, (proj2 (Z.leb_le _ _)) by done.
  destruct s, b; cbn; eexists; done.
Qed.

(** A leading [~] stands for the home directory. *)
Definition expand (home l : list Z) : list Z := match l with 126 :: r => home ++ r | _ => l end.
(** The path in the prompt. The shell started in [home] and is now in [cwd]: what it
    prints, with [~] read as the home directory, is the current directory; the [~] is used
    exactly at and below the home directory; [pwd] prints the whole path. (In the root
    directory the path printed is empty.) *)
Theorem pwd_text_roundtrip home cwd (s : gosh T) t :
  Forall component home -> Forall component cwd -> home <> [] -> zlen home <= 100 -> zlen cwd <= 100 ->
  k_getcwd (go_host s) = path_of home -> k_getcwd t = path_of cwd ->
  exists s1 s2, initDirSetup true s = GDone tt s1 /\ initDirSetup false (set_host t s1) = GDone tt s2 /\
    pwd_text true s2 = (cwd ≫= fun c => 47 :: c) /\
    expand (path_of home) (pwd_text false s2) = (cwd ≫= fun c => 47 :: c) /\
    (head (pwd_text false s2) = Some 126 <-> home `prefix_of` cwd).
Proof.
  intros Hh Hc Hne Lh Lc Eh Ec. destruct (initDirSetup_run true home s Hh Lh Eh) as (s1 & R1 & _ & _ & _ & P1 & _).
  destruct (initDirSetup_run false cwd (set_host t s1) Hc Lc) as (s2 & R2 & C2 & S2 & _ & P2 & _); [by destruct s1|].
  assert (P : homeDirPath s2 = home) by (rewrite P2, <-P1; by destruct s1).
  exists s1, s2. split; [done|]. split; [done|]. unfold pwd_text, currDirIsHome. rewrite C2, S2, P. cbn [negb]. rewrite andb_false_r, andb_true_r.
  split; [done|]. destruct (is_home home cwd) eqn:E.
  - apply is_home_prefix in E as [rest ->]. rewrite drop_app_length. split; [|split; [|done]; intros _; by apply prefix_app_r].
    cbn [expand]. unfold path_of. destruct home; [done|]. by rewrite bind_app.
  - split.
    + destruct cwd; done.
    + split; [destruct cwd; done|]. intros Hp%is_home_prefix. congruence.
Qed.
End Dirs.
Lemma pwd_text_roundtrip_witness : let s := demo_shell [] [] [] in
  let s' := set_host (Demo tty_fds [] [] (codes "/home/me/src") [] [] [] [] []) (after (initDirSetup true) s) in
  pwd_text false (after (initDirSetup false) s') = codes "~/src" /\
  expand (codes "/home/me") (pwd_text false (after (initDirSetup false) s')) = codes "/home/me/src".
Proof.
  intros s s'. split; [vm_compute; reflexivity|].
  assert (C : Forall component [codes "home"; codes "me"; codes "src"]).
  { repeat (apply Forall_cons; split); try apply Forall_nil_2; (split; [discriminate|apply (bool_decide_unpack _); vm_compute; exact I]). }
  destruct (pwd_text_roundtrip [codes "home"; codes "me"] [codes "home"; codes "me"; codes "src"] s (Demo tty_fds [] [] (codes "/home/me/src") [] [] [] [] [])
    (proj1 (proj1 (Forall_app _ [_; _] [_]) C)) C ltac:(discriminate) ltac:(discriminate) ltac:(discriminate) eq_refl eq_refl)
    as (s1 & s2 & R1 & R2 & _ & H & _).
  assert (E1 : after (initDirSetup true) s = s1) by (unfold after; by rewrite R1).
  assert (E2 : after (initDirSetup false) s' = s2) by (unfold s'; rewrite E1; unfold after; by rewrite R2).
  rewrite E2. exact H.
Defined.

(** [cd ~/x] for an [x] that is not there: the process is in the home directory, and the
    shell goes on showing where it was. *)
Example cd_home_missing :
  let s := set_host (Demo tty_fds [] [codes "/home/me"] (codes "/tmp") [] [] [] [] []) (demo_shell [] [] []) in
  let s1 := after (initDirSetup false) s in let s2 := after (changeDirectory (codes "~/x")) s1 in
  dm_cwd (go_host s2) = codes "/home/me" /\ currDirString s2 = codes "/tmp".
Proof. vm_compute. done. Qed.
(** [ls /tmp] in the root directory: the way back is [chdir("")], and the process stays in
    /tmp. *)
Example ls_in_root :
  let s := set_host (Demo tty_fds [] [codes "/tmp"] [47] [] [] [] [] []) (demo_shell [] [] []) in
  let s1 := after (initDirSetup false) s in let s2 := after (ls (codes "/tmp") false false) s1 in
  dm_cwd (go_host s2) = codes "/tmp" /\ currDirString s2 = [].
Proof. vm_compute. done. Qed.
