(* ===== verification/Boot.v ===== *)
(** * Before the kernel runs: bootmain.c, and finding the processors: mp.c

    The boot loader copies an ELF image from the disk to memory through the IDE ports;
    [mpinit] reads the tables that the firmware left in memory. Memory is [mem]; the
    hardware behind the ports is the parameter [Bus]. Addresses are taken to stay below 2^32. *)
From S2P Require Import Prelude Param CString Printf Kalloc Exec.

(** ** Ports and device registers: x86.h

    What the drivers do to hardware: input and output instructions, and loads and stores of
    device registers. The hardware is a parameter. *)
Class Bus (S : Type) := {
  bus_in : Z -> S -> Z * S;
  bus_out : Z -> Z -> S -> S;
  (** [insl(port, _, cnt)]: the bytes of [cnt] words. *)
  bus_insl : Z -> Z -> S -> list Z * S;
  (** [outsl]: the bytes that are sent. *)
  bus_outsl : Z -> list Z -> S -> S;
  (** Loads and stores of a 32-bit register at a physical address. *)
  bus_load : Z -> S -> Z * S;
  bus_store : Z -> Z -> S -> S
}.

Section Bus.
Context {S : Type} `{Bus S}.
Definition inb (port : Z) : M S Z := fun s => let (x, s) := bus_in port s in Ret (u8 x) s.
Definition outb (port data : Z) : M S unit := modify (bus_out port (u8 data)).
Definition insl (port cnt : Z) : M S (list Z) := fun s => let (l, s) := bus_insl port cnt s in Ret l s.
Definition outsl (port : Z) (data : list Z) : M S unit := modify (bus_outsl port data).
Definition load (addr : Z) : M S Z := fun s => let (x, s) := bus_load addr s in Ret (u32 x) s.
Definition store (addr data : Z) : M S unit := modify (bus_store addr (u32 data)).
End Bus.

(** The bytes of [l] stored from [a]. *)
Fixpoint blit (m : mem) (a : Z) (l : list Z) : mem :=
  match l with [] => m | x :: l => blit (upd m a x) (a + 1) l end.
Lemma blit_spec l : forall m a x, blit m a l x = if in_range x a (zlen l) then znth l (x - a) else m x.
Proof.
  induction l as [|y l IH]; intros m a x; cbn [blit]; [unfold in_range, zlen; cbn [length]; destruct (_ && _) eqn:E; [lia|done]|].
  rewrite IH. unfold in_range, zlen. cbn [length]. destruct (decide (x = a)) as [->|Hne].
  - rewrite upd_eq. replace (a - a) with 0 by lia. replace ((a + 1 <=? a) && _) with false by lia.
    replace ((a <=? a) && (a <? a + Z.of_nat (S (length l)))) with true by lia. done.
  - rewrite upd_ne by done. replace ((a <=? x) && (x <? a + Z.of_nat (S (length l)))) with ((a + 1 <=? x) && (x <? a + 1 + Z.of_nat (length l))) by lia.
    destruct ((a + 1 <=? x) && _) eqn:E; [|done]. unfold znth. rewrite !(proj2 (Z.ltb_ge _ _)) by lia.
    by replace (Z.to_nat (x - a)) with (S (Z.to_nat (x - (a + 1)))) by lia.
Qed.

(** Memory and the hardware. *)
Record machine (S : Type) := Machine { mc_mem : mem; mc_bus : S }.
Arguments Machine {S}.
Arguments mc_mem {S}.
Arguments mc_bus {S}.

Section Boot.
Context {S : Type} `{Bus S}.
Definition bus_lens : lens (machine S) S := Lens mc_bus (fun b s => Machine (mc_mem s) b).
Definition on_mem (f : mem -> mem) : M (machine S) unit := modify (fun s => Machine (f (mc_mem s)) (mc_bus s)).

(** ** bootmain.c *)

Definition SECTSIZE : Z := 512.
(** At most [polls] reads of the status. *)
Fixpoint waitdisk (polls : nat) : M S unit :=
  match polls with
  | O => fun _ => NoFuel
  | Datatypes.S polls => let! st := inb 503 in if negb (Z.land st 192 =? 64) then waitdisk polls else ret tt
  end.
Section Polls.
Variable polls : nat.
Definition readsect (dst offset : Z) : M (machine S) unit :=
  zoom bus_lens (waitdisk polls) ;;;
  zoom bus_lens (outb 498 1) ;;;
  zoom bus_lens (outb 499 offset) ;;;
  zoom bus_lens (outb 500 (Z.shiftr offset 8)) ;;;
  zoom bus_lens (outb 501 (Z.shiftr offset 16)) ;;;
  zoom bus_lens (outb 502 (Z.lor (Z.shiftr offset 24) 224)) ;;;
  zoom bus_lens (outb 503 32) ;;;
  zoom bus_lens (waitdisk polls) ;;;
  let! data := zoom bus_lens (insl 496 (SECTSIZE / 4)) in
  on_mem (fun m => blit m dst data).
(** [k] sectors at most. *)
Fixpoint readseg_loop (k : nat) (pa epa offset : Z) : M (machine S) unit :=
  match k with
  | O => ret tt
  | Datatypes.S k => if pa <? epa then readsect pa offset ;;; readseg_loop k (pa + SECTSIZE) epa (offset + 1) else ret tt
  end.
Definition readseg (pa count offset : Z) : M (machine S) unit :=
  let epa := pa + count in
  let pa := pa - offset mod SECTSIZE in
  let offset := offset / SECTSIZE + 1 in
  readseg_loop (Z.to_nat ((epa - pa + SECTSIZE - 1) / SECTSIZE)) pa epa offset.
(** The fields of a program header at [ph]. *)
Definition ph_off_at (m : mem) (ph : Z) : Z := ld32 m (ph + 4).
Definition ph_paddr_at (m : mem) (ph : Z) : Z := ld32 m (ph + 12).
Definition ph_filesz_at (m : mem) (ph : Z) : Z := ld32 m (ph + 16).
Definition ph_memsz_at (m : mem) (ph : Z) : Z := ld32 m (ph + 20).
Fixpoint load_loop (k : nat) (ph : Z) : M (machine S) unit :=
  match k with
  | O => ret tt
  | Datatypes.S k =>
    let! m := gets mc_mem in
    let pa := ph_paddr_at m ph in
    readseg pa (ph_filesz_at m ph) (ph_off_at m ph) ;;;
    let! m := gets mc_mem in
    when (ph_filesz_at m ph <? ph_memsz_at m ph)
      (on_mem (fun m => stosb m (pa + ph_filesz_at m ph) 0 (Z.to_nat (ph_memsz_at m ph - ph_filesz_at m ph)))) ;;;
    load_loop k (ph + 32)
  end.
Definition ELF_SCRATCH : Z := 65536.
(** The entry point that is called, or [None] when it returns. *)
Definition bootmain : M (machine S) (option Z) :=
  let elf := ELF_SCRATCH in
  readseg elf 4096 0 ;;;
  let! m := gets mc_mem in
  if negb (ld32 m elf =? ELF_MAGIC) then ret None
  else
  load_loop (Z.to_nat (m (elf + 44) + 256 * m (elf + 45))) (elf + ld32 m (elf + 28)) ;;;
  let! m := gets mc_mem in ret (Some (ld32 m (elf + 24))).
End Polls.

(** ** mp.c *)

Definition NCPU : Z := 8.
Fixpoint sum_loop (m : mem) (addr : Z) (n : nat) : Z :=
  match n with O => 0 | Datatypes.S n => m addr + sum_loop m (addr + 1) n end.
Definition sum (m : mem) (addr len : Z) : Z := u8 (sum_loop m addr (Z.to_nat len)).
(** [memcmp(p, s, |s|) == 0] *)
Fixpoint begins (m : mem) (p : Z) (s : list Z) : bool :=
  match s with [] => true | c :: s => (m p =? c) && begins m (p + 1) s end.
Definition MPSIZE : Z := 16.
Definition mp_ok (m : mem) (p : Z) : bool := begins m p (codes "_MP_") && (sum m p MPSIZE =? 0).
Fixpoint mpsearch_loop (m : mem) (p : Z) (k : nat) : option Z :=
  match k with
  | O => None
  | Datatypes.S k => if mp_ok m p then Some p else mpsearch_loop m (p + MPSIZE) k
  end.
Definition mpsearch1 (m : mem) (a len : Z) : option Z := mpsearch_loop m (P2V a) (Z.to_nat ((len + MPSIZE - 1) / MPSIZE)).
Definition mpsearch (m : mem) : option Z :=
  let bda := P2V 1024 in
  let p := u32 (Z.shiftl (Z.lor (Z.shiftl (m (bda + 15)) 8) (m (bda + 14))) 4) in
  let r :=
    if negb (p =? 0) then mpsearch1 m p 1024
    else
      let p := u32 (Z.lor (Z.shiftl (m (bda + 20)) 8) (m (bda + 19)) * 1024) in
      mpsearch1 m (u32 (p - 1024)) 1024 in
  match r with Some mp => Some mp | None => mpsearch1 m 983040 65536 end.
(** [struct mpconf]: the length, and the local APIC's address. *)
Definition conf_length (m : mem) (conf : Z) : Z := m (conf + 4) + 256 * m (conf + 5).
Definition conf_version (m : mem) (conf : Z) : Z := m (conf + 6).
Definition conf_lapicaddr (m : mem) (conf : Z) : Z := ld32 m (conf + 36).
Definition MPCONFSIZE : Z := 44.
(** The pointer structure and the configuration table. *)
Definition mpconfig (m : mem) : option (Z * Z) :=
  match mpsearch m with
  | None => None
  | Some mp =>
    if ld32 m (mp + 4) =? 0 then None
    else
    let conf := P2V (ld32 m (mp + 4)) in
    if negb (begins m conf (codes "PCMP")) then None
    else if negb (conf_version m conf =? 1) && negb (conf_version m conf =? 4) then None
    else if negb (sum m conf (conf_length m conf) =? 0) then None
    else Some (mp, conf)
  end.
Definition MPPROC : Z := 0.
Definition MPBUS : Z := 1.
Definition MPIOAPIC : Z := 2.
Definition MPIOINTR : Z := 3.
Definition MPLINTR : Z := 4.
(** [cpus[i].apicid] for [i < ncpu], [ioapicid], [lapic]. *)
Record mpstate := Mp { mp_cpus : list Z; mp_ioapicid : Z; mp_lapic : Z }.
(** [None]: the loop does not end within [fuel] turns. *)
Fixpoint mp_entries (fuel : nat) (m : mem) (p e : Z) (ismp : bool) (s : mpstate) : option (bool * mpstate) :=
  match fuel with
  | O => None
  | Datatypes.S fuel =>
    if p <? e then
      let ty := m p in
      if ty =? MPPROC then
        let s := if zlen (mp_cpus s) <? NCPU then Mp (mp_cpus s ++ [m (p + 1)]) (mp_ioapicid s) (mp_lapic s) else s in
        mp_entries fuel m (p + 20) e ismp s
      else if ty =? MPIOAPIC then mp_entries fuel m (p + 8) e ismp (Mp (mp_cpus s) (m (p + 1)) (mp_lapic s))
      else if (ty =? MPBUS) || (ty =? MPIOINTR) || (ty =? MPLINTR) then mp_entries fuel m (p + 8) e ismp s
      else
        (* the break leaves the switch, not the loop *)
        mp_entries fuel m p e false s
    else Some (ismp, s)
  end.
Definition mpinit (fuel : nat) (s : mpstate) : M (machine S) mpstate :=
  let! m := gets mc_mem in
  match mpconfig m with
  | None => panic "Expect to run on an SMP"
  | Some (mp, conf) =>
    let s := Mp (mp_cpus s) (mp_ioapicid s) (conf_lapicaddr m conf) in
    match mp_entries fuel m (conf + MPCONFSIZE) (conf + conf_length m conf) true s with
    | None => fun _ => NoFuel
    | Some (ismp, s) =>
      if negb ismp then panic "Didn't find a suitable machine"
      else
      when (negb (m (mp + 12) =? 0))
        (zoom bus_lens (outb 34 112 ;;; let! x := inb 35 in outb 35 (Z.lor x 1))) ;;;
      ret s
    end
  end.
End Boot.
