(* ===== verification/BootSpec.v ===== *)
(** * The boot loader loads the kernel, and the processors are found

    [bootmain] over the laws of the IDE ports: every segment of the image ends up at its
    physical address, followed by zeros. [mpinit] against the list of the table's entries. *)
From S2P Require Import Prelude Param CString Printf Kalloc Exec Boot.

(** ** The IDE ports *)

(** The sector selected by the registers. *)
Definition lba (reg : Z -> Z) : Z := reg 499 + 2 ^ 8 * reg 500 + 2 ^ 16 * reg 501 + 2 ^ 24 * Z.land (reg 502) 15.
(** The disk behind the ports: [dsk s n] is sector [n], [preg s p] the byte last written to
    port [p]; the controller is ready after fewer than [polls] reads of its status. *)
Class IdePorts (S : Type) `{Bus S} (polls : nat) := {
  dsk : S -> Z -> list Z;
  preg : S -> Z -> Z;
  dsk_length s n : length (dsk s n) = 512%nat;
  port_in p s : dsk (bus_in p s).2 = dsk s /\ forall q, preg (bus_in p s).2 q = preg s q;
  port_out p v s : dsk (bus_out p v s) = dsk s /\ forall q, preg (bus_out p v s) q = if q =? p then v else preg s q;
  port_ready s : exists k, (k < polls)%nat /\ Z.land (u8 (bus_in 503 (Nat.iter k (fun s => (bus_in 503 s).2) s)).1) 192 = 64;
  port_insl s : preg s 503 = 32 -> preg s 498 = 1 ->
    (bus_insl 496 128 s).1 = dsk s (lba (preg s)) /\ dsk (bus_insl 496 128 s).2 = dsk s
}.

Section Loader.
Context {S : Type} `{IdePorts S polls}.

Definition same_bus (b b' : S) : Prop := dsk b' = dsk b /\ forall q, preg b' q = preg b q.
Lemma same_bus_trans b1 b2 b3 : same_bus b1 b2 -> same_bus b2 b3 -> same_bus b1 b3.
Proof. intros [E1 P1] [E2 P2]. split; [by rewrite E2|]. intros q. by rewrite P2. Qed.
Lemma waitdisk_wp k : forall n b Q, (k < n)%nat ->
  Z.land (u8 (bus_in 503 (Nat.iter k (fun s => (bus_in 503 s).2) b)).1) 192 = 64 ->
  (forall b', same_bus b b' -> Q tt b') -> wp (waitdisk n) Q b.
Proof.
  induction k as [|k IH]; intros [|n] b Q Hn Hk HQ; try lia; cbn [waitdisk]; apply wp_bind; unfold wp at 1, inb.
  - cbn [Nat.iter nat_rect] in Hk. pose proof (port_in 503 b) as Hin. destruct (bus_in 503 b) as [x b1]. cbn [fst snd] in *.
    rewrite Hk. cbn. apply wp_ret. by apply HQ.
  - rewrite Nat.iter_succ_r in Hk. pose proof (port_in 503 b) as Hin. destruct (bus_in 503 b) as [x b1]. cbn [fst snd] in *.
    destruct (_ =? 64); cbn [negb]; [apply wp_ret; by apply HQ|]. apply IH; [lia|done|]. intros b' Hb. apply HQ. by eapply same_bus_trans.
Qed.
Lemma waitdisk_ok b Q : (forall b', same_bus b b' -> Q tt b') -> wp (waitdisk polls) Q b.
Proof. intros HQ. destruct (port_ready b) as (k & Hk & E). by eapply waitdisk_wp. Qed.

Lemma sector_bits x : 0 <= x < 16 -> Z.land (u8 (Z.lor x 224)) 15 = x.
Proof.
  intros Hx. assert (Hb : implb (x <? 16) (Z.land (u8 (Z.lor x 224)) 15 =? x) = true).
  { apply (byte_cases (fun c => implb (c <? 16) (Z.land (u8 (Z.lor c 224)) 15 =? c))); [by vm_compute|lia]. }
  rewrite (proj2 (Z.ltb_lt _ _)) in Hb by lia. by apply Z.eqb_eq.
Qed.
Lemma split_sector off : 0 <= off < 2 ^ 28 ->
  u8 off + 2 ^ 8 * u8 (Z.shiftr off 8) + 2 ^ 16 * u8 (Z.shiftr off 16) + 2 ^ 24 * Z.land (u8 (Z.lor (Z.shiftr off 24) 224)) 15 = off.
Proof.
  intros Ho. rewrite sector_bits by (rewrite Z.shiftr_div_pow2 by lia; lia). rewrite !Z.shiftr_div_pow2 by lia. unfold u8. lia.
Qed.
Lemma outb_wp p v Q (b : S) : Q tt (bus_out p (u8 v) b) -> wp (outb p v) Q b.
Proof. apply wp_modify. Qed.
(** One sector. *)
Lemma readsect_wp m b dst off Q : 0 <= off < 2 ^ 28 ->
  (forall b', dsk b' = dsk b -> Q tt (Machine (blit m dst (dsk b off)) b')) -> wp (readsect polls dst off) Q (Machine m b).
Proof.
  intros Ho HQ. unfold readsect. apply wp_bind, wp_zoom, waitdisk_ok. intros b1 [D1 _]. cbn [lget lset bus_lens mc_mem mc_bus] in *.
  do 6 (apply wp_bind, wp_zoom, outb_wp; cbn [lget lset bus_lens mc_mem mc_bus]).
  apply wp_bind, wp_zoom, waitdisk_ok. intros b2 [D2 P2]. cbn [lget lset bus_lens mc_mem mc_bus] in *.
  assert (D : dsk b2 = dsk b).
  { rewrite D2. repeat (rewrite (proj1 (port_out _ _ _))). exact D1. }
  assert (P : forall q, preg b2 q = if q =? 503 then 32 else if q =? 502 then u8 (Z.lor (Z.shiftr off 24) 224) else if q =? 501 then u8 (Z.shiftr off 16)
    else if q =? 500 then u8 (Z.shiftr off 8) else if q =? 499 then u8 off else if q =? 498 then 1 else preg b1 q).
  { intros q. rewrite P2. do 6 (rewrite (proj2 (port_out _ _ _))). done. }
  apply wp_bind, wp_zoom. unfold wp, insl. change (SECTSIZE / 4) with 128.
  destruct (port_insl b2) as [I1 I2]; [by rewrite P|by rewrite P|]. cbn [lget lset bus_lens mc_mem mc_bus].
  destruct (bus_insl 496 128 b2) as [l b3]. cbn [fst snd] in *. cbn. subst l.
  assert (L : lba (preg b2) = off) by (unfold lba; rewrite !P; cbn [Z.eqb Pos.eqb]; by apply split_sector).
  rewrite L, D. apply HQ. by rewrite I2.
Qed.

(** The kernel's image starts at sector 1. *)
Definition image (b : S) : mem := fun i => znth (dsk b (1 + i / 512)) (i mod 512).
Lemma image_same b b' : dsk b' = dsk b -> image b' = image b.
Proof. unfold image. by intros ->. Qed.
(** Sectors [off], [off + 1], ... at [pa]. *)
Lemma readseg_loop_wp k : forall m b pa epa off Q, 0 <= off -> off + Z.of_nat k <= 2 ^ 28 ->
  epa <= pa + 512 * Z.of_nat k < epa + 512 ->
  (forall m' b', dsk b' = dsk b ->
    (forall a, m' a = if in_range a pa (512 * Z.of_nat k) then image b (512 * (off - 1) + (a - pa)) else m a) -> Q tt (Machine m' b')) ->
  wp (readseg_loop polls k pa epa off) Q (Machine m b).
Proof.
  induction k as [|k IH]; intros m b pa epa off Q Ho Hk He HQ; cbn [readseg_loop].
  - apply wp_ret, HQ; [done|]. intros a. unfold in_range. by replace ((pa <=? a) && _) with false by lia.
  - rewrite (proj2 (Z.ltb_lt _ _)) by lia. apply wp_bind, readsect_wp; [lia|]. intros b1 D1. apply IH; [unfold SECTSIZE; lia..|].
    intros m' b' D' E'. apply HQ; [by rewrite D'|]. intros a. rewrite E', blit_spec. unfold zlen. rewrite dsk_length. unfold in_range, SECTSIZE.
    rewrite (image_same b b1) by done. change (Z.of_nat 512) with 512.
    destruct (decide (pa <= a < pa + 512)) as [Hin|Hout].
    + replace ((pa + 512 <=? a) && _) with false by lia. replace ((pa <=? a) && (a <? pa + 512)) with true by lia.
      replace ((pa <=? a) && (a <? pa + 512 * Z.of_nat (Datatypes.S k))) with true by lia. unfold image.
      replace (512 * (off - 1) + (a - pa)) with (a - pa + (off - 1) * 512) by lia.
      rewrite Z.div_add, Z.mod_add, Z.div_small, Z.mod_small by lia. f_equal. f_equal. lia.
    + replace ((pa <=? a) && (a <? pa + 512)) with false by lia.
      replace ((pa <=? a) && (a <? pa + 512 * Z.of_nat (Datatypes.S k))) with ((pa + 512 <=? a) && (a <? pa + 512 + 512 * Z.of_nat k)) by lia.
      destruct ((pa + 512 <=? a) && _); [|done]. f_equal. lia.
Qed.
(** What [readseg(pa, count, offset)] stores over: whole sectors. *)
Definition seg_start (pa off : Z) : Z := pa - off mod 512.
Definition seg_bytes (pa count off : Z) : Z := (pa + count - seg_start pa off + 511) / 512 * 512.
Lemma readseg_wp m b pa count off Q : 0 <= count -> 0 <= off -> off + count <= 2 ^ 36 ->
  (forall m' b', dsk b' = dsk b ->
    (forall a, m' a = if in_range a (seg_start pa off) (seg_bytes pa count off) then image b (off + (a - pa)) else m a) -> Q tt (Machine m' b')) ->
  wp (readseg polls pa count off) Q (Machine m b).
Proof.
  intros Hc Ho Hmax HQ. unfold readseg. unfold SECTSIZE in *. set (k := Z.to_nat _).
  assert (Hk : 512 * Z.of_nat k = seg_bytes pa count off) by (unfold k, seg_bytes, seg_start; lia).
  apply readseg_loop_wp; [lia|unfold k; lia|unfold k; lia|]. intros m' b' D E. apply HQ; [done|]. intros a. rewrite E, Hk.
  fold (seg_start pa off). destruct (in_range a _ _); [|done]. f_equal. unfold seg_start. lia.
Qed.

(** ** Segments *)

(** Segment [i] of the image: [phoff] and [phnum] are in the ELF header. *)
Definition phoff (img : mem) : Z := ld32 img 28.
Definition phnum (img : mem) : nat := Z.to_nat (img 44 + 256 * img 45).
Definition ph_pos (img : mem) (i : nat) : Z := phoff img + 32 * Z.of_nat i.
Definition paddr img i : Z := ph_paddr_at img (ph_pos img i).
Definition filesz img i : Z := ph_filesz_at img (ph_pos img i).
Definition memsz img i : Z := ph_memsz_at img (ph_pos img i).
Definition offset img i : Z := ph_off_at img (ph_pos img i).
Definition seg_end img i : Z := paddr img i + Z.max (filesz img i) (memsz img i).
(** Headers in the first page; segments above the page they are read from, in increasing
    order, none in the sectors that a later one stores. *)
Definition bootable (img : mem) : Prop :=
  bytes_ok img /\ phoff img + 32 * Z.of_nat (phnum img) <= 4096 /\
  (forall i, (i < phnum img)%nat -> ELF_SCRATCH + 4096 <= seg_start (paddr img i) (offset img i)) /\
  (forall i j, (i < j < phnum img)%nat -> seg_end img i <= seg_start (paddr img j) (offset img j)).
(** Segment [i] is in memory. *)
Definition loaded (img m : mem) (i : nat) : Prop :=
  forall x, 0 <= x < Z.max (filesz img i) (memsz img i) -> m (paddr img i + x) = if x <? filesz img i then img (offset img i + x) else 0.
Definition scratch (img m : mem) : Prop := forall x, 0 <= x < 4096 -> m (ELF_SCRATCH + x) = img x.
Lemma scratch_ld32 img m x : scratch img m -> 0 <= x <= 4092 -> ld32 m (ELF_SCRATCH + x) = ld32 img x.
Proof. intros Hs Hx. unfold ld32. rewrite <-!Z.add_assoc, !Hs by lia. done. Qed.

Lemma bootable_header img i : bootable img -> (i < phnum img)%nat -> 0 <= ph_pos img i /\ ph_pos img i + 32 <= 4096.
Proof. intros (Hb & Hph & _) Hi. pose proof (ld32_range img 28 Hb). unfold ph_pos, phoff in *. lia. Qed.
Lemma scratch_header img m i : bootable img -> (i < phnum img)%nat -> scratch img m ->
  ph_paddr_at m (ELF_SCRATCH + ph_pos img i) = paddr img i /\ ph_filesz_at m (ELF_SCRATCH + ph_pos img i) = filesz img i /\
  ph_memsz_at m (ELF_SCRATCH + ph_pos img i) = memsz img i /\ ph_off_at m (ELF_SCRATCH + ph_pos img i) = offset img i.
Proof.
  intros Hb Hi Hs. pose proof (bootable_header img i Hb Hi).
  unfold paddr, filesz, memsz, offset, ph_paddr_at, ph_filesz_at, ph_memsz_at, ph_off_at. rewrite <-!Z.add_assoc, !(scratch_ld32 img m) by (done || lia). done.
Qed.
(** Memory after one segment. *)
Definition after_segment (img m : mem) (i : nat) : mem := fun a =>
  if in_range a (paddr img i + filesz img i) (memsz img i - filesz img i) then 0
  else if in_range a (seg_start (paddr img i) (offset img i)) (seg_bytes (paddr img i) (filesz img i) (offset img i)) then img (offset img i + (a - paddr img i))
  else m a.
Lemma after_loaded img m m' i : bytes_ok img -> (forall a, m' a = after_segment img m i a) -> loaded img m' i.
Proof.
  intros Hb E x Hx. assert (0 <= filesz img i < 2 ^ 32) by (by apply ld32_range). rewrite E. unfold after_segment, in_range, seg_start, seg_bytes.
  destruct (Z.ltb_spec x (filesz img i)).
  - replace ((paddr img i + filesz img i <=? paddr img i + x) && _) with false by lia.
    replace ((_ <=? paddr img i + x) && _) with true by (unfold seg_start; lia). f_equal. lia.
  - by replace ((paddr img i + filesz img i <=? paddr img i + x) && _) with true by lia.
Qed.
Lemma after_below img m i a : bytes_ok img -> a < seg_start (paddr img i) (offset img i) -> after_segment img m i a = m a.
Proof.
  intros Hb Ha. assert (0 <= filesz img i < 2 ^ 32) by (by apply ld32_range). unfold after_segment, in_range, seg_start in *.
  replace ((paddr img i + filesz img i <=? a) && _) with false by lia. by replace ((paddr img i - _ <=? a) && _) with false by lia.
Qed.

Lemma load_loop_wp img k : forall i m b Q, bootable img -> (i + k = phnum img)%nat -> image b = img -> scratch img m ->
  (forall m' b', scratch img m' -> (forall j, (i <= j < phnum img)%nat -> loaded img m' j) ->
    (forall a, (forall j, (i <= j < phnum img)%nat -> a < seg_start (paddr img j) (offset img j)) -> m' a = m a) -> Q tt (Machine m' b')) ->
  wp (load_loop polls k (ELF_SCRATCH + ph_pos img i)) Q (Machine m b).
Proof.
  induction k as [|k IH]; intros i m b Q Hboot Hik Hb Hs HQ; cbn [load_loop].
  { apply wp_ret, HQ; [done|intros j Hj; lia|done]. }
  pose proof Hboot as (Hbytes & _ & Hlow & Hinc). assert (Hlowi := Hlow i ltac:(lia)).
  destruct (scratch_header img m i Hboot ltac:(lia) Hs) as (Epa & Efs & _ & Eof).
  assert (Hfs : 0 <= filesz img i < 2 ^ 32) by (by apply ld32_range). assert (Hof : 0 <= offset img i < 2 ^ 32) by (by apply ld32_range).
  apply wp_bind, wp_gets. cbn [mc_mem]. cbv zeta. rewrite Epa, Efs, Eof.
  apply wp_bind, readseg_wp; [lia|lia|lia|]. intros m1 b1 D1 E1. rewrite Hb in E1.
  assert (Hs1 : scratch img m1).
  { intros x Hx. rewrite E1, <-(Hs x) by lia. unfold in_range. by replace ((_ <=? ELF_SCRATCH + x) && _) with false by lia. }
  destruct (scratch_header img m1 i Hboot ltac:(lia) Hs1) as (_ & Efs1 & Ems1 & _).
  apply wp_bind, wp_gets. cbn [mc_mem]. rewrite Efs1, Ems1.
  assert (Hnext : forall m2, (forall a, m2 a = after_segment img m i a) -> wp (load_loop polls k (ELF_SCRATCH + ph_pos img i + 32)) Q (Machine m2 b1)).
  { intros m2 E2. replace (ELF_SCRATCH + ph_pos img i + 32) with (ELF_SCRATCH + ph_pos img (Datatypes.S i)) by (unfold ph_pos; lia).
    apply IH; [done|lia|by rewrite (image_same b b1)|intros x Hx; rewrite E2, after_below by (done || lia); by apply Hs|].
    intros m' b' Hs' Hl Hfr. apply HQ; [done| |].
    - intros j Hj. destruct (decide (j = i)) as [->|]; [|apply Hl; lia]. pose proof (after_loaded img m m2 i Hbytes E2) as Hi. intros x Hx.
      rewrite Hfr; [by apply Hi|]. intros j' Hj'. specialize (Hinc i j' ltac:(lia)). unfold seg_end in Hinc. lia.
    - intros a Ha. rewrite Hfr by (intros j Hj; apply Ha; lia). rewrite E2. apply after_below; [done|]. apply Ha. lia. }
  apply wp_bind, wp_when; intros Hlt; [apply wp_modify; cbn [mc_mem mc_bus]|]; apply Hnext; intros a; unfold after_segment.
  - rewrite Efs1, Ems1, stosb_spec, Z2Nat.id, E1 by lia. change (u8 0) with 0. reflexivity.
  - rewrite E1. by replace (in_range a (paddr img i + filesz img i) _) with false by (unfold in_range; lia).
Qed.

(** C26: the boot loader. From a disk whose first 4096 bytes hold an ELF header and program
    headers of segments in increasing order above that page, [bootmain] ends at the image's
    entry point with every segment at its physical address and zeros up to its size in
    memory; without the ELF magic it returns. Nothing below the segments but the scratch
    page is stored to. *)
Theorem bootmain_loads (m : mem) (b : S) :
  match bootmain polls (Machine m b) with
  | Ret None _ => ld32 (image b) 0 <> ELF_MAGIC
  | Ret (Some entry) s => ld32 (image b) 0 = ELF_MAGIC /\
      (bootable (image b) -> entry = ld32 (image b) 24 /\ (forall i, (i < phnum (image b))%nat -> loaded (image b) (mc_mem s) i) /\
        forall a, a < ELF_SCRATCH -> mc_mem s a = m a)
  | _ => bootable (image b) -> False
  end.
Proof.
  set (img := image b).
  assert (H1 : wp (readseg polls ELF_SCRATCH 4096 0) (fun _ s => scratch img (mc_mem s) /\ (forall a, a < ELF_SCRATCH -> mc_mem s a = m a) /\ image (mc_bus s) = img) (Machine m b)).
  { apply readseg_wp; [lia|lia|lia|]. intros m' b' D E. cbn. split; [|split].
    - intros x Hx. rewrite E. unfold in_range, seg_bytes, seg_start. replace ((_ <=? ELF_SCRATCH + x) && _) with true by lia. unfold img. f_equal. lia.
    - intros a Ha. rewrite E. unfold in_range, seg_start. by replace ((ELF_SCRATCH - _ <=? a) && _) with false by lia.
    - by apply image_same. }
  unfold wp in H1. unfold bootmain. cbv zeta. unfold bind at 1. destruct (readseg polls ELF_SCRATCH 4096 0 (Machine m b)) as [u [m1 b1]| | |]; try done.
  destruct H1 as (Hs & Hlow & Hb). cbn [mc_mem mc_bus] in *. rewrite run_bind_gets. cbn [mc_mem].
  assert (E0 : ld32 m1 ELF_SCRATCH = ld32 img 0) by (rewrite <-(Z.add_0_r ELF_SCRATCH); apply scratch_ld32; [done|lia]).
  assert (E28 : ld32 m1 (ELF_SCRATCH + 28) = phoff img) by (apply scratch_ld32; [done|lia]).
  assert (EN : Z.to_nat (m1 (ELF_SCRATCH + 44) + 256 * m1 (ELF_SCRATCH + 45)) = phnum img) by (by rewrite !Hs by lia).
  rewrite E0, E28, EN. destruct (Z.eqb_spec (ld32 img 0) ELF_MAGIC) as [Hm|Hm]; cbn [negb]; [|done].
  assert (HL : bootable img -> wp (load_loop polls (phnum img) (ELF_SCRATCH + phoff img)) (fun _ s => scratch img (mc_mem s) /\
    (forall i, (i < phnum img)%nat -> loaded img (mc_mem s) i) /\ forall a, a < ELF_SCRATCH -> mc_mem s a = m a) (Machine m1 b1)).
  { intros Hboot. replace (ELF_SCRATCH + phoff img) with (ELF_SCRATCH + ph_pos img 0) by (unfold ph_pos; lia).
    apply (load_loop_wp img); [done|lia|done|done|]. intros m' b' Hs' Hl Hfr. split; [done|]. split; [intros i Hi; apply Hl; lia|].
    intros a Ha. cbn [mc_mem]. rewrite Hfr by (intros j Hj; destruct Hboot as (_ & _ & Hlo & _); specialize (Hlo j ltac:(lia)); lia). by apply Hlow. }
  unfold bind. unfold wp in HL. destruct (load_loop polls (phnum img) (ELF_SCRATCH + phoff img) (Machine m1 b1)) as [u' [m2 b2]| | |]; [|exact HL..].
  cbn. split; [done|]. intros Hboot. destruct (HL Hboot) as (Hs2 & Hl & Hlo). split; [|by split]. apply scratch_ld32; [done|lia].
Qed.
End Loader.

(** ** A disk with a kernel of one segment *)

Record ide_hw := IdeHw { hw_regs : list (Z * Z); hw_disk : list (list Z) }.
Definition hw_reg (s : ide_hw) (p : Z) : Z := default 0 (snd <$> head (filter (fun r => r.1 = p) (hw_regs s))).
Definition hw_sector (s : ide_hw) (n : Z) : list Z := take 512 (nth (Z.to_nat n) (hw_disk s) [] ++ replicate 512 0).
#[export] Instance ide_hw_bus : Bus ide_hw := {|
  bus_in := fun _ s => (64, s);
  bus_out := fun p v s => IdeHw ((p, v) :: hw_regs s) (hw_disk s);
  bus_insl := fun _ _ s => (hw_sector s (lba (hw_reg s)), s);
  bus_outsl := fun _ _ s => s;
  bus_load := fun _ s => (0, s);
  bus_store := fun _ _ s => s
|}.
#[export] Instance ide_hw_ports : IdePorts ide_hw 1.
Proof.
  refine {| dsk := hw_sector; preg := hw_reg |}.
  - intros s n. unfold hw_sector. rewrite length_take, length_app, length_replicate. lia.
  - done.
  - intros p v s. split; [done|]. intros q. unfold hw_reg. cbn [bus_out ide_hw_bus hw_regs]. rewrite filter_cons. cbn [fst].
    destruct (Z.eqb_spec q p) as [->|Hne]; [by rewrite decide_True|by rewrite decide_False].
  - intros s. exists 0%nat. split; [lia|]. done.
  - done.
Defined.
(** "\x7fELF", the entry 0x100000, one program header after the ELF header: three bytes at
    1024 for 0x100000, five in memory. *)
Definition demo_kernel : list (list Z) :=
  [[]; foldl (fun b f => put32 b f.1 f.2) (put16 (replicate 512 0) 44 1)
         [(0, ELF_MAGIC); (24, 1048576); (28, 52); (56, 1024); (64, 1048576); (68, 3); (72, 5)];
   []; [17; 18; 19]].
Definition byte_list (l : list Z) : Prop := Forall (fun x => 0 <= x < 256) l.
Lemma znth_byte l i : byte_list l -> 0 <= znth l i < 256.
Proof.
  intros Hl. unfold znth. destruct (i <? 0); [lia|]. destruct (nth_in_or_default (Z.to_nat i) l 0) as [Hi| ->]; [|lia].
  apply list_elem_of_In in Hi. unfold byte_list in Hl. rewrite Forall_forall in Hl. by apply Hl.
Qed.
Lemma hw_bytes regs disk : Forall byte_list disk -> bytes_ok (image (IdeHw regs disk)).
Proof.
  intros Hd a. apply znth_byte. apply Forall_take, Forall_app. split; [|apply Forall_replicate; lia].
  cbn [hw_disk]. destruct (nth_in_or_default (Z.to_nat (1 + a / 512)) disk []) as [Hi| ->]; [|constructor].
  apply list_elem_of_In in Hi. rewrite Forall_forall in Hd. by apply Hd.
Qed.
Lemma demo_bootable : bootable (image (IdeHw [] demo_kernel)).
Proof.
  split; [|split; [|split]].
  - apply hw_bytes. repeat (apply Forall_cons; split); try apply Forall_nil_2; apply (bool_decide_unpack _); vm_compute; exact I.
  - vm_compute. discriminate.
  - assert (E : phnum (image (IdeHw [] demo_kernel)) = 1%nat) by (vm_compute; reflexivity). rewrite E. intros [|i] Hi; [|lia]. vm_compute. discriminate.
  - assert (E : phnum (image (IdeHw [] demo_kernel)) = 1%nat) by (vm_compute; reflexivity). rewrite E. intros i j Hij. lia.
Qed.
Lemma bootmain_loads_witness :
  match bootmain 1 (Machine (fun _ => 255) (IdeHw [] demo_kernel)) with
  | Ret (Some entry) s => entry = 1048576 /\ mc_mem s 1048576 = 17 /\ mc_mem s 1048580 = 0 /\ mc_mem s 7 = 255
  | _ => False
  end.
Proof.
  pose proof (bootmain_loads (polls := 1) (fun _ => 255) (IdeHw [] demo_kernel)) as Hb.
  destruct (bootmain 1 (Machine (fun _ => 255) (IdeHw [] demo_kernel))) as [[entry|] s| | |]; try by destruct (Hb demo_bootable).
  - destruct Hb as [_ Hb]. destruct (Hb demo_bootable) as (-> & Hl & Hlo). split; [vm_compute; reflexivity|].
    assert (E : phnum (image (IdeHw [] demo_kernel)) = 1%nat) by (vm_compute; reflexivity). specialize (Hl 0%nat ltac:(rewrite E; lia)).
    split; [exact (Hl 0 ltac:(split; [discriminate|vm_compute; reflexivity]))|].
    split; [exact (Hl 4 ltac:(split; [discriminate|vm_compute; reflexivity]))|]. exact (Hlo 7 ltac:(reflexivity)).
  - exfalso. apply Hb. vm_compute. reflexivity.
Defined.
