(* ===== verification/MpSpec.v ===== *)
(** * Finding the processors: mp.c

    The search finds the first structure with the right signature and checksum; the loop over
    the configuration table takes exactly the entries of known types, and never ends when it
    comes to another one. *)
From S2P Require Import Prelude Param CString Printf Kalloc Boot.

Section Mp.
Context {S : Type} `{Bus S} (m : mem).

(** ** The search *)

Lemma mpsearch_loop_spec k : forall p, match mpsearch_loop m p k with
  | Some q => exists i, 0 <= i < Z.of_nat k /\ q = p + 16 * i /\ mp_ok m q = true /\ forall j, 0 <= j < i -> mp_ok m (p + 16 * j) = false
  | None => forall j, 0 <= j < Z.of_nat k -> mp_ok m (p + 16 * j) = false
  end.
Proof.
  induction k as [|k IH]; intros p; cbn [mpsearch_loop]; [lia|]. destruct (mp_ok m p) eqn:E.
  - exists 0. split; [lia|]. split; [lia|]. split; [done|lia].
  - specialize (IH (p + MPSIZE)). unfold MPSIZE in *. destruct (mpsearch_loop m (p + 16) k) as [q|].
    + destruct IH as (i & Hi & -> & Hok & Hfst). exists (i + 1). split; [lia|]. split; [lia|]. split; [done|]. intros j Hj.
      destruct (decide (j = 0)) as [->|]; [by rewrite Z.mul_0_r, Z.add_0_r|]. replace (p + 16 * j) with (p + 16 + 16 * (j - 1)) by lia. apply Hfst. lia.
    + intros j Hj. destruct (decide (j = 0)) as [->|]; [by rewrite Z.mul_0_r, Z.add_0_r|]. replace (p + 16 * j) with (p + 16 + 16 * (j - 1)) by lia. apply IH. lia.
Qed.

(** ** The table *)

Definition entry_size (ty : Z) : option Z :=
  if ty =? MPPROC then Some 20 else if (MPBUS <=? ty) && (ty <=? MPLINTR) then Some 8 else None.
(** From [p] to [e] there are entries of known types: their types and second bytes. *)
Inductive table (e : Z) : Z -> list (Z * Z) -> Prop :=
| table_end p : e <= p -> table e p []
| table_entry p n es : p < e -> entry_size (m p) = Some n -> table e (p + n) es -> table e p ((m p, m (p + 1)) :: es).
(** An entry of another type is reached. *)
Inductive stuck (e : Z) : Z -> Prop :=
| stuck_here p : p < e -> entry_size (m p) = None -> stuck e p
| stuck_later p n : p < e -> entry_size (m p) = Some n -> stuck e (p + n) -> stuck e p.
Lemma entry_size_pos ty n : entry_size ty = Some n -> 8 <= n.
Proof. unfold entry_size. repeat case_match; intros [= <-]; lia. Qed.
Lemma table_or_stuck e p : (exists es, table e p es) \/ stuck e p.
Proof.
  remember (Z.to_nat (e - p)) as k eqn:Ek. revert p Ek. induction k as [k IH] using lt_wf_ind. intros p ->.
  destruct (decide (e <= p)) as [|Hlt]; [left; eexists; by constructor|]. destruct (entry_size (m p)) as [n|] eqn:En; [|right; constructor; [lia|done]].
  pose proof (entry_size_pos _ _ En). destruct (IH (Z.to_nat (e - (p + n))) ltac:(lia) (p + n) eq_refl) as [[es Hes]|Hst].
  - left. eexists. eapply table_entry; [lia|done|done].
  - right. eapply stuck_later; [lia|done|done].
Qed.
Lemma table_length e p es : table e p es -> zlen es <= Z.max 0 (e - p).
Proof. induction 1 as [|p n es Hlt En _ IH]; [unfold zlen; cbn; lia|]. pose proof (entry_size_pos _ _ En). unfold zlen in *. cbn [length]. lia. Qed.

(** What the entries say. *)
Definition procs (es : list (Z * Z)) : list Z := snd <$> filter (fun e => e.1 = MPPROC) es.
Definition ioapics (es : list (Z * Z)) : list Z := snd <$> filter (fun e => e.1 = MPIOAPIC) es.
Definition add_entries (es : list (Z * Z)) (s : mpstate) : mpstate :=
  Mp (take (Z.to_nat NCPU) (mp_cpus s ++ procs es)) (List.last (mp_ioapicid s :: ioapics es) 0) (mp_lapic s).
Lemma last_cons2 (x y : Z) l d : List.last (x :: y :: l) d = List.last (y :: l) d.
Proof. done. Qed.
Lemma add_entry_cases ty x es s : zlen (mp_cpus s) <= NCPU -> entry_size ty <> None ->
  add_entries ((ty, x) :: es) s = add_entries es
    (if ty =? MPPROC then if zlen (mp_cpus s) <? NCPU then Mp (mp_cpus s ++ [x]) (mp_ioapicid s) (mp_lapic s) else s
     else if ty =? MPIOAPIC then Mp (mp_cpus s) x (mp_lapic s) else s).
Proof.
  intros Hn _. unfold add_entries, procs, ioapics. rewrite !filter_cons. cbn [fst]. unfold MPPROC, MPIOAPIC, NCPU, zlen in *.
  destruct (Z.eqb_spec ty 0) as [->|H0].
  - rewrite decide_True, decide_False by done. cbn [fmap list_fmap snd]. destruct (Z.ltb_spec (Z.of_nat (length (mp_cpus s))) 8); cbn [mp_cpus mp_ioapicid mp_lapic].
    + by rewrite <-(assoc_L (++)).
    + rewrite !take_app_le by lia. done.
  - rewrite decide_False by done. destruct (Z.eqb_spec ty 2) as [->|H2].
    + rewrite decide_True by done. cbn [fmap list_fmap snd mp_cpus mp_ioapicid mp_lapic]. by rewrite last_cons2.
    + by rewrite decide_False.
Qed.
Lemma entries_table e p es : table e p es -> forall fuel ismp s, (length es < fuel)%nat -> zlen (mp_cpus s) <= NCPU ->
  mp_entries fuel m p e ismp s = Some (ismp, add_entries es s).
Proof.
  induction 1 as [p Hp|p n es Hlt En _ IH]; intros [|fuel] ismp s Hf Hn; cbn [length] in *; try lia; cbn [mp_entries].
  - rewrite (proj2 (Z.ltb_ge _ _)) by done. f_equal. f_equal. unfold add_entries. cbn. rewrite app_nil_r, take_ge by (unfold zlen, NCPU in *; lia).
    by destruct s.
  - rewrite (proj2 (Z.ltb_lt _ _)) by done. rewrite add_entry_cases by (done || congruence). revert En. unfold entry_size, MPPROC, MPBUS, MPIOAPIC, MPIOINTR, MPLINTR.
    destruct (Z.eqb_spec (m p) 0) as [E0|E0]; [|destruct (_ && _) eqn:Er; [|done]]; intros [= <-].
    + apply IH; [lia|]. destruct (Z.ltb_spec (zlen (mp_cpus s)) NCPU); [|done]. cbn [mp_cpus]. unfold zlen, NCPU in *. rewrite length_app. cbn. lia.
    + destruct (Z.eqb_spec (m p) 2); [by apply IH; [lia|]|].
      replace ((m p =? 1) || (m p =? 3) || (m p =? 4)) with true by lia. apply IH; [lia|done].
Qed.
Lemma entries_stuck e p : stuck e p -> forall fuel ismp s, mp_entries fuel m p e ismp s = None.
Proof.
  induction 1 as [p Hlt En|p n Hlt En _ IH]; intros fuel.
  - induction fuel as [|fuel IHf]; intros ismp s; cbn [mp_entries]; [done|]. rewrite (proj2 (Z.ltb_lt _ _)) by done. revert En.
    unfold entry_size, MPPROC, MPBUS, MPIOAPIC, MPIOINTR, MPLINTR. destruct (Z.eqb_spec (m p) 0); [done|]. destruct (_ && _) eqn:Er; [done|]. intros _.
    replace (m p =? 2) with false by lia. replace ((m p =? 1) || (m p =? 3) || (m p =? 4)) with false by lia. apply IHf.
  - destruct fuel as [|fuel]; intros ismp s; cbn [mp_entries]; [done|]. rewrite (proj2 (Z.ltb_lt _ _)) by done. revert En.
    unfold entry_size, MPPROC, MPBUS, MPIOAPIC, MPIOINTR, MPLINTR. destruct (Z.eqb_spec (m p) 0) as [E0|E0]; [|destruct (_ && _) eqn:Er; [|done]]; intros [= <-].
    + apply IH.
    + destruct (Z.eqb_spec (m p) 2); [apply IH|]. replace ((m p =? 1) || (m p =? 3) || (m p =? 4)) with true by lia. apply IH.
Qed.

Lemma mpconfig_facts mp conf : mpconfig m = Some (mp, conf) ->
  begins m conf (codes "PCMP") = true /\ sum m conf (conf_length m conf) = 0 /\ (conf_version m conf = 1 \/ conf_version m conf = 4).
Proof.
  unfold mpconfig. destruct (mpsearch m) as [mp'|]; [|done]. destruct (_ =? 0); [done|]. set (c := P2V _).
  destruct (begins m c (codes "PCMP")) eqn:Eb; [|done]. cbn [negb].
  destruct (Z.eqb_spec (conf_version m c) 1) as [V1|V1], (Z.eqb_spec (conf_version m c) 4) as [V4|V4]; cbn [negb andb]; try done;
    (destruct (Z.eqb_spec (sum m c (conf_length m c)) 0) as [Es|Es]; cbn [negb]; [|done]); intros [= <- <-]; auto.
Qed.

(** C27: finding the processors. When no table is found the kernel panics. Otherwise the table
    has the signature and version and its bytes sum to 0, and: if all its entries are of
    known types, [mpinit] ends, with the local APIC's address, the identifiers of the first
    8 processors in order and the last I/O APIC's; and if an entry is of another type the
    loop never ends, however long it runs (the panic after it is never reached). *)
Theorem mpinit_spec (b : S) :
  match mpconfig m with
  | None => forall fuel s, mpinit fuel s (Machine m b) = Panic "Expect to run on an SMP"
  | Some (mp, conf) =>
    let p := conf + MPCONFSIZE in let e := conf + conf_length m conf in
    begins m conf (codes "PCMP") = true /\ sum m conf (conf_length m conf) = 0 /\ (conf_version m conf = 1 \/ conf_version m conf = 4) /\
    ((exists es, table e p es /\ forall fuel s, Z.max 0 (conf_length m conf) < Z.of_nat fuel -> zlen (mp_cpus s) <= NCPU ->
        exists b', mpinit fuel s (Machine m b) =
          Ret (Mp (take (Z.to_nat NCPU) (mp_cpus s ++ procs es)) (List.last (mp_ioapicid s :: ioapics es) 0) (conf_lapicaddr m conf)) (Machine m b')) \/
     stuck e p /\ forall fuel s, mpinit fuel s (Machine m b) = NoFuel)
  end.
Proof.
  unfold mpinit. destruct (mpconfig m) as [[mp conf]|] eqn:Ec.
  2: { intros fuel s. rewrite run_bind_gets. cbn [mc_mem]. by rewrite Ec. }
  destruct (mpconfig_facts mp conf Ec) as (F1 & F2 & F3). split; [done|]. split; [done|]. split; [done|].
  destruct (table_or_stuck (conf + conf_length m conf) (conf + MPCONFSIZE)) as [[es Hes]|Hst]; [left; exists es|right]; (split; [done|]);
    intros fuel s; [intros Hf Hn|]; rewrite run_bind_gets; cbn [mc_mem]; rewrite Ec.
  - pose proof (table_length _ _ _ Hes) as Hl. unfold MPCONFSIZE in *. rewrite (entries_table _ _ _ Hes) by (try done; unfold zlen in *; lia).
    cbn [negb]. unfold when. destruct (negb _); [|by exists b]. unfold bind, zoom, outb, modify, inb. cbn [lget lset bus_lens mc_bus mc_mem].
    destruct (bus_in 35 _) as [x b1]. by eexists.
  - by rewrite entries_stuck.
Qed.
End Mp.

(** Firmware tables of two processors and an I/O APIC. *)
Definition fill (l : list Z) (i : nat) : list Z := <[i := u8 (- foldr Z.add 0 l)]> l.
Definition demo_mp : list Z := fill (codes "_MP_" ++ [0; 16; 0; 0; 1; 4; 0; 0; 0; 0; 0; 0]) 10.
Definition demo_conf (entries : list Z) : list Z :=
  fill (codes "PCMP" ++ [44 + zlen entries; 0; 4; 0] ++ replicate 28 0 ++ [0; 0; 224; 254] ++ replicate 4 0 ++ entries) 7.
Definition demo_mem (entries : list Z) : mem := blit (blit (fun _ => 0) (P2V 983040) demo_mp) (P2V 4096) (demo_conf entries).
Definition two_cpus : list Z := [0; 0] ++ replicate 18 0 ++ [0; 1] ++ replicate 18 0 ++ [2; 5] ++ replicate 6 0.
#[export] Instance no_hardware : Bus unit := {|
  bus_in := fun _ s => (0, s); bus_out := fun _ _ s => s; bus_insl := fun _ _ s => ([], s); bus_outsl := fun _ _ s => s; bus_load := fun _ s => (0, s); bus_store := fun _ _ s => s |}.
Example mpinit_two_cpus :
  match mpinit 100 (Mp [] 0 0) (Machine (demo_mem two_cpus) tt) with Ret s _ => s = Mp [0; 1] 5 4276092928 | _ => False end.
Proof. vm_compute. reflexivity. Qed.
(** An entry of type 5 after them. *)
Example mpinit_unknown_entry fuel s : mpinit fuel s (Machine (demo_mem (two_cpus ++ [5; 0; 0; 0; 0; 0; 0; 0])) tt) = NoFuel.
Proof.
  set (m := demo_mem _). assert (Ec : mpconfig m = Some (P2V 983040, P2V 4096)) by (vm_compute; reflexivity).
  unfold mpinit. rewrite run_bind_gets. cbn [mc_mem]. rewrite Ec. rewrite entries_stuck; [done|].
  apply (stuck_later m _ _ 20); [vm_compute; reflexivity..|]. apply (stuck_later m _ _ 20); [vm_compute; reflexivity..|].
  apply (stuck_later m _ _ 8); [vm_compute; reflexivity..|]. apply stuck_here; vm_compute; reflexivity.
Qed.
