(* ===== verification/Devices.v ===== *)
(** * Interrupt controllers, clock, serial port and memory disk

    lapic.c, ioapic.c, picirq.c, uart.c and memide.c over ports and registers ([Bus]). *)
From S2P Require Import Prelude Param Iface CString Printf Sleeplock Console Kalloc Ide Boot.

Definition T_IRQ0 : Z := 32.
Definition IRQ_TIMER : Z := 0.
Definition IRQ_COM1 : Z := 4.
Definition IRQ_ERROR : Z := 19.
Definition IRQ_SPURIOUS : Z := 31.

Section Devices.
Context {S : Type} `{Bus S}.

(** ** lapic.c *)

(** Registers, as indices of [uint]s. *)
Definition L_ID : Z := 8.
Definition L_VER : Z := 12.
Definition L_TPR : Z := 32.
Definition L_EOI : Z := 44.
Definition L_SVR : Z := 60.
Definition L_ESR : Z := 160.
Definition L_ICRLO : Z := 192.
Definition L_ICRHI : Z := 196.
Definition L_TIMER : Z := 200.
Definition L_PCINT : Z := 208.
Definition L_LINT0 : Z := 212.
Definition L_LINT1 : Z := 216.
Definition L_ERROR : Z := 220.
Definition L_TICR : Z := 224.
Definition L_TDCR : Z := 248.
Definition ENABLE : Z := 256.
Definition INIT : Z := 1280.
Definition STARTUP : Z := 1536.
Definition DELIVS : Z := 4096.
Definition ASSERT : Z := 16384.
Definition LEVEL : Z := 32768.
Definition BCAST : Z := 524288.
Definition X1 : Z := 11.
Definition PERIODIC : Z := 131072.
Definition MASKED : Z := 65536.

(** [lapic] is the registers' address, 0 when there is none. *)
Definition lapicr (lapic index : Z) : M S Z := load (lapic + 4 * index).
Definition lapicw (lapic index value : Z) : M S unit :=
  store (lapic + 4 * index) value ;;;
  lapicr lapic L_ID ;;;
  ret tt.
(** [while(lapic[ICRLO] & DELIVS);], [rounds] times at most. *)
Fixpoint wait_delivery (rounds : nat) (lapic : Z) : M S unit :=
  match rounds with
  | O => fun _ => NoFuel
  | Datatypes.S rounds => let! x := lapicr lapic L_ICRLO in if negb (Z.land x DELIVS =? 0) then wait_delivery rounds lapic else ret tt
  end.
Definition lapicinit (rounds : nat) (lapic : Z) : M S unit :=
  if lapic =? 0 then ret tt
  else
  lapicw lapic L_SVR (Z.lor ENABLE (T_IRQ0 + IRQ_SPURIOUS)) ;;;
  lapicw lapic L_TDCR X1 ;;;
  lapicw lapic L_TIMER (Z.lor PERIODIC (T_IRQ0 + IRQ_TIMER)) ;;;
  lapicw lapic L_TICR 10000000 ;;;
  lapicw lapic L_LINT0 MASKED ;;;
  lapicw lapic L_LINT1 MASKED ;;;
  let! ver := lapicr lapic L_VER in
  when (4 <=? Z.land (Z.shiftr ver 16) 255) (lapicw lapic L_PCINT MASKED) ;;;
  lapicw lapic L_ERROR (T_IRQ0 + IRQ_ERROR) ;;;
  lapicw lapic L_ESR 0 ;;;
  lapicw lapic L_ESR 0 ;;;
  lapicw lapic L_EOI 0 ;;;
  lapicw lapic L_ICRHI 0 ;;;
  lapicw lapic L_ICRLO (Z.lor (Z.lor BCAST INIT) LEVEL) ;;;
  wait_delivery rounds lapic ;;;
  lapicw lapic L_TPR 0.
Definition lapicid (lapic : Z) : M S Z :=
  if lapic =? 0 then ret 0 else let! x := lapicr lapic L_ID in ret (Z.shiftr x 24).
Definition lapiceoi (lapic : Z) : M S unit := when (negb (lapic =? 0)) (lapicw lapic L_EOI 0).
Definition st16 (m : mem) (a v : Z) : mem := upd (upd m a (v mod 256)) (a + 1) (v / 256 mod 256).
(** Twice: the startup interrupt. *)
Fixpoint startup_loop (k : nat) (lapic apicid addr : Z) : M S unit :=
  match k with
  | O => ret tt
  | Datatypes.S k =>
    lapicw lapic L_ICRHI (Z.shiftl apicid 24) ;;;
    lapicw lapic L_ICRLO (Z.lor STARTUP (Z.shiftr addr 12)) ;;;
    startup_loop k lapic apicid addr
  end.
Definition lapicstartap (lapic apicid addr : Z) : M (machine S) unit :=
  zoom bus_lens (outb 112 15 ;;; outb 113 10) ;;;
  let wrv := P2V (Z.lor (Z.shiftl 64 4) 103) in
  on_mem (fun m => st16 (st16 m wrv 0) (wrv + 2) (u16 (Z.shiftr addr 4))) ;;;
  zoom bus_lens (
    lapicw lapic L_ICRHI (Z.shiftl apicid 24) ;;;
    lapicw lapic L_ICRLO (Z.lor (Z.lor INIT LEVEL) ASSERT) ;;;
    lapicw lapic L_ICRLO (Z.lor INIT LEVEL) ;;;
    startup_loop 2 lapic apicid addr).

Record rtcdate := Rtc { second : Z; minute : Z; hour : Z; day : Z; month : Z; year : Z }.
#[export] Instance rtcdate_eq_dec : EqDecision rtcdate.
Proof. solve_decision. Defined.
Definition CMOS_PORT : Z := 112.
Definition CMOS_RETURN : Z := 113.
Definition CMOS_STATA : Z := 10.
Definition CMOS_STATB : Z := 11.
Definition CMOS_UIP : Z := 128.
Definition cmos_read (reg : Z) : M S Z := outb CMOS_PORT reg ;;; inb CMOS_RETURN.
Definition fill_rtcdate : M S rtcdate :=
  let! sec := cmos_read 0 in
  let! mins := cmos_read 2 in
  let! hours := cmos_read 4 in
  let! d := cmos_read 7 in
  let! mon := cmos_read 8 in
  let! y := cmos_read 9 in
  ret (Rtc sec mins hours d mon y).
(** Until two readings agree, [rounds] turns at most. *)
Fixpoint rtc_stable (rounds : nat) : M S rtcdate :=
  match rounds with
  | O => fun _ => NoFuel
  | Datatypes.S rounds =>
    let! t1 := fill_rtcdate in
    let! a := cmos_read CMOS_STATA in
    if negb (Z.land a CMOS_UIP =? 0) then rtc_stable rounds
    else
    let! t2 := fill_rtcdate in
    if decide (t1 = t2) then ret t1 else rtc_stable rounds
  end.
Definition CONV (x : Z) : Z := u32 (Z.shiftr x 4 * 10 + Z.land x 15).
Definition cmostime (rounds : nat) : M S rtcdate :=
  let! sb := cmos_read CMOS_STATB in
  let bcd := Z.land sb 4 =? 0 in
  let! t1 := rtc_stable rounds in
  let t1 := if bcd then Rtc (CONV (second t1)) (CONV (minute t1)) (CONV (hour t1)) (CONV (day t1)) (CONV (month t1)) (CONV (year t1)) else t1 in
  ret (Rtc (second t1) (minute t1) (hour t1) (day t1) (month t1) (u32 (year t1 + 2000))).

(** ** ioapic.c *)

Definition IOAPIC : Z := 4273995776.
Definition REG_ID : Z := 0.
Definition REG_VER : Z := 1.
Definition REG_TABLE : Z := 16.
Definition INT_DISABLED : Z := 65536.
Definition ioapicread (reg : Z) : M S Z := store IOAPIC reg ;;; load (IOAPIC + 16).
Definition ioapicwrite (reg data : Z) : M S unit := store IOAPIC reg ;;; store (IOAPIC + 16) data.
Fixpoint mask_loop (k : nat) (i : Z) : M S unit :=
  match k with
  | O => ret tt
  | Datatypes.S k =>
    ioapicwrite (REG_TABLE + 2 * i) (Z.lor INT_DISABLED (T_IRQ0 + i)) ;;;
    ioapicwrite (REG_TABLE + 2 * i + 1) 0 ;;;
    mask_loop k (i + 1)
  end.
(** [false] when the message "id isn't equal to ioapicid" is printed. *)
Definition ioapicinit (ioapicid : Z) : M S bool :=
  let! ver := ioapicread REG_VER in
  let maxintr := Z.land (Z.shiftr ver 16) 255 in
  let! x := ioapicread REG_ID in
  let id := Z.shiftr x 24 in
  mask_loop (Z.to_nat (maxintr + 1)) 0 ;;;
  ret (id =? ioapicid).
Definition ioapicenable (irq cpunum : Z) : M S unit :=
  ioapicwrite (REG_TABLE + 2 * irq) (T_IRQ0 + irq) ;;;
  ioapicwrite (REG_TABLE + 2 * irq + 1) (Z.shiftl cpunum 24).

(** ** ide.c: the ports *)

Definition IRQ_IDE : Z := 14.
Definition SECTOR_SIZE : Z := 512.
Definition IDE_BSY : Z := 128.
Definition IDE_DRDY : Z := 64.
Definition IDE_DF : Z := 32.
Definition IDE_ERR : Z := 1.
Definition IDE_CMD_READ : Z := 32.
Definition IDE_CMD_WRITE : Z := 48.
Definition IDE_CMD_RDMUL : Z := 196.
Definition IDE_CMD_WRMUL : Z := 197.
(** At most [rounds] reads of the status. *)
Fixpoint idewait (rounds : nat) (checkerr : bool) : M S Z :=
  match rounds with
  | O => fun _ => NoFuel
  | Datatypes.S rounds =>
    let! r := inb 503 in
    if negb (Z.land r (Z.lor IDE_BSY IDE_DRDY) =? IDE_DRDY) then idewait rounds checkerr
    else if checkerr && negb (Z.land r (Z.lor IDE_DF IDE_ERR) =? 0) then ret (-1)
    else ret 0
  end.
(** [for(i = 0; i < 1000; i++)]: whether a status is not zero. *)
Fixpoint probe_loop (k : nat) : M S bool :=
  match k with
  | O => ret false
  | Datatypes.S k => let! st := inb 503 in if negb (st =? 0) then ret true else probe_loop k
  end.
(** [havedisk1] *)
Definition ideinit (rounds : nat) (ncpu : Z) : M S bool :=
  ioapicenable IRQ_IDE (ncpu - 1) ;;;
  idewait rounds false ;;;
  outb 502 (Z.lor 224 (Z.shiftl 1 4)) ;;;
  let! havedisk1 := probe_loop 1000 in
  outb 502 (Z.lor 224 (Z.shiftl 0 4)) ;;;
  ret havedisk1.
Definition idestart_io (rounds : nat) (b : option buf) : M S unit :=
  match b with
  | None => panic "idestart"
  | Some b =>
    if FSSIZE <=? b_blockno b then panic "incorrect blockno"
    else
    let sector_per_block := BSIZE / SECTOR_SIZE in
    let sector := s32 (b_blockno b * sector_per_block) in
    let read_cmd := if sector_per_block =? 1 then IDE_CMD_READ else IDE_CMD_RDMUL in
    let write_cmd := if sector_per_block =? 1 then IDE_CMD_WRITE else IDE_CMD_WRMUL in
    if 7 <? sector_per_block then panic "idestart"
    else
    idewait rounds false ;;;
    outb 1014 0 ;;;
    outb 498 sector_per_block ;;;
    outb 499 (Z.land sector 255) ;;;
    outb 500 (Z.land (Z.shiftr sector 8) 255) ;;;
    outb 501 (Z.land (Z.shiftr sector 16) 255) ;;;
    outb 502 (Z.lor (Z.lor 224 (Z.shiftl (Z.land (b_dev b) 1) 4)) (Z.land (Z.shiftr sector 24) 15)) ;;;
    if has_flag (b_flags b) B_DIRTY then
      outb 503 write_cmd ;;;
      outsl 496 (b_data b)
    else outb 503 read_cmd
  end.

(** ** picirq.c *)

Definition picinit : M S unit := outb 33 255 ;;; outb 161 255.

(** ** uart.c *)

Definition COM1 : Z := 1016.
(** [for(i = 0; i < 128 && !(inb(COM1+5) & 0x20); i++)] *)
Fixpoint uart_wait (k : nat) : M S unit :=
  match k with
  | O => ret tt
  | Datatypes.S k => let! st := inb (COM1 + 5) in if Z.land st 32 =? 0 then uart_wait k else ret tt
  end.
Definition uartputc (uart : bool) (c : Z) : M S unit :=
  if negb uart then ret tt else uart_wait 128 ;;; outb COM1 c.
Fixpoint uart_puts (uart : bool) (l : list Z) : M S unit :=
  match l with [] => ret tt | c :: l => uartputc uart c ;;; uart_puts uart l end.
(** Whether there is a uart. *)
Definition uartinit : M S bool :=
  outb (COM1 + 2) 0 ;;;
  outb (COM1 + 3) 128 ;;;
  outb (COM1 + 0) (115200 / 9600) ;;;
  outb (COM1 + 1) 0 ;;;
  outb (COM1 + 3) 3 ;;;
  outb (COM1 + 4) 0 ;;;
  outb (COM1 + 1) 1 ;;;
  let! st := inb (COM1 + 5) in
  if st =? 255 then ret false
  else
  inb (COM1 + 2) ;;;
  inb (COM1 + 0) ;;;
  ioapicenable IRQ_COM1 0 ;;;
  uart_puts true (codes "xv6..." ++ [10]) ;;;
  ret true.
Definition uartgetc (uart : bool) : M S Z :=
  if negb uart then ret (-1)
  else
  let! st := inb (COM1 + 5) in
  if Z.land st 1 =? 0 then ret (-1) else inb COM1.
(** What the calls of [uartgetc] return until there is no data, [fuel] at most. *)
Fixpoint uart_chars (fuel : nat) (uart : bool) : M S (list Z) :=
  match fuel with
  | O => fun _ => NoFuel
  | Datatypes.S fuel =>
    let! c := uartgetc uart in
    if c <? 0 then ret [] else let! cs := uart_chars fuel uart in ret (c :: cs)
  end.
Definition uartintr {P} `{ProcIface P} (fuel : nat) (uart : bool) : M ((con * P) * S) bool :=
  let! cs := zoom (Lens snd (fun b s => (s.1, b))) (uart_chars fuel uart) in
  zoom (Lens fst (fun c s => (c, s.2))) (consoleintr cs).
End Devices.

(** ** memide.c *)

(** The process table, the buffers, and the file system image in memory. *)
Record memide (P : Type) := MemIde { md_proc : P; md_bufs : list buf; md_disk : list Z; md_disksize : Z }.
Arguments MemIde {P}.
Arguments md_proc {P}.
Arguments md_bufs {P}.
Arguments md_disk {P}.
Arguments md_disksize {P}.
Section MemIde.
Context {P : Type} `{ProcIface P}.
Definition memideinit (p : P) (bufs : list buf) (image : list Z) : memide P := MemIde p bufs image (zlen image / BSIZE).
Definition memideintr : M (memide P) unit := ret tt.
Definition md_buf (s : memide P) (i : nat) : buf := nth i (md_bufs s) buf0.
Definition md_upd (i : nat) (f : buf -> buf) (s : memide P) : memide P :=
  MemIde (md_proc s) (<[i := f (md_buf s i)]> (md_bufs s)) (md_disk s) (md_disksize s).
Definition md_lock_lens (i : nat) : lens (memide P) (sleeplock * P) :=
  Lens (fun s => (b_lock (md_buf s i), md_proc s))
    (fun lp s => let s := md_upd i (set_b_lock lp.1) s in MemIde lp.2 (md_bufs s) (md_disk s) (md_disksize s)).
(** The block at [p = memdisk + n*BSIZE]. *)
Definition md_block (disk : list Z) (n : Z) : block := take 512 (drop (Z.to_nat (n * BSIZE)) disk).
Definition memiderw (i : nat) : M (memide P) unit :=
  let! held := zoom (md_lock_lens i) holdingsleep in
  if negb held then panic "iderw: buf not locked"
  else
  let! s := get in
  let b := md_buf s i in
  if Z.land (b_flags b) (Z.lor B_VALID B_DIRTY) =? B_VALID then panic "iderw: nothing to do"
  else if negb (b_dev b =? 1) then panic "iderw: request not for disk 1"
  else if md_disksize s <=? b_blockno b then panic "iderw: block out of range"
  else
  (if has_flag (b_flags b) B_DIRTY then
     modify (md_upd i (fun b => set_b_flags (Z.ldiff (b_flags b) B_DIRTY) b)) ;;;
     modify (fun s => MemIde (md_proc s) (md_bufs s) (splice (md_disk s) (Z.to_nat (b_blockno b * BSIZE)) (b_data b)) (md_disksize s))
   else modify (md_upd i (set_b_data (md_block (md_disk s) (b_blockno b))))) ;;;
  modify (md_upd i (fun b => set_b_flags (Z.lor (b_flags b) B_VALID) b)).
End MemIde.
