(* ===== verification/DevicesSpec.v ===== *)
(** * Routing of interrupts, the date, and the disk in memory

    ioapic.c over the index and data registers of the controller, [cmostime] over the
    clock's registers, and memide.c against ide.c. *)
From S2P Require Import Prelude Param Iface CString Printf Sleeplock Ide Boot BootSpec Devices.

(** ** The I/O APIC *)

(** The register selected and the registers' values. *)
Class IoApic (S : Type) `{Bus S} := {
  io_sel : S -> Z;
  io_reg : S -> Z -> Z;
  io_reg_u32 s r : 0 <= io_reg s r < 2 ^ 32;
  io_select v s : io_sel (bus_store IOAPIC v s) = v /\ forall r, io_reg (bus_store IOAPIC v s) r = io_reg s r;
  io_write v s : 0 <= v < 2 ^ 32 ->
    forall r, io_reg (bus_store (IOAPIC + 16) v s) r = if r =? io_sel s then v else io_reg s r;
  io_read s : (bus_load (IOAPIC + 16) s).1 = io_reg s (io_sel s) /\ forall r, io_reg (bus_load (IOAPIC + 16) s).2 r = io_reg s r
}.

Section IoApic.
Context {S : Type} `{IoApic S}.

Lemma ioapicwrite_wp reg data (s : S) Q : 0 <= reg < 2 ^ 32 ->
  (forall s', (forall r, io_reg s' r = if r =? reg then u32 data else io_reg s r) -> Q tt s') -> wp (ioapicwrite reg data) Q s.
Proof.
  intros Hr HQ. unfold ioapicwrite, store. wp_steps. rewrite (u32_small reg) by done. apply HQ. intros r.
  destruct (io_select reg s) as [E1 E2]. rewrite io_write by apply u32_range. by rewrite E1, E2.
Qed.
Lemma ioapicread_wp reg (s : S) Q : 0 <= reg < 2 ^ 32 -> (forall s', (forall r, io_reg s' r = io_reg s r) -> Q (io_reg s reg) s') -> wp (ioapicread reg) Q s.
Proof.
  intros Hr HQ. unfold ioapicread, store, load. wp_steps. rewrite (u32_small reg) by done. unfold wp.
  destruct (io_select reg s) as [E1 E2], (io_read (bus_store IOAPIC reg s)) as [R1 R2].
  destruct (bus_load (IOAPIC + 16) (bus_store IOAPIC reg s)) as [x s']. cbn [fst snd] in *. rewrite R1, E1, E2, u32_small by apply io_reg_u32.
  apply HQ. intros r. by rewrite R2, E2.
Qed.

(** Interrupt [i] is off, or delivered to a CPU. *)
Definition io_masked (s : S) (i : Z) : Prop := io_reg s (REG_TABLE + 2 * i) = INT_DISABLED + (T_IRQ0 + i) /\ io_reg s (REG_TABLE + 2 * i + 1) = 0.
Definition io_routed (s : S) (i cpu : Z) : Prop := io_reg s (REG_TABLE + 2 * i) = T_IRQ0 + i /\ io_reg s (REG_TABLE + 2 * i + 1) = u32 (Z.shiftl cpu 24).
Lemma masked_value i : 0 <= i < 256 -> u32 (Z.lor INT_DISABLED (T_IRQ0 + i)) = INT_DISABLED + (T_IRQ0 + i).
Proof.
  intros Hi. apply Z.eqb_eq. apply (byte_cases (fun i => u32 (Z.lor INT_DISABLED (T_IRQ0 + i)) =? INT_DISABLED + (T_IRQ0 + i))); [by vm_compute|done].
Qed.
Lemma mask_loop_wp k : forall i (s : S) Q, 0 <= i -> i + Z.of_nat k <= 256 ->
  (forall s', (forall j, i <= j < i + Z.of_nat k -> io_masked s' j) -> (forall r, r < REG_TABLE + 2 * i -> io_reg s' r = io_reg s r) -> Q tt s') ->
  wp (mask_loop k i) Q s.
Proof.
  induction k as [|k IH]; intros i s Q Hi Hk HQ; cbn [mask_loop]; [apply wp_ret, HQ; [lia|done]|].
  unfold REG_TABLE in *. apply wp_bind, ioapicwrite_wp; [lia|]. intros s1 E1. apply wp_bind, ioapicwrite_wp; [lia|]. intros s2 E2.
  apply IH; [lia..|]. intros s' Hm Hf. apply HQ.
  - intros j Hj. destruct (decide (j = i)) as [->|]; [|apply Hm; lia]. unfold io_masked, REG_TABLE.
    rewrite !Hf, !E2, !E1 by lia. replace (16 + 2 * i =? 16 + 2 * i + 1) with false by lia. rewrite !Z.eqb_refl. split; [apply masked_value; lia|done].
  - intros r Hr. rewrite Hf, E2, E1 by lia. replace (r =? 16 + 2 * i + 1) with false by lia. by replace (r =? 16 + 2 * i) with false by lia.
Qed.
Lemma ioapicenable_wp irq cpu (s : S) Q : 0 <= irq < 256 ->
  (forall s', io_routed s' irq cpu -> (forall r, r <> REG_TABLE + 2 * irq -> r <> REG_TABLE + 2 * irq + 1 -> io_reg s' r = io_reg s r) -> Q tt s') ->
  wp (ioapicenable irq cpu) Q s.
Proof.
  intros Hi HQ. unfold ioapicenable, REG_TABLE in *. apply wp_bind, ioapicwrite_wp; [lia|]. intros s1 E1. apply ioapicwrite_wp; [lia|]. intros s2 E2.
  apply HQ.
  - unfold io_routed, REG_TABLE. rewrite !E2, !E1. replace (16 + 2 * irq =? 16 + 2 * irq + 1) with false by lia. rewrite !Z.eqb_refl.
    unfold T_IRQ0. rewrite u32_small by lia. done.
  - intros r H1 H2. rewrite E2, E1. replace (r =? _) with false by lia. by replace (r =? _) with false by lia.
Qed.
(** The calls of [ioapicenable] by the drivers. *)
Fixpoint enables (l : list (Z * Z)) : M S unit :=
  match l with [] => ret tt | (irq, cpu) :: l => ioapicenable irq cpu ;;; enables l end.
(** The last CPU that [irq] was given to. *)
Definition route (l : list (Z * Z)) (irq : Z) : option Z := foldl (fun o e => if e.1 =? irq then Some e.2 else o) None l.
Definition io_state (s : S) (i : Z) (o : option Z) : Prop := match o with None => io_masked s i | Some cpu => io_routed s i cpu end.
Lemma io_state_same s s' i o : io_reg s' (REG_TABLE + 2 * i) = io_reg s (REG_TABLE + 2 * i) ->
  io_reg s' (REG_TABLE + 2 * i + 1) = io_reg s (REG_TABLE + 2 * i + 1) -> io_state s i o -> io_state s' i o.
Proof. unfold io_state, io_masked, io_routed. intros -> ->. done. Qed.
Lemma enables_wp l : forall (s : S) (o : Z -> option Z) Q, Forall (fun e => 0 <= e.1 < 256) l ->
  (forall s', (forall i, 0 <= i -> io_state s i (o i) -> io_state s' i (foldl (fun o e => if e.1 =? i then Some e.2 else o) (o i) l)) -> Q tt s') ->
  wp (enables l) Q s.
Proof.
  induction l as [|[irq cpu] l IH]; intros s o Q Hl HQ; cbn [enables]; [apply wp_ret, HQ; done|].
  inversion Hl as [|? ? Hi Hl']; subst. cbn [fst] in Hi. apply wp_bind, ioapicenable_wp; [done|]. intros s1 Hr Hf.
  apply (IH s1 (fun i => if irq =? i then Some cpu else o i)); [done|]. intros s' Hs. apply HQ. intros i Hi0 Hst. cbn [foldl fst snd]. apply (Hs i Hi0).
  destruct (Z.eqb_spec irq i) as [<-|Hne]; [done|]. eapply io_state_same; [| |exact Hst]; apply Hf; lia.
Qed.

(** C28: the routing of interrupts. After [ioapicinit] and any calls of [ioapicenable], each
    interrupt of the controller is delivered with its vector to the CPU it was last given
    to, and is masked when it was given to none. *)
Theorem ioapic_routing ioapicid l (s : S) : Forall (fun e => 0 <= e.1 < 256) l ->
  exists ok s', (let! ok := ioapicinit ioapicid in enables l ;;; ret ok) s = Ret ok s' /\
    ok = (Z.shiftr (io_reg s REG_ID) 24 =? ioapicid) /\
    forall i, 0 <= i <= Z.land (Z.shiftr (io_reg s REG_VER) 16) 255 -> io_state s' i (route l i).
Proof.
  intros Hl. apply (wp_run _ (fun ok s' => ok = (Z.shiftr (io_reg s REG_ID) 24 =? ioapicid) /\
    forall i, 0 <= i <= Z.land (Z.shiftr (io_reg s REG_VER) 16) 255 -> io_state s' i (route l i))).
  set (maxintr := Z.land (Z.shiftr (io_reg s REG_VER) 16) 255).
  assert (Hmax : 0 <= maxintr < 256) by (unfold maxintr; change 255 with (Z.ones 8); rewrite Z.land_ones by lia; lia).
  unfold ioapicinit. apply wp_bind, wp_bind, ioapicread_wp; [done|]. intros s1 E1. apply wp_bind, ioapicread_wp; [done|]. intros s2 E2. rewrite E1. fold maxintr.
  apply wp_bind, mask_loop_wp; [lia|lia|]. intros s3 Hm _. apply wp_ret. apply wp_bind, (enables_wp l s3 (fun _ => None)); [done|].
  intros s4 Hs. apply wp_ret. split; [done|]. intros i Hi. apply (Hs i ltac:(lia)). apply Hm. lia.
Qed.
End IoApic.

Record io_hw := IoHw { ih_sel : Z; ih_regs : Z -> Z }.
#[export] Instance io_hw_bus : Bus io_hw := {|
  bus_in := fun _ s => (0, s);
  bus_out := fun _ _ s => s;
  bus_insl := fun _ _ s => ([], s);
  bus_outsl := fun _ _ s => s;
  bus_load := fun a s => (if a =? IOAPIC + 16 then u32 (ih_regs s (ih_sel s)) else 0, s);
  bus_store := fun a v s => if a =? IOAPIC then IoHw v (ih_regs s) else if a =? IOAPIC + 16 then IoHw (ih_sel s) (upd (ih_regs s) (ih_sel s) v) else s
|}.
#[export] Instance io_hw_ioapic : IoApic io_hw.
Proof.
  refine {| io_sel := ih_sel; io_reg := fun s r => u32 (ih_regs s r) |}.
  - intros s r. apply u32_range.
  - intros v s. done.
  - intros v s Hv r. change (u32 (upd (ih_regs s) (ih_sel s) v r) = if r =? ih_sel s then v else u32 (ih_regs s r)).
    unfold upd. destruct (r =? ih_sel s); [by apply u32_small|done].
  - done.
Defined.
(** A controller of 24 interrupts: keyboard to CPU 0, disk to CPU 3 and then to CPU 1. *)
Lemma ioapic_routing_witness :
  let s := IoHw 0 (fun r => if r =? REG_VER then Z.shiftl 23 16 else 0) in
  exists ok s', (let! ok := ioapicinit 0 in enables [(1, 0); (14, 3); (14, 1)] ;;; ret ok) s = Ret ok s' /\
    io_routed s' 1 0 /\ io_routed s' 14 1 /\ io_masked s' 4.
Proof.
  intros s. destruct (ioapic_routing 0 [(1, 0); (14, 3); (14, 1)] s) as (ok & s' & E & _ & Hr).
  { repeat (apply Forall_cons; split); try apply Forall_nil_2; cbn [fst]; lia. }
  exists ok, s'. split; [exact E|]. split; [exact (Hr 1 ltac:(vm_compute; split; discriminate))|].
  split; [exact (Hr 14 ltac:(vm_compute; split; discriminate))|exact (Hr 4 ltac:(vm_compute; split; discriminate))].
Defined.

(** ** The clock *)

(** The clock's registers behind the index and data ports; they do not change while they
    are read. *)
Class CmosClock (S : Type) `{Bus S} := {
  ck_sel : S -> Z;
  ck_reg : S -> Z -> Z;
  ck_select v s : ck_sel (bus_out CMOS_PORT v s) = v /\ ck_reg (bus_out CMOS_PORT v s) = ck_reg s;
  ck_read s : (bus_in CMOS_RETURN s).1 = ck_reg s (ck_sel s) /\ ck_reg (bus_in CMOS_RETURN s).2 = ck_reg s
}.
(** Two decimal digits in a byte. *)
Definition bcd (x : Z) : Z := x / 10 * 16 + x mod 10.
Lemma CONV_bcd x : 0 <= x < 100 -> CONV (bcd x) = x.
Proof.
  intros Hx. assert (Hb : implb (x <? 100) (CONV (bcd x) =? x) = true).
  { apply (byte_cases (fun x => implb (x <? 100) (CONV (bcd x) =? x))); [by vm_compute|lia]. }
  rewrite (proj2 (Z.ltb_lt _ _)) in Hb by lia. by apply Z.eqb_eq.
Qed.

Section Clock.
Context {S : Type} `{CmosClock S}.
Lemma cmos_read_wp reg (s : S) Q : 0 <= reg < 256 -> (forall s', ck_reg s' = ck_reg s -> Q (u8 (ck_reg s reg)) s') -> wp (cmos_read reg) Q s.
Proof.
  intros Hr HQ. unfold cmos_read, outb, inb. wp_steps. rewrite (u8_small reg) by done. unfold wp.
  destruct (ck_select reg s) as [E1 E2], (ck_read (bus_out CMOS_PORT reg s)) as [R1 R2].
  destruct (bus_in CMOS_RETURN (bus_out CMOS_PORT reg s)) as [x s']. cbn [fst snd] in *. rewrite R1, E1, E2. apply HQ. by rewrite R2.
Qed.
Definition clock_of (s : S) : rtcdate :=
  let r x := u8 (ck_reg s x) in Rtc (r 0) (r 2) (r 4) (r 7) (r 8) (r 9).
Lemma fill_wp (s : S) Q : (forall s', ck_reg s' = ck_reg s -> Q (clock_of s) s') -> wp fill_rtcdate Q s.
Proof.
  intros HQ. unfold fill_rtcdate. apply wp_bind, cmos_read_wp; [lia|]. intros s1 E1.
  do 5 (apply wp_bind, cmos_read_wp; [lia|]; rewrite E1; clear dependent s1; intros s1 E1). apply wp_ret. by apply HQ.
Qed.
Lemma rtc_stable_wp rounds (s : S) Q : Z.land (u8 (ck_reg s CMOS_STATA)) CMOS_UIP = 0 ->
  (forall s', ck_reg s' = ck_reg s -> Q (clock_of s) s') -> wp (rtc_stable (Datatypes.S rounds)) Q s.
Proof.
  intros Hu HQ. cbn [rtc_stable]. apply wp_bind, fill_wp. intros s1 E1. apply wp_bind, cmos_read_wp; [unfold CMOS_STATA; lia|]. rewrite E1, Hu. cbn [Z.eqb negb].
  intros s2 E2. apply wp_bind, fill_wp. intros s3 E3. assert (Ec : clock_of s2 = clock_of s) by (unfold clock_of; by rewrite E2).
  rewrite Ec, decide_True by done. apply wp_ret, HQ. by rewrite E3, E2.
Qed.
(** The clock shows the date [d] in the coding that its status register B says. *)
Definition shows (s : S) (d : rtcdate) : Prop :=
  let code x := if Z.land (u8 (ck_reg s CMOS_STATB)) 4 =? 0 then bcd x else x in
  clock_of s = Rtc (code (second d)) (code (minute d)) (code (hour d)) (code (day d)) (code (month d)) (code (year d - 2000)).
Definition date_ok (d : rtcdate) : Prop :=
  0 <= second d < 100 /\ 0 <= minute d < 100 /\ 0 <= hour d < 100 /\ 0 <= day d < 100 /\ 0 <= month d < 100 /\ 2000 <= year d < 2100.
(** C29: the date. When no update is in progress, one reading of the clock is enough, and
    the date returned is the one that the clock's registers show, in decimal or in binary. *)
Theorem cmostime_reads rounds (s : S) d : date_ok d -> shows s d -> Z.land (u8 (ck_reg s CMOS_STATA)) CMOS_UIP = 0 ->
  exists s', cmostime (Datatypes.S rounds) s = Ret d s' /\ ck_reg s' = ck_reg s.
Proof.
  intros (H1 & H2 & H3 & H4 & H5 & H6) Hs Hu.
  assert (Hw : wp (cmostime (Datatypes.S rounds)) (fun r s' => r = d /\ ck_reg s' = ck_reg s) s).
  { unfold cmostime. apply wp_bind, cmos_read_wp; [unfold CMOS_STATB; lia|]. intros s1 E1. cbv zeta. apply wp_bind, rtc_stable_wp; [by rewrite E1|].
    intros s2 E2. apply wp_ret. split; [|by rewrite E2]. assert (Ec : clock_of s1 = clock_of s) by (unfold clock_of; by rewrite E1).
    rewrite Ec. unfold shows in Hs. rewrite Hs. destruct (_ =? 0); cbn [second minute hour day month year]; rewrite ?CONV_bcd by lia;
      rewrite u32_small by lia; destruct d; cbn in *; f_equal; lia. }
  apply wp_run in Hw as (r & s' & E & -> & Ek). by exists s'.
Qed.
End Clock.

Record clock_hw := ClockHw { ch_sel : Z; ch_regs : Z -> Z }.
#[export] Instance clock_hw_bus : Bus clock_hw := {|
  bus_in := fun p s => (if p =? CMOS_RETURN then ch_regs s (ch_sel s) else 0, s);
  bus_out := fun p v s => if p =? CMOS_PORT then ClockHw v (ch_regs s) else s;
  bus_insl := fun _ _ s => ([], s);
  bus_outsl := fun _ _ s => s;
  bus_load := fun _ s => (0, s);
  bus_store := fun _ _ s => s
|}.
#[export] Instance clock_hw_cmos : CmosClock clock_hw.
Proof. by refine {| ck_sel := ch_sel; ck_reg := ch_regs |}. Defined.
(** 23:59:58 on 17 March 2026, in decimal digits. *)
Definition demo_clock : clock_hw := ClockHw 0 (blit (fun _ => 0) 0 [88; 0; 89; 0; 35; 0; 0; 23; 3; 38; 0; 2]).
Lemma cmostime_reads_witness : exists s', cmostime 1 demo_clock = Ret (Rtc 58 59 23 17 3 2026) s' /\ ck_reg s' = ck_reg demo_clock.
Proof. apply cmostime_reads; [repeat split; discriminate|vm_compute; reflexivity|vm_compute; reflexivity]. Defined.

(** ** The disk in memory *)

Section MemIdeSpec.
Context {P : Type} `{ProcIface P}.

(** The memory holds what disk 1 holds, and all of [disksize] blocks. *)
Definition same_disk (t : memide P) (d : disk_hist (Z * Z)) : Prop :=
  md_disksize t * BSIZE <= zlen (md_disk t) /\
  forall n, 0 <= n < md_disksize t -> md_block (md_disk t) n = disk_block d 1 n.
Lemma md_block_splice disk n k data : length data = 512%nat -> 0 <= n -> 0 <= k -> (Z.to_nat (n * 512) + 512 <= length disk)%nat -> (Z.to_nat (k * 512) + 512 <= length disk)%nat ->
  md_block (splice disk (Z.to_nat (n * BSIZE)) data) k = if decide (n = k) then data else md_block disk k.
Proof.
  intros Hd Hn Hk Hl Hlk. unfold md_block, BSIZE. apply list_eq. intros i. destruct (decide (i < 512)%nat) as [Hi|Hi].
  - rewrite lookup_take_lt, lookup_drop by done. case_decide as E.
    + subst k. apply lookup_splice_in; lia.
    + rewrite lookup_splice_out by lia. by rewrite lookup_take_lt, lookup_drop.
  - rewrite lookup_take_ge by lia. case_decide; [by rewrite lookup_ge_None_2 by lia|by rewrite lookup_take_ge by lia].
Qed.
Lemma md_lock_same i (s : memide P) : lset (md_lock_lens i) (b_lock (md_buf s i), md_proc s) s = s.
Proof.
  destruct s as [p bufs d n]. cbn. unfold md_upd, md_buf. cbn. f_equal. etrans; [|apply (insert_nth bufs i buf0)]. by destruct (nth i bufs buf0).
Qed.
Lemma memiderw_eq i (t : memide P) : (i < length (md_bufs t))%nat ->
  b_lock (md_buf t i) = sl_held (cur_pid (md_proc t)) -> b_flags (md_buf t i) <> B_VALID -> flags_ok (md_buf t i) ->
  b_dev (md_buf t i) = 1 -> b_blockno (md_buf t i) < md_disksize t ->
  memiderw i t = Ret tt (let b := md_buf t i in let dirty := has_flag (b_flags b) B_DIRTY in
    MemIde (md_proc t) (<[i := set_b_flags B_VALID (if dirty then b else set_b_data (md_block (md_disk t) (b_blockno b)) b)]> (md_bufs t))
      (if dirty then splice (md_disk t) (Z.to_nat (b_blockno b * BSIZE)) (b_data b) else md_disk t) (md_disksize t)).
Proof.
  intros Hi Hlk Hnv Hf Hdev Hbn. unfold memiderw. erewrite (run_bind_zoom (md_lock_lens i)); [|apply holdingsleep_eq; by rewrite Hlk].
  rewrite md_lock_same, Hlk. cbn [sl_held sl_locked sl_pid]. rewrite Z.eqb_refl. cbn [negb andb]. mrun.
  destruct (Z.eqb_spec (Z.land (b_flags (md_buf t i)) (Z.lor B_VALID B_DIRTY)) B_VALID) as [E|_].
  { destruct Hf as [Hf|[Hf|[Hf|Hf]]]; rewrite Hf in E, Hnv; done. }
  rewrite Hdev. cbn [Z.eqb Pos.eqb negb]. rewrite (proj2 (Z.leb_gt _ _)) by done.
  destruct t as [p bufs d n]. unfold md_buf, md_upd in *. cbn [md_bufs md_proc md_disk md_disksize] in *.
  destruct (nth i bufs buf0) as [fl dev bno lk rc data] eqn:Eb. cbn [b_flags b_dev b_blockno b_lock b_refcnt b_data] in *.
  destruct Hf as [Hf|[Hf|[Hf|Hf]]]; cbn in Hf; try done; subst fl;
    (match goal with |- context [has_flag ?x B_DIRTY] => let v := eval vm_compute in (has_flag x B_DIRTY) in change (has_flag x B_DIRTY) with v end);
    unfold modify, bind, md_upd, md_buf; cbn; rewrite ?Eb; cbn; rewrite ?nth_insert_eq by done; cbn; by rewrite ?list_insert_insert_eq.
Qed.

(** C30: the disk in memory does what the IDE driver does. From the same buffers and equal
    disks, with a request for a block of disk 1 by the process that holds the buffer,
    [iderw] of memide.c and of ide.c (the controller idle) both return, with the same
    buffers, and the disks are equal again. *)
Theorem memide_equiv i (s : ide P) (t : memide P) :
  ide_idle s -> i_havedisk1 s = true -> md_proc t = i_proc s -> md_bufs t = i_bufs s -> same_disk t (i_disk s) ->
  (i < length (i_bufs s))%nat -> b_lock (buf_at s i) = sl_held (cur_pid (i_proc s)) -> b_flags (buf_at s i) <> B_VALID -> flags_ok (buf_at s i) ->
  b_dev (buf_at s i) = 1 -> 0 <= b_blockno (buf_at s i) < Z.min FSSIZE (md_disksize t) -> length (b_data (buf_at s i)) = 512%nat ->
  exists s' t', iderw i s = Ret tt s' /\ memiderw i t = Ret tt t' /\ md_bufs t' = i_bufs s' /\ same_disk t' (i_disk s') /\ md_disksize t' = md_disksize t.
Proof.
  intros Hidle Hdisk Hp Hb [Hsz Hsame] Hi Hlk Hnv Hf Hdev Hbn Hdata.
  assert (E : md_buf t i = buf_at s i) by (unfold md_buf, buf_at; by rewrite Hb).
  eexists _, _. split; [apply iderw_eq; auto; lia|]. split; [apply memiderw_eq; rewrite ?E, ?Hb, ?Hp; auto; lia|].
  cbn zeta. rewrite !E, Hb. cbn [md_bufs md_disk md_disksize iderw_done i_bufs i_disk]. unfold iderw_done, synced_buf, synced_disk. cbn [i_bufs i_disk]. rewrite Hdev.
  change (Z.land 1 1) with 1. rewrite Hsame by lia. split; [done|]. split; [|done].
  unfold same_disk. cbn [md_disk md_disksize]. unfold zlen, BSIZE in *.
  destruct (has_flag (b_flags (buf_at s i)) B_DIRTY); cbn [set_b_flags]; [|done]. split; [rewrite length_splice; lia|].
  intros n Hn. rewrite md_block_splice by lia. unfold disk_block. cbn [hist_block].
  destruct (decide (b_blockno (buf_at s i) = n)) as [<-|Hne]; [by rewrite decide_True|]. rewrite decide_False by congruence. apply Hsame. lia.
Qed.
End MemIdeSpec.

(** A dirty buffer for block 2 of an empty disk of 4 blocks. *)
Definition md_demo_buf : buf := Buf B_DIRTY 1 2 (sl_held 5) 1 (replicate 512 7).
Definition ide_demo : ide lone_proc := Ide (5, false) false [] true [md_demo_buf] [] None.
Definition memide_demo : memide lone_proc := memideinit (5, false) [md_demo_buf] (replicate 2048 0).
Lemma memide_equiv_witness : exists s' t', iderw 0 ide_demo = Ret tt s' /\ memiderw 0 memide_demo = Ret tt t' /\
  md_bufs t' = i_bufs s' /\ md_block (md_disk t') 2 = disk_block (i_disk s') 1 2.
Proof.
  destruct (memide_equiv 0 ide_demo memide_demo) as (s' & t' & H1 & H2 & H3 & [_ H4] & H5).
  - split; reflexivity.
  - reflexivity.
  - reflexivity.
  - reflexivity.
  - split; [vm_compute; discriminate|]. intros n Hn. change (md_disksize memide_demo) with 4 in Hn.
    destruct (decide (n = 0)) as [->|]; [vm_compute; reflexivity|]. destruct (decide (n = 1)) as [->|]; [vm_compute; reflexivity|].
    destruct (decide (n = 2)) as [->|]; [vm_compute; reflexivity|]. destruct (decide (n = 3)) as [->|]; [vm_compute; reflexivity|lia].
  - cbn. lia.
  - reflexivity.
  - discriminate.
  - right. right. by left.
  - reflexivity.
  - vm_compute. split; [discriminate|reflexivity].
  - reflexivity.
  - exists s', t'. split; [exact H1|]. split; [exact H2|]. split; [exact H3|]. apply H4. rewrite H5. vm_compute. split; [discriminate|reflexivity].
Defined.

(** ** The IDE driver's ports *)

Definition drive_bit (reg : Z -> Z) : Z := Z.land (Z.shiftr (reg 502) 4) 1.
(** The controller: its registers, the command it was given last, and the status, which
    shows that it is ready after fewer than [rounds] reads. *)
Class IdeDrive (S : Type) `{Bus S} (rounds : nat) := {
  dr_reg : S -> Z -> Z;
  dr_cmd : S -> option ide_cmd;
  dr_in p s : (forall q, dr_reg (bus_in p s).2 q = dr_reg s q);
  dr_out p v s q : dr_reg (bus_out p v s) q = if q =? p then v else dr_reg s q;
  dr_ready s : exists k, (k < rounds)%nat /\ Z.land (u8 (bus_in 503 (Nat.iter k (fun s => (bus_in 503 s).2) s)).1) 192 = 64;
  dr_read s : dr_reg s 498 = 1 -> dr_cmd (bus_out 503 32 s) = Some (CmdRead (drive_bit (dr_reg s)) (lba (dr_reg s)));
  dr_write s data : dr_reg s 498 = 1 ->
    dr_cmd (bus_outsl 496 data (bus_out 503 48 s)) = Some (CmdWrite (drive_bit (dr_reg s)) (lba (dr_reg s)) data)
}.

Section IdeIo.
Context {S P : Type} `{IdeDrive S rounds} `{ProcIface P}.

Lemma idewait_wp k : forall n (s : S) Q, (k < n)%nat ->
  Z.land (u8 (bus_in 503 (Nat.iter k (fun s => (bus_in 503 s).2) s)).1) 192 = 64 ->
  (forall s', Q 0 s') -> wp (idewait n false) Q s.
Proof.
  induction k as [|k IH]; intros [|n] s Q Hn Hk HQ; try lia; cbn [idewait]; apply wp_bind; unfold wp at 1, inb;
    change (Z.lor IDE_BSY IDE_DRDY) with 192; change IDE_DRDY with 64.
  - cbn [Nat.iter nat_rect] in Hk. destruct (bus_in 503 s) as [x s1]. cbn [fst snd] in *. rewrite Hk. cbn. apply wp_ret, HQ.
  - rewrite Nat.iter_succ_r in Hk. destruct (bus_in 503 s) as [x s1]. cbn [fst snd] in *.
    destruct (_ =? 64); cbn [negb andb]; [apply wp_ret, HQ|]. apply IH; [lia|done|done].
Qed.
Lemma idewait_ok (s : S) Q : (forall s', Q 0 s') -> wp (idewait rounds false) Q s.
Proof. intros HQ. destruct (dr_ready s) as (k & Hk & E). by eapply idewait_wp. Qed.

(** What the registers hold for block [n] of device [dev]. *)
Lemma lba_split reg n dev : 0 <= n < FSSIZE -> reg 499 = u8 (Z.land n 255) -> reg 500 = u8 (Z.land (Z.shiftr n 8) 255) ->
  reg 501 = u8 (Z.land (Z.shiftr n 16) 255) -> reg 502 = u8 (Z.lor (Z.lor 224 (Z.shiftl (Z.land dev 1) 4)) (Z.land (Z.shiftr n 24) 15)) ->
  lba reg = n /\ drive_bit reg = Z.land dev 1.
Proof.
  intros Hn E1 E2 E3 E4. assert (Hd : Z.land dev 1 = 0 \/ Z.land dev 1 = 1).
  { pose proof (Z.land_ones dev 1 ltac:(lia)) as E. change (Z.ones 1) with 1 in E. lia. }
  unfold lba, drive_bit, FSSIZE in *. rewrite E1, E2, E3, E4.
  replace (Z.shiftr n 24) with 0 by (rewrite Z.shiftr_div_pow2 by lia; lia). replace (Z.shiftr n 16) with 0 by (rewrite Z.shiftr_div_pow2 by lia; lia).
  rewrite Z.shiftr_div_pow2 by lia. change 255 with (Z.ones 8). rewrite !Z.land_ones by lia.
  destruct Hd as [-> | ->]; (split; [|by vm_compute]); unfold u8;
    [change (Z.land (Z.lor (Z.lor 224 (Z.shiftl 0 4)) (Z.land 0 15) mod 2 ^ 8) 15) with 0|
     change (Z.land (Z.lor (Z.lor 224 (Z.shiftl 1 4)) (Z.land 0 15) mod 2 ^ 8) 15) with 0]; lia.
Qed.

(** C33: the ports of the IDE driver. For every buffer, [idestart] with its port writes
    either panics as the request queue's model does, or returns with the controller
    holding the command that the model records: read or write, the drive, the sector, and for
    a write the buffer's data. *)
Theorem idestart_refines (s : ide P) i (h : S) : 0 <= b_blockno (buf_at s i) < 2 ^ 32 ->
  match idestart_io rounds (Some (buf_at s i)) h, idestart (Some i) s with
  | Ret _ h', Ret _ s' => dr_cmd h' = i_cmd s'
  | Panic m, Panic m' => m = m'
  | _, _ => False
  end.
Proof.
  intros Hn. unfold idestart_io, idestart. rewrite run_bind_get. cbv zeta. destruct (FSSIZE <=? b_blockno (buf_at s i)) eqn:E; [done|].
  cbv zeta. change (BSIZE / SECTOR_SIZE) with 1. change (7 <? 1) with false. change (1 =? 1) with true. cbv iota.
  rewrite Z.mul_1_r, s32_small by (unfold FSSIZE in *; lia).
  set (b := buf_at s i) in *. set (n := b_blockno b) in *.
  unfold modify at 1. set (cmd := if has_flag _ _ then CmdWrite _ _ _ else _). cbn [i_cmd set_i_cmd].
  match goal with |- match ?m h with _ => _ end => assert (HW : wp m (fun _ h' => dr_cmd h' = Some cmd) h) end;
    [|unfold wp in HW; match type of HW with match ?x with _ => _ end => by destruct x end].
  apply wp_bind, idewait_ok. intros h0. do 6 apply wp_bind, outb_wp.
  match goal with |- wp _ _ ?x => set (h1 := x) end.
  assert (Hr : forall q, dr_reg h1 q = if q =? 502 then u8 (Z.lor (Z.lor 224 (Z.shiftl (Z.land (b_dev b) 1) 4)) (Z.land (Z.shiftr n 24) 15))
    else if q =? 501 then u8 (Z.land (Z.shiftr n 16) 255) else if q =? 500 then u8 (Z.land (Z.shiftr n 8) 255)
    else if q =? 499 then u8 (Z.land n 255) else if q =? 498 then 1 else if q =? 1014 then 0 else dr_reg h0 q).
  { intros q. unfold h1. by rewrite !dr_out. }
  destruct (lba_split (dr_reg h1) n (b_dev b)) as [Hl Hd]; [unfold FSSIZE in *; lia|by rewrite Hr..|].
  assert (H1' : dr_reg h1 498 = 1) by (by rewrite Hr). clearbody h1. unfold cmd.
  destruct (has_flag (b_flags b) B_DIRTY).
  - apply wp_bind, outb_wp. unfold wp, outsl, modify. change (u8 IDE_CMD_WRITE) with 48. by rewrite dr_write, Hl, Hd.
  - apply outb_wp. change (u8 IDE_CMD_READ) with 32. by rewrite dr_read, Hl, Hd.
Qed.
End IdeIo.

(** A controller that is always ready. *)
Record ide_ctl := Ctl { ctl_regs : list (Z * Z); ctl_cmd : option ide_cmd }.
Definition ctl_reg (s : ide_ctl) (p : Z) : Z := default 0 (snd <$> head (filter (fun r => r.1 = p) (ctl_regs s))).
#[export] Instance ide_ctl_bus : Bus ide_ctl := {|
  bus_in := fun _ s => (64, s);
  bus_out := fun p v s => Ctl ((p, v) :: ctl_regs s)
    (if (p =? 503) && (v =? 32) then Some (CmdRead (drive_bit (ctl_reg s)) (lba (ctl_reg s))) else ctl_cmd s);
  bus_insl := fun _ _ s => ([], s);
  bus_outsl := fun _ data s => Ctl (ctl_regs s) (Some (CmdWrite (drive_bit (ctl_reg s)) (lba (ctl_reg s)) data));
  bus_load := fun _ s => (0, s);
  bus_store := fun _ _ s => s
|}.
#[export] Instance ide_ctl_drive : IdeDrive ide_ctl 1.
Proof.
  refine {| dr_reg := ctl_reg; dr_cmd := ctl_cmd |}; try done.
  - intros p v s q. unfold ctl_reg. cbn [bus_out ide_ctl_bus ctl_regs]. rewrite filter_cons. cbn [fst].
    destruct (Z.eqb_spec q p) as [->|Hne]; [by rewrite decide_True|by rewrite decide_False].
  - intros s. exists 0%nat. split; [lia|]. done.
Defined.
Lemma idestart_refines_witness :
  match idestart_io 1 (Some md_demo_buf) (Ctl [] None), idestart (P := lone_proc) (Some 0%nat) ide_demo with
  | Ret _ h', Ret _ s' => ctl_cmd h' = i_cmd s'
  | _, _ => False
  end.
Proof.
  pose proof (idestart_refines (rounds := 1) ide_demo 0 (Ctl [] None) ltac:(vm_compute; split; [discriminate|reflexivity])) as Hr.
  exact Hr.
Defined.
