(* ===== verification/Programs.v ===== *)
(** * More user programs: init.c, ls.c, time.c, forktest.c, stressfs.c, zombie.c, and [stat] of ulib.c

    The programs over the system-call interface of User, with the further calls they
    make. Loops that end only by what the kernel answers take a bound. *)
From S2P Require Import Prelude Param CString Printf User Fs.

Class MoreSys (S : Type) := {
  (** [None]: -1. *)
  u_fstat : Z -> U S (option stat);
  u_mknod : list Z -> Z -> Z -> U S Z;
  (** [*wtime] and [*rtime] after the call. *)
  u_waitx : U S (Z * Z);
  u_sleep : Z -> U S Z;
  (** [exec] of the string at address 0. *)
  u_exec_null : list (list Z) -> U S unit
}.

Section Programs.
Context {S : Type} `{UserSys S} `{MoreSys S}.

(** ** ulib.c *)

Definition stat_ (n : list Z) : U S (option stat) :=
  do! fd := u_open n 0 in
  if fd <? 0 then uret None
  else
  do! r := u_fstat fd in
  u_close fd ;!
  uret r.

(** ** init.c *)

(** [while ((wpid = wait()) >= 0 && wpid != pid)] *)
Fixpoint init_wait (fuel : nat) (pid : Z) : U S unit :=
  match fuel with
  | O => ufuel
  | Datatypes.S fuel =>
    do! wpid := u_wait in
    if (0 <=? wpid) && negb (wpid =? pid) then puts_ 1 (codes "zombie!" ++ [10]) ;! init_wait fuel pid else uret tt
  end.
Fixpoint init_loop (fuel : nat) : U S unit :=
  match fuel with
  | O => ufuel
  | Datatypes.S fuel =>
    puts_ 1 (codes "init: starting sh" ++ [10]) ;!
    do! pid := u_fork in
    if pid <? 0 then puts_ 1 (codes "init: fork failed" ++ [10]) ;! exit
    else if pid =? 0 then u_exec (codes "sh") [codes "sh"] ;! puts_ 1 (codes "init: exec sh failed" ++ [10]) ;! exit
    else init_wait fuel pid ;! init_loop fuel
  end.
Definition init_main (fuel : nat) : U S unit :=
  do! fd := u_open (codes "console") 2 in
  (if fd <? 0 then u_mknod (codes "console") 1 1 ;! u_open (codes "console") 2 ;! uret tt else uret tt) ;!
  u_dup 0 ;!
  u_dup 0 ;!
  init_loop fuel.

(** ** ls.c *)

(** The part of [l] after its last slash; [cur] is what was read since the last one. *)
Fixpoint after_slash (cur l : list Z) : list Z :=
  match l with
  | [] => cur
  | c :: l => if c =? 47 then after_slash [] l else after_slash (cur ++ [c]) l
  end.
(** Blank-padded to [DIRSIZ] in the static buffer, whose last byte stays NUL. *)
Definition fmtname (path : list Z) : list Z :=
  let p := after_slash [] path in
  if DIRSIZ <=? zlen p then p else p ++ replicate (Z.to_nat (DIRSIZ - zlen p)) 32.
(** ["%s %d %d %d\n"] *)
Definition ls_line (path : list Z) (st : stat) : list Z :=
  fmtname path ++ [32] ++ printint (st_type st) 10 1 ++ [32] ++ printint (st_ino st) 10 1 ++ [32] ++ printint (st_size st) 10 1 ++ [10].
Fixpoint ls_dir (fuel : nat) (fd : Z) (path : list Z) : U S unit :=
  match fuel with
  | O => ufuel
  | Datatypes.S fuel =>
    do! (n, b) := u_read fd DIRENT in
    if negb (n =? DIRENT) then uret tt
    else
    let de := dirent_of b in
    if de_inum de =? 0 then ls_dir fuel fd path
    else
    (* p[DIRSIZ] = 0 *)
    let buf := path ++ [47] ++ until_nul (de_name de) in
    do! r := stat_ buf in
    match r with
    | None => puts_ 1 (codes "ls: cannot stat " ++ buf ++ [10]) ;! ls_dir fuel fd path
    | Some st => puts_ 1 (ls_line buf st) ;! ls_dir fuel fd path
    end
  end.
Definition ls (fuel : nat) (path : list Z) : U S unit :=
  do! fd := u_open path 0 in
  if fd <? 0 then puts_ 2 (codes "ls: cannot open " ++ path ++ [10])
  else
  do! r := u_fstat fd in
  match r with
  | None => puts_ 2 (codes "ls: cannot stat " ++ path ++ [10]) ;! u_close fd ;! uret tt
  | Some st =>
    (if st_type st =? T_FILE then puts_ 1 (ls_line path st)
     else if st_type st =? T_DIR then
       if 512 <? zlen path + 1 + DIRSIZ + 1 then puts_ 1 (codes "ls: path too long" ++ [10])
       else ls_dir fuel fd path
     else uret tt) ;!
    u_close fd ;!
    uret tt
  end.
Fixpoint ls_args (fuel : nat) (args : list (list Z)) : U S unit :=
  match args with [] => exit | a :: args => ls fuel a ;! ls_args fuel args end.
Definition ls_main (fuel : nat) (argv : list (list Z)) : U S unit :=
  if zlen argv <? 2 then ls fuel [46] ;! exit else ls_args fuel (tail argv).

(** ** time.c *)

Definition time_main (argv : list (list Z)) : U S unit :=
  do! a := u_fork in
  (if a =? 0 then match argv with _ :: p :: rest => u_exec p (p :: rest) | _ => u_exec_null [] end
   else
   do! (wtime, rtime) := u_waitx in
   puts_ 1 (codes "Runtime: " ++ printint rtime 10 1 ++ codes ", Wtime: " ++ printint wtime 10 1 ++ [10])) ;!
  exit.

(** ** forktest.c *)

(** It has a [printf] of its own: one [write] of the format. *)
Definition ft_print (s : string) : U S unit := u_write 1 (codes s ++ [10]) ;! uret tt.
Definition FORKS : Z := 1000.
(** [n] when the loop is left. *)
Fixpoint fork_loop (k : nat) (n : Z) : U S Z :=
  match k with
  | O => uret n
  | Datatypes.S k =>
    do! pid := u_fork in
    if pid <? 0 then uret n else if pid =? 0 then exit else fork_loop k (n + 1)
  end.
Fixpoint wait_loop (n : nat) : U S unit :=
  match n with
  | O => uret tt
  | Datatypes.S n => do! r := u_wait in if r <? 0 then ft_print "wait stopped early" ;! exit else wait_loop n
  end.
Definition forktest : U S unit :=
  ft_print "fork test" ;!
  do! n := fork_loop (Z.to_nat FORKS) 0 in
  if n =? FORKS then ft_print "fork claimed to work N times!" ;! exit
  else
  wait_loop (Z.to_nat n) ;!
  do! r := u_wait in
  if negb (r =? -1) then ft_print "wait got too many" ;! exit else ft_print "fork test OK".
Definition forktest_main : U S unit := forktest ;! exit.

(** ** stressfs.c and zombie.c *)

Fixpoint stress_fork (k : nat) (i : Z) : U S Z :=
  match k with
  | O => uret i
  | Datatypes.S k => do! r := u_fork in if 0 <? r then uret i else stress_fork k (i + 1)
  end.
Fixpoint times (n : nat) (m : U S unit) : U S unit :=
  match n with O => uret tt | Datatypes.S n => m ;! times n m end.
Definition stressfs_main : U S unit :=
  puts_ 1 (codes "stressfs starting" ++ [10]) ;!
  do! i := stress_fork 4 0 in
  puts_ 1 (codes "write " ++ printint i 10 1 ++ [10]) ;!
  let path := codes "stressfs" ++ [48 + i] in
  do! fd := u_open path 514 in
  times 20 (u_write fd (replicate 512 97) ;! uret tt) ;!
  u_close fd ;!
  puts_ 1 (codes "read" ++ [10]) ;!
  do! fd := u_open path 0 in
  times 20 (u_read fd 512 ;! uret tt) ;!
  u_close fd ;!
  u_wait ;!
  exit.
Definition zombie_main : U S unit :=
  do! r := u_fork in
  (if 0 <? r then u_sleep 5 ;! uret tt else uret tt) ;!
  exit.
End Programs.

(** ** A kernel that runs out of processes *)

(** Free places in the process table, children not yet waited for, and what was written. *)
Record pool := Pool { pl_free : Z; pl_kids : Z; pl_out : list Z }.
#[export] Instance pool_sys : UserSys pool := {|
  u_fork := fun s => if pl_free s =? 0 then UDone (-1) s else UDone 2 (Pool (pl_free s - 1) (pl_kids s + 1) (pl_out s));
  u_wait := fun s => if pl_kids s =? 0 then UDone (-1) s else UDone 2 (Pool (pl_free s + 1) (pl_kids s - 1) (pl_out s));
  u_pipe := fun s => UDone None s;
  u_read := fun _ _ s => UDone (0, []) s;
  u_write := fun _ l s => UDone (zlen l) (Pool (pl_free s) (pl_kids s) (pl_out s ++ l));
  u_close := fun _ s => UDone 0 s;
  u_dup := fun _ s => UDone 1 s;
  u_open := fun _ _ s => UDone 3 s;
  u_exec := fun p v s => UExec p v s;
  u_chdir := fun _ s => UDone 0 s;
  u_mkdir := fun _ s => UDone 0 s;
  u_unlink := fun _ s => UDone 0 s;
  u_link := fun _ _ s => UDone 0 s;
  u_kill := fun _ s => UDone 0 s
|}.

(** The loop takes every place there is. *)
Lemma fork_loop_pool k : forall n s, 0 <= pl_free s <= Z.of_nat k ->
  fork_loop k n s = UDone (n + pl_free s) (Pool 0 (pl_kids s + pl_free s) (pl_out s)).
Proof.
  induction k as [|k IH]; intros n [free kids out] Hf; cbn [fork_loop pl_free pl_kids pl_out] in *.
  - replace free with 0 by lia. unfold uret. by rewrite !Z.add_0_r.
  - destruct (Z.eqb_spec free 0) as [->|Hne].
    + erewrite ubind_done by reflexivity. cbn. unfold uret. by rewrite !Z.add_0_r.
    + erewrite ubind_done by (cbn; by rewrite (proj2 (Z.eqb_neq free 0))). cbn [Z.ltb Z.eqb Z.compare].
      rewrite IH by (cbn [pl_free]; lia). cbn [pl_free pl_kids pl_out]. f_equal; [lia|f_equal; lia].
Qed.
Lemma wait_loop_pool n : forall s, pl_kids s = Z.of_nat n ->
  wait_loop n s = UDone tt (Pool (pl_free s + pl_kids s) 0 (pl_out s)).
Proof.
  induction n as [|n IH]; intros [free kids out] Hk; cbn [wait_loop pl_free pl_kids pl_out] in *.
  - rewrite Hk. unfold uret. by rewrite Z.add_0_r.
  - erewrite ubind_done by (cbn; by rewrite (proj2 (Z.eqb_neq kids 0)) by lia). cbn [Z.ltb Z.compare].
    rewrite IH by (cbn [pl_kids]; lia). cbn [pl_free pl_kids pl_out]. f_equal. f_equal; lia.
Qed.

Lemma ft_print_pool m s : ft_print m s = UDone tt (Pool (pl_free s) (pl_kids s) (pl_out s ++ codes m ++ [10])).
Proof. done. Qed.

(** On a kernel whose process table has fewer than 1000 free places, [forktest] fills the
    table, waits for every child, is told that there are no more, and reports success with
    all places free again. *)
Theorem forktest_passes free out : 0 <= free < FORKS ->
  forktest (Pool free 0 out) = UDone tt (Pool free 0 (out ++ codes "fork test" ++ [10] ++ codes "fork test OK" ++ [10])).
Proof.
  intros Hf. unfold forktest. erewrite ubind_done by apply ft_print_pool. cbn [pl_free pl_kids pl_out].
  erewrite ubind_done by (apply fork_loop_pool; cbn [pl_free]; unfold FORKS in *; lia). cbn [pl_free pl_kids pl_out].
  rewrite (proj2 (Z.eqb_neq (0 + free) FORKS)) by lia.
  erewrite ubind_done by (apply wait_loop_pool; cbn [pl_kids]; lia). cbn [pl_free pl_kids pl_out].
  erewrite ubind_done by reflexivity. change (negb (-1 =? -1)) with false. cbv iota. rewrite ft_print_pool. cbn [pl_free pl_kids pl_out].
  rewrite !Z.add_0_l, <-!app_assoc. done.
Qed.
Lemma forktest_passes_witness : forktest (Pool 61 0 []) =
  UDone tt (Pool 61 0 ([] ++ codes "fork test" ++ [10] ++ codes "fork test OK" ++ [10])).
Proof. apply (forktest_passes 61 []). unfold FORKS. lia. Defined.

(** ** A kernel with files *)

(** An open descriptor: the terminal, or a file opened for reading, at an offset. *)
Inductive du_file := Terminal | At (path : list Z) (off : Z).
(** Files by path, the process's table of descriptors with its free places, and the bytes
    that reached the terminal, each with the descriptor it was written to. *)
Record disk_user := Du { du_files : list Z -> option (stat * list Z); du_fds : list (option du_file); du_out : list (Z * Z) }.
Definition du_at (fd : Z) (s : disk_user) : option du_file := if fd <? 0 then None else mjoin (du_fds s !! Z.to_nat fd).
Definition du_put (fd : Z) (x : option du_file) (s : disk_user) : disk_user := Du (du_files s) (<[Z.to_nat fd := x]> (du_fds s)) (du_out s).
(** The first free place. *)
Fixpoint du_free (l : list (option du_file)) : option nat :=
  match l with [] => None | None :: _ => Some O | Some _ :: l => S <$> du_free l end.
Definition du_alloc (x : du_file) (s : disk_user) : uout disk_user Z :=
  match du_free (du_fds s) with
  | None => UDone (-1) s
  | Some i => UDone (Z.of_nat i) (du_put (Z.of_nat i) (Some x) s)
  end.
Definition say (fd : Z) (l : list Z) : list (Z * Z) := pair fd <$> l.
(** Reading the terminal finds the end of the input; files are open for reading only. *)
#[export] Instance du_sys : UserSys disk_user := {|
  u_fork := fun s => UDone (-1) s;
  u_wait := fun s => UDone (-1) s;
  u_pipe := fun s => UDone None s;
  u_read := fun fd n s =>
    match du_at fd s with
    | None => UDone (-1, []) s
    | Some Terminal => UDone (0, []) s
    | Some (At p off) =>
      let d := match du_files s p with Some (_, b) => take (Z.to_nat n) (drop (Z.to_nat off) b) | None => [] end in
      UDone (zlen d, d) (du_put fd (Some (At p (off + zlen d))) s)
    end;
  u_write := fun fd l s =>
    match du_at fd s with
    | Some Terminal => UDone (zlen l) (Du (du_files s) (du_fds s) (du_out s ++ say fd l))
    | _ => UDone (-1) s
    end;
  u_close := fun fd s => match du_at fd s with None => UDone (-1) s | Some _ => UDone 0 (du_put fd None s) end;
  u_dup := fun fd s => match du_at fd s with None => UDone (-1) s | Some x => du_alloc x s end;
  u_open := fun p _ s => match du_files s p with None => UDone (-1) s | Some _ => du_alloc (At p 0) s end;
  u_exec := fun p v s => UExec p v s;
  u_chdir := fun _ s => UDone 0 s;
  u_mkdir := fun _ s => UDone 0 s;
  u_unlink := fun _ s => UDone 0 s;
  u_link := fun _ _ s => UDone 0 s;
  u_kill := fun _ s => UDone 0 s
|}.
#[export] Instance du_more : MoreSys disk_user := {|
  u_fstat := fun fd s =>
    match du_at fd s with
    | Some (At p _) => UDone (fst <$> du_files s p) s
    | _ => UDone None s
    end;
  u_mknod := fun _ _ _ s => UDone 0 s;
  u_waitx := fun s => UDone (0, 0) s;
  u_sleep := fun _ s => UDone 0 s;
  u_exec_null := fun _ s => UDone tt s
|}.

Lemma puts_du l : forall fd s, du_at fd s = Some Terminal -> puts_ fd l s = UDone tt (Du (du_files s) (du_fds s) (du_out s ++ say fd l)).
Proof.
  induction l as [|c l IH]; intros fd s Hfd; cbn [puts_].
  - unfold say. cbn [fmap list_fmap]. rewrite app_nil_r. by destruct s.
  - erewrite ubind_done by (cbn [u_write du_sys]; by rewrite Hfd). rewrite IH by done. cbn [du_files du_fds du_out]. by rewrite <-app_assoc.
Qed.

(** How many more files can be opened. *)
Fixpoint spare (l : list (option du_file)) : nat := match l with [] => O | None :: l => S (spare l) | Some _ :: l => spare l end.
Lemma free_some l : forall i, du_free l = Some i -> l !! i = Some None.
Proof.
  induction l as [|[y|] l IH]; intros i; cbn [du_free spare]; [done| |intros [= <-]; done].
  destruct (du_free l) as [j|]; [intros [= <-]|done]. by apply IH.
Qed.
Lemma spare_insert l : forall i x, l !! i = Some None -> spare l = S (spare (<[i := Some x]> l)).
Proof. induction l as [|[y|] l IH]; intros [|i] x Hi; cbn in *; try done; [by apply IH|]. f_equal. by apply IH. Qed.
Lemma free_none l : du_free l = None <-> spare l = O.
Proof. induction l as [|[y|] l IH]; cbn [du_free spare]; [done| |done]. rewrite <-IH. by destruct (du_free l). Qed.
(** A file that is open in the place [i], free before. *)
Definition du_on (i : nat) (p : list Z) (off : Z) (s : disk_user) : disk_user := du_put (Z.of_nat i) (Some (At p off)) s.
Section Opened.
Context (i : nat) (s : disk_user) (Hi : du_fds s !! i = Some None).
Lemma on_at p off : du_at (Z.of_nat i) (du_on i p off s) = Some (At p off).
Proof.
  unfold du_at, du_on, du_put. rewrite (proj2 (Z.ltb_ge _ _)), Nat2Z.id by lia. cbn [du_fds].
  by rewrite list_lookup_insert_eq by (by eapply lookup_lt_Some).
Qed.
Lemma on_other p off fd : du_at fd s = Some Terminal -> du_at fd (du_on i p off s) = Some Terminal.
Proof.
  unfold du_at, du_on, du_put. destruct (fd <? 0); [done|]. cbn [du_fds]. rewrite Nat2Z.id. intros Hfd.
  rewrite list_lookup_insert_ne; [done|]. intros Ei. by rewrite <-Ei, Hi in Hfd.
Qed.
Lemma on_put p off off' : du_put (Z.of_nat i) (Some (At p off')) (du_on i p off s) = du_on i p off' s.
Proof. unfold du_on, du_put. cbn. by rewrite !Nat2Z.id, list_insert_insert_eq. Qed.
Lemma on_close p off : u_close (Z.of_nat i) (du_on i p off s) = UDone 0 s.
Proof.
  cbn [u_close du_sys]. rewrite on_at. unfold du_on, du_put. cbn. rewrite !Nat2Z.id, list_insert_insert_eq, list_insert_id by done. by destruct s.
Qed.
End Opened.
Lemma open_du p s : u_open p 0 s =
  match du_files s p, du_free (du_fds s) with Some _, Some i => UDone (Z.of_nat i) (du_on i p 0 s) | _, _ => UDone (-1) s end.
Proof. cbn [u_open du_sys]. unfold du_alloc. by destruct (du_files s p), (du_free (du_fds s)). Qed.

(** [stat] leaves the descriptors as they were; it needs one. *)
Lemma stat_du p s : stat_ p s = UDone (if (spare (du_fds s) =? 0)%nat then None else fst <$> du_files s p) s.
Proof.
  unfold stat_. destruct (Nat.eqb_spec (spare (du_fds s)) 0) as [E%free_none|Hne].
  - erewrite ubind_done; [|rewrite open_du, E; by destruct (du_files s p)]. done.
  - destruct (du_free (du_fds s)) as [i|] eqn:Ei; [|by apply free_none in Ei]. pose proof (free_some _ _ Ei) as Hi.
    destruct (du_files s p) as [[st b]|] eqn:E; [|erewrite ubind_done by (by rewrite open_du, E); done].
    erewrite ubind_done by (by rewrite open_du, E, Ei). rewrite (proj2 (Z.ltb_ge _ _)) by lia.
    erewrite ubind_done by (cbn [u_fstat du_more]; by rewrite on_at).
    erewrite ubind_done by (by apply on_close). cbn. by rewrite E.
Qed.

(** What [ls] prints for the entries of a directory: nothing for a free entry, and a line
    for every other; [more]: one more file can be opened. *)
Definition ls_entry (more : bool) (files : list Z -> option (stat * list Z)) (path : list Z) (de : dirent) : list Z :=
  if de_inum de =? 0 then []
  else
  let name := path ++ [47] ++ until_nul (de_name de) in
  match files name with
  | Some (st, _) => if more then ls_line name st else codes "ls: cannot stat " ++ name ++ [10]
  | None => codes "ls: cannot stat " ++ name ++ [10]
  end.
Definition dir_data (des : list dirent) : list Z := concat (dirent_bytes <$> des).

(** A read at offset [off] of a file that was just opened. *)
Lemma read_du i s p off n st b : du_fds s !! i = Some None -> du_files s p = Some (st, b) ->
  let d := take (Z.to_nat n) (drop (Z.to_nat off) b) in
  u_read (Z.of_nat i) n (du_on i p off s) = UDone (zlen d, d) (du_on i p (off + zlen d) s).
Proof.
  intros Hi E d. cbn [u_read du_sys]. rewrite on_at by done. change (du_files (du_on i p off s)) with (du_files s).
  rewrite E. fold d. by rewrite on_put.
Qed.

Definition dirent_ok (de : dirent) : Prop := 0 <= de_inum de < 2 ^ 16 /\ length (de_name de) = 14%nat.
Lemma dirent_bytes_length de : dirent_ok de -> length (dirent_bytes de) = 16%nat.
Proof. intros [_ Hn]. unfold dirent_bytes. rewrite length_app, Hn. done. Qed.
Lemma dirent_of_bytes de : dirent_ok de -> dirent_of (dirent_bytes de) = de.
Proof.
  destruct de as [inum name]. intros [Hi Hn]. unfold dirent_of, dirent_bytes. cbn [de_inum de_name] in *.
  change (put16 [0; 0] 0 inum) with [u8 inum; u8 (inum / 256)]. f_equal.
  - change (u8 inum + 256 * u8 (inum / 256) = inum). unfold u8. lia.
  - change (drop 2 ([u8 inum; u8 (inum / 256)] ++ name)) with name. apply take_ge. unfold DIRSIZ. lia.
Qed.

Definition du_print (l : list Z) (s : disk_user) : disk_user := Du (du_files s) (du_fds s) (du_out s ++ say 1 l).
Lemma ls_dir_du i p st b : forall des off fuel s, du_fds s !! i = Some None -> du_files s p = Some (st, b) -> du_at 1 s = Some Terminal ->
  Forall dirent_ok des -> 0 <= off -> drop (Z.to_nat off) b = dir_data des -> (length des < fuel)%nat ->
  ls_dir fuel (Z.of_nat i) p (du_on i p off s) =
  UDone tt (du_on i p (off + zlen (dir_data des)) (du_print (concat (ls_entry (1 <? spare (du_fds s))%nat (du_files s) p <$> des)) s)).
Proof.
  induction des as [|de des IH]; intros off fuel s Hi E H1 Hok Ho Hd Hf; (destruct fuel as [|fuel]; [cbn [length] in Hf; lia|]);
    cbn [ls_dir]; erewrite ubind_done by (by apply (read_du _ _ _ _ _ _ _ Hi E)); rewrite Hd.
  - change (zlen (take (Z.to_nat DIRENT) (dir_data []))) with 0. change (zlen (dir_data [])) with 0. cbn. unfold uret, du_print, say.
    cbn. rewrite app_nil_r. by destruct s.
  - inversion Hok as [|? ? Hok1 Hok2]; subst. pose proof (dirent_bytes_length _ Hok1) as Hl.
    change (dir_data (de :: des)) with (dirent_bytes de ++ dir_data des) in *.
    rewrite take_app_length' by (by rewrite Hl). cbv beta iota. unfold zlen at 1 2. rewrite Hl. change (Z.of_nat 16) with 16. change (negb (16 =? DIRENT)) with false. cbv iota.
    rewrite dirent_of_bytes by done. cbv zeta.
    assert (HI : forall l, ls_dir fuel (Z.of_nat i) p (du_on i p (off + 16) (du_print l s)) =
      UDone tt (du_on i p (off + zlen (dirent_bytes de ++ dir_data des))
        (du_print (l ++ concat (ls_entry (1 <? spare (du_fds s))%nat (du_files s) p <$> des)) s))).
    { intros l. rewrite IH; [|done|done|done|done|lia| |cbn [length] in Hf; lia].
      - replace (off + zlen (dirent_bytes de ++ dir_data des)) with (off + 16 + zlen (dir_data des))
          by (unfold zlen; rewrite length_app, Hl; lia).
        unfold du_print, say. cbn. by rewrite fmap_app, app_assoc.
      - replace (Z.to_nat (off + 16)) with (Z.to_nat off + 16)%nat by lia. rewrite <-drop_drop, Hd.
        by rewrite drop_app_length' by (by rewrite Hl). }
    assert (HS : (spare (du_fds (du_on i p (off + 16) s)) =? 0)%nat = negb (1 <? spare (du_fds s))%nat).
    { cbn [du_on du_put du_fds]. rewrite Nat2Z.id. pose proof (spare_insert _ _ (At p (off + 16)) Hi) as Hs.
      destruct (Nat.eqb_spec (spare (<[i:=Some (At p (off + 16))]> (du_fds s))) 0), (Nat.ltb_spec 1 (spare (du_fds s))); (done || lia). }
    assert (HP : forall l, puts_ 1 l (du_on i p (off + 16) s) = UDone tt (du_on i p (off + 16) (du_print l s))).
    { intros l. by rewrite puts_du by (by apply on_other). }
    cbn [fmap list_fmap concat]. change (list_fmap _ _ (ls_entry ?m ?f p) des) with (ls_entry m f p <$> des).
    set (L := concat _) in *. unfold ls_entry. cbv zeta. destruct (de_inum de =? 0).
    + specialize (HI []). by replace (du_print [] s) with s in HI by (unfold du_print, say; cbn; rewrite app_nil_r; by destruct s).
    + erewrite ubind_done by apply stat_du. rewrite HS. change (du_files (du_on i p (off + 16) s)) with (du_files s).
      destruct (1 <? spare (du_fds s))%nat, (du_files s (p ++ _)) as [[st' b']|]; cbn [negb fmap option_fmap option_map fst];
        (erewrite ubind_done by apply HP); by rewrite HI.
Qed.

(** C31: [ls], run with the terminal as its descriptors 1 and 2 and whatever else open. A
    directory is listed on descriptor 1, in the directory's order, with one line for every
    entry in use (its name padded with blanks, and the type, the inode number and the size
    of the file that the path through the directory names) and nothing for an entry whose
    inode number is 0; an entry whose file cannot be opened, and every entry when the
    directory itself took the last free descriptor, gives a message there, and so does a
    directory with a path of more than 496 bytes. A file gives its own line. A path that
    cannot be opened, or any path when no descriptor is free, gives a message on descriptor
    2. Every descriptor [ls] opened is closed again. *)
Theorem ls_lists p fuel s : du_at 1 s = Some Terminal -> du_at 2 s = Some Terminal ->
  let prints fd l := ls fuel p s = UDone tt (Du (du_files s) (du_fds s) (du_out s ++ say fd l)) in
  (du_files s p = None \/ spare (du_fds s) = O -> prints 2 (codes "ls: cannot open " ++ p ++ [10])) /\
  (forall st b, du_files s p = Some (st, b) -> (0 < spare (du_fds s))%nat ->
    (st_type st = T_FILE -> prints 1 (ls_line p st)) /\
    (st_type st = T_DIR -> 496 < zlen p -> prints 1 (codes "ls: path too long" ++ [10])) /\
    (forall des, st_type st = T_DIR -> zlen p <= 496 -> b = dir_data des -> Forall dirent_ok des -> (length des < fuel)%nat ->
      prints 1 (concat (ls_entry (1 <? spare (du_fds s))%nat (du_files s) p <$> des)))).
Proof.
  intros H1 H2 prints. unfold prints, ls. split.
  - intros Hno. assert (Ho : u_open p 0 s = UDone (-1) s).
    { rewrite open_du. destruct Hno as [->|Hno%free_none]; [done|rewrite Hno; by destruct (du_files s p)]. }
    erewrite ubind_done by exact Ho. by apply puts_du.
  - intros st b E Hs. destruct (du_free (du_fds s)) as [i|] eqn:Ei; [|apply free_none in Ei; lia]. pose proof (free_some _ _ Ei) as Hi.
    erewrite ubind_done by (by rewrite open_du, E, Ei). rewrite (proj2 (Z.ltb_ge _ _)) by lia.
    erewrite ubind_done by (cbn [u_fstat du_more]; by rewrite on_at). change (du_files (du_on i p 0 s)) with (du_files s). rewrite E.
    cbn [fmap option_fmap option_map fst].
    assert (HP : forall l off, (puts_ 1 l ;! u_close (Z.of_nat i) ;! uret tt) (du_on i p off s) =
      UDone tt (Du (du_files s) (du_fds s) (du_out s ++ say 1 l))).
    { intros l off. erewrite ubind_done by (rewrite puts_du by (by apply on_other); reflexivity).
      erewrite ubind_done; [reflexivity|]. by apply (on_close i (du_print l s)). }
    split; [|split]; [intros ->; apply HP| |]; intros; match goal with Et : st_type _ = _ |- _ => rewrite Et end;
      change (T_DIR =? T_FILE) with false; change (T_DIR =? T_DIR) with true; cbv iota.
    + rewrite (proj2 (Z.ltb_lt 512 _)) by (unfold DIRSIZ; lia). apply HP.
    + rewrite (proj2 (Z.ltb_ge 512 _)) by (unfold DIRSIZ; lia). subst b.
      erewrite ubind_done by (by apply (ls_dir_du i p st (dir_data des) des 0 fuel s Hi E)).
      match goal with |- context [du_print ?l s] => erewrite ubind_done by (by apply (on_close i (du_print l s))) end. done.
Qed.

(** A directory with a free entry between two files, one of which is missing. *)
Definition ls_des : list dirent := [Dirent 2 (codes "a" ++ replicate 13 0); Dirent 0 (replicate 14 0); Dirent 3 (codes "bb" ++ replicate 12 0)].
Definition ls_demo (p : list Z) : option (stat * list Z) :=
  if decide (p = [46]) then Some (Stat T_DIR 1 1 1 48, dir_data ls_des)
  else if decide (p = codes "./a") then Some (Stat T_FILE 1 2 1 7, [])
  else None.
Lemma ls_lists_witness : let fds := replicate 3 (Some Terminal) ++ [Some (At [46] 0)] ++ replicate 12 None in
  ls 4 [46] (Du ls_demo fds []) =
    UDone tt (Du ls_demo fds (say 1 (codes "a              2 2 7" ++ [10] ++ codes "ls: cannot stat ./bb" ++ [10]))) /\
  ls 4 [120] (Du ls_demo fds []) = UDone tt (Du ls_demo fds (say 2 (codes "ls: cannot open x" ++ [10]))).
Proof.
  intros fds. split.
  - destruct (ls_lists [46] 4 (Du ls_demo fds []) eq_refl eq_refl) as [_ H].
    destruct (H (Stat T_DIR 1 1 1 48) (dir_data ls_des) eq_refl ltac:(cbn; lia)) as (_ & _ & Hd).
    rewrite (Hd ls_des); [vm_compute; reflexivity|reflexivity|vm_compute; discriminate|reflexivity|repeat constructor; vm_compute; congruence|cbn; lia].
  - apply (ls_lists [120] 4 (Du ls_demo fds []) eq_refl eq_refl). by left.
Defined.
