(* ===== verification/Startup.v ===== *)
(** * Descriptors, the first page table and the other processors: mmu.h, seginit, tvinit, main.c

    The descriptor tables as the bit fields that the code fills in, the words they are in
    memory, and what the processor reads out of them; how [startothers] starts the other
    processors, whose own code is a parameter. *)
From S2P Require Import Prelude Param Iface CString Kalloc Vm Boot Devices.

(** ** Bit fields *)

(** Fields of the given widths, the first in the lowest bits. *)
Fixpoint pack (l : list (Z * Z)) : Z :=
  match l with
  | [] => 0
  | (n, x) :: l => x mod 2 ^ n + 2 ^ n * pack l
  end.
Definition widths (l : list (Z * Z)) : Z := foldr (fun f n => f.1 + n) 0 l.
(** [n] bits of [w] from bit [a]. *)
Definition field (w a n : Z) : Z := (w / 2 ^ a) mod 2 ^ n.

Lemma widths_nonneg l : Forall (fun f => 0 <= f.1) l -> 0 <= widths l.
Proof. unfold widths. induction 1 as [|f l Hf H IH]; cbn [foldr]; lia. Qed.
Lemma pack_field l1 n x l2 : Forall (fun f => 0 <= f.1) l1 -> 0 <= n ->
  field (pack (l1 ++ (n, x) :: l2)) (widths l1) n = x mod 2 ^ n.
Proof.
  unfold field. intros H Hn. induction H as [|[a y] l1 Ha H IH]; cbn [app pack].
  - change (2 ^ widths []) with 1. rewrite Z.div_1_r, Z.mul_comm, Z.mod_add by lia. apply Z.mod_mod. lia.
  - cbn [fst] in Ha. change (widths ((a, y) :: l1)) with (a + widths l1). pose proof (widths_nonneg _ H).
    rewrite Z.pow_add_r by lia. rewrite <-Z.div_div by lia. rewrite (Z.mul_comm (2 ^ a)), Z.div_add by lia.
    rewrite (Z.div_small (y mod 2 ^ a)) by (apply Z.mod_pos_bound; lia). by rewrite Z.add_0_l.
Qed.

(** ** mmu.h *)

Record segdesc := Seg {
  sd_lim_15_0 : Z; sd_base_15_0 : Z; sd_base_23_16 : Z; sd_type : Z; sd_s : Z; sd_dpl : Z; sd_p : Z;
  sd_lim_19_16 : Z; sd_avl : Z; sd_rsv1 : Z; sd_db : Z; sd_g : Z; sd_base_31_24 : Z
}.
Definition SEG (type base lim dpl : Z) : segdesc :=
  Seg (Z.land (Z.shiftr lim 12) 65535) (Z.land (u32 base) 65535)
    (Z.land (Z.shiftr (u32 base) 16) 255) type 1 dpl 1
    (Z.shiftr (u32 lim) 28) 0 0 1 1 (Z.shiftr (u32 base) 24).
Definition SEG16 (type base lim dpl : Z) : segdesc :=
  Seg (Z.land lim 65535) (Z.land (u32 base) 65535)
    (Z.land (Z.shiftr (u32 base) 16) 255) type 1 dpl 1
    (Z.shiftr (u32 lim) 16) 0 0 1 0 (Z.shiftr (u32 base) 24).
Definition seg_fields (d : segdesc) : list (Z * Z) :=
  [(16, sd_lim_15_0 d); (16, sd_base_15_0 d); (8, sd_base_23_16 d); (4, sd_type d); (1, sd_s d); (2, sd_dpl d); (1, sd_p d);
   (4, sd_lim_19_16 d); (1, sd_avl d); (1, sd_rsv1 d); (1, sd_db d); (1, sd_g d); (8, sd_base_31_24 d)].
Definition seg_word (d : segdesc) : Z := pack (seg_fields d).
Definition DPL_USER : Z := 3.
Definition STA_X : Z := 8.
Definition STA_W : Z := 2.
Definition STA_R : Z := 2.
Definition STS_T32A : Z := 9.
Definition STS_IG32 : Z := 14.
Definition STS_TG32 : Z := 15.
Definition SEG_KCODE : Z := 1.
Definition SEG_KDATA : Z := 2.
Definition SEG_UCODE : Z := 3.
Definition SEG_UDATA : Z := 4.
Definition SEG_TSS : Z := 5.
Definition NSEGS : Z := 6.

Record gatedesc := Gate {
  gd_off_15_0 : Z; gd_cs : Z; gd_args : Z; gd_rsv1 : Z; gd_type : Z; gd_s : Z; gd_dpl : Z; gd_p : Z; gd_off_31_16 : Z
}.
Definition SETGATE (istrap : bool) (sel off d : Z) : gatedesc :=
  Gate (Z.land (u32 off) 65535) sel 0 0 (if istrap then STS_TG32 else STS_IG32) 0 d 1 (Z.shiftr (u32 off) 16).
Definition gate_fields (g : gatedesc) : list (Z * Z) :=
  [(16, gd_off_15_0 g); (16, gd_cs g); (5, gd_args g); (3, gd_rsv1 g); (4, gd_type g); (1, gd_s g); (2, gd_dpl g); (1, gd_p g); (16, gd_off_31_16 g)].
Definition gate_word (g : gatedesc) : Z := pack (gate_fields g).

(** ** x86.h: the operand of [lgdt] and [lidt], three 16-bit words *)

Definition lgdt (p size : Z) : list Z := [u16 (size - 1); u16 (u32 p); u16 (Z.shiftr (u32 p) 16)].
Definition lidt (p size : Z) : list Z := [u16 (size - 1); u16 (u32 p); u16 (Z.shiftr (u32 p) 16)].

(** ** vm.c and trap.c *)

(** [c->gdt] after [seginit]; the entries not set keep what they hold. *)
Definition seginit (gdt : list segdesc) : list segdesc :=
  let gdt := <[Z.to_nat SEG_KCODE := SEG (Z.lor STA_X STA_R) 0 4294967295 0]> gdt in
  let gdt := <[Z.to_nat SEG_KDATA := SEG STA_W 0 4294967295 0]> gdt in
  let gdt := <[Z.to_nat SEG_UCODE := SEG (Z.lor STA_X STA_R) 0 4294967295 DPL_USER]> gdt in
  <[Z.to_nat SEG_UDATA := SEG STA_W 0 4294967295 DPL_USER]> gdt.
Definition set_sd_s (v : Z) (d : segdesc) : segdesc :=
  Seg (sd_lim_15_0 d) (sd_base_15_0 d) (sd_base_23_16 d) (sd_type d) v (sd_dpl d) (sd_p d)
    (sd_lim_19_16 d) (sd_avl d) (sd_rsv1 d) (sd_db d) (sd_g d) (sd_base_31_24 d).
(** What [switchuvm] stores there for the task state at [ts], 104 bytes. *)
Definition switchuvm_tss (ts : Z) (gdt : list segdesc) : list segdesc :=
  <[Z.to_nat SEG_TSS := set_sd_s 0 (SEG16 STS_T32A ts (104 - 1) 0)]> gdt.
Definition T_SYSCALL : Z := 64.
(** [vectors]: the entry points of vectors.S. *)
Definition tvinit (vectors : list Z) : list gatedesc :=
  let idt := (fun i => SETGATE false (Z.shiftl SEG_KCODE 3) (nth i vectors 0) 0) <$> seq 0 256 in
  <[Z.to_nat T_SYSCALL := SETGATE true (Z.shiftl SEG_KCODE 3) (nth (Z.to_nat T_SYSCALL) vectors 0) DPL_USER]> idt.

(** ** main.c: the page table before [kvmalloc] *)

Definition PTE_PS : Z := 128.
Definition entrypgdir (i : Z) : Z :=
  if i =? 0 then Z.lor (Z.lor PTE_P PTE_W) PTE_PS
  else if i =? Z.shiftr KERNBASE 22 then Z.lor (Z.lor PTE_P PTE_W) PTE_PS
  else 0.

(** ** What the processor reads *)

Definition seg_base (w : Z) : Z := field w 16 16 + 2 ^ 16 * field w 32 8 + 2 ^ 24 * field w 56 8.
(** The last offset inside the segment. *)
Definition seg_limit (w : Z) : Z :=
  let lim := field w 0 16 + 2 ^ 16 * field w 48 4 in
  if field w 55 1 =? 1 then lim * 4096 + 4095 else lim.
Definition seg_dpl (w : Z) : Z := field w 45 2.
(** Present, not a system segment, executable. *)
Definition seg_is_code (w : Z) : bool := (field w 47 1 =? 1) && (field w 44 1 =? 1) && Z.testbit (field w 40 4) 3.
Definition gate_offset (w : Z) : Z := field w 0 16 + 2 ^ 16 * field w 48 16.
(** The processor at privilege level [cpl] takes vector [v], because of an [int] instruction
    when [soft], with the interrupt flag [ifl]: the new program counter, privilege level and
    interrupt flag; [None] is a protection fault instead. *)
Definition int_enter (gdt idt : list Z) (v cpl : Z) (soft ifl : bool) : option (Z * Z * bool) :=
  g ← idt !! Z.to_nat v;
  let type := field g 40 4 in
  if negb (field g 47 1 =? 1) || negb (field g 44 1 =? 0) || negb ((type =? 14) || (type =? 15)) then None
  else if soft && (field g 45 2 <? cpl) then None
  else
  s ← gdt !! Z.to_nat (field g 16 16 / 8);
  if negb (seg_is_code s) || (cpl <? seg_dpl s) then None
  else if seg_limit s <? gate_offset g then None
  else Some (u32 (seg_base s + gate_offset g), seg_dpl s, if type =? 14 then false else ifl).
(** A page directory of 4 MB pages. *)
Definition pse_translate (pgdir : Z -> Z) (va : Z) : option Z :=
  let e := pgdir (Z.shiftr va 22) in
  if negb (Z.land e PTE_P =? 0) && negb (Z.land e PTE_PS =? 0) then Some (e / 2 ^ 22 * 2 ^ 22 + va mod 2 ^ 22) else None.

(** ** Reading back what was filled in *)

(** Field [k] of a packed word. *)
Lemma pack_nth l k n x : Forall (fun f => 0 <= f.1) l -> l !! k = Some (n, x) ->
  field (pack l) (widths (take k l)) n = x mod 2 ^ n.
Proof.
  intros Hl E. rewrite <-(take_drop_middle l k (n, x)) at 1 by done. apply pack_field.
  - by apply Forall_take.
  - rewrite Forall_lookup in Hl. exact (Hl _ _ E).
Qed.

Lemma seg_field d k a n x : seg_fields d !! k = Some (n, x) -> widths (take k (seg_fields d)) = a ->
  field (seg_word d) a n = x mod 2 ^ n.
Proof. intros E <-. apply pack_nth; [|done]. repeat constructor; cbn; lia. Qed.
Lemma gate_field g k a n x : gate_fields g !! k = Some (n, x) -> widths (take k (gate_fields g)) = a ->
  field (gate_word g) a n = x mod 2 ^ n.
Proof. intros E <-. apply pack_nth; [|done]. repeat constructor; cbn; lia. Qed.

(** The base address comes back, and the bits that say what the segment is. *)
Lemma seg_base_word d b : sd_base_15_0 d = Z.land (u32 b) 65535 -> sd_base_23_16 d = Z.land (Z.shiftr (u32 b) 16) 255 ->
  sd_base_31_24 d = Z.shiftr (u32 b) 24 -> seg_base (seg_word d) = u32 b.
Proof.
  intros E1 E2 E3. unfold seg_base.
  rewrite (seg_field d 1 16 16 _ eq_refl eq_refl), (seg_field d 2 32 8 _ eq_refl eq_refl), (seg_field d 12 56 8 _ eq_refl eq_refl).
  rewrite E1, E2, E3. change 65535 with (Z.ones 16). change 255 with (Z.ones 8). rewrite !Z.land_ones, !Z.shiftr_div_pow2 by lia.
  pose proof (u32_range b). lia.
Qed.
(** The segments of [SEG]: base, limit in pages, privilege level. *)
Lemma SEG_word type base lim dpl : 0 <= lim < 2 ^ 32 -> 0 <= dpl < 4 ->
  let w := seg_word (SEG type base lim dpl) in
  seg_base w = u32 base /\ seg_limit w = Z.lor lim 4095 /\ seg_dpl w = dpl /\ seg_is_code w = Z.testbit type 3.
Proof.
  intros Hl Hd w. split; [by apply seg_base_word|]. split; [|split].
  - unfold seg_limit, w. rewrite (seg_field _ 11 55 1 _ eq_refl eq_refl), (seg_field _ 0 0 16 _ eq_refl eq_refl), (seg_field _ 7 48 4 _ eq_refl eq_refl).
    cbn [sd_g sd_lim_15_0 sd_lim_19_16 SEG]. rewrite u32_small by done. change (1 mod 2 ^ 1 =? 1) with true. cbv iota.
    change 65535 with (Z.ones 16). rewrite Z.land_ones, !Z.shiftr_div_pow2 by lia.
    pose proof (Z.add_lor_land lim 4095) as E. pose proof (Z.land_ones lim 12 ltac:(lia)) as E2. change (Z.ones 12) with 4095 in E2. lia.
  - unfold seg_dpl, w. rewrite (seg_field _ 5 45 2 _ eq_refl eq_refl). cbn [sd_dpl SEG]. apply Z.mod_small. lia.
  - unfold seg_is_code, w. rewrite (seg_field _ 6 47 1 _ eq_refl eq_refl), (seg_field _ 4 44 1 _ eq_refl eq_refl), (seg_field _ 3 40 4 _ eq_refl eq_refl).
    cbn [sd_p sd_s sd_type SEG]. change (1 mod 2 ^ 1 =? 1) with true. cbn [andb]. apply Z.mod_pow2_bits_low. lia.
Qed.
Lemma TSS_word ts : let w := seg_word (set_sd_s 0 (SEG16 STS_T32A ts (104 - 1) 0)) in
  seg_base w = u32 ts /\ seg_limit w = 103 /\ field w 40 4 = 9 /\ field w 44 1 = 0.
Proof.
  intros w. split; [by apply seg_base_word|]. split; [|split].
  - unfold seg_limit, w. by rewrite (seg_field _ 11 55 1 _ eq_refl eq_refl), (seg_field _ 0 0 16 _ eq_refl eq_refl), (seg_field _ 7 48 4 _ eq_refl eq_refl).
  - unfold w. by rewrite (seg_field _ 3 40 4 _ eq_refl eq_refl).
  - unfold w. by rewrite (seg_field _ 4 44 1 _ eq_refl eq_refl).
Qed.
Lemma SETGATE_word istrap sel off d : 0 <= sel < 2 ^ 16 -> 0 <= d < 4 ->
  let w := gate_word (SETGATE istrap sel off d) in
  gate_offset w = u32 off /\ field w 16 16 = sel /\ field w 40 4 = (if istrap then 15 else 14) /\ field w 44 1 = 0 /\
  field w 45 2 = d /\ field w 47 1 = 1.
Proof.
  intros Hs Hd w. unfold gate_offset, w.
  rewrite (gate_field _ 0 0 16 _ eq_refl eq_refl), (gate_field _ 8 48 16 _ eq_refl eq_refl), (gate_field _ 1 16 16 _ eq_refl eq_refl),
    (gate_field _ 4 40 4 _ eq_refl eq_refl), (gate_field _ 5 44 1 _ eq_refl eq_refl), (gate_field _ 6 45 2 _ eq_refl eq_refl),
    (gate_field _ 7 47 1 _ eq_refl eq_refl).
  cbn [SETGATE gd_off_15_0 gd_off_31_16 gd_cs gd_type gd_s gd_dpl gd_p]. split; [|split; [|split; [|split; [|split]]]]; try done.
  - change 65535 with (Z.ones 16). rewrite Z.land_ones, Z.shiftr_div_pow2 by lia. pose proof (u32_range off). lia.
  - by apply Z.mod_small.
  - by destruct istrap.
  - apply Z.mod_small. lia.
Qed.

(** ** Where traps go *)

Lemma idt_gate vectors v : 0 <= v < 256 ->
  (gate_word <$> tvinit vectors) !! Z.to_nat v = Some (gate_word (SETGATE (v =? T_SYSCALL) (Z.shiftl SEG_KCODE 3) (nth (Z.to_nat v) vectors 0) (if v =? T_SYSCALL then DPL_USER else 0))).
Proof.
  intros Hv. unfold tvinit. rewrite list_lookup_fmap. destruct (Z.eqb_spec v T_SYSCALL) as [->|Hne].
  - rewrite list_lookup_insert_eq; [done|]. rewrite length_fmap, length_seq. unfold T_SYSCALL. lia.
  - rewrite list_lookup_insert_ne by (unfold T_SYSCALL in *; lia). rewrite list_lookup_fmap.
    rewrite (lookup_seq_lt 0 256 (Z.to_nat v)) by lia. done.
Qed.
Lemma gdt_kcode ts gdt0 : length gdt0 = Z.to_nat NSEGS -> exists w, (seg_word <$> switchuvm_tss ts (seginit gdt0)) !! 1%nat = Some w /\ seg_base w = 0 /\ seg_limit w = 4294967295 /\ seg_dpl w = 0 /\ seg_is_code w = true.
Proof.
  intros Hgdt. exists (seg_word (SEG (Z.lor STA_X STA_R) 0 4294967295 0)). split.
  - unfold switchuvm_tss, seginit. rewrite list_lookup_fmap.
    destruct gdt0 as [|g0 [|g1 [|g2 [|g3 [|g4 [|g5 [|]]]]]]]; by vm_compute in Hgdt || reflexivity.
  - exact (SEG_word (Z.lor STA_X STA_R) 0 4294967295 0 ltac:(lia) ltac:(lia)).
Qed.

(** C32: where interrupts, exceptions and the [int] instruction lead once [seginit] and
    [tvinit] have filled in the tables, from any privilege level: vector [v] enters the
    kernel at [vectors[v]] in ring 0 with interrupts disabled. The system call's vector is
    the only one that leaves interrupts as they were, and the only one that user code can
    raise with [int]; every other attempt is a protection fault. *)
Theorem traps_enter_kernel vectors ts gdt0 v cpl soft ifl :
  length gdt0 = Z.to_nat NSEGS -> 0 <= v < 256 -> 0 <= cpl <= 3 ->
  int_enter (seg_word <$> switchuvm_tss ts (seginit gdt0)) (gate_word <$> tvinit vectors) v cpl soft ifl =
  if soft && negb (cpl =? 0) && negb (v =? T_SYSCALL) then None
  else Some (u32 (nth (Z.to_nat v) vectors 0), 0, if v =? T_SYSCALL then ifl else false).
Proof.
  intros Hg Hv Hc. unfold int_enter. rewrite idt_gate by done. cbn [mbind option_bind].
  set (off := nth (Z.to_nat v) vectors 0).
  destruct (SETGATE_word (v =? T_SYSCALL) (Z.shiftl SEG_KCODE 3) off (if v =? T_SYSCALL then DPL_USER else 0)) as (-> & -> & -> & -> & -> & ->).
  { vm_compute. split; [discriminate|reflexivity]. }
  { destruct (v =? T_SYSCALL); unfold DPL_USER; lia. }
  destruct (gdt_kcode ts gdt0 Hg) as (w & Hw & Eb & El & Ed & Ecode).
  change (Z.to_nat (Z.shiftl SEG_KCODE 3 / 8)) with 1%nat. rewrite Hw. cbn [mbind option_bind]. rewrite Eb, El, Ed, Ecode, Z.add_0_l, u32_idem.
  pose proof (u32_range off). rewrite (proj2 (Z.ltb_ge 4294967295 (u32 off))) by lia. rewrite (proj2 (Z.ltb_ge cpl 0)) by lia.
  destruct (v =? T_SYSCALL), soft; cbn [negb andb orb Z.eqb]; rewrite ?andb_false_r, ?andb_true_r.
  - unfold DPL_USER. by rewrite (proj2 (Z.ltb_ge 3 cpl)) by lia.
  - done.
  - destruct (Z.eqb_spec cpl 0) as [->|Hne]; [done|]. by rewrite (proj2 (Z.ltb_lt 0 cpl)) by lia.
  - done.
Qed.
(** A system call and a forged timer interrupt from user code. *)
Lemma traps_enter_kernel_witness :
  let gdt := seg_word <$> switchuvm_tss 2148532224 (seginit (replicate 6 (SEG 0 0 0 0))) in
  let idt := gate_word <$> tvinit (replicate 256 2148537000) in
  int_enter gdt idt 64 3 true true = Some (2148537000, 0, true) /\ int_enter gdt idt 32 3 true true = None /\
  int_enter gdt idt 32 3 false true = Some (2148537000, 0, false).
Proof.
  cbv zeta. split; [|split].
  - by rewrite (traps_enter_kernel (replicate 256 2148537000) 2148532224 (replicate 6 (SEG 0 0 0 0)) 64 3 true true) by (reflexivity || lia).
  - by rewrite (traps_enter_kernel (replicate 256 2148537000) 2148532224 (replicate 6 (SEG 0 0 0 0)) 32 3 true true) by (reflexivity || lia).
  - by rewrite (traps_enter_kernel (replicate 256 2148537000) 2148532224 (replicate 6 (SEG 0 0 0 0)) 32 3 false true) by (reflexivity || lia).
Defined.

(** The first page table maps the low 4 MB and the first 4 MB of the kernel's half to the
    same physical memory, and nothing else. *)
Theorem entrypgdir_maps va : 0 <= va < 2 ^ 32 ->
  pse_translate entrypgdir va =
  if va <? 4194304 then Some va
  else if (KERNBASE <=? va) && (va <? KERNBASE + 4194304) then Some (V2P va)
  else None.
Proof.
  intros Hv. assert (Hd : (va / 2 ^ 22 = 0 /\ va < 4194304) \/ (va / 2 ^ 22 = 512 /\ KERNBASE <= va < KERNBASE + 4194304) \/
    (va / 2 ^ 22 <> 0 /\ va / 2 ^ 22 <> 512 /\ 4194304 <= va /\ ~ (KERNBASE <= va < KERNBASE + 4194304))) by (unfold KERNBASE; lia).
  assert (Hm : va mod 2 ^ 22 = va - va / 2 ^ 22 * 2 ^ 22) by lia.
  unfold pse_translate, entrypgdir. rewrite Z.shiftr_div_pow2 by lia. change (Z.shiftr KERNBASE 22) with 512.
  change (Z.lor (Z.lor PTE_P PTE_W) PTE_PS) with 131.
  destruct Hd as [[E Hr]|[[E Hr]|(E & E' & Hr & Hr')]]; rewrite ?E, ?Hm, ?E.
  - rewrite (proj2 (Z.ltb_lt va _)) by lia. cbn. f_equal. lia.
  - rewrite (proj2 (Z.ltb_ge va _)), (proj2 (Z.leb_le _ va)), (proj2 (Z.ltb_lt va _)) by (unfold KERNBASE in *; lia).
    cbn. f_equal. unfold V2P, KERNBASE in *. rewrite u32_small by lia. lia.
  - rewrite (proj2 (Z.eqb_neq _ _) E), (proj2 (Z.eqb_neq _ _) E'). rewrite (proj2 (Z.ltb_ge va _)) by lia.
    destruct (Z.leb_spec KERNBASE va), (Z.ltb_spec va (KERNBASE + 4194304)); try done. lia.
Qed.

(** ** main.c: starting the other processors *)

(** The page allocator with the memory, and the hardware. *)
Record start (S : Type) := Start { so_km : kmem; so_bus : S }.
Arguments Start {S}.
Arguments so_km {S}.
Arguments so_bus {S}.

Section StartOthers.
Context {S : Type} `{Bus S}.
(** What the other processors do while this one waits, with the memory they see; whether
    [cpus[c].started] is set. *)
Variables (cpu_run : mem -> S -> S) (started : Z -> S -> bool).
Variables (rounds : nat) (lapic mpenter pgdir : Z).

Definition so_km_lens : lens (start S) kmem := Lens so_km (fun k s => Start k (so_bus s)).
Definition so_machine_lens : lens (start S) (machine S) :=
  Lens (fun s => Machine (km_mem (so_km s)) (so_bus s)) (fun mc s => Start (set_km_mem (mc_mem mc) (so_km s)) (mc_bus mc)).
Definition so_store (a v : Z) : M (start S) unit := zoom so_machine_lens (on_mem (fun m => st32 m a v)).
(** [while(c->started == 0);], [rounds] reads at most. *)
Fixpoint wait_started (rounds : nat) (c : Z) : M (start S) unit :=
  match rounds with
  | O => fun _ => NoFuel
  | Datatypes.S rounds =>
    let! s := get in
    if started c (so_bus s) then ret tt
    else modify (fun s => Start (so_km s) (cpu_run (km_mem (so_km s)) (so_bus s))) ;;; wait_started rounds c
  end.
(** [ids]: the APIC ids of the processors from number [c] on; this is processor [me]. *)
Fixpoint start_loop (me code c : Z) (ids : list Z) : M (start S) unit :=
  match ids with
  | [] => ret tt
  | apicid :: ids =>
    (if c =? me then ret tt
     else
     let! stack := zoom so_km_lens kalloc in
     so_store (code - 4) (stack + KSTACKSIZE) ;;;
     so_store (code - 8) mpenter ;;;
     so_store (code - 12) (V2P pgdir) ;;;
     zoom so_machine_lens (lapicstartap lapic apicid (V2P code)) ;;;
     wait_started rounds c) ;;;
    start_loop me code (c + 1) ids
  end.
(** The image of entryother.S is [size] bytes at [image]. *)
Definition startothers (image size me : Z) (ids : list Z) : M (start S) unit :=
  let code := P2V 28672 in
  zoom so_machine_lens (on_mem (fun m => memmove m code image size)) ;;;
  start_loop me code 0 ids.
End StartOthers.

(** *** Hardware with several processors *)

(** The local APIC's destination register, the startup interrupt not yet taken (APIC id and
    page), and the processors that run: APIC id, and the three words before their code. *)
Record smp_hw := SmpHw { sm_icrhi : Z; sm_pending : option (Z * Z); sm_run : list (Z * (Z * Z * Z)) }.
Definition LAPIC : Z := 4276092928.
Definition smp_store (a v : Z) (s : smp_hw) : smp_hw :=
  if a =? LAPIC + 4 * L_ICRHI then SmpHw v (sm_pending s) (sm_run s)
  else if (a =? LAPIC + 4 * L_ICRLO) && (Z.land v 1792 =? STARTUP) then
    SmpHw (sm_icrhi s) (Some (Z.shiftr (sm_icrhi s) 24, Z.land v 255)) (sm_run s)
  else s.
#[export] Instance smp_bus : Bus smp_hw := {|
  bus_in := fun _ s => (0, s);
  bus_out := fun _ _ s => s;
  bus_insl := fun _ _ s => ([], s);
  bus_outsl := fun _ _ s => s;
  bus_load := fun _ s => (0, s);
  bus_store := smp_store
|}.
(** A processor that was sent the interrupt starts at the page, unless it runs already. *)
Definition smp_step (m : mem) (s : smp_hw) : smp_hw :=
  match sm_pending s with
  | None => s
  | Some (id, page) =>
    let code := P2V (4096 * page) in
    SmpHw (sm_icrhi s) None
      (if existsb (fun r => r.1 =? id) (sm_run s) then sm_run s
       else sm_run s ++ [(id, (ld32 m (code - 4), ld32 m (code - 8), ld32 m (code - 12)))])
  end.
Definition smp_started (ids : list Z) (c : Z) (s : smp_hw) : bool :=
  existsb (fun r => r.1 =? nth (Z.to_nat c) ids (-1)) (sm_run s).

Definition CODE : Z := 2147512320.   (* P2V(0x7000) *)
(** The same memory from the code on. *)
Definition low_same (m m' : mem) : Prop := forall a, CODE <= a -> m' a = m a.

Lemma st16_other m a v x : x < a \/ a + 2 <= x -> st16 m a v x = m x.
Proof. intros H. unfold st16. by rewrite !upd_ne by lia. Qed.
Definition smp_hi (v : Z) (s : smp_hw) : smp_hw := SmpHw v (sm_pending s) (sm_run s).
Definition smp_lo (v : Z) (s : smp_hw) : smp_hw :=
  if Z.land v 1792 =? STARTUP then SmpHw (sm_icrhi s) (Some (Z.shiftr (sm_icrhi s) 24, Z.land v 255)) (sm_run s) else s.
(** One processor is sent its interrupts; nothing at or above the code is written, nor the
    three words before it. *)
Lemma lapicstartap_smp id m b : 0 <= id < 256 ->
  exists m', lapicstartap LAPIC id (V2P CODE) (Machine m b) =
    Ret tt (Machine m' (SmpHw (u32 (Z.shiftl id 24)) (Some (id, 7)) (sm_run b))) /\ (forall a, CODE - 12 <= a -> m' a = m a).
Proof.
  intros Hid. set (wrv := P2V (Z.lor (Z.shiftl 64 4) 103)). set (hi := u32 (Z.shiftl id 24)).
  exists (st16 (st16 m wrv 0) (wrv + 2) (u16 (Z.shiftr (V2P CODE) 4))). split.
  - assert (Ehi : Z.shiftr hi 24 = id).
    { unfold hi. rewrite Z.shiftl_mul_pow2, Z.shiftr_div_pow2 by lia. rewrite u32_small by lia. lia. }
    transitivity (Ret (S := machine smp_hw) tt (Machine (st16 (st16 m wrv 0) (wrv + 2) (u16 (Z.shiftr (V2P CODE) 4)))
      (smp_lo 1543 (smp_hi hi (smp_lo 1543 (smp_hi hi (smp_lo 34048 (smp_lo 50432 (smp_hi hi b))))))))); [reflexivity|].
    unfold smp_hi, smp_lo. change (Z.land 1543 1792 =? STARTUP) with true. change (Z.land 34048 1792 =? STARTUP) with false.
    change (Z.land 50432 1792 =? STARTUP) with false. cbn [sm_icrhi sm_pending sm_run]. by rewrite Ehi.
  - intros a Ha. assert (Hw : wrv + 4 <= CODE - 12) by (vm_compute; discriminate). by rewrite !st16_other by lia.
Qed.

(** What the processors that are started find: the top of the next free page as the stack,
    [mpenter] and the first page table. *)
Fixpoint launched (mpenter pgdir me c : Z) (ids pages : list Z) : list (Z * (Z * Z * Z)) :=
  match ids with
  | [] => []
  | id :: ids =>
    if c =? me then launched mpenter pgdir me (c + 1) ids pages
    else (id, (u32 (hd 0 pages + KSTACKSIZE), u32 mpenter, V2P pgdir)) :: launched mpenter pgdir me (c + 1) ids (tail pages)
  end.
Fixpoint pages_left (me c : Z) (ids pages : list Z) : list Z :=
  match ids with
  | [] => pages
  | _ :: ids => if c =? me then pages_left me (c + 1) ids pages else pages_left me (c + 1) ids (tail pages)
  end.

Section Starting.
Variables (kend mpenter pgdir me : Z) (ids0 : list Z) (rounds : nat).
Hypotheses (Hkend : CODE <= kend) (Hids : Forall (fun id => 0 <= id < 256) ids0) (Hnd : NoDup ids0) (Hrounds : (2 <= rounds)%nat).

Lemma kmem_low m' s l : kmem_inv kend s l -> low_same (km_mem s) m' -> kmem_inv kend (set_km_mem m' s) l.
Proof.
  intros [Hl Hn Hk] Hm. split; [|done|done]. cbn [km_mem set_km_mem km_freelist]. eapply freelist_frame; [|done].
  intros v Hv. apply (freelist_pages _ _ _ _ _ Hl) in Hv as [_ Hv]. unfold ld32, low_same in *. rewrite !Hm by lia. done.
Qed.
(** The words stored before the code. *)
Lemma words_before m stack : let m' := st32 (st32 (st32 m (CODE - 4) stack) (CODE - 8) mpenter) (CODE - 12) (V2P pgdir) in
  ld32 m' (CODE - 4) = u32 stack /\ ld32 m' (CODE - 8) = u32 mpenter /\ ld32 m' (CODE - 12) = V2P pgdir /\ low_same m m'.
Proof.
  intros m'. unfold m'. split; [|split; [|split]].
  - by rewrite !ld32_st32_ne, ld32_st32_eq by lia.
  - by rewrite ld32_st32_ne, ld32_st32_eq by lia.
  - rewrite ld32_st32_eq. apply u32_small. unfold V2P. apply u32_range.
  - intros a Ha. by rewrite !st32_other by lia.
Qed.
Lemma not_running (run : list (Z * (Z * Z * Z))) id : (forall r, r ∈ run -> r.1 <> id) -> existsb (fun r => r.1 =? id) run = false.
Proof.
  intros H. apply not_true_is_false. intros (r & Hr & E)%existsb_exists. apply Z.eqb_eq in E. apply (H r); [by apply list_elem_of_In|done].
Qed.

Lemma start_one c id km l b : ids0 !! Z.to_nat c = Some id -> 0 <= c -> kmem_inv kend km l -> sm_pending b = None ->
  (forall r, r ∈ sm_run b -> r.1 <> id) ->
  exists km' b', (let! stack := zoom so_km_lens kalloc in
     so_store (CODE - 4) (stack + KSTACKSIZE) ;;; so_store (CODE - 8) mpenter ;;; so_store (CODE - 12) (V2P pgdir) ;;;
     zoom so_machine_lens (lapicstartap LAPIC id (V2P CODE)) ;;;
     wait_started smp_step (smp_started ids0) rounds c) (Start km b) = Ret tt (Start km' b') /\
    kmem_inv kend km' (tail l) /\ sm_pending b' = None /\
    sm_run b' = sm_run b ++ [(id, (u32 (hd 0 l + KSTACKSIZE), u32 mpenter, V2P pgdir))].
Proof.
  intros Hc Hc0 Hk Hp Hrun. assert (Hke : KERNBASE < kend) by (unfold KERNBASE, CODE in *; lia). destruct (kalloc_run kend Hke km l Hk) as (km1 & E1 & K1 & M1 & U1).
  assert (Hid : 0 <= id < 256) by (rewrite Forall_lookup in Hids; by eapply Hids).
  set (stack := match l with [] => 0 | v :: _ => v end) in *. assert (Es : hd 0 l = stack) by (by destruct l).
  destruct (words_before (km_mem km1) (stack + KSTACKSIZE)) as (W1 & W2 & W3 & WL).
  set (m1 := st32 (st32 (st32 _ _ _) _ _) _ _) in *.
  destruct (lapicstartap_smp id m1 b Hid) as (m2 & E2 & L2).
  set (b2 := SmpHw _ _ _) in E2.
  set (b3 := SmpHw (sm_icrhi b2) None (sm_run b ++ [(id, (u32 (stack + KSTACKSIZE), u32 mpenter, V2P pgdir))])).
  assert (E3 : smp_step m2 b2 = b3).
  { unfold smp_step, b2. cbn [sm_pending sm_run]. change (P2V (4096 * 7)) with CODE. rewrite not_running by done.
    unfold ld32. rewrite !L2 by lia. fold (ld32 m1 (CODE - 4)) (ld32 m1 (CODE - 8)) (ld32 m1 (CODE - 12)). by rewrite W1, W2, W3. }
  assert (S2 : smp_started ids0 c b2 = false) by (unfold smp_started; rewrite (nth_lookup_Some _ _ _ _ Hc); by apply not_running).
  assert (S3 : smp_started ids0 c b3 = true).
  { unfold smp_started. rewrite (nth_lookup_Some _ _ _ _ Hc). cbn [sm_run b3]. rewrite existsb_app. cbn. by rewrite Z.eqb_refl, orb_true_r. }
  exists (set_km_mem m2 km1), b3. split; [|split; [|split; [done|by rewrite Es]]].
  - erewrite run_bind_zoom by exact E1. cbn [lset so_km_lens so_bus]. unfold so_store.
    do 3 (erewrite run_bind_zoom by reflexivity; cbn [lset lget so_machine_lens mc_mem mc_bus so_km so_bus km_mem set_km_mem]).
    erewrite run_bind_zoom by exact E2. cbn [lset so_machine_lens mc_mem mc_bus so_km so_bus].
    destruct rounds as [|[|r]]; [lia..|]. cbn [wait_started]. rewrite run_bind_get. cbn [so_bus so_km]. rewrite S2.
    rewrite run_bind_modify, run_bind_get. cbn [so_bus so_km km_mem set_km_mem]. rewrite E3, S3. done.
  - apply kmem_low; [done|]. intros a Ha. rewrite L2 by lia. by apply WL.
Qed.
Lemma start_loop_run ids : forall c km l b, drop (Z.to_nat c) ids0 = ids -> 0 <= c -> kmem_inv kend km l -> sm_pending b = None ->
  (forall r, r ∈ sm_run b -> r.1 ∉ ids) ->
  exists km' b', start_loop smp_step (smp_started ids0) rounds LAPIC mpenter pgdir me CODE c ids (Start km b) = Ret tt (Start km' b') /\
    kmem_inv kend km' (pages_left me c ids l) /\ sm_run b' = sm_run b ++ launched mpenter pgdir me c ids l.
Proof.
  induction ids as [|id ids IH]; intros c km l b Hd Hc Hk Hp Hrun; cbn [start_loop launched pages_left].
  { exists km, b. by rewrite app_nil_r. }
  assert (Hid : ids0 !! Z.to_nat c = Some id) by (rewrite <-(Nat.add_0_r (Z.to_nat c)), <-lookup_drop, Hd; done).
  assert (Hd' : drop (Z.to_nat (c + 1)) ids0 = ids).
  { replace (Z.to_nat (c + 1)) with (Z.to_nat c + 1)%nat by lia. by rewrite <-drop_drop, Hd. }
  assert (Hni : id ∉ ids).
  { assert (Hn : NoDup (drop (Z.to_nat c) ids0)) by (rewrite <-(take_drop (Z.to_nat c) ids0) in Hnd; by apply NoDup_app in Hnd as (_ & _ & ?)).
    rewrite Hd in Hn. by apply NoDup_cons in Hn as [? _]. }
  destruct (c =? me).
  - rewrite run_bind_ret. apply IH; [done|lia|done|done|]. intros r Hr Hi. apply (Hrun r Hr). by right.
  - destruct (start_one c id km l b Hid Hc Hk Hp) as (km1 & b1 & E1 & K1 & P1 & R1).
    { intros r Hr E. apply (Hrun r Hr). rewrite E. by left. }
    erewrite bind_eq by exact E1.
    destruct (IH (c + 1) km1 (tail l) b1) as (km2 & b2 & E2 & K2 & R2); [done|lia|done|done| |].
    { rewrite R1. intros r [Hr| ->%list_elem_of_singleton]%elem_of_app; [|done]. intros Hi. apply (Hrun r Hr). by right. }
    exists km2, b2. split; [done|]. split; [done|]. by rewrite R2, R1, <-app_assoc.
Qed.
End Starting.

(** Starting the other processors of the machine: each processor of the table but this one is
    started exactly once, in order, at the copy of entryother.S, and finds before it the
    top of a page of its own as its stack, [mpenter] and the first page table; the pages
    taken leave the free list. When there is no free page the stack is at 4096: the
    result of [kalloc] is not tested. *)
Theorem startothers_starts kend mpenter pgdir me ids rounds image size km pages hi :
  CODE + size <= kend -> 0 <= size -> Forall (fun id => 0 <= id < 256) ids -> NoDup ids -> (2 <= rounds)%nat ->
  kmem_inv kend km pages ->
  exists km' b', startothers smp_step (smp_started ids) rounds LAPIC mpenter pgdir image size me ids (Start km (SmpHw hi None [])) = Ret tt (Start km' b') /\
    kmem_inv kend km' (pages_left me 0 ids pages) /\ sm_run b' = launched mpenter pgdir me 0 ids pages.
Proof.
  intros Hkend Hsz Hids Hnd Hr Hk. unfold startothers. change (P2V 28672) with CODE.
  erewrite run_bind_zoom by reflexivity. cbn [lset lget so_machine_lens mc_mem mc_bus so_km so_bus].
  destruct (start_loop_run kend mpenter pgdir me ids rounds) with (ids := ids) (c := 0)
    (km := set_km_mem (memmove (km_mem km) CODE image size) km) (l := pages) (b := SmpHw hi None []) as (km' & b' & E & K & R); try done; try lia.
  - destruct Hk as [Hl Hn Hlk]. split; [|done|done]. cbn [km_mem set_km_mem km_freelist]. eapply freelist_frame; [|done].
    intros v Hv. apply (freelist_pages _ _ _ _ _ Hl) in Hv as [_ Hv]. unfold ld32. rewrite !memmove_spec by done. unfold in_range.
    rewrite !(proj2 (andb_false_iff _ _)) by (right; lia). done.
  - intros r Hr'. by apply elem_of_nil in Hr'.
  - exists km', b'. done.
Qed.
