(* ===== verification/Panic.v ===== *)
(** * procdump of proc.c and panic of console.c

    The process listing and the message of a panic are lists of calls of [cprintf]. A panic
    inside a panic is a call of [panic] again. *)
From S2P Require Import Prelude Iface CString Printf Console ConsoleSpec Proc.

(** A call of [cprintf]; [cl_str] reads the strings of its [%s] arguments. *)
Record call := Call { cl_fmt : list Z; cl_ap : list Z; cl_str : Z -> list Z }.
Definition say (fmt : string) (ap : list Z) : call := Call (codes fmt) ap (fun _ => []).
Definition newline : call := Call [10] [] (fun _ => []).

(** What a sequence of calls does: it ends, a call panics (with the console as it was before
    that call: the panic of [acquire] comes before anything is printed), or it never ends. *)
Inductive ran := Done (c : con) | Panicked (msg : string) (c : con) | Frozen.
Fixpoint run_calls (l : list call) (c : con) : ran :=
  match l with
  | [] => Done c
  | k :: l =>
    match cprintf (cl_str k) (cl_fmt k) (cl_ap k) c with
    | Ret _ c' => run_calls l c'
    | Panic m => Panicked m c
    | _ => Frozen
    end
  end.

(** ** proc.c *)

Definition state_text (st : procstate) : list Z :=
  codes match st with
  | UNUSED => "unused" | EMBRYO => "embryo" | SLEEPING => "sleep "
  | RUNNABLE => "runble" | RUNNING => "run   " | ZOMBIE => "zombie"
  end.
Fixpoint take_nonzero (l : list Z) : list Z :=
  match l with [] => [] | x :: l => if x =? 0 then [] else x :: take_nonzero l end.

Section Dump.
(** Compiled with the MLFQ scheduler; the ten words of [getcallerpcs] for a sleeping
    process. *)
Variables (mlfq : bool) (pcs : nat -> list Z).

Definition dump_proc (s : ptab) (i : nat) : list call :=
  let p := proc_at s i in
  match pr_state p with
  | UNUSED => []
  | st =>
    [Call (codes "%d %s %s") [pr_pid p; 1; 2] (fun a => if a =? 1 then state_text st else until_nul (pr_name p))] ++
    match st with SLEEPING => (fun pc => say " %p" [pc]) <$> take_nonzero (pcs i) | _ => [] end ++
    (if mlfq then [say " - queue %d" [getQIdx s i]] else []) ++
    [newline]
  end.
(** [None]: a place without a process is dereferenced. *)
Fixpoint dump_queue (fuel : nat) (s : ptab) (q j : Z) : option (list call) :=
  match fuel with
  | O => None
  | S fuel =>
    if j =? backIndex s q then Some []
    else
    p ← rg_arr (ring_at s q) !! j;
    l ← dump_queue fuel s q (next_idx j);
    Some (say "%d " [pr_pid (proc_at s p)] :: l)
  end.
Fixpoint dump_queues (qs : list nat) (s : ptab) : option (list call) :=
  match qs with
  | [] => Some []
  | q :: qs =>
    let start := rg_start (ring_at s (Z.of_nat q)) in
    l ← dump_queue (Z.to_nat MAX_PROC_COUNT) s (Z.of_nat q) start;
    r ← dump_queues qs s;
    Some (say "Queue %d (%d): " [Z.of_nat q; start] :: l ++ newline :: r)
  end.
Definition procdump (s : ptab) : option (list call) :=
  let l := seq 0 (length (pt_proc s)) ≫= dump_proc s in
  if mlfq then
    qs ← dump_queues (seq 0 PQ_COUNT) s;
    Some (l ++ Call (codes "Queue status" ++ [10]) [] (fun _ => []) :: qs)
  else Some l.

(** ** console.c *)

(** The message, and the ten words of [getcallerpcs]. *)
Definition panic_calls (lapicid : Z) (msg : list Z) (callers : list Z) : list call :=
  [say "lapicid %d: panic: " [lapicid]; Call msg [] (fun _ => []); newline] ++ ((fun pc => say " %p" [pc]) <$> callers).
(** How a panic ends: the processor stops in the loop, a place without a process is
    dereferenced, another processor has stopped this one, or [fuel] panics inside one another
    were not enough. *)
Inductive panic_end := PHalt (c : con) | PFault | PFrozen | PNoFuel.
Fixpoint kpanic (fuel : nat) (s : ptab) (lapicid : Z) (callers : list Z) (msg : list Z) (c : con) : panic_end :=
  match fuel with
  | O => PNoFuel
  | S fuel =>
    match procdump s with
    | None => PFault
    | Some dump =>
      match run_calls dump c with
      | Panicked m c => kpanic fuel s lapicid callers (codes m) c
      | Frozen => PFrozen
      | Done c =>
        match run_calls (panic_calls lapicid msg callers) (set_cn_locking false c) with
        | Panicked m c => kpanic fuel s lapicid callers (codes m) c
        | Frozen => PFrozen
        | Done c => PHalt (set_cn_panicked true c)
        end
      end
    end
  end.
End Dump.

(** ** What is printed *)

Definition byte_list (l : list Z) : Prop := Forall (fun x => 0 <= x < 256) l.
(** A call with as many arguments as its format asks for, whose strings are bytes. *)
Definition call_ok (k : call) : Prop :=
  is_Some (cprintf_loop (cl_str k) (cl_fmt k) (cl_ap k)) /\ forall a, byte_list (cl_str k a).
Definition call_text (k : call) : list Z := default [] (cprintf_loop (cl_str k) (cl_fmt k) (cl_ap k)).
Definition text_of (l : list call) : list Z := concat (call_text <$> l).

Lemma codes_bytes s : byte_list (codes s).
Proof.
  apply Forall_fmap, Forall_true. intros a. unfold compose. pose proof (Ascii.nat_ascii_bounded a). lia.
Qed.
Lemma until_nul_bytes l : byte_list l -> byte_list (until_nul l).
Proof. induction 1 as [|x l Hx Hl IH]; cbn; [constructor|]. destruct (x =? 0); [constructor|by constructor]. Qed.
Lemma kprintint_bytes x base sign : byte_list (kprintint x base sign).
Proof.
  assert (Hd : forall i, 0 <= znth digits_lower i < 256).
  { intros i. unfold znth. destruct (i <? 0); [lia|]. destruct (nth_in_or_default (Z.to_nat i) digits_lower 0) as [Hi| ->]; [|lia].
    pose proof (codes_bytes "0123456789abcdef") as Hb. unfold byte_list in Hb. rewrite Forall_forall in Hb. apply Hb. by apply list_elem_of_In. }
  assert (Hl : forall n y, byte_list (digits_loop n (znth digits_lower) y base)).
  { induction n as [|n IH]; intros y; cbn [digits_loop]; constructor; [apply Hd|]. destruct (_ =? 0); [constructor|apply IH]. }
  unfold kprintint, byte_list. rewrite <-reverse_rev || idtac. apply Forall_forall. intros y Hy. apply list_elem_of_In, in_rev in Hy.
  revert y Hy. setoid_rewrite <-list_elem_of_In. apply Forall_forall. destruct (negb _ && _); [|apply Hl].
  apply Forall_app. split; [apply Hl|]. repeat constructor; lia.
Qed.

Lemma u8_byte c : 0 <= u8 c < 256.
Proof. unfold u8. lia. Qed.
Lemma cprintf_bytes str : (forall a, byte_list (str a)) -> forall n fmt ap out, (length fmt <= n)%nat ->
  cprintf_loop str fmt ap = Some out -> byte_list out.
Proof.
  intros Hs. induction n as [|n IH]; intros [|c fmt] ap out Hn E; cbn [length] in Hn; try lia; cbn [cprintf_loop] in E; try (simplify_eq; constructor).
  assert (HI : forall ap out, cprintf_loop str fmt ap = Some out -> byte_list out) by (intros; eapply IH; [|done]; lia).
  destruct (negb (c =? 37)).
  { destruct (cprintf_loop str fmt ap) eqn:E1; simplify_eq/=. constructor; [apply u8_byte|by eapply HI]. }
  destruct fmt as [|d fmt]; [simplify_eq; constructor|]. cbn [length] in Hn.
  assert (HJ : forall ap out, cprintf_loop str fmt ap = Some out -> byte_list out) by (intros; eapply IH; [|done]; lia).
  destruct (d =? 100); [|destruct ((d =? 120) || (d =? 112)); [|destruct (d =? 115); [|destruct (d =? 37)]]].
  - destruct ap as [|a ap]; [done|]. destruct (cprintf_loop str fmt ap) eqn:E1; simplify_eq/=. apply Forall_app. split; [apply kprintint_bytes|by eapply HJ].
  - destruct ap as [|a ap]; [done|]. destruct (cprintf_loop str fmt ap) eqn:E1; simplify_eq/=. apply Forall_app. split; [apply kprintint_bytes|by eapply HJ].
  - destruct ap as [|a ap]; [done|]. destruct (cprintf_loop str fmt ap) eqn:E1; simplify_eq/=. apply Forall_app.
    split; [destruct (a =? 0); [apply codes_bytes|apply Hs]|by eapply HJ].
  - destruct (cprintf_loop str fmt ap) eqn:E1; simplify_eq/=. constructor; [lia|by eapply HJ].
  - destruct (cprintf_loop str fmt ap) eqn:E1; simplify_eq/=. constructor; [lia|]. constructor; [apply u8_byte|by eapply HJ].
Qed.
Lemma call_bytes k : call_ok k -> byte_list (call_text k).
Proof.
  intros [[out E] Hs]. unfold call_text. rewrite E. by eapply cprintf_bytes.
Qed.

(** Bytes go to the serial port in order. *)
Lemma consputs_run l : forall c, byte_list l -> cn_panicked c = false -> screen_ok c ->
  exists c', consputs l c = Ret tt c' /\ screen_ok c' /\ same_input c c' /\ cn_uart c' = cn_uart c ++ l.
Proof.
  induction l as [|x l IH]; intros c Hl Hp Hs; inversion Hl as [|? ? Hx Hl']; subst; cbn [consputs].
  { exists c. rewrite app_nil_r. split; [done|]. split; [done|]. split; [apply same_input_refl|done]. }
  destruct (cgaputc_run x (set_cn_uart (cn_uart c ++ [u8 x]) c)) as (c1 & E1 & S1 & I1 & U1); [done|].
  assert (I1' : same_input c c1) by (eapply same_input_trans; [|exact I1]; by destruct c).
  destruct (IH c1) as (c2 & E2 & S2 & I2 & U2); [done|by rewrite (proj1 (proj2 (proj2 (same_input_fields _ _ I1'))))|done|].
  exists c2. split.
  - erewrite bind_eq; [exact E2|]. unfold consputc. rewrite run_bind_get, Hp. unfold BACKSPACE.
    rewrite (proj2 (Z.eqb_neq x 256)) by lia. unfold uartputc. rewrite run_bind_modify. exact E1.
  - split; [done|]. split; [by eapply same_input_trans|]. rewrite U2, U1. cbn [cn_uart set_cn_uart]. rewrite u8_small by lia. by rewrite <-app_assoc.
Qed.
Definition nested (c : con) : bool := cn_locking c && cn_lock c.
Lemma cprintf_run k c : call_ok k -> nested c = false -> cn_panicked c = false -> screen_ok c ->
  exists c', cprintf (cl_str k) (cl_fmt k) (cl_ap k) c = Ret tt c' /\ screen_ok c' /\ same_input c c' /\ cn_uart c' = cn_uart c ++ call_text k.
Proof.
  intros Hk Hn Hp Hs. pose proof (call_bytes k Hk) as Hb. destruct Hk as [[out E] _]. unfold call_text in *. rewrite E in *. cbn [default from_option id] in *.
  unfold cprintf. rewrite run_bind_get, E. cbv zeta. unfold nested in Hn. destruct (cn_locking c) eqn:Hl; cbn [andb] in Hn.
  - cbn [when]. erewrite bind_eq; [|apply zoom_eq; cbn; by rewrite Hn]. cbn [lset cn_lock_lens].
    destruct (consputs_run out (set_cn_lock true c)) as (c1 & E1 & S1 & I1 & U1); [done..|].
    destruct (same_input_fields _ _ I1) as (L1 & _). erewrite bind_eq by exact E1.
    exists (set_cn_lock false c1). split; [apply (zoom_eq cn_lock_lens); cbn [lget cn_lock_lens]; rewrite L1; done|]. split; [done|]. split; [|done].
    unfold same_input in *. rewrite I1. destruct c; cbn in *. by subst.
  - rewrite run_bind_when_false. destruct (consputs_run out c) as (c1 & E1 & S1 & I1 & U1); [done..|].
    erewrite bind_eq by exact E1. exists c1. done.
Qed.
Lemma run_calls_run l : forall c, Forall call_ok l -> nested c = false -> cn_panicked c = false -> screen_ok c ->
  exists c', run_calls l c = Done c' /\ screen_ok c' /\ same_input c c' /\ cn_uart c' = cn_uart c ++ text_of l.
Proof.
  induction l as [|k l IH]; intros c Hl Hn Hp Hs; cbn [run_calls].
  { exists c. rewrite app_nil_r. split; [done|]. split; [done|]. split; [apply same_input_refl|done]. }
  inversion Hl as [|? ? Hk Hl']; subst. destruct (cprintf_run k c) as (c1 & E1 & S1 & I1 & U1); [done..|]. rewrite E1.
  destruct (same_input_fields _ _ I1) as (L1 & L2 & L3 & _).
  destruct (IH c1) as (c2 & E2 & S2 & I2 & U2); [done|unfold nested in *; by rewrite L1, L2|by rewrite L3|done|].
  exists c2. split; [done|]. split; [done|]. split; [by eapply same_input_trans|]. rewrite U2, U1. unfold text_of. cbn [fmap list_fmap concat].
  by rewrite <-app_assoc.
Qed.
Lemma run_calls_nested k l c : nested c = true -> run_calls (k :: l) c = Panicked "acquire" c.
Proof.
  unfold nested. intros Hn. apply andb_true_iff in Hn as [H1 H2]. cbn [run_calls]. unfold cprintf. rewrite run_bind_get. cbv zeta. rewrite H1.
  rewrite run_bind_when_true. unfold bind at 1, zoom at 1, spin_acquire. cbn [lget cn_lock_lens]. by rewrite H2.
Qed.

(** ** The listing *)

Lemma say_ok fmt ap : is_Some (cprintf_loop (fun _ => []) (codes fmt) ap) -> call_ok (say fmt ap).
Proof. intros H. split; [done|]. intros a. constructor. Qed.
Lemma plain_ok text : Forall (fun x => 0 <= x < 256 /\ x <> 37) text -> call_ok (Call text [] (fun _ => [])).
Proof.
  intros H. split; [|intros a; constructor]. cbn [cl_str cl_fmt cl_ap]. induction H as [|x l [Hx Hn] Hl [out E]]; [by eexists|].
  cbn [cprintf_loop]. rewrite (proj2 (Z.eqb_neq x 37)) by done. cbn [negb]. rewrite E. by eexists.
Qed.
Lemma newline_ok : call_ok newline.
Proof. split; [by eexists|]. intros a. constructor. Qed.
#[local] Opaque kprintint dump_queue.
Section Listing.
Variables (mlfq : bool) (pcs : nat -> list Z).
Definition names_ok (s : ptab) : Prop := forall i, byte_list (pr_name (proc_at s i)).

Lemma dump_proc_ok s i : names_ok s -> Forall call_ok (dump_proc mlfq pcs s i).
Proof.
  intros Hn. unfold dump_proc.
  assert (H1 : forall st, call_ok (Call (codes "%d %s %s") [pr_pid (proc_at s i); 1; 2]
    (fun a => if a =? 1 then state_text st else until_nul (pr_name (proc_at s i))))).
  { intros st. split; [by eexists|]. intros a. cbn [cl_str]. destruct (a =? 1); [apply codes_bytes|]. apply until_nul_bytes, Hn. }
  assert (H2 : Forall call_ok ((if mlfq then [say " - queue %d" [getQIdx s i]] else []) ++ [newline])).
  { apply Forall_app. split; [|repeat constructor; apply newline_ok]. destruct mlfq; [|constructor]. constructor; [apply say_ok; by eexists|constructor]. }
  assert (H3 : Forall call_ok ((fun pc => say " %p" [pc]) <$> take_nonzero (pcs i))).
  { apply Forall_fmap, Forall_true. intros pc. apply say_ok. by eexists. }
  destruct (pr_state (proc_at s i)); try done; (constructor; [apply H1|]); cbn [app]; try done. by apply Forall_app.
Qed.
Lemma dump_queue_ok fuel s q : forall j l, dump_queue fuel s q j = Some l -> Forall call_ok l.
Proof.
  induction fuel as [|fuel IH]; intros j l E; cbn [dump_queue] in E; [done|]. destruct (j =? backIndex s q); [by simplify_eq|].
  destruct (rg_arr (ring_at s q) !! j) as [p|]; [|done]. cbn [mbind option_bind] in E. destruct (dump_queue fuel s q (next_idx j)) eqn:E1; simplify_eq/=.
  constructor; [apply say_ok; by eexists|by eapply IH].
Qed.
Lemma dump_queues_ok s : forall qs l, dump_queues qs s = Some l -> Forall call_ok l.
Proof.
  induction qs as [|q qs IH]; intros l E; cbn [dump_queues] in E; [by simplify_eq|].
  destruct (dump_queue _ _ _ _) eqn:E1; [|done]. cbn [mbind option_bind] in E. destruct (dump_queues qs s) eqn:E2; simplify_eq/=.
  constructor; [apply say_ok; by eexists|]. apply Forall_app. split; [by eapply dump_queue_ok|]. constructor; [apply newline_ok|by apply IH].
Qed.
Lemma procdump_ok s l : names_ok s -> procdump mlfq pcs s = Some l -> Forall call_ok l.
Proof.
  intros Hn E. unfold procdump in E.
  assert (Hp : Forall call_ok (seq 0 (length (pt_proc s)) ≫= dump_proc mlfq pcs s)).
  { apply Forall_bind. apply Forall_true. intros i. by apply dump_proc_ok. }
  destruct mlfq; [|by simplify_eq]. destruct (dump_queues _ _) eqn:E1; [|done]. apply dump_queues_ok in E1.
  cbn [mbind option_bind] in E. injection E as <-. apply Forall_app. split; [done|]. constructor; [|done]. split; [by eexists|]. intros a. constructor.
Qed.
(** A process in use is listed. *)
Lemma procdump_used s l i : procdump mlfq pcs s = Some l -> (i < length (pt_proc s))%nat -> pr_state (proc_at s i) <> UNUSED -> l <> [].
Proof.
  intros E Hi Hu Hl. subst l. unfold procdump in E.
  assert (Hp : seq 0 (length (pt_proc s)) ≫= dump_proc mlfq pcs s <> []).
  { intros Hnil. assert (Hin : exists x, x ∈ dump_proc mlfq pcs s i) by (unfold dump_proc; destruct (pr_state (proc_at s i)); [done|eexists; left..]).
    destruct Hin as [x Hx]. assert (x ∈ seq 0 (length (pt_proc s)) ≫= dump_proc mlfq pcs s) as Hx' by (apply list_elem_of_bind; exists i; split; [done|]; apply elem_of_seq; lia).
    rewrite Hnil in Hx'. by apply elem_of_nil in Hx'. }
  destruct mlfq; [|by simplify_eq]. destruct (dump_queues _ _); [|done].
  cbn [mbind option_bind] in E. injection E as E. by destruct (_ ≫= _).
Qed.

(** C34: a panic. When this processor does not hold the console's lock (or locking is off
    already) [panic] lists the processes, prints the message and the callers, turns locking
    off and stops with [panicked] set, and the serial port has received exactly that. When it does
    hold the lock, [procdump], which runs before locking is turned off, takes the lock again,
    which is a panic again: with any process in use, [panic] calls itself without end, nothing is
    printed and the other processors are not stopped. *)
Theorem panic_spec (s : ptab) (lapicid : Z) (callers msg : list Z) (c : con) dump i fuel :
  procdump mlfq pcs s = Some dump -> names_ok s -> (i < length (pt_proc s))%nat -> pr_state (proc_at s i) <> UNUSED ->
  Forall (fun x => 0 <= x < 256 /\ x <> 37) msg -> cn_panicked c = false -> screen_ok c ->
  if cn_locking c && cn_lock c
  then kpanic mlfq pcs fuel s lapicid callers msg c = PNoFuel
  else exists c', kpanic mlfq pcs (S fuel) s lapicid callers msg c = PHalt c' /\
    cn_panicked c' = true /\ cn_locking c' = false /\ cn_buf c' = cn_buf c /\
    cn_uart c' = cn_uart c ++ text_of dump ++ text_of (panic_calls lapicid msg callers).
Proof.
  intros Ed Hn Hi Hu Hm Hp Hs. fold (nested c). destruct (nested c) eqn:Hc.
  - assert (Hd : dump <> []) by (by eapply procdump_used). destruct dump as [|k dump]; [done|]. revert msg Hm.
    induction fuel as [|fuel IH]; intros msg Hm; cbn [kpanic]; [done|]. rewrite Ed, run_calls_nested by done. apply IH.
    apply (bool_decide_unpack _). by vm_compute.
  - cbn [kpanic]. rewrite Ed. destruct (run_calls_run dump c) as (c1 & E1 & S1 & I1 & U1); [by eapply procdump_ok|done..|]. rewrite E1.
    destruct (same_input_fields _ _ I1) as (_ & _ & P1 & B1 & _).
    destruct (run_calls_run (panic_calls lapicid msg callers) (set_cn_locking false c1)) as (c2 & E2 & S2 & I2 & U2);
      [|done|by cbn; rewrite P1|done|].
    + constructor; [apply say_ok; by eexists|]. constructor; [|constructor; [apply newline_ok|]].
      * by apply plain_ok.
      * apply Forall_fmap, Forall_true. intros pc. apply say_ok. by eexists.
    + destruct (same_input_fields _ _ I2) as (_ & L2 & _ & B2 & _). rewrite E2. exists (set_cn_panicked true c2).
      split; [done|]. split; [done|]. split; [done|]. split; [cbn; by rewrite B2|]. cbn [cn_uart set_cn_panicked]. rewrite U2. cbn [cn_uart set_cn_locking]. by rewrite U1, <-app_assoc.
Qed.
End Listing.

(** One process, "init", that sleeps; a panic with the console's lock free, and held. *)
Definition panic_demo : ptab :=
  Ptab false [set_pr_name (codes "init" ++ replicate 12 0) (set_pr_pid 1 (set_pr_state SLEEPING proc0))] 2 None None 0 [] 0.
Definition con_demo (lock : bool) : con := Con lock true false [] (replicate 2000 0) 0 [] 0 0 0.
Lemma panic_spec_witness :
  (exists c', kpanic false (fun _ => [16; 0]) 1 panic_demo 0 [255] (codes "oops") (con_demo false) = PHalt c' /\
    cn_uart c' = codes "1 sleep  init 10" ++ [10] ++ codes "lapicid 0: panic: oops" ++ [10] ++ codes " ff") /\
  kpanic false (fun _ => [16; 0]) 100 panic_demo 0 [255] (codes "oops") (con_demo true) = PNoFuel.
Proof.
  assert (Hn : names_ok panic_demo).
  { intros [|[|i]]; unfold proc_at; cbn; repeat constructor; lia. }
  assert (Hm : Forall (fun x => 0 <= x < 256 /\ x <> 37) (codes "oops")) by (repeat constructor; vm_compute; (reflexivity || discriminate)).
  assert (Hs : forall b, screen_ok (con_demo b)) by (intros b; split; [cbn; lia|reflexivity]).
  split.
  - destruct (panic_spec false (fun _ => [16; 0]) panic_demo 0 [255] (codes "oops") (con_demo false) _ 0 0 eq_refl Hn ltac:(cbn; lia) ltac:(discriminate) Hm eq_refl (Hs _))
      as (c' & E & _ & _ & _ & U). exists c'. split; [exact E|]. rewrite U. vm_compute. reflexivity.
  - exact (panic_spec false (fun _ => [16; 0]) panic_demo 0 [255] (codes "oops") (con_demo true) _ 0 100 eq_refl Hn ltac:(cbn; lia) ltac:(discriminate) Hm eq_refl (Hs _)).
Defined.
